(* ===== verification/_CoqProject ===== *)
-Q . S2P
Prelude.v
GoStrings.v
Utf8.v
Unicode.v
GoText.v
NetIP.v
NetIPFacts.v
GoTextFacts.v
Effects.v
Threads.v
Guards.v
GoFmt.v
GoURL.v
Config.v
Logging.v
Http.v
Deployment.v
Remnawave.v
DnsBalancer.v
Lock.v
Repository.v
CertTypes.v
Certificates.v
CertStore.v
CertRepository.v
Preflight.v
Provisioner.v
Remote.v
XraySni.v
XrayScripts.v
XrayWorld.v
XrayScriptFacts.v
XrayFacts.v
XraySwitch.v
XrayLegacy.v
Stages.v
Service.v
ServiceFacts.v
ServiceDb.v
SshOps.v
SshFacts.v
CertStatic.v
SshClient.v
SshCommand.v
Monitoring.v
Netplan.v
CherryIP.v
RoyalIP.v
NetplanFacts.v
HostingFacts.v
NodeOps.v
NodeFacts.v
Recovery.v
CertManager.v
CertManagerFacts.v
CertTargets.v
CertDistribution.v
CertFiles.v
CertFilesFacts.v
Acme.v
AcmeFacts.v
AcmeKey.v
TgTypes.v
BotApi.v
TgApp.v
TgAppFacts.v
TgProgress.v
TgNodes.v
TgInventory.v
TgMonitor.v
TgMonitorFacts.v
TgSessions.v
TgRender.v
TgController.v
TgContract.v
TgFacts.v
TgCalls.v
TgConfirm.v
TgPasswords.v
TgButtons.v
