(* ===== verification/Prelude.v ===== *)
(** * Verification of the Remnanode deployment bot

    The program deploys proxy Nodes.  An operator talks to a Telegram bot; the
    bot drives a deployment service that prepares a VPS over SSH, creates a
    Node in the Remnawave panel, waits until the panel reports it connected
    and only then publishes its address in a DNS balancer.  Deployments are
    rows of PostgreSQL, so a restarted process can classify and continue them.
    A certificate manager issues, distributes and activates the TLS
    certificates the Nodes serve.

    ** How code becomes definitions

    Pure Go functions are Gallina functions with the name of the source.  A Go
    function that calls other parts of the system is a program [prog E A] of
    Effects.v: a finite tree of calls whose branches are all the answers the
    callee may give.  What is behind a call is either the environment, which
    may answer anything, or another modelled part (the workflow over the real
    tables in ServiceDb.v, the manager's stores in CertFiles.v, the commands of
    a VPS in SshFacts.v and XrayScriptFacts.v).  Where a caller knows another
    part through an interface, the interface is a class with its laws: the
    host key store (SshClient.v), the provider of challenges (Acme.v).  [runs] are
    the complete executions in an environment, [crashes] those cut off at any
    call, [wp] and [iwp] the weakest preconditions the proofs use.  Code with
    goroutines that share memory is a step system whose steps are the sections
    between two synchronisations, run in every interleaving (Lock.v,
    CertDistribution.v; Threads.v for pools of programs, with the contracts
    their goroutines keep).  Strings are sequences of bytes, machine integers are
    [Z] with the wrap-around written where the code can overflow, times are
    nanoseconds, an [error] that is only reported keeps the text an operator
    can see.

    ** The files

    Libraries of the language: GoStrings.v ([strings], [strconv],
    [unicode/utf8]), Utf8.v and Unicode.v (their facts and the case tables),
    NetIP.v and NetIPFacts.v ([net/netip], with the round trip of printing and
    parsing), GoText.v and GoTextFacts.v (more of [strings], [fmt], [time] and
    [sort]), GoFmt.v ([fmt], quoting, JSON strings), GoURL.v ([net/url]), Effects.v (programs and their logics), Threads.v (pools of
    programs), Guards.v (calls that need a reason), Http.v (outcomes of a
    request).

    - Deployment.v: internal/deployment, the rows and identifiers.
    - Remnawave.v: internal/remnawave, the client of the panel.
    - DnsBalancer.v: internal/dnsbalancer, the zones and the
      read-modify-write client; Lock.v: its keyed mutex (lock.go, the same
      code as certmanager/lock.go).
    - Repository.v: internal/repository and postgres/postgres.go, hostkey.go;
      CertRepository.v: postgres/certificates.go.  A method is a function of
      the transaction's time and the tables, with the semantics of its SQL.
    - CertTypes.v, Certificates.v: internal/certificates and
      certmanager/types.go; CertStore.v, CertFiles.v, CertFilesFacts.v:
      filestore.go and fallback_store.go over a file system that can fail and
      crash; CertTargets.v, CertDistribution.v: distribution.go,
      inventory_resolver.go, scoped_locker.go; CertManager.v,
      CertManagerFacts.v: manager.go.
    - Preflight.v, Provisioner.v: provisioner/preflight.go and engine.go.
    - Config.v: config/config.go; Logging.v: logging/logging.go; Monitoring.v:
      health/server.go and metrics/registry.go.
    - Service.v: orchestrator/service.go and types.go; ServiceFacts.v and
      ServiceDb.v hold its theorems over an arbitrary environment and over the
      tables of Repository.v.  CertStatic.v: orchestrator/certificate.go.
    - The VPS.  Remote.v: provisioner/remote.go, config.go,
      certificate_validation.go and the interface of xray_sni.go; Stages.v:
      stages.go, the twelve stages with their files and commands.  XraySni.v:
      xray_sni_external.go and xray_sni_legacy.go; XrayScripts.v: the shell
      scripts of these that move files, as programs; XrayWorld.v and
      XrayScriptFacts.v: the files of the VPS and what the scripts do to them;
      XrayFacts.v, XraySwitch.v, XrayLegacy.v: updates of a certificate,
      switches of the domain, the old layout.  SshOps.v: orchestrator/vps.go
      and node_sni.go over one connection; SshFacts.v its theorem.
    - SshClient.v, SshCommand.v: internal/ssh, the pinned keys and the attempts
      of a connection, the bounded output of a command.
    - Netplan.v: what cherryip and royalip share; CherryIP.v, RoyalIP.v: the
      two services; NetplanFacts.v, HostingFacts.v: their theorems.
    - Acme.v, AcmeFacts.v: certmanager/acme.go and cloudflare.go; AcmeKey.v:
      the key of the ACME account.
    - NodeOps.v, NodeFacts.v: ip_change.go, dns_sync.go, node_host_move.go.
    - Recovery.v: internal/recovery.
    - internal/telegram.  TgTypes.v: types.go, session.go, validation.go;
      BotApi.v: botapi.go; TgApp.v, TgAppFacts.v: the application behind the
      bot (orchestrator/telegram.go);
      TgProgress.v: deployment_progress.go and deployment_history.go;
      TgNodes.v, TgInventory.v: the pure part of node_inventory.go;
      TgMonitor.v, TgMonitorFacts.v: node_monitor.go; TgSessions.v: the effects of the controller and the
      critical sections of its session table; TgRender.v: its texts and
      keyboards; TgController.v: every handler of controller.go and
      node_inventory.go, the goroutines they start, the timers, [Close].
      TgContract.v: what a goroutine may call and what the table promises it;
      TgFacts.v: the theorems over every interleaving; TgCalls.v,
      TgConfirm.v, TgPasswords.v: what precedes a change, what becomes of the
      passwords; TgButtons.v: the keyboards and the data of their buttons.

    ** What the theorems show

    - The workflow: DNS is published only for a Node just read as connected; a
      deployment that reports success is durably COMPLETED and one that
      reports a safe error has stored it, unless the tables themselves failed;
      statuses climb; a Node is created once; executions exclude each
      other and give their slots back; keys are cleared; polling ends within
      its configured time.
    - Operations on existing Nodes either complete every write or ask for what
      they changed to be put back, in a fixed order of their own.
    - Recovery equals a decision table, and writes nothing but deployment rows.
    - Zones: what each update sends, the order of the locks, the rollback of a
      move; the mutex excludes, does not leak and does not get stuck.
    - The VPS: wherever a provisioning is cut off, the managed files of every
      stage that has some and is recorded COMPLETED are there with the hash of
      their contents; wherever an update of a certificate, a switch of the
      domain or a hosting operation on a netplan file is cut off, what worked
      before is still there in its place or in its backup.
    - Connections go only to the server whose key is pinned, and what a command
      returns is bounded and complete.
    - Tables: lifecycle and schema invariants of every reachable state, one
      active certificate version per domain, isolation of panels.
    - Certificates: nothing unvalidated or undistributed becomes active;
      a certificate is requested only after every authorization, and every
      challenge record known to be created is asked to be removed; the
      files survive crashes; a published version reads back; distribution is
      bounded, ends and reports every target; targets partition the zone.
    - The bot, in every interleaving of updates, timers and goroutines:
      conversations stay well typed, follow the graph of the dialogues and are
      taken at most once; strangers are refused; changes follow their
      confirmation; passwords are zeroed; every keyboard sent reads back as the
      presses of its buttons; an operation reaches only the panel it belongs
      to.  Updates are handled before they are acknowledged, the inventory
      shows every Node once, and the monitor reports confirmed incidents.
    - A configuration that loads is complete and consistent, and no text or
      error in the log holds a configured secret that the marker can hide.

    ** Bounds and fuel

    [poll_loop] is recursive on fuel computed from the deadline: every round
    waits at least the initial backoff, so the fuel is not reached before the
    deadline ([poll_terminates_within_bounds]).  [Run] of the manager is
    unfolded for the number of ticks its context lives, an argument; so is
    the Node monitor.  [Run] of the bot is
    unfolded for a number of polls, also an argument.  [WaitPropagation] has
    the ticks its timeout has room for and three more, [reconnect] of RoyalIP
    the 46 attempts of its 90 seconds.  [ParseDuration] and [ReplaceAll] have
    one unit of fuel per byte of their text.  Parsing
    a certificate chain has one unit of fuel per byte, enough because
    [pem.Decode] consumes input (a law of the class [X509]); [cut_runes] has
    one per byte of the text.  A distribution needs at most nine steps per
    target.  Loops over slices are structural.

    ** Parameters

    Code outside src/ is a parameter: [uuid_text], [sni_key], [pg_lower],
    [text_leb] (conversions and collation of PostgreSQL), the class [X509]
    (PEM, X.509, SHA-256), the settings of the operating system in CertFiles
    (umask, whether a rename is reliable, whether it is Windows), [Yaml] and
    [MapRange] (decoding, and the order of a map), [UnicodePrint], [FloatFraction]
    and [Floats] (tables of [unicode], floating point), [ConfigLibrary] (the
    files and decoders of the configuration), [AcmeLibrary] (the values and
    encodings of the ACME library).  Answers of
    the panel, of DNS, of SSH and of the certificate authority are branches of
    calls, never assumed.
    [GoSort] is [sort.Slice] with its documented laws; [insertion_GoSort] is
    an instance.

    ** Assumptions on the world

    A command of a VPS that the program saw fail was cut off anywhere, and does
    not run on beside later ones; moves inside one file system are atomic;
    ownership, modes set by [chmod] and signals are not tracked; commands that
    are not writes of a managed file leave the managed files alone.  On a
    hosting server a failed [cp] or redirection leaves anything in its target,
    other commands touch no netplan file, and the scheduled script of Royal
    may write its file, with anything, at any time after it was left running.  The SSH handshake calls the host key
    callback between the key exchange and the authentication.  Another process
    of this program may create the account key at any time.

    ** Not modelled

    Transports and wire text: HTTP, JSON, pgx ([Open], [New], [CheckSchema],
    row scanners), the SSH and ACME protocols; log records.  cmd/deployer: it
    constructs the parts and starts their loops.  Of metrics/registry.go the
    methods that wrap the clients, beyond what they count.  Guards against a
    nil interface argument, and the overwriting of a buffer that is not
    observed again ([clear] after use) outside the passwords of the bot and
    the materials of the manager.
    Of the controller: timeouts of its contexts, the caller's message whose
    text is overwritten after a password was copied.
    Contexts are seen where the code looks at them (a done test is a call);
    their timing is the environment's. *)

From Stdlib Require Export ZArith Lia Bool Ascii.
From stdpp Require Export base option list strings gmap sorting.

#[local] Open Scope Z_scope.

(** ** Results of fallible Go calls

    A Go function returning [(T, error)] is a function into [result]; one that
    only returns [error] is a function into [option] of its error type, [None]
    standing for [nil]. *)
Inductive result (E A : Type) : Type :=
  | Ok (a : A)
  | Err (e : E).
Arguments Ok {E A} a.
Arguments Err {E A} e.

#[export] Instance result_ret E : MRet (result E) := fun A a => Ok a.
#[export] Instance result_bind E : MBind (result E) :=
  fun A B f r => match r with Ok a => f a | Err e => Err e end.

#[export] Instance result_eq_dec {E A} `{!EqDecision E, !EqDecision A} : EqDecision (result E A).
Proof. solve_decision. Defined.

Definition is_ok {E A} (r : result E A) : bool :=
  match r with Ok _ => true | Err _ => false end.

Definition result_map_err {E F A} (f : E -> F) (r : result E A) : result F A :=
  match r with Ok a => Ok a | Err e => Err (f e) end.

Lemma result_bind_ok {E A B} (f : A -> result E B) (m : result E A) b :
  m ≫= f = Ok b -> exists a, m = Ok a /\ f a = Ok b.
Proof. destruct m as [a|e]; simpl; [eauto|discriminate]. Qed.

(** An optional value that is present exactly under a condition. *)
Lemma guard_Some_iff {A} (b : bool) (x : A) : (if b then Some x else None) <> None <-> b = true.
Proof. destruct b; split; congruence. Qed.

(** ** Machine integers: two's complement wrap-around of [int64] arithmetic *)
Definition wrap64 (z : Z) : Z := (z + 2 ^ 63) mod 2 ^ 64 - 2 ^ 63.

Lemma wrap64_id z : - 2 ^ 63 <= z < 2 ^ 63 -> wrap64 z = z.
Proof. intros H. unfold wrap64. rewrite Z.mod_small; lia. Qed.

Lemma wrap64_range z : - 2 ^ 63 <= wrap64 z < 2 ^ 63.
Proof. unfold wrap64. pose proof (Z.mod_pos_bound (z + 2 ^ 63) (2 ^ 64)). lia. Qed.

(** ** Generic tactics *)

(** Case analysis on every boolean or result test of the goal, clearing the
    impossible branches. *)
Ltac case_tests :=
  repeat (case_match; simplify_eq/=; try done).

(** Splits conjunctions and existentials of the context. *)
Ltac split_hyps :=
  repeat match goal with
    | H : _ /\ _ |- _ => destruct H
    | H : exists _, _ |- _ => destruct H
    | H : _ && _ = true |- _ => apply andb_true_iff in H
    | H : _ || _ = false |- _ => apply orb_false_iff in H
    end.

(** ** Lists *)
Section Lists.
Context {A : Type}.

(** First element satisfying a boolean test: a Go [for] loop with [break]. *)
Fixpoint find_first (f : A -> bool) (l : list A) : option A :=
  match l with
  | [] => None
  | x :: l' => if f x then Some x else find_first f l'
  end.

Lemma find_first_Some f l x :
  find_first f l = Some x -> x ∈ l /\ f x = true.
Proof.
  induction l as [|y l IH]; simpl; [discriminate|].
  destruct (f y) eqn:Hy; intros; simplify_eq.
  - split; [left|done].
  - destruct IH; [done|]. split; [by right|done].
Qed.

Lemma find_first_None f l :
  find_first f l = None <-> forall x, x ∈ l -> f x = false.
Proof.
  induction l as [|y l IH]; simpl.
  - split; [intros _ x Hx; inversion Hx|done].
  - destruct (f y) eqn:Hy.
    + split; [discriminate|]. intros H. rewrite H in Hy; [done|left].
    + rewrite IH. split.
      * intros H x Hx. apply elem_of_cons in Hx as [->|Hx]; eauto.
      * intros H x Hx. apply H. by right.
Qed.

Lemma existsb_elem_of f (l : list A) :
  existsb f l = true <-> exists x, x ∈ l /\ f x = true.
Proof.
  rewrite existsb_exists. setoid_rewrite list_elem_of_In. done.
Qed.

Lemma existsb_false f (l : list A) :
  existsb f l = false <-> forall x, x ∈ l -> f x = false.
Proof.
  rewrite <-not_true_iff_false, existsb_elem_of. split.
  - intros H x Hx. apply not_true_iff_false. eauto.
  - intros H (x & Hx & Hf). rewrite H in Hf; done.
Qed.

Lemma existsb_fmap {B} (g : B -> A) f l : existsb f (g <$> l) = existsb (fun x => f (g x)) l.
Proof. induction l as [|x l IH]; [done|]. rewrite fmap_cons. simpl. by rewrite IH. Qed.

Lemma forallb_fmap {B} (g : B -> A) f l : forallb f (g <$> l) = forallb (fun x => f (g x)) l.
Proof. induction l as [|x l IH]; [done|]. rewrite fmap_cons. simpl. by rewrite IH. Qed.

Lemma forallb_elem_of f (l : list A) :
  forallb f l = true <-> forall x, x ∈ l -> f x = true.
Proof. rewrite forallb_forall. by setoid_rewrite list_elem_of_In. Qed.
End Lists.

(** ** Slices

    A Go slice where the difference between nil and empty is visible (JSON
    encodes the first as [null]). *)
Definition slice (A : Type) : Type := option (list A).
Definition elems {A} (s : slice A) : list A := default [] s.

(** [append([]T(nil), xs...)]: the copy of an empty slice is nil. *)
Definition slice_copy {A} (s : slice A) : slice A :=
  match elems s with [] => None | l => Some l end.
(** [append(s, x)]. *)
Definition slice_append {A} (s : slice A) (x : A) : slice A := Some (elems s ++ [x]).
Definition non_nil {A} (s : slice A) : bool := match s with Some _ => true | None => false end.

Lemma elems_slice_copy {A} (s : slice A) : elems (slice_copy s) = elems s.
Proof. unfold slice_copy. by destruct (elems s). Qed.

(** ** Hints *)
Create HintDb s2p.
#[export] Hint Rewrite @elem_of_cons @elem_of_app @list_elem_of_fmap : s2p.
#[export] Hint Resolve find_first_Some result_bind_ok : s2p.

(** ** Counting the elements that satisfy a test *)
Definition countb {A} (f : A -> bool) (ps : list A) : Z := Z.of_nat (length (List.filter f ps)).
Definition b2z (b : bool) : Z := if b then 1 else 0.

Lemma countb_app {A} (f : A -> bool) ps qs : countb f (ps ++ qs) = countb f ps + countb f qs.
Proof. unfold countb. rewrite List.filter_app, length_app. lia. Qed.

Lemma countb_cons {A} (f : A -> bool) p ps : countb f (p :: ps) = b2z (f p) + countb f ps.
Proof. unfold countb, b2z. simpl. destruct (f p); simpl; lia. Qed.

Lemma countb_insert {A} (f : A -> bool) ps c p q :
  ps !! c = Some p -> countb f (<[c := q]> ps) = countb f ps - b2z (f p) + b2z (f q).
Proof.
  revert c. induction ps as [|p0 ps IH]; intros [|c] H; simplify_eq/=; rewrite !countb_cons; [lia|].
  rewrite (IH c H). lia.
Qed.

Lemma countb_nonneg {A} (f : A -> bool) ps : 0 <= countb f ps.
Proof. unfold countb. lia. Qed.

Lemma countb_zero {A} (f : A -> bool) ps : countb f ps = 0 <-> forall p, p ∈ ps -> f p = false.
Proof.
  induction ps as [|q ps IH]; [split; [intros _ p Hp; by apply not_elem_of_nil in Hp|done]|].
  rewrite countb_cons. pose proof (countb_nonneg f ps). split.
  - intros H1 p [->|Hp]%elem_of_cons; [destruct (f q); simpl in *; [lia|done]|].
    apply IH; [|done]. destruct (f q); simpl in *; lia.
  - intros H1. rewrite (H1 q) by by left. simpl. apply IH. intros p Hp. apply H1. by right.
Qed.

Lemma countb_pos {A} (f : A -> bool) ps c p : ps !! c = Some p -> f p = true -> 0 < countb f ps.
Proof.
  intros H Hf. pose proof (countb_nonneg f ps).
  destruct (decide (countb f ps = 0)) as [Hz|]; [|lia].
  rewrite countb_zero in Hz. rewrite Hz in Hf; [done|]. by eapply list_elem_of_lookup_2.
Qed.

Lemma countb_le {A} (f g : A -> bool) ps : (forall p, p ∈ ps -> f p = true -> g p = true) -> countb f ps <= countb g ps.
Proof.
  induction ps as [|p ps IH]; intros H; [done|]. rewrite !countb_cons.
  assert (b2z (f p) <= b2z (g p)).
  { pose proof (H p (list_elem_of_here _ _)). destruct (f p), (g p); simpl; naive_solver lia. }
  assert (countb f ps <= countb g ps) by (apply IH; intros; apply H; [by right|done]). lia.
Qed.

(** A list without [None] is the image of its values. *)
Lemma all_Some {A} (l : list (option A)) : (forall x, x ∈ l -> is_Some x) -> exists l', l = Some <$> l'.
Proof.
  induction l as [|x l IH]; intros H; [by exists []|]. destruct (H x (list_elem_of_here _ _)) as [a ->].
  destruct IH as [l' ->]; [intros; apply H; by right|]. by exists (a :: l').
Qed.
