(* ===== verification/GoStrings.v ===== *)
(** * Go strings

    A Go string is a sequence of bytes, here a [string] of [ascii].  This file
    models the functions of the packages [strings], [unicode] and
    [unicode/utf8] the program uses: UTF-8 decoding, [TrimSpace], [TrimSuffix],
    [ToLower], [ToUpper], [EqualFold], [Contains], [Split], [ReplaceAll], the
    byte order of [<], and [strconv.Itoa].  They are library code of the
    language, so they carry no entry of the source map; the components are
    written with them. *)

From S2P Require Import Prelude.
From stdpp Require Import pretty.

#[local] Open Scope Z_scope.

(** ** Bytes *)
Definition byte_of (a : ascii) : Z := Z.of_N (N_of_ascii a).
Definition of_byte (z : Z) : ascii := ascii_of_N (Z.to_N z).

Definition byte_in (lo hi : Z) (a : ascii) : bool :=
  (lo <=? byte_of a) && (byte_of a <=? hi).

Notation RuneError := 65533%Z.

(** [utf8.RuneStart]. *)
Definition RuneStart (a : ascii) : bool := negb (byte_in 128 191 a).

(** ** UTF-8 decoding *)

(** [utf8.DecodeRuneInString] on a non-empty string given as its first byte
    and the bytes after it: the rune and its width.  Ill-formed input gives
    [(RuneError, 1)]. *)
Definition cont (a : ascii) : Z := Z.land (byte_of a) 63.

Definition decode_head (a : ascii) (s : string) : Z * nat :=
  let c := byte_of a in
  let bad := (RuneError, 1%nat) in
  if c <? 128 then (c, 1%nat)
  else match s with
  | EmptyString => bad
  | String b s1 =>
    if byte_in 194 223 a then
      if byte_in 128 191 b then (Z.land c 31 * 64 + cont b, 2%nat) else bad
    else match s1 with
    | EmptyString => bad
    | String b2 s2 =>
      let lo := if c =? 224 then 160 else 128 in
      let hi := if c =? 237 then 159 else 191 in
      if byte_in 224 239 a then
        if byte_in lo hi b && byte_in 128 191 b2
        then (Z.land c 15 * 4096 + cont b * 64 + cont b2, 3%nat) else bad
      else match s2 with
      | EmptyString => bad
      | String b3 _ =>
        let lo := if c =? 240 then 144 else 128 in
        let hi := if c =? 244 then 143 else 191 in
        if byte_in 240 244 a then
          if byte_in lo hi b && byte_in 128 191 b2 && byte_in 128 191 b3
          then (Z.land c 7 * 262144 + cont b * 4096 + cont b2 * 64 + cont b3, 4%nat)
          else bad
        else bad
      end
    end
  end.

(** The runes of a string in order, as [for _, r := range s] visits them. *)
Fixpoint runes (s : string) : list Z :=
  match s with
  | EmptyString => []
  | String a s1 =>
    let '(r, n) := decode_head a s1 in
    match n with
    | 2%nat => match s1 with String _ s2 => r :: runes s2 | _ => [r] end
    | 3%nat => match s1 with String _ (String _ s3) => r :: runes s3 | _ => [r] end
    | 4%nat => match s1 with String _ (String _ (String _ s4)) => r :: runes s4 | _ => [r] end
    | _ => r :: runes s1
    end
  end.

(** [utf8.RuneCountInString]. *)
Definition RuneCountInString (s : string) : Z := Z.of_nat (length (runes s)).

(** [utf8.ValidString]: no byte decodes as an ill-formed sequence of width 1. *)
Fixpoint ValidString (s : string) : bool :=
  match s with
  | EmptyString => true
  | String a s1 =>
    let '(r, n) := decode_head a s1 in
    match n with
    | 2%nat => match s1 with String _ s2 => ValidString s2 | _ => false end
    | 3%nat => match s1 with String _ (String _ s3) => ValidString s3 | _ => false end
    | 4%nat => match s1 with String _ (String _ (String _ s4)) => ValidString s4 | _ => false end
    | _ => (byte_of a <? 128) && ValidString s1
    end
  end.

(** [utf8.AppendRune]: the UTF-8 encoding of one rune. *)
Definition encode_rune (r : Z) : string :=
  let b z := of_byte z in
  if (0 <=? r) && (r <? 128) then String (b r) ""
  else if (0 <=? r) && (r <? 2048) then
    String (b (192 + r / 64)) (String (b (128 + r mod 64)) "")
  else
    let r := if (r <? 0) || (1114111 <? r) || ((55296 <=? r) && (r <=? 57343)) then RuneError else r in
    if r <? 65536 then
      String (b (224 + r / 4096)) (String (b (128 + (r / 64) mod 64)) (String (b (128 + r mod 64)) ""))
    else
      String (b (240 + r / 262144)) (String (b (128 + (r / 4096) mod 64))
        (String (b (128 + (r / 64) mod 64)) (String (b (128 + r mod 64)) ""))).

Definition encode_runes (l : list Z) : string :=
  foldr (fun r s => encode_rune r +:+ s) "" l.

(** ** Slicing *)
Definition str_len (s : string) : Z := Z.of_nat (String.length s).

Fixpoint str_take (n : nat) (s : string) : string :=
  match n, s with
  | S n', String a s' => String a (str_take n' s')
  | _, _ => ""
  end.

Fixpoint str_drop (n : nat) (s : string) : string :=
  match n, s with
  | S n', String _ s' => str_drop n' s'
  | _, _ => s
  end.

(** Width of the last rune, as [utf8.DecodeLastRuneInString] reports it on a
    non-empty string: the last [k] bytes when they are one well-formed
    encoding of [k] bytes, and 1 otherwise. *)
Definition suffix_is_rune (k : nat) (s : string) : bool :=
  match str_drop (String.length s - k) s with
  | String a s1 =>
    Nat.eqb (String.length s1 + 1) k && Nat.eqb (snd (decode_head a s1)) k
  | EmptyString => false
  end.

Definition last_rune_width (s : string) : nat :=
  if suffix_is_rune 2 s then 2
  else if suffix_is_rune 3 s then 3
  else if suffix_is_rune 4 s then 4
  else 1.

(** ** Trimming *)
Definition ascii_space (a : ascii) : bool :=
  let c := byte_of a in (c =? 32) || ((9 <=? c) && (c <=? 13)).

(** The two- and three-byte encodings of the non-ASCII runes that satisfy
    [unicode.IsSpace]: U+0085, U+00A0, U+1680, U+2000..200A, U+2028, U+2029,
    U+202F, U+205F, U+3000. *)
Definition space2 (a b : ascii) : bool :=
  (byte_of a =? 194) && ((byte_of b =? 133) || (byte_of b =? 160)).

Definition space3 (a b c : ascii) : bool :=
  let '(x, y, z) := (byte_of a, byte_of b, byte_of c) in
  ((x =? 225) && (y =? 154) && (z =? 128)) ||
  ((x =? 226) && (y =? 128) && (((128 <=? z) && (z <=? 138)) || (z =? 168) || (z =? 169) || (z =? 175))) ||
  ((x =? 226) && (y =? 129) && (z =? 159)) ||
  ((x =? 227) && (y =? 128) && (z =? 128)).

Fixpoint trim_left_with (two : ascii -> ascii -> bool) (three : ascii -> ascii -> ascii -> bool)
    (s : string) : string :=
  match s with
  | EmptyString => ""
  | String a s1 =>
    if ascii_space a then trim_left_with two three s1
    else match s1 with
    | EmptyString => s
    | String b s2 =>
      if two a b then trim_left_with two three s2
      else match s2 with
      | EmptyString => s
      | String c s3 => if three a b c then trim_left_with two three s3 else s
      end
    end
  end.

Fixpoint str_rev_app (s acc : string) : string :=
  match s with
  | EmptyString => acc
  | String a s' => str_rev_app s' (String a acc)
  end.
Definition str_rev (s : string) : string := str_rev_app s "".

(** [strings.TrimSpace]. *)
Definition trim_left (s : string) : string := trim_left_with space2 space3 s.
Definition trim_right (s : string) : string :=
  str_rev (trim_left_with (fun b a => space2 a b) (fun c b a => space3 a b c) (str_rev s)).
Definition TrimSpace (s : string) : string := trim_right (trim_left s).

(** [strings.HasPrefix], [strings.HasSuffix], [strings.TrimSuffix],
    [strings.TrimPrefix]. *)
Fixpoint HasPrefix (s p : string) : bool :=
  match p, s with
  | EmptyString, _ => true
  | String b p', String a s' => Ascii.eqb a b && HasPrefix s' p'
  | String _ _, EmptyString => false
  end.
Definition HasSuffix (s p : string) : bool :=
  (String.length p <=? String.length s)%nat &&
  String.eqb (str_drop (String.length s - String.length p) s) p.
Definition TrimSuffix (s p : string) : string :=
  if HasSuffix s p then str_take (String.length s - String.length p) s else s.
Definition TrimPrefix (s p : string) : string :=
  if HasPrefix s p then str_drop (String.length p) s else s.

(** [strings.Contains] and [strings.ContainsRune] for one byte. *)
Fixpoint Contains (s p : string) : bool :=
  HasPrefix s p || match s with EmptyString => false | String _ s' => Contains s' p end.

Fixpoint str_exists (f : ascii -> bool) (s : string) : bool :=
  match s with EmptyString => false | String a s' => f a || str_exists f s' end.

Definition ContainsAny (s chars : string) : bool :=
  str_exists (fun a => str_exists (Ascii.eqb a) chars) s.

Fixpoint str_map (f : ascii -> ascii) (s : string) : string :=
  match s with EmptyString => "" | String a s' => String (f a) (str_map f s') end.

(** [strings.ReplaceAll] of one byte by another, and of one byte by a string. *)
Definition replace_byte (x y : ascii) (s : string) : string :=
  str_map (fun a => if Ascii.eqb a x then y else a) s.
Fixpoint replace_byte_str (x : ascii) (y s : string) : string :=
  match s with
  | EmptyString => ""
  | String a s' => (if Ascii.eqb a x then y else String a "") +:+ replace_byte_str x y s'
  end.

(** [strings.Split] on a one-byte separator. *)
Fixpoint Split (s : string) (sep : ascii) : list string :=
  match s with
  | EmptyString => [""]
  | String a s' =>
    if Ascii.eqb a sep then "" :: Split s' sep
    else match Split s' sep with
         | [] => [String a ""]
         | w :: ws => String a w :: ws
         end
  end.

(** Bytes of the control characters the source names in string literals. *)
Definition chr_tab : ascii := of_byte 9.
Definition chr_nl : ascii := of_byte 10.
Definition chr_cr : ascii := of_byte 13.

(** [strings.NewReplacer] of CR, LF and TAB by one space each. *)
Definition is_ctl_ws (a : ascii) : bool :=
  Ascii.eqb a chr_tab || Ascii.eqb a chr_nl || Ascii.eqb a chr_cr.
Definition flatten_ws (s : string) : string :=
  str_map (fun a => if is_ctl_ws a then " "%char else a) s.

(** Byte-wise order of Go strings. *)
Definition str_ltb (s t : string) : bool := String.ltb s t.
Definition str_le (s t : string) : Prop := String.leb s t = true.
#[export] Instance str_le_dec : RelDecision str_le.
Proof. intros s t. apply bool_eq_dec. Defined.

(** [strconv.Itoa]. *)
Definition Itoa (z : Z) : string := pretty z.

(** ** Lemmas on concatenation *)
Lemma string_app_cons a s t : String a s +:+ t = String a (s +:+ t).
Proof. done. Qed.

Lemma string_app_nil s : "" +:+ s = s.
Proof. done. Qed.

Lemma string_app_nil_r s : s +:+ "" = s.
Proof. induction s as [|a s IH]; [done|]. by rewrite string_app_cons, IH. Qed.

Lemma string_app_assoc s t u : (s +:+ t) +:+ u = s +:+ t +:+ u.
Proof. induction s as [|a s IH]; [done|]. by rewrite !string_app_cons, IH. Qed.

Lemma string_length_app s t : String.length (s +:+ t) = (String.length s + String.length t)%nat.
Proof. induction s as [|a s IH]; [done|]. rewrite string_app_cons. simpl. by rewrite IH. Qed.

Lemma str_drop_app s t n : str_drop (String.length s + n) (s +:+ t) = str_drop n t.
Proof. induction s as [|a s IH]; [done|]. rewrite string_app_cons. simpl. apply IH. Qed.

Lemma str_take_app s t : str_take (String.length s) (s +:+ t) = s.
Proof. induction s as [|a s IH]; simpl; [by destruct t|]. by rewrite IH. Qed.

Lemma str_exists_app f s t : str_exists f (s +:+ t) = str_exists f s || str_exists f t.
Proof.
  induction s as [|a s IH]; [done|]. rewrite string_app_cons. simpl. by rewrite IH, orb_assoc.
Qed.

Lemma replace_byte_str_app x y s t :
  replace_byte_str x y (s +:+ t) = replace_byte_str x y s +:+ replace_byte_str x y t.
Proof.
  induction s as [|a s IH]; [done|]. rewrite string_app_cons. simpl.
  by rewrite IH, string_app_assoc.
Qed.

#[export] Hint Rewrite string_app_cons string_app_nil string_app_nil_r string_app_assoc
  string_length_app str_exists_app replace_byte_str_app : gostr.

(** ** [url.PathEscape] *)
Definition unescaped_path_byte (a : ascii) : bool :=
  byte_in 97 122 a || byte_in 65 90 a || byte_in 48 57 a ||
  str_exists (Ascii.eqb a) "-_.~$&+=:@".

Definition upper_hex (d : Z) : ascii :=
  if d <? 10 then of_byte (48 + d) else of_byte (55 + d).

Fixpoint PathEscape (s : string) : string :=
  match s with
  | EmptyString => ""
  | String a s' =>
    (if unescaped_path_byte a then String a ""
     else String "%" (String (upper_hex (byte_of a / 16)) (String (upper_hex (byte_of a mod 16)) "")))
    +:+ PathEscape s'
  end.

(** ** The byte order is a total order *)
Lemma str_le_total s t : str_le s t \/ str_le t s.
Proof. unfold str_le. destruct (String.leb_total s t); [by left|by right]. Qed.

Lemma str_le_trans s t u : str_le s t -> str_le t u -> str_le s u.
Proof.
  unfold str_le, String.leb. revert t u. induction s as [|a s IH]; intros [|b t] [|c u]; simpl; try done.
  unfold Ascii.compare.
  destruct (N.compare_spec (N_of_ascii a) (N_of_ascii b)) as [H1|H1|H1];
    destruct (N.compare_spec (N_of_ascii b) (N_of_ascii c)) as [H2|H2|H2]; try done; intros Hs Ht;
    destruct (N.compare_spec (N_of_ascii a) (N_of_ascii c)) as [H3|H3|H3]; try done; try lia.
  by eapply IH.
Qed.

#[export] Instance str_le_Total : Total str_le.
Proof. intros s t. apply str_le_total. Qed.
#[export] Instance str_le_Trans : Transitive str_le.
Proof. intros s t u. apply str_le_trans. Qed.
#[export] Instance str_le_AntiSymm : AntiSymm (=) str_le.
Proof. intros s t. unfold str_le. by apply String.leb_antisym. Qed.
