(* ===== verification/Utf8.v ===== *)
(** * UTF-8 facts

    Cutting the last rune off a well-formed string leaves a well-formed
    string: the width [last_rune_width] reports is the width of the last
    encoded rune. *)

From S2P Require Import Prelude GoStrings.

#[local] Open Scope Z_scope.

(** ** Encoded runes *)

(** One well-formed encoding. *)
Definition one_rune (c : string) : bool :=
  match c with
  | "" => false
  | String a s1 => Nat.eqb (snd (decode_head a s1)) (String.length c) && ((1 <? String.length c)%nat || (byte_of a <? 128))
  end.

(** The four shapes of an encoding; what makes it well formed is a test on
    its bytes only. *)
Definition shape2 (a b : ascii) : bool := byte_in 194 223 a && byte_in 128 191 b.
Definition shape3 (a b c : ascii) : bool :=
  byte_in 224 239 a && byte_in (if byte_of a =? 224 then 160 else 128) (if byte_of a =? 237 then 159 else 191) b && byte_in 128 191 c.
Definition shape4 (a b c d : ascii) : bool :=
  byte_in 240 244 a && byte_in (if byte_of a =? 240 then 144 else 128) (if byte_of a =? 244 then 143 else 191) b &&
  byte_in 128 191 c && byte_in 128 191 d.

Lemma byte_in_range lo hi a : byte_in lo hi a = true <-> lo <= byte_of a <= hi.
Proof. unfold byte_in. rewrite andb_true_iff, !Z.leb_le. done. Qed.

Lemma byte_in_false lo hi a : byte_in lo hi a = false <-> byte_of a < lo \/ hi < byte_of a.
Proof. rewrite <-not_true_iff_false, byte_in_range. lia. Qed.

(** What [decode_head] reports: the width, by the shape of the first bytes. *)
Lemma decode_width a s :
  snd (decode_head a s) =
    match s with
    | String b (String c (String d _)) =>
      if byte_of a <? 128 then 1%nat else if shape2 a b then 2%nat else if shape3 a b c then 3%nat else if shape4 a b c d then 4%nat else 1%nat
    | String b (String c "") =>
      if byte_of a <? 128 then 1%nat else if shape2 a b then 2%nat else if shape3 a b c then 3%nat else 1%nat
    | String b "" => if byte_of a <? 128 then 1%nat else if shape2 a b then 2%nat else 1%nat
    | "" => 1%nat
    end.
Proof.
  unfold decode_head. cbv zeta. destruct (byte_of a <? 128) eqn:Ha.
  { by destruct s as [|b [|c [|d s]]]. }
  destruct s as [|b s]; [done|]. unfold shape2, shape3, shape4.
  assert (byte_in 194 223 a = true -> byte_in 224 239 a = false /\ byte_in 240 244 a = false) as H2.
  { rewrite !byte_in_range, !byte_in_false. lia. }
  assert (byte_in 224 239 a = true -> byte_in 240 244 a = false) as H3 by (rewrite !byte_in_range, !byte_in_false; lia).
  destruct (byte_in 194 223 a) eqn:E2.
  { destruct (H2 eq_refl) as [-> ->]. simpl. destruct (byte_in 128 191 b); by destruct s as [|c [|d s]]. }
  simpl. destruct s as [|c s]; [done|]. destruct (byte_in 224 239 a) eqn:E3.
  { rewrite (H3 eq_refl). simpl. destruct (byte_in _ _ b && byte_in 128 191 c); by destruct s as [|d s]. }
  simpl. destruct s as [|d s]; [done|]. destruct (byte_in 240 244 a); [|done]. simpl.
  by destruct (byte_in _ _ b && byte_in 128 191 c && byte_in 128 191 d).
Qed.

Inductive rune_text : string -> Prop :=
  | rune1 a : byte_of a < 128 -> rune_text (String a "")
  | rune2 a b : shape2 a b = true -> 128 <= byte_of a -> rune_text (String a (String b ""))
  | rune3 a b c : shape3 a b c = true -> 128 <= byte_of a -> rune_text (String a (String b (String c "")))
  | rune4 a b c d : shape4 a b c d = true -> 128 <= byte_of a -> rune_text (String a (String b (String c (String d "")))).

Lemma shapes_disjoint a b c d :
  (shape2 a b = true -> shape3 a b c = false /\ shape4 a b c d = false) /\ (shape3 a b c = true -> shape2 a b = false /\ shape4 a b c d = false) /\
  (shape4 a b c d = true -> shape2 a b = false /\ shape3 a b c = false).
Proof.
  unfold shape2, shape3, shape4. split_and!; intros H.
  - apply andb_true_iff in H as [H _]. apply byte_in_range in H.
    rewrite (proj2 (byte_in_false 224 239 a)), (proj2 (byte_in_false 240 244 a)) by lia. done.
  - apply andb_true_iff in H as [H _]. apply andb_true_iff in H as [H _]. apply byte_in_range in H.
    rewrite (proj2 (byte_in_false 194 223 a)), (proj2 (byte_in_false 240 244 a)) by lia. done.
  - apply andb_true_iff in H as [H _]. apply andb_true_iff in H as [H _]. apply andb_true_iff in H as [H _].
    apply byte_in_range in H.
    rewrite (proj2 (byte_in_false 194 223 a)), (proj2 (byte_in_false 224 239 a)) by lia. done.
Qed.

(** The first rune of a well-formed string. *)
Lemma valid_uncons a s :
  ValidString (String a s) = true -> exists c rest, String a s = c +:+ rest /\ rune_text c /\ ValidString rest = true.
Proof.
  cbn [ValidString]. pose proof (decode_width a s) as Hw. destruct (decode_head a s) as [r n]. simpl in Hw. rewrite Hw. clear Hw r n.
  destruct (Z.ltb_spec (byte_of a) 128) as [Ha|Ha].
  { intros H. assert (ValidString s = true) as Hs by by destruct s as [|b [|c [|d s]]].
    exists (String a ""), s. split; [done|]. split; [by constructor|done]. }
  destruct s as [|b s]; [done|]. destruct (shape2 a b) eqn:E2.
  { intros H. assert (ValidString s = true) as Hs by by destruct s as [|c [|d s]].
    exists (String a (String b "")), s. split; [done|]. split; [by constructor|done]. }
  destruct s as [|c s]; [done|]. destruct (shape3 a b c) eqn:E3.
  { intros H. assert (ValidString s = true) as Hs by by destruct s as [|d s].
    exists (String a (String b (String c ""))), s. split; [done|]. split; [by constructor|done]. }
  destruct s as [|d s]; [done|]. destruct (shape4 a b c d) eqn:E4; [|done].
  intros H. exists (String a (String b (String c (String d "")))), s. split; [done|]. split; [by constructor|done].
Qed.

Lemma valid_cons c rest : rune_text c -> ValidString rest = true -> ValidString (c +:+ rest) = true.
Proof.
  intros Hc Hr.
  assert (forall a s n, snd (decode_head a s) = n -> ValidString (String a s) =
    match n with
    | 2%nat => match s with String _ s2 => ValidString s2 | _ => false end
    | 3%nat => match s with String _ (String _ s3) => ValidString s3 | _ => false end
    | 4%nat => match s with String _ (String _ (String _ s4)) => ValidString s4 | _ => false end
    | _ => (byte_of a <? 128) && ValidString s
    end) as Hv.
  { intros a s n <-. cbn [ValidString]. by destruct (decode_head a s). }
  destruct Hc as [a Ha|a b H Ha|a b c H Ha|a b c d H Ha]; rewrite ?string_app_cons, ?string_app_nil;
    rewrite (Hv _ _ _ (decode_width _ _)).
  - rewrite (proj2 (Z.ltb_lt _ _) Ha). simpl. by destruct rest as [|b [|c [|d rest]]].
  - rewrite (proj2 (Z.ltb_ge _ _) Ha), H. by destruct rest as [|c [|d rest]].
  - rewrite (proj2 (Z.ltb_ge _ _) Ha). destruct (shapes_disjoint a b c zero) as (_ & H3 & _). destruct (H3 H) as [-> _].
    rewrite H. by destruct rest as [|d rest].
  - rewrite (proj2 (Z.ltb_ge _ _) Ha). destruct (shapes_disjoint a b c d) as (_ & _ & H4). destruct (H4 H) as [-> ->]. by rewrite H.
Qed.

Definition concat_runes (l : list string) : string := foldr (fun c s => c +:+ s) "" l.

Lemma valid_runes s : ValidString s = true <-> exists l, s = concat_runes l /\ Forall rune_text l.
Proof.
  split.
  - remember (String.length s) as n eqn:Hn. revert s Hn. induction (lt_wf n) as [n _ IH]. intros s -> H.
    destruct s as [|a s]; [by exists []|]. apply valid_uncons in H as (c & rest & He & Hc & Hr).
    assert (String.length rest < String.length (String a s))%nat as Hlt.
    { rewrite He, string_length_app. assert (0 < String.length c)%nat by (destruct Hc; simpl; lia). lia. }
    destruct (IH _ Hlt rest eq_refl Hr) as (l & -> & Hl). exists (c :: l). split; [done|]. by constructor.
  - intros (l & -> & Hl). induction Hl as [|c l Hc Hl IH]; [done|]. by apply valid_cons.
Qed.

Lemma concat_runes_snoc l c : concat_runes (l ++ [c]) = concat_runes l +:+ c.
Proof. induction l as [|x l IH]; simpl; [apply string_app_nil_r|]. by rewrite IH, string_app_assoc. Qed.

(** ** The last rune *)
Fixpoint last_byte (s : string) : option ascii :=
  match s with "" => None | String a "" => Some a | String _ s' => last_byte s' end.

Lemma last_byte_cons a s : s <> "" -> last_byte (String a s) = last_byte s.
Proof. by destruct s. Qed.

Lemma last_byte_drop n s : str_drop n s <> "" -> last_byte (str_drop n s) = last_byte s.
Proof.
  revert s. induction n as [|n IH]; intros s H; [by destruct s|]. destruct s as [|a s]; [done|]. simpl in *.
  rewrite IH by done. symmetry. destruct s; [|done]. by destruct n.
Qed.

Lemma last_byte_snoc p a : last_byte (p +:+ String a "") = Some a.
Proof. induction p as [|b p IH]; [done|]. rewrite string_app_cons, last_byte_cons; [done|]. by destruct p. Qed.

(** A suffix that is an encoding of two bytes or more ends in a continuation
    byte. *)
Lemma suffix_rune_last k s a : (2 <= k)%nat -> suffix_is_rune k s = true -> last_byte s = Some a -> 128 <= byte_of a.
Proof.
  unfold suffix_is_rune. intros Hk H Ha. destruct (str_drop _ s) as [|x s1] eqn:Hd; [done|].
  apply andb_true_iff in H as [Hl Hw]. apply Nat.eqb_eq in Hl, Hw. rewrite decode_width in Hw.
  assert (last_byte (String x s1) = Some a) as Hlast by (rewrite <-Hd, last_byte_drop by (by rewrite Hd); done).
  clear Hd Ha. unfold shape2, shape3, shape4 in Hw.
  destruct s1 as [|b [|c [|d s1]]]; simpl in Hl, Hlast; try lia; simplify_eq/=.
  - destruct (byte_of x <? 128); [lia|]. destruct (byte_in 194 223 x && byte_in 128 191 a) eqn:E; [|lia].
    apply andb_true_iff in E as [_ E]. apply byte_in_range in E. lia.
  - destruct (byte_of x <? 128); [lia|]. destruct (byte_in 194 223 x && byte_in 128 191 b); [lia|].
    destruct (byte_in 224 239 x && _ && byte_in 128 191 a) eqn:E; [|lia]. apply andb_true_iff in E as [_ E]. apply byte_in_range in E. lia.
  - destruct (byte_of x <? 128); [lia|]. destruct (byte_in 194 223 x && byte_in 128 191 b); [lia|].
    destruct (byte_in 224 239 x && _ && byte_in 128 191 c); [lia|].
    destruct (byte_in 240 244 x && _ && byte_in 128 191 c && byte_in 128 191 d) eqn:E; [|lia].
    destruct s1 as [|y s1]; [|simpl in Hw; lia]. simplify_eq/=. apply andb_true_iff in E as [_ E]. apply byte_in_range in E. lia.
Qed.

Lemma suffix_is_rune_app p c k :
  (k <= String.length c)%nat ->
  suffix_is_rune k (p +:+ c) =
    match str_drop (String.length c - k) c with
    | String a s1 => Nat.eqb (String.length s1 + 1) k && Nat.eqb (snd (decode_head a s1)) k
    | "" => false
    end.
Proof.
  intros H. unfold suffix_is_rune. rewrite string_length_app.
  replace (String.length p + String.length c - k)%nat with (String.length p + (String.length c - k))%nat by lia.
  by rewrite str_drop_app.
Qed.

Lemma cont_width b s : byte_in 128 191 b = true -> snd (decode_head b s) = 1%nat.
Proof.
  intros H%byte_in_range. rewrite decode_width. unfold shape2, shape3, shape4.
  rewrite (proj2 (byte_in_false 194 223 b)), (proj2 (byte_in_false 224 239 b)), (proj2 (byte_in_false 240 244 b)) by lia.
  destruct s as [|c [|d [|e s]]]; by destruct (byte_of b <? 128).
Qed.

Lemma last_rune_width_app p c : rune_text c -> last_rune_width (p +:+ c) = String.length c.
Proof.
  intros Hc. unfold last_rune_width. destruct Hc as [a Ha|a b H Ha|a b c H Ha|a b c d H Ha].
  - assert (forall k, (2 <= k)%nat -> suffix_is_rune k (p +:+ String a "") = false) as Hno.
    { intros k Hk. apply not_true_iff_false. intros Hs. apply (suffix_rune_last k _ a) in Hs; [lia|done|apply last_byte_snoc]. }
    by rewrite !Hno by lia.
  - rewrite suffix_is_rune_app by done. simpl str_drop. cbv iota. rewrite decode_width, H, (proj2 (Z.ltb_ge _ _) Ha). done.
  - assert (byte_in 128 191 b = true) as Hb.
    { unfold shape3 in H. apply andb_true_iff in H as [H _]. apply andb_true_iff in H as [_ H]. apply byte_in_range in H.
      apply byte_in_range. destruct (byte_of a =? 224), (byte_of a =? 237); lia. }
    rewrite !suffix_is_rune_app by (simpl; lia). simpl str_drop. cbv iota. rewrite (cont_width b) by done.
    rewrite decode_width, H, (proj2 (Z.ltb_ge _ _) Ha). destruct (shapes_disjoint a b c zero) as (_ & H3 & _). by destruct (H3 H) as [-> _].
  - assert (byte_in 128 191 b = true /\ byte_in 128 191 c = true) as [Hb Hc].
    { unfold shape4 in H. apply andb_true_iff in H as [H _]. apply andb_true_iff in H as [H H2]. apply andb_true_iff in H as [_ H].
      split; [|done]. apply byte_in_range in H. apply byte_in_range. destruct (byte_of a =? 240), (byte_of a =? 244); lia. }
    rewrite !suffix_is_rune_app by (simpl; lia). simpl str_drop. cbv iota. rewrite (cont_width b), (cont_width c) by done.
    rewrite decode_width, H, (proj2 (Z.ltb_ge _ _) Ha). destruct (shapes_disjoint a b c d) as (_ & _ & H4). by destruct (H4 H) as [-> ->].
Qed.

(** Cutting the last rune off. *)
Lemma cut_last_valid s :
  ValidString s = true -> ValidString (str_take (String.length s - last_rune_width s) s) = true.
Proof.
  intros (l & -> & Hl)%valid_runes. induction l as [|c l _] using rev_ind; [done|].
  apply Forall_app in Hl as [Hl Hc]. rewrite Forall_singleton in Hc. rewrite concat_runes_snoc, last_rune_width_app by done.
  rewrite string_length_app. replace (_ + _ - _)%nat with (String.length (concat_runes l)) by lia.
  rewrite str_take_app. apply valid_runes. by exists l.
Qed.

Lemma last_rune_width_pos s : (1 <= last_rune_width s)%nat.
Proof. unfold last_rune_width. repeat case_match; lia. Qed.

Lemma str_take_length n s : (String.length (str_take n s) <= n)%nat.
Proof. revert s. induction n as [|n IH]; intros [|a s]; simpl; try lia. specialize (IH s). lia. Qed.

Lemma str_take_prefix n s : HasPrefix s (str_take n s) = true.
Proof. revert s. induction n as [|n IH]; intros [|a s]; simpl; try done. by rewrite Ascii.eqb_refl, IH. Qed.

Lemma HasPrefix_refl s : HasPrefix s s = true.
Proof. induction s as [|a s IH]; simpl; [done|]. by rewrite Ascii.eqb_refl. Qed.

Lemma HasPrefix_trans s t u : HasPrefix s t = true -> HasPrefix t u = true -> HasPrefix s u = true.
Proof.
  revert s t. induction u as [|c u IH]; intros [|a s] [|b t]; simpl; try done.
  intros [H1 H2]%andb_true_iff [H3 H4]%andb_true_iff. apply Ascii.eqb_eq in H1, H3. subst. rewrite Ascii.eqb_refl. by apply (IH s t).
Qed.

(** Cutting whole runes off the end while a text has more than [limit] bytes. *)
Fixpoint cut_runes (limit : Z) (fuel : nat) (value : string) : string :=
  match fuel with
  | O => value
  | S fuel' =>
    if limit <? str_len value
    then cut_runes limit fuel' (str_take (String.length value - last_rune_width value) value)
    else value
  end.

Lemma cut_runes_spec limit fuel v :
  0 <= limit -> (String.length v <= fuel)%nat ->
  str_len (cut_runes limit fuel v) <= limit /\ HasPrefix v (cut_runes limit fuel v) = true /\
  (ValidString v = true -> ValidString (cut_runes limit fuel v) = true) /\
  (str_len v <= limit -> cut_runes limit fuel v = v).
Proof.
  intros Hl. revert v. induction fuel as [|fuel IH]; intros v Hv; cbn [cut_runes].
  - destruct v; [|simpl in Hv; lia]. by split_and!.
  - destruct (Z.ltb_spec limit (str_len v)) as [Hlong|Hshort].
    + set (v' := str_take _ v). pose proof (last_rune_width_pos v) as Hw.
      assert (String.length v' <= fuel)%nat as Hv'.
      { unfold v'. pose proof (str_take_length (String.length v - last_rune_width v) v). unfold str_len in Hlong. lia. }
      destruct (IH v' Hv') as (H1 & H2 & H3 & _). split_and!; [done| |intros H; by apply H3, cut_last_valid|lia].
      eapply HasPrefix_trans; [apply str_take_prefix|exact H2].
    + split_and!; [done|apply HasPrefix_refl|done|done].
Qed.
