(* ===== verification/GoText.v ===== *)
(** * More of the Go library: texts, times and sorting

    [strings.Fields], [Cut], [Join], [Trim], [strconv.Atoi], the verbs of
    [fmt] and the layouts of [time] the presentation layer uses, and
    [sort.Slice].  Library code of the language, without entries of the
    source map. *)

From S2P Require Import Prelude GoStrings Unicode.

#[local] Open Scope Z_scope.

(** ** [strings] *)

(** The width in bytes of the space that begins a text, zero when none does. *)
Definition space_width (s : string) : nat :=
  match s with
  | String a s1 =>
    if ascii_space a then 1 else
    match s1 with
    | String b s2 =>
      if space2 a b then 2 else
      match s2 with String c _ => if space3 a b c then 3 else 0 | EmptyString => 0 end
    | EmptyString => 0
    end
  | EmptyString => 0
  end%nat.

Definition add_field (w : string) (ws : list string) : list string := if String.eqb w "" then ws else w :: ws.

(** The field the text begins in, and the later ones; [skip] bytes still
    belong to a space. *)
Fixpoint fields_from (skip : nat) (s : string) : string * list string :=
  match s with
  | EmptyString => ("", [])
  | String a s' =>
    match skip with
    | S k => fields_from k s'
    | O =>
      match space_width s with
      | O => let '(w, ws) := fields_from 0 s' in (String a w, ws)
      | S k => let '(w, ws) := fields_from k s' in ("", add_field w ws)
      end
    end
  end.
Definition Fields (s : string) : list string := let '(w, ws) := fields_from 0 s in add_field w ws.

(** [strings.Cut] at one byte. *)
Fixpoint Cut (s : string) (sep : ascii) : option (string * string) :=
  match s with
  | EmptyString => None
  | String a s' =>
    if Ascii.eqb a sep then Some ("", s')
    else match Cut s' sep with Some (x, y) => Some (String a x, y) | None => None end
  end.

Fixpoint Join (l : list string) (sep : string) : string :=
  match l with
  | [] => ""
  | [x] => x
  | x :: l' => x +:+ sep +:+ Join l' sep
  end.

(** [strings.Trim] with a one-byte cutset. *)
Fixpoint trim_left_byte (a : ascii) (s : string) : string :=
  match s with String b s' => if Ascii.eqb b a then trim_left_byte a s' else s | EmptyString => "" end.
Definition TrimByte (a : ascii) (s : string) : string := str_rev (trim_left_byte a (str_rev (trim_left_byte a s))).

(** ** [strconv.Atoi] *)
Definition is_digit (a : ascii) : bool := byte_in 48 57 a.

Fixpoint parse_digits (acc : Z) (s : string) : option Z :=
  match s with
  | EmptyString => Some acc
  | String a s' => if is_digit a then parse_digits (acc * 10 + (byte_of a - 48)) s' else None
  end.

Definition int_range (z : Z) : bool := (- 2 ^ 63 <=? z) && (z <? 2 ^ 63).

Definition Atoi (s : string) : option Z :=
  let '(sign, digits) :=
    match s with
    | String a s' => if Ascii.eqb a "-" then (-1, s') else if Ascii.eqb a "+" then (1, s') else (1, s)
    | EmptyString => (1, s)
    end in
  if String.eqb digits "" then None else
  n ← parse_digits 0 digits;
  if int_range (sign * n) then Some (sign * n) else None.

(** ** [fmt] and [time] *)
Definition digit (z : Z) : ascii := of_byte (48 + z).
Definition two (z : Z) : string := String (digit (z / 10)) (String (digit (z mod 10)) EmptyString).

Fixpoint zeros (n : nat) : string := match n with O => "" | S n' => String "0" (zeros n') end.
(** The verb [%0nd] of a number that is not negative. *)
Definition pad (n : nat) (z : Z) : string := let t := Itoa z in zeros (n - String.length t) +:+ t.

(** A [time.Time] in UTC, as its clock fields. *)
Record civil : Type := mkCivil { c_year : Z; c_month : Z; c_day : Z; c_hour : Z; c_minute : Z; c_second : Z }.

(** A time as nanoseconds since the first of January of year 1, the zero
    time. *)
Notation Second := 1000000000%Z.
Notation Minute := (60 * Second)%Z.
Notation Hour := (60 * Minute)%Z.

Definition civil_of_days (days : Z) : Z * Z * Z :=
  let d := days + 306 in
  let era := d / 146097 in
  let doe := d mod 146097 in
  let yoe := (doe - doe / 1460 + doe / 36524 - doe / 146096) / 365 in
  let doy := doe - (365 * yoe + yoe / 4 - yoe / 100) in
  let mp := (5 * doy + 2) / 153 in
  let month := if mp <? 10 then mp + 3 else mp - 9 in
  (yoe + era * 400 + (if month <=? 2 then 1 else 0), month, doy - (153 * mp + 2) / 5 + 1).

Definition UTC (t : Z) : civil :=
  let secs := t / Second in
  let '(y, m, d) := civil_of_days (secs / 86400) in
  let s := secs mod 86400 in
  mkCivil y m d (s / 3600) (s mod 3600 / 60) (s mod 60).

Definition year_text (y : Z) : string := if y <? 0 then "-" +:+ pad 4 (- y) else pad 4 y.
Definition clock_text (t : civil) : string := two (c_hour t) +:+ ":" +:+ two (c_minute t) +:+ ":" +:+ two (c_second t).

(** [time.Time.Sub] saturates, [time.Duration.Round] rounds half away from
    zero (only used on durations that are not negative). *)
Definition time_Sub (t u : Z) : Z := Z.max (- 2 ^ 63) (Z.min (2 ^ 63 - 1) (t - u)).
Definition round_up (d m : Z) : Z :=
  let r := d mod m in
  if r + r <? m then d - r else
  let d1 := wrap64 (d + m - r) in if d <? d1 then d1 else 2 ^ 63 - 1.

Example utc_of_a_time :
  UTC (63900288000 * Second) = mkCivil 2025 12 2 16 0 0 /\ UTC 0 = mkCivil 1 1 1 0 0 0 /\
  UTC (63844847999 * Second) = mkCivil 2024 2 29 23 59 59.
Proof. vm_compute. done. Qed.

(** ** [sort]

    [sort.Slice] may order equal elements as it likes and promises nothing
    for a function that is no strict weak order, so the two functions are
    known by their documented laws. *)
Record StrictWeakOrder {A} (less : A -> A -> bool) : Prop := mkSWO {
  swo_irrefl : forall x, less x x = false;
  swo_trans : forall x y z, less x y = true -> less y z = true -> less x z = true;
  swo_ntrans : forall x y z, less x y = false -> less y z = false -> less x z = false
}.

Definition sorted_by {A} (less : A -> A -> bool) (l : list A) : Prop := StronglySorted (fun x y => less y x = false) l.
Definition equivalent {A} (less : A -> A -> bool) (x y : A) : bool := negb (less x y) && negb (less y x).

Class GoSort : Type := {
  sort_Slice : forall {A}, (A -> A -> bool) -> list A -> list A;
  sort_Slice_perm : forall {A} (less : A -> A -> bool) l, sort_Slice less l ≡ₚ l;
  sort_Slice_sorted : forall {A} (less : A -> A -> bool) l, StrictWeakOrder less -> sorted_by less (sort_Slice less l);
  sort_SliceStable : forall {A}, (A -> A -> bool) -> list A -> list A;
  sort_SliceStable_perm : forall {A} (less : A -> A -> bool) l, sort_SliceStable less l ≡ₚ l;
  sort_SliceStable_sorted : forall {A} (less : A -> A -> bool) l, StrictWeakOrder less -> sorted_by less (sort_SliceStable less l);
  sort_SliceStable_stable : forall {A} (less : A -> A -> bool) l x, StrictWeakOrder less ->
    List.filter (equivalent less x) (sort_SliceStable less l) = List.filter (equivalent less x) l
}.

(** A sort with these laws. *)
Section InsertionSort.
Context {A : Type} (less : A -> A -> bool).

Fixpoint insert_sorted (x : A) (l : list A) : list A :=
  match l with [] => [x] | y :: l' => if less y x then y :: insert_sorted x l' else x :: l end.
Definition insertion_sort (l : list A) : list A := foldr insert_sorted [] l.

Lemma insert_sorted_perm x l : insert_sorted x l ≡ₚ x :: l.
Proof.
  induction l as [|y l IH]; simpl; [done|]. destruct (less y x); [|done]. rewrite IH. apply Permutation_swap.
Qed.

Lemma insertion_sort_perm l : insertion_sort l ≡ₚ l.
Proof. induction l as [|x l IH]; simpl; [done|]. by rewrite insert_sorted_perm, IH. Qed.

Lemma insert_sorted_sorted x l : StrictWeakOrder less -> sorted_by less l -> sorted_by less (insert_sorted x l).
Proof.
  intros [Hi Ht Hn]. unfold sorted_by. induction 1 as [|y l Hl IH Hy]; simpl; [by repeat constructor|].
  destruct (less y x) eqn:E.
  - constructor; [done|]. rewrite Forall_forall in *. intros z Hz. rewrite insert_sorted_perm in Hz.
    apply elem_of_cons in Hz as [->|Hz]; [|auto]. destruct (less x y) eqn:E2; [|done].
    pose proof (Ht _ _ _ E E2). by rewrite Hi in *.
  - constructor; [by constructor|]. rewrite Forall_forall in *. intros z [->|Hz]%elem_of_cons; [done|]. by apply (Hn _ y); [apply Hy|].
Qed.

Lemma insertion_sort_sorted l : StrictWeakOrder less -> sorted_by less (insertion_sort l).
Proof. intros H. induction l as [|x l IH]; simpl; [constructor|]. by apply insert_sorted_sorted. Qed.

Lemma insert_sorted_stable x l z :
  StrictWeakOrder less -> List.filter (equivalent less z) (insert_sorted x l) = List.filter (equivalent less z) (x :: l).
Proof.
  intros [Hi Ht Hn]. induction l as [|y l IH]; simpl; [done|]. destruct (less y x) eqn:E; [|done]. cbn [List.filter]. rewrite IH.
  cbn [List.filter]. unfold equivalent.
  destruct (less z x) eqn:E1, (less x z) eqn:E2, (less z y) eqn:E3, (less y z) eqn:E4; simpl; try done.
  by rewrite (Hn _ _ _ E4 E1) in E.
Qed.

Lemma insertion_sort_stable l z :
  StrictWeakOrder less -> List.filter (equivalent less z) (insertion_sort l) = List.filter (equivalent less z) l.
Proof. intros H. induction l as [|x l IH]; simpl; [done|]. rewrite insert_sorted_stable by done. simpl. by rewrite IH. Qed.
End InsertionSort.

Definition insertion_GoSort : GoSort := {|
  sort_Slice := @insertion_sort; sort_Slice_perm := @insertion_sort_perm; sort_Slice_sorted := @insertion_sort_sorted;
  sort_SliceStable := @insertion_sort; sort_SliceStable_perm := @insertion_sort_perm;
  sort_SliceStable_sorted := @insertion_sort_sorted; sort_SliceStable_stable := @insertion_sort_stable |}.

(** ** Orders by a text, and by a number first *)
Lemma str_ltb_le s t : str_ltb s t = true <-> ~ str_le t s.
Proof.
  unfold str_ltb, String.ltb, str_le, String.leb. rewrite (String.compare_antisym s t).
  destruct (String.compare t s); simpl; split; congruence.
Qed.

Lemma str_nltb_le s t : str_ltb s t = false <-> str_le t s.
Proof. rewrite <-not_true_iff_false, str_ltb_le. split; [apply dec_stable|auto]. Qed.

Lemma str_less_swo {A} (key : A -> string) : StrictWeakOrder (fun x y => str_ltb (key x) (key y)).
Proof.
  split.
  - intros x. apply str_nltb_le. by destruct (str_le_total (key x) (key x)).
  - intros x y z. rewrite !str_ltb_le. intros H1 H2 H3. destruct (str_le_total (key x) (key y)) as [H|H]; [|done].
    apply H2. by etrans.
  - intros x y z. rewrite !str_nltb_le. intros H1 H2. by etrans.
Qed.

Lemma lex_swo {A} (key : A -> Z) (less : A -> A -> bool) :
  StrictWeakOrder less -> StrictWeakOrder (fun x y => if key x =? key y then less x y else key x <? key y).
Proof.
  intros [Hi Ht Hn]. split.
  - intros x. by rewrite Z.eqb_refl.
  - intros x y z. destruct (Z.eqb_spec (key x) (key y)), (Z.eqb_spec (key y) (key z)), (Z.eqb_spec (key x) (key z)); try lia; eauto.
  - intros x y z. destruct (Z.eqb_spec (key x) (key y)), (Z.eqb_spec (key y) (key z)), (Z.eqb_spec (key x) (key z)); try lia; eauto.
Qed.

(** ** [time.ParseDuration]

    Whole numbers exactly; the fraction of a number is computed by the
    library in floating point, which is a parameter. *)

(** [uint64(float64(f) * (float64(unit) / scale))] for the digits [f] of a
    fraction and [scale = 10^n]. *)
Class FloatFraction : Type := fraction_of : Z -> nat -> Z -> Z.

Definition two63 : Z := 2 ^ 63.

(** [leadingInt]: the number and the rest. *)
Fixpoint leadingInt (x : Z) (s : string) : option (Z * string) :=
  match s with
  | String a s' =>
    if is_digit a then
      if two63 / 10 <? x then None
      else
        let x := x * 10 + (byte_of a - 48) in
        if two63 <? x then None else leadingInt x s'
    else Some (x, s)
  | EmptyString => Some (x, s)
  end.

(** [leadingFraction]: digits that would overflow are dropped. *)
Fixpoint leadingFraction (x : Z) (n : nat) (overflow : bool) (s : string) : Z * nat * string :=
  match s with
  | String a s' =>
    if is_digit a then
      let y := x * 10 + (byte_of a - 48) in
      if overflow || ((two63 - 1) / 10 <? x) || (two63 <? y) then leadingFraction x n true s'
      else leadingFraction y (S n) false s'
    else (x, n, s)
  | EmptyString => (x, n, s)
  end.

(** The text before the next digit or point, and the rest. *)
Fixpoint take_unit (s : string) : string * string :=
  match s with
  | String a s' => if is_digit a || Ascii.eqb a "." then ("", s) else let '(u, r) := take_unit s' in (String a u, r)
  | EmptyString => ("", s)
  end.

Definition unit_of (u : string) : option Z :=
  if String.eqb u "ns" then Some 1
  else if String.eqb u "us" || String.eqb u "µs" || String.eqb u "μs" then Some 1000
  else if String.eqb u "ms" then Some 1000000
  else if String.eqb u "s" then Some 1000000000
  else if String.eqb u "m" then Some (60 * 1000000000)
  else if String.eqb u "h" then Some (3600 * 1000000000)
  else None.

Section Duration.
Context {fractions : FloatFraction}.

(** The terms of a duration; every one shortens the text. *)
Fixpoint terms (fuel : nat) (d : Z) (s : string) : option Z :=
  if String.eqb s "" then Some d
  else match fuel with
  | O => None
  | S fuel =>
    '(v, s1) ← leadingInt 0 s;
    let pre := negb (Nat.eqb (String.length s1) (String.length s)) in
    let '(f, n, s2, post) :=
      match s1 with
      | String "." r => let '(f, n, s2) := leadingFraction 0 0 false r in (f, n, s2, negb (Nat.eqb (String.length s2) (String.length r)))
      | _ => (0, 0%nat, s1, false)
      end in
    if negb pre && negb post then None
    else
      let '(u, s3) := take_unit s2 in
      if String.eqb u "" then None
      else
        unit ← unit_of u;
        if two63 / unit <? v then None
        else
          let v := v * unit + (if 0 <? f then fraction_of f n unit else 0) in
          if two63 <? v then None
          else if two63 <? d + v then None else terms fuel (d + v) s3
  end.

Definition ParseDuration (s : string) : option Z :=
  let '(neg, s) :=
    match s with
    | String a s' => if Ascii.eqb a "-" then (true, s') else if Ascii.eqb a "+" then (false, s') else (false, s)
    | EmptyString => (false, s)
    end in
  if String.eqb s "0" then Some 0
  else if String.eqb s "" then None
  else
    d ← terms (String.length s) 0 s;
    if neg then Some (- d) else if two63 - 1 <? d then None else Some d.

End Duration.

Example durations :
  let p := ParseDuration (fractions := fun f n unit => f * unit / 10 ^ Z.of_nat n) in
  (p "5m", p "1h15m30.5s", p "-2ms", p "30", p "", p "9223372037s", p "1.s", p ".5h") =
  (Some 300000000000, Some 4530500000000, Some (-2000000), None, None, None, Some 1000000000, Some 1800000000000).
Proof. by vm_compute. Qed.
