(* ===== verification/NetIP.v ===== *)
(** * IP addresses

    The part of the package [net/netip] the program uses: the type [Addr]
    with its zero value, [ParseAddr], [String], [Unmap], [Compare], the
    classification predicates and [Prefix.Contains].  Like [GoStrings] it is
    library code of the language. *)

From S2P Require Import Prelude GoStrings.

#[local] Open Scope Z_scope.

(** The zero [Addr] is [AddrInvalid]; an IPv4 address is a 32-bit number and
    an IPv6 address a 128-bit number with a zone, empty for none. *)
Inductive Addr : Type :=
  | AddrInvalid
  | Addr4 (v : Z)
  | Addr6 (v : Z) (zone : string).

#[export] Instance Addr_eq_dec : EqDecision Addr.
Proof. solve_decision. Defined.

#[export] Instance Addr_inhabited : Inhabited Addr := populate AddrInvalid.

#[export] Program Instance Addr_countable : Countable Addr :=
  inj_countable'
    (fun a => match a with
              | AddrInvalid => inl (inl ())
              | Addr4 v => inl (inr v)
              | Addr6 v z => inr (v, z) end)
    (fun x => match x with
              | inl (inl _) => AddrInvalid
              | inl (inr v) => Addr4 v
              | inr (v, z) => Addr6 v z end) _.
Next Obligation. by intros []. Qed.

Definition IsValid (a : Addr) : bool :=
  match a with AddrInvalid => false | _ => true end.
Definition Is4 (a : Addr) : bool :=
  match a with Addr4 _ => true | _ => false end.
Definition Is4In6 (a : Addr) : bool :=
  match a with Addr6 v _ => Z.shiftr v 32 =? 65535 | _ => false end.
Definition Zone (a : Addr) : string :=
  match a with Addr6 _ z => z | _ => "" end.

(** [Addr.Unmap]: an IPv4-mapped IPv6 address becomes the IPv4 address. *)
Definition Unmap (a : Addr) : Addr :=
  match a with
  | Addr6 v _ => if Is4In6 a then Addr4 (Z.land v 4294967295) else a
  | _ => a
  end.

(** The numbers stay inside their width. *)
Definition addr_wf (a : Addr) : Prop :=
  match a with
  | AddrInvalid => True
  | Addr4 v => 0 <= v < 2 ^ 32
  | Addr6 v _ => 0 <= v < 2 ^ 128
  end.

(** ** Parsing *)
Definition digit_val (a : ascii) : option Z :=
  if byte_in 48 57 a then Some (byte_of a - 48) else None.

Definition hex_val (a : ascii) : option Z :=
  if byte_in 48 57 a then Some (byte_of a - 48)
  else if byte_in 97 102 a then Some (byte_of a - 87)
  else if byte_in 65 70 a then Some (byte_of a - 55)
  else None.

(** [parseIPv4Fields]: [first] says that no byte was read yet and [prev_dot]
    that the last one was a dot. *)
Fixpoint parse_ipv4_fields (s : string) (first prev_dot : bool) (val : Z) (digLen : nat)
    (fields : list Z) : option (list Z) :=
  match s with
  | EmptyString =>
    if (length fields <? 3)%nat then None else Some (fields ++ [val])
  | String c s' =>
    match digit_val c with
    | Some d =>
      if (digLen =? 1)%nat && (val =? 0) then None
      else let val' := val * 10 + d in
           if 255 <? val' then None
           else parse_ipv4_fields s' false false val' (S digLen) fields
    | None =>
      if Ascii.eqb c "." then
        if first || String.eqb s' "" || prev_dot then None
        else if (length fields =? 3)%nat then None
        else parse_ipv4_fields s' false true 0 0 (fields ++ [val])
      else None
    end
  end.

Definition join_fields (base : Z) (l : list Z) : Z := foldl (fun acc x => acc * base + x) 0 l.

Definition parse_ipv4 (s : string) : option Addr :=
  fields ← parse_ipv4_fields s true false 0 0 [];
  Some (Addr4 (join_fields 256 fields)).

(** One hexadecimal group: the number of digits, the value and the rest. *)
Fixpoint parse_hex (s : string) (off : nat) (acc : Z) : option (nat * Z * string) :=
  match s with
  | EmptyString => Some (off, acc, "")
  | String c s' =>
    match hex_val c with
    | None => Some (off, acc, s)
    | Some d =>
      if (3 <? off)%nat then None
      else parse_hex s' (S off) (acc * 16 + d)
    end
  end.

(** The loop of [parseIPv6] over the groups read so far; each round adds a
    group, so eight rounds of fuel are enough. *)
Fixpoint parse_ipv6_loop (fuel : nat) (s : string) (groups : list Z) (ellipsis : option nat)
    : option (string * list Z * option nat) :=
  match fuel with
  | O => Some (s, groups, ellipsis)
  | S fuel' =>
    '(off, acc, rest) ← parse_hex s 0 0;
    if (off =? 0)%nat then None
    else match rest with
    | EmptyString => Some ("", groups ++ [acc], ellipsis)
    | String c rest' =>
      if Ascii.eqb c "." then
        if bool_decide (ellipsis = None) && negb (length groups =? 6)%nat then None
        else if (6 <? length groups)%nat then None
        else fields ← parse_ipv4_fields s true false 0 0 [];
             let v := join_fields 256 fields in
             Some ("", groups ++ [v / 65536; v mod 65536], ellipsis)
      else
        let groups := groups ++ [acc] in
        if negb (Ascii.eqb c ":") then None
        else match rest' with
        | EmptyString => None
        | String c2 rest2 =>
          if Ascii.eqb c2 ":" then
            match ellipsis with
            | Some _ => None
            | None =>
              let ellipsis := Some (length groups) in
              match rest2 with
              | EmptyString => Some ("", groups, ellipsis)
              | _ => parse_ipv6_loop fuel' rest2 groups ellipsis
              end
            end
          else parse_ipv6_loop fuel' rest' groups ellipsis
        end
    end
  end.

Definition expand_groups (groups : list Z) (ellipsis : option nat) : option (list Z) :=
  if (length groups <? 8)%nat then
    match ellipsis with
    | None => None
    | Some e => Some (take e groups ++ replicate (8 - length groups) 0 ++ drop e groups)
    end
  else match ellipsis with
       | Some _ => None
       | None => Some groups
       end.

Definition parse_ipv6_body (s : string) : option Z :=
  let '(s, ellipsis) :=
    match s with
    | String ":" (String ":" s') => (s', Some O)
    | _ => (s, None)
    end in
  if bool_decide (ellipsis = Some O) && String.eqb s "" then Some 0
  else
    '(rest, groups, ellipsis) ← parse_ipv6_loop 8 s [] ellipsis;
    if String.eqb rest "" then
      groups ← expand_groups groups ellipsis; Some (join_fields 65536 groups)
    else None.

Fixpoint index_byte (s : string) (c : ascii) : option nat :=
  match s with
  | EmptyString => None
  | String a s' => if Ascii.eqb a c then Some O else S <$> index_byte s' c
  end.

Definition parse_ipv6 (s : string) : option Addr :=
  match index_byte s "%" with
  | Some i =>
    let zone := str_drop (S i) s in
    if String.eqb zone "" then None
    else v ← parse_ipv6_body (str_take i s); Some (Addr6 v zone)
  | None => v ← parse_ipv6_body s; Some (Addr6 v "")
  end.

(** [netip.ParseAddr]: the first of '.', ':' and '%' chooses the syntax. *)
Fixpoint addr_kind (s : string) : ascii :=
  match s with
  | EmptyString => " "
  | String c s' =>
    if Ascii.eqb c "." || Ascii.eqb c ":" || Ascii.eqb c "%" then c else addr_kind s'
  end.

Definition ParseAddr (s : string) : option Addr :=
  let k := addr_kind s in
  if Ascii.eqb k "." then parse_ipv4 s
  else if Ascii.eqb k ":" then parse_ipv6 s
  else None.

(** ** Printing *)
Definition octet (v : Z) (i : Z) : Z := Z.land (Z.shiftr v (8 * i)) 255.

Definition string4 (v : Z) : string :=
  Itoa (octet v 3) +:+ "." +:+ Itoa (octet v 2) +:+ "." +:+
  Itoa (octet v 1) +:+ "." +:+ Itoa (octet v 0).

Definition hex_digit (d : Z) : ascii :=
  if d <? 10 then of_byte (48 + d) else of_byte (87 + d).

(** [appendHex]: no leading zeros. *)
Definition append_hex (x : Z) : string :=
  (if 4096 <=? x then String (hex_digit (x / 4096)) "" else "") +:+
  (if 256 <=? x then String (hex_digit ((x / 256) mod 16)) "" else "") +:+
  (if 16 <=? x then String (hex_digit ((x / 16) mod 16)) "" else "") +:+
  String (hex_digit (x mod 16)) "".

Definition v6u16 (v : Z) (i : nat) : Z := Z.land (Z.shiftr v (112 - 16 * Z.of_nat i)) 65535.

Definition groups_of (v : Z) : list Z := v6u16 v <$> seq 0 8.

Fixpoint zero_run (l : list Z) : nat :=
  match l with
  | x :: l' => if x =? 0 then S (zero_run l') else O
  | [] => O
  end.

(** The longest run of at least two zero groups, the first one on ties. *)
Fixpoint longest_zeros (l : list Z) (i : nat) (best : nat * nat) : nat * nat :=
  match l with
  | [] => best
  | _ :: l' =>
    let n := zero_run l in
    longest_zeros l' (S i) (if (2 <=? n)%nat && (snd best <? n)%nat then (i, n) else best)
  end.

Fixpoint join_groups (l : list Z) : string :=
  match l with
  | [] => ""
  | [x] => append_hex x
  | x :: l' => append_hex x +:+ ":" +:+ join_groups l'
  end.

Definition string6 (v : Z) : string :=
  let l := groups_of v in
  let '(start, n) := longest_zeros l 0 (0, 0)%nat in
  if (n =? 0)%nat then join_groups l
  else join_groups (take start l) +:+ "::" +:+ join_groups (drop (start + n) l).

Definition with_zone (s zone : string) : string :=
  if String.eqb zone "" then s else s +:+ "%" +:+ zone.

(** [Addr.String]. *)
Definition addr_string (a : Addr) : string :=
  match a with
  | AddrInvalid => "invalid IP"
  | Addr4 v => string4 v
  | Addr6 v z =>
    if Is4In6 a then with_zone ("::ffff:" +:+ string4 (Z.land v 4294967295)) z
    else with_zone (string6 v) z
  end.

(** ** Order and classification *)
Definition bit_len (a : Addr) : Z :=
  match a with AddrInvalid => 0 | Addr4 _ => 32 | Addr6 _ _ => 128 end.
Definition addr_num (a : Addr) : Z :=
  match a with AddrInvalid => 0 | Addr4 v => v | Addr6 v _ => v end.

(** [Addr.Compare]: width, then value, then zone. *)
Definition Compare (a b : Addr) : comparison :=
  match (bit_len a ?= bit_len b)%Z with
  | Eq => match (addr_num a ?= addr_num b)%Z with
          | Eq => String.compare (Zone a) (Zone b)
          | c => c
          end
  | c => c
  end.

Definition in4 (v base bits : Z) : bool := Z.shiftr v (32 - bits) =? Z.shiftr base (32 - bits).
Definition in6 (v base bits : Z) : bool := Z.shiftr v (128 - bits) =? Z.shiftr base (128 - bits).

Definition ip4 (a b c d : Z) : Z := join_fields 256 [a; b; c; d].

Definition IsLoopback (a : Addr) : bool :=
  match Unmap a with
  | Addr4 v => Z.shiftr v 24 =? 127
  | Addr6 v _ => v =? 1
  | AddrInvalid => false
  end.
Definition IsMulticast (a : Addr) : bool :=
  match Unmap a with
  | Addr4 v => Z.shiftr v 28 =? 14
  | Addr6 v _ => Z.shiftr v 120 =? 255
  | AddrInvalid => false
  end.
Definition IsLinkLocalUnicast (a : Addr) : bool :=
  match Unmap a with
  | Addr4 v => in4 v (ip4 169 254 0 0) 16
  | Addr6 v _ => Z.shiftr v 118 =? 1018
  | AddrInvalid => false
  end.
Definition IsPrivate (a : Addr) : bool :=
  match Unmap a with
  | Addr4 v => in4 v (ip4 10 0 0 0) 8 || in4 v (ip4 172 16 0 0) 12 || in4 v (ip4 192 168 0 0) 16
  | Addr6 v _ => Z.shiftr v 121 =? 126
  | AddrInvalid => false
  end.
(** [v == IPv6Unspecified()] compares the zone too: a zoned "::" passes. *)
Definition IsGlobalUnicast (a : Addr) : bool :=
  let b := Unmap a in
  match b with
  | AddrInvalid => false
  | Addr4 v =>
    negb (v =? 0) && negb (v =? 4294967295) &&
    negb (IsLoopback b) && negb (IsMulticast b) && negb (IsLinkLocalUnicast b)
  | Addr6 v z =>
    negb ((v =? 0) && String.eqb z "") &&
    negb (IsLoopback b) && negb (IsMulticast b) && negb (IsLinkLocalUnicast b)
  end.

(** [Prefix.Contains]: same family, no zone, equal leading bits. *)
Inductive Prefix : Type :=
  | Prefix4 (base bits : Z)
  | Prefix6 (base bits : Z).

Definition prefix_contains (p : Prefix) (a : Addr) : bool :=
  match p, a with
  | Prefix4 base bits, Addr4 v => in4 v base bits
  | Prefix6 base bits, Addr6 v z => String.eqb z "" && in6 v base bits
  | _, _ => false
  end.
