(* ===== verification/NetIPFacts.v ===== *)
(** * Facts on IP addresses

    Printing and parsing an address are inverse to each other: for every
    address inside its width, [ParseAddr (addr_string a) = Some a], for IPv4,
    IPv6 with and without a compressed run of zero groups, IPv4-mapped IPv6
    and zones.  The components use these facts to know that an address the
    program writes into a request is read back as the same address. *)

From S2P Require Import Prelude GoStrings NetIP.
From stdpp Require Import pretty list_numbers.
#[local] Open Scope Z_scope.

(** ** Strings of printable bytes *)
Fixpoint str_forall (f : ascii -> bool) (s : string) : bool :=
  match s with EmptyString => true | String a s' => f a && str_forall f s' end.

Lemma str_forall_app f s t : str_forall f (s +:+ t) = str_forall f s && str_forall f t.
Proof. induction s as [|a s IH]; [done|]. rewrite string_app_cons. simpl. by rewrite IH, andb_assoc. Qed.

Lemma str_forall_impl (f g : ascii -> bool) s :
  (forall a, f a = true -> g a = true) -> str_forall f s = true -> str_forall g s = true.
Proof.
  intros H. induction s as [|a s IH]; simpl; [done|].
  intros [Ha Hs]%andb_true_iff. by rewrite H, IH.
Qed.

Lemma str_forall_rev_app f s t : str_forall f (str_rev_app s t) = str_forall f s && str_forall f t.
Proof.
  revert t. induction s as [|a s IH]; intros t; [done|]. simpl. rewrite IH. simpl.
  by rewrite andb_assoc, (andb_comm (str_forall f s)).
Qed.

Lemma str_rev_app_app s t u : str_rev_app (str_rev_app s t) u = str_rev_app t (s +:+ u).
Proof. revert t u. induction s as [|a s IH]; intros t u; [done|]. simpl. by rewrite IH. Qed.

Lemma str_rev_involutive s : str_rev (str_rev s) = s.
Proof. unfold str_rev. rewrite str_rev_app_app. simpl. apply string_app_nil_r. Qed.

Definition printable (a : ascii) : bool := byte_in 33 126 a.

Lemma printable_spec a : printable a = true -> 33 <= byte_of a <= 126.
Proof. unfold printable, byte_in. intros [H1 H2]%andb_true_iff. lia. Qed.

Lemma ascii_space_printable a : printable a = true -> ascii_space a = false.
Proof.
  intros H%printable_spec. unfold ascii_space.
  apply orb_false_iff. split; [lia|]. apply andb_false_iff. lia.
Qed.

Lemma trim_left_with_printable two three s :
  (forall a b, printable a = true -> two a b = false) ->
  (forall a b c, printable a = true -> three a b c = false) ->
  str_forall printable s = true -> trim_left_with two three s = s.
Proof.
  intros H2 H3. destruct s as [|a [|b [|c s]]]; simpl; [done|..];
    intros [Ha _]%andb_true_iff; rewrite ascii_space_printable, ?H2, ?H3; done.
Qed.

Ltac solve_tests :=
  repeat first [ rewrite orb_false_iff | rewrite andb_false_iff ]; lia.

(** White space is not printable, so a printable string is its own trim. *)
Lemma TrimSpace_printable s : str_forall printable s = true -> TrimSpace s = s.
Proof.
  intros H. unfold TrimSpace, trim_left.
  rewrite trim_left_with_printable; [|..|done].
  - unfold trim_right. rewrite trim_left_with_printable; [apply str_rev_involutive|..].
    + intros a b Ha%printable_spec. unfold space2. solve_tests.
    + intros a b c Ha%printable_spec. unfold space3. cbv zeta. solve_tests.
    + unfold str_rev. by rewrite str_forall_rev_app, H.
  - intros a b Ha%printable_spec. unfold space2. solve_tests.
  - intros a b c Ha%printable_spec. unfold space3. cbv zeta. solve_tests.
Qed.

Lemma trim_left_head a s : printable a = true -> trim_left (String a s) = String a s.
Proof.
  intros Ha. unfold trim_left. simpl. rewrite ascii_space_printable by done. apply printable_spec in Ha.
  destruct s as [|b [|c s]]; [done|..].
  - replace (space2 a b) with false; [done|]. symmetry. unfold space2. solve_tests.
  - replace (space2 a b) with false by (symmetry; unfold space2; solve_tests).
    replace (space3 a b c) with false; [done|]. symmetry. unfold space3. cbv zeta. solve_tests.
Qed.

Lemma str_rev_app_snoc s t u : str_rev_app (s +:+ t) u = str_rev_app t (str_rev_app s u).
Proof. revert u. induction s as [|a s IH]; intros u; [done|]. rewrite string_app_cons. apply IH. Qed.

(** A line of printable bytes without its end. *)
Lemma TrimSpace_line s : s <> "" -> str_forall printable s = true -> TrimSpace (s +:+ String chr_nl EmptyString) = s.
Proof.
  intros Hne H. unfold TrimSpace. destruct s as [|a s]; [done|].
  rewrite string_app_cons, trim_left_head by (simpl in H; by apply andb_true_iff in H as [-> _]).
  rewrite <-string_app_cons. unfold trim_right, str_rev at 2. rewrite str_rev_app_snoc.
  change (str_rev_app (String chr_nl EmptyString) ?t) with (String chr_nl t). change (ascii_space chr_nl) with true.
  cbn [trim_left_with]. change (ascii_space chr_nl) with true. cbv iota.
  rewrite trim_left_with_printable; [apply (str_rev_involutive (String a s))|..].
  - intros x y Hx%printable_spec. unfold space2. solve_tests.
  - intros x y z Hx%printable_spec. unfold space3. cbv zeta. solve_tests.
  - by rewrite str_forall_rev_app, H.
Qed.

(** ** Octets *)
Lemma octet_range v i : 0 <= octet v i < 256.
Proof. unfold octet. change 255 with (Z.ones 8). rewrite Z.land_ones by lia. apply Z.mod_pos_bound. lia. Qed.

Lemma octet_ind (P : Z -> Prop) : Forall P (seqZ 0 256) -> forall o, 0 <= o < 256 -> P o.
Proof.
  intros H o Ho. rewrite Forall_forall in H. apply H. apply elem_of_seqZ. lia.
Qed.

Lemma octets_join v :
  0 <= v < 2 ^ 32 -> join_fields 256 [octet v 3; octet v 2; octet v 1; octet v 0] = v.
Proof.
  intros Hv. unfold join_fields, octet. simpl.
  change 255 with (Z.ones 8). rewrite !Z.land_ones, !Z.shiftr_div_pow2 by lia.
  change (2 ^ (8 * 3)) with 16777216. change (2 ^ (8 * 2)) with 65536.
  change (2 ^ (8 * 1)) with 256. change (2 ^ (8 * 0)) with 1. change (2 ^ 8) with 256.
  change (2 ^ 32) with 4294967296 in Hv. rewrite Z.div_1_r.
  Z.to_euclidean_division_equations. lia.
Qed.

(** What the parsers see of a decimal octet. *)
Record octet_text (o : Z) (s : string) : Prop := {
  ot_end : forall first pd fields, parse_ipv4_fields s first pd 0 0 fields =
    if (length fields <? 3)%nat then None else Some (fields ++ [o]);
  ot_dot : forall r first pd fields, r <> "" -> parse_ipv4_fields (s +:+ String "." r) first pd 0 0 fields =
    if (length fields =? 3)%nat then None else parse_ipv4_fields r false true 0 0 (fields ++ [o]);
  ot_hex : forall r, exists n acc, n <> O /\ parse_hex (s +:+ String "." r) 0 0 = Some (n, acc, String "." r);
  ot_kind : forall r, addr_kind (s +:+ r) = addr_kind r;
  ot_nonempty : s <> "";
  ot_printable : str_forall (fun a => printable a && negb (Ascii.eqb a "%")) s = true
}.

Lemma octet_text_Itoa o : 0 <= o < 256 -> octet_text o (Itoa o).
Proof.
  revert o. apply octet_ind.
  let l := eval vm_compute in (seqZ 0 256) in change (seqZ 0 256) with l.
  repeat (apply List.Forall_cons || apply List.Forall_nil).
  all: match goal with |- octet_text _ (Itoa ?z) =>
    let s := eval vm_compute in (Itoa z) in change (Itoa z) with s end.
  all: split; [reflexivity| |intros r; eexists _, _; split; [|reflexivity]; discriminate
              |reflexivity|discriminate|reflexivity].
  all: intros [|c r] first pd fields Hr; [done|reflexivity].
Qed.

Lemma parse_string4 v first pd :
  0 <= v < 2 ^ 32 ->
  parse_ipv4_fields (string4 v) first pd 0 0 [] = Some [octet v 3; octet v 2; octet v 1; octet v 0].
Proof.
  intros Hv. unfold string4.
  pose proof (fun i => octet_text_Itoa (octet v i) (octet_range v i)) as H.
  rewrite !string_app_cons, !string_app_nil.
  assert (forall i r, Itoa (octet v i) +:+ r <> "") as Hne.
  { intros i r. pose proof (ot_nonempty _ _ (H i)) as Hn. destruct (Itoa (octet v i)); [done|].
    by rewrite string_app_cons. }
  pose proof (ot_nonempty _ _ (H 0)) as Hne0.
  rewrite (ot_dot _ _ (H 3)) by apply Hne. simpl.
  rewrite (ot_dot _ _ (H 2)) by apply Hne. simpl.
  rewrite (ot_dot _ _ (H 1)) by done. simpl.
  by rewrite (ot_end _ _ (H 0)).
Qed.

Definition plain_byte (a : ascii) : bool := printable a && negb (Ascii.eqb a "%").

Lemma string4_plain v : str_forall plain_byte (string4 v) = true.
Proof.
  unfold string4. rewrite !str_forall_app.
  by rewrite !(ot_printable _ _ (octet_text_Itoa _ (octet_range v _))).
Qed.

Lemma addr_kind_string4 v : addr_kind (string4 v) = "."%char.
Proof.
  unfold string4. rewrite (ot_kind _ _ (octet_text_Itoa _ (octet_range v 3))). reflexivity.
Qed.

Lemma ParseAddr_string4 v : 0 <= v < 2 ^ 32 -> ParseAddr (string4 v) = Some (Addr4 v).
Proof.
  intros Hv. unfold ParseAddr. rewrite addr_kind_string4. simpl.
  unfold parse_ipv4. rewrite parse_string4 by done. simpl. by rewrite octets_join.
Qed.

(** ** Hexadecimal groups *)
Lemma hex_digit_range (P : Z -> Prop) :
  P 0 -> P 1 -> P 2 -> P 3 -> P 4 -> P 5 -> P 6 -> P 7 -> P 8 -> P 9 -> P 10 -> P 11 -> P 12 ->
  P 13 -> P 14 -> P 15 -> forall d, 0 <= d < 16 -> P d.
Proof.
  intros. assert (d = 0 \/ d = 1 \/ d = 2 \/ d = 3 \/ d = 4 \/ d = 5 \/ d = 6 \/ d = 7 \/ d = 8 \/ d = 9 \/
    d = 10 \/ d = 11 \/ d = 12 \/ d = 13 \/ d = 14 \/ d = 15) as H' by lia.
  repeat destruct H' as [->|H']; try done; by subst.
Qed.

Lemma hex_val_digit d : 0 <= d < 16 -> hex_val (hex_digit d) = Some d.
Proof. revert d. by apply hex_digit_range. Qed.

Definition hex_byte (a : ascii) : bool :=
  plain_byte a && negb (Ascii.eqb a ".") && negb (Ascii.eqb a ":").

Lemma hex_digit_byte d : 0 <= d < 16 -> hex_byte (hex_digit d) = true.
Proof. revert d. by apply hex_digit_range. Qed.

(** A string after which a group ends. *)
Definition group_end (r : string) : Prop :=
  r = "" \/ exists c r', r = String c r' /\ hex_val c = None.

Lemma parse_hex_end r n acc : group_end r -> parse_hex r n acc = Some (n, acc, r).
Proof. intros [->|(c & r' & -> & Hc)]; simpl; [done|by rewrite Hc]. Qed.

Lemma parse_hex_digit d r n acc : 0 <= d < 16 -> (n <= 3)%nat ->
  parse_hex (String (hex_digit d) r) n acc = parse_hex r (S n) (acc * 16 + d).
Proof.
  intros Hd Hn. simpl. rewrite hex_val_digit by done.
  destruct (Nat.ltb_spec 3 n); [lia|done].
Qed.

Lemma parse_append_hex x r : 0 <= x < 65536 -> group_end r ->
  exists n, n <> O /\ parse_hex (append_hex x +:+ r) 0 0 = Some (n, x, r).
Proof.
  intros Hx Hr. unfold append_hex.
  assert (0 <= x / 4096 < 16) by (Z.to_euclidean_division_equations; lia).
  assert (0 <= (x / 256) mod 16 < 16) by (apply Z.mod_pos_bound; lia).
  assert (0 <= (x / 16) mod 16 < 16) by (apply Z.mod_pos_bound; lia).
  assert (0 <= x mod 16 < 16) by (apply Z.mod_pos_bound; lia).
  assert (x / 256 = x / 16 / 16) by (rewrite Z.div_div by lia; done).
  assert (x / 4096 = x / 256 / 16) by (rewrite Z.div_div by lia; done).
  pose proof (Z.div_mod x 16 ltac:(lia)). pose proof (Z.div_mod (x / 16) 16 ltac:(lia)).
  pose proof (Z.div_mod (x / 256) 16 ltac:(lia)).
  destruct (Z.leb_spec 4096 x), (Z.leb_spec 256 x), (Z.leb_spec 16 x); try lia;
    autorewrite with gostr; rewrite ?parse_hex_digit, parse_hex_end by (done || lia);
    eexists; (split; [|do 3 f_equal; lia]); done.
Qed.

Definition hex_text (s : string) : Prop := s <> "" /\ str_forall hex_byte s = true.

Lemma append_hex_text x : 0 <= x < 65536 -> hex_text (append_hex x).
Proof.
  intros Hx. unfold append_hex, hex_text.
  assert (0 <= x / 4096 < 16) by (Z.to_euclidean_division_equations; lia).
  assert (0 <= (x / 256) mod 16 < 16) by (apply Z.mod_pos_bound; lia).
  assert (0 <= (x / 16) mod 16 < 16) by (apply Z.mod_pos_bound; lia).
  assert (0 <= x mod 16 < 16) by (apply Z.mod_pos_bound; lia).
  destruct (4096 <=? x), (256 <=? x), (16 <=? x); autorewrite with gostr;
    (split; [done|]); simpl; by rewrite !hex_digit_byte.
Qed.

Lemma addr_kind_hex s r : str_forall hex_byte s = true -> addr_kind (s +:+ r) = addr_kind r.
Proof.
  induction s as [|a s IH]; [done|]. rewrite string_app_cons. simpl.
  unfold hex_byte, plain_byte at 1. intros H. split_hyps.
  repeat match goal with H : negb _ = true |- _ => apply negb_true_iff in H; rewrite H end.
  simpl. by apply IH.
Qed.

(** ** IPv6 text *)
Definition groups_ok (l : list Z) : Prop := Forall (fun x => 0 <= x < 65536) l.

(** The text of a non-empty list of groups starts with a byte that is no colon. *)
Lemma join_groups_head l : groups_ok l -> l <> [] ->
  exists c s, join_groups l = String c s /\ Ascii.eqb c ":" = false.
Proof.
  intros Hl Hne. destruct l as [|x l]; [done|]. inversion Hl as [|?? Hx]; subst.
  destruct (append_hex_text x Hx) as [Hn Hb].
  destruct (append_hex x) as [|c s] eqn:E; [done|]. simpl in Hb.
  unfold hex_byte in Hb at 1. split_hyps.
  repeat match goal with H : negb _ = true |- _ => apply negb_true_iff in H end.
  destruct l; simpl; rewrite E; [|rewrite string_app_cons]; eauto.
Qed.

Lemma loop_last f x g e : 0 <= x < 65536 ->
  parse_ipv6_loop (S f) (append_hex x) g e = Some ("", g ++ [x], e).
Proof.
  intros Hx. cbn [parse_ipv6_loop].
  destruct (parse_append_hex x "" Hx) as (n & Hn & H); [by left|].
  rewrite string_app_nil_r in H. rewrite H. simpl.
  by destruct n.
Qed.

Lemma loop_colon f x c t g e : 0 <= x < 65536 -> Ascii.eqb c ":" = false ->
  parse_ipv6_loop (S f) (append_hex x +:+ ":" +:+ String c t) g e =
  parse_ipv6_loop f (String c t) (g ++ [x]) e.
Proof.
  intros Hx Hc. cbn [parse_ipv6_loop]. rewrite !string_app_cons, !string_app_nil.
  destruct (parse_append_hex x (String ":" (String c t)) Hx) as (n & Hn & H).
  { right. by exists ":"%char, (String c t). }
  rewrite H. simpl. rewrite Hc. by destruct n.
Qed.

Lemma loop_double_colon f x t g : 0 <= x < 65536 ->
  parse_ipv6_loop (S f) (append_hex x +:+ "::" +:+ t) g None =
  if String.eqb t "" then Some ("", g ++ [x], Some (length (g ++ [x])))
  else parse_ipv6_loop f t (g ++ [x]) (Some (length (g ++ [x]))).
Proof.
  intros Hx. cbn [parse_ipv6_loop]. rewrite !string_app_cons, !string_app_nil.
  destruct (parse_append_hex x (String ":" (String ":" t)) Hx) as (n & Hn & H).
  { right. by exists ":"%char, (String ":" t). }
  rewrite H. simpl. destruct n; [done|]. simpl. by destruct t.
Qed.

Lemma loop_groups l f g e : groups_ok l -> l <> [] -> (length l <= f)%nat ->
  parse_ipv6_loop f (join_groups l) g e = Some ("", g ++ l, e).
Proof.
  revert f g. induction l as [|x l IH]; intros f g Hl Hne Hf; [done|].
  inversion Hl as [|?? Hx Hl']; subst. destruct f as [|f]; simpl in Hf; [lia|].
  destruct l as [|y l]; [by apply loop_last|].
  destruct (join_groups_head (y :: l)) as (c & t & Ht & Hc); [done|done|].
  change (join_groups (x :: y :: l)) with (append_hex x +:+ ":" +:+ join_groups (y :: l)).
  rewrite Ht, loop_colon, <-Ht, IH by (done || (simpl in *; lia)). by rewrite <-app_assoc.
Qed.

Lemma loop_groups_gap l f g t : groups_ok l -> l <> [] -> (length l <= f)%nat ->
  parse_ipv6_loop f (join_groups l +:+ "::" +:+ t) g None =
  if String.eqb t "" then Some ("", g ++ l, Some (length (g ++ l)))
  else parse_ipv6_loop (f - length l) t (g ++ l) (Some (length (g ++ l))).
Proof.
  revert f g. induction l as [|x l IH]; intros f g Hl Hne Hf; [done|].
  inversion Hl as [|?? Hx Hl']; subst. destruct f as [|f]; simpl in Hf; [lia|].
  destruct l as [|y l].
  { simpl join_groups. rewrite loop_double_colon by done. simpl. by rewrite Nat.sub_0_r. }
  destruct (join_groups_head (y :: l)) as (c & s & Ht & Hc); [done|done|].
  change (join_groups (x :: y :: l)) with (append_hex x +:+ ":" +:+ join_groups (y :: l)).
  rewrite !string_app_assoc, Ht, !(string_app_cons c), loop_colon by done.
  rewrite <-string_app_cons, <-Ht, IH by (done || (simpl in *; lia)). by rewrite <-!app_assoc.
Qed.

Definition body_rest (s : string) (ellipsis : option nat) : option Z :=
  if bool_decide (ellipsis = Some O) && String.eqb s "" then Some 0
  else
    '(rest, groups, ellipsis) ← parse_ipv6_loop 8 s [] ellipsis;
    if String.eqb rest "" then
      groups ← expand_groups groups ellipsis; Some (join_fields 65536 groups)
    else None.

Lemma body_plain c s : Ascii.eqb c ":" = false ->
  parse_ipv6_body (String c s) = body_rest (String c s) None.
Proof. intros H. destruct c as [[] [] [] [] [] [] [] []]; done. Qed.

Lemma body_gap s : parse_ipv6_body ("::" +:+ s) = body_rest s (Some O).
Proof. done. Qed.

(** ** Runs of zero groups *)
Lemma zero_run_spec l : (zero_run l <= length l)%nat /\ take (zero_run l) l = replicate (zero_run l) 0.
Proof.
  induction l as [|x l [IH1 IH2]]; simpl; [done|].
  destruct (Z.eqb_spec x 0) as [->|]; simpl; [|split; [lia|done]]. split; [lia|by f_equal].
Qed.

Definition gap (l : list Z) (p : nat * nat) : Prop :=
  snd p = O \/ (2 <= snd p /\ fst p + snd p <= length l)%nat /\
    take (snd p) (drop (fst p) l) = replicate (snd p) 0.

Lemma longest_zeros_gap l0 l i best :
  l = drop i l0 -> (i <= length l0)%nat -> gap l0 best -> gap l0 (longest_zeros l i best).
Proof.
  revert i best. induction l as [|x l IH]; intros i best Hl Hi Hb; [done|].
  cbn [longest_zeros].
  assert (length (x :: l) = length l0 - i)%nat as Hlen by by rewrite Hl, length_drop.
  apply IH; simpl in Hlen.
  - change l with (drop 1 (x :: l)). rewrite Hl, drop_drop. f_equal. lia.
  - lia.
  - destruct (zero_run_spec (x :: l)) as [H1 H2].
    destruct (Nat.leb_spec 2 (zero_run (x :: l))); cbn [andb]; [|done].
    destruct (snd best <? zero_run (x :: l))%nat; [|done].
    right. cbn [fst snd]. rewrite <-Hl. split; [simpl in *; lia|exact H2].
Qed.

Lemma body_string6_groups l : groups_ok l -> length l = 8%nat ->
  let '(start, n) := longest_zeros l 0 (0, 0)%nat in
  parse_ipv6_body (if (n =? 0)%nat then join_groups l
    else join_groups (take start l) +:+ "::" +:+ join_groups (drop (start + n) l)) =
  Some (join_fields 65536 l).
Proof.
  intros Hok Hlen. pose proof (longest_zeros_gap l l 0 (0, 0)%nat eq_refl ltac:(lia) (or_introl eq_refl)) as Hgap.
  destruct (longest_zeros l 0 (0, 0)%nat) as [start n].
  destruct Hgap as [Hn|[[Hn Hs] Hz]]; simpl in *.
  - subst n. simpl. destruct (join_groups_head l) as (c & s & Hj & Hc); [done|by intros ->|].
    rewrite Hj, body_plain by done. unfold body_rest. simpl bool_decide. rewrite <-Hj.
    rewrite loop_groups by (done || lia || by intros ->). simpl.
    unfold expand_groups. by rewrite Hlen.
  - destruct (Nat.eqb_spec n 0) as [->|_]; [lia|].
    set (pre := take start l). set (post := drop (start + n) l).
    assert (length pre = start) as Hpre by (unfold pre; rewrite length_take; lia).
    assert (length post = 8 - (start + n))%nat as Hpost by (unfold post; rewrite length_drop; lia).
    assert (l = pre ++ replicate n 0 ++ post) as Hl.
    { rewrite <-Hz. unfold pre, post. rewrite <-drop_drop, take_drop, take_drop. done. }
    assert (groups_ok pre /\ groups_ok post) as [Hokp Hokq].
    { rewrite Hl in Hok. apply Forall_app in Hok as [? [? ?]%Forall_app]. done. }
    assert (expand_groups (pre ++ post) (Some start) = Some l) as Hexp.
    { unfold expand_groups. rewrite length_app, Hpre, Hpost.
      destruct (Nat.ltb_spec (start + (8 - (start + n))) 8); [|lia].
      rewrite Hl at 1. do 2 f_equal; [by rewrite take_app_length'|].
      f_equal; [|by rewrite drop_app_length']. f_equal. lia. }
    assert (forall f, (length post <= f)%nat -> join_groups post <> "" ->
      parse_ipv6_loop f (join_groups post) pre (Some start) = Some ("", pre ++ post, Some start)) as Hpost'.
    { intros f Hf Hne. apply loop_groups; [done| |done]. by intros ->. }
    clearbody pre post. destruct pre as [|x pre'] eqn:Epre.
    + simpl in Hpre. subst start. simpl join_groups. rewrite string_app_nil, body_gap. unfold body_rest.
      rewrite (bool_decide_true (Some O = Some O)) by done. cbn [andb].
      destruct (String.eqb_spec (join_groups post) "") as [He|He].
      * destruct post as [|y post].
        { rewrite Hl. simpl in *. by replace n with 8%nat by lia. }
        destruct (join_groups_head (y :: post)) as (?&?&?&?); [done|done|]. congruence.
      * rewrite Hpost' by (done || lia). rewrite app_nil_l in *. simpl. by rewrite Hexp.
    + rewrite <-Epre in *. assert (pre <> []) as Hne by (by rewrite Epre). clear Epre.
      destruct (join_groups_head pre) as (c & s & Hj & Hc); [done|done|].
      rewrite Hj, string_app_cons, body_plain, <-string_app_cons, <-Hj by done.
      unfold body_rest. simpl bool_decide. cbn [andb].
      rewrite loop_groups_gap by (done || lia). rewrite app_nil_l, Hpre.
      destruct (String.eqb_spec (join_groups post) "") as [He|He].
      * destruct post as [|y post].
        { rewrite app_nil_r in Hexp. simpl. by rewrite Hexp. }
        destruct (join_groups_head (y :: post)) as (?&?&?&?); [done|done|]. congruence.
      * rewrite Hpost' by (done || lia). simpl. by rewrite Hexp.
Qed.

Lemma v6u16_range v i : 0 <= v6u16 v i < 65536.
Proof.
  unfold v6u16. change 65535 with (Z.ones 16). rewrite Z.land_ones by lia.
  apply Z.mod_pos_bound. lia.
Qed.

Lemma groups_of_ok v : groups_ok (groups_of v).
Proof. unfold groups_of, groups_ok. apply Forall_fmap, Forall_true. intros i. apply v6u16_range. Qed.

Lemma groups_join v : 0 <= v < 2 ^ 128 -> join_fields 65536 (groups_of v) = v.
Proof.
  intros Hv. unfold join_fields, groups_of, v6u16. simpl.
  change 65535 with (Z.ones 16). rewrite !Z.land_ones, !Z.shiftr_div_pow2 by lia.
  change (2 ^ 16) with 65536.
  change (112 - 16 * Z.of_nat 0) with 112. change (112 - 16 * Z.of_nat 1) with 96.
  change (112 - 16 * Z.of_nat 2) with 80. change (112 - 16 * Z.of_nat 3) with 64.
  change (112 - 16 * Z.of_nat 4) with 48. change (112 - 16 * Z.of_nat 5) with 32.
  change (112 - 16 * Z.of_nat 6) with 16. change (112 - 16 * Z.of_nat 7) with 0.
  assert (forall k j, 0 <= k -> j = k + 16 ->
    v / 2 ^ j * 65536 + (v / 2 ^ k) mod 65536 = v / 2 ^ k) as Hstep.
  { intros k j Hk ->. rewrite Z.pow_add_r, <-Z.div_div by lia. change (2 ^ 16) with 65536.
    pose proof (Z.div_mod (v / 2 ^ k) 65536 ltac:(lia)). lia. }
  rewrite (Z.mod_small (v / 2 ^ 112)).
  2: { change (2 ^ 128) with (2 ^ 112 * 65536) in Hv.
       split; [apply Z.div_pos; lia|apply Z.div_lt_upper_bound; lia]. }
  rewrite Z.mul_0_l, Z.add_0_l.
  rewrite (Hstep 96 112), (Hstep 80 96), (Hstep 64 80), (Hstep 48 64), (Hstep 32 48),
    (Hstep 16 32), (Hstep 0 16) by done.
  apply Z.div_1_r.
Qed.

(** ** Round trip of IPv6 *)
Lemma join_groups_plain l : groups_ok l -> str_forall plain_byte (join_groups l) = true.
Proof.
  intros Hl. induction Hl as [|x l Hx Hl IH]; [done|].
  destruct (append_hex_text x Hx) as [_ Hb].
  assert (str_forall plain_byte (append_hex x) = true) as Hp.
  { eapply str_forall_impl; [|exact Hb]. intros a Ha. unfold hex_byte in Ha. split_hyps. done. }
  destruct l; [done|]. change (join_groups (x :: z :: l)) with (append_hex x +:+ ":" +:+ join_groups (z :: l)).
  by rewrite !str_forall_app, Hp, IH.
Qed.

Lemma string6_plain v : str_forall plain_byte (string6 v) = true.
Proof.
  unfold string6. pose proof (groups_of_ok v) as Hok. unfold groups_ok in Hok.
  revert Hok. generalize (groups_of v). intros l Hok.
  destruct (longest_zeros _ _ _) as [start n].
  destruct (n =? 0)%nat; [by apply join_groups_plain|].
  rewrite !str_forall_app, !join_groups_plain by (by apply Forall_take || by apply Forall_drop). done.
Qed.

Lemma addr_kind_join l r : groups_ok l -> (2 <= length l)%nat \/ HasPrefix r ":" = true ->
  addr_kind (join_groups l +:+ r) = ":"%char.
Proof.
  intros Hl Hr.
  assert (forall s, HasPrefix s ":" = true -> addr_kind s = ":"%char) as Hcolon.
  { intros [|c s]; [done|]. simpl. destruct (Ascii.eqb_spec c ":") as [->|]; done. }
  destruct l as [|x [|y l]]; simpl in Hr.
  - destruct Hr; [lia|]. simpl. by apply Hcolon.
  - inversion Hl as [|?? Hx]; subst. destruct (append_hex_text x Hx) as [_ Hb]. simpl join_groups.
    destruct Hr; [lia|]. rewrite addr_kind_hex by done. by apply Hcolon.
  - inversion Hl as [|?? Hx]; subst. destruct (append_hex_text x Hx) as [_ Hb].
    change (join_groups (x :: y :: l)) with (append_hex x +:+ ":" +:+ join_groups (y :: l)).
    by rewrite !string_app_assoc, addr_kind_hex.
Qed.

Lemma addr_kind_string6 v : addr_kind (string6 v) = ":"%char.
Proof.
  unfold string6. pose proof (groups_of_ok v) as Hok.
  assert (length (groups_of v) = 8)%nat as Hlen by done. revert Hok Hlen.
  generalize (groups_of v). intros l Hok Hlen.
  destruct (longest_zeros _ _ _) as [start n]. destruct (n =? 0)%nat.
  - rewrite <-(string_app_nil_r (join_groups l)). apply addr_kind_join; [done|left; lia].
  - apply addr_kind_join; [by apply Forall_take|by right].
Qed.

Lemma parse_body_string6 v : 0 <= v < 2 ^ 128 -> parse_ipv6_body (string6 v) = Some v.
Proof.
  intros Hv. unfold string6.
  pose proof (body_string6_groups (groups_of v) (groups_of_ok v) eq_refl) as H.
  destruct (longest_zeros _ _ _) as [start n]. by rewrite H, groups_join.
Qed.

Lemma parse_body_mapped v : 0 <= v < 2 ^ 32 ->
  parse_ipv6_body ("::ffff:" +:+ string4 v) = Some (65535 * 2 ^ 32 + v).
Proof.
  intros Hv. change ("::ffff:" +:+ string4 v) with ("::" +:+ ("ffff:" +:+ string4 v)).
  rewrite body_gap. unfold body_rest. rewrite bool_decide_true by done. cbn [andb String.eqb].
  rewrite string_app_cons. cbn [String.eqb]. rewrite <-string_app_cons.
  pose proof (octet_text_Itoa _ (octet_range v 3)) as Ho.
  destruct (string4 v) as [|c t] eqn:Ht.
  { unfold string4 in Ht. pose proof (ot_nonempty _ _ Ho).
    destruct (Itoa (octet v 3)); [done|by rewrite string_app_cons in Ht]. }
  assert (Ascii.eqb c ":" = false) as Hc.
  { destruct (Ascii.eqb_spec c ":") as [->|]; [|done].
    pose proof (addr_kind_string4 v) as Hk. by rewrite Ht in Hk. }
  change ("ffff:" +:+ String c t) with (append_hex 65535 +:+ ":" +:+ String c t).
  rewrite loop_colon by done. rewrite <-Ht. cbn [parse_ipv6_loop].
  assert (exists n acc r, n <> O /\ parse_hex (string4 v) 0 0 = Some (n, acc, String "." r)) as (n & acc & r & Hn & Hx).
  { unfold string4. rewrite string_app_cons, string_app_nil.
    match goal with |- context [String "." ?r] => destruct (ot_hex _ _ Ho r) as (n & acc & ? & ?) end. eauto. }
  pose proof (parse_string4 v true false Hv) as Hp. pose proof (octets_join v Hv) as Hj.
  clear Ho Ht Hc. rewrite Hx. clear Hx. revert Hp Hj.
  generalize (string4 v), [octet v 3; octet v 2; octet v 1; octet v 0].
  intros s4 l Hp Hj. simpl. destruct n; [done|]. simpl. rewrite Hp. simpl. rewrite Hj.
  unfold join_fields. simpl. f_equal. pose proof (Z.div_mod v 65536 ltac:(lia)). lia.
Qed.

Lemma index_byte_app s c t : str_forall (fun a => negb (Ascii.eqb a c)) s = true ->
  index_byte (s +:+ String c t) c = Some (String.length s).
Proof.
  induction s as [|a s IH]; [simpl; by rewrite Ascii.eqb_refl|]. rewrite string_app_cons. simpl.
  intros [Ha Hs]%andb_true_iff. apply negb_true_iff in Ha. by rewrite Ha, IH.
Qed.

Lemma index_byte_none s c : str_forall (fun a => negb (Ascii.eqb a c)) s = true -> index_byte s c = None.
Proof.
  induction s as [|a s IH]; [done|]. simpl.
  intros [Ha Hs]%andb_true_iff. apply negb_true_iff in Ha. by rewrite Ha, IH.
Qed.

Lemma parse_ipv6_zone s z v : str_forall plain_byte s = true -> parse_ipv6_body s = Some v ->
  parse_ipv6 (with_zone s z) = Some (Addr6 v z).
Proof.
  intros Hs Hv. assert (str_forall (fun a => negb (Ascii.eqb a "%")) s = true) as Hp.
  { eapply str_forall_impl; [|exact Hs]. intros a Ha. unfold plain_byte in Ha. by split_hyps. }
  unfold parse_ipv6, with_zone. destruct (String.eqb_spec z "") as [->|Hz].
  - by rewrite index_byte_none, Hv.
  - rewrite string_app_cons, string_app_nil, index_byte_app by done.
    replace (S (String.length s)) with (String.length s + 1)%nat by lia.
    rewrite str_drop_app, str_take_app, Hv. simpl.
    destruct (String.eqb_spec z ""); [done|]. by destruct z.
Qed.

Lemma addr_kind_app s t : addr_kind s <> " "%char -> addr_kind (s +:+ t) = addr_kind s.
Proof.
  induction s as [|a s IH]; [done|]. rewrite string_app_cons. simpl. by case_match.
Qed.

Lemma ParseAddr_zone s z : addr_kind s = ":"%char ->
  ParseAddr (with_zone s z) = parse_ipv6 (with_zone s z).
Proof.
  intros H. unfold ParseAddr. assert (addr_kind (with_zone s z) = ":"%char) as ->; [|done].
  unfold with_zone. case_match; [done|]. by rewrite addr_kind_app; rewrite H.
Qed.

(** Every address inside its width is read back from its text. *)
Lemma ParseAddr_addr_string a : addr_wf a -> IsValid a = true -> ParseAddr (addr_string a) = Some a.
Proof.
  destruct a as [|v|v z]; [done|intros Hv _; by apply ParseAddr_string4|intros Hv _].
  unfold addr_string. destruct (Is4In6 (Addr6 v z)) eqn:H4.
  - unfold Is4In6 in H4. apply Z.eqb_eq in H4. rewrite Z.shiftr_div_pow2 in H4 by lia.
    change 4294967295 with (Z.ones 32). rewrite Z.land_ones by lia.
    pose proof (Z.mod_pos_bound v (2 ^ 32) ltac:(lia)). pose proof (Z.div_mod v (2 ^ 32) ltac:(lia)) as Hd.
    replace v with (65535 * 2 ^ 32 + v mod 2 ^ 32) at 2 by lia.
    rewrite <-(parse_ipv6_zone ("::ffff:" +:+ string4 (v mod 2 ^ 32)) z).
    + by rewrite ParseAddr_zone.
    + by rewrite str_forall_app, string4_plain.
    + by apply parse_body_mapped.
  - rewrite <-(parse_ipv6_zone (string6 v) z v).
    + by rewrite ParseAddr_zone by apply addr_kind_string6.
    + apply string6_plain.
    + by apply parse_body_string6.
Qed.

(** ** Parsed addresses *)
Lemma addr_string_printable a : IsValid a = true -> Zone a = "" -> str_forall printable (addr_string a) = true.
Proof.
  assert (forall s, str_forall plain_byte s = true -> str_forall printable s = true) as Hp.
  { intros s. apply str_forall_impl. intros c H. unfold plain_byte in H. by split_hyps. }
  destruct a as [|v|v z]; [done|intros _ _; apply Hp, string4_plain|intros _; unfold Zone; intros ->; unfold addr_string].
  unfold with_zone. cbn [String.eqb]. case_match; apply Hp; [by rewrite str_forall_app, string4_plain|apply string6_plain].
Qed.

(** An address without a zone survives being written and read with trimming. *)
Lemma parse_trimmed_addr_string a : addr_wf a -> IsValid a = true -> Zone a = "" ->
  ParseAddr (TrimSpace (addr_string a)) = Some a.
Proof.
  intros. rewrite TrimSpace_printable by by apply addr_string_printable.
  by apply ParseAddr_addr_string.
Qed.

Lemma Forall_snoc {A} (P : A -> Prop) l x : Forall P l -> P x -> Forall P (l ++ [x]).
Proof. intros Hl Hx. apply Forall_app. split; [done|]. by apply Forall_singleton. Qed.

Lemma digit_val_range c d : digit_val c = Some d -> 0 <= d <= 9.
Proof.
  unfold digit_val, byte_in. intros H. case_tests.
  match goal with H : _ && _ = true |- _ => apply andb_true_iff in H as [? ?] end. lia.
Qed.

Lemma hex_val_range c d : hex_val c = Some d -> 0 <= d <= 15.
Proof.
  unfold hex_val, byte_in. intros H. case_tests;
  repeat match goal with H : _ && _ = true |- _ => apply andb_true_iff in H as [? ?] end; lia.
Qed.

Lemma parse_ipv4_fields_range s first pd val n fields l :
  parse_ipv4_fields s first pd val n fields = Some l ->
  0 <= val <= 255 -> Forall (fun x => 0 <= x <= 255) fields -> (length fields <= 3)%nat ->
  Forall (fun x => 0 <= x <= 255) l /\ length l = 4%nat.
Proof.
  revert first pd val n fields. induction s as [|c s IH]; intros first pd val n fields H Hv Hf Hlen;
    cbn [parse_ipv4_fields] in H.
  - destruct (Nat.ltb_spec (length fields) 3); simplify_eq. split.
    + apply Forall_snoc; [done|lia].
    + rewrite length_app. simpl. lia.
  - destruct (digit_val c) as [d|] eqn:Hd.
    + apply digit_val_range in Hd. destruct (_ && _); [done|].
      destruct (Z.ltb_spec 255 (val * 10 + d)); [done|]. eapply IH; [exact H|lia|done|done].
    + destruct (Ascii.eqb c "."); [|done]. destruct (_ || _); [done|].
      destruct (Nat.eqb_spec (length fields) 3); [done|]. eapply IH; [exact H|lia|..].
      * apply Forall_snoc; [done|lia].
      * rewrite length_app. simpl. lia.
Qed.

Lemma join_fields_range base l : 0 < base -> Forall (fun x => 0 <= x < base) l ->
  0 <= join_fields base l < base ^ Z.of_nat (length l).
Proof.
  intros Hb Hl. unfold join_fields.
  assert (forall acc k, 0 <= acc < base ^ Z.of_nat k ->
    0 <= foldl (fun acc x => acc * base + x) acc l < base ^ Z.of_nat (k + length l)) as H.
  { induction Hl as [|x l Hx Hl IH]; intros acc k Hacc; simpl; [by rewrite Nat.add_0_r|].
    replace (k + S (length l))%nat with (S k + length l)%nat by lia. apply IH.
    rewrite Nat2Z.inj_succ, Z.pow_succ_r by lia. nia. }
  apply (H 0 0%nat). simpl. lia.
Qed.

Lemma parse_ipv4_wf s a : parse_ipv4 s = Some a -> addr_wf a /\ IsValid a = true /\ Zone a = "".
Proof.
  unfold parse_ipv4. intros (l & Hl & [= <-])%bind_Some. split; [|done].
  apply parse_ipv4_fields_range in Hl as [Hr Hlen]; [|done|done|simpl; lia].
  unfold addr_wf. change (2 ^ 32) with (256 ^ Z.of_nat 4). rewrite <-Hlen.
  apply join_fields_range; [lia|]. eapply Forall_impl; [exact Hr|]. simpl. lia.
Qed.

Lemma parse_hex_range s n acc n' x r : parse_hex s n acc = Some (n', x, r) ->
  0 <= acc < 16 ^ Z.of_nat n -> (n <= 4)%nat -> 0 <= x < 65536.
Proof.
  revert n acc. induction s as [|c s IH]; intros n acc H Hacc Hn; simpl in H.
  - simplify_eq. assert (16 ^ Z.of_nat n' <= 16 ^ 4) by (apply Z.pow_le_mono_r; lia). lia.
  - destruct (hex_val c) as [d|] eqn:Hd.
    + apply hex_val_range in Hd. destruct n as [|[|[|[|n]]]]; simpl in H; [..|done];
        (eapply IH; [exact H|simpl in *; lia|lia]).
    + simplify_eq. assert (16 ^ Z.of_nat n' <= 16 ^ 4) by (apply Z.pow_le_mono_r; lia). lia.
Qed.

Lemma parse_ipv6_loop_range f s g e r l e' :
  parse_ipv6_loop f s g e = Some (r, l, e') -> groups_ok g -> (length g + f <= 8)%nat ->
  groups_ok l /\ (length l <= 8)%nat.
Proof.
  revert s g e. induction f as [|f IH]; intros s g e H Hg Hlen; cbn [parse_ipv6_loop] in H.
  { simplify_eq. split; [done|lia]. }
  destruct (parse_hex s 0 0) as [[[n x] rest]|] eqn:Hx; [|done]. simpl in H.
  apply parse_hex_range in Hx; [|done|lia].
  destruct (n =? 0)%nat; [done|].
  assert (groups_ok (g ++ [x]) /\ length (g ++ [x]) = S (length g)) as [Hg' Hl'].
  { split; [by apply Forall_snoc|]. rewrite length_app. simpl. lia. }
  destruct rest as [|c rest]; [simplify_eq; split; [done|lia]|].
  destruct (Ascii.eqb c ".").
  - destruct (_ && _); [done|]. destruct (Nat.ltb_spec 6 (length g)); [done|].
    apply bind_Some in H as (fields & Hf & H). simplify_eq.
    apply parse_ipv4_fields_range in Hf as [Hr Hn]; [|done|done|simpl; lia].
    assert (0 <= join_fields 256 fields < 256 ^ Z.of_nat (length fields)).
    { apply join_fields_range; [lia|]. eapply Forall_impl; [exact Hr|]. simpl. lia. }
    rewrite Hn in *. change (256 ^ Z.of_nat 4) with 4294967296 in *.
    split; [|rewrite length_app; simpl; lia].
    change [?x; ?y] with ([x] ++ [y]). rewrite app_assoc.
    apply Forall_snoc; [apply Forall_snoc; [done|]|]; Z.to_euclidean_division_equations; lia.
  - destruct (Ascii.eqb c ":"); [|done]. simpl in H. destruct rest as [|c2 rest]; [done|].
    destruct (Ascii.eqb c2 ":").
    + destruct e; [done|]. destruct rest.
      * simplify_eq. split; [done|lia].
      * apply IH in H; [done|done|lia].
    + apply IH in H; [done|done|lia].
Qed.

Lemma parse_ipv6_body_range s v : parse_ipv6_body s = Some v -> 0 <= v < 2 ^ 128.
Proof.
  unfold parse_ipv6_body. destruct (match s with String ":" (String ":" s') => _ | _ => _ end) as [s' e].
  destruct (_ && _); [by intros [= <-]|].
  intros ([[r l] e'] & Hl & H)%bind_Some. destruct (String.eqb r ""); [|done].
  apply parse_ipv6_loop_range in Hl as [Hok Hlen]; [|by apply Forall_nil|simpl; lia].
  apply bind_Some in H as (g & Hg & [= <-]).
  assert (groups_ok g /\ length g = 8%nat) as [Hg1 Hg2].
  { unfold expand_groups in Hg. destruct (Nat.ltb_spec (length l) 8); destruct e'; simplify_eq.
    - rewrite !length_app, length_replicate, length_take, length_drop. split; [|lia].
      repeat (apply Forall_app; split); [by apply Forall_take|by apply Forall_replicate|by apply Forall_drop].
    - split; [done|lia]. }
  change (2 ^ 128) with (65536 ^ Z.of_nat 8). rewrite <-Hg2. by apply join_fields_range.
Qed.

Lemma index_byte_zone s c i : index_byte s c = Some i -> str_exists (Ascii.eqb c) s = true.
Proof.
  revert i. induction s as [|a s IH]; [done|]. simpl. intros i. rewrite (Ascii.eqb_sym a c).
  destruct (Ascii.eqb c a); [done|]. intros (j & Hj & _)%fmap_Some. by eapply IH.
Qed.

(** A parsed address is inside its width, and it has a zone only if the text
    has a '%'. *)
Lemma ParseAddr_wf s a : ParseAddr s = Some a ->
  addr_wf a /\ IsValid a = true /\ (str_exists (Ascii.eqb "%") s = false -> Zone a = "").
Proof.
  unfold ParseAddr. destruct (Ascii.eqb _ "."); [|destruct (Ascii.eqb _ ":"); [|done]].
  - intros (? & ? & ?)%parse_ipv4_wf. done.
  - unfold parse_ipv6. destruct (index_byte s "%") as [i|] eqn:Hi.
    + destruct (String.eqb _ ""); [done|]. intros (v & Hv & [= <-])%bind_Some.
      apply parse_ipv6_body_range in Hv. apply index_byte_zone in Hi. rewrite Hi. done.
    + intros (v & Hv & [= <-])%bind_Some. by apply parse_ipv6_body_range in Hv.
Qed.

Lemma Unmap_wf a : addr_wf a -> addr_wf (Unmap a).
Proof.
  destruct a as [|v|v z]; [done|done|]. intros Hv. unfold Unmap.
  destruct (Is4In6 _); [|done]. unfold addr_wf. change 4294967295 with (Z.ones 32).
  rewrite Z.land_ones by lia. apply Z.mod_pos_bound. lia.
Qed.

Lemma Unmap_valid a : IsValid (Unmap a) = IsValid a.
Proof. destruct a as [|v|v z]; try done. unfold Unmap. by destruct (Is4In6 _). Qed.

Lemma Unmap_zone a : Zone a = "" -> Zone (Unmap a) = "".
Proof. destruct a as [|v|v z]; try done. unfold Unmap. by destruct (Is4In6 _). Qed.

Lemma Unmap_idemp a : Unmap (Unmap a) = Unmap a.
Proof.
  destruct a as [|v|v z]; try done. unfold Unmap at 2 3. destruct (Is4In6 _) eqn:E; [done|].
  unfold Unmap. by rewrite E.
Qed.

(** ** Addresses as the program compares them

    The clients compare the parsed, trimmed and unmapped form of a text. *)
Definition read_addr (s : string) : option Addr := Unmap <$> ParseAddr (TrimSpace s).

(** A canonical address: valid, inside its width, not IPv4-mapped, zoneless. *)
Definition canonical (a : Addr) : Prop :=
  addr_wf a /\ IsValid a = true /\ Zone a = "" /\ Unmap a = a.

Lemma read_addr_string a : canonical a -> read_addr (addr_string a) = Some a.
Proof.
  intros (H1 & H2 & H3 & H4). unfold read_addr. rewrite parse_trimmed_addr_string by done.
  simpl. by rewrite H4.
Qed.

Lemma canonical_unmap a : addr_wf a -> IsValid a = true -> Zone a = "" -> canonical (Unmap a).
Proof.
  intros. split; [by apply Unmap_wf|]. rewrite Unmap_valid. split; [done|].
  split; [by apply Unmap_zone|apply Unmap_idemp].
Qed.

(** ** [Compare] is a total order *)
Definition addr_le (a b : Addr) : Prop := Compare a b <> Gt.

#[export] Instance addr_le_dec : RelDecision addr_le.
Proof. intros a b. unfold addr_le. apply _. Defined.

Lemma addr_le_spec a b :
  addr_le a b <->
  bit_len a < bit_len b \/ bit_len a = bit_len b /\
    (addr_num a < addr_num b \/ addr_num a = addr_num b /\ str_le (Zone a) (Zone b)).
Proof.
  unfold addr_le, Compare, str_le, String.leb.
  destruct (Z.compare_spec (bit_len a) (bit_len b)); [|naive_solver lia..].
  destruct (Z.compare_spec (addr_num a) (addr_num b)); [|naive_solver lia..].
  destruct (String.compare (Zone a) (Zone b)); naive_solver lia.
Qed.

#[export] Instance addr_le_Total : Total addr_le.
Proof.
  intros a b. rewrite !addr_le_spec.
  destruct (Z.lt_total (bit_len a) (bit_len b)) as [|[]], (Z.lt_total (addr_num a) (addr_num b)) as [|[]],
    (total str_le (Zone a) (Zone b)); naive_solver.
Qed.

#[export] Instance addr_le_Trans : Transitive addr_le.
Proof.
  intros a b c. rewrite !addr_le_spec. intros H1 H2.
  destruct H1 as [H1|(H1&[H1'|[H1' Hz1]])], H2 as [H2|(H2&[H2'|[H2' Hz2]])]; try lia.
  right. split; [lia|]. right. split; [lia|]. by etrans.
Qed.

#[export] Instance addr_le_AntiSymm : AntiSymm (=) addr_le.
Proof.
  intros a b. rewrite !addr_le_spec. intros H1 H2.
  assert (bit_len a = bit_len b /\ addr_num a = addr_num b /\ Zone a = Zone b) as (Hb & Hn & Hz).
  { destruct H1 as [H1|(H1&[H1'|[H1' Hz1]])], H2 as [H2|(H2&[H2'|[H2' Hz2]])]; try lia.
    repeat split; [done..|]. by apply (anti_symm str_le). }
  destruct a, b; simpl in *; congruence.
Qed.
