(* ===== verification/GoTextFacts.v ===== *)
(** * Facts about the text library

    Decimal numbers and the parts of a text: [strconv.Itoa] and [Atoi] are
    inverse, and [strings.Split] gives back what was joined with the
    separator. *)

From stdpp Require Import pretty.
From S2P Require Import Prelude GoStrings GoText NetIPFacts.

#[local] Open Scope Z_scope.

(** ** Decimal numbers *)
Lemma pretty_digits n s : str_forall (byte_in 48 57) s = true -> str_forall (byte_in 48 57) (pretty_N_go n s) = true.
Proof.
  revert s. induction (N.lt_wf_0 n) as [n _ IH]; intros s Hs.
  destruct (decide (0 < n)%N) as [Hn|Hn].
  - rewrite pretty_N_go_step by done. apply IH; [apply N.div_lt; lia|]. cbn [str_forall]. rewrite Hs, andb_true_r.
    assert (n mod 10 < 10)%N as Hm by (by apply N.mod_lt). revert Hm. generalize (n mod 10)%N. clear. intros d Hd.
    assert (d ∈ [0; 1; 2; 3; 4; 5; 6; 7; 8; 9]%N) as H by (rewrite !elem_of_cons; lia).
    rewrite !elem_of_cons, elem_of_nil in H. by destruct_or! H; subst.
  - assert (n = 0%N) as -> by lia. by rewrite pretty_N_go_0.
Qed.

Lemma Itoa_digits z : 0 <= z -> str_forall (byte_in 48 57) (Itoa z) = true.
Proof.
  intros Hz. unfold Itoa. destruct z as [|p|p]; [done| |lia].
  change (pretty (Z.pos p)) with (pretty (N.pos p)). unfold pretty, pretty_N. case_decide; [done|]. by apply pretty_digits.
Qed.

(** The digits of [n] in front of [s] are read as [n] and the rest. *)
Lemma parse_pretty n s : parse_digits 0 (pretty_N_go n s) = parse_digits (Z.of_N n) s.
Proof.
  revert s. induction (N.lt_wf_0 n) as [n _ IH]; intros s. destruct (decide (0 < n)%N) as [Hn|Hn].
  - rewrite pretty_N_go_step by done. rewrite IH by (apply N.div_lt; lia). simpl.
    assert (n mod 10 < 10)%N as Hm by (by apply N.mod_lt).
    replace (Z.of_N n) with (Z.of_N (n / 10) * 10 + Z.of_N (n mod 10)) by (pose proof (N.div_mod n 10); lia).
    revert Hm. generalize (n mod 10)%N. generalize (n / 10)%N. clear. intros q d Hd.
    assert (d ∈ [0; 1; 2; 3; 4; 5; 6; 7; 8; 9]%N) as H by (rewrite !elem_of_cons; lia).
    rewrite !elem_of_cons, elem_of_nil in H. destruct_or! H; subst; simpl; first [f_equal; lia|done].
  - assert (n = 0%N) as -> by lia. by rewrite pretty_N_go_0.
Qed.

Lemma Itoa_pos p : Itoa (Z.pos p) = pretty_N_go (N.pos p) "".
Proof. unfold Itoa. change (pretty (Z.pos p)) with (pretty (N.pos p)). unfold pretty, pretty_N. by case_decide. Qed.

Lemma parse_Itoa z : 0 <= z -> parse_digits 0 (Itoa z) = Some z.
Proof. intros Hz. destruct z as [|p|p]; [done| |lia]. rewrite Itoa_pos. apply parse_pretty. Qed.

Lemma pretty_length (k : nat) n s :
  (n < 10 ^ N.of_nat k)%N -> (String.length (pretty_N_go n s) <= k + String.length s)%nat.
Proof.
  revert n s. induction k as [|k IH]; intros n s Hn.
  - assert (n = 0%N) as -> by (simpl in Hn; lia). by rewrite pretty_N_go_0.
  - destruct (decide (0 < n)%N); [|assert (n = 0%N) as -> by lia; rewrite pretty_N_go_0; lia].
    rewrite pretty_N_go_step by done. etrans; [apply IH|simpl; lia].
    apply N.Div0.div_lt_upper_bound. by rewrite Nat2N.inj_succ, N.pow_succ_r' in Hn.
Qed.

(** An index that fits an [int] has at most nineteen digits. *)
Lemma Itoa_length z : 0 <= z < 2 ^ 63 -> (1 <= String.length (Itoa z) <= 19)%nat.
Proof.
  intros Hz. destruct z as [|p|p]; [simpl; lia| |lia]. split.
  - destruct (Itoa (Z.pos p)) eqn:E; [|simpl; lia]. pose proof (parse_Itoa (Z.pos p) ltac:(lia)) as H. by rewrite E in H.
  - rewrite Itoa_pos. etrans; [apply (pretty_length 19)|simpl; lia]. simpl. lia.
Qed.

Lemma Atoi_Itoa z : 0 <= z < 2 ^ 63 -> Atoi (Itoa z) = Some z.
Proof.
  intros Hz. pose proof (Itoa_digits z ltac:(lia)) as Hd. pose proof (parse_Itoa z ltac:(lia)) as Hp.
  pose proof (Itoa_length z Hz) as Hl. unfold Atoi. destruct (Itoa z) as [|a s]; [simpl in Hl; lia|].
  simpl in Hd. apply andb_true_iff in Hd as [Ha _].
  destruct (Ascii.eqb_spec a "-"); [by subst|]. destruct (Ascii.eqb_spec a "+"); [by subst|]. cbn [String.eqb].
  rewrite Hp. cbn [mbind option_bind]. replace (1 * z) with z by lia. unfold int_range.
  by rewrite (proj2 (Z.leb_le _ _)), (proj2 (Z.ltb_lt _ _)) by lia.
Qed.

(** ** Parts of a text *)
Definition without (c : ascii) (s : string) : bool := str_forall (fun a => negb (Ascii.eqb a c)) s.

Lemma Split_last c s : without c s = true -> Split s c = [s].
Proof.
  induction s as [|a s IH]; [done|]. unfold without. simpl. intros [Ha Hs]%andb_true_iff. apply negb_true_iff in Ha. by rewrite Ha, IH.
Qed.

Lemma Split_cons c s t : without c s = true -> Split (s +:+ String c t) c = s :: Split t c.
Proof.
  induction s as [|a s IH]; [simpl; by rewrite Ascii.eqb_refl|]. unfold without. cbn [str_forall]. intros [Ha Hs]%andb_true_iff.
  apply negb_true_iff in Ha. rewrite string_app_cons. cbn [Split]. by rewrite Ha, IH.
Qed.

Lemma digits_without c z : is_digit c = false -> 0 <= z -> without c (Itoa z) = true.
Proof.
  intros Hc Hz. eapply str_forall_impl; [|by apply Itoa_digits]. intros a Ha. apply negb_true_iff.
  destruct (Ascii.eqb_spec a c) as [->|]; [|done]. unfold is_digit in Hc. congruence.
Qed.
