(* ===== verification/Effects.v ===== *)
(** * Effectful programs

    A Go function that calls other parts of the system is a [prog E A]: a tree
    whose inner nodes are calls [e : E X] and whose branches are the answers
    [x : X] the callee may give.  The code between two calls is a pure
    function, so the tree is the code's control flow over every possible
    answer.  The trees are inductive: a program makes finitely many calls on
    every path, which is its termination.

    Three readings are given.  [run] executes a program against a handler
    (for concrete evaluation); [runs] is the set of its executions in an
    environment [Env]; and [wp] is the weakest precondition used to prove
    properties of all executions.  [crashes] and [iwp] are the same for
    executions that may be cut off at any call. *)

From S2P Require Import Prelude.

Inductive prog (E : Type -> Type) (A : Type) : Type :=
  | Ret (a : A)
  | Vis {X : Type} (e : E X) (k : X -> prog E A).
Arguments Ret {E A} a.
Arguments Vis {E A X} e k.

Fixpoint pbind {E A B} (f : A -> prog E B) (p : prog E A) : prog E B :=
  match p with
  | Ret a => f a
  | Vis e k => Vis e (fun x => pbind f (k x))
  end.

#[export] Instance prog_ret E : MRet (prog E) := @Ret E.
#[export] Instance prog_bind E : MBind (prog E) := fun A B f p => pbind f p.
#[export] Instance prog_fmap E : FMap (prog E) := fun A B f p => pbind (fun a => Ret (f a)) p.

(** One call. *)
Definition call {E X} (e : E X) : prog E X := Vis e Ret.

(** [for _, x := range l { f x }]. *)
Fixpoint for_each {E A} (f : A -> prog E unit) (l : list A) : prog E unit :=
  match l with
  | [] => Ret tt
  | x :: l' => pbind (fun _ => for_each f l') (f x)
  end.

(** The same loop over a variable [acc] that every round may change. *)
Fixpoint fold_each {E A B} (f : B -> A -> prog E B) (l : list A) (acc : B) : prog E B :=
  match l with
  | [] => Ret acc
  | x :: l' => pbind (fold_each f l') (f acc x)
  end.

(** The Go idioms [if err := m; err != nil { return err }] for an [error]
    result, and [x, err := m; if err != nil { return g err }]. *)
Definition or_return {E Er} (m : prog E (option Er)) (k : prog E (option Er)) : prog E (option Er) :=
  pbind (fun r => match r with Some e => Ret (Some e) | None => k end) m.

Notation "m ;;? k" := (or_return m k) (at level 100, k at level 200, right associativity).

(** A pending [defer]: the finaliser runs after the body, whatever it returned. *)
Definition finally {E A} (body : prog E A) (fin : prog E unit) : prog E A :=
  pbind (fun a => pbind (fun _ => Ret a) fin) body.

(** ** Events and executions *)
Record event (E : Type -> Type) : Type := Ev { ev_ans : Type; ev_op : E ev_ans; ev_res : ev_ans }.
Arguments Ev {E ev_ans} ev_op ev_res.
Arguments ev_ans {E} _.
Arguments ev_op {E} _.
Arguments ev_res {E} _.

(** An environment: which answers are possible in a state of the world and
    which state follows. *)
Class Env (E : Type -> Type) (S : Type) : Type :=
  env_step : forall X, E X -> S -> X -> S -> Prop.
Arguments env_step {E S _ X} e s x s'.

(** The environment without memory: every answer is possible. *)
#[export] Instance chaos E : Env E unit | 100 := fun X e _ _ _ => True.

Section Executions.
Context {E : Type -> Type} {S : Type} `{!Env E S}.

Fixpoint runs {A} (p : prog E A) (s : S) (tr : list (event E)) (a : A) (s' : S) : Prop :=
  match p with
  | Ret b => tr = [] /\ a = b /\ s' = s
  | Vis e k => exists x s1 tr',
      tr = Ev e x :: tr' /\ env_step e s x s1 /\ runs (k x) s1 tr' a s'
  end.

(** Every execution of [p] from [s] ends in [Q]. *)
Definition always {A} (p : prog E A) (s : S) (Q : list (event E) -> A -> S -> Prop) : Prop :=
  forall tr a s', runs p s tr a s' -> Q tr a s'.

(** Weakest precondition, with the trace so far as ghost state. *)
Fixpoint wp {A} (p : prog E A) (s : S) (tr : list (event E))
    (Q : A -> S -> list (event E) -> Prop) : Prop :=
  match p with
  | Ret a => Q a s tr
  | Vis e k => forall x s1, env_step e s x s1 -> wp (k x) s1 (tr ++ [Ev e x]) Q
  end.

Lemma wp_runs {A} (p : prog E A) s tr0 Q :
  wp p s tr0 Q -> forall tr a s', runs p s tr a s' -> Q a s' (tr0 ++ tr).
Proof.
  revert s tr0. induction p as [a|X e k IH]; simpl; intros s tr0 H tr a' s'.
  - intros (-> & -> & ->). by rewrite app_nil_r.
  - intros (x & s1 & tr' & -> & Hs & Hr).
    specialize (IH x s1 (tr0 ++ [Ev e x]) (H _ _ Hs) _ _ _ Hr).
    by rewrite <-app_assoc in IH.
Qed.

Lemma wp_always {A} (p : prog E A) s Q :
  wp p s [] (fun a s' tr => Q tr a s') -> always p s Q.
Proof. intros H tr a s' Hr. exact (wp_runs _ _ _ _ H _ _ _ Hr). Qed.

Lemma wp_mono {A} (p : prog E A) s tr (P Q : A -> S -> list (event E) -> Prop) :
  wp p s tr P -> (forall a s' tr', P a s' tr' -> Q a s' tr') -> wp p s tr Q.
Proof.
  intros H HPQ. revert s tr H.
  induction p as [a|X e k IH]; simpl; intros s tr H; [by apply HPQ|eauto].
Qed.

Lemma wp_bind {A B} (f : A -> prog E B) (p : prog E A) s tr Q :
  wp (pbind f p) s tr Q <-> wp p s tr (fun a s' tr' => wp (f a) s' tr' Q).
Proof.
  revert s tr. induction p as [a|X e k IH]; simpl; intros s tr; [done|].
  split; intros H x s1 Hs; [by apply IH, H|by apply IH; apply H].
Qed.

Lemma wp_mbind {A B} (f : A -> prog E B) (p : prog E A) s tr Q :
  wp (p ≫= f) s tr Q <-> wp p s tr (fun a s' tr' => wp (f a) s' tr' Q).
Proof. apply wp_bind. Qed.

Lemma wp_or_return {Er} (m k : prog E (option Er)) s tr Q :
  wp (m ;;? k) s tr Q <->
  wp m s tr (fun r s' tr' => match r with Some e => Q (Some e) s' tr' | None => wp k s' tr' Q end).
Proof.
  unfold or_return. rewrite wp_bind. split; intros H; (eapply wp_mono; [exact H|]).
  - by intros [e|] s' tr' H'.
  - by intros [e|] s' tr' H'.
Qed.

Lemma wp_finally {A} (body : prog E A) fin s tr Q :
  wp (finally body fin) s tr Q <->
  wp body s tr (fun a s' tr' => wp fin s' tr' (fun _ s2 tr2 => Q a s2 tr2)).
Proof.
  unfold finally. rewrite wp_bind. split; intros H; (eapply wp_mono; [exact H|]); simpl.
  - intros a s' tr' H'. by rewrite wp_bind in H'.
  - intros a s' tr' H'. by rewrite wp_bind.
Qed.

Lemma wp_call {X} (e : E X) s tr Q :
  wp (call e) s tr Q <-> forall x s1, env_step e s x s1 -> Q x s1 (tr ++ [Ev e x]).
Proof. done. Qed.

Lemma wp_vis {A X} (e : E X) (k : X -> prog E A) s tr Q :
  wp (Vis e k) s tr Q <-> forall x s1, env_step e s x s1 -> wp (k x) s1 (tr ++ [Ev e x]) Q.
Proof. done. Qed.

Lemma wp_ret {A} (a : A) s tr Q : wp (mret a) s tr Q <-> Q a s tr.
Proof. done. Qed.

Lemma wp_fmap {A B} (f : A -> B) (p : prog E A) s tr Q :
  wp (f <$> p) s tr Q <-> wp p s tr (fun a s' tr' => Q (f a) s' tr').
Proof. apply wp_bind. Qed.

(** The executions of a sequence. *)
Lemma runs_mbind {A B} (f : A -> prog E B) (p : prog E A) s tr b s' :
  runs (p ≫= f) s tr b s' ->
  exists tr1 a s1 tr2, tr = tr1 ++ tr2 /\ runs p s tr1 a s1 /\ runs (f a) s1 tr2 b s'.
Proof.
  revert s tr. induction p as [a|X e k IH]; intros s tr Hr; [by exists [], a, s, tr|].
  destruct Hr as (x & s1 & tr' & -> & He & Hr). apply IH in Hr as (tr1 & a & s2 & tr2 & -> & Hp & Hf).
  exists (Ev e x :: tr1), a, s2, tr2. split; [done|]. split; [by exists x, s1, tr1|done].
Qed.

(** Loop rule: an invariant on the state and the trace. *)
Lemma wp_for_each {A} (f : A -> prog E unit) l (I : S -> list (event E) -> Prop) s tr Q :
  I s tr ->
  (forall x s tr, x ∈ l -> I s tr -> wp (f x) s tr (fun _ s' tr' => I s' tr')) ->
  (forall s' tr', I s' tr' -> Q tt s' tr') ->
  wp (for_each f l) s tr Q.
Proof.
  intros H0 Hf HQ. revert s tr H0 Hf. induction l as [|x l IH]; simpl; intros s tr H0 Hf; [auto|].
  apply wp_bind. eapply wp_mono; [apply Hf; [left|done]|].
  intros [] s' tr' H'. apply IH; [done|]. intros. apply Hf; [by right|done].
Qed.

Lemma wp_fold_each {A B} (f : B -> A -> prog E B) l acc (I : B -> S -> list (event E) -> Prop) s tr Q :
  I acc s tr ->
  (forall acc x s tr, x ∈ l -> I acc s tr -> wp (f acc x) s tr I) ->
  (forall acc s' tr', I acc s' tr' -> Q acc s' tr') ->
  wp (fold_each f l acc) s tr Q.
Proof.
  intros H0 Hf HQ. revert acc s tr H0 Hf. induction l as [|x l IH]; simpl; intros acc s tr H0 Hf; [by apply HQ|].
  apply wp_bind. eapply wp_mono; [apply Hf; [left|done]|].
  intros acc' s' tr' H'. apply IH; [done|]. intros. apply Hf; [by right|done].
Qed.

(** Two facts about all executions can be proved apart. *)
Lemma wp_conj {A} (p : prog E A) s tr (P Q : A -> S -> list (event E) -> Prop) :
  wp p s tr P -> wp p s tr Q -> wp p s tr (fun a s' tr' => P a s' tr' /\ Q a s' tr').
Proof. revert s tr. induction p; simpl; intros; eauto. Qed.

(** ** Concrete execution *)
Definition handler : Type := forall X, E X -> S -> X * S.

Fixpoint run {A} (h : handler) (p : prog E A) (s : S) : list (event E) * A * S :=
  match p with
  | Ret a => ([], a, s)
  | Vis e k =>
    let '(x, s1) := h _ e s in
    let '(tr, a, s') := run h (k x) s1 in (Ev e x :: tr, a, s')
  end.

(** A handler that respects the environment produces one of its executions. *)
Lemma run_runs {A} (h : handler) (p : prog E A) s :
  (forall X (e : E X) s, env_step e s (fst (h X e s)) (snd (h X e s))) ->
  let '(tr, a, s') := run h p s in runs p s tr a s'.
Proof.
  intros Hh. revert s. induction p as [a|X e k IH]; simpl; intros s; [done|].
  specialize (Hh X e s). destruct (h X e s) as [x s1]; simpl in *.
  specialize (IH x s1). destruct (run h (k x) s1) as [[tr a] s'].
  exists x, s1, tr. done.
Qed.
(** ** Interrupted executions

    The process may be killed before any call: [crashes p s s'] says that [s']
    is a state it can leave behind (a run to the end included), and [iwp I]
    is the weakest precondition that also keeps [I] in every state on the way. *)
Fixpoint crashes {A} (p : prog E A) (s s' : S) : Prop :=
  s' = s \/
  match p with
  | Ret _ => False
  | Vis e k => exists x s1, env_step e s x s1 /\ crashes (k x) s1 s'
  end.

Fixpoint iwp (I : S -> Prop) {A} (p : prog E A) (s : S) (Q : A -> S -> Prop) : Prop :=
  match p with
  | Ret a => Q a s
  | Vis e k => forall x s1, env_step e s x s1 -> I s1 /\ iwp I (k x) s1 Q
  end.

Lemma iwp_crashes I {A} (p : prog E A) s Q : I s -> iwp I p s Q -> forall s', crashes p s s' -> I s'.
Proof.
  revert s. induction p as [a|X e k IH]; intros s Hs Hp s'; [by intros [->|[]]|].
  intros [->|(x & s1 & He & Hc)]; [done|]. destruct (Hp x s1 He) as [H1 Hk]. by eapply IH.
Qed.

Lemma iwp_runs I {A} (p : prog E A) s Q : iwp I p s Q -> forall tr a s', runs p s tr a s' -> Q a s'.
Proof.
  revert s. induction p as [a|X e k IH]; simpl; intros s Hp tr b s'; [by intros (_ & -> & ->)|].
  intros (x & s1 & tr' & _ & He & Hr). destruct (Hp x s1 He) as [_ Hk]. by eapply IH.
Qed.

Lemma runs_crashes {A} (p : prog E A) s tr a s' : runs p s tr a s' -> crashes p s s'.
Proof.
  revert s tr. induction p as [b|X e k IH]; simpl; intros s tr; [by intros (_ & _ & ->); left|].
  intros (x & s1 & tr' & _ & He & Hr). right. exists x, s1. eauto.
Qed.

Lemma iwp_mono I {A} (p : prog E A) s (P Q : A -> S -> Prop) :
  iwp I p s P -> (forall a s', P a s' -> Q a s') -> iwp I p s Q.
Proof.
  intros Hp HPQ. revert s Hp. induction p as [a|X e k IH]; simpl; intros s Hp; [auto|].
  intros x s1 He. destruct (Hp x s1 He). auto.
Qed.

Lemma iwp_weaken (I J : S -> Prop) {A} (p : prog E A) s Q : (forall s, J s -> I s) -> iwp J p s Q -> iwp I p s Q.
Proof.
  intros H. revert s. induction p as [x|X e k IH]; intros s Hp; [done|]. intros x s1 He.
  destruct (Hp x s1 He) as [H1 H2]. split; [by apply H|by apply IH].
Qed.

(** The invariant holds at the end too. *)
Lemma iwp_inv I {A} (p : prog E A) s Q : I s -> iwp I p s Q -> iwp I p s (fun a s' => I s' /\ Q a s').
Proof.
  revert s. induction p as [a|X e k IH]; intros s Hs Hp; [by split|]. intros x s1 He.
  destruct (Hp x s1 He) as [H1 H2]. split; [done|]. by apply IH.
Qed.

Lemma iwp_bind I {A B} (f : A -> prog E B) (p : prog E A) s Q :
  iwp I (pbind f p) s Q <-> iwp I p s (fun a s' => iwp I (f a) s' Q).
Proof.
  revert s. induction p as [a|X e k IH]; simpl; intros s; [done|].
  split; intros H x s1 He; (destruct (H x s1 He) as [H1 H2]; split; [done|by apply IH]).
Qed.

Lemma iwp_mbind I {A B} (f : A -> prog E B) (p : prog E A) s Q :
  iwp I (p ≫= f) s Q <-> iwp I p s (fun a s' => iwp I (f a) s' Q).
Proof. apply iwp_bind. Qed.

Lemma iwp_call I {X} (e : E X) s Q :
  iwp I (call e) s Q <-> forall x s1, env_step e s x s1 -> I s1 /\ Q x s1.
Proof. done. Qed.

Lemma iwp_ret I {A} (a : A) s Q : iwp I (mret a) s Q <-> Q a s.
Proof. done. Qed.

Lemma iwp_or_return I {Er} (m k : prog E (option Er)) s Q :
  iwp I (m ;;? k) s Q <->
  iwp I m s (fun r s' => match r with Some e => Q (Some e) s' | None => iwp I k s' Q end).
Proof.
  unfold or_return. rewrite iwp_bind. split; intros H; (eapply iwp_mono; [exact H|]).
  - by intros [e|] s' H'.
  - by intros [e|] s' H'.
Qed.
End Executions.

Arguments handler E S : clear implicits.
Arguments wp : simpl never.
Arguments iwp : simpl never.
Arguments crashes : simpl never.
Arguments pbind : simpl never.
Arguments finally : simpl never.
Arguments or_return : simpl never.

(** ** Which calls a program can make *)
Section Calls.
Context {E : Type -> Type}.
Implicit Types (P : forall X, E X -> bool).

(** Every call of the program, on every path, satisfies [P]. *)
Fixpoint calls_only P {A} (p : prog E A) : Prop :=
  match p with
  | Ret _ => True
  | Vis e k => P _ e = true /\ forall x, calls_only P (k x)
  end.

Lemma calls_only_bind P {A B} (f : A -> prog E B) p :
  calls_only P p -> (forall a, calls_only P (f a)) -> calls_only P (pbind f p).
Proof.
  intros Hp Hf. induction p as [a|X e k IH]; [apply Hf|]. destruct Hp as [He Hk]. split; [done|].
  intros x. apply IH, Hk.
Qed.

Lemma calls_only_mbind P {A B} (f : A -> prog E B) p :
  calls_only P p -> (forall a, calls_only P (f a)) -> calls_only P (p ≫= f).
Proof. apply calls_only_bind. Qed.

Lemma calls_only_fmap P {A B} (f : A -> B) p : calls_only P p -> calls_only P (f <$> p).
Proof. intros Hp. by apply calls_only_bind. Qed.

Lemma calls_only_call P {X} (e : E X) : P _ e = true -> calls_only P (call e).
Proof. done. Qed.

Lemma calls_only_vis P {A X} (e : E X) (k : X -> prog E A) :
  P _ e = true -> (forall x, calls_only P (k x)) -> calls_only P (Vis e k).
Proof. done. Qed.

Lemma calls_only_ret P {A} (a : A) : calls_only P (mret a : prog E A).
Proof. done. Qed.

Lemma calls_only_finally P {A} (p : prog E A) fin :
  calls_only P p -> calls_only P fin -> calls_only P (finally p fin).
Proof. intros Hp Hf. apply calls_only_bind; [done|]. intros a. by apply calls_only_bind. Qed.

Lemma calls_only_or_return P {Er} (m k : prog E (option Er)) :
  calls_only P m -> calls_only P k -> calls_only P (m ;;? k).
Proof. intros Hm Hk. apply calls_only_bind; [done|]. by intros [e|]. Qed.

Lemma calls_only_for_each P {A} (f : A -> prog E unit) l :
  (forall x, calls_only P (f x)) -> calls_only P (for_each f l).
Proof. intros Hf. induction l as [|x l IH]; [done|]. by apply calls_only_bind. Qed.

Lemma calls_only_fold_each P {A B} (f : B -> A -> prog E B) l acc :
  (forall acc x, calls_only P (f acc x)) -> calls_only P (fold_each f l acc).
Proof. intros Hf. revert acc. induction l as [|x l IH]; intros acc; [done|]. by apply calls_only_bind. Qed.

Lemma calls_only_impl P P' {A} (p : prog E A) :
  (forall X (e : E X), P X e = true -> P' X e = true) -> calls_only P p -> calls_only P' p.
Proof.
  intros H. induction p as [a|X e k IH]; [done|]. intros [He Hk]. split; [by apply H|].
  intros x. apply IH, Hk.
Qed.

(** An invariant of the state and the trace that every allowed call keeps. *)
Lemma wp_calls_inv {S} `{!Env E S} P {A} (p : prog E A) (I : S -> list (event E) -> Prop) s tr :
  calls_only P p ->
  (forall X (e : E X) s x s' tr, P _ e = true -> env_step e s x s' -> I s tr -> I s' (tr ++ [Ev e x])) ->
  I s tr -> wp p s tr (fun _ s' tr' => I s' tr').
Proof.
  intros Hp Hev. revert s tr. induction p as [a|X e k IH]; intros s tr Htr; [done|].
  destruct Hp as [He Hk]. intros x s1 Hs. apply IH; [done|]. by eapply Hev.
Qed.

(** The same for the states an interrupted execution leaves. *)
Lemma crashes_calls_inv {S} `{!Env E S} P {A} (p : prog E A) (I : S -> Prop) s s' :
  calls_only P p -> (forall X (e : E X) s x s', P _ e = true -> env_step e s x s' -> I s -> I s') ->
  I s -> crashes p s s' -> I s'.
Proof.
  intros Hp Hev. revert s. induction p as [a|X e k IH]; intros s Hs; [by intros [->|[]]|].
  destruct Hp as [He Hk]. intros [->|(x & s1 & H1 & Hc)]; [done|]. eapply IH; [apply Hk| |exact Hc]. by eapply Hev.
Qed.

(** A property of the trace that every allowed event keeps is kept. *)
Lemma wp_calls_only {S} `{!Env E S} P {A} (p : prog E A) (I : list (event E) -> Prop) s tr :
  calls_only P p ->
  (forall tr ev, P _ (ev_op ev) = true -> I tr -> I (tr ++ [ev])) ->
  I tr -> wp p s tr (fun _ _ tr' => I tr').
Proof.
  intros Hp Hev Htr. apply (wp_calls_inv P p (fun _ tr => I tr)); [done| |done].
  intros X e s0 x s' tr' He _. by apply (Hev tr' (Ev e x)).
Qed.

(** Every event of an execution is an allowed call. *)
Lemma calls_only_always {S} `{!Env E S} P {A} (p : prog E A) s :
  calls_only P p -> always p s (fun tr _ _ => forall ev, ev ∈ tr -> P _ (ev_op ev) = true).
Proof.
  intros Hp. apply wp_always. eapply (wp_calls_only P p (fun tr => forall ev, ev ∈ tr -> P _ (ev_op ev) = true)); [done| |].
  - intros tr ev He H ev' [Hin| ->%list_elem_of_singleton]%elem_of_app; auto.
  - intros ev Hin. by apply not_elem_of_nil in Hin.
Qed.
End Calls.

(** ** Interpretation

    The calls of one effect answered by programs of another. *)
Fixpoint interp {E F A} (h : forall X, E X -> prog F X) (p : prog E A) : prog F A :=
  match p with
  | Ret a => Ret a
  | Vis e k => pbind (fun x => interp h (k x)) (h _ e)
  end.

Lemma calls_only_interp {E F} (P : forall X, E X -> bool) (P' : forall X, F X -> bool) (h : forall X, E X -> prog F X) {A} (p : prog E A) :
  (forall X (e : E X), P X e = true -> calls_only P' (h X e)) -> calls_only P p -> calls_only P' (interp h p).
Proof.
  intros Hh. induction p as [b|X e k IH]; [done|]. intros [He Hk]. cbn [interp].
  apply calls_only_bind; [by apply Hh|]. intros x. apply IH, Hk.
Qed.

Lemma calls_only_interp_all {E F} (P' : forall X, F X -> bool) (h : forall X, E X -> prog F X) {A} (p : prog E A) :
  (forall X (e : E X), calls_only P' (h X e)) -> calls_only P' (interp h p).
Proof. intros Hh. induction p as [b|X e k IH]; [done|]. cbn [interp]. by apply calls_only_bind. Qed.

(** What the calls of the program are proved from, the answering programs
    provide. *)
Lemma iwp_interp {E F S} `{!Env E S, !Env F S} (I : S -> Prop) (h : forall X, E X -> prog F X) {A} (p : prog E A) s Q :
  (forall X (e : E X) s (R : X -> S -> Prop), I s ->
     (forall x s', env_step e s x s' -> I s' /\ R x s') -> iwp I (h X e) s R) ->
  I s -> iwp I p s Q -> iwp I (interp h p) s Q.
Proof.
  intros Hh. revert s. induction p as [a|X e k IH]; intros s Hs Hp; [done|]. cbn [interp]. apply iwp_bind.
  apply Hh; [done|]. intros x s1 He. destruct (Hp x s1 He) as [H1 H2]. split; [done|]. by apply IH.
Qed.

(** A program whose calls all keep the invariant keeps it. *)
Lemma iwp_calls_inv {E S} `{!Env E S} P (I : S -> Prop) {A} (p : prog E A) s :
  calls_only P p -> (forall X (e : E X) s x s', P _ e = true -> env_step e s x s' -> I s -> I s') ->
  I s -> iwp I p s (fun _ s' => I s').
Proof.
  intros Hp Hev. revert s. induction p as [a|X e k IH]; intros s Hs; [done|]. destruct Hp as [He Hk].
  intros x s1 H1. assert (I s1) by by eapply Hev. split; [done|]. by apply IH.
Qed.

Arguments calls_only : simpl never.

(** Decides [calls_only] for a concrete program: one construct at a time; the
    given tactic handles the calls of named sub-programs. *)
Ltac calls_step :=
  lazymatch goal with
  | |- calls_only _ (or_return _ _) => apply calls_only_or_return
  | |- calls_only _ (finally _ _) => apply calls_only_finally
  | |- calls_only _ (mbind _ _) => apply calls_only_mbind; [|intros]
  | |- calls_only _ (fmap _ _) => apply calls_only_fmap
  | |- calls_only _ (for_each _ _) => apply calls_only_for_each; intros
  | |- calls_only _ (fold_each _ _ _) => apply calls_only_fold_each; intros
  | |- calls_only _ (call _) => apply calls_only_call; reflexivity
  | |- calls_only _ (Vis _ _) => apply calls_only_vis; [reflexivity|intros]
  | |- calls_only _ (mret _) => apply calls_only_ret
  | |- calls_only _ (match ?x with _ => _ end) => destruct x
  end.

(** ** Trace properties *)
Section Traces.
Context {E : Type -> Type}.
Implicit Types (tr : list (event E)) (P C : event E -> bool).

(** Every event of kind [C] comes after an event of kind [P]. *)
Definition guarded P C tr : Prop :=
  forall tr1 ev tr2, tr = tr1 ++ ev :: tr2 -> C ev = true -> existsb P tr1 = true.

Definition occurs P tr : bool := existsb P tr.
Definition count P tr : nat := length (List.filter P tr).

Lemma guarded_nil P C : guarded P C [].
Proof. intros tr1 ev tr2 H. by destruct tr1. Qed.

Lemma guarded_snoc P C tr ev :
  guarded P C (tr ++ [ev]) <->
  guarded P C tr /\ (C ev = true -> existsb P tr = true).
Proof.
  split.
  - intros H. split.
    + intros tr1 e tr2 -> HC. apply (H tr1 e (tr2 ++ [ev])); [|done].
      by rewrite <-app_assoc.
    + intros HC. by apply (H tr ev []).
  - intros [H1 H2] tr1 e tr2 Heq HC.
    destruct (decide (tr2 = [])) as [->|Hne].
    + apply app_inj_tail in Heq as [-> ->]. auto.
    + destruct (exists_last Hne) as (tr3 & e' & ->).
      replace (tr1 ++ e :: tr3 ++ [e']) with ((tr1 ++ e :: tr3) ++ [e']) in Heq
        by by rewrite <-app_assoc.
      apply app_inj_tail in Heq as [-> _]. by apply (H1 tr1 e tr3).
Qed.

(** Every event satisfies a rule about its past. *)
Definition every (R : list (event E) -> event E -> Prop) tr : Prop :=
  forall past ev future, tr = past ++ ev :: future -> R past ev.

Lemma every_nil R : every R [].
Proof. intros past ev future H. by destruct past. Qed.

Lemma every_snoc R tr ev : every R tr -> R tr ev -> every R (tr ++ [ev]).
Proof.
  intros H1 H2 past ev' future Heq. destruct (decide (future = [])) as [->|Hne].
  - apply app_inj_tail in Heq as [-> ->]. done.
  - destruct (exists_last Hne) as (future' & ev2 & ->).
    replace (past ++ ev' :: future' ++ [ev2]) with ((past ++ ev' :: future') ++ [ev2]) in Heq
      by by rewrite <-app_assoc.
    apply app_inj_tail in Heq as [-> _]. by eapply H1.
Qed.

Lemma every_impl (R R' : list (event E) -> event E -> Prop) tr :
  (forall past ev, R past ev -> R' past ev) -> every R tr -> every R' tr.
Proof. intros H He past ev future ->. by eapply H, He. Qed.

Lemma occurs_snoc P tr ev : occurs P (tr ++ [ev]) = occurs P tr || P ev.
Proof. unfold occurs. rewrite existsb_app. simpl. by rewrite orb_false_r. Qed.

Lemma count_snoc P tr ev :
  count P (tr ++ [ev]) = (count P tr + if P ev then 1 else 0)%nat.
Proof.
  unfold count. rewrite List.filter_app, length_app. simpl. by destruct (P ev).
Qed.

Lemma guarded_occurs P C tr : guarded P C tr -> occurs C tr = true -> occurs P tr = true.
Proof.
  intros H HC. apply existsb_elem_of in HC as (ev & Hin & HC).
  apply list_elem_of_split in Hin as (tr1 & tr2 & ->).
  unfold occurs. rewrite existsb_app. by rewrite (H tr1 ev tr2).
Qed.
End Traces.

#[export] Hint Resolve guarded_nil : s2p.
#[export] Hint Rewrite @guarded_snoc @occurs_snoc @count_snoc : s2p.

(** ** Growing traces *)
Section Growth.
Context {E : Type -> Type}.
Implicit Types (tr : list (event E)).

Definition grows tr tr' : Prop := exists t, tr' = tr ++ t.

#[export] Instance grows_preorder : PreOrder grows.
Proof.
  split.
  - intros tr. exists []. by rewrite app_nil_r.
  - intros tr1 tr2 tr3 [t ->] [t' ->]. exists (t ++ t'). by rewrite app_assoc.
Qed.

Lemma grows_app tr t : grows tr (tr ++ t).
Proof. by exists t. Qed.

Lemma grows_elem tr tr' ev : grows tr tr' -> ev ∈ tr -> ev ∈ tr'.
Proof. intros [t ->] H. apply elem_of_app. by left. Qed.

Lemma elem_snoc tr ev : ev ∈ tr ++ [ev].
Proof. apply elem_of_app. right. by left. Qed.

(** The events of a program are added to the trace. *)
Lemma wp_grows {S} `{!Env E S} {A} (p : prog E A) s tr : wp p s tr (fun _ _ tr' => grows tr tr').
Proof.
  apply (wp_mono _ _ _ (fun _ _ tr' => grows tr tr')); [|done].
  assert (forall tr0, grows tr tr0 -> wp p s tr0 (fun _ _ tr' => grows tr tr')) as H; [|by apply H].
  revert s. induction p as [a|X e k IH]; intros s tr0 H; [done|]. intros x s1 Hs. apply IH. etrans; [exact H|apply grows_app].
Qed.

(** A rule about the past that every call of a program keeps holds of the
    longer trace. *)
Definition keeps (R : list (event E) -> event E -> Prop) tr tr' : Prop := every R tr' /\ grows tr tr'.

Lemma keeps_trans R tr tr1 tr2 : grows tr tr1 -> keeps R tr1 tr2 -> keeps R tr tr2.
Proof. intros H [H1 H2]. split; [done|by etrans]. Qed.

Lemma keeps_snoc R tr ev : every R tr -> R tr ev -> keeps R tr (tr ++ [ev]).
Proof. intros H1 H2. split; [by apply every_snoc|apply grows_app]. Qed.

(** The same where the rule holds of the allowed calls after [tr]. *)
Lemma wp_every {S} `{!Env E S} P {A} (p : prog E A) (R : list (event E) -> event E -> Prop) s tr :
  calls_only P p -> (forall t ev, grows tr t -> P _ (ev_op ev) = true -> R t ev) -> every R tr ->
  wp p s tr (fun _ _ tr' => every R tr').
Proof.
  intros Hp HR H. eapply wp_mono.
  - apply (wp_calls_only P p (fun t => every R t /\ grows tr t)); [done| |by split].
    intros t ev He [H1 H2]. split; [|by etrans; [|apply grows_app]]. apply every_snoc; [done|by apply HR].
  - by intros ? ? t [H1 _].
Qed.

Lemma wp_keeps {S} `{!Env E S} P {A} (p : prog E A) (R : list (event E) -> event E -> Prop) s tr :
  calls_only P p -> (forall tr ev, P _ (ev_op ev) = true -> R tr ev) -> every R tr ->
  wp p s tr (fun _ _ tr' => keeps R tr tr').
Proof.
  intros Hp HR H. apply wp_conj; [|apply wp_grows]. apply (wp_calls_only P p (every R)); [done| |done].
  intros. by apply every_snoc; [|apply HR].
Qed.
End Growth.

#[export] Hint Resolve grows_app elem_snoc : s2p.

(** Chains the growths of the context. *)
Ltac in_growth :=
  first
  [ assumption
  | reflexivity
  | apply grows_app
  | match goal with Hg : grows ?b ?c |- grows ?a ?c => transitivity b; [solve [in_growth]|exact Hg] end
  | match goal with |- grows ?a (?b ++ _) => transitivity b; [solve [in_growth]|apply grows_app] end ].

(** Finds an event of a trace in the traces it grew from. *)
Ltac in_past :=
  match goal with
  | |- _ ∈ _ => first
      [ assumption
      | apply elem_snoc
      | match goal with Hg : grows ?t ?t' |- _ ∈ ?t' => apply (grows_elem t t' _ Hg); solve [in_past] end
      | (apply elem_of_app; left); solve [in_past] ]
  end.

(** ** Symbolic execution

    [wp_step] takes one construct of the program apart, calls excepted;
    [wp_answer x H] passes a call, naming the answer and the environment's step. *)
Ltac wp_step :=
  lazymatch goal with
  | |- wp (or_return _ _) _ _ _ => apply <- @wp_or_return
  | |- wp (finally _ _) _ _ _ => apply <- @wp_finally
  | |- wp (mbind _ _) _ _ _ => apply <- @wp_mbind
  | |- wp (fmap _ _) _ _ _ => apply <- @wp_fmap
  | |- wp (pbind _ _) _ _ _ => apply <- @wp_bind
  | |- wp (mret _) _ _ _ => apply <- @wp_ret
  | |- wp (Ret _) _ _ _ => apply <- @wp_ret
  end.

Ltac wp_steps := repeat (wp_step; cbv beta).

(** The same for interrupted executions. *)
Ltac iwp_step :=
  lazymatch goal with
  | |- iwp _ (or_return _ _) _ _ => apply <- @iwp_or_return
  | |- iwp _ (mbind _ _) _ _ => apply <- @iwp_mbind
  | |- iwp _ (pbind _ _) _ _ => apply <- @iwp_bind
  | |- iwp _ (mret _) _ _ => apply <- @iwp_ret
  | |- iwp _ (Ret _) _ _ => apply <- @iwp_ret
  end.

Ltac iwp_steps := repeat (iwp_step; cbv beta).

Tactic Notation "wp_answer" ident(x) ident(s) ident(H) :=
  wp_steps; first [apply <- @wp_call | apply <- @wp_vis]; intros x s H; cbv beta.

(** The next event of a given execution, in the environment without memory. *)
Ltac one_event := hnf; eexists; exists tt; eexists; split; [reflexivity|]; split; [exact I|].
