(* ===== verification/Threads.v ===== *)
(** * Concurrent programs

    Goroutines that share a state: a pool of programs, each of which makes its
    next call atomically, in any order.  A call can start further goroutines,
    and new ones arrive from outside (updates, timers).  A goroutine acts for
    a principal.

    Programs are verified one at a time against a [Contract]: what a principal
    may call, and what it may rely on in the answer, whatever the others do
    between its calls.  [Implements] says that the atomic calls keep an
    invariant of the shared state and give the promised answers; under it
    [pool_adequate] carries the contracts to every interleaving. *)

From S2P Require Import Prelude Effects.

Class Contract (E : Type -> Type) (P : Type) : Type := {
  may_call : P -> forall X, E X -> Prop;
  promised : P -> forall X, E X -> X -> Prop
}.

Section Safe.
Context {E : Type -> Type} {P : Type} `{!Contract E P}.

(** The program keeps the contract of [u] and ends in [Q]. *)
Fixpoint safe (u : P) {A} (p : prog E A) (Q : A -> Prop) : Prop :=
  match p with
  | Ret a => Q a
  | Vis e k => may_call u _ e /\ forall x, promised u _ e x -> safe u (k x) Q
  end.

Lemma safe_mono u {A} (p : prog E A) (Q Q' : A -> Prop) : safe u p Q -> (forall a, Q a -> Q' a) -> safe u p Q'.
Proof. intros H HQ. induction p as [a|X e k IH]; simpl in *; [auto|]. destruct H as [He Hk]. split; auto. Qed.

Lemma safe_bind u {A B} (f : A -> prog E B) (p : prog E A) Q :
  safe u p (fun a => safe u (f a) Q) -> safe u (pbind f p) Q.
Proof. induction p as [a|X e k IH]; simpl; [done|]. intros [He Hk]. split; auto. Qed.

Lemma safe_mbind u {A B} (f : A -> prog E B) (p : prog E A) Q :
  safe u p (fun a => safe u (f a) Q) -> safe u (p ≫= f) Q.
Proof. apply safe_bind. Qed.

(** Sequencing after a program with a stated result. *)
Lemma safe_seq u {A B} (f : A -> prog E B) (p : prog E A) R Q :
  safe u p R -> (forall a, R a -> safe u (f a) Q) -> safe u (p ≫= f) Q.
Proof. intros Hp Hf. apply safe_mbind. by eapply safe_mono. Qed.

Lemma safe_fmap u {A B} (f : A -> B) (p : prog E A) Q : safe u p (fun a => Q (f a)) -> safe u (f <$> p) Q.
Proof. apply (safe_bind u (fun a => Ret (f a))). Qed.

Lemma safe_call u {X} (e : E X) (Q : X -> Prop) :
  may_call u _ e -> (forall x, promised u _ e x -> Q x) -> safe u (call e) Q.
Proof. done. Qed.

Lemma safe_call_seq u {X B} (e : E X) (f : X -> prog E B) Q :
  may_call u _ e -> (forall x, promised u _ e x -> safe u (f x) Q) -> safe u (call e ≫= f) Q.
Proof. intros H Hf. apply safe_mbind. by split. Qed.

Lemma safe_ret_seq u {A B} (a : A) (f : A -> prog E B) Q : safe u (f a) Q -> safe u (mret a ≫= f) Q.
Proof. done. Qed.

Lemma safe_finally u {A} (p : prog E A) fin Q :
  safe u fin (fun _ => True) -> safe u p Q -> safe u (finally p fin) Q.
Proof.
  intros Hf Hp. apply safe_bind. eapply safe_mono; [exact Hp|]. intros a Ha. apply safe_bind.
  by eapply safe_mono.
Qed.

Lemma safe_for_each u {A} (f : A -> prog E unit) l (Q : unit -> Prop) :
  (forall x, x ∈ l -> safe u (f x) (fun _ => True)) -> Q tt -> safe u (for_each f l) Q.
Proof.
  intros Hf HQ. induction l as [|x l IH]; [done|]. apply safe_bind. eapply safe_mono; [apply Hf; left|].
  intros [] _. apply IH. intros y Hy. apply Hf. by right.
Qed.

Lemma safe_fold_each u {A B} (f : B -> A -> prog E B) l acc (I : B -> Prop) (Q : B -> Prop) :
  I acc -> (forall acc x, I acc -> safe u (f acc x) I) -> (forall acc, I acc -> Q acc) -> safe u (fold_each f l acc) Q.
Proof.
  intros HI Hf HQ. revert acc HI. induction l as [|x l IH]; intros acc HI; [by apply HQ|]. apply safe_bind.
  eapply safe_mono; [by apply Hf|]. auto.
Qed.
End Safe.

Arguments safe : simpl never.

(** ** Interleavings *)
Section Pool.
Context {E : Type -> Type} {S P : Type}.
Context (exec : forall X, E X -> S -> X -> S -> Prop).
(** The goroutines a call starts, and those that can arrive, with their
    principals. *)
Context (spawn : P -> forall X, E X -> list (P * prog E unit)) (arrives : P -> prog E unit -> Prop).

Definition pool : Type := list (P * prog E unit).

Inductive pool_step : pool * S -> option (event E) -> pool * S -> Prop :=
  | pool_call t1 t2 u X (e : E X) k s x s' :
      exec X e s x s' ->
      pool_step (t1 ++ (u, Vis e k) :: t2, s) (Some (Ev e x)) (t1 ++ (u, k x) :: t2 ++ spawn u X e, s')
  | pool_arrive ts u p s : arrives u p -> pool_step (ts, s) None (ts ++ [(u, p)], s).

(** A run with the events in the order they happen. *)
Inductive pool_run : pool * S -> list (event E) -> pool * S -> Prop :=
  | pool_done c : pool_run c [] c
  | pool_more c1 ev c2 tr c3 : pool_run c1 tr c2 -> pool_step c2 ev c3 -> pool_run c1 (tr ++ option_list ev) c3.

Class Implements `{!Contract E P} (I : S -> Prop) : Prop := {
  impl_inv u X (e : E X) s x s' : may_call u X e -> I s -> exec X e s x s' -> I s';
  impl_promised u X (e : E X) s x s' : may_call u X e -> I s -> exec X e s x s' -> promised u X e x;
  impl_spawn u X (e : E X) u' p : may_call u X e -> (u', p) ∈ spawn u X e -> safe u' p (fun _ => True);
  impl_arrives u p : arrives u p -> safe u p (fun _ => True)
}.

Context {contract : Contract E P} (I : S -> Prop) `{!Implements I}.

Definition pool_ok (c : pool * S) : Prop := I (snd c) /\ Forall (fun t => safe (fst t) (snd t) (fun _ => True)) (fst c).

Lemma pool_step_ok c ev c' : pool_ok c -> pool_step c ev c' -> pool_ok c'.
Proof.
  intros [HI HT] Hs. destruct Hs as [t1 t2 u X e k s x s' He|ts u p s Hp]; simpl in *.
  - apply Forall_app in HT as [H1 [H2 H3]%Forall_cons_1]. destruct H2 as [Hpre Hk].
    split; [by eapply impl_inv|]. simpl. apply Forall_app. split; [done|]. constructor.
    + apply Hk. by eapply impl_promised.
    + apply Forall_app. split; [done|]. apply Forall_forall. intros [u' p] Hin. by eapply impl_spawn.
  - split; [done|]. apply Forall_app. split; [done|]. constructor; [|done]. by apply impl_arrives.
Qed.

(** In every interleaving the invariant holds and every goroutine keeps its
    contract: in particular its next call is one it may make. *)
Lemma pool_adequate c tr c' : pool_ok c -> pool_run c tr c' -> pool_ok c'.
Proof. intros H. induction 1; eauto using pool_step_ok. Qed.

Lemma pool_next_call c tr ts s u X (e : E X) k :
  pool_ok c -> pool_run c tr (ts, s) -> (u, Vis e k) ∈ ts -> may_call u X e.
Proof.
  intros H Hr Hin. destruct (pool_adequate _ _ _ H Hr) as [_ HT]. rewrite Forall_forall in HT.
  by destruct (HT _ Hin).
Qed.
End Pool.
