(* ===== verification/Guards.v ===== *)
(** * Calls that need a reason

    Some calls of a program are only right after others: a guard is a
    condition on a call and on the events before it.  [reaches] says where a
    program stands after some events, with any answers; a [guarded] program
    makes no call against its guard, on any path, even on one that never
    returns. *)

From S2P Require Import Prelude Effects.

Section Guards.
Context {E : Type -> Type}.
Implicit Types (tr : list (event E)).

(** After the events of [tr] the program is left with [q]. *)
Fixpoint reaches {A} (p : prog E A) tr (q : prog E A) : Prop :=
  match tr with
  | [] => q = p
  | ev :: tr' =>
    match p with
    | Ret _ => False
    | Vis e k => exists x, ev = Ev e x /\ reaches (k x) tr' q
    end
  end.

(** [guard tr e]: the call [e] may follow the events [tr]. *)
Context (guard : list (event E) -> forall X, E X -> Prop).

Fixpoint guarded tr {A} (p : prog E A) (Q : A -> list (event E) -> Prop) : Prop :=
  match p with
  | Ret a => Q a tr
  | Vis e k => guard tr _ e /\ forall x, guarded (tr ++ [Ev e x]) (k x) Q
  end.

(** The next call of a program is within its guard. *)
Definition next_guarded tr {A} (p : prog E A) : Prop :=
  match p with Ret _ => True | Vis e _ => guard tr _ e end.

Lemma guarded_reaches {A} (p q : prog E A) tr0 tr Q :
  guarded tr0 p Q -> reaches p tr q -> next_guarded (tr0 ++ tr) q.
Proof.
  revert tr0 tr. induction p as [a|X e k IH]; intros tr0 [|ev tr]; simpl; try done.
  - by intros _ ->.
  - intros [H _] ->. by rewrite app_nil_r.
  - intros [_ H] (x & -> & Hr). rewrite (cons_middle (Ev e x) tr0 tr), (assoc_L (++)). by eapply IH; [apply H|].
Qed.

(** A completed run, in any environment, ends as stated. *)
Lemma guarded_runs {S} `{!Env E S} {A} (p : prog E A) tr0 tr Q s a s' :
  guarded tr0 p Q -> runs p s tr a s' -> Q a (tr0 ++ tr).
Proof.
  revert tr0 tr s. induction p as [b|X e k IH]; simpl; intros tr0 tr s.
  - intros H (-> & -> & _). by rewrite app_nil_r.
  - intros [_ H] (x & s1 & tr' & -> & _ & Hr). rewrite (cons_middle (Ev e x) tr0 tr'), (assoc_L (++)). by eapply IH; [apply H|].
Qed.

Lemma guarded_mono tr {A} (p : prog E A) (Q Q' : A -> list (event E) -> Prop) :
  guarded tr p Q -> (forall a tr', Q a tr' -> Q' a tr') -> guarded tr p Q'.
Proof. intros H HQ. revert tr H. induction p as [a|X e k IH]; simpl; intros tr H; [auto|]. destruct H. split; auto. Qed.

Lemma guarded_bind tr {A B} (f : A -> prog E B) (p : prog E A) Q :
  guarded tr p (fun a tr' => guarded tr' (f a) Q) -> guarded tr (pbind f p) Q.
Proof. revert tr. induction p as [a|X e k IH]; simpl; intros tr; [done|]. intros [He Hk]. split; auto. Qed.

Lemma guarded_seq tr {A B} (f : A -> prog E B) (p : prog E A) R Q :
  guarded tr p R -> (forall a tr', R a tr' -> guarded tr' (f a) Q) -> guarded tr (p ≫= f) Q.
Proof. intros Hp Hf. apply guarded_bind. by eapply guarded_mono. Qed.

Lemma guarded_call_seq tr {X B} (e : E X) (f : X -> prog E B) Q :
  guard tr _ e -> (forall x, guarded (tr ++ [Ev e x]) (f x) Q) -> guarded tr (call e ≫= f) Q.
Proof. intros He Hf. by split. Qed.

(** A loop, with what is done and what is left. *)
Lemma guarded_fold tr {A B} (f : B -> A -> prog E B) (I : list A -> list A -> B -> list (event E) -> Prop) l acc :
  (forall done x todo acc tr, I done (x :: todo) acc tr -> guarded tr (f acc x) (fun acc' tr' => I (done ++ [x]) todo acc' tr')) ->
  I [] l acc tr -> guarded tr (fold_each f l acc) (fun acc' tr' => I l [] acc' tr').
Proof.
  intros Hf. enough (forall done, I done l acc tr -> guarded tr (fold_each f l acc) (fun acc' tr' => I (done ++ l) [] acc' tr')) as H by apply (H []).
  revert tr acc. induction l as [|x l IH]; intros tr acc done HI; [simpl; by rewrite app_nil_r|]. apply guarded_bind.
  eapply guarded_mono; [by apply Hf|]. intros acc' tr' H'. rewrite (cons_middle x done l), (assoc_L (++)). by apply IH.
Qed.

Lemma guarded_for_each tr {A} (f : A -> prog E unit) (I : list A -> list (event E) -> Prop) l :
  (forall done x tr, x ∈ l -> I done tr -> guarded tr (f x) (fun _ tr' => I (done ++ [x]) tr')) ->
  I [] tr -> guarded tr (for_each f l) (fun _ tr' => I l tr').
Proof.
  enough (forall done tr, (forall done' x tr, x ∈ l -> I done' tr -> guarded tr (f x) (fun _ tr' => I (done' ++ [x]) tr')) ->
    I done tr -> guarded tr (for_each f l) (fun _ tr' => I (done ++ l) tr')) as H by (intros Hf; apply (H []); done).
  clear tr. induction l as [|x l IH]; intros done tr Hf HI; [simpl; by rewrite app_nil_r|]. apply guarded_bind.
  eapply guarded_mono; [apply Hf; [left|done]|]. intros [] tr' H'. rewrite (cons_middle x done l), (assoc_L (++)).
  apply IH; [|done]. intros done' y tr2 Hy. apply Hf. by right.
Qed.

Lemma guarded_finally tr {A} (p : prog E A) fin Q :
  guarded tr p (fun a tr' => guarded tr' fin (fun _ tr2 => Q a tr2)) -> guarded tr (finally p fin) Q.
Proof.
  intros H. apply guarded_bind. eapply guarded_mono; [exact H|]. intros a tr' Ha. apply guarded_bind.
  eapply guarded_mono; [exact Ha|]. done.
Qed.

(** Calls that need no reason. *)
Context (free : forall X, E X -> bool).
Hypothesis free_ok : forall tr X (e : E X), free X e = true -> guard tr X e.

Lemma guarded_free tr {A} (p : prog E A) (Q : A -> list (event E) -> Prop) :
  calls_only free p -> (forall a tr', tr `prefix_of` tr' -> Q a tr') -> guarded tr p Q.
Proof.
  revert tr. induction p as [a|X e k IH]; intros tr Hp HQ; [by apply HQ|]. destruct Hp as [He Hk].
  split; [by apply free_ok|]. intros x. apply IH; [apply Hk|]. intros a tr' Htr. apply HQ. etrans; [by eexists|done].
Qed.

(** After a free program. *)
Lemma guarded_free_seq tr {A B} (f : A -> prog E B) (p : prog E A) Q :
  calls_only free p -> (forall a tr', tr `prefix_of` tr' -> guarded tr' (f a) Q) -> guarded tr (p ≫= f) Q.
Proof. intros Hp Hf. eapply guarded_seq; [apply guarded_free; [exact Hp|]|exact Hf]. done. Qed.
End Guards.

Arguments guarded : simpl never.

(** ** Calls of one kind

    Every call of a program, on every path, satisfies [P]; the rules follow
    the constructs programs are made of. *)
Section CallsAll.
Context {E : Type -> Type} (P : forall X, E X -> Prop).

Fixpoint calls_all {A} (p : prog E A) : Prop :=
  match p with Ret _ => True | Vis e k => P _ e /\ forall x, calls_all (k x) end.

Lemma calls_all_bind {A B} (f : A -> prog E B) (p : prog E A) : calls_all p -> (forall a, calls_all (f a)) -> calls_all (pbind f p).
Proof. intros Hp Hf. induction p as [a|X e k IH]; [apply Hf|]. destruct Hp as [He Hk]. split; [done|]. intros x. by apply IH. Qed.
Lemma calls_all_mbind {A B} (f : A -> prog E B) (p : prog E A) : calls_all p -> (forall a, calls_all (f a)) -> calls_all (p ≫= f).
Proof. apply calls_all_bind. Qed.
Lemma calls_all_fmap {A B} (f : A -> B) (p : prog E A) : calls_all p -> calls_all (f <$> p).
Proof. intros Hp. by apply calls_all_bind. Qed.
Lemma calls_all_call {X} (e : E X) : P _ e -> calls_all (call e).
Proof. by split. Qed.
Lemma calls_all_ret {A} (a : A) : calls_all (mret a : prog E A).
Proof. done. Qed.
Lemma calls_all_finally {A} (p : prog E A) fin : calls_all p -> calls_all fin -> calls_all (finally p fin).
Proof. intros Hp Hf. apply calls_all_bind; [done|]. intros a. by apply calls_all_bind. Qed.
Lemma calls_all_or_return {Er} (m k : prog E (option Er)) : calls_all m -> calls_all k -> calls_all (m ;;? k).
Proof. intros Hm Hk. apply calls_all_bind; [done|]. by intros [e|]. Qed.
Lemma calls_all_for_each {A} (f : A -> prog E unit) (l : list A) : (forall x, calls_all (f x)) -> calls_all (for_each f l).
Proof. intros Hf. induction l as [|x l IH]; [done|]. by apply calls_all_bind. Qed.
Lemma calls_all_fold_each {A B} (f : B -> A -> prog E B) (l : list A) acc : (forall b x, calls_all (f b x)) -> calls_all (fold_each f l acc).
Proof. intros Hf. revert acc. induction l as [|x l IH]; intros acc; [done|]. by apply calls_all_bind. Qed.

(** The next call after any events, and every call of a run. *)
Lemma calls_all_reaches {A X} (p : prog E A) tr (e : E X) k : calls_all p -> reaches p tr (Vis e k) -> P _ e.
Proof.
  revert tr. induction p as [a|Y e' k' IH]; intros [|ev tr]; simpl; try done.
  - intros [He _] Heq. change (match Vis e' k' with Ret _ => True | Vis e _ => P _ e end) in He. by rewrite <-Heq in He.
  - intros [_ Hk] (x & -> & Hr). by eapply IH.
Qed.

Lemma calls_all_runs {S} `{!Env E S} {A} (p : prog E A) s tr a s' : calls_all p -> runs p s tr a s' -> Forall (fun ev => P _ (ev_op ev)) tr.
Proof.
  revert s tr. induction p as [b|X e k IH]; simpl; intros s tr Hp.
  - by intros (-> & _).
  - intros (x & s1 & tr' & -> & _ & Hr). destruct Hp as [He Hk]. constructor; [done|]. by eapply IH.
Qed.
End CallsAll.

Lemma calls_all_impl {E : Type -> Type} (P Q : forall X, E X -> Prop) {A} (p : prog E A) :
  (forall X e, P X e -> Q X e) -> calls_all P p -> calls_all Q p.
Proof. intros H. induction p as [a|X e k IH]; [done|]. intros [He Hk]. split; [by apply H|]. intros x. by apply IH. Qed.

Ltac calls_all_step :=
  lazymatch goal with
  | |- calls_all _ (mbind _ _) => apply calls_all_mbind; [|intros]
  | |- calls_all _ (pbind _ _) => apply calls_all_bind; [|intros]
  | |- calls_all _ (fmap _ _) => apply calls_all_fmap
  | |- calls_all _ (finally _ _) => apply calls_all_finally
  | |- calls_all _ (or_return _ _) => apply calls_all_or_return
  | |- calls_all _ (for_each _ _) => apply calls_all_for_each; intros
  | |- calls_all _ (fold_each _ _ _) => apply calls_all_fold_each; intros
  | |- calls_all _ (mret _) => apply calls_all_ret
  | |- calls_all _ (Ret _) => apply calls_all_ret
  | |- calls_all _ (let _ := _ in _) => cbv zeta
  | |- calls_all _ (match ?x with _ => _ end) => destruct x eqn:?
  end.
