(* ===== verification/GoFmt.v ===== *)
(** * Formatted texts: [fmt.Sprintf], [strconv.Quote] and raw strings

    The verbs [%s], [%d], [%q] and [%%] the program's commands are written
    with.  A raw string of the source is written with [raw]: Go's raw strings
    cannot hold a backquote, so the backquote stands for the double quote. *)

From S2P Require Import Prelude GoStrings.

#[local] Open Scope Z_scope.

Definition dquote : ascii := of_byte 34.
Definition raw (s : string) : string := replace_byte "`" dquote s.

(** [strconv.IsPrint] outside ASCII, a table of the Unicode version. *)
Class UnicodePrint : Type := IsPrint : Z -> bool.

(** ** [strconv.Quote] *)
Section Quote.
Context {printable_rune : UnicodePrint}.

Definition is_print (r : Z) : bool := if r <? 128 then (32 <=? r) && (r <=? 126) else IsPrint r.

Definition hex_lower (d : Z) : ascii := if d <? 10 then of_byte (48 + d) else of_byte (87 + d).

(** [n] hexadecimal digits. *)
Fixpoint hex_fixed (n : nat) (z : Z) : string :=
  match n with O => "" | S n' => hex_fixed n' (z / 16) +:+ String (hex_lower (z mod 16)) "" end.

(** [appendEscapedRune] for a rune that is not printed as it is. *)
Definition escaped_rune (r : Z) : string :=
  if r =? 7 then "\a" else if r =? 8 then "\b" else if r =? 12 then "\f" else if r =? 10 then "\n"
  else if r =? 13 then "\r" else if r =? 9 then "\t" else if r =? 11 then "\v"
  else if (r <? 32) || (r =? 127) then "\x" +:+ hex_fixed 2 r
  else if r <? 65536 then "\u" +:+ hex_fixed 4 r
  else "\U" +:+ hex_fixed 8 r.

(** The quoted bytes; [keep] bytes of a printed rune, or [drop] bytes of an
    escaped one, are still to come. *)
Fixpoint quote_from (keep drop : nat) (s : string) : string :=
  match s with
  | EmptyString => ""
  | String a s' =>
    match keep, drop with
    | S k, _ => String a (quote_from k 0 s')
    | O, S d => quote_from 0 d s'
    | O, O =>
      let '(r, n) := decode_head a s' in
      if (n =? 1)%nat && (r =? RuneError) then "\x" +:+ hex_fixed 2 (byte_of a) +:+ quote_from 0 0 s'
      else if Ascii.eqb a dquote || Ascii.eqb a "\" then String "\" (String a (quote_from 0 0 s'))
      else if is_print r then String a (quote_from (n - 1) 0 s')
      else escaped_rune r +:+ quote_from 0 (n - 1) s'
    end
  end.
Definition Quote (s : string) : string := String dquote (quote_from 0 0 s +:+ String dquote "").

(** ** [fmt.Sprintf] *)
Inductive fmt_arg : Type := FStr (s : string) | FInt (z : Z).

Definition fmt_verb (c : ascii) (arg : fmt_arg) : string :=
  match arg with
  | FStr s => if Ascii.eqb c "q" then Quote s else s
  | FInt z => Itoa z
  end.

Fixpoint Sprintf (f : string) (args : list fmt_arg) : string :=
  match f with
  | EmptyString => ""
  | String a f' =>
    if Ascii.eqb a "%" then
      match f' with
      | EmptyString => "%!(NOVERB)"
      | String c f2 =>
        if Ascii.eqb c "%" then String "%" (Sprintf f2 args)
        else match args with
             | [] => "%!" +:+ String c "(MISSING)" +:+ Sprintf f2 []
             | arg :: args' => fmt_verb c arg +:+ Sprintf f2 args'
             end
      end
    else String a (Sprintf f' args)
  end.
End Quote.

(** ** A raw string without the backquote is itself *)
Example sprintf_example : Sprintf (printable_rune := fun _ => true) (raw "a=`%s`%%%d %q") [FStr "x"; FInt 12; FStr "b"] = raw "a=`x`%12 `b`".
Proof. reflexivity. Qed.

(** ** [json.Marshal] of a string (encoding/json, HTML characters escaped) *)
Definition json_safe (a : ascii) : bool :=
  (32 <=? byte_of a) && negb (Ascii.eqb a dquote || Ascii.eqb a "\" || Ascii.eqb a "<" || Ascii.eqb a ">" || Ascii.eqb a "&").

Definition json_escape (a : ascii) : string :=
  let c := byte_of a in
  if Ascii.eqb a dquote || Ascii.eqb a "\" then String "\" (String a "")
  else if c =? 8 then "\b" else if c =? 12 then "\f" else if c =? 10 then "\n" else if c =? 13 then "\r" else if c =? 9 then "\t"
  else "\u00" +:+ hex_fixed 2 c.

Fixpoint json_from (keep drop : nat) (s : string) : string :=
  match s with
  | EmptyString => ""
  | String a s' =>
    match keep, drop with
    | S k, _ => String a (json_from k 0 s')
    | O, S d => json_from 0 d s'
    | O, O =>
      if byte_of a <? 128 then (if json_safe a then String a "" else json_escape a) +:+ json_from 0 0 s'
      else
        let '(r, n) := decode_head a s' in
        if (n =? 1)%nat && (r =? RuneError) then "\ufffd" +:+ json_from 0 0 s'
        else if (r =? 8232) || (r =? 8233) then "\u202" +:+ String (hex_lower (r mod 16)) "" +:+ json_from 0 (n - 1) s'
        else String a (json_from (n - 1) 0 s')
    end
  end.
Definition json_string (s : string) : string := String dquote (json_from 0 0 s +:+ String dquote "").
