(* ===== verification/GoURL.v ===== *)
(** * [net/url]: parsing

    [Parse] and [ParseRequestURI] as far as the program reads their results:
    the scheme, the user, the host, the raw query and the fragment, and the
    conditions under which parsing fails. *)

From S2P Require Import Prelude GoStrings.

#[local] Open Scope Z_scope.

Record URL : Type := mkURL {
  url_Scheme : string;
  url_User : option string;  (* the escaped user information *)
  url_Host : string;
  url_RawQuery : string;
  url_Fragment : string
}.

Definition no_url : URL := mkURL "" None "" "" "".

Definition letter (a : ascii) : bool := byte_in 97 122 a || byte_in 65 90 a.
Definition decimal (a : ascii) : bool := byte_in 48 57 a.
Definition one_of (chars : string) (a : ascii) : bool := str_exists (Ascii.eqb a) chars.

(** ** Cutting *)

(** The texts before and after the first occurrence of a byte. *)
Fixpoint cut_first (sep : ascii) (s : string) : option (string * string) :=
  match s with
  | EmptyString => None
  | String a s' =>
    if Ascii.eqb a sep then Some ("", s')
    else match cut_first sep s' with Some (x, y) => Some (String a x, y) | None => None end
  end.

(** The texts before and after the last occurrence. *)
Definition cut_last (sep : ascii) (s : string) : option (string * string) :=
  match cut_first sep (str_rev s) with Some (y, x) => Some (str_rev x, str_rev y) | None => None end.

(** ** Escapes *)
Inductive encoding : Type := encodePath | encodeHost | encodeZone | encodeUserPassword | encodeFragment.
#[export] Instance encoding_eq_dec : EqDecision encoding.
Proof. solve_decision. Defined.

(** [shouldEscape] in the modes of a host. *)
Definition host_escape (a : ascii) : bool :=
  negb (letter a || decimal a || one_of "!$&'()*+,;=:[]<>-_.~" a || (byte_of a =? 34)).

Definition unhex (a : ascii) : option Z :=
  if decimal a then Some (byte_of a - 48)
  else if byte_in 97 102 a then Some (byte_of a - 87)
  else if byte_in 65 70 a then Some (byte_of a - 55)
  else None.

(** [unescape]; the modes here leave [+] alone. *)
Fixpoint unescape (mode : encoding) (s : string) : option string :=
  match s with
  | EmptyString => Some ""
  | String a s' =>
    if Ascii.eqb a "%" then
      match s' with
      | String x (String y s3) =>
        match unhex x, unhex y with
        | Some h, Some l =>
          let v := of_byte (16 * h + l) in
          let percent := (h =? 2) && (l =? 5) in
          if match mode with
             | encodeHost => (h <? 8) && negb percent
             | encodeZone => negb percent && negb (Ascii.eqb v " ") && host_escape v
             | _ => false
             end
          then None
          else t ← unescape mode s3; Some (String v t)
        | _, _ => None
        end
      | _ => None
      end
    else if (bool_decide (mode = encodeHost) || bool_decide (mode = encodeZone)) && (byte_of a <? 128) && host_escape a
    then None
    else t ← unescape mode s'; Some (String a t)
  end.

(** ** The parts of an URL *)
Definition validOptionalPort (port : string) : bool :=
  match port with
  | EmptyString => true
  | String a digits => Ascii.eqb a ":" && negb (str_exists (fun d => negb (decimal d)) digits)
  end.

(** The index of [%25]. *)
Fixpoint cut_zone (s : string) : option (string * string) :=
  if HasPrefix s "%25" then Some ("", s)
  else match s with
       | EmptyString => None
       | String a s' => match cut_zone s' with Some (x, y) => Some (String a x, y) | None => None end
       end.

Definition parseHost (host : string) : option string :=
  if HasPrefix host "[" then
    match cut_last "]" host with
    | None => None
    | Some (address, port) =>
      if negb (validOptionalPort port) then None
      else match cut_zone address with
           | Some (h1, zone) =>
             x ← unescape encodeHost h1; y ← unescape encodeZone zone; z ← unescape encodeHost (String "]" port);
             Some (x +:+ y +:+ z)
           | None => unescape encodeHost host
           end
    end
  else
    match cut_last ":" host with
    | Some (_, port) => if validOptionalPort (String ":" port) then unescape encodeHost host else None
    | None => unescape encodeHost host
    end.

Definition validUserinfo (s : string) : bool :=
  negb (str_exists (fun a => negb (letter a || decimal a || one_of "-._:~!$&'()*+,;=%@" a)) s).

Definition parseAuthority (authority : string) : option (option string * string) :=
  match cut_last "@" authority with
  | None => host ← parseHost authority; Some (None, host)
  | Some (userinfo, rest) =>
    host ← parseHost rest;
    if negb (validUserinfo userinfo) then None
    else
      let '(user, password) := match cut_first ":" userinfo with Some p => p | None => (userinfo, "") end in
      _ ← unescape encodeUserPassword user; _ ← unescape encodeUserPassword password;
      Some (Some userinfo, host)
  end.

(** [getScheme]: the scheme, empty for none, and the rest. *)
Fixpoint scheme_from (first : bool) (s : string) : option (option (string * string)) :=
  match s with
  | EmptyString => Some None
  | String a s' =>
    if letter a then match scheme_from false s' with Some (Some (x, y)) => Some (Some (String a x, y)) | r => r end
    else if decimal a || one_of "+-." a then
      if first then Some None
      else match scheme_from false s' with Some (Some (x, y)) => Some (Some (String a x, y)) | r => r end
    else if Ascii.eqb a ":" then if first then None else Some (Some ("", s'))
    else Some None
  end.
Definition getScheme (s : string) : option (string * string) :=
  match scheme_from true s with
  | None => None
  | Some None => Some ("", s)
  | Some (Some p) => Some p
  end.

Definition lower_ascii (a : ascii) : ascii := if byte_in 65 90 a then of_byte (byte_of a + 32) else a.

(** The query: a single [?] at the end leaves it empty. *)
Definition split_query (rest : string) : string * string :=
  match cut_first "?" rest with Some p => p | None => (rest, "") end.

Definition parse (rawURL : string) (viaRequest : bool) : option URL :=
  if str_exists (fun a => (byte_of a <? 32) || (byte_of a =? 127)) rawURL then None
  else if String.eqb rawURL "" && viaRequest then None
  else if String.eqb rawURL "*" then Some no_url
  else
    '(scheme, rest) ← getScheme rawURL;
    let scheme := str_map lower_ascii scheme in
    let '(rest, query) := split_query rest in
    let absolute := negb (String.eqb scheme "") in
    if negb (HasPrefix rest "/") && absolute then Some (mkURL scheme None "" query "")
    else if negb (HasPrefix rest "/") && viaRequest then None
    else if negb (HasPrefix rest "/") &&
            Contains (match cut_first "/" rest with Some (segment, _) => segment | None => rest end) ":" then None
    else if (absolute || (negb viaRequest && negb (HasPrefix rest "///"))) && HasPrefix rest "//" then
      let after := str_drop 2 rest in
      let '(authority, path) := match cut_first "/" after with Some (x, y) => (x, String "/" y) | None => (after, "") end in
      '(user, host) ← parseAuthority authority;
      _ ← unescape encodePath path;
      Some (mkURL scheme user host query "")
    else
      _ ← unescape encodePath rest;
      Some (mkURL scheme None "" query "").

Definition Parse (rawURL : string) : option URL :=
  match cut_first "#" rawURL with
  | None => parse rawURL false
  | Some (u, frag) =>
    url ← parse u false;
    fragment ← unescape encodeFragment frag;
    Some (mkURL (url_Scheme url) (url_User url) (url_Host url) (url_RawQuery url) fragment)
  end.

Definition ParseRequestURI (rawURL : string) : option URL := parse rawURL true.

Example parse_examples :
  (Parse "https://github.com/x/y.git", Parse "https://u:p@h:80/?q#f", Parse "https://h:8x/", Parse "HTTP:opaque") =
  (Some (mkURL "https" None "github.com" "" ""), Some (mkURL "https" (Some "u:p") "h:80" "q" "f"), None,
   Some (mkURL "http" None "" "" "")).
Proof. reflexivity. Qed.
