(* ===== verification/Config.v ===== *)
(** * The configuration ([internal/config/config.go])

    [load]: the environment read and validated, with every error collected.
    Library code are parameters: the decoders of the panels' YAML file and
    JSON text, the parser of mail addresses, the order in which Go ranges over
    the map of URLs, and the floating point fractions of a duration. *)

From S2P Require Import Prelude GoStrings GoText NetIP NetIPFacts Unicode GoFmt GoURL.

#[local] Open Scope Z_scope.

(** ** Values with the validation errors found on the way *)
Definition W (A : Type) : Type := list string * A.
#[local] Instance W_ret : MRet W := fun A a => ([], a).
#[local] Instance W_bind : MBind W := fun A B f m => let '(e1, a) := m in let '(e2, b) := f a in (e1 ++ e2, b).
Definition complain (bad : bool) (message : string) : W unit := (if bad then [message] else [], tt).

(** ** Data *)
Definition DNSModeEnabled : string := "enabled".
Definition DNSModeDisabled : string := "disabled".

Record PanelConfig : Type := mkPanelConfig {
  pc_ID : string; pc_Name : string; pc_RemnawaveURL : string; pc_RemnawaveToken : string; pc_RemnawaveAPIIP : Addr;
  pc_DNSMode : string; pc_DNSBalancerURL : string; pc_DNSBalancerToken : string; pc_CloudflareAPIToken : string
}.

Definition defaultHealthAddr : string := ":8080".
Definition defaultXraySNIRepoURL : string := "https://github.com/sasha33396/sni-external.git".
Definition defaultXraySNIRef : string := "v0.1.0-external".
Definition defaultACMEDirectory : string := "https://acme-v02.api.letsencrypt.org/directory".
Definition defaultCertificateStore : string := "/var/lib/deployer/certificates".

Record Config : Type := mkConfig {
  c_Panels : list PanelConfig; c_TelegramBotToken : string; c_TelegramAllowedUsers : list Z; c_RemnawaveURL : string;
  c_RemnawaveToken : string; c_DNSBalancerURL : string; c_DNSBalancerToken : string; c_CloudflareAPIToken : string;
  c_ACMEEmail : string; c_ACMEDirectoryURL : string; c_CertificateStorePath : string; c_RemnaAPIIP : Addr; c_MetricsIP : Addr;
  c_DatabaseURL : string; c_DeploySSHPrivateKey : string; c_XraySNIRepoURL : string; c_XraySNIRef : string; c_HealthAddr : string;
  c_HTTPTimeout : Z; c_SSHConnectTimeout : Z; c_SSHCommandTimeout : Z; c_NodeConnectTimeout : Z; c_TelegramPollTimeout : Z;
  c_TelegramSessionTTL : Z; c_NodeMonitorInterval : Z; c_NodeCriticalAlertInterval : Z; c_CertificateRenewBefore : Z;
  c_CertificateRenewInterval : Z; c_CertificateIssueTimeout : Z; c_DNSPropagationTimeout : Z; c_DNSPropagationInterval : Z;
  c_MaxConcurrentDeployments : Z; c_MaxCertificateDistributions : Z; c_NodeMonitorConfirmations : Z; c_NodeCriticalOnlineThreshold : Z
}.

(** A panel as the JSON text or the YAML file has it. *)
Record panelJSON : Type := mkPanelJSON {
  pj_ID : string; pj_Name : string; pj_RemnawaveURL : string; pj_RemnawaveTokenEnv : string; pj_RemnawaveAPIIP : string;
  pj_CloudflareTokenEnv : string; pj_DNSMode : string; pj_DNSURL : string; pj_DNSTokenEnv : string
}.
Record panelYAML : Type := mkPanelYAML {
  py_ID : string; py_Name : string; py_RemnawaveURL : string; py_RemnawaveTokenEnv : string; py_RemnawaveAPIIP : string;
  py_DNSMode : string; py_DNSURL : string; py_DNSTokenEnv : string; py_CloudflareTokenEnv : string
}.

(** What the file at a path is: [FileDocument] is its first document, and
    whether something follows it. *)
Inductive panelsFile : Type :=
  | FileNotOpened
  | FileNotSafe
  | FileInvalid
  | FileDocument (l : list panelYAML) (more : bool).
Inductive panelsText : Type := TextInvalid | TextArray (l : list panelJSON) (more : bool).

Class ConfigLibrary : Type := {
  panels_file : string -> panelsFile;
  panels_json : string -> panelsText;
  mail_ParseAddress : string -> option string;
  range_urls : list (string * string) -> list (string * string);
  range_urls_perm : forall l, range_urls l ≡ₚ l
}.

(** ** Values of the environment *)
Definition validPanelID (value : string) : bool :=
  if (str_len value <? 1) || (32 <? str_len value) then false
  else match value with
       | EmptyString => false
       | String a rest =>
         let plain b := byte_in 97 122 b || byte_in 48 57 b in
         plain a && str_forall (fun b => plain b || Ascii.eqb b "-" || Ascii.eqb b "_") rest
       end.

Definition validURL (value : string) (database : bool) : bool :=
  match ParseRequestURI value with
  | None => false
  | Some parsed =>
    if String.eqb (url_Scheme parsed) "" || String.eqb (url_Host parsed) "" then false
    else if database then String.eqb (url_Scheme parsed) "postgres" || String.eqb (url_Scheme parsed) "postgresql"
    else String.eqb (url_Scheme parsed) "http" || String.eqb (url_Scheme parsed) "https"
  end.

Definition validXraySNIRepositoryURL (value : string) : bool :=
  match Parse value with
  | None => false
  | Some u =>
    String.eqb (url_Scheme u) "https" && negb (String.eqb (url_Host u) "") && bool_decide (url_User u = None) &&
    String.eqb (url_RawQuery u) "" && String.eqb (url_Fragment u) ""
  end.

Definition validPinnedRef (value : string) : bool :=
  let value := TrimSpace value in
  if String.eqb value "" || EqualFold value "main" || EqualFold value "master" || EqualFold value "HEAD" then false
  else if Contains value ".." || Contains value "@{" || HasPrefix value "-" then false
  else str_forall (fun a => byte_in 97 122 a || byte_in 65 90 a || byte_in 48 57 a || str_exists (Ascii.eqb a) "._/-") value.

Definition parseIP (name value : string) : W Addr :=
  match ParseAddr value with
  | None => ([name +:+ " must be a valid IP address"], AddrInvalid)
  | Some ip => ([], ip)
  end.

(** [strings.FieldsFunc] on the three separators. *)
Definition separated (value : string) : list string :=
  List.filter (fun w => negb (String.eqb w "")) (Split (replace_byte ";" "," (replace_byte " " "," value)) ",").

(** The loop of [parseAllowedUsers]: the users seen so far; [None] is its
    early return. *)
Fixpoint collect_users (parts : list string) (users : list Z) : option (list Z) :=
  match parts with
  | [] => Some users
  | part :: parts' =>
    match Atoi part with
    | None => None
    | Some id => if id <=? 0 then None else collect_users parts' (if existsb (Z.eqb id) users then users else users ++ [id])
    end
  end.

Definition parseAllowedUsers (value : string) : W (list Z) :=
  match collect_users (separated value) [] with
  | None => (["TELEGRAM_ALLOWED_USERS must contain positive numeric IDs"], [])
  | Some [] => (["TELEGRAM_ALLOWED_USERS must contain at least one ID"], [])
  | Some users => ([], users)
  end.

Section Load.
Context `{ConfigLibrary} {fractions : FloatFraction} {printable_rune : UnicodePrint}.
Context (lookup : string -> option string).

Definition value_of (name : string) : string := TrimSpace (default "" (lookup name)).

(** [referencedSecret]. *)
Definition referencedSecret (name : string) : string :=
  let name := TrimSpace name in if String.eqb name "" then "" else value_of name.

Definition required (name : string) : W string :=
  _ ← complain (String.eqb (value_of name) "") (name +:+ " is required");
  mret (value_of name).

(** Optional texts, durations and integers. *)
Definition text_setting (name fallback : string) : string := if String.eqb (value_of name) "" then fallback else value_of name.

Definition duration_setting (name : string) (fallback : Z) : W Z :=
  if String.eqb (value_of name) "" then mret fallback
  else match ParseDuration (value_of name) with
       | Some parsed => if parsed <=? 0 then ([name +:+ " must be a positive duration"], fallback) else mret parsed
       | None => ([name +:+ " must be a positive duration"], fallback)
       end.

Definition integer_setting (name : string) (fallback maximum : Z) : W Z :=
  if String.eqb (value_of name) "" then mret fallback
  else match Atoi (value_of name) with
       | Some parsed =>
         if (parsed <=? 0) || (maximum <? parsed) then ([name +:+ " must be between 1 and " +:+ Itoa maximum], fallback) else mret parsed
       | None => ([name +:+ " must be between 1 and " +:+ Itoa maximum], fallback)
       end.

(** ** The panels *)
Definition validate_panel (fallbackCloudflare : string) (index : Z) (seen : list string) (item : panelJSON) : W PanelConfig :=
  let id := TrimSpace (pj_ID item) in
  let name := TrimSpace (pj_Name item) in
  _ ← complain (negb (validPanelID id)) ("panel " +:+ Itoa index +:+ " has an invalid id");
  _ ← complain (existsb (String.eqb id) seen) ("panel id " +:+ Quote id +:+ " is duplicated");
  _ ← complain (String.eqb name "" || (80 <? str_len name)) ("panel " +:+ id +:+ " has an invalid name");
  let token := referencedSecret (pj_RemnawaveTokenEnv item) in
  _ ← complain (String.eqb token "") ("panel " +:+ id +:+ " Remnawave token environment variable is missing");
  let ip := ParseAddr (TrimSpace (pj_RemnawaveAPIIP item)) in
  _ ← complain (bool_decide (ip = None)) ("panel " +:+ id +:+ " Remnawave API IP must be a valid IP address");
  let mode := if String.eqb (pj_DNSMode item) "" then DNSModeDisabled else pj_DNSMode item in
  let enabled := String.eqb mode DNSModeEnabled in
  _ ← complain (negb enabled && negb (String.eqb mode DNSModeDisabled)) ("panel " +:+ id +:+ " DNS mode must be enabled or disabled");
  let dnsToken := if enabled then referencedSecret (pj_DNSTokenEnv item) else "" in
  _ ← complain (enabled && (String.eqb (TrimSpace (pj_DNSURL item)) "" || String.eqb dnsToken ""))
        ("panel " +:+ id +:+ " enabled DNS configuration is incomplete");
  let cloudflare := if String.eqb (TrimSpace (pj_CloudflareTokenEnv item)) "" then fallbackCloudflare
                    else referencedSecret (pj_CloudflareTokenEnv item) in
  _ ← complain (String.eqb cloudflare "") ("panel " +:+ id +:+ " Cloudflare token environment variable is missing");
  mret (mkPanelConfig id name (TrimSpace (pj_RemnawaveURL item)) token (default AddrInvalid ip) mode (TrimSpace (pj_DNSURL item))
          dnsToken cloudflare).

Fixpoint validate_items (fallbackCloudflare : string) (index : Z) (seen : list string) (l : list panelJSON) : W (list PanelConfig) :=
  match l with
  | [] => mret []
  | item :: l' =>
    p ← validate_panel fallbackCloudflare index seen item;
    rest ← validate_items fallbackCloudflare (index + 1) (TrimSpace (pj_ID item) :: seen) l';
    mret (p :: rest)
  end.

Definition validatePanels (raw : list panelJSON) (fallbackCloudflare : string) : W (list PanelConfig) :=
  if 32 <? Z.of_nat (length raw) then (["panel configuration cannot contain more than 32 panels"], [])
  else validate_items fallbackCloudflare 0 [] raw.

Definition panel_of_yaml (item : panelYAML) : panelJSON :=
  mkPanelJSON (py_ID item) (py_Name item) (py_RemnawaveURL item) (py_RemnawaveTokenEnv item) (py_RemnawaveAPIIP item)
    (py_CloudflareTokenEnv item) (py_DNSMode item) (py_DNSURL item) (py_DNSTokenEnv item).

Definition parsePanelsFile (path fallbackCloudflare : string) : W (list PanelConfig) :=
  match panels_file path with
  | FileNotOpened => (["PANELS_CONFIG_FILE could not be opened"], [])
  | FileNotSafe => (["PANELS_CONFIG_FILE could not be read safely"], [])
  | FileInvalid => (["PANELS_CONFIG_FILE must contain a non-empty valid panels list"], [])
  | FileDocument [] _ => (["PANELS_CONFIG_FILE must contain a non-empty valid panels list"], [])
  | FileDocument l true => (["PANELS_CONFIG_FILE must contain exactly one YAML document"], [])
  | FileDocument l false => validatePanels (panel_of_yaml <$> l) fallbackCloudflare
  end.

Definition parsePanels (value fallbackCloudflare : string) : W (list PanelConfig) :=
  match panels_json value with
  | TextInvalid => (["PANELS_JSON must be a non-empty valid JSON array"], [])
  | TextArray [] _ => (["PANELS_JSON must be a non-empty valid JSON array"], [])
  | TextArray l true => (["PANELS_JSON must contain exactly one JSON array"], [])
  | TextArray l false => validatePanels l fallbackCloudflare
  end.

(** ** [load] *)
Definition has (name : string) : bool := negb (String.eqb (value_of name) "").

Definition Second : Z := 1000000000.
Definition Minute : Z := 60 * Second.
Definition Hour : Z := 60 * Minute.

(** With panels in a file or a text the variables of the single panel are
    optional. *)
Definition legacyRequired (name : string) : W string :=
  if has "PANELS_CONFIG_FILE" || has "PANELS_JSON" then mret (value_of name) else required name.

Definition ip_setting (name value : string) : W Addr := if String.eqb value "" then mret AddrInvalid else parseIP name value.

Definition url_error (entry : string * string) : W unit :=
  let '(name, value) := entry in
  complain (negb (String.eqb value "") && negb (validURL value (String.eqb name "DATABASE_URL"))) (name +:+ " must be a valid URL").

Fixpoint each {A} (f : A -> W unit) (l : list A) : W unit :=
  match l with [] => mret tt | x :: l' => _ ← f x; each f l' end.

Fixpoint panel_url_errors (index : Z) (l : list PanelConfig) : W unit :=
  match l with
  | [] => mret tt
  | p :: l' =>
    _ ← complain (negb (validURL (pc_RemnawaveURL p) false)) ("panel " +:+ Itoa index +:+ " Remnawave URL must be valid");
    _ ← complain (String.eqb (pc_DNSMode p) DNSModeEnabled && negb (validURL (pc_DNSBalancerURL p) false))
          ("panel " +:+ pc_ID p +:+ " DNS-balancer URL must be valid");
    panel_url_errors (index + 1) l'
  end.

Definition load_config : W Config :=
  _ ← complain (has "PANELS_CONFIG_FILE" && has "PANELS_JSON") "PANELS_CONFIG_FILE and PANELS_JSON cannot be used together";
  botToken ← required "TELEGRAM_BOT_TOKEN";
  remnawaveURL ← legacyRequired "REMNAWAVE_URL";
  remnawaveToken ← legacyRequired "REMNAWAVE_TOKEN";
  dnsURL ← legacyRequired "DNS_BALANCER_URL";
  dnsToken ← legacyRequired "DNS_BALANCER_TOKEN";
  cloudflare ← legacyRequired "CF_API_TOKEN";
  email ← required "ACME_EMAIL";
  databaseURL ← required "DATABASE_URL";
  privateKey ← required "DEPLOY_SSH_PRIVATE_KEY";
  apiIPText ← legacyRequired "REMNA_API_IP";
  apiIP ← ip_setting "REMNA_API_IP" apiIPText;
  panels ← (if has "PANELS_CONFIG_FILE" then parsePanelsFile (value_of "PANELS_CONFIG_FILE") cloudflare
            else if has "PANELS_JSON" then parsePanels (default "" (lookup "PANELS_JSON")) cloudflare
            else mret [mkPanelConfig "default" "Default" remnawaveURL remnawaveToken apiIP DNSModeEnabled dnsURL dnsToken cloudflare]);
  let healthAddr := text_setting "HEALTH_ADDR" defaultHealthAddr in
  let repoURL := text_setting "XRAY_SNI_REPO_URL" defaultXraySNIRepoURL in
  let ref := text_setting "XRAY_SNI_REF" defaultXraySNIRef in
  let directory := text_setting "ACME_DIRECTORY_URL" defaultACMEDirectory in
  let store := text_setting "CERTIFICATE_STORE_PATH" defaultCertificateStore in
  httpTimeout ← duration_setting "HTTP_TIMEOUT" (30 * Second);
  sshConnect ← duration_setting "SSH_CONNECT_TIMEOUT" (20 * Second);
  sshCommand ← duration_setting "SSH_COMMAND_TIMEOUT" (5 * Minute);
  nodeConnect ← duration_setting "NODE_CONNECT_TIMEOUT" (5 * Minute);
  poll ← duration_setting "TELEGRAM_POLL_TIMEOUT" (30 * Second);
  sessionTTL ← duration_setting "TELEGRAM_SESSION_TTL" (15 * Minute);
  monitor ← duration_setting "NODE_MONITOR_INTERVAL" (5 * Minute);
  alert ← duration_setting "NODE_CRITICAL_ALERT_INTERVAL" (15 * Minute);
  renewBefore ← duration_setting "CERTIFICATE_RENEW_BEFORE" (30 * 24 * Hour);
  renewInterval ← duration_setting "CERTIFICATE_RENEW_INTERVAL" (12 * Hour);
  issue ← duration_setting "CERTIFICATE_ISSUE_TIMEOUT" (10 * Minute);
  propagation ← duration_setting "DNS_PROPAGATION_TIMEOUT" (5 * Minute);
  propagationInterval ← duration_setting "DNS_PROPAGATION_INTERVAL" (5 * Second);
  deployments ← integer_setting "MAX_CONCURRENT_DEPLOYMENTS" 2 100;
  distributions ← integer_setting "MAX_CERTIFICATE_DISTRIBUTIONS" 4 32;
  confirmations ← integer_setting "NODE_MONITOR_CONFIRMATIONS" 2 10;
  threshold ← integer_setting "NODE_CRITICAL_ONLINE_THRESHOLD" 50 100000;
  usersText ← required "TELEGRAM_ALLOWED_USERS";
  users ← (if String.eqb usersText "" then mret [] else parseAllowedUsers usersText);
  metricsText ← required "METRICS_IP";
  metricsIP ← ip_setting "METRICS_IP" metricsText;
  _ ← each url_error (range_urls [("REMNAWAVE_URL", remnawaveURL); ("DNS_BALANCER_URL", dnsURL); ("XRAY_SNI_REPO_URL", repoURL);
        ("DATABASE_URL", databaseURL); ("ACME_DIRECTORY_URL", directory)]);
  _ ← panel_url_errors 0 panels;
  _ ← complain (negb (bool_decide (mail_ParseAddress email = Some email))) "ACME_EMAIL must be a valid email address";
  _ ← complain (negb (validXraySNIRepositoryURL repoURL)) "XRAY_SNI_REPO_URL must be a credential-free HTTPS URL";
  _ ← complain (negb (validPinnedRef ref)) "XRAY_SNI_REF must be a pinned tag or commit, not a branch HEAD";
  mret (mkConfig panels botToken users remnawaveURL remnawaveToken dnsURL dnsToken cloudflare email directory store apiIP metricsIP
    databaseURL privateKey repoURL ref healthAddr httpTimeout sshConnect sshCommand nodeConnect poll sessionTTL monitor alert renewBefore
    renewInterval issue propagation propagationInterval deployments distributions confirmations threshold).

(** [errors.Join] of everything found. *)
Definition load : result (list string) Config :=
  let '(validationErrors, cfg) := load_config in
  match validationErrors with [] => Ok cfg | _ => Err validationErrors end.
End Load.

(** ** What a loaded configuration guarantees *)

(** The value if nothing was complained about. *)
Definition ok {A} (m : W A) (Q : A -> Prop) : Prop := fst m = [] -> Q (snd m).

Lemma ok_ret {A} (a : A) (Q : A -> Prop) : Q a -> ok (mret a) Q.
Proof. by intros H _. Qed.

Lemma ok_bind {A B} (m : W A) (f : A -> W B) (P : A -> Prop) (Q : B -> Prop) :
  ok m P -> (forall a, P a -> ok (f a) Q) -> ok (m ≫= f) Q.
Proof.
  destruct m as [e1 a]. unfold ok, mbind, W_bind. cbn. intros Hm Hf. specialize (Hf a). destruct (f a) as [e2 b]. cbn in *.
  intros [-> ->]%app_eq_nil. auto.
Qed.

Lemma ok_mono {A} (m : W A) (P Q : A -> Prop) : ok m P -> (forall a, P a -> Q a) -> ok m Q.
Proof. intros H HPQ He. by apply HPQ, H. Qed.

Lemma ok_any {A} (m : W A) : ok m (fun _ => True).
Proof. done. Qed.

Lemma ok_complain bad message : ok (complain bad message) (fun _ => bad = false).
Proof. unfold complain, ok. by destruct bad. Qed.

Record valid_panel (p : PanelConfig) : Prop := {
  vp_id : validPanelID (pc_ID p) = true;
  vp_name : pc_Name p <> "";
  vp_url : validURL (pc_RemnawaveURL p) false = true;
  vp_token : pc_RemnawaveToken p <> "";
  vp_api_ip : IsValid (pc_RemnawaveAPIIP p) = true;
  vp_dns : (pc_DNSMode p = DNSModeEnabled /\ validURL (pc_DNSBalancerURL p) false = true /\ pc_DNSBalancerToken p <> "") \/
           pc_DNSMode p = DNSModeDisabled;
  vp_cloudflare : pc_CloudflareAPIToken p <> ""
}.

(** All but the URLs, which are checked for all panels together. *)
Definition described (p : PanelConfig) : Prop :=
  (validURL (pc_RemnawaveURL p) false = true ->
   (pc_DNSMode p = DNSModeEnabled -> validURL (pc_DNSBalancerURL p) false = true) -> valid_panel p).

Section Guarantees.
Context `{ConfigLibrary} {fractions : FloatFraction} {printable_rune : UnicodePrint} (lookup : string -> option string).

Lemma ok_required name : ok (required lookup name) (fun v => v <> "").
Proof. unfold required. eapply ok_bind; [apply ok_complain|]. intros u Hv. apply ok_ret. by apply String.eqb_neq. Qed.

Lemma ok_duration name fallback : 0 < fallback -> ok (duration_setting lookup name fallback) (fun v => 0 < v).
Proof.
  intros Hf. unfold duration_setting. destruct (String.eqb _ ""); [by apply ok_ret|].
  destruct (ParseDuration _) as [d|]; [|done]. destruct (d <=? 0) eqn:Hd; [done|]. apply ok_ret. by apply Z.leb_gt.
Qed.

Lemma ok_integer name fallback maximum :
  0 < fallback <= maximum -> ok (integer_setting lookup name fallback maximum) (fun v => 0 < v <= maximum).
Proof.
  intros Hf. unfold integer_setting. destruct (String.eqb _ ""); [by apply ok_ret|].
  destruct (Atoi _) as [d|]; [|done]. destruct (_ || _) eqn:Hd; [done|]. apply ok_ret.
  apply orb_false_iff in Hd as [H1%Z.leb_gt H2%Z.ltb_ge]. done.
Qed.

Lemma collect_users_valid parts users users' :
  NoDup users -> Forall (fun u => 0 < u) users -> collect_users parts users = Some users' -> NoDup users' /\ Forall (fun u => 0 < u) users'.
Proof.
  revert users. induction parts as [|part parts IH]; intros users Hn Hf; cbn [collect_users]; [by intros [= <-]|].
  destruct (Atoi part) as [id|]; [|done]. destruct (id <=? 0) eqn:Hid; [done|]. apply Z.leb_gt in Hid. apply IH.
  - destruct (existsb (Z.eqb id) users) eqn:He; [done|]. apply NoDup_app. split_and!; [done| |apply NoDup_singleton].
    intros x Hx ->%list_elem_of_singleton. apply not_true_iff_false in He. apply He, existsb_elem_of. exists id. split; [done|apply Z.eqb_refl].
  - destruct (existsb (Z.eqb id) users); [done|]. apply Forall_app. split; [done|by apply Forall_singleton].
Qed.

Lemma ok_users value : ok (parseAllowedUsers value) (fun us => us <> [] /\ NoDup us /\ Forall (fun u => 0 < u) us).
Proof.
  unfold parseAllowedUsers. destruct (collect_users _ _) as [[|u us]|] eqn:Hc; [done| |done].
  apply collect_users_valid in Hc as [H1 H2]; [|constructor|constructor]. by intros _.
Qed.

Lemma ok_ip name value : value <> "" -> ok (ip_setting name value) (fun ip => IsValid ip = true).
Proof.
  intros Hv%String.eqb_neq. unfold ip_setting, parseIP. rewrite Hv. destruct (ParseAddr value) as [ip|] eqn:Hp; [|done].
  intros _. cbn. by apply ParseAddr_wf in Hp as (? & ? & ?).
Qed.

Lemma ok_panel fallback index seen item :
  ok (validate_panel lookup fallback index seen item) (fun p => described p /\ pc_ID p = TrimSpace (pj_ID item) /\ pc_ID p ∉ seen).
Proof.
  unfold validate_panel.
  eapply ok_bind; [apply ok_complain|]. intros ? Hid. eapply ok_bind; [apply ok_complain|]. intros ? Hseen.
  eapply ok_bind; [apply ok_complain|]. intros ? Hname. eapply ok_bind; [apply ok_complain|]. intros ? Htoken.
  eapply ok_bind; [apply ok_complain|]. intros ? Hip. eapply ok_bind; [apply ok_complain|]. intros ? Hmode.
  eapply ok_bind; [apply ok_complain|]. intros ? Hdns. eapply ok_bind; [apply ok_complain|]. intros ? Hcf. apply ok_ret. cbn.
  split_and!; [|done|].
  - intros Hurl Hdnsurl. cbn in *. apply orb_false_iff in Hname as [Hname%String.eqb_neq _]. apply String.eqb_neq in Htoken, Hcf.
    apply bool_decide_eq_false in Hip. split; cbn; try done.
    + by apply negb_false_iff.
    + destruct (ParseAddr _) as [ip|] eqn:Hp; [|done]. cbn. by apply ParseAddr_wf in Hp as (? & ? & ?).
    + destruct (String.eqb _ DNSModeEnabled) eqn:Hen.
      * left. pose proof Hen as Hen'. apply String.eqb_eq in Hen'. split; [done|]. cbn in Hdns. apply orb_false_iff in Hdns as [_ Hd%String.eqb_neq].
        split; [by apply Hdnsurl|done].
      * right. cbn in Hmode. apply negb_false_iff in Hmode. by apply String.eqb_eq in Hmode.
  - intros Hin. apply not_true_iff_false in Hseen. apply Hseen, existsb_elem_of. eexists. split; [exact Hin|apply String.eqb_refl].
Qed.

Lemma ok_items fallback index seen l :
  ok (validate_items lookup fallback index seen l) (fun ps =>
    length ps = length l /\ Forall described ps /\ NoDup (pc_ID <$> ps) /\ forall id, id ∈ pc_ID <$> ps -> id ∉ seen).
Proof.
  revert index seen. induction l as [|item l IH]; intros index seen; cbn [validate_items].
  { apply ok_ret. split_and!; [done|constructor|constructor|]. by intros id Hid%not_elem_of_nil. }
  eapply ok_bind; [apply ok_panel|]. intros p (H1 & H2 & H3). eapply ok_bind; [apply IH|]. intros ps (H4 & H5 & H6 & H7).
  apply ok_ret. split_and!; [cbn; by rewrite H4|by constructor| |].
  - cbn. constructor; [|done]. intros Hin. apply (H7 _ Hin). rewrite H2. left.
  - cbn. intros id [->|Hin]%elem_of_cons; [done|]. intros Hs. apply (H7 _ Hin). by right.
Qed.

Lemma ok_panels raw fallback :
  raw <> [] -> ok (validatePanels lookup raw fallback) (fun ps => ps <> [] /\ Z.of_nat (length ps) <= 32 /\ Forall described ps /\ NoDup (pc_ID <$> ps)).
Proof.
  intros Hraw. unfold validatePanels. destruct (_ <? _) eqn:Hlen; [done|]. apply Z.ltb_ge in Hlen.
  eapply ok_mono; [apply ok_items|]. intros ps (H1 & H2 & H3 & _). split_and!; [|by rewrite H1|done|done].
  intros ->. by destruct raw.
Qed.

Definition good_panels (ps : list PanelConfig) : Prop :=
  ps <> [] /\ Z.of_nat (length ps) <= 32 /\ Forall described ps /\ NoDup (pc_ID <$> ps).

Lemma ok_legacy name : ok (legacyRequired lookup name) (fun v => has lookup "PANELS_CONFIG_FILE" || has lookup "PANELS_JSON" = false -> v <> "").
Proof. unfold legacyRequired. destruct (_ || _); [by apply ok_ret|]. eapply ok_mono; [apply ok_required|done]. Qed.

Lemma ok_panels_file path fallback : ok (parsePanelsFile lookup path fallback) good_panels.
Proof.
  unfold parsePanelsFile. destruct (panels_file path) as [| | |[|y l] []]; try done. apply ok_panels. done.
Qed.

Lemma ok_panels_text value fallback : ok (parsePanels lookup value fallback) good_panels.
Proof. unfold parsePanels. destruct (panels_json value) as [|[|y l] []]; try done. by apply ok_panels. Qed.

(** The one panel of the variables of a deployment without a list. *)
Lemma good_single url token ip dnsURL dnsToken cloudflare :
  token <> "" -> IsValid ip = true -> dnsToken <> "" -> cloudflare <> "" ->
  good_panels [mkPanelConfig "default" "Default" url token ip DNSModeEnabled dnsURL dnsToken cloudflare].
Proof.
  intros H1 H2 H3 H4. split_and!; [done|done| |apply NoDup_singleton]. apply Forall_singleton. intros Hu Hd. cbn in *.
  split; cbn; auto.
Qed.

Lemma ok_optional_ip name value : ok (ip_setting name value) (fun ip => value <> "" -> IsValid ip = true).
Proof. destruct (decide (value = "")) as [->|Hv]; [by intros _ Hn|]. eapply ok_mono; [by apply ok_ip|done]. Qed.

Lemma ok_each {A} (f : A -> W unit) (Q : A -> Prop) l : (forall x, ok (f x) (fun _ => Q x)) -> ok (each f l) (fun _ => Forall Q l).
Proof.
  intros Hf. induction l as [|x l IH]; cbn [each]; [by apply ok_ret|].
  eapply ok_bind; [apply Hf|]. intros u Hx. eapply ok_mono; [exact IH|]. intros v Hl. by constructor.
Qed.

Definition url_fine (entry : string * string) : Prop :=
  snd entry <> "" -> validURL (snd entry) (String.eqb (fst entry) "DATABASE_URL") = true.

Lemma ok_url entry : ok (url_error entry) (fun _ => url_fine entry).
Proof.
  destruct entry as [name value]. eapply ok_mono; [apply ok_complain|]. intros [] Hc Hv%String.eqb_neq. cbn in *.
  rewrite Hv in Hc. by apply negb_false_iff.
Qed.

Lemma ok_urls l : ok (each url_error (range_urls l)) (fun _ => Forall url_fine l).
Proof. eapply ok_mono; [apply ok_each, ok_url|]. intros w Hf. cbn in Hf. by rewrite (range_urls_perm l) in Hf. Qed.

Lemma ok_panel_urls index ps : Forall described ps -> ok (panel_url_errors index ps) (fun _ => Forall valid_panel ps).
Proof.
  intros Hd. revert index. induction Hd as [|p ps Hp _ IH]; intros index; cbn [panel_url_errors]; [by apply ok_ret|].
  eapply ok_bind; [apply ok_complain|]. intros u Hu%negb_false_iff. eapply ok_bind; [apply ok_complain|]. intros v Hv.
  eapply ok_mono; [apply IH|]. intros w Hl. constructor; [|done]. apply Hp; [done|]. intros Hm. rewrite Hm in Hv. cbn in Hv.
  by apply negb_false_iff.
Qed.

Lemma text_setting_nonempty name fallback : fallback <> "" -> text_setting lookup name fallback <> "".
Proof. intros Hf. unfold text_setting. destruct (String.eqb _ "") eqn:E; [done|]. by apply String.eqb_neq. Qed.

Definition timings (c : Config) : list Z :=
  [c_HTTPTimeout c; c_SSHConnectTimeout c; c_SSHCommandTimeout c; c_NodeConnectTimeout c; c_TelegramPollTimeout c; c_TelegramSessionTTL c;
   c_NodeMonitorInterval c; c_NodeCriticalAlertInterval c; c_CertificateRenewBefore c; c_CertificateRenewInterval c;
   c_CertificateIssueTimeout c; c_DNSPropagationTimeout c; c_DNSPropagationInterval c].

Record valid_config (c : Config) : Prop := {
  vc_panels : c_Panels c <> [] /\ Z.of_nat (length (c_Panels c)) <= 32;
  vc_distinct : NoDup (pc_ID <$> c_Panels c);
  vc_each_panel : Forall valid_panel (c_Panels c);
  vc_secrets : c_TelegramBotToken c <> "" /\ c_DeploySSHPrivateKey c <> "" /\ c_CertificateStorePath c <> "" /\ c_HealthAddr c <> "";
  vc_users : c_TelegramAllowedUsers c <> [] /\ NoDup (c_TelegramAllowedUsers c) /\ Forall (fun u => 0 < u) (c_TelegramAllowedUsers c);
  vc_metrics : IsValid (c_MetricsIP c) = true;
  vc_database : validURL (c_DatabaseURL c) true = true;
  vc_directory : validURL (c_ACMEDirectoryURL c) false = true;
  vc_email : mail_ParseAddress (c_ACMEEmail c) = Some (c_ACMEEmail c);
  vc_repository : validXraySNIRepositoryURL (c_XraySNIRepoURL c) = true /\ validPinnedRef (c_XraySNIRef c) = true;
  vc_timings : Forall (fun d => 0 < d) (timings c);
  vc_limits : 0 < c_MaxConcurrentDeployments c <= 100 /\ 0 < c_MaxCertificateDistributions c <= 32 /\
              0 < c_NodeMonitorConfirmations c <= 10 /\ 0 < c_NodeCriticalOnlineThreshold c <= 100000
}.

Ltac setting :=
  eapply ok_bind; [first [apply ok_required | apply ok_legacy | apply ok_duration; done | apply ok_integer; done | apply ok_optional_ip
    | apply ok_complain | apply ok_urls]|].

Lemma ok_users_setting value :
  value <> "" -> ok (if String.eqb value "" then mret [] else parseAllowedUsers value) (fun us => us <> [] /\ NoDup us /\ Forall (fun u => 0 < u) us).
Proof. intros ->%String.eqb_neq. apply ok_users. Qed.

(** C39. A configuration the program starts with is complete and consistent,
    whatever the environment and the panels file hold: 1 to 32 panels with
    distinct valid identifiers, each with its own panel address, token, API
    address and Cloudflare token, and a balancer address and token when its
    DNS is enabled; nobody but positive, distinct Telegram users; a pinned
    revision of a credential-free repository; every timeout and limit
    positive and within its maximum. Otherwise [load] returns the list of
    everything that is wrong. *)
Theorem loaded_configuration_is_valid c : load lookup = Ok c -> valid_config c.
Proof.
  assert (ok (load_config lookup) valid_config) as Hok.
  { unfold load_config. cbv zeta.
    setting. intros _ _. setting. intros bot Hbot. setting. intros rurl _. setting. intros rtok Hrtok. setting. intros durl _.
    setting. intros dtok Hdtok. setting. intros cf Hcf. setting. intros email Hemail. setting. intros db Hdb. setting. intros key Hkey.
    setting. intros iptext Hiptext. setting. intros ip Hip.
    eapply (ok_bind _ _ good_panels).
    { destruct (has lookup "PANELS_CONFIG_FILE"); [apply ok_panels_file|]. destruct (has lookup "PANELS_JSON"); [apply ok_panels_text|].
      apply ok_ret, good_single; auto. }
    intros ps (Hps & Hlen & Hdesc & Hdup).
    do 13 (setting; intros ? ?). do 4 (setting; intros ? ?). setting. intros ut Hut.
    eapply ok_bind; [by apply ok_users_setting|]. intros us Hus. setting. intros mt Hmt. setting. intros mip Hmip.
    setting. intros ? Hurls. eapply ok_bind; [by apply ok_panel_urls|]. intros ? Hpanels.
    setting. intros ? Hmail%negb_false_iff%bool_decide_eq_true. setting. intros ? Hrepo%negb_false_iff. setting. intros ? Href%negb_false_iff.
    apply ok_ret. cbn beta in Hurls. rewrite !Forall_cons in Hurls. destruct Hurls as (_ & _ & _ & Hu1 & Hu2 & _).
    split; cbn [c_Panels c_TelegramBotToken c_DeploySSHPrivateKey c_CertificateStorePath c_HealthAddr c_TelegramAllowedUsers c_MetricsIP
      c_DatabaseURL c_ACMEDirectoryURL c_ACMEEmail c_XraySNIRepoURL c_XraySNIRef]; auto.
    - split_and!; auto; by apply text_setting_nonempty.
    - apply Hu2. by apply text_setting_nonempty.
    - unfold timings. repeat constructor; assumption. }
  unfold load. destruct (load_config lookup) as [[|e es] c']; [|done]. intros [= ->]. by apply Hok.
Qed.
End Guarantees.

(** ** A concrete environment *)
#[local] Instance sample_library : ConfigLibrary.
Proof. refine (Build_ConfigLibrary (fun _ => FileInvalid) (fun _ => TextInvalid) Some (fun l => l) _). done. Defined.
#[local] Instance sample_fractions : FloatFraction := fun _ _ _ => 0.
#[local] Instance sample_printable : UnicodePrint := fun _ => true.

Definition sample_environment (name : string) : option string :=
  (list_to_map [("TELEGRAM_BOT_TOKEN", "bot"); ("REMNAWAVE_URL", "https://panel.test"); ("REMNAWAVE_TOKEN", "t"); ("DNS_BALANCER_URL", "http://dns.test");
   ("DNS_BALANCER_TOKEN", "d"); ("CF_API_TOKEN", "c"); ("ACME_EMAIL", "a@b.c"); ("DATABASE_URL", "postgres://h/db");
   ("DEPLOY_SSH_PRIVATE_KEY", "k"); ("REMNA_API_IP", "10.0.0.1"); ("TELEGRAM_ALLOWED_USERS", "5, 7;5"); ("METRICS_IP", "10.0.0.2");
   ("HTTP_TIMEOUT", "90s"); ("MAX_CONCURRENT_DEPLOYMENTS", "100")] : gmap string string) !! name.

Lemma loaded_configuration_is_valid_witness : exists c, load sample_environment = Ok c /\ valid_config c.
Proof.
  eexists. split; [vm_compute; reflexivity|]. apply (loaded_configuration_is_valid sample_environment). vm_compute. reflexivity.
Defined.
