(* ===== verification/Logging.v ===== *)
(** * Redaction of the log ([internal/logging/logging.go])

    Every attribute of a record, its message included, passes [replaceAttr]
    before it is written; the JSON encoding of the records is the library. *)

From S2P Require Import Prelude GoStrings Unicode GoText.

#[local] Open Scope Z_scope.

(** An attribute's value: [AttrAny] is of kind Any, with the text of its error
    when it is one, and [AttrOther] of every other kind; both with the text
    the handler writes for a value it is given unchanged. *)
Inductive attrValue : Type :=
  | AttrString (text : string)
  | AttrAny (error : option string) (written : string)
  | AttrOther (written : string).
Record Attr : Type := mkAttr { a_Key : string; a_Value : attrValue }.

(** [strings.ReplaceAll] of a text that is not empty. *)
Fixpoint cut_at (sep s : string) : option (string * string) :=
  if HasPrefix s sep then Some ("", str_drop (String.length sep) s)
  else match s with
       | EmptyString => None
       | String a s' => match cut_at sep s' with Some (x, y) => Some (String a x, y) | None => None end
       end.

Fixpoint replace_all (fuel : nat) (s old new : string) : string :=
  match fuel with
  | O => s
  | S fuel => match cut_at old s with None => s | Some (before, after) => before +:+ new +:+ replace_all fuel after old new end
  end.

Definition ReplaceAll (s old new : string) : string := replace_all (S (String.length s)) s old new.

Definition marker : string := "[REDACTED]".
Definition secret_keys : list string := ["token"; "password"; "private_key"; "secret"; "database_url"; "authorization"].

(** The secrets of [NewWithSecrets] that are not blank. *)
Definition filtered (secrets : list string) : list string := List.filter (fun secret => negb (String.eqb (TrimSpace secret) "")) secrets.

Definition redact (secrets : list string) (value : string) : string :=
  fold_left (fun value secret => ReplaceAll value secret marker) (filtered secrets) value.

(** The local [value]: the text of a string or an error. *)
Definition text_of (value : attrValue) : string :=
  match value with
  | AttrString text => text
  | AttrAny (Some error) _ => error
  | _ => ""
  end.

Definition secret_key (key : string) : bool := existsb (Contains (ToLower key)) secret_keys.

(** The function [ReplaceAttr] of the handler. *)
Definition replaceAttr (secrets : list string) (attribute : Attr) : Attr :=
  if secret_key (a_Key attribute) then mkAttr (a_Key attribute) (AttrString marker)
  else
    let value := text_of (a_Value attribute) in
    if String.eqb value "" then attribute else mkAttr (a_Key attribute) (AttrString (redact secrets value)).

(** ** Occurrences *)
Definition occurs_in (p s : string) : Prop := exists a b, s = a +:+ p +:+ b.

Lemma HasPrefix_spec s p : HasPrefix s p = true <-> exists t, s = p +:+ t.
Proof.
  revert s. induction p as [|b p IH]; intros s; [by split; [exists s; rewrite string_app_nil|destruct s]|].
  destruct s as [|a s]; cbn; [split; [done|by intros [t Ht]]|]. rewrite andb_true_iff, IH. split.
  - intros [->%Ascii.eqb_eq [t ->]]. exists t. by rewrite string_app_cons.
  - intros [t Ht]. rewrite string_app_cons in Ht. injection Ht as -> ->. split; [apply Ascii.eqb_refl|by exists t].
Qed.

Lemma occurs_cons p a s : occurs_in p (String a s) <-> HasPrefix (String a s) p = true \/ occurs_in p s.
Proof.
  split.
  - intros ([|c x] & y & Hs).
    + left. apply HasPrefix_spec. rewrite string_app_nil in Hs. by exists y.
    + right. rewrite string_app_cons in Hs. injection Hs as -> ->. by exists x, y.
  - intros [[t Ht]%HasPrefix_spec|(x & y & ->)].
    + exists "", t. by rewrite string_app_nil.
    + exists (String a x), y. by rewrite string_app_cons.
Qed.

Lemma occurs_trans p q s : occurs_in p q -> occurs_in q s -> occurs_in p s.
Proof.
  intros (a & b & ->) (c & d & ->). exists (c +:+ a), (b +:+ d). by rewrite !string_app_assoc.
Qed.

Lemma cut_at_None sep s : cut_at sep s = None -> ~ occurs_in sep s.
Proof.
  induction s as [|a s IH].
  - cbn. destruct sep; [done|]. intros _ (x & y & Hs). destruct x; [by rewrite string_app_nil in Hs|done].
  - cbn [cut_at]. destruct (HasPrefix _ _) eqn:Hp; [done|]. destruct (cut_at sep s) as [[]|]; [done|]. intros _ Ho.
    apply occurs_cons in Ho as [Ho|Ho]; [by rewrite Hp in Ho|by apply IH].
Qed.

Lemma cut_at_Some sep s before after :
  sep <> "" -> cut_at sep s = Some (before, after) -> s = before +:+ sep +:+ after /\ ~ occurs_in sep before.
Proof.
  intros Hsep. revert before. induction s as [|a s IH]; intros before.
  - cbn. destruct sep; [done|]. done.
  - cbn [cut_at]. destruct (HasPrefix _ _) eqn:Hp.
    + intros [= <- <-]. apply HasPrefix_spec in Hp as [t Ht]. split.
      * rewrite Ht, string_app_nil. pose proof (str_drop_app sep t 0) as Hd. rewrite Nat.add_0_r in Hd. rewrite Hd. by destruct t.
      * intros (x & y & Hs). destruct x; [|done]. rewrite string_app_nil in Hs. by destruct sep.
    + destruct (cut_at sep s) as [[x y]|]; [|done]. intros [= <- <-]. destruct (IH x eq_refl) as [-> Hx].
      split; [by rewrite string_app_cons|]. intros [Ho|Ho]%occurs_cons; [|done].
      apply not_true_iff_false in Hp. apply Hp, HasPrefix_spec. apply HasPrefix_spec in Ho as [t Ht].
      exists (t +:+ sep +:+ y). rewrite <-(string_app_assoc sep t), <-Ht. by rewrite string_app_cons.
Qed.

(** A text without the byte [c] does not reach across it. *)
Lemma prefix_before c x y p t :
  str_exists (Ascii.eqb c) p = false -> x +:+ String c y = p +:+ t -> exists b, x = p +:+ b.
Proof.
  revert p. induction x as [|a x IH]; intros [|b p] Hc Hs.
  - by exists "".
  - rewrite string_app_nil, string_app_cons in Hs. injection Hs as <- _. cbn in Hc. by rewrite Ascii.eqb_refl in Hc.
  - exists (String a x). by rewrite string_app_nil.
  - rewrite !string_app_cons in Hs. injection Hs as -> Hs. cbn in Hc. apply orb_false_iff in Hc as [_ Hc].
    destruct (IH p Hc Hs) as [b' ->]. exists b'. by rewrite string_app_cons.
Qed.

Lemma occurs_split p x c y :
  str_exists (Ascii.eqb c) p = false -> p <> "" -> occurs_in p (x +:+ String c y) -> occurs_in p x \/ occurs_in p y.
Proof.
  intros Hc Hp. induction x as [|a x IH].
  - rewrite string_app_nil. intros [Ho|Ho]%occurs_cons; [|by right].
    destruct p as [|b p]; [done|]. cbn in Ho, Hc. apply orb_false_iff in Hc as [Hc _]. apply andb_true_iff in Ho as [Ho _].
    by rewrite Ascii.eqb_sym, Hc in Ho || rewrite Ho in Hc.
  - rewrite string_app_cons. intros [Ho|Ho]%occurs_cons.
    + left. apply HasPrefix_spec in Ho as [t Ht]. rewrite <-string_app_cons in Ht.
      destruct (prefix_before c (String a x) y p t Hc Ht) as [b ->]. exists "", b. by rewrite string_app_nil.
    + destruct (IH Ho) as [H|H]; [left; apply occurs_cons; by right|by right].
Qed.

(** A secret the marker cannot hide or complete: no brackets, and longer than
    its word. *)
Definition maskable (secret : string) : bool :=
  negb (str_exists (Ascii.eqb "[") secret) && negb (str_exists (Ascii.eqb "]") secret) && (8 <? str_len secret).

Lemma occurs_length p s : occurs_in p s -> (String.length p <= String.length s)%nat.
Proof. intros (a & b & ->). rewrite !string_length_app. lia. Qed.

Lemma not_across_marker p x y : maskable p = true -> ~ occurs_in p x -> ~ occurs_in p y -> ~ occurs_in p (x +:+ marker +:+ y).
Proof.
  unfold maskable. rewrite !andb_true_iff, !negb_true_iff, Z.ltb_lt. unfold str_len. intros [[Ho Hc] Hlen] Hx Hy H.
  assert (p <> "") as Hp by by intros ->.
  change (marker +:+ y) with (String "[" (("REDACTED" +:+ String "]" y))) in H.
  apply occurs_split in H as [H|H]; [done| |done|done].
  apply occurs_split in H as [H|H]; [|done|done|done]. apply occurs_length in H. cbn in H. lia.
Qed.

Lemma maskable_nonempty p : maskable p = true -> p <> "".
Proof. by intros H ->. Qed.

(** A replacement removes its secret and lets no other secret appear. *)
Lemma replace_all_masks fuel s old p :
  (String.length s < fuel)%nat -> old <> "" -> maskable p = true -> (p = old \/ ~ occurs_in p s) -> ~ occurs_in p (replace_all fuel s old marker).
Proof.
  revert s. induction fuel as [|fuel IH]; intros s Hf Hold Hm Hp; [lia|]. cbn [replace_all].
  destruct (cut_at old s) as [[x y]|] eqn:Hcut; cycle 1.
  { destruct Hp as [->|Hp]; [by apply cut_at_None|done]. }
  apply cut_at_Some in Hcut as [-> Hx]; [|done]. apply not_across_marker; [done| |].
  - destruct Hp as [->|Hp]; [done|]. intros Ho. apply Hp. eapply occurs_trans; [exact Ho|]. exists "", (old +:+ y). by rewrite string_app_nil.
  - apply IH; [|done|done|].
    + rewrite !string_length_app in Hf. destruct old; [done|cbn in Hf; lia].
    + destruct Hp as [->|Hp]; [by left|right]. intros Ho. apply Hp. eapply occurs_trans; [exact Ho|].
      exists (x +:+ old), "". by rewrite string_app_assoc, string_app_nil_r.
Qed.

Lemma redacts_all secrets value p :
  maskable p = true -> Forall (fun s => s <> "") secrets -> (p ∈ secrets \/ ~ occurs_in p value) ->
  ~ occurs_in p (fold_left (fun value secret => ReplaceAll value secret marker) secrets value).
Proof.
  intros Hm Hs. revert value. induction Hs as [|s secrets Hs _ IH]; intros value Hp; cbn [fold_left].
  { destruct Hp as [Hp|Hp]; [by apply not_elem_of_nil in Hp|done]. }
  apply IH. destruct Hp as [[->|Hp]%elem_of_cons|Hp]; [right|by left|right]; apply replace_all_masks; auto; lia.
Qed.

(** The text written for an attribute. *)
Definition logged (a : Attr) : string :=
  match a_Value a with AttrString text => text | AttrAny _ written | AttrOther written => written end.

(** A string, or an error with a text or written by its text. *)
Definition string_or_error (value : attrValue) : Prop :=
  match value with
  | AttrString _ => True
  | AttrAny (Some error) written => error <> "" \/ written = error
  | _ => False
  end.

(** C38. No configured secret is logged in a text or an error: whatever they
    hold, what is written for such an attribute contains none of the secrets
    given to [NewWithSecrets] that are longer than the word of the marker and
    have no brackets.  An attribute of any kind whose key names a secret is
    replaced altogether.  Nothing else is touched: a value of another kind
    (and an empty text) under another key is written as it is. *)
Theorem secrets_are_not_logged (secrets : list string) (attribute : Attr) (secret : string) :
  secret ∈ secrets -> maskable secret = true -> TrimSpace secret <> "" ->
  (string_or_error (a_Value attribute) -> ~ occurs_in secret (logged (replaceAttr secrets attribute))) /\
  (secret_key (a_Key attribute) = true ->
    a_Value (replaceAttr secrets attribute) = AttrString marker /\ ~ occurs_in secret (logged (replaceAttr secrets attribute))) /\
  (secret_key (a_Key attribute) = false -> text_of (a_Value attribute) = "" -> replaceAttr secrets attribute = attribute).
Proof.
  intros Hin Hm Ht. pose proof (maskable_nonempty _ Hm) as Hne.
  assert (forall s, (String.length s < String.length secret)%nat -> ~ occurs_in secret s) as Hshort by (intros s Hs Ho%occurs_length; lia).
  assert (~ occurs_in secret marker) as Hmark.
  { rewrite <-(string_app_nil marker), <-(string_app_nil_r marker). apply not_across_marker; [done|..]; apply Hshort; (destruct secret; [done|cbn; lia]). }
  unfold replaceAttr. destruct (secret_key _) eqn:Hk; [by split_and!|]. split_and!; [|done|by intros _ ->].
  cbv zeta. intros Htext. destruct (String.eqb (text_of _) "") eqn:Hv.
  - apply String.eqb_eq in Hv. destruct attribute as [key [text|[error|] written|written]]; try done; cbn in *; subst.
    + apply Hshort. destruct secret; [done|cbn; lia].
    + destruct Htext as [?| ->]; [done|]. apply Hshort. destruct secret; [done|cbn; lia].
  - cbn [logged a_Value]. unfold redact. apply redacts_all; [done| |].
    + apply Forall_forall. intros s [Hs Hs']%list_elem_of_In%filter_In. apply negb_true_iff, String.eqb_neq in Hs'. by intros ->.
    + left. apply list_elem_of_In, filter_In. split; [by apply list_elem_of_In|]. by apply negb_true_iff, String.eqb_neq.
Qed.

Lemma secrets_are_not_logged_witness :
  let secrets := ["bot-token-1"; "dns-token-2"] in
  let attribute := mkAttr "error" (AttrAny (Some "GET /botbot-token-1/dns-token-2") "GET /botbot-token-1/dns-token-2") in
  replaceAttr secrets attribute = mkAttr "error" (AttrString "GET /bot[REDACTED]/[REDACTED]") /\
  ~ occurs_in "dns-token-2" (logged (replaceAttr secrets attribute)).
Proof.
  split; [by vm_compute|].
  refine (proj1 (secrets_are_not_logged ["bot-token-1"; "dns-token-2"] _ "dns-token-2" _ _ _) _); [set_solver|by vm_compute|by vm_compute|].
  cbn. by left.
Defined.

(** A secret inside a value of kind Any that is no error is written. *)
Lemma other_values_are_not_redacted :
  occurs_in "bot-token-1" (logged (replaceAttr ["bot-token-1"] (mkAttr "args" (AttrAny None "[bot-token-1 x]")))).
Proof. by exists "[", " x]". Qed.

(** The secrets are replaced in the order given: of one that begins with
    another the rest stays. *)
Lemma longer_secret_is_cut_short :
  logged (replaceAttr ["panel-key"; "panel-key-full"] (mkAttr "msg" (AttrString "key panel-key-full"))) = "key [REDACTED]-full".
Proof. by vm_compute. Qed.
