(* ===== verification/Http.v ===== *)
(** * Outcomes of HTTP requests

    What a client can observe of one request whose response body is decoded
    as JSON into a value of type [R]. *)

From S2P Require Import Prelude.

(** [json.Decoder]: malformed, followed by a second value, or one value. *)
Inductive jsonBody (R : Type) : Type :=
  | BodyInvalid
  | BodyTrailing
  | BodyValue (v : R).
Arguments BodyInvalid {R}.
Arguments BodyTrailing {R}.
Arguments BodyValue {R} v.

Inductive httpOutcome (R : Type) : Type :=
  | TransportFailed
  | Response (status : Z) (body : jsonBody R).
Arguments TransportFailed {R}.
Arguments Response {R} status body.
