(* ===== verification/Deployment.v ===== *)
(** * Deployment domain types ([internal/deployment/deployment.go])

    The status of a deployment job and of its steps, the persisted records,
    and the generation of RFC 4122 version 4 identifiers. *)

From S2P Require Import Prelude GoStrings NetIP.

#[local] Open Scope Z_scope.

(** ** Status *)
Inductive Status : Type :=
  | StatusCreated
  | StatusPreflight
  | StatusPreparingCertificate
  | StatusProvisioning
  | StatusCreatingRemnawave
  | StatusWaitingRemnawave
  | StatusAddingToDNS
  | StatusCompleted
  | StatusFailed
  | StatusCancelled
  | StatusDNSFailed
  | StatusManualReview.

#[export] Instance Status_eq_dec : EqDecision Status.
Proof. solve_decision. Defined.

(** The persisted text of a status. *)
Definition status_text (s : Status) : string :=
  match s with
  | StatusCreated => "CREATED"
  | StatusPreflight => "PREFLIGHT"
  | StatusPreparingCertificate => "PREPARING_CERTIFICATE"
  | StatusProvisioning => "PROVISIONING"
  | StatusCreatingRemnawave => "CREATING_REMNAWAVE_NODE"
  | StatusWaitingRemnawave => "WAITING_REMNAWAVE"
  | StatusAddingToDNS => "ADDING_TO_DNS"
  | StatusCompleted => "COMPLETED"
  | StatusFailed => "FAILED"
  | StatusCancelled => "CANCELLED"
  | StatusDNSFailed => "DNS_FAILED"
  | StatusManualReview => "MANUAL_REVIEW"
  end.

Definition all_statuses : list Status :=
  [StatusCreated; StatusPreflight; StatusPreparingCertificate; StatusProvisioning;
   StatusCreatingRemnawave; StatusWaitingRemnawave; StatusAddingToDNS; StatusCompleted;
   StatusFailed; StatusCancelled; StatusDNSFailed; StatusManualReview].

(** [Status.Valid], on the text a caller may pass. *)
Definition Status_Valid (s : string) : bool :=
  existsb (fun st => String.eqb (status_text st) s) all_statuses.

(** [Status.Terminal]. *)
Definition Status_Terminal (s : Status) : bool :=
  match s with
  | StatusCompleted | StatusFailed | StatusCancelled | StatusDNSFailed | StatusManualReview => true
  | _ => false
  end.

Inductive StepStatus : Type :=
  | StepStatusPending
  | StepStatusRunning
  | StepStatusCompleted
  | StepStatusFailed
  | StepStatusSkipped.

#[export] Instance StepStatus_eq_dec : EqDecision StepStatus.
Proof. solve_decision. Defined.

Definition step_status_text (s : StepStatus) : string :=
  match s with
  | StepStatusPending => "PENDING"
  | StepStatusRunning => "RUNNING"
  | StepStatusCompleted => "COMPLETED"
  | StepStatusFailed => "FAILED"
  | StepStatusSkipped => "SKIPPED"
  end.

Definition all_step_statuses : list StepStatus :=
  [StepStatusPending; StepStatusRunning; StepStatusCompleted; StepStatusFailed; StepStatusSkipped].

(** [StepStatus.Valid] and [StepStatus.Terminal]. *)
Definition StepStatus_Valid (s : string) : bool :=
  existsb (fun st => String.eqb (step_status_text st) s) all_step_statuses.

Definition StepStatus_Terminal (s : StepStatus) : bool :=
  match s with
  | StepStatusCompleted | StepStatusFailed | StepStatusSkipped => true
  | _ => false
  end.

(** ** Records.  Timestamps are instants in nanoseconds. *)
Record Deployment : Type := mkDeployment {
  ID : string;
  PanelID : string;
  TelegramOperatorUserID : Z;
  SelectedRemnawaveHostUUID : string;
  SelectedHostRemark : string;
  SNIDomain : string;
  NodeName : string;
  TargetVPSIP : Addr;
  RemnawaveNodeUUID : option string;
  SSHHostKeyFingerprint : option string;
  status : Status;
  CurrentStep : string;
  SafeErrorCode : option string;
  SafeErrorMessage : option string;
  CreatedAt : Z;
  UpdatedAt : Z;
  StartedAt : option Z;
  CompletedAt : option Z
}.

Record Step : Type := mkStep {
  step_DeploymentID : string;
  step_Name : string;
  step_Status : StepStatus;
  step_SafeSummary : option string;
  step_ErrorMessage : option string;
  step_StartedAt : option Z;
  step_CompletedAt : option Z
}.

#[export] Instance Deployment_eq_dec : EqDecision Deployment.
Proof. solve_decision. Defined.
#[export] Instance Step_eq_dec : EqDecision Step.
Proof. solve_decision. Defined.

(** ** Identifiers *)

(** [hex.Encode] of one byte. *)
Definition hex_byte (b : Z) : string :=
  String (hex_digit (Z.shiftr b 4)) (String (hex_digit (Z.land b 15)) "").

Definition hex_encode (l : list Z) : string := foldr (fun b s => hex_byte b +:+ s) "" l.

(** [NewID] from the sixteen bytes read from [crypto/rand]; a read error is
    returned as it is. *)
Definition NewID (random : result string (list Z)) : result string string :=
  value ← random;
  let value := <[6%nat := Z.lor (Z.land (value !!! 6%nat) 15) 64]> value in
  let value := <[8%nat := Z.lor (Z.land (value !!! 8%nat) 63) 128]> value in
  Ok (hex_encode (take 4 value) +:+ "-" +:+
      hex_encode (take 2 (drop 4 value)) +:+ "-" +:+
      hex_encode (take 2 (drop 6 value)) +:+ "-" +:+
      hex_encode (take 2 (drop 8 value)) +:+ "-" +:+
      hex_encode (take 6 (drop 10 value))).

(** [hex.Decode] succeeds: an even number of hexadecimal digits. *)
Definition hex_decodes (s : string) : bool :=
  Nat.even (String.length s) && negb (str_exists (fun a => bool_decide (hex_val a = None)) s).

(** [validUUID] of [repository/postgres] and, with the same body, of
    [remnawave]: 36 bytes, four dashes in place, and the bytes left when every
    dash is removed decode. *)
Definition byte_at (s : string) (i : nat) : ascii := default zero (String.get i s).

Definition validUUID (value : string) : bool :=
  if negb (str_len value =? 36) || negb (Ascii.eqb (byte_at value 8) "-") ||
     negb (Ascii.eqb (byte_at value 13) "-") || negb (Ascii.eqb (byte_at value 18) "-") ||
     negb (Ascii.eqb (byte_at value 23) "-")
  then false
  else hex_decodes (replace_byte_str "-" "" value).

(** ** Lemmas *)
Lemma status_text_inj s t : status_text s = status_text t -> s = t.
Proof. by destruct s, t. Qed.

Lemma all_statuses_complete s : s ∈ all_statuses.
Proof. apply list_elem_of_In. destruct s; simpl; tauto. Qed.

(** Every property of a hexadecimal byte is one of 256 cases. *)
Lemma byte_cases (P : Z -> Prop) b :
  0 <= b < 256 -> Forall P (seqZ 0 256) -> P b.
Proof. intros Hb H. rewrite Forall_forall in H. apply H, elem_of_seqZ. lia. Qed.

Definition hex_byte_ok (b : Z) : bool :=
  (String.length (hex_byte b) =? 2)%nat &&
  negb (str_exists (fun a => bool_decide (hex_val a = None)) (hex_byte b)) &&
  String.eqb (replace_byte_str "-" "" (hex_byte b)) (hex_byte b).

Lemma hex_byte_spec b : 0 <= b < 256 -> hex_byte_ok b = true.
Proof.
  intros Hb. apply (byte_cases (fun b => hex_byte_ok b = true)); [done|].
  apply Forall_forall. intros x Hx.
  assert (forallb hex_byte_ok (seqZ 0 256) = true) as H by by vm_compute.
  rewrite forallb_elem_of in H. auto.
Qed.

Lemma hex_byte_facts b :
  0 <= b < 256 ->
  String.length (hex_byte b) = 2%nat /\
  str_exists (fun a => bool_decide (hex_val a = None)) (hex_byte b) = false /\
  replace_byte_str "-" "" (hex_byte b) = hex_byte b.
Proof.
  intros Hb. pose proof (hex_byte_spec b Hb) as H. unfold hex_byte_ok in H.
  apply andb_true_iff in H as [H H3]. apply andb_true_iff in H as [H1 H2].
  apply Nat.eqb_eq in H1. apply negb_true_iff in H2. apply String.eqb_eq in H3. done.
Qed.

Lemma hex_encode_facts l :
  Forall (fun b => 0 <= b < 256) l ->
  String.length (hex_encode l) = (2 * length l)%nat /\
  str_exists (fun a => bool_decide (hex_val a = None)) (hex_encode l) = false /\
  replace_byte_str "-" "" (hex_encode l) = hex_encode l.
Proof.
  induction 1 as [|b l Hb Hl (IH1 & IH2 & IH3)]; [done|].
  destruct (hex_byte_facts b Hb) as (H1 & H2 & H3). cbn [hex_encode foldr].
  fold (hex_encode l). rewrite string_length_app, str_exists_app, replace_byte_str_app.
  rewrite H1, H2, H3, IH1, IH2, IH3. split; [simpl; lia|done].
Qed.

(** The bytes [NewID] overrides: the version and the variant. *)
Lemma version_byte b :
  0 <= b < 256 ->
  0 <= Z.lor (Z.land b 15) 64 < 256 /\ hex_digit (Z.shiftr (Z.lor (Z.land b 15) 64) 4) = "4"%char.
Proof.
  intros Hb. apply (byte_cases (fun b => 0 <= Z.lor (Z.land b 15) 64 < 256 /\
    hex_digit (Z.shiftr (Z.lor (Z.land b 15) 64) 4) = "4"%char)); [done|].
  apply Forall_forall. intros x Hx. apply elem_of_seqZ in Hx.
  assert (forallb (fun b => (0 <=? Z.lor (Z.land b 15) 64) && (Z.lor (Z.land b 15) 64 <? 256) &&
    Ascii.eqb (hex_digit (Z.shiftr (Z.lor (Z.land b 15) 64) 4)) "4") (seqZ 0 256) = true) as H
    by by vm_compute.
  rewrite forallb_elem_of in H. specialize (H x). rewrite elem_of_seqZ in H.
  specialize (H Hx). apply andb_true_iff in H as [H H3]. apply andb_true_iff in H as [H1 H2].
  apply Z.leb_le in H1. apply Z.ltb_lt in H2. apply Ascii.eqb_eq in H3. done.
Qed.

Lemma variant_byte b :
  0 <= b < 256 ->
  0 <= Z.lor (Z.land b 63) 128 < 256 /\
  hex_digit (Z.shiftr (Z.lor (Z.land b 63) 128) 4) ∈ ["8"; "9"; "a"; "b"]%char.
Proof.
  intros Hb. apply (byte_cases (fun b => 0 <= Z.lor (Z.land b 63) 128 < 256 /\
    hex_digit (Z.shiftr (Z.lor (Z.land b 63) 128) 4) ∈ ["8"; "9"; "a"; "b"]%char)); [done|].
  apply Forall_forall. intros x Hx. apply elem_of_seqZ in Hx.
  assert (forallb (fun b => (0 <=? Z.lor (Z.land b 63) 128) && (Z.lor (Z.land b 63) 128 <? 256) &&
    bool_decide (hex_digit (Z.shiftr (Z.lor (Z.land b 63) 128) 4) ∈ ["8"; "9"; "a"; "b"]%char))
    (seqZ 0 256) = true) as H by by vm_compute.
  rewrite forallb_elem_of in H. specialize (H x). rewrite elem_of_seqZ in H.
  specialize (H Hx). apply andb_true_iff in H as [H H3]. apply andb_true_iff in H as [H1 H2].
  apply Z.leb_le in H1. apply Z.ltb_lt in H2. apply bool_decide_eq_true in H3. done.
Qed.

#[local] Opaque hex_encode.

Ltac solve_bytes := repeat first [done | apply Forall_nil_2 | apply Forall_cons_2 | lia].

(** Five hexadecimal groups of the UUID layout form a valid UUID. *)
Lemma uuid_layout_valid b0 b1 b2 b3 b4 b5 b6 b7 b8 b9 b10 b11 b12 b13 b14 b15 :
  Forall (fun b => 0 <= b < 256) [b0;b1;b2;b3;b4;b5;b6;b7;b8;b9;b10;b11;b12;b13;b14;b15] ->
  validUUID (hex_encode [b0;b1;b2;b3] +:+ "-" +:+ hex_encode [b4;b5] +:+ "-" +:+
             hex_encode [b6;b7] +:+ "-" +:+ hex_encode [b8;b9] +:+ "-" +:+
             hex_encode [b10;b11;b12;b13;b14;b15]) = true.
Proof.
  intros H. destruct (hex_encode_facts _ H) as (Hlen & Hhex & _).
  assert (forall l, Forall (fun b => 0 <= b < 256) l ->
    replace_byte_str "-" "" (hex_encode l) = hex_encode l) as Hrep.
  { intros l Hl. by apply hex_encode_facts. }
  decompose_Forall_hyps.
  unfold validUUID. set (u := _ +:+ _).
  assert (replace_byte_str "-" "" u =
    hex_encode [b0;b1;b2;b3;b4;b5;b6;b7;b8;b9;b10;b11;b12;b13;b14;b15]) as ->.
  { subst u. rewrite !replace_byte_str_app, !Hrep by solve_bytes. Transparent hex_encode. reflexivity. }
  unfold hex_decodes. rewrite Hlen, Hhex. reflexivity.
Qed.

(** ** Properties *)

(** Sixteen random bytes always give a well-formed identifier: it is
    accepted by [validUUID], so every repository operation accepts it; it
    carries version 4 in its fifteenth character and the RFC 4122 variant in
    its twentieth. *)
Theorem new_id_is_uuid_v4 (l : list Z) :
  length l = 16%nat ->
  Forall (fun b => 0 <= b < 256) l ->
  exists id, NewID (Ok l) = Ok id /\ validUUID id = true /\
    byte_at id 14 = "4"%char /\ byte_at id 19 ∈ ["8"; "9"; "a"; "b"]%char.
Proof.
  intros Hlen Hl.
  do 16 (destruct l as [|? l]; [discriminate Hlen|]). destruct l; [|discriminate Hlen].
  decompose_Forall_hyps.
  eexists; split; [reflexivity|].
  cbn -[hex_byte Z.lor Z.land hex_digit validUUID byte_at].
  match goal with |- context [Z.lor (Z.land ?x 15) 64] => destruct (version_byte x) as [Hv Hv4]; [done|] end.
  match goal with |- context [Z.lor (Z.land ?x 63) 128] => destruct (variant_byte x) as [Hr Hr4]; [done|] end.
  split; [|split; [exact Hv4|exact Hr4]].
  apply uuid_layout_valid. solve_bytes.
Qed.

Lemma new_id_is_uuid_v4_witness :
  exists id, NewID (Ok [0;1;2;3;4;5;6;255;255;9;10;11;12;13;14;15]) = Ok id /\ validUUID id = true /\
    byte_at id 14 = "4"%char /\ byte_at id 19 ∈ ["8"; "9"; "a"; "b"]%char.
Proof.
  apply (new_id_is_uuid_v4 [0;1;2;3;4;5;6;255;255;9;10;11;12;13;14;15]); [reflexivity|].
  solve_bytes.
Defined.
