(* ===== verification/Remnawave.v ===== *)
(** * Remnawave API client ([internal/remnawave])

    The typed model of Hosts and Nodes ([models.go]), the validation of
    operator input and of the Host-to-Node mapping ([validation.go]), the
    decoding of responses ([wire.go]) and the client operations
    ([client.go]).  HTTP and JSON are the boundary: one call [HttpDo] is one
    request, answered by a transport failure or by a status and a decoded
    body. *)

From S2P Require Import Prelude GoStrings NetIP Effects Deployment Http.

#[local] Open Scope Z_scope.

(** ** Models *)
Record HostInbound : Type := mkHostInbound {
  ConfigProfileUUID : option string;
  ConfigProfileInboundUUID : option string
}.

Record Host : Type := mkHost {
  host_UUID : string;
  host_Remark : string;
  host_Address : string;
  host_SNI : option string;
  host_IsDisabled : bool;
  host_Inbound : HostInbound
}.

Record DeploymentProfile : Type := mkDeploymentProfile {
  prof_SNIDomain : string;
  prof_ActiveConfigProfileUUID : string;
  prof_ActiveInbounds : list string
}.

Record NodeConfigProfile : Type := mkNodeConfigProfile {
  ncp_ActiveConfigProfileUUID : string;
  ncp_ActiveInbounds : list string
}.

Record Node : Type := mkNode {
  node_UUID : string;
  node_Name : string;
  node_Address : string;
  node_Port : option Z;
  node_IsConnected : bool;
  node_IsConnecting : bool;
  node_IsDisabled : bool;
  node_LastStatusMessage : option string;
  node_LastStatusChange : option Z;
  node_ActiveConfigProfileUUID : option string;
  node_ActiveInboundUUIDs : list string
}.

Record NodeMetric : Type := mkNodeMetric {
  metric_NodeUUID : string;
  metric_NodeName : string;
  metric_UsersOnline : Z
}.

Record CreateNodeInput : Type := mkCreateNodeInput {
  cni_Name : string;
  cni_Address : Addr;
  cni_Host : Host
}.

Record UpdateNodeAddressInput : Type := mkUpdateNodeAddressInput {
  una_UUID : string;
  una_Address : Addr
}.

Record UpdateNodeProfileInput : Type := mkUpdateNodeProfileInput {
  unp_UUID : string;
  unp_Host : Host
}.

#[export] Instance HostInbound_eq_dec : EqDecision HostInbound.
Proof. solve_decision. Defined.
#[export] Instance Host_eq_dec : EqDecision Host.
Proof. solve_decision. Defined.
#[export] Instance Node_eq_dec : EqDecision Node.
Proof. solve_decision. Defined.
#[export] Instance DeploymentProfile_eq_dec : EqDecision DeploymentProfile.
Proof. solve_decision. Defined.

(** ** Errors.  [fmt.Errorf("...: %w", err)] keeps the identity of [err]. *)
Inductive remErr : Type :=
  | ErrInvalidHostProfile
  | ErrDuplicateNode (name address : bool)
  | ErrInvalidInput
  | ErrUnauthorized
  | ErrInvalidResponse
  | HTTPError (StatusCode : Z)
  | TransportError.

#[export] Instance remErr_eq_dec : EqDecision remErr.
Proof. solve_decision. Defined.

(** ** Validation *)
Definition present (v : option string) : bool :=
  match v with None => false | Some s => negb (String.eqb (TrimSpace s) "") end.

(** [DeploymentProfileFromHost]. *)
Definition DeploymentProfileFromHost (host : Host) : result remErr DeploymentProfile :=
  let address := TrimSpace (host_Address host) in
  if String.eqb address "" then Err ErrInvalidHostProfile
  else match ConfigProfileUUID (host_Inbound host) with
  | None => Err ErrInvalidHostProfile
  | Some profile =>
    if String.eqb (TrimSpace profile) "" then Err ErrInvalidHostProfile
    else match ConfigProfileInboundUUID (host_Inbound host) with
    | None => Err ErrInvalidHostProfile
    | Some inbound =>
      if String.eqb (TrimSpace inbound) "" then Err ErrInvalidHostProfile
      else
        let profileUUID := TrimSpace profile in
        let inboundUUID := TrimSpace inbound in
        if negb (validUUID profileUUID) || negb (validUUID inboundUUID) then Err ErrInvalidHostProfile
        else Ok (mkDeploymentProfile address profileUUID [inboundUUID])
    end
  end.

Definition validNodeName (name : string) : bool :=
  let length := RuneCountInString name in (3 <=? length) && (length <=? 30).

Definition ValidateNodeName (name : string) : option remErr :=
  if negb (validNodeName (TrimSpace name)) then Some ErrInvalidInput else None.

(** One step of the loop of [CheckNodeDuplicates]: the flags found so far. *)
Definition duplicate_flags (trimmedName : string) (address : Addr) (dup : bool * bool) (node : Node)
    : bool * bool :=
  let '(dname, daddr) := dup in
  (dname || String.eqb (TrimSpace (node_Name node)) trimmedName,
   daddr || match ParseAddr (TrimSpace (node_Address node)) with
            | Some nodeAddress => bool_decide (nodeAddress = address)
            | None => false
            end).

Definition CheckNodeDuplicates (nodes : list Node) (name : string) (address : Addr) : option remErr :=
  let trimmedName := TrimSpace name in
  if bool_decide (ValidateNodeName trimmedName <> None) || negb (IsValid address)
  then Some ErrInvalidInput
  else
    let '(dname, daddr) := foldl (duplicate_flags trimmedName address) (false, false) nodes in
    if dname || daddr then Some (ErrDuplicateNode dname daddr) else None.

(** [DuplicateError.Error]. *)
Definition DuplicateError_Error (name address : bool) : string :=
  if name && address then "duplicate Remnawave Node name and address"
  else if name then "duplicate Remnawave Node name"
  else "duplicate Remnawave Node address".

(** ** Wire format: JSON objects with nullable members *)
Record hostInboundWire : Type := mkHostInboundWire {
  hiw_configProfileUuid : option string;
  hiw_configProfileInboundUuid : option string
}.

Record hostWire : Type := mkHostWire {
  hw_uuid : option string;
  hw_remark : option string;
  hw_address : option string;
  hw_sni : option string;
  hw_isDisabled : option bool;
  hw_inbound : option hostInboundWire
}.

Definition hostWire_model (h : hostWire) : result remErr Host :=
  match h with
  | mkHostWire (Some uuid) (Some remark) (Some address) sni (Some disabled) (Some inbound) =>
    if negb (validUUID uuid) || String.eqb address "" then Err ErrInvalidResponse
    else Ok (mkHost uuid remark address sni disabled
      (mkHostInbound (hiw_configProfileUuid inbound) (hiw_configProfileInboundUuid inbound)))
  | _ => Err ErrInvalidResponse
  end.

Record nodeMetricWire : Type := mkNodeMetricWire {
  nmw_nodeUuid : option string;
  nmw_nodeName : option string;
  nmw_usersOnline : option Z
}.

Definition nodeMetricWire_model (m : nodeMetricWire) : result remErr NodeMetric :=
  match m with
  | mkNodeMetricWire (Some uuid) (Some name) (Some online) =>
    if negb (validUUID uuid) || String.eqb name "" || (online <? 0) then Err ErrInvalidResponse
    else Ok (mkNodeMetric uuid name online)
  | _ => Err ErrInvalidResponse
  end.

Record nodeConfigProfileWire : Type := mkNodeConfigProfileWire {
  ncw_activeConfigProfileUuid : option string;
  ncw_activeInbounds : list string
}.

Record nodeWire : Type := mkNodeWire {
  nw_uuid : option string;
  nw_name : option string;
  nw_address : option string;
  nw_port : option Z;
  nw_isConnected : option bool;
  nw_isDisabled : option bool;
  nw_isConnecting : option bool;
  nw_lastStatusChange : option Z;
  nw_lastStatusMessage : option string;
  nw_configProfile : nodeConfigProfileWire
}.

Definition nodeWire_model (n : nodeWire) : result remErr Node :=
  match nw_uuid n, nw_name n, nw_address n, nw_isConnected n, nw_isDisabled n, nw_isConnecting n with
  | Some uuid, Some name, Some address, Some connected, Some disabled, Some connecting =>
    if negb (validUUID uuid) || String.eqb name "" || String.eqb address "" then Err ErrInvalidResponse
    else Ok (mkNode uuid name address (nw_port n) connected connecting disabled
      (nw_lastStatusMessage n) (nw_lastStatusChange n)
      (ncw_activeConfigProfileUuid (nw_configProfile n)) (ncw_activeInbounds (nw_configProfile n)))
  | _, _, _, _, _, _ => Err ErrInvalidResponse
  end.

(** Request bodies. *)
Record createNodeRequest : Type := mkCreateNodeRequest {
  cnr_name : string;
  cnr_address : string;
  cnr_port : Z;
  cnr_configProfile : NodeConfigProfile
}.

Record updateNodeAddressRequest : Type := mkUpdateNodeAddressRequest {
  unar_uuid : string;
  unar_address : string
}.

Record updateNodeProfileRequest : Type := mkUpdateNodeProfileRequest {
  unpr_uuid : string;
  unpr_configProfile : NodeConfigProfile
}.

Inductive requestBody : Type :=
  | NoBody
  | CreateBody (r : createNodeRequest)
  | UpdateAddressBody (r : updateNodeAddressRequest)
  | UpdateProfileBody (r : updateNodeProfileRequest).

(** ** HTTP *)
(** The response types the client decodes, one per endpoint. *)
Inductive respType : Type := HostsResponse | KeyResponse | NodesResponse | MetricsResponse
  | NodeResponse | DeletedResponse.

Definition resp (t : respType) : Type :=
  match t with
  | HostsResponse => option (list hostWire)
  | KeyResponse => option (option string)
  | NodesResponse => option (list nodeWire)
  | MetricsResponse => option (option (list nodeMetricWire))
  | NodeResponse => option nodeWire
  | DeletedResponse => option (option bool)
  end.

Inductive remHttp : Type -> Type :=
  | HttpDo (t : respType) (method path : string) (body : requestBody) : remHttp (httpOutcome (resp t)).

Definition nodePort : Z := 2222.

(** [Client.doJSON]: the request, then the reading of its outcome. *)
Definition read_outcome {R} (expectedStatus : Z) (out : httpOutcome R) : result remErr R :=
  match out with
  | TransportFailed => Err TransportError
  | Response status b =>
    if (status =? 401) || (status =? 403) then Err ErrUnauthorized
    else if negb (status =? expectedStatus) then Err (HTTPError status)
    else match b with
    | BodyInvalid | BodyTrailing => Err ErrInvalidResponse
    | BodyValue v => Ok v
    end
  end.

Definition doJSON (t : respType) (method path : string) (body : requestBody) (expectedStatus : Z)
    : prog remHttp (result remErr (resp t)) :=
  out ← call (HttpDo t method path body);
  mret (read_outcome expectedStatus out).

(** The loop that decodes a list, failing on its first bad element. *)
Fixpoint models {W M} (model : W -> result remErr M) (l : list W) : result remErr (list M) :=
  match l with
  | [] => Ok []
  | w :: l' =>
    match model w with
    | Err _ => Err ErrInvalidResponse
    | Ok m => ms ← models model l'; Ok (m :: ms)
    end
  end.

Definition GetHosts : prog remHttp (result remErr (list Host)) :=
  r ← doJSON HostsResponse "GET" "/api/hosts" NoBody 200;
  mret (body ← r; match body with None => Err ErrInvalidResponse | Some l => models hostWire_model l end).

Definition GenerateSecretKey : prog remHttp (result remErr string) :=
  r ← doJSON KeyResponse "GET" "/api/keygen" NoBody 200;
  mret (body ← r;
    match body with
    | Some (Some key) => if String.eqb key "" then Err ErrInvalidResponse else Ok key
    | _ => Err ErrInvalidResponse
    end).

Definition GetNodes : prog remHttp (result remErr (list Node)) :=
  r ← doJSON NodesResponse "GET" "/api/nodes" NoBody 200;
  mret (body ← r; match body with None => Err ErrInvalidResponse | Some l => models nodeWire_model l end).

Definition GetNodesMetrics : prog remHttp (result remErr (list NodeMetric)) :=
  r ← doJSON MetricsResponse "GET" "/api/system/nodes/metrics" NoBody 200;
  mret (body ← r;
    match body with
    | Some (Some l) => models nodeMetricWire_model l
    | _ => Err ErrInvalidResponse
    end).

(** The common end of the operations that answer with one Node. *)
Definition node_response (r : result remErr (option nodeWire)) : result remErr Node :=
  body ← r;
  match body with
  | None => Err ErrInvalidResponse
  | Some w => match nodeWire_model w with Ok n => Ok n | Err _ => Err ErrInvalidResponse end
  end.

Definition GetNode (uuid : string) : prog remHttp (result remErr Node) :=
  let uuid := TrimSpace uuid in
  if negb (validUUID uuid) then mret (Err ErrInvalidInput)
  else
    r ← doJSON NodeResponse "GET" ("/api/nodes/" +:+ PathEscape uuid) NoBody 200;
    mret (node_response r).

Definition CreateNode (input : CreateNodeInput) : prog remHttp (result remErr Node) :=
  let name := TrimSpace (cni_Name input) in
  if negb (validNodeName name) || negb (IsValid (cni_Address input)) then mret (Err ErrInvalidInput)
  else match DeploymentProfileFromHost (cni_Host input) with
  | Err e => mret (Err e)
  | Ok profile =>
    existing ← GetNodes;
    match existing with
    | Err e => mret (Err e)
    | Ok nodes =>
      match CheckNodeDuplicates nodes name (cni_Address input) with
      | Some e => mret (Err e)
      | None =>
        let request := mkCreateNodeRequest name (addr_string (cni_Address input)) nodePort
          (mkNodeConfigProfile (prof_ActiveConfigProfileUUID profile) (prof_ActiveInbounds profile)) in
        r ← doJSON NodeResponse "POST" "/api/nodes" (CreateBody request) 201;
        mret (node_response r)
      end
    end
  end.

Definition UpdateNodeAddress (input : UpdateNodeAddressInput) : prog remHttp (result remErr Node) :=
  let uuid := TrimSpace (una_UUID input) in
  if negb (validUUID uuid) || negb (IsValid (una_Address input)) then mret (Err ErrInvalidInput)
  else
    r ← doJSON NodeResponse "PATCH" "/api/nodes"
          (UpdateAddressBody (mkUpdateNodeAddressRequest uuid (addr_string (Unmap (una_Address input))))) 200;
    mret (node_response r).

Definition UpdateNodeProfile (input : UpdateNodeProfileInput) : prog remHttp (result remErr Node) :=
  let uuid := TrimSpace (unp_UUID input) in
  match DeploymentProfileFromHost (unp_Host input) with
  | Err _ => mret (Err ErrInvalidInput)
  | Ok profile =>
    if negb (validUUID uuid) || host_IsDisabled (unp_Host input) then mret (Err ErrInvalidInput)
    else
      r ← doJSON NodeResponse "PATCH" "/api/nodes"
            (UpdateProfileBody (mkUpdateNodeProfileRequest uuid
              (mkNodeConfigProfile (prof_ActiveConfigProfileUUID profile) (prof_ActiveInbounds profile)))) 200;
      mret (node_response r)
  end.

Definition DeleteNode (uuid : string) : prog remHttp (result remErr bool) :=
  let uuid := TrimSpace uuid in
  if negb (validUUID uuid) then mret (Err ErrInvalidInput)
  else
    r ← doJSON DeletedResponse "DELETE" ("/api/nodes/" +:+ PathEscape uuid) NoBody 200;
    mret (body ← r;
      match body with Some (Some deleted) => Ok deleted | _ => Err ErrInvalidResponse end).

(** ** Lemmas *)
Section Lemmas.
Context {S : Type} `{!Env remHttp S}.

Lemma wp_doJSON t method path body expected (s : S) tr Q :
  (forall out s1, env_step (HttpDo t method path body) s out s1 ->
    Q (read_outcome expected out) s1 (tr ++ [Ev (HttpDo t method path body) out])) ->
  wp (doJSON t method path body expected) s tr Q.
Proof. done. Qed.
End Lemmas.

Lemma response_ok {R} expected (out : httpOutcome R) v :
  read_outcome expected out = Ok v -> out = Response expected (BodyValue v).
Proof.
  unfold read_outcome. intros H. case_tests.
  match goal with H : _ = false |- _ => apply negb_false_iff, Z.eqb_eq in H; by subst end.
Qed.

Lemma duplicate_flags_spec name addr nodes acc :
  foldl (duplicate_flags name addr) acc nodes =
  (fst acc || existsb (fun n => String.eqb (TrimSpace (node_Name n)) name) nodes,
   snd acc || existsb (fun n => bool_decide (ParseAddr (TrimSpace (node_Address n)) = Some addr)) nodes).
Proof.
  revert acc. induction nodes as [|n nodes IH]; intros [b1 b2]; simpl; [by rewrite !orb_false_r|].
  rewrite IH. simpl. rewrite !orb_assoc. do 2 f_equal.
  destruct (ParseAddr _) as [a|]; [|by rewrite bool_decide_false].
  f_equal. apply bool_decide_ext. split; congruence.
Qed.

(** The snapshot check rejects exactly the duplicates. *)
Lemma CheckNodeDuplicates_None nodes name addr :
  CheckNodeDuplicates nodes name addr = None <->
  validNodeName (TrimSpace (TrimSpace name)) = true /\ IsValid addr = true /\
  forall n, n ∈ nodes -> TrimSpace (node_Name n) <> TrimSpace name /\
    ParseAddr (TrimSpace (node_Address n)) <> Some addr.
Proof.
  unfold CheckNodeDuplicates, ValidateNodeName.
  destruct (validNodeName _) eqn:Hn; simpl; [|by split; [|intros [? _]]].
  destruct (IsValid addr) eqn:Ha; simpl; [|by split; [|intros (_ & ? & _)]].
  rewrite duplicate_flags_spec. simpl.
  destruct (existsb _ nodes) eqn:H1 at 1; [|destruct (existsb (fun n => bool_decide _) nodes) eqn:H2]; simpl.
  - apply existsb_elem_of in H1 as (n & Hin & Heq). apply String.eqb_eq in Heq.
    split; [done|]. intros (_ & _ & H). by destruct (H n Hin).
  - apply existsb_elem_of in H2 as (n & Hin & Heq). apply bool_decide_eq_true in Heq.
    split; [done|]. intros (_ & _ & H). by destruct (H n Hin).
  - split; [|done]. intros _. split; [done|]. split; [done|]. intros n Hin.
    rewrite existsb_false in H1, H2. specialize (H1 n Hin). specialize (H2 n Hin).
    apply String.eqb_neq in H1. apply bool_decide_eq_false in H2. done.
Qed.

(** A host validates exactly when its address is not blank and both profile
    identifiers are UUIDs. *)
Lemma DeploymentProfileFromHost_ok host p :
  DeploymentProfileFromHost host = Ok p <->
  exists profile inbound,
    TrimSpace (host_Address host) <> "" /\
    ConfigProfileUUID (host_Inbound host) = Some profile /\
    ConfigProfileInboundUUID (host_Inbound host) = Some inbound /\
    validUUID (TrimSpace profile) = true /\ validUUID (TrimSpace inbound) = true /\
    p = mkDeploymentProfile (TrimSpace (host_Address host)) (TrimSpace profile) [TrimSpace inbound].
Proof.
  unfold DeploymentProfileFromHost. split.
  - intros H. case_tests.
    repeat match goal with
      | H : (_ || _) = false |- _ => apply orb_false_iff in H as [? ?]
      | H : negb _ = false |- _ => apply negb_false_iff in H
      | H : String.eqb _ _ = false |- _ => apply String.eqb_neq in H
      end. eauto 10.
  - intros (profile & inbound & Ha & -> & -> & H1 & H2 & ->).
    assert (forall s, validUUID s = true -> String.eqb s "" = false) as Hne by by intros [].
    apply String.eqb_neq in Ha. by rewrite Ha, !Hne, H1, H2.
Qed.

(** The bodies of the creation requests of a trace. *)
Definition creates (tr : list (event remHttp)) : list createNodeRequest :=
  flat_map (fun ev => match ev_op ev with HttpDo _ _ _ (CreateBody r) => [r] | _ => [] end) tr.

(** ** Properties *)

(** [CreateNode] never posts an unchecked Node: in every execution,
    whatever the panel answers, either nothing is posted, or the trace is
    exactly one snapshot of the Nodes and one POST, where the snapshot decodes
    to Nodes none of which has the trimmed name or the address of the input,
    the name has between 3 and 30 runes, and the posted profile, inbounds and
    port 2222 are the ones derived from the Host. *)
Theorem create_node_posts_only_checked_nodes (input : CreateNodeInput) :
  always (CreateNode input) tt (fun tr r _ =>
    creates tr = [] \/
    exists ws nodes profile out,
      let req := mkCreateNodeRequest (TrimSpace (cni_Name input)) (addr_string (cni_Address input)) 2222
        (mkNodeConfigProfile (prof_ActiveConfigProfileUUID profile) (prof_ActiveInbounds profile)) in
      tr = [Ev (HttpDo NodesResponse "GET" "/api/nodes" NoBody) (Response 200 (BodyValue (Some ws)));
            Ev (HttpDo NodeResponse "POST" "/api/nodes" (CreateBody req)) out] /\
      models nodeWire_model ws = Ok nodes /\
      DeploymentProfileFromHost (cni_Host input) = Ok profile /\
      validNodeName (TrimSpace (cni_Name input)) = true /\
      (forall n, n ∈ nodes ->
         TrimSpace (node_Name n) <> TrimSpace (TrimSpace (cni_Name input)) /\
         ParseAddr (TrimSpace (node_Address n)) <> Some (cni_Address input)) /\
      r = node_response (read_outcome 201 out)).
Proof.
  apply wp_always. unfold CreateNode.
  destruct (validNodeName _ ) eqn:Hname; cbn [negb orb]; [|by left].
  destruct (IsValid _); cbn [negb orb]; [|by left].
  destruct (DeploymentProfileFromHost _) as [profile|e] eqn:Hprof; [|by left].
  unfold GetNodes. wp_steps. apply wp_doJSON. intros out [] _. wp_steps.
  destruct (read_outcome 200 out) as [[ws|]|e] eqn:Hout; simpl; [|by left..].
  apply response_ok in Hout as ->.
  destruct (models nodeWire_model ws) as [nodes|] eqn:Hnodes; [|by left].
  destruct (CheckNodeDuplicates _ _ _) eqn:Hdup; [by left|].
  apply CheckNodeDuplicates_None in Hdup as (_ & _ & Hdup).
  wp_answer out s1 Hs. destruct s1. right. exists ws, nodes, profile, out. done.
Qed.

Definition example_host : Host :=
  mkHost "a1b2c3d4-0000-4000-8000-000000000001" "edge" " vpn.example.com " None false
    (mkHostInbound (Some "a1b2c3d4-0000-4000-8000-000000000002")
                   (Some "a1b2c3d4-0000-4000-8000-000000000003")).

Definition example_node (name address : string) (connected connecting : bool) : nodeWire :=
  mkNodeWire (Some "a1b2c3d4-0000-4000-8000-00000000000a") (Some name) (Some address) (Some 2222)
    (Some connected) (Some false) (Some connecting) None None (mkNodeConfigProfileWire None []).

(** A panel that answers every request with fixed values. *)
Definition example_panel (nodes : list nodeWire) (created : nodeWire) : handler remHttp unit :=
  fun X e s =>
    match e in remHttp X return X * unit with
    | HttpDo t _ _ _ =>
      (match t return httpOutcome (resp t) with
       | NodesResponse => Response 200 (BodyValue (Some nodes))
       | NodeResponse => Response 201 (BodyValue (Some created))
       | _ => TransportFailed
       end, s)
    end.

Definition example_input : CreateNodeInput := mkCreateNodeInput " node-1 " (Addr4 16909060) example_host.

(** A run that posts, and one that the snapshot stops. *)
Example create_node_run :
  let posted nodes := creates (fst (fst (run (example_panel nodes (example_node "node-1" "1.2.3.4" false true))
                                             (CreateNode example_input) tt))) in
  map cnr_address (posted [example_node "other" "9.9.9.9" true false]) = ["1.2.3.4"] /\
  posted [example_node "other" " 1.2.3.4" true false] = [].
Proof. vm_compute. done. Qed.
