(* ===== verification/DnsBalancer.v ===== *)
(** * The DNS balancer client

    Models [internal/dnsbalancer]: the configuration models, the decoding of
    the server's answers, the exact matching of zones, and the client's
    read-modify-write operations on zones under the zone lock.  The server is
    the environment: every answer to a request is possible. *)

From S2P Require Import Prelude GoStrings Unicode NetIP NetIPFacts Effects Http.

#[local] Open Scope Z_scope.

(** ** Models *)
Record ZoneNode : Type := mkZoneNode { zn_IP : string; zn_Address : string }.

(** The two formats of a zone are distinguished by nil slices. *)
Record Zone : Type := mkZone {
  zone_Name : string;
  zone_TTL : Z;
  zone_Proxied : bool;
  zone_IPs : slice string;
  zone_Nodes : slice ZoneNode
}.

Record Domain : Type := mkDomain { dom_Name : string; dom_Zones : list Zone }.

Record ZoneMatch : Type := mkZoneMatch {
  zm_Domain : string;
  zm_ZoneName : string;
  zm_FQDN : string;
  zm_Zone : Zone
}.

Record AddIPResult : Type := mkAddIPResult { add_FQDN : string; add_Added : bool; add_IPs : list string }.

Record ReplaceIPResult : Type := mkReplaceIPResult {
  rep_FQDN : string;
  rep_Changed : bool;
  rep_IPs : list string;
  rep_Nodes : list ZoneNode
}.

Record MoveIPResult : Type := mkMoveIPResult {
  mv_SourceFQDN : string;
  mv_TargetFQDN : string;
  mv_Changed : bool
}.

#[export] Instance ZoneNode_eq_dec : EqDecision ZoneNode.
Proof. solve_decision. Defined.
#[export] Instance Zone_eq_dec : EqDecision Zone.
Proof. solve_decision. Defined.

(** The sentinel a caller can test for with [errors.Is]; the wrapping texts
    are not kept. *)
Inductive dnsErr : Type :=
  | ErrUnauthorized
  | ErrConflict
  | ErrUnprocessable
  | ErrInvalidResponse
  | ErrNotFound
  | ErrAmbiguousZone
  | ErrInvalidInput
  | HTTPError (status : Z)
  | TransportError
  | LockError.

#[export] Instance dnsErr_eq_dec : EqDecision dnsErr.
Proof. solve_decision. Defined.

(** [HTTPError.Unwrap]. *)
Definition HTTPError_Unwrap (status : Z) : option dnsErr :=
  if status =? 401 then Some ErrUnauthorized
  else if status =? 404 then Some ErrNotFound
  else if status =? 409 then Some ErrConflict
  else if status =? 422 then Some ErrUnprocessable
  else None.

(** [errors.Is]. *)
Definition err_is (e target : dnsErr) : bool :=
  bool_decide (e = target) ||
  match e with
  | HTTPError status => bool_decide (HTTPError_Unwrap status = Some target)
  | _ => false
  end.

(** ** Matching *)
Definition normalizeFQDN (value : string) : string := ToLower (TrimSuffix (TrimSpace value) ".").

Definition zoneFQDN (domain zone : string) : string :=
  let domain := normalizeFQDN domain in
  let zone := normalizeFQDN zone in
  if String.eqb zone "@" then domain
  else if String.eqb domain "" || String.eqb zone "" then ""
  else zone +:+ "." +:+ domain.

(** The two nested loops of [LocateZone] over the zones of one domain and
    over the domains, with the match so far; [None] is the ambiguous case. *)
Fixpoint locate_zones (target domain : string) (zones : list Zone) (match_ : option ZoneMatch)
    : option (option ZoneMatch) :=
  match zones with
  | [] => Some match_
  | zone :: zones' =>
    let candidate := zoneFQDN domain (zone_Name zone) in
    if negb (String.eqb candidate target) then locate_zones target domain zones' match_
    else match match_ with
    | Some _ => None
    | None => locate_zones target domain zones' (Some (mkZoneMatch domain (zone_Name zone) candidate zone))
    end
  end.

Fixpoint locate_domains (target : string) (domains : list Domain) (match_ : option ZoneMatch)
    : option (option ZoneMatch) :=
  match domains with
  | [] => Some match_
  | domain :: domains' =>
    m ← locate_zones target (dom_Name domain) (dom_Zones domain) match_;
    locate_domains target domains' m
  end.

Definition LocateZone (domains : list Domain) (fqdn : string) : result dnsErr ZoneMatch :=
  let target := normalizeFQDN fqdn in
  if String.eqb target "" then Err ErrInvalidInput
  else match locate_domains target domains None with
  | None => Err ErrAmbiguousZone
  | Some None => Err ErrNotFound
  | Some (Some m) => Ok m
  end.

(** ** Wire types *)
Record zoneNodeWire : Type := mkZoneNodeWire { znw_ip : option string; znw_address : option string }.

Record zoneWire : Type := mkZoneWire {
  zw_name : option string;
  zw_ttl : option Z;
  zw_proxied : option bool;
  zw_ips : option (list string);
  zw_nodes : option (list zoneNodeWire)
}.

Record domainWire : Type := mkDomainWire { dw_domain : option string; dw_zones : option (list zoneWire) }.

Definition parses (s : string) : bool :=
  match ParseAddr (TrimSpace s) with Some _ => true | None => false end.

Fixpoint zoneNodes_model (l : list zoneNodeWire) : result dnsErr (list ZoneNode) :=
  match l with
  | [] => Ok []
  | item :: l' =>
    match znw_ip item with
    | None => Err ErrInvalidResponse
    | Some ip =>
      if negb (parses ip) then Err ErrInvalidResponse
      else
        let address := match znw_address item with Some a => a | None => ip end in
        ns ← zoneNodes_model l'; Ok (mkZoneNode ip address :: ns)
    end
  end.

Definition zoneWire_model (z : zoneWire) : result dnsErr Zone :=
  match zw_name z, zw_ttl z, zw_proxied z with
  | Some name, Some ttl, Some proxied =>
    if String.eqb (TrimSpace name) "" || (ttl <? 1) || (negb (non_nil (zw_ips z)) && negb (non_nil (zw_nodes z)))
    then Err ErrInvalidResponse
    else if negb (forallb parses (elems (zw_ips z))) then Err ErrInvalidResponse
    else match zw_nodes z with
    | None => Ok (mkZone name ttl proxied (zw_ips z) None)
    | Some l => nodes ← zoneNodes_model l; Ok (mkZone name ttl proxied (zw_ips z) (Some nodes))
    end
  | _, _, _ => Err ErrInvalidResponse
  end.

Fixpoint zones_model (l : list zoneWire) : result dnsErr (list Zone) :=
  match l with
  | [] => Ok []
  | item :: l' => zone ← zoneWire_model item; zones ← zones_model l'; Ok (zone :: zones)
  end.

Definition domainWire_model (d : domainWire) : result dnsErr Domain :=
  match dw_domain d, dw_zones d with
  | Some name, Some zones =>
    if String.eqb (normalizeFQDN name) "" then Err ErrInvalidResponse
    else zs ← zones_model zones; Ok (mkDomain name zs)
  | _, _ => Err ErrInvalidResponse
  end.

(** [patchZoneRequest] and its JSON encoding: one of the two fields, the IPs
    as [null] when the slice is nil. *)
Record patchZoneRequest : Type := mkPatchZoneRequest { pz_IPs : slice string; pz_Nodes : slice ZoneNode }.

Inductive patchJSON : Type :=
  | JSONNodes (nodes : list ZoneNode)
  | JSONIPs (ips : slice string).

Definition MarshalJSON (r : patchZoneRequest) : patchJSON :=
  match pz_Nodes r with
  | Some nodes => JSONNodes nodes
  | None => JSONIPs (pz_IPs r)
  end.

Definition ips_request (ips : list string) : patchZoneRequest := mkPatchZoneRequest (Some ips) None.
Definition nodes_request (nodes : list ZoneNode) : patchZoneRequest := mkPatchZoneRequest None (Some nodes).

(** ** Requests *)
Inductive dnsE : Type -> Type :=
  | ZoneLock (key : string) : dnsE bool
  | ZoneUnlock (key : string) : dnsE unit
  | HttpGetDomains (path : string) : dnsE (httpOutcome (option (list domainWire)))
  | HttpPatchZone (path : string) (body : patchJSON) : dnsE (httpOutcome (option string)).

(** [Client.doJSON]: the reading of a request's outcome. *)
Definition read_outcome {R} (expectedStatus : Z) (out : httpOutcome R) : result dnsErr R :=
  match out with
  | TransportFailed => Err TransportError
  | Response status b =>
    if negb (status =? expectedStatus) then Err (HTTPError status)
    else match b with
    | BodyInvalid | BodyTrailing => Err ErrInvalidResponse
    | BodyValue v => Ok v
    end
  end.

(** [Client.zoneEndpoint]: the escaped path of the URL. *)
Definition zoneEndpoint (domain zone : string) : string :=
  let escapedZone := if String.eqb zone "@" then "%40" else PathEscape zone in
  "/api/config/domains/" +:+ PathEscape domain +:+ "/zones/" +:+ escapedZone.

Definition config_path : string := "/api/config/domains".

Fixpoint domains_model (l : list domainWire) : result dnsErr (list Domain) :=
  match l with
  | [] => Ok []
  | item :: l' =>
    match domainWire_model item with
    | Err _ => Err ErrInvalidResponse
    | Ok d => ds ← domains_model l'; Ok (d :: ds)
    end
  end.

Definition read_domains (out : httpOutcome (option (list domainWire))) : result dnsErr (list Domain) :=
  response ← read_outcome 200 out;
  match response with
  | None => Err ErrInvalidResponse
  | Some l => domains_model l
  end.

Definition GetDomains : prog dnsE (result dnsErr (list Domain)) :=
  out ← call (HttpGetDomains config_path);
  mret (read_domains out).

Definition FindZone (fqdn : string) : prog dnsE (result dnsErr ZoneMatch) :=
  r ← GetDomains;
  mret (domains ← r; LocateZone domains fqdn).

(** A text that reads as the address [ip], as every scan of the client tests it. *)
Definition holds (ip : Addr) (value : string) : bool := bool_decide (read_addr value = Some ip).

Definition zone_matches (ip : Addr) (zone : Zone) : bool :=
  existsb (holds ip) (elems (zone_IPs zone)) || existsb (fun n => holds ip (zn_IP n)) (elems (zone_Nodes zone)).

Definition zones_by_ip (ip : Addr) (domains : list Domain) : list ZoneMatch :=
  flat_map (fun domain =>
    flat_map (fun zone =>
      if zone_matches ip zone then
        let fqdn := if String.eqb (zone_Name zone) "@" then dom_Name domain
                    else zone_Name zone +:+ "." +:+ dom_Name domain in
        [mkZoneMatch (dom_Name domain) (zone_Name zone) (normalizeFQDN fqdn) zone]
      else []) (dom_Zones domain)) domains.

Definition FindZonesByIP (ip : Addr) : prog dnsE (result dnsErr (list ZoneMatch)) :=
  if negb (IsValid ip) then mret (Err ErrInvalidInput)
  else
    r ← GetDomains;
    mret (domains ← r; Ok (zones_by_ip (Unmap ip) domains)).

(** [Client.patchZone]. *)
Definition patch_status (out : httpOutcome (option string)) : option dnsErr :=
  match read_outcome 200 out with
  | Err e => Some e
  | Ok (Some status) => if String.eqb status "ok" then None else Some ErrInvalidResponse
  | Ok None => Some ErrInvalidResponse
  end.

Definition patchZone (m : ZoneMatch) (request : patchZoneRequest) : prog dnsE (option dnsErr) :=
  out ← call (HttpPatchZone (zoneEndpoint (zm_Domain m) (zm_ZoneName m)) (MarshalJSON request));
  mret (patch_status out).

(** [unlock, err := locker.Lock(ctx, key); defer unlock()]. *)
Definition with_lock {A} (key : string) (body : prog dnsE (result dnsErr A)) : prog dnsE (result dnsErr A) :=
  acquired ← call (ZoneLock key);
  if (acquired : bool) then finally body (call (ZoneUnlock key)) else mret (Err LockError).

(** ** AddIP *)

(** A scan for [ip]: the address is found, absent, or a value before it does
    not parse. *)
Inductive scan : Type := ScanFound | ScanAbsent | ScanInvalid.

Fixpoint scan_values (ip : Addr) (values : list string) : scan :=
  match values with
  | [] => ScanAbsent
  | value :: values' =>
    match ParseAddr (TrimSpace value) with
    | None => ScanInvalid
    | Some parsed => if bool_decide (Unmap parsed = ip) then ScanFound else scan_values ip values'
    end
  end.

Definition AddIP (fqdn : string) (ip : Addr) : prog dnsE (result dnsErr AddIPResult) :=
  let key := normalizeFQDN fqdn in
  if String.eqb key "" || negb (IsValid ip) then mret (Err ErrInvalidInput)
  else
    let ip := Unmap ip in
    with_lock key (
      r ← GetDomains;
      match (domains ← r; LocateZone domains key) with
      | Err e => mret (Err e)
      | Ok m =>
        let complete := elems (zone_IPs (zm_Zone m)) in
        let unchanged := mret (Ok (mkAddIPResult (zm_FQDN m) false complete)) in
        match scan_values ip complete with
        | ScanInvalid => mret (Err ErrInvalidResponse)
        | ScanFound => unchanged
        | ScanAbsent =>
          match scan_values ip (zn_IP <$> elems (zone_Nodes (zm_Zone m))) with
          | ScanInvalid => mret (Err ErrInvalidResponse)
          | ScanFound => unchanged
          | ScanAbsent =>
            let complete := complete ++ [addr_string ip] in
            err ← patchZone m (ips_request complete);
            match err with
            | Some e => mret (Err e)
            | None => mret (Ok (mkAddIPResult (zm_FQDN m) true complete))
            end
          end
        end
      end).

(** ** ReplaceIP *)

(** The loop over an advanced zone: which of the two addresses occur. *)
Fixpoint find_nodes (oldIP newIP : Addr) (nodes : list ZoneNode) (foundOld foundNew : bool)
    : result dnsErr (bool * bool) :=
  match nodes with
  | [] => Ok (foundOld, foundNew)
  | item :: nodes' =>
    match ParseAddr (TrimSpace (zn_IP item)) with
    | None => Err ErrInvalidResponse
    | Some parsed =>
      if bool_decide (Unmap parsed = oldIP) then find_nodes oldIP newIP nodes' true foundNew
      else if bool_decide (Unmap parsed = newIP) then find_nodes oldIP newIP nodes' foundOld true
      else find_nodes oldIP newIP nodes' foundOld foundNew
    end
  end.

(** The second loop: the complete list of nodes to send.  A value that does
    not parse gives the zero address, which is never the old one. *)
Definition replace_nodes (oldIP newIP : Addr) (foundNew : bool) (nodes : list ZoneNode) : list ZoneNode :=
  flat_map (fun item =>
    let parsed := default AddrInvalid (ParseAddr (TrimSpace (zn_IP item))) in
    if bool_decide (Unmap parsed = oldIP) then
      if foundNew then [] else [mkZoneNode (addr_string newIP) (zn_Address item)]
    else [item]) nodes.

(** The loop over a simple zone. *)
Fixpoint replace_values (oldIP newIP : Addr) (values : list string) (complete : list string)
    (foundOld foundNew : bool) : result dnsErr (list string * bool * bool) :=
  match values with
  | [] => Ok (complete, foundOld, foundNew)
  | value :: values' =>
    match ParseAddr (TrimSpace value) with
    | None => Err ErrInvalidResponse
    | Some parsed =>
      if bool_decide (Unmap parsed = oldIP) then replace_values oldIP newIP values' complete true foundNew
      else if bool_decide (Unmap parsed = newIP) then
        replace_values oldIP newIP values' (complete ++ [addr_string newIP]) foundOld true
      else replace_values oldIP newIP values' (complete ++ [addr_string (Unmap parsed)]) foundOld foundNew
    end
  end.

Definition replace_advanced (m : ZoneMatch) (nodes : list ZoneNode) (oldIP newIP : Addr)
    : prog dnsE (result dnsErr ReplaceIPResult) :=
  match find_nodes oldIP newIP nodes false false with
  | Err e => mret (Err e)
  | Ok (foundOld, foundNew) =>
    if negb foundOld then
      if foundNew then mret (Ok (mkReplaceIPResult (zm_FQDN m) false [] nodes))
      else mret (Err ErrNotFound)
    else
      let complete := replace_nodes oldIP newIP foundNew nodes in
      err ← patchZone m (nodes_request complete);
      match err with
      | Some e => mret (Err e)
      | None => mret (Ok (mkReplaceIPResult (zm_FQDN m) true [] complete))
      end
  end.

Definition replace_simple (m : ZoneMatch) (oldIP newIP : Addr) : prog dnsE (result dnsErr ReplaceIPResult) :=
  match replace_values oldIP newIP (elems (zone_IPs (zm_Zone m))) [] false false with
  | Err e => mret (Err e)
  | Ok (complete, foundOld, foundNew) =>
    if negb foundOld then
      if foundNew then mret (Ok (mkReplaceIPResult (zm_FQDN m) false complete []))
      else mret (Err ErrNotFound)
    else
      let complete := if foundNew then complete else complete ++ [addr_string newIP] in
      err ← patchZone m (ips_request complete);
      match err with
      | Some e => mret (Err e)
      | None => mret (Ok (mkReplaceIPResult (zm_FQDN m) true complete []))
      end
  end.

Definition ReplaceIP (fqdn : string) (oldIP newIP : Addr) : prog dnsE (result dnsErr ReplaceIPResult) :=
  let key := normalizeFQDN fqdn in
  if String.eqb key "" || negb (IsValid oldIP) || negb (IsValid newIP) || bool_decide (Unmap oldIP = Unmap newIP)
  then mret (Err ErrInvalidInput)
  else
    let oldIP := Unmap oldIP in
    let newIP := Unmap newIP in
    with_lock key (
      r ← GetDomains;
      match (domains ← r; LocateZone domains key) with
      | Err e => mret (Err e)
      | Ok m =>
        match elems (zone_Nodes (zm_Zone m)) with
        | [] => replace_simple m oldIP newIP
        | nodes => replace_advanced m nodes oldIP newIP
        end
      end).

(** ** MoveIP *)
Fixpoint remove_nodes (ip : Addr) (items kept : list ZoneNode) (moved : option ZoneNode)
    : result dnsErr (list ZoneNode * option ZoneNode) :=
  match items with
  | [] => Ok (kept, moved)
  | item :: items' =>
    match ParseAddr (TrimSpace (zn_IP item)) with
    | None => Err ErrInvalidResponse
    | Some parsed =>
      if bool_decide (Unmap parsed = ip) then remove_nodes ip items' kept (Some item)
      else remove_nodes ip items' (kept ++ [item]) moved
    end
  end.

Fixpoint remove_values (ip : Addr) (values kept : list string) (found : bool) : result dnsErr (list string * bool) :=
  match values with
  | [] => Ok (kept, found)
  | value :: values' =>
    match ParseAddr (TrimSpace value) with
    | None => Err ErrInvalidResponse
    | Some parsed =>
      if bool_decide (Unmap parsed = ip) then remove_values ip values' kept true
      else remove_values ip values' (kept ++ [addr_string (Unmap parsed)]) found
    end
  end.

Definition zoneWithoutIP (zone : Zone) (ip : Addr) : result dnsErr (patchZoneRequest * bool * option ZoneNode) :=
  match zone_Nodes zone with
  | Some items =>
    '(nodes, moved) ← remove_nodes ip items [] None;
    Ok (nodes_request nodes, match moved with Some _ => true | None => false end, moved)
  | None =>
    '(ips, found) ← remove_values ip (elems (zone_IPs zone)) [] false;
    Ok (ips_request ips, found, None)
  end.

Definition zoneWithIP (zone : Zone) (ip : Addr) (sourceNode : option ZoneNode)
    : result dnsErr (patchZoneRequest * bool) :=
  match zone_Nodes zone with
  | Some items =>
    match scan_values ip (zn_IP <$> items) with
    | ScanInvalid => Err ErrInvalidResponse
    | ScanFound => Ok (mkPatchZoneRequest None (slice_copy (Some items)), true)
    | ScanAbsent =>
      match sourceNode with
      | None => Err ErrInvalidInput
      | Some node => Ok (mkPatchZoneRequest None (slice_append (slice_copy (Some items)) node), false)
      end
    end
  | None =>
    match scan_values ip (elems (zone_IPs zone)) with
    | ScanInvalid => Err ErrInvalidResponse
    | ScanFound => Ok (mkPatchZoneRequest (slice_copy (zone_IPs zone)) None, true)
    | ScanAbsent => Ok (mkPatchZoneRequest (slice_append (slice_copy (zone_IPs zone)) (addr_string ip)) None, false)
    end
  end.

Definition zoneSnapshotRequest (zone : Zone) : patchZoneRequest :=
  match zone_Nodes zone with
  | Some nodes => mkPatchZoneRequest None (slice_copy (Some nodes))
  | None => mkPatchZoneRequest (slice_copy (zone_IPs zone)) None
  end.

(** The part of [MoveIP] after both locks are held. *)
Definition move_locked (sourceKey targetKey : string) (ip : Addr) : prog dnsE (result dnsErr MoveIPResult) :=
  r ← GetDomains;
  match (domains ← r; source ← LocateZone domains sourceKey; target ← LocateZone domains targetKey;
         Ok (source, target)) with
  | Err e => mret (Err e)
  | Ok (source, target) =>
    if xorb (non_nil (zone_Nodes (zm_Zone source))) (non_nil (zone_Nodes (zm_Zone target)))
    then mret (Err ErrInvalidInput)
    else
      let ip := Unmap ip in
      match (s ← zoneWithoutIP (zm_Zone source) ip;
             t ← zoneWithIP (zm_Zone target) ip (snd s); Ok (s, t)) with
      | Err e => mret (Err e)
      | Ok (sourceRequest, sourceFound, _, (targetRequest, targetFound)) =>
        let result changed := mkMoveIPResult (zm_FQDN source) (zm_FQDN target) changed in
        if negb sourceFound then
          if (targetFound : bool) then mret (Ok (result false)) else mret (Err ErrNotFound)
        else
          err ← (if targetFound then mret None else patchZone target targetRequest);
          match err with
          | Some e => mret (Err e)
          | None =>
            err ← patchZone source sourceRequest;
            match err with
            | Some e =>
              if targetFound then mret (Err e)
              else
                _ ← patchZone target (zoneSnapshotRequest (zm_Zone target));
                mret (Err e)
            | None => mret (Ok (result true))
            end
          end
      end
  end.

Definition MoveIP (sourceFQDN targetFQDN : string) (ip : Addr) : prog dnsE (result dnsErr MoveIPResult) :=
  let sourceKey := normalizeFQDN sourceFQDN in
  let targetKey := normalizeFQDN targetFQDN in
  if String.eqb sourceKey "" || String.eqb targetKey "" || String.eqb sourceKey targetKey || negb (IsValid ip)
  then mret (Err ErrInvalidInput)
  else
    let '(first, second) :=
      if str_ltb targetKey sourceKey then (targetKey, sourceKey) else (sourceKey, targetKey) in
    with_lock first (with_lock second (move_locked sourceKey targetKey ip)).

(** ** [Disabled]: the panel without DNS balancing *)
Definition Disabled_GetDomains : prog dnsE (result dnsErr (list Domain)) := mret (Ok []).
Definition Disabled_FindZone (fqdn : string) : prog dnsE (result dnsErr ZoneMatch) := mret (Err ErrNotFound).
Definition Disabled_FindZonesByIP (ip : Addr) : prog dnsE (result dnsErr (list ZoneMatch)) := mret (Ok []).
Definition Disabled_AddIP (fqdn : string) (ip : Addr) : prog dnsE (result dnsErr AddIPResult) :=
  mret (Err ErrInvalidInput).
Definition Disabled_ReplaceIP (fqdn : string) (oldIP newIP : Addr) : prog dnsE (result dnsErr ReplaceIPResult) :=
  mret (Err ErrInvalidInput).
Definition Disabled_MoveIP (sourceFQDN targetFQDN : string) (ip : Addr) : prog dnsE (result dnsErr MoveIPResult) :=
  mret (Err ErrInvalidInput).

(** ** Lemmas *)

(** The PATCH requests of a trace: path, body and outcome. *)
Definition patches (tr : list (event dnsE)) : list (string * patchJSON * httpOutcome (option string)) :=
  flat_map (fun ev =>
    match ev_op ev in dnsE X return X -> list (string * patchJSON * httpOutcome (option string)) with
    | HttpPatchZone path body => fun out => [(path, body, out)]
    | _ => fun _ => []
    end (ev_res ev)) tr.

Lemma read_outcome_ok {R} expected (out : httpOutcome R) v :
  read_outcome expected out = Ok v -> out = Response expected (BodyValue v).
Proof.
  unfold read_outcome. intros H. case_tests.
  match goal with H : _ = false |- _ => apply negb_false_iff, Z.eqb_eq in H; by subst end.
Qed.

Lemma read_domains_ok out ds :
  read_domains out = Ok ds -> exists ws, out = Response 200 (BodyValue (Some ws)) /\ domains_model ws = Ok ds.
Proof.
  unfold read_domains. intros ([ws|] & Ho & Hm)%result_bind_ok; [|done].
  apply read_outcome_ok in Ho. eauto.
Qed.

Lemma patch_status_None out :
  patch_status out = None <-> out = Response 200 (BodyValue (Some "ok")).
Proof.
  unfold patch_status. split; [|by intros ->].
  destruct (read_outcome 200 out) as [[s|]|] eqn:H; [|done..].
  destruct (String.eqb_spec s "ok") as [->|]; [|done]. intros _. by apply read_outcome_ok in H.
Qed.

Lemma read_addr_Some s a : read_addr s = Some a <-> exists p, ParseAddr (TrimSpace s) = Some p /\ Unmap p = a.
Proof. unfold read_addr. rewrite fmap_Some. naive_solver. Qed.

(** The scan is the search [holds] describes, up to its first bad value. *)
Lemma scan_values_spec ip l :
  match scan_values ip l with
  | ScanFound => existsb (holds ip) l = true
  | ScanAbsent => existsb (holds ip) l = false /\ forallb parses l = true
  | ScanInvalid => forallb parses l = false
  end.
Proof.
  induction l as [|v l IH]; simpl; [done|]. unfold parses at 1 3, holds at 1 3, read_addr.
  destruct (ParseAddr (TrimSpace v)) as [p|]; simpl; [|done].
  destruct (bool_decide_reflect (Unmap p = ip)) as [->|Hne].
  - by rewrite bool_decide_true.
  - rewrite (bool_decide_false (Some (Unmap p) = Some ip)) by congruence. simpl.
    by destruct (scan_values ip l).
Qed.

(** Every address of a decoded configuration parses. *)
Definition zone_parses (z : Zone) : bool :=
  forallb parses (elems (zone_IPs z)) && forallb (fun n => parses (zn_IP n)) (elems (zone_Nodes z)).

Lemma zoneNodes_model_parses l ns :
  zoneNodes_model l = Ok ns -> forallb (fun n => parses (zn_IP n)) ns = true.
Proof.
  revert ns. induction l as [|w l IH]; intros ns H; simpl in H; [by simplify_eq|].
  destruct (znw_ip w) as [ip|]; [|done]. destruct (parses ip) eqn:Hp; [|done]. simpl in H.
  apply result_bind_ok in H as (ns' & H & [= <-]). simpl. by rewrite Hp, IH.
Qed.

Lemma zoneWire_model_parses w z :
  zoneWire_model w = Ok z -> zone_parses z = true /\ (non_nil (zone_IPs z) || non_nil (zone_Nodes z)) = true.
Proof.
  unfold zoneWire_model, zone_parses. intros H.
  destruct (zw_name w), (zw_ttl w), (zw_proxied w); try done.
  destruct (_ || _) eqn:Hc; [done|]. apply orb_false_iff in Hc as [_ Hc].
  destruct (forallb parses _) eqn:Hp; [|done]. simpl in H.
  destruct (zw_nodes w) as [l|].
  - apply result_bind_ok in H as (ns & Hns & [= <-]). simpl. apply zoneNodes_model_parses in Hns.
    rewrite Hp, Hns. by rewrite orb_true_r.
  - simplify_eq. simpl. rewrite Hp. simpl in Hc. rewrite andb_true_r in Hc.
    apply negb_false_iff in Hc. by rewrite Hc.
Qed.

Lemma zones_model_parses l zs : zones_model l = Ok zs -> Forall (fun z => zone_parses z = true) zs.
Proof.
  revert zs. induction l as [|w l IH]; intros zs H; simpl in H; [simplify_eq; by apply Forall_nil|].
  apply result_bind_ok in H as (z & Hz & H). apply result_bind_ok in H as (zs' & Hzs & [= <-]).
  apply Forall_cons. split; [by apply zoneWire_model_parses in Hz as [? _]|by apply IH].
Qed.

Lemma domains_model_parses l ds :
  domains_model l = Ok ds -> forall d z, d ∈ ds -> z ∈ dom_Zones d -> zone_parses z = true.
Proof.
  revert ds. induction l as [|w l IH]; intros ds H d z Hd Hz; simpl in H.
  { simplify_eq. by apply not_elem_of_nil in Hd. }
  destruct (domainWire_model w) as [d'|] eqn:Hm; [|done].
  apply result_bind_ok in H as (ds' & Hds & [= <-]). apply elem_of_cons in Hd as [->|Hd]; [|by eapply IH].
  unfold domainWire_model in Hm. destruct (dw_domain w), (dw_zones w); try done.
  destruct (String.eqb _ ""); [done|]. apply result_bind_ok in Hm as (zs & Hzs & [= <-]).
  apply zones_model_parses in Hzs. rewrite Forall_forall in Hzs. by apply Hzs.
Qed.

(** *** Matching as a filter *)
Definition zone_candidates (target domain : string) (zones : list Zone) : list ZoneMatch :=
  flat_map (fun zone =>
    if String.eqb (zoneFQDN domain (zone_Name zone)) target
    then [mkZoneMatch domain (zone_Name zone) target zone] else []) zones.

(** All zones of a configuration whose complete name is [target]. *)
Definition candidates (target : string) (domains : list Domain) : list ZoneMatch :=
  flat_map (fun d => zone_candidates target (dom_Name d) (dom_Zones d)) domains.

Definition one_match (l : list ZoneMatch) : option (option ZoneMatch) :=
  match l with [] => Some None | [m] => Some (Some m) | _ => None end.

Lemma locate_zones_filter target domain zones m :
  locate_zones target domain zones m = one_match (option_list m ++ zone_candidates target domain zones).
Proof.
  revert m. induction zones as [|z zones IH]; intros m; simpl; [by destruct m|].
  destruct (String.eqb_spec (zoneFQDN domain (zone_Name z)) target) as [->|]; simpl; [|apply IH].
  destruct m; simpl; [done|]. by rewrite IH.
Qed.

Lemma locate_domains_filter target domains m :
  locate_domains target domains m = one_match (option_list m ++ candidates target domains).
Proof.
  revert m. induction domains as [|d ds IH]; intros m; simpl; [by destruct m|].
  rewrite locate_zones_filter. fold (candidates target ds).
  destruct (option_list m ++ zone_candidates target (dom_Name d) (dom_Zones d)) as [|m1 [|m2 l]] eqn:E;
    rewrite app_assoc, E; simpl; [by rewrite IH|by rewrite IH|done].
Qed.

Lemma LocateZone_filter ds fqdn :
  LocateZone ds fqdn =
  let target := normalizeFQDN fqdn in
  if String.eqb target "" then Err ErrInvalidInput
  else match candidates target ds with
       | [] => Err ErrNotFound
       | [m] => Ok m
       | _ => Err ErrAmbiguousZone
       end.
Proof.
  unfold LocateZone. cbv zeta. destruct (String.eqb _ ""); [done|].
  rewrite locate_domains_filter. simpl. by destruct (candidates _ _) as [|? [|? ?]].
Qed.

Lemma candidates_spec target ds m :
  m ∈ candidates target ds <->
  exists d, d ∈ ds /\ zm_Zone m ∈ dom_Zones d /\ zoneFQDN (dom_Name d) (zone_Name (zm_Zone m)) = target /\
    m = mkZoneMatch (dom_Name d) (zone_Name (zm_Zone m)) target (zm_Zone m).
Proof.
  unfold candidates, zone_candidates. rewrite list_elem_of_In, in_flat_map.
  setoid_rewrite in_flat_map. setoid_rewrite <-list_elem_of_In. split.
  - intros (d & Hd & z & Hz & Hm). exists d.
    destruct (String.eqb_spec (zoneFQDN (dom_Name d) (zone_Name z)) target) as [<-|]; [|by apply not_elem_of_nil in Hm].
    apply list_elem_of_singleton in Hm as ->. done.
  - intros (d & Hd & Hz & <- & ->). exists d. split; [done|]. exists (zm_Zone m). split; [done|].
    rewrite String.eqb_refl. by left.
Qed.

Lemma LocateZone_ok ds fqdn m :
  LocateZone ds fqdn = Ok m -> candidates (normalizeFQDN fqdn) ds = [m] /\ normalizeFQDN fqdn <> "".
Proof.
  rewrite LocateZone_filter. cbv zeta. destruct (String.eqb_spec (normalizeFQDN fqdn) ""); [done|].
  destruct (candidates _ _) as [|? [|? ?]]; intros; simplify_eq. done.
Qed.

Lemma located_zone_parses ws ds fqdn m :
  domains_model ws = Ok ds -> LocateZone ds fqdn = Ok m -> zone_parses (zm_Zone m) = true.
Proof.
  intros Hds [Hm _]%LocateZone_ok.
  assert (m ∈ candidates (normalizeFQDN fqdn) ds) as (d & Hd & Hz & _)%candidates_spec
    by (rewrite Hm; by left).
  by eapply domains_model_parses.
Qed.

(** *** Rules for the client's requests, over an environment without memory *)
Section Rules.
Implicit Types (tr : list (event dnsE)).

Lemma wp_GetDomains tr Q :
  (forall out, Q (read_domains out) tt (tr ++ [Ev (HttpGetDomains config_path) out])) ->
  wp GetDomains tt tr Q.
Proof. intros H. unfold GetDomains. wp_answer out s1 Hs. destruct s1. apply H. Qed.

Lemma wp_patchZone m req tr Q :
  (forall out, Q (patch_status out) tt
     (tr ++ [Ev (HttpPatchZone (zoneEndpoint (zm_Domain m) (zm_ZoneName m)) (MarshalJSON req)) out])) ->
  wp (patchZone m req) tt tr Q.
Proof. intros H. unfold patchZone. wp_answer out s1 Hs. destruct s1. apply H. Qed.

Lemma wp_with_lock {A} key (body : prog dnsE (result dnsErr A)) tr Q :
  Q (Err LockError) tt (tr ++ [Ev (ZoneLock key) false]) ->
  wp body tt (tr ++ [Ev (ZoneLock key) true]) (fun r s tr' => Q r s (tr' ++ [Ev (ZoneUnlock key) tt])) ->
  wp (with_lock key body) tt tr Q.
Proof.
  intros Hf Ht. unfold with_lock. wp_answer b s1 Hs. destruct s1, b; [|by wp_steps].
  wp_steps. eapply wp_mono; [exact Ht|]. intros r [] tr' H. cbv beta.
  apply wp_call. intros [] [] _. exact H.
Qed.
End Rules.


(** *** Addresses of a list of values *)
Definition has_addr (a : Addr) (l : list string) : Prop := exists v, v ∈ l /\ read_addr v = Some a.

Lemma existsb_holds a l : existsb (holds a) l = true <-> has_addr a l.
Proof.
  rewrite existsb_elem_of. unfold has_addr, holds. by setoid_rewrite bool_decide_eq_true.
Qed.

Lemma existsb_holds_false a l : existsb (holds a) l = false <-> ~ has_addr a l.
Proof. by rewrite <-existsb_holds, not_true_iff_false. Qed.

Lemma has_addr_app a l1 l2 : has_addr a (l1 ++ l2) <-> has_addr a l1 \/ has_addr a l2.
Proof. unfold has_addr. setoid_rewrite elem_of_app. naive_solver. Qed.

Lemma has_addr_cons a v l : has_addr a (v :: l) <-> read_addr v = Some a \/ has_addr a l.
Proof. unfold has_addr. setoid_rewrite elem_of_cons. naive_solver. Qed.

Lemma has_addr_nil a : ~ has_addr a [].
Proof. by intros (v & H%not_elem_of_nil & _). Qed.

Lemma parses_read v : parses v = true <-> exists a, read_addr v = Some a.
Proof.
  unfold parses, read_addr. destruct (ParseAddr _); simpl; [naive_solver|].
  split; [done|by intros (? & ?)].
Qed.

(** No value carries an IPv6 zone. *)
Definition zoneless (l : list string) : Prop :=
  forall v, v ∈ l -> str_exists (Ascii.eqb "%") (TrimSpace v) = false.

Lemma read_addr_canonical v a :
  read_addr v = Some a -> str_exists (Ascii.eqb "%") (TrimSpace v) = false -> canonical a.
Proof.
  intros (p & Hp & <-)%read_addr_Some Hz. apply ParseAddr_wf in Hp as (H1 & H2 & H3).
  apply canonical_unmap; auto.
Qed.

(** The values of the format an update of the zone works on. *)
Definition active_values (z : Zone) : list string :=
  match elems (zone_Nodes z) with [] => elems (zone_IPs z) | ns => zn_IP <$> ns end.

Definition body_values (b : patchJSON) : list string :=
  match b with JSONNodes ns => zn_IP <$> ns | JSONIPs ips => elems ips end.

Lemma active_values_parse z : zone_parses z = true -> forallb parses (active_values z) = true.
Proof.
  unfold zone_parses, active_values. intros [H1 H2]%andb_true_iff.
  destruct (elems (zone_Nodes z)) as [|n ns]; [done|]. by rewrite forallb_fmap.
Qed.

(** *** The two loops of [ReplaceIP] *)
Section Replace.
Context (oldIP newIP : Addr) (Hne : oldIP <> newIP).

Lemma find_nodes_spec nodes fo fn :
  forallb (fun n => parses (zn_IP n)) nodes = true ->
  find_nodes oldIP newIP nodes fo fn =
  Ok (fo || existsb (holds oldIP) (zn_IP <$> nodes), fn || existsb (holds newIP) (zn_IP <$> nodes)).
Proof.
  revert fo fn. induction nodes as [|n nodes IH]; intros fo fn; [by rewrite !orb_false_r|].
  rewrite !fmap_cons. cbn [forallb existsb find_nodes].
  intros [(a & Ha)%parses_read Hp]%andb_true_iff. unfold holds at 1 3. rewrite Ha.
  apply read_addr_Some in Ha as (p & -> & ->).
  destruct (bool_decide_reflect (a = oldIP)) as [->|H1].
  { rewrite IH by done. rewrite bool_decide_true, (bool_decide_false (Some oldIP = Some newIP)) by congruence.
    simpl. by rewrite orb_true_r. }
  rewrite (bool_decide_false (Some a = Some oldIP)) by congruence.
  destruct (bool_decide_reflect (a = newIP)) as [->|H2]; rewrite IH by done; simpl.
  - rewrite (bool_decide_true (Some newIP = Some newIP)) by done. simpl. by rewrite orb_true_r.
  - by rewrite (bool_decide_false (Some a = Some newIP)) by congruence.
Qed.

Definition keep_value (v : string) : list string :=
  if holds oldIP v then [] else [addr_string (default AddrInvalid (read_addr v))].

Lemma replace_values_spec l complete fo fn :
  forallb parses l = true ->
  replace_values oldIP newIP l complete fo fn =
  Ok (complete ++ flat_map keep_value l, fo || existsb (holds oldIP) l, fn || existsb (holds newIP) l).
Proof.
  revert complete fo fn. induction l as [|v l IH]; intros complete fo fn; [by rewrite !orb_false_r, app_nil_r|].
  cbn [forallb existsb replace_values flat_map].
  intros [(a & Ha)%parses_read Hp]%andb_true_iff. unfold keep_value at 1, holds at 1 2 4. rewrite Ha.
  apply read_addr_Some in Ha as (p & -> & ->). simpl default.
  destruct (bool_decide_reflect (a = oldIP)) as [->|H1].
  { rewrite IH by done. rewrite !bool_decide_true, (bool_decide_false (Some oldIP = Some newIP)) by congruence.
    simpl. by rewrite orb_true_r. }
  rewrite !(bool_decide_false (Some a = Some oldIP)) by congruence.
  destruct (bool_decide_reflect (a = newIP)) as [->|H2]; rewrite IH by done; simpl; rewrite <-app_assoc.
  - rewrite (bool_decide_true (Some newIP = Some newIP)) by done. simpl. by rewrite orb_true_r.
  - by rewrite (bool_decide_false (Some a = Some newIP)) by congruence.
Qed.

Context (Hnew : canonical newIP).

Lemma replace_nodes_addrs nodes a :
  forallb (fun n => parses (zn_IP n)) nodes = true -> has_addr oldIP (zn_IP <$> nodes) ->
  has_addr a (zn_IP <$> replace_nodes oldIP newIP (existsb (holds newIP) (zn_IP <$> nodes)) nodes) <->
  a = newIP \/ a <> oldIP /\ has_addr a (zn_IP <$> nodes).
Proof.
  intros Hp Hold. set (fn := existsb _ _).
  assert (has_addr a (zn_IP <$> replace_nodes oldIP newIP fn nodes) <->
    (a = newIP /\ fn = false /\ has_addr oldIP (zn_IP <$> nodes)) \/ a <> oldIP /\ has_addr a (zn_IP <$> nodes)) as Hg.
  { clear Hold. clearbody fn. induction nodes as [|n ns IH].
    - simpl. pose proof has_addr_nil. naive_solver.
    - cbn [forallb] in Hp. apply andb_true_iff in Hp as [(b & Hb)%parses_read Hp].
      cbn [replace_nodes flat_map]. fold (replace_nodes oldIP newIP fn ns).
      rewrite fmap_app, has_addr_app, IH, !fmap_cons, !has_addr_cons by done. clear IH.
      pose proof Hb as (p & -> & <-)%read_addr_Some. simpl default. pose proof (has_addr_nil a) as Hnil.
      destruct (bool_decide_reflect (Unmap p = oldIP)) as [Ho|Ho].
      + destruct fn; simpl; rewrite ?has_addr_cons, ?Hb; [naive_solver|].
        simpl. rewrite read_addr_string by done. naive_solver.
      + simpl. rewrite has_addr_cons, Hb. naive_solver. }
  rewrite Hg. subst fn. destruct (existsb _ _) eqn:Hn.
  - apply existsb_holds in Hn. naive_solver.
  - apply existsb_holds_false in Hn. naive_solver.
Qed.

Lemma keep_values_addrs l a :
  forallb parses l = true -> zoneless l ->
  has_addr a (flat_map keep_value l) <-> a <> oldIP /\ has_addr a l.
Proof.
  induction l as [|v l IH]; intros Hp Hz; [simpl; pose proof (has_addr_nil a); naive_solver|].
  cbn [forallb flat_map] in *. apply andb_true_iff in Hp as [(b & Hb)%parses_read Hp].
  assert (canonical b) as Hc by (eapply read_addr_canonical; [done|apply Hz; by left]).
  rewrite has_addr_app, has_addr_cons, IH by (done || (intros w Hw; apply Hz; by right)).
  unfold keep_value, holds. rewrite Hb. simpl. pose proof (has_addr_nil a) as Hnil.
  destruct (bool_decide_reflect (Some b = Some oldIP)) as [[= ->]|Ho]; [naive_solver|].
  rewrite has_addr_cons, read_addr_string by done. naive_solver.
Qed.
End Replace.

(** What a decoded zone and an operation's input decide: fail, do nothing, or
    send one PATCH. *)
Inductive plan : Type :=
  | PlanFail (e : dnsErr)
  | PlanNoop
  | PlanPatch (body : patchJSON).

(** [ReplaceIP] as a decision on the located zone. *)
Definition replace_plan (z : Zone) (oldIP newIP : Addr) : plan :=
  let values := active_values z in
  if existsb (holds oldIP) values then
    PlanPatch (match elems (zone_Nodes z) with
      | [] => JSONIPs (Some (flat_map (keep_value oldIP) values ++
                (if existsb (holds newIP) values then [] else [addr_string newIP])))
      | nodes => JSONNodes (replace_nodes oldIP newIP (existsb (holds newIP) values) nodes)
      end)
  else if existsb (holds newIP) values then PlanNoop else PlanFail ErrNotFound.

(** The answers to the configuration requests of a trace. *)
Definition configs (tr : list (event dnsE)) : list (httpOutcome (option (list domainWire))) :=
  flat_map (fun ev =>
    match ev_op ev in dnsE X return X -> list (httpOutcome (option (list domainWire))) with
    | HttpGetDomains _ => fun out => [out]
    | _ => fun _ => []
    end (ev_res ev)) tr.

(** The zone that the configuration read in a run locates under [key]. *)
Definition located (key : string) (m : ZoneMatch) (tr : list (event dnsE)) : Prop :=
  exists out ds, out ∈ configs tr /\ read_domains out = Ok ds /\ LocateZone ds key = Ok m.

Lemma located_parses key m tr : located key m tr -> zone_parses (zm_Zone m) = true.
Proof.
  intros (out & ds & _ & (ws & _ & Hws)%read_domains_ok & Hm). by eapply located_zone_parses.
Qed.

(** A single-zone operation reads the configuration once, under the lock of
    the zone, and carries out its plan for the located zone; [ok] is its
    result on success. *)
Definition follows_plan {A} (key : string) (p : Zone -> plan) (ok : ZoneMatch -> A)
    (tr : list (event dnsE)) (r : result dnsErr A) : Prop :=
  (patches tr = [] /\ is_ok r = false /\ forall m, ~ located key m tr) \/
  exists cfg ds m, configs tr = [cfg] /\ read_domains cfg = Ok ds /\ LocateZone ds key = Ok m /\
    match p (zm_Zone m) with
    | PlanFail e => patches tr = [] /\ r = Err e
    | PlanNoop => patches tr = [] /\ r = Ok (ok m)
    | PlanPatch body => exists out,
        tr = [Ev (ZoneLock key) true; Ev (HttpGetDomains config_path) cfg;
              Ev (HttpPatchZone (zoneEndpoint (zm_Domain m) (zm_ZoneName m)) body) out;
              Ev (ZoneUnlock key) tt] /\
        r = match patch_status out with Some e => Err e | None => Ok (ok m) end
    end.

Definition add_plan (ip : Addr) (z : Zone) : plan :=
  if zone_matches ip z then PlanNoop
  else PlanPatch (JSONIPs (Some (elems (zone_IPs z) ++ [addr_string ip]))).

Definition add_result (ip : Addr) (m : ZoneMatch) : AddIPResult :=
  let ips := elems (zone_IPs (zm_Zone m)) in
  if zone_matches ip (zm_Zone m) then mkAddIPResult (zm_FQDN m) false ips
  else mkAddIPResult (zm_FQDN m) true (ips ++ [addr_string ip]).

Definition replace_result (oldIP newIP : Addr) (m : ZoneMatch) : ReplaceIPResult :=
  match replace_plan (zm_Zone m) oldIP newIP with
  | PlanPatch (JSONNodes ns) => mkReplaceIPResult (zm_FQDN m) true [] ns
  | PlanPatch (JSONIPs ips) => mkReplaceIPResult (zm_FQDN m) true (elems ips) []
  | _ => match elems (zone_Nodes (zm_Zone m)) with
         | [] => mkReplaceIPResult (zm_FQDN m) false (flat_map (keep_value oldIP) (elems (zone_IPs (zm_Zone m)))) []
         | ns => mkReplaceIPResult (zm_FQDN m) false [] ns
         end
  end.

Lemma unlocated_fail {A} key p (ok : ZoneMatch -> A) tr e :
  patches tr = [] -> (forall m, ~ located key m tr) -> follows_plan key p ok tr (Err e).
Proof. intros. by left. Qed.

Lemma not_located_nil key tr m : configs tr = [] -> ~ located key m tr.
Proof. intros Hc (out & ds & Hin & _). rewrite Hc in Hin. by apply not_elem_of_nil in Hin. Qed.

Lemma not_located_err key tr out m e : configs tr = [out] ->
  (ds ← read_domains out; LocateZone ds key) = Err e -> ~ located key m tr.
Proof.
  intros Hc He (out' & ds & Hin & Hds & Hm). rewrite Hc in Hin.
  apply list_elem_of_singleton in Hin as ->. rewrite Hds in He. simpl in He. congruence.
Qed.

(** What the part after the location must establish. *)
Definition carries_out {A} (p : plan) (m : ZoneMatch) (ok : A) tr
    (Q : result dnsErr A -> unit -> list (event dnsE) -> Prop) : Prop :=
  match p with
  | PlanFail e => Q (Err e) tt tr
  | PlanNoop => Q (Ok ok) tt tr
  | PlanPatch b => forall out,
      Q (match patch_status out with Some e => Err e | None => Ok ok end) tt
        (tr ++ [Ev (HttpPatchZone (zoneEndpoint (zm_Domain m) (zm_ZoneName m)) b) out])
  end.

(** The frame shared by the single-zone operations. *)
Lemma wp_locked_plan {A} key p (ok : ZoneMatch -> A) (body : ZoneMatch -> prog dnsE (result dnsErr A)) :
  (forall m tr Q, zone_parses (zm_Zone m) = true ->
     carries_out (p (zm_Zone m)) m (ok m) tr Q -> wp (body m) tt tr Q) ->
  wp (with_lock key (r ← GetDomains;
        match (domains ← r; LocateZone domains key) with
        | Err e => mret (Err e)
        | Ok m => body m
        end)) tt [] (fun r _ tr => follows_plan key p ok tr r).
Proof.
  intros Hbody. apply wp_with_lock.
  { apply unlocated_fail; [done|]. intros m. by apply not_located_nil. }
  wp_steps. apply wp_GetDomains. intros out. cbv beta.
  destruct (mbind _ _) as [m|e] eqn:Hm.
  - apply result_bind_ok in Hm as (ds & Hds & Hm). pose proof Hds as (ws & _ & Hws)%read_domains_ok.
    apply Hbody; [by eapply located_zone_parses|]. unfold carries_out.
    destruct (p (zm_Zone m)) as [e| |b] eqn:Hp; [..|intros out2];
      right; exists out, ds, m; rewrite Hp; [done..|].
    do 3 (split; [done|]). exists out2. done.
  - wp_steps. apply unlocated_fail; [done|]. intros m. by eapply not_located_err.
Qed.

Lemma follows_plan_invalid {A} key p (ok : ZoneMatch -> A) e : follows_plan key p ok [] (Err e).
Proof. apply unlocated_fail; [done|]. intros m. by apply not_located_nil. Qed.

Lemma AddIP_follows_plan fqdn ip :
  wp (AddIP fqdn ip) tt [] (fun r _ tr =>
    follows_plan (normalizeFQDN fqdn) (add_plan (Unmap ip)) (add_result (Unmap ip)) tr r).
Proof.
  unfold AddIP. destruct (_ || _); [apply follows_plan_invalid|]. cbv zeta.
  apply wp_locked_plan. intros m tr Q Hz. unfold zone_parses in Hz. apply andb_true_iff in Hz as [Hz1 Hz2].
  unfold add_plan, add_result, zone_matches.
  pose proof (scan_values_spec (Unmap ip) (elems (zone_IPs (zm_Zone m)))) as Hs1.
  pose proof (scan_values_spec (Unmap ip) (zn_IP <$> elems (zone_Nodes (zm_Zone m)))) as Hs2.
  rewrite existsb_fmap, forallb_fmap in Hs2. intros HQ.
  destruct (scan_values _ (elems _)); [by rewrite Hs1 in HQ| |congruence].
  destruct Hs1 as [Hs1 _]. rewrite Hs1 in HQ.
  destruct (scan_values _ (_ <$> _)); [by rewrite Hs2 in HQ| |congruence].
  destruct Hs2 as [Hs2 _]. rewrite Hs2 in HQ. simpl in HQ.
  wp_steps. apply wp_patchZone. intros out. specialize (HQ out). cbv beta.
  by destruct (patch_status out); wp_steps.
Qed.

Lemma ReplaceIP_follows_plan fqdn oldIP newIP :
  wp (ReplaceIP fqdn oldIP newIP) tt [] (fun r _ tr =>
    follows_plan (normalizeFQDN fqdn) (fun z => replace_plan z (Unmap oldIP) (Unmap newIP))
      (replace_result (Unmap oldIP) (Unmap newIP)) tr r).
Proof.
  unfold ReplaceIP. destruct (_ || _) eqn:Hc; [apply follows_plan_invalid|].
  apply orb_false_iff in Hc as [_ Hne%bool_decide_eq_false]. cbv zeta.
  generalize dependent (Unmap oldIP). generalize (Unmap newIP). clear oldIP newIP. intros newIP oldIP Hne.
  apply wp_locked_plan. intros m tr Q Hz. unfold zone_parses in Hz. apply andb_true_iff in Hz as [Hz1 Hz2].
  unfold replace_result, replace_plan, active_values. intros HQ.
  destruct (elems (zone_Nodes (zm_Zone m))) as [|n ns] eqn:Hns.
  - unfold replace_simple. rewrite replace_values_spec by done. cbn [orb app].
    destruct (existsb (holds oldIP) _); cbn [negb]; [|by destruct (existsb (holds newIP) _)].
    replace (if existsb (holds newIP) (elems (zone_IPs (zm_Zone m))) then _ else _) with
      (flat_map (keep_value oldIP) (elems (zone_IPs (zm_Zone m))) ++
       (if existsb (holds newIP) (elems (zone_IPs (zm_Zone m))) then [] else [addr_string newIP]))
      by (destruct (existsb (holds newIP) _); by rewrite ?app_nil_r).
    wp_steps. apply wp_patchZone. intros out. specialize (HQ out). cbv beta.
    by destruct (patch_status out); wp_steps.
  - unfold replace_advanced. rewrite find_nodes_spec by done. cbn [orb].
    destruct (existsb (holds oldIP) _); cbn [negb]; [|by destruct (existsb (holds newIP) _)].
    wp_steps. apply wp_patchZone. intros out. specialize (HQ out). cbv beta.
    by destruct (patch_status out); wp_steps.
Qed.

(** The plan is the one of the zone the run located. *)
Lemma follows_plan_located {A} key p (ok : ZoneMatch -> A) tr r m :
  follows_plan key p ok tr r -> located key m tr ->
  match p (zm_Zone m) with
  | PlanFail e => patches tr = [] /\ r = Err e
  | PlanNoop => patches tr = [] /\ r = Ok (ok m)
  | PlanPatch body => exists out,
      patches tr = [(zoneEndpoint (zm_Domain m) (zm_ZoneName m), body, out)] /\
      r = match patch_status out with Some e => Err e | None => Ok (ok m) end
  end.
Proof.
  intros [(_ & _ & Hn)|(cfg & ds & m' & Hcfg & Hds & Hm & H)] Hl; [by destruct (Hn m)|].
  destruct Hl as (cfg' & ds' & Hin & Hds' & Hm'). rewrite Hcfg in Hin.
  apply list_elem_of_singleton in Hin as ->. rewrite Hds in Hds'. injection Hds' as <-.
  rewrite Hm in Hm'. injection Hm' as <-. destruct (p (zm_Zone m')); try done.
  destruct H as (out & -> & ->). by exists out.
Qed.

Lemma follows_plan_patch {A} key p (ok : ZoneMatch -> A) tr r path body out :
  follows_plan key p ok tr r -> patches tr = [(path, body, out)] ->
  exists m, located key m tr /\ p (zm_Zone m) = PlanPatch body /\
    path = zoneEndpoint (zm_Domain m) (zm_ZoneName m) /\
    r = match patch_status out with Some e => Err e | None => Ok (ok m) end.
Proof.
  intros [(Hp & _)|(cfg & ds & m & Hcfg & Hds & Hm & H)] Htr; [congruence|].
  exists m. destruct (p (zm_Zone m)) as [e| |b]; [destruct H; congruence..|].
  destruct H as (out' & -> & ->). simpl in Htr. injection Htr as <- <- <-.
  split; [exists cfg, ds; by split; [left|]|done].
Qed.

Lemma follows_plan_patches {A} key p (ok : ZoneMatch -> A) tr r :
  follows_plan key p ok tr r -> patches tr = [] \/ exists path body out, patches tr = [(path, body, out)].
Proof.
  intros [(Hp & _)|(cfg & ds & m & _ & _ & _ & H)]; [by left|].
  destruct (p (zm_Zone m)); [left; tauto..|]. destruct H as (out & -> & _). right. simpl. eauto.
Qed.

(** The nodes of an advanced replacement: the other entries unchanged, the
    old one with its address and the new IP. *)
Lemma replace_nodes_in oldIP newIP fn nodes n :
  forallb (fun n => parses (zn_IP n)) nodes = true ->
  n ∈ replace_nodes oldIP newIP fn nodes ->
  n ∈ nodes \/ zn_IP n = addr_string newIP /\
    exists n0, n0 ∈ nodes /\ read_addr (zn_IP n0) = Some oldIP /\ zn_Address n = zn_Address n0.
Proof.
  intros Hp. rewrite forallb_elem_of in Hp. unfold replace_nodes.
  rewrite list_elem_of_In, in_flat_map. intros (n0 & Hn0 & Hin).
  apply list_elem_of_In in Hn0, Hin. pose proof (Hp n0 Hn0) as (b & Hb)%parses_read.
  pose proof Hb as (p & Hpp & <-)%read_addr_Some. rewrite Hpp in Hin. simpl in Hin.
  destruct (bool_decide_reflect (Unmap p = oldIP)) as [<-|]; [|apply list_elem_of_singleton in Hin as ->; by left].
  destruct fn; [by apply not_elem_of_nil in Hin|]. apply list_elem_of_singleton in Hin as ->. right. eauto.
Qed.

Lemma body_values_ips l : body_values (JSONIPs (Some l)) = l.
Proof. done. Qed.

Lemma body_values_nodes l : body_values (JSONNodes l) = zn_IP <$> l.
Proof. done. Qed.

(** The effect of a replacement on the addresses of the zone. *)
Lemma replace_plan_addrs z oldIP newIP body a :
  oldIP <> newIP -> canonical newIP -> zone_parses z = true -> zoneless (active_values z) ->
  replace_plan z oldIP newIP = PlanPatch body ->
  has_addr a (body_values body) <-> a = newIP \/ a <> oldIP /\ has_addr a (active_values z).
Proof.
  intros Hne Hc Hp Hz Hplan. pose proof (active_values_parse z Hp) as Hpa.
  unfold replace_plan in Hplan. destruct (existsb (holds oldIP) _) eqn:Ho;
    [|by destruct (existsb (holds newIP) _)].
  apply existsb_holds in Ho. unfold active_values in *.
  assert (forall b, PlanPatch b = PlanPatch body -> body = b) as Hinj by congruence.
  apply Hinj in Hplan as ->. clear Hinj.
  destruct (elems (zone_Nodes z)) as [|n ns].
  - rewrite body_values_ips.
    rewrite has_addr_app, keep_values_addrs by done.
    destruct (existsb (holds newIP) _) eqn:Hn.
    + apply existsb_holds in Hn. pose proof (has_addr_nil a). naive_solver.
    + apply existsb_holds_false in Hn. rewrite has_addr_cons, read_addr_string by done.
      pose proof (has_addr_nil a). naive_solver.
  - rewrite body_values_nodes. rewrite forallb_fmap in Hpa. by apply replace_nodes_addrs.
Qed.

Lemma follows_plan_ok {A} key p (ok : ZoneMatch -> A) tr res :
  follows_plan key p ok tr (Ok res) -> patches tr = [] ->
  exists m, located key m tr /\ p (zm_Zone m) = PlanNoop /\ res = ok m.
Proof.
  intros [(_ & ? & _)|(cfg & ds & m & Hcfg & Hds & Hm & H)] Htr; [done|]. exists m.
  split; [exists cfg, ds; rewrite Hcfg; by split; [left|]|].
  destruct (p (zm_Zone m)) as [e| |b]; [by destruct H|by destruct H as [_ [= ->]]|].
  by destruct H as (out & -> & _).
Qed.

(** ** Properties *)

(** [AddIP] extends the zone and loses nothing: an execution that sends
    a PATCH is exactly lock, read, PATCH, unlock; the PATCH goes to the zone
    the configuration just read locates under the normalised name, which
    holds the address in neither of its formats, and carries every existing
    value in order followed by the new address; the operation reports success
    exactly when the server answered "ok".  An execution that sends no PATCH
    and succeeds found the address already there and reports it as not added. *)
Theorem add_ip_extends_the_zone (fqdn : string) (ip : Addr) :
  let key := normalizeFQDN fqdn in
  always (AddIP fqdn ip) tt (fun tr r _ =>
    (patches tr = [] /\ forall res, r = Ok res ->
       exists m, located key m tr /\ zone_matches (Unmap ip) (zm_Zone m) = true /\
         res = mkAddIPResult (zm_FQDN m) false (elems (zone_IPs (zm_Zone m)))) \/
    exists m out cfg,
      let complete := elems (zone_IPs (zm_Zone m)) ++ [addr_string (Unmap ip)] in
      tr = [Ev (ZoneLock key) true; Ev (HttpGetDomains config_path) cfg;
            Ev (HttpPatchZone (zoneEndpoint (zm_Domain m) (zm_ZoneName m)) (JSONIPs (Some complete))) out;
            Ev (ZoneUnlock key) tt] /\
      located key m tr /\ zone_matches (Unmap ip) (zm_Zone m) = false /\
      r = match patch_status out with
          | None => Ok (mkAddIPResult (zm_FQDN m) true complete)
          | Some e => Err e
          end).
Proof.
  intros key. apply wp_always. eapply wp_mono; [apply AddIP_follows_plan|].
  fold key. intros r [] tr [(Hp & Hr & _)|(cfg & ds & m & Hcfg & Hds & Hm & Hplan)].
  - left. split; [done|]. intros res ->. done.
  - assert (located key m tr) as Hl by (exists cfg, ds; rewrite Hcfg; by split; [left|]).
    unfold add_plan, add_result in Hplan. destruct (zone_matches _ _) eqn:Hz.
    + destruct Hplan as [Hp ->]. left. split; [done|]. intros res [= <-]. by exists m.
    + destruct Hplan as (out & Htr & ->). right. exists m, out, cfg. done.
Qed.

(** A retry of [AddIP] is harmless: when the zone located by a second
    run holds what the PATCH of a first run wrote, the second run sends
    nothing and reports the address as present.  The address written is read
    back as the address tested for, in every IPv4 and IPv6 form. *)
Theorem add_ip_retry_sends_nothing (fqdn : string) (ip : Addr) tr1 r1 tr2 r2 path ips out m :
  canonical (Unmap ip) ->
  runs (AddIP fqdn ip) tt tr1 r1 tt -> patches tr1 = [(path, JSONIPs ips, out)] ->
  runs (AddIP fqdn ip) tt tr2 r2 tt ->
  located (normalizeFQDN fqdn) m tr2 -> zone_IPs (zm_Zone m) = ips ->
  patches tr2 = [] /\ r2 = Ok (mkAddIPResult (zm_FQDN m) false (elems ips)).
Proof.
  intros Hc Hrun1 Hp1 Hrun2 Hl2 <-.
  apply (wp_runs _ _ _ _ (AddIP_follows_plan fqdn ip)) in Hrun1, Hrun2. cbv beta in *. rewrite !app_nil_l in *.
  destruct (follows_plan_patch _ _ _ _ _ _ _ _ Hrun1 Hp1) as (m1 & _ & Hplan & _).
  pose proof (follows_plan_located _ _ _ _ _ _ Hrun2 Hl2) as H.
  assert (zone_matches (Unmap ip) (zm_Zone m) = true) as Hz.
  { unfold add_plan in Hplan. destruct (zone_matches _ (zm_Zone m1)); [done|]. injection Hplan as Hips.
    unfold zone_matches. rewrite <-Hips. simpl. rewrite existsb_app. simpl. unfold holds at 2.
    rewrite read_addr_string, bool_decide_true by done. by rewrite !orb_true_r. }
  unfold add_plan, add_result in H. rewrite Hz in H. done.
Qed.

(** [ReplaceIP] replaces one address and nothing else: at most one PATCH
    is sent, to the zone the configuration locates, which holds the old
    address, in the format the zone uses; the addresses of its body are the
    new one and every address of the zone except the old one, and advanced
    entries keep their other data; without a PATCH a success means that the
    replacement was already complete. *)
Theorem replace_ip_replaces_exactly (fqdn : string) (oldIP newIP : Addr) tr r :
  canonical (Unmap newIP) -> Unmap oldIP <> Unmap newIP ->
  runs (ReplaceIP fqdn oldIP newIP) tt tr r tt ->
  let key := normalizeFQDN fqdn in
  match patches tr with
  | [] => forall res, r = Ok res -> rep_Changed res = false /\
      exists m, located key m tr /\ has_addr (Unmap newIP) (active_values (zm_Zone m)) /\
        ~ has_addr (Unmap oldIP) (active_values (zm_Zone m))
  | [(path, body, out)] => exists m, located key m tr /\
      path = zoneEndpoint (zm_Domain m) (zm_ZoneName m) /\
      has_addr (Unmap oldIP) (active_values (zm_Zone m)) /\
      (is_ok r = true <-> patch_status out = None) /\
      (zoneless (active_values (zm_Zone m)) -> forall a, has_addr a (body_values body) <->
         a = Unmap newIP \/ a <> Unmap oldIP /\ has_addr a (active_values (zm_Zone m))) /\
      match body with
      | JSONIPs ips => elems (zone_Nodes (zm_Zone m)) = [] /\ ips <> None
      | JSONNodes ns => elems (zone_Nodes (zm_Zone m)) <> [] /\ forall n, n ∈ ns ->
          n ∈ elems (zone_Nodes (zm_Zone m)) \/ zn_IP n = addr_string (Unmap newIP) /\
          exists n0, n0 ∈ elems (zone_Nodes (zm_Zone m)) /\
            read_addr (zn_IP n0) = Some (Unmap oldIP) /\ zn_Address n = zn_Address n0
      end
  | _ => False
  end.
Proof.
  intros Hc Hne Hrun key.
  apply (wp_runs _ _ _ _ (ReplaceIP_follows_plan fqdn oldIP newIP)) in Hrun. cbv beta in Hrun. fold key in Hrun.
  rewrite app_nil_l in Hrun.
  destruct (follows_plan_patches _ _ _ _ _ Hrun) as [Htr|(path & body & out & Htr)]; rewrite Htr.
  - intros res ->. destruct (follows_plan_ok _ _ _ _ _ Hrun Htr) as (m & Hl & Hp & ->).
    unfold replace_result. rewrite Hp. unfold replace_plan in Hp.
    destruct (existsb (holds (Unmap oldIP)) _) eqn:Ho; [done|].
    destruct (existsb (holds (Unmap newIP)) _) eqn:Hn; [|done].
    split; [by destruct (elems (zone_Nodes (zm_Zone m)))|]. exists m.
    by rewrite <-existsb_holds, <-existsb_holds_false.
  - destruct (follows_plan_patch _ _ _ _ _ _ _ _ Hrun Htr) as (m & Hl & Hplan & -> & ->).
    pose proof (located_parses _ _ _ Hl) as Hparse. exists m. split; [done|]. split; [done|].
    split; [|split; [by destruct (patch_status out)|split]].
    + unfold replace_plan in Hplan. destruct (existsb (holds (Unmap oldIP)) _) eqn:Ho.
      * by apply existsb_holds.
      * by destruct (existsb (holds (Unmap newIP)) _).
    + intros Hz a. by eapply replace_plan_addrs.
    + unfold zone_parses in Hparse. apply andb_true_iff in Hparse as [_ Hparse].
      unfold replace_plan in Hplan. destruct (existsb (holds (Unmap oldIP)) _);
        [|by destruct (existsb (holds (Unmap newIP)) _)].
      destruct (elems (zone_Nodes (zm_Zone m))) eqn:Hns; injection Hplan as <-; [done|].
      split; [done|]. intros n Hn. by eapply replace_nodes_in.
Qed.

(** [ReplaceIP] is idempotent: a second run that finds the zone as a
    first run's PATCH left it sends nothing and succeeds. *)
Theorem replace_ip_retry_sends_nothing (fqdn : string) (oldIP newIP : Addr) tr1 r1 tr2 r2 path body out m1 m2 :
  canonical (Unmap newIP) -> Unmap oldIP <> Unmap newIP ->
  runs (ReplaceIP fqdn oldIP newIP) tt tr1 r1 tt -> patches tr1 = [(path, body, out)] ->
  located (normalizeFQDN fqdn) m1 tr1 -> zoneless (active_values (zm_Zone m1)) ->
  runs (ReplaceIP fqdn oldIP newIP) tt tr2 r2 tt ->
  located (normalizeFQDN fqdn) m2 tr2 -> active_values (zm_Zone m2) = body_values body ->
  patches tr2 = [] /\ exists res, r2 = Ok res /\ rep_Changed res = false.
Proof.
  intros Hc Hne Hrun1 Hp1 Hl1 Hz Hrun2 Hl2 Hbody.
  apply (wp_runs _ _ _ _ (ReplaceIP_follows_plan fqdn oldIP newIP)) in Hrun1, Hrun2.
  cbv beta in *. rewrite !app_nil_l in *.
  pose proof (follows_plan_located _ _ _ _ _ _ Hrun1 Hl1) as H1. cbv beta in H1.
  destruct (replace_plan (zm_Zone m1) _ _) as [e| |b] eqn:Hplan; [destruct H1; congruence..|].
  destruct H1 as (out1 & H1 & _). rewrite H1 in Hp1. injection Hp1 as _ -> _.
  assert (forall a, has_addr a (active_values (zm_Zone m2)) <-> a = Unmap newIP \/ a <> Unmap oldIP /\
    has_addr a (active_values (zm_Zone m1))) as Ha.
  { intros a. rewrite Hbody. eapply replace_plan_addrs; try done. by eapply located_parses. }
  pose proof (follows_plan_located _ _ _ _ _ _ Hrun2 Hl2) as H2. cbv beta in H2.
  unfold replace_result in H2.
  assert (existsb (holds (Unmap oldIP)) (active_values (zm_Zone m2)) = false) as Ho.
  { apply existsb_holds_false. rewrite Ha. naive_solver. }
  assert (existsb (holds (Unmap newIP)) (active_values (zm_Zone m2)) = true) as Hn.
  { apply existsb_holds. rewrite Ha. by left. }
  unfold replace_plan in H2. rewrite Ho, Hn in H2. destruct H2 as [-> ->]. split; [done|].
  eexists; split; [done|]. by destruct (elems (zone_Nodes (zm_Zone m2))).
Qed.

(** *** The lock discipline *)

(** Whether a call is a request to the server. *)
Definition is_http {X} (e : dnsE X) : bool :=
  match e with HttpGetDomains _ | HttpPatchZone _ _ => true | _ => false end.

(** A program that neither locks nor unlocks. *)
Fixpoint lock_free {A} (p : prog dnsE A) : Prop :=
  match p with
  | Ret _ => True
  | Vis e k => is_http e = true /\ forall x, lock_free (k x)
  end.

Lemma lock_free_bind {A B} (p : prog dnsE A) (f : A -> prog dnsE B) :
  lock_free p -> (forall a, lock_free (f a)) -> lock_free (p ≫= f).
Proof.
  intros Hp Hf. unfold mbind, prog_bind, pbind. induction p as [a|X e k IH]; simpl in *; [apply Hf|].
  destruct Hp as [He Hk]. split; [done|]. intros x. by apply IH.
Qed.

Lemma lock_free_GetDomains : lock_free GetDomains.
Proof. done. Qed.

Lemma lock_free_patchZone m r : lock_free (patchZone m r).
Proof. done. Qed.

Ltac lock_free_tac :=
  repeat lazymatch goal with
    | |- lock_free (mret _) => exact I
    | |- lock_free GetDomains => apply lock_free_GetDomains
    | |- lock_free (patchZone _ _) => apply lock_free_patchZone
    | |- lock_free (mbind _ _) => apply lock_free_bind; [|intros ?]
    | |- lock_free _ => case_match
    end.

Lemma lock_free_replace_simple m o n : lock_free (replace_simple m o n).
Proof. unfold replace_simple. lock_free_tac. Qed.
Lemma lock_free_replace_advanced m ns o n : lock_free (replace_advanced m ns o n).
Proof. unfold replace_advanced. lock_free_tac. Qed.
Lemma lock_free_move_locked s t ip : lock_free (move_locked s t ip).
Proof. unfold move_locked. lock_free_tac. Qed.

(** One event of the lock discipline on the stack of held locks: requests need
    a lock, a lock is only taken above the ones held, and locks are released
    in reverse order. *)
Definition lock_step (held : list string) (ev : event dnsE) : option (list string) :=
  match ev_op ev in dnsE X return X -> option (list string) with
  | ZoneLock key => fun acquired =>
    if forallb (fun h => str_ltb h key) held then Some (if (acquired : bool) then key :: held else held) else None
  | ZoneUnlock key => fun _ =>
    match held with
    | h :: held' => if String.eqb h key then Some held' else None
    | [] => None
    end
  | _ => fun _ => match held with [] => None | _ => Some held end
  end (ev_res ev).

Definition lock_steps (held : list string) (tr : list (event dnsE)) : option (list string) :=
  foldl (fun h ev => h ≫= fun h => lock_step h ev) (Some held) tr.

Lemma lock_steps_snoc held tr ev : lock_steps held (tr ++ [ev]) = lock_steps held tr ≫= fun h => lock_step h ev.
Proof. unfold lock_steps. by rewrite foldl_app. Qed.

Lemma wp_lock_free {A} (p : prog dnsE A) tr key held :
  lock_free p -> lock_steps [] tr = Some (key :: held) ->
  wp p tt tr (fun _ _ tr' => lock_steps [] tr' = Some (key :: held)).
Proof.
  revert tr. induction p as [a|X e k IH]; intros tr Hp Htr; [by wp_steps|]. destruct Hp as [He Hk].
  wp_answer x s Hs. destruct s. apply IH; [done|]. rewrite lock_steps_snoc, Htr. by destruct e.
Qed.

Lemma wp_locked {A} key (body : prog dnsE (result dnsErr A)) tr held :
  lock_steps [] tr = Some held -> forallb (fun h => str_ltb h key) held = true ->
  (forall tr, lock_steps [] tr = Some (key :: held) ->
     wp body tt tr (fun _ _ tr' => lock_steps [] tr' = Some (key :: held))) ->
  wp (with_lock key body) tt tr (fun _ _ tr' => lock_steps [] tr' = Some held).
Proof.
  intros Htr Hh Hbody. apply wp_with_lock.
  - rewrite lock_steps_snoc, Htr. simpl. unfold lock_step. simpl. by rewrite Hh.
  - eapply wp_mono; [apply Hbody; rewrite lock_steps_snoc, Htr; simpl; unfold lock_step; simpl; by rewrite Hh|].
    intros r [] tr' H. cbv beta. rewrite lock_steps_snoc, H. simpl. unfold lock_step. simpl.
    by rewrite String.eqb_refl.
Qed.

Lemma str_ltb_total s t : s <> t -> str_ltb t s = false -> str_ltb s t = true.
Proof.
  unfold str_ltb, String.ltb. intros Hne. rewrite (String.compare_antisym s t).
  destruct (String.compare t s) eqn:E; simpl; try done. by apply String.compare_eq_iff in E.
Qed.

(** Lock discipline of every zone update: requests are only made under a
    zone lock; every lock taken is released, the last one first, on every
    path including the failing ones; and a second lock is only taken above
    the first in the order of keys, so that two moves between the same zones
    in opposite directions cannot wait for each other. *)
Theorem zone_updates_respect_the_lock_order (fqdn source target : string) (a b : Addr) :
  let disciplined {A} (p : prog dnsE A) := always p tt (fun tr _ _ => lock_steps [] tr = Some []) in
  disciplined (AddIP fqdn a) /\ disciplined (ReplaceIP fqdn a b) /\ disciplined (MoveIP source target a).
Proof.
  intros disciplined. subst disciplined. cbv beta. split; [|split]; apply wp_always.
  - unfold AddIP. destruct (_ || _); [done|]. apply wp_locked; [done|done|].
    intros tr Htr. apply wp_lock_free; [|done]. lock_free_tac.
  - unfold ReplaceIP. destruct (_ || _); [done|]. apply wp_locked; [done|done|].
    intros tr Htr. apply wp_lock_free; [|done].
    apply lock_free_bind; [apply lock_free_GetDomains|]. intros r. case_match; [|done].
    case_match; [apply lock_free_replace_simple|apply lock_free_replace_advanced].
  - unfold MoveIP. destruct (_ || _) eqn:Hc; [done|].
    apply orb_false_iff in Hc as [[_ Hne%String.eqb_neq]%orb_false_iff _].
    assert (forall k1 k2, str_ltb k1 k2 = true -> wp (with_lock k1 (with_lock k2
      (move_locked (normalizeFQDN source) (normalizeFQDN target) a))) tt []
      (fun _ _ tr => lock_steps [] tr = Some [])) as H.
    { intros k1 k2 Hlt. apply wp_locked; [done|done|]. intros tr Htr.
      apply wp_locked; [done|simpl; by rewrite Hlt|]. intros tr' Htr'.
      apply wp_lock_free; [apply lock_free_move_locked|done]. }
    destruct (str_ltb (normalizeFQDN target) (normalizeFQDN source)) eqn:Hlt; apply H; [done|].
    by apply str_ltb_total.
Qed.

(** *** Moving an address *)

(** The values of the format [MoveIP] works on: the nodes when the zone has a
    node list, even an empty one. *)
Definition move_values (z : Zone) : list string :=
  match zone_Nodes z with Some ns => zn_IP <$> ns | None => elems (zone_IPs z) end.

Lemma move_values_parse z : zone_parses z = true -> forallb parses (move_values z) = true.
Proof.
  unfold zone_parses, move_values. intros [H1 H2]%andb_true_iff.
  destruct (zone_Nodes z); [by rewrite forallb_fmap|done].
Qed.

Lemma holds_read a b v : read_addr v = Some b -> holds a v = bool_decide (b = a).
Proof. intros H. unfold holds. rewrite H. apply bool_decide_ext. split; congruence. Qed.

Lemma remove_nodes_spec ip items kept moved :
  forallb (fun n => parses (zn_IP n)) items = true ->
  exists moved', remove_nodes ip items kept moved =
      Ok (kept ++ List.filter (fun n => negb (holds ip (zn_IP n))) items, moved') /\
    (existsb (fun n => holds ip (zn_IP n)) items = false -> moved' = moved) /\
    (existsb (fun n => holds ip (zn_IP n)) items = true -> exists n, moved' = Some n /\ read_addr (zn_IP n) = Some ip).
Proof.
  revert kept moved. induction items as [|n items IH]; intros kept moved.
  { exists moved. by rewrite app_nil_r. }
  cbn [forallb existsb remove_nodes List.filter]. intros [(b & Hb)%parses_read Hp]%andb_true_iff.
  rewrite !(holds_read ip b) by done. pose proof Hb as (p & -> & <-)%read_addr_Some.
  destruct (bool_decide_reflect (Unmap p = ip)) as [<-|Hne]; cbn [negb orb].
  - destruct (IH kept (Some n) Hp) as (moved' & -> & H1 & H2).
    exists moved'. split; [done|]. split; [done|]. intros _.
    destruct (existsb _ items) eqn:He; [by apply H2|]. rewrite H1 by done. eauto.
  - destruct (IH (kept ++ [n]) moved Hp) as (moved' & -> & H1 & H2).
    exists moved'. split; [by rewrite <-app_assoc|done].
Qed.

Lemma remove_values_spec ip l kept found :
  forallb parses l = true ->
  remove_values ip l kept found = Ok (kept ++ flat_map (keep_value ip) l, found || existsb (holds ip) l).
Proof.
  revert kept found. induction l as [|v l IH]; intros kept found; [by rewrite app_nil_r, orb_false_r|].
  cbn [forallb existsb remove_values flat_map]. intros [(b & Hb)%parses_read Hp]%andb_true_iff.
  unfold keep_value at 1. rewrite !(holds_read ip b), Hb by done.
  pose proof Hb as (p & -> & <-)%read_addr_Some. simpl default.
  destruct (bool_decide_reflect (Unmap p = ip)) as [<-|Hne]; rewrite IH by done; cbn [orb app].
  - by rewrite orb_true_r.
  - by rewrite <-app_assoc.
Qed.

(** The request to the source zone keeps every other address. *)
Lemma zoneWithoutIP_spec z ip :
  zone_parses z = true ->
  exists req moved, zoneWithoutIP z ip = Ok (req, existsb (holds ip) (move_values z), moved) /\
    (zoneless (move_values z) -> forall a,
       has_addr a (body_values (MarshalJSON req)) <-> a <> ip /\ has_addr a (move_values z)) /\
    (zone_Nodes z <> None -> has_addr ip (move_values z) ->
       exists n, moved = Some n /\ read_addr (zn_IP n) = Some ip).
Proof.
  intros Hz. pose proof (move_values_parse z Hz) as Hp. unfold move_values, zoneWithoutIP in *.
  destruct (zone_Nodes z) as [items|].
  - rewrite forallb_fmap in Hp. destruct (remove_nodes_spec ip items [] None Hp) as (moved & -> & H1 & H2).
    rewrite existsb_fmap. rewrite app_nil_l. cbv [mbind result_bind].
    eexists _, moved. split.
    { do 3 f_equal. destruct (existsb _ items); [by destruct H2 as (n & -> & _)|by rewrite H1]. }
    split.
    + intros _ a. unfold nodes_request, MarshalJSON. simpl pz_Nodes. cbv iota. rewrite body_values_nodes.
      unfold has_addr. setoid_rewrite list_elem_of_fmap. setoid_rewrite list_elem_of_In.
      setoid_rewrite filter_In. setoid_rewrite negb_true_iff. unfold holds.
      setoid_rewrite bool_decide_eq_false. setoid_rewrite <-list_elem_of_In. split.
      * intros (v & (n & -> & Hn & Hni) & Ha). split; [congruence|eauto].
      * intros (Hne & v & (n & -> & Hn) & Ha). exists (zn_IP n). split; [|done]. exists n. split; [done|].
        split; [done|congruence].
    + intros _ Hh. rewrite <-existsb_holds, existsb_fmap in Hh. by apply H2.
  - rewrite remove_values_spec by done. cbv [mbind result_bind]. eexists _, None. split; [done|]. split; [|done].
    intros Hzl a. unfold ips_request, MarshalJSON. simpl pz_Nodes. cbv iota. simpl pz_IPs.
    rewrite body_values_ips. simpl app. by apply keep_values_addrs.
Qed.

Lemma elems_slice_append {A} (s : slice A) x : elems (slice_append s x) = elems s ++ [x].
Proof. done. Qed.

(** The request to the target zone keeps every address and adds the moved one. *)
Lemma zoneWithIP_spec z ip node :
  zone_parses z = true -> canonical ip ->
  (zone_Nodes z <> None -> exists n, node = Some n /\ read_addr (zn_IP n) = Some ip) ->
  exists req, zoneWithIP z ip node = Ok (req, existsb (holds ip) (move_values z)) /\
    (~ has_addr ip (move_values z) -> forall a,
       has_addr a (body_values (MarshalJSON req)) <-> a = ip \/ has_addr a (move_values z)).
Proof.
  intros Hz Hc Hnode. pose proof (move_values_parse z Hz) as Hp. unfold move_values, zoneWithIP in *.
  destruct (zone_Nodes z) as [items|]; [pose proof (scan_values_spec ip (zn_IP <$> items)) as Hs|
    pose proof (scan_values_spec ip (elems (zone_IPs z))) as Hs]; destruct (scan_values _ _); try congruence.
  - eexists. split; [by rewrite Hs|]. by rewrite <-existsb_holds, Hs.
  - destruct Hs as [Hs _]. rewrite Hs. destruct Hnode as (n & -> & Hn); [done|]. eexists. split; [done|].
    intros _ a. unfold MarshalJSON, slice_append. cbn [pz_Nodes]. rewrite body_values_nodes, elems_slice_copy.
    rewrite fmap_app, has_addr_app. cbn [fmap list_fmap]. rewrite has_addr_cons, Hn.
    pose proof (has_addr_nil a). naive_solver.
  - eexists. split; [by rewrite Hs|]. by rewrite <-existsb_holds, Hs.
  - destruct Hs as [Hs _]. rewrite Hs. eexists. split; [done|].
    intros _ a. unfold MarshalJSON, slice_append. cbn [pz_Nodes pz_IPs]. rewrite body_values_ips, elems_slice_copy.
    rewrite has_addr_app, has_addr_cons, read_addr_string by done.
    pose proof (has_addr_nil a). naive_solver.
Qed.

Definition zone_path (m : ZoneMatch) : string := zoneEndpoint (zm_Domain m) (zm_ZoneName m).

(** The PATCH requests of a move between two located zones, given the bodies
    for the target and the source, and its result. *)
Definition move_requests (src dst : ZoneMatch) (bsrc bdst : patchJSON) (present : bool)
    (ps : list (string * patchJSON * httpOutcome (option string))) (r : result dnsErr MoveIPResult) : Prop :=
  let moved := Ok (mkMoveIPResult (zm_FQDN src) (zm_FQDN dst) true) in
  if present then
    exists out, ps = [(zone_path src, bsrc, out)] /\
      r = match patch_status out with Some e => Err e | None => moved end
  else
    exists out1,
      match patch_status out1 with
      | Some e => ps = [(zone_path dst, bdst, out1)] /\ r = Err e
      | None => exists out2,
          match patch_status out2 with
          | None => ps = [(zone_path dst, bdst, out1); (zone_path src, bsrc, out2)] /\ r = moved
          | Some e => exists out3,
              ps = [(zone_path dst, bdst, out1); (zone_path src, bsrc, out2);
                    (zone_path dst, MarshalJSON (zoneSnapshotRequest (zm_Zone dst)), out3)] /\ r = Err e
          end
      end.

Lemma patches_app tr1 tr2 : patches (tr1 ++ tr2) = patches tr1 ++ patches tr2.
Proof. apply flat_map_app. Qed.

Lemma configs_app tr1 tr2 : configs (tr1 ++ tr2) = configs tr1 ++ configs tr2.
Proof. apply flat_map_app. Qed.

Lemma zoneWithIP_found z ip node req found :
  zone_parses z = true -> zoneWithIP z ip node = Ok (req, found) -> found = existsb (holds ip) (move_values z).
Proof.
  intros Hz. unfold zoneWithIP, move_values. destruct (zone_Nodes z) as [items|].
  - pose proof (scan_values_spec ip (zn_IP <$> items)) as Hs. destruct (scan_values _ _); [|destruct node|];
      intros [=]; subst; by destruct Hs.
  - pose proof (scan_values_spec ip (elems (zone_IPs z))) as Hs. destruct (scan_values _ _);
      intros [=]; subst; by destruct Hs.
Qed.

(** What an execution of [MoveIP] may do. *)
Definition move_outcome (skey tkey : string) (ip : Addr) (tr : list (event dnsE)) (r : result dnsErr MoveIPResult) : Prop :=
  (patches tr = [] /\ forall res, r = Ok res -> mv_Changed res = false /\
     exists src dst, located skey src tr /\ located tkey dst tr /\
       ~ has_addr ip (move_values (zm_Zone src)) /\ has_addr ip (move_values (zm_Zone dst))) \/
  exists src dst bsrc bdst, located skey src tr /\ located tkey dst tr /\
    has_addr ip (move_values (zm_Zone src)) /\
    (zoneless (move_values (zm_Zone src)) -> forall a,
       has_addr a (body_values bsrc) <-> a <> ip /\ has_addr a (move_values (zm_Zone src))) /\
    (~ has_addr ip (move_values (zm_Zone dst)) -> forall a,
       has_addr a (body_values bdst) <-> a = ip \/ has_addr a (move_values (zm_Zone dst))) /\
    move_requests src dst bsrc bdst (existsb (holds ip) (move_values (zm_Zone dst))) (patches tr) r.

(** Lock events are invisible to it. *)
Lemma move_outcome_ext skey tkey ip tr tr' r :
  patches tr = patches tr' -> configs tr = configs tr' ->
  move_outcome skey tkey ip tr r -> move_outcome skey tkey ip tr' r.
Proof.
  intros Hp Hc. assert (forall k m, located k m tr -> located k m tr') as Hl.
  { intros k m (out & ds & H). rewrite Hc in H. by exists out, ds. }
  unfold move_outcome. rewrite Hp. naive_solver.
Qed.

Lemma move_locked_outcome skey tkey ip tr :
  canonical (Unmap ip) -> patches tr = [] -> configs tr = [] ->
  wp (move_locked skey tkey ip) tt tr (fun r _ tr' => move_outcome skey tkey (Unmap ip) tr' r).
Proof.
  intros Hc Hp0 Hc0. unfold move_locked. wp_steps. apply wp_GetDomains. intros out. cbv beta.
  assert (forall e, move_outcome skey tkey (Unmap ip) (tr ++ [Ev (HttpGetDomains config_path) out]) (Err e)) as Hfail.
  { intros e. left. rewrite patches_app, Hp0. split; [done|]. intros res [=]. }
  destruct (mbind _ _) as [[src dst]|e] eqn:Hm; [|by wp_steps].
  apply result_bind_ok in Hm as (ds & Hds & Hm). apply result_bind_ok in Hm as (src' & Hsrc & Hm).
  apply result_bind_ok in Hm as (dst' & Hdst & [= -> ->]).
  destruct (xorb _ _) eqn:Hfmt; [by wp_steps|]. cbv zeta.
  assert (forall k m, LocateZone ds k = Ok m -> zone_parses (zm_Zone m) = true) as Hparse.
  { intros k m Hk. pose proof Hds as (ws & _ & Hws)%read_domains_ok. by eapply located_zone_parses. }
  assert (forall k m tr1, LocateZone ds k = Ok m ->
    located k m ((tr ++ [Ev (HttpGetDomains config_path) out]) ++ tr1)) as Hloc.
  { intros k m tr1 Hk. exists out, ds. rewrite !configs_app, Hc0. by split; [left|]. }
  destruct (zoneWithoutIP_spec (zm_Zone src) (Unmap ip)) as (sreq & moved & -> & Hs1 & Hs2); [by eapply Hparse|].
  cbn [mbind result_bind snd].
  destruct (existsb (holds (Unmap ip)) (move_values (zm_Zone src))) eqn:Hsf.
  - apply existsb_holds in Hsf.
    destruct (zoneWithIP_spec (zm_Zone dst) (Unmap ip) moved) as (treq & -> & Ht); [by eapply Hparse|done| |].
    { intros Hn. apply Hs2; [|done]. destruct (zone_Nodes (zm_Zone src)), (zone_Nodes (zm_Zone dst)); done. }
    cbn [mbind result_bind negb].
    assert (forall tr1 r, move_requests src dst (MarshalJSON sreq) (MarshalJSON treq)
        (existsb (holds (Unmap ip)) (move_values (zm_Zone dst))) (patches tr1) r ->
      move_outcome skey tkey (Unmap ip) ((tr ++ [Ev (HttpGetDomains config_path) out]) ++ tr1) r) as Hgoal.
    { intros tr1 r Hr. right. exists src, dst, (MarshalJSON sreq), (MarshalJSON treq).
      rewrite !patches_app, Hp0. do 5 (split; [by auto|]). exact Hr. }
    clear Hfail. unfold move_requests in Hgoal. destruct (existsb _ _); wp_steps.
    + apply wp_patchZone. intros out2. cbv beta.
      destruct (patch_status out2) eqn:Hp2; wp_steps; apply Hgoal; exists out2; by rewrite Hp2.
    + apply wp_patchZone. intros out1. cbv beta.
      destruct (patch_status out1) eqn:Hp1; wp_steps.
      { apply Hgoal. exists out1. by rewrite Hp1. }
      apply wp_patchZone. intros out2. cbv beta. destruct (patch_status out2) eqn:Hp2; wp_steps.
      * apply wp_patchZone. intros out3. wp_steps. rewrite <-!app_assoc, app_assoc. apply Hgoal.
        exists out1. rewrite Hp1. exists out2. rewrite Hp2. by exists out3.
      * rewrite <-!app_assoc, app_assoc. apply Hgoal. exists out1. rewrite Hp1. exists out2. by rewrite Hp2.
  - destruct (zoneWithIP (zm_Zone dst) (Unmap ip) moved) as [[treq found]|e] eqn:Ht; cbn [mbind result_bind negb];
      [|by wp_steps].
    apply zoneWithIP_found in Ht as ->; [|by eapply Hparse].
    destruct (existsb (holds (Unmap ip)) (move_values (zm_Zone dst))) eqn:Hd; wp_steps; [|done].
    left. rewrite patches_app, Hp0. split; [done|]. intros res [= <-]. split; [done|]. exists src, dst.
    rewrite <-existsb_holds_false, <-existsb_holds.
    rewrite <-(app_nil_r (tr ++ _)). auto.
Qed.

Lemma MoveIP_outcome source target ip :
  canonical (Unmap ip) ->
  wp (MoveIP source target ip) tt [] (fun r _ tr =>
    move_outcome (normalizeFQDN source) (normalizeFQDN target) (Unmap ip) tr r).
Proof.
  intros Hc. unfold MoveIP. destruct (_ || _); [by left|]. cbv zeta.
  assert (forall k1 k2, wp (with_lock k1 (with_lock k2
      (move_locked (normalizeFQDN source) (normalizeFQDN target) ip))) tt []
      (fun r _ tr => move_outcome (normalizeFQDN source) (normalizeFQDN target) (Unmap ip) tr r)) as H.
  { intros k1 k2. apply wp_with_lock; [by left|]. apply wp_with_lock; [by left|].
    eapply wp_mono; [by apply move_locked_outcome|]. intros r [] tr'. cbv beta.
    apply move_outcome_ext; by rewrite ?patches_app, ?configs_app, !app_nil_r. }
  destruct (str_ltb _ _); apply H.
Qed.

(** C33. [MoveIP] never lets the address disappear: every PATCH goes to the
    target or to the source zone; the source zone, which holds the address, is
    only written with a body that keeps its other addresses, and only when
    the target zone already held the address or a previous PATCH to it,
    acknowledged by the server, added it and kept all of the target's own. *)
Theorem move_ip_target_before_source (source target : string) (ip : Addr) tr r :
  canonical (Unmap ip) -> runs (MoveIP source target ip) tt tr r tt -> patches tr <> [] ->
  exists src dst, located (normalizeFQDN source) src tr /\ located (normalizeFQDN target) dst tr /\
    has_addr (Unmap ip) (move_values (zm_Zone src)) /\
    forall ps1 path body out ps2, patches tr = ps1 ++ (path, body, out) :: ps2 ->
      path = zone_path dst \/
      path = zone_path src /\
      (zoneless (move_values (zm_Zone src)) -> forall a,
         has_addr a (body_values body) <-> a <> Unmap ip /\ has_addr a (move_values (zm_Zone src))) /\
      (has_addr (Unmap ip) (move_values (zm_Zone dst)) \/
       exists b o, ps1 = [(zone_path dst, b, o)] /\ patch_status o = None /\ forall a,
         has_addr a (body_values b) <-> a = Unmap ip \/ has_addr a (move_values (zm_Zone dst))).
Proof.
  intros Hc Hrun Hne. apply (wp_runs _ _ _ _ (MoveIP_outcome source target ip Hc)) in Hrun.
  cbv beta in Hrun. rewrite app_nil_l in Hrun.
  destruct Hrun as [[Hp _]|(src & dst & bsrc & bdst & Hl1 & Hl2 & Hh & Hbs & Hbd & Hr)]; [done|].
  exists src, dst. do 3 (split; [done|]). clear Hne. unfold move_requests in Hr.
  destruct (existsb _ _) eqn:Hd.
  - apply existsb_holds in Hd. destruct Hr as (out & -> & _). intros ps1 path body o ps2 Heq.
    destruct ps1 as [|? [|? ?]]; try done. injection Heq as <- <- <- <-. right. auto.
  - apply existsb_holds_false in Hd. specialize (Hbd Hd).
    destruct Hr as (out1 & Hr). destruct (patch_status out1) eqn:H1.
    { destruct Hr as [-> _]. intros ps1 path body o ps2 Heq. left.
      destruct ps1 as [|? [|? ?]]; try done. by injection Heq as <- <- <- <-. }
    destruct Hr as (out2 & Hr). destruct (patch_status out2) eqn:H2;
      [destruct Hr as (out3 & -> & _)|destruct Hr as [-> _]];
      intros ps1 path body o ps2 Heq; destruct ps1 as [|p1 [|p2 [|p3 [|p4 ps1]]]]; simpl in Heq; try done;
      simplify_eq; try (by left); right; (split; [done|]; split; [exact Hbs|]; right; eauto 10).
Qed.

(** A failed [MoveIP] is compensated: when it returns an error, either no
    PATCH was acknowledged at all, or exactly the target's was, the source's
    failed with the returned error, and the last request restores the
    target from the configuration read before. *)
Theorem move_ip_failure_restores_target (source target : string) (ip : Addr) tr e :
  canonical (Unmap ip) -> runs (MoveIP source target ip) tt tr (Err e) tt ->
  (forall path body out, (path, body, out) ∈ patches tr -> patch_status out <> None) \/
  exists src dst bsrc bdst out1 out2 out3,
    located (normalizeFQDN source) src tr /\ located (normalizeFQDN target) dst tr /\
    patches tr = [(zone_path dst, bdst, out1); (zone_path src, bsrc, out2);
                  (zone_path dst, MarshalJSON (zoneSnapshotRequest (zm_Zone dst)), out3)] /\
    patch_status out1 = None /\ patch_status out2 = Some e.
Proof.
  intros Hc Hrun. apply (wp_runs _ _ _ _ (MoveIP_outcome source target ip Hc)) in Hrun.
  cbv beta in Hrun. rewrite app_nil_l in Hrun.
  destruct Hrun as [[-> _]|(src & dst & bsrc & bdst & Hl1 & Hl2 & _ & _ & _ & Hr)].
  { left. intros path body out Hin. by apply not_elem_of_nil in Hin. }
  assert (forall p b o path body out, patch_status o <> None ->
    (path, body, out) ∈ [(p, b, o) : string * patchJSON * httpOutcome (option string)] -> patch_status out <> None) as Hone.
  { intros p b o path body out Ho [=-> -> ->]%list_elem_of_singleton. done. }
  unfold move_requests in Hr. destruct (existsb _ _).
  - destruct Hr as (out & -> & He). left. intros path body o. apply Hone. by destruct (patch_status out).
  - destruct Hr as (out1 & Hr). destruct (patch_status out1) eqn:H1.
    { destruct Hr as [-> _]. left. intros path body o. apply Hone. by rewrite H1. }
    destruct Hr as (out2 & Hr). destruct (patch_status out2) as [e'|] eqn:H2; [|by destruct Hr].
    destruct Hr as (out3 & -> & [= ->]). right. exists src, dst, bsrc, bdst, out1, out2, out3. done.
Qed.

(** The restoring request carries exactly the zone's values in the zone's
    own format, provided the zone had any. *)
Theorem snapshot_restores_nonempty_zone (z : Zone) :
  move_values z <> [] ->
  body_values (MarshalJSON (zoneSnapshotRequest z)) = move_values z /\
  MarshalJSON (zoneSnapshotRequest z) =
    match zone_Nodes z with Some ns => JSONNodes ns | None => JSONIPs (zone_IPs z) end.
Proof.
  unfold move_values, zoneSnapshotRequest, MarshalJSON, slice_copy.
  destruct (zone_Nodes z) as [[|n ns]|]; simpl; [done|done|].
  destruct (zone_IPs z) as [[|v l]|]; done.
Qed.

(** The same request for an empty zone: [append] of nothing to a nil slice is
    nil, so an empty advanced zone is "restored" with [{"ips": null}]. *)
Lemma snapshot_of_empty_zone_is_null (z : Zone) :
  zone_Nodes z = Some [] -> MarshalJSON (zoneSnapshotRequest z) = JSONIPs None.
Proof. intros H. unfold zoneSnapshotRequest, MarshalJSON. by rewrite H. Qed.

(** The complete names of a configuration. *)
Definition zone_names (ds : list Domain) : list string :=
  flat_map (fun d => (fun z => zoneFQDN (dom_Name d) (zone_Name z)) <$> dom_Zones d) ds.

Lemma candidates_length target ds :
  length (candidates target ds) = length (List.filter (String.eqb target) (zone_names ds)).
Proof.
  unfold candidates, zone_names. induction ds as [|d ds IH]; [done|]. simpl.
  rewrite List.filter_app, !length_app, IH. f_equal. clear.
  induction (dom_Zones d) as [|z zs IH]; [done|]. unfold zone_candidates in *. cbn [flat_map].
  rewrite fmap_cons. simpl. rewrite length_app, IH, (String.eqb_sym target). by destruct (String.eqb _ target).
Qed.

(** [LocateZone] is exact: it succeeds exactly when one zone of the
    configuration has the normalised name, and returns that zone with the
    original domain and zone names; several zones of that name are reported
    as ambiguous and none as not found. *)
Theorem locate_zone_is_exact (ds : list Domain) (fqdn : string) :
  let target := normalizeFQDN fqdn in
  let n := length (List.filter (String.eqb target) (zone_names ds)) in
  match LocateZone ds fqdn with
  | Ok m => target <> "" /\ n = 1%nat /\ zm_FQDN m = target /\
      exists d, d ∈ ds /\ zm_Domain m = dom_Name d /\ zm_Zone m ∈ dom_Zones d /\
        zm_ZoneName m = zone_Name (zm_Zone m) /\ zoneFQDN (dom_Name d) (zone_Name (zm_Zone m)) = target
  | Err ErrInvalidInput => target = ""
  | Err ErrNotFound => n = 0%nat
  | Err ErrAmbiguousZone => (2 <= n)%nat
  | Err _ => False
  end.
Proof.
  intros target n. subst n. rewrite <-candidates_length, LocateZone_filter. fold target. cbv zeta.
  destruct (String.eqb_spec target "") as [->|Hne]; [done|].
  destruct (candidates target ds) as [|m [|m2 l]] eqn:Hc; simpl; [done| |lia].
  assert (m ∈ candidates target ds) as (d & Hd & Hz & Hf & Hm)%candidates_spec by (rewrite Hc; by left).
  split; [done|]. split; [done|]. split; [by rewrite Hm|]. exists d. rewrite Hm. simpl. done.
Qed.

(** ** Concrete runs

    A server with a fixed configuration that answers the [n]-th PATCH with the
    [n]-th status given. *)
Definition example_server (cfg : list domainWire) : handler dnsE (list string) :=
  fun X e s =>
    match e in dnsE X return X * list string with
    | ZoneLock _ => (true, s)
    | ZoneUnlock _ => (tt, s)
    | HttpGetDomains _ => (Response 200 (BodyValue (Some cfg)), s)
    | HttpPatchZone _ _ => (Response 200 (BodyValue (head s)), tail s)
    end.

Definition example_config (ips : list string) : list domainWire :=
  [mkDomainWire (Some "Example.com.")
     (Some [mkZoneWire (Some "VPN") (Some 60) (Some false) (Some ips) None;
            mkZoneWire (Some "alt") (Some 60) (Some false) (Some ["8.8.8.8"]) None;
            mkZoneWire (Some "adv") (Some 60) (Some false) None (Some [mkZoneNodeWire (Some "9.9.9.9") (Some "edge")]);
            mkZoneWire (Some "empty") (Some 60) (Some false) None (Some [])])].

Definition ip_a : Addr := Addr4 16909060. (* 1.2.3.4 *)
Definition ip_b : Addr := Addr4 84281096. (* 5.6.7.8 *)
Definition ip_c : Addr := Addr4 151587081. (* 9.9.9.9 *)

Definition example_trace {A} (cfg : list domainWire) (answers : list string) (p : prog dnsE A) : list (event dnsE) :=
  fst (fst (run (example_server cfg) p answers)).
Definition example_result {A} (cfg : list domainWire) (answers : list string) (p : prog dnsE A) : A :=
  snd (fst (run (example_server cfg) p answers)).

(** Every run against the server is an execution. *)
Lemma example_runs {A} cfg answers (p : prog dnsE A) :
  runs p tt (example_trace cfg answers p) (example_result cfg answers p) tt.
Proof.
  unfold example_trace, example_result. revert answers.
  induction p as [a|X e k IH]; intros answers; simpl; [done|].
  destruct (example_server cfg X e answers) as [x answers']. specialize (IH x answers').
  destruct (run (example_server cfg) (k x) answers') as [[tr a] s']. exists x, tt, tr. done.
Qed.

Lemma ip_canonical v : 0 <= v < 2 ^ 32 -> canonical (Unmap (Addr4 v)).
Proof. done. Qed.

(** The zone a run located, for the witnesses. *)
Definition the_match (key : string) (cfg : list domainWire) : ZoneMatch :=
  match (ds ← domains_model cfg; LocateZone ds key) with
  | Ok m => m
  | Err _ => mkZoneMatch "" "" "" (mkZone "" 0 false None None)
  end.

Ltac solve_located cfg :=
  exists (Response 200 (BodyValue (Some cfg)));
  eexists; split; [vm_compute; left|split; [vm_compute; reflexivity|vm_compute; reflexivity]].

Definition cfg0 : list domainWire := example_config ["5.6.7.8"; " 2001:db8::1 "].
Definition cfg1 : list domainWire := example_config ["5.6.7.8"; " 2001:db8::1 "; "1.2.3.4"].
Definition cfg2 : list domainWire := example_config ["2001:db8::1"; "1.2.3.4"].

Lemma add_ip_retry_sends_nothing_witness :
  patches (example_trace cfg1 [] (AddIP " vpn.example.com. " ip_a)) = [] /\
  example_result cfg1 [] (AddIP " vpn.example.com. " ip_a) =
    Ok (mkAddIPResult "vpn.example.com" false ["5.6.7.8"; " 2001:db8::1 "; "1.2.3.4"]).
Proof.
  apply (add_ip_retry_sends_nothing " vpn.example.com. " ip_a
    (example_trace cfg0 ["ok"] (AddIP " vpn.example.com. " ip_a))
    (example_result cfg0 ["ok"] (AddIP " vpn.example.com. " ip_a))
    (example_trace cfg1 [] (AddIP " vpn.example.com. " ip_a))
    (example_result cfg1 [] (AddIP " vpn.example.com. " ip_a))
    "/api/config/domains/Example.com./zones/VPN"
    (Some ["5.6.7.8"; " 2001:db8::1 "; "1.2.3.4"])
    (Response 200 (BodyValue (Some "ok"))) (the_match "vpn.example.com" cfg1)).
  - by apply ip_canonical.
  - apply example_runs.
  - vm_compute. reflexivity.
  - apply example_runs.
  - solve_located cfg1.
  - vm_compute. reflexivity.
Defined.

Lemma replace_ip_replaces_exactly_witness :
  patches (example_trace cfg0 ["ok"] (ReplaceIP "vpn.example.com" ip_b ip_a)) =
    [("/api/config/domains/Example.com./zones/VPN", JSONIPs (Some ["2001:db8::1"; "1.2.3.4"]),
      Response 200 (BodyValue (Some "ok")))] /\
  exists m, located "vpn.example.com" m (example_trace cfg0 ["ok"] (ReplaceIP "vpn.example.com" ip_b ip_a)).
Proof.
  split; [vm_compute; reflexivity|].
  pose proof (replace_ip_replaces_exactly "vpn.example.com" ip_b ip_a
    (example_trace cfg0 ["ok"] (ReplaceIP "vpn.example.com" ip_b ip_a))
    (example_result cfg0 ["ok"] (ReplaceIP "vpn.example.com" ip_b ip_a))
    ltac:(by apply ip_canonical) ltac:(discriminate) (example_runs _ _ _)) as H.
  cbv zeta in H.
  change (patches (example_trace cfg0 ["ok"] (ReplaceIP "vpn.example.com" ip_b ip_a))) with
    [("/api/config/domains/Example.com./zones/VPN", JSONIPs (Some ["2001:db8::1"; "1.2.3.4"]),
      Response 200 (BodyValue (Some "ok")))] in H.
  destruct H as (m & Hl & _). exists m. exact Hl.
Defined.

Lemma replace_ip_retry_sends_nothing_witness :
  patches (example_trace cfg2 [] (ReplaceIP "vpn.example.com" ip_b ip_a)) = [] /\
  exists res, example_result cfg2 [] (ReplaceIP "vpn.example.com" ip_b ip_a) = Ok res /\ rep_Changed res = false.
Proof.
  apply (replace_ip_retry_sends_nothing "vpn.example.com" ip_b ip_a
    (example_trace cfg0 ["ok"] (ReplaceIP "vpn.example.com" ip_b ip_a))
    (example_result cfg0 ["ok"] (ReplaceIP "vpn.example.com" ip_b ip_a))
    (example_trace cfg2 [] (ReplaceIP "vpn.example.com" ip_b ip_a))
    (example_result cfg2 [] (ReplaceIP "vpn.example.com" ip_b ip_a))
    "/api/config/domains/Example.com./zones/VPN" (JSONIPs (Some ["2001:db8::1"; "1.2.3.4"]))
    (Response 200 (BodyValue (Some "ok")))
    (the_match "vpn.example.com" cfg0) (the_match "vpn.example.com" cfg2)).
  - by apply ip_canonical.
  - discriminate.
  - apply example_runs.
  - vm_compute. reflexivity.
  - solve_located cfg0.
  - intros v Hv. vm_compute in Hv. repeat (apply elem_of_cons in Hv as [->|Hv]; [vm_compute; reflexivity|]).
    by apply not_elem_of_nil in Hv.
  - apply example_runs.
  - solve_located cfg2.
  - vm_compute. reflexivity.
Defined.

Lemma move_ip_target_before_source_witness :
  patches (example_trace cfg0 ["ok"; "ok"] (MoveIP "vpn.example.com" "alt.example.com" ip_b)) =
    [("/api/config/domains/Example.com./zones/alt", JSONIPs (Some ["8.8.8.8"; "5.6.7.8"]),
      Response 200 (BodyValue (Some "ok")));
     ("/api/config/domains/Example.com./zones/VPN", JSONIPs (Some ["2001:db8::1"]),
      Response 200 (BodyValue (Some "ok")))] /\
  exists src, located "vpn.example.com" src
    (example_trace cfg0 ["ok"; "ok"] (MoveIP "vpn.example.com" "alt.example.com" ip_b)).
Proof.
  split; [vm_compute; reflexivity|].
  destruct (move_ip_target_before_source "vpn.example.com" "alt.example.com" ip_b
    (example_trace cfg0 ["ok"; "ok"] (MoveIP "vpn.example.com" "alt.example.com" ip_b))
    (example_result cfg0 ["ok"; "ok"] (MoveIP "vpn.example.com" "alt.example.com" ip_b))
    ltac:(by apply ip_canonical) (example_runs _ _ _) ltac:(vm_compute; discriminate)) as (src & dst & Hl & _).
  exists src. exact Hl.
Defined.

(** The source's PATCH fails after the target's succeeded: the advanced target
    zone, empty before, is sent [{"ips": null}] to undo the move. *)
Lemma move_rollback_of_empty_advanced_zone :
  map (fun p => fst p)
    (patches (example_trace cfg0 ["ok"; "no"; "ok"] (MoveIP "adv.example.com" "empty.example.com" ip_c))) =
  [("/api/config/domains/Example.com./zones/empty", JSONNodes [mkZoneNode "9.9.9.9" "edge"]);
   ("/api/config/domains/Example.com./zones/adv", JSONNodes []);
   ("/api/config/domains/Example.com./zones/empty", JSONIPs None)].
Proof. vm_compute. reflexivity. Qed.

Lemma move_ip_failure_restores_target_witness :
  let tr := example_trace cfg0 ["ok"; "no"; "ok"] (MoveIP "vpn.example.com" "alt.example.com" ip_b) in
  example_result cfg0 ["ok"; "no"; "ok"] (MoveIP "vpn.example.com" "alt.example.com" ip_b) = Err ErrInvalidResponse /\
  exists src, located "vpn.example.com" src tr.
Proof.
  split; [vm_compute; reflexivity|].
  destruct (move_ip_failure_restores_target "vpn.example.com" "alt.example.com" ip_b
    (example_trace cfg0 ["ok"; "no"; "ok"] (MoveIP "vpn.example.com" "alt.example.com" ip_b)) ErrInvalidResponse
    ltac:(by apply ip_canonical) (example_runs cfg0 ["ok"; "no"; "ok"] _)) as [H|(src & dst & ? & ? & ? & ? & ? & Hl & _)].
  - exfalso. eapply (H _ _ (Response 200 (BodyValue (Some "ok")))); [vm_compute; left|vm_compute; reflexivity].
  - exists src. exact Hl.
Defined.

Lemma snapshot_restores_nonempty_zone_witness :
  body_values (MarshalJSON (zoneSnapshotRequest (mkZone "a" 60 false (Some ["1.2.3.4"]) None))) = ["1.2.3.4"].
Proof.
  refine (proj1 (snapshot_restores_nonempty_zone (mkZone "a" 60 false (Some ["1.2.3.4"]) None) _)).
  discriminate.
Defined.

(** An advanced zone is given an [ips] list by [AddIP]: its nodes are not in
    the request. *)
Lemma add_ip_to_advanced_zone_patches_ips :
  map (fun p => snd (fst p)) (patches (example_trace cfg0 ["ok"] (AddIP "adv.example.com" ip_a))) =
  [JSONIPs (Some ["1.2.3.4"])].
Proof. vm_compute. reflexivity. Qed.
