(* ===== verification/Lock.v ===== *)
(** * The keyed mutexes

    Models [dnsbalancer/lock.go] and [certmanager/lock.go], which are the same
    code: a map from keys to reference-counted entries, each with a channel of
    capacity one that holds the token.  Any number of [Lock] calls run
    concurrently; the sections under [mu] and the channel operations are the
    atomic steps.  A call is identified by its position in the list of all
    calls made so far. *)

From S2P Require Import Prelude.

#[local] Open Scope Z_scope.

(** [lockEntry]: whether the token is in the channel, and [refs]. *)
Record lockEntry : Type := mkLockEntry { token : bool; refs : Z }.

(** Where a call stands: waiting in [select]; returned with its unlock
    function not yet called; between giving up or returning the token and
    [release]; or finished. *)
Inductive phase : Type :=
  | Waiting (key : string) (entry : nat)
  | Holding (key : string) (entry : nat)
  | Releasing (key : string) (entry : nat)
  | Finished.

Record MemoryLocker : Type := mkMemoryLocker {
  entries : gmap string nat;  (* the map, to positions of the heap *)
  heap : list lockEntry;      (* every entry ever allocated *)
  calls : list phase
}.

Definition NewMemoryLocker : MemoryLocker := mkMemoryLocker ∅ [] [].

(** The atomic steps. *)
Inductive action : Type :=
  | LockEnter (key : string) (cancelled : bool) (* up to [l.mu.Unlock()] *)
  | TakeToken (call : nat)                      (* [case <-entry.token] *)
  | GiveUp (call : nat)                         (* [case <-ctx.Done()] *)
  | Unlock (call : nat)                         (* the token goes back *)
  | Release (call : nat).                       (* [release] *)

Definition lock_enter (key : string) (cancelled : bool) (l : MemoryLocker) : MemoryLocker :=
  if cancelled then mkMemoryLocker (entries l) (heap l) (calls l ++ [Finished])
  else match entries l !! key with
  | Some e =>
    mkMemoryLocker (entries l) (alter (fun ent => mkLockEntry (token ent) (refs ent + 1)) e (heap l))
      (calls l ++ [Waiting key e])
  | None =>
    let e := length (heap l) in
    mkMemoryLocker (<[key := e]> (entries l)) (heap l ++ [mkLockEntry true 1]) (calls l ++ [Waiting key e])
  end.

(** [release]. *)
Definition release (key : string) (e : nat) (c : nat) (l : MemoryLocker) : option MemoryLocker :=
  ent ← heap l !! e;
  let refs' := refs ent - 1 in
  let entries' :=
    if (refs' =? 0) && bool_decide (entries l !! key = Some e) then delete key (entries l) else entries l in
  Some (mkMemoryLocker entries' (<[e := mkLockEntry (token ent) refs']> (heap l)) (<[c := Finished]> (calls l))).

(** One step; [None] when it is not enabled.  Sending the token blocks while
    the channel is full. *)
Definition exec (a : action) (l : MemoryLocker) : option MemoryLocker :=
  match a with
  | LockEnter key cancelled => Some (lock_enter key cancelled l)
  | TakeToken c =>
    match calls l !! c with
    | Some (Waiting key e) =>
      ent ← heap l !! e;
      if token ent then
        Some (mkMemoryLocker (entries l) (<[e := mkLockEntry false (refs ent)]> (heap l))
                (<[c := Holding key e]> (calls l)))
      else None
    | _ => None
    end
  | GiveUp c =>
    match calls l !! c with
    | Some (Waiting key e) => Some (mkMemoryLocker (entries l) (heap l) (<[c := Releasing key e]> (calls l)))
    | _ => None
    end
  | Unlock c =>
    match calls l !! c with
    | Some (Holding key e) =>
      ent ← heap l !! e;
      if token ent then None
      else Some (mkMemoryLocker (entries l) (<[e := mkLockEntry true (refs ent)]> (heap l))
                   (<[c := Releasing key e]> (calls l)))
    | _ => None
    end
  | Release c =>
    match calls l !! c with
    | Some (Releasing key e) => release key e c l
    | _ => None
    end
  end.

(** Reachable states, under every interleaving. *)
Inductive reachable : MemoryLocker -> Prop :=
  | reach_init : reachable NewMemoryLocker
  | reach_step l l' a : reachable l -> exec a l = Some l' -> reachable l'.

(** ** Counting calls *)
Definition uses (e : nat) (p : phase) : bool :=
  match p with
  | Waiting _ e' | Holding _ e' | Releasing _ e' => Nat.eqb e' e
  | Finished => false
  end.

Definition holds (e : nat) (p : phase) : bool :=
  match p with Holding _ e' => Nat.eqb e' e | _ => false end.

(** The key and entry of a call that is not finished. *)
Definition active (p : phase) : option (string * nat) :=
  match p with
  | Waiting k e | Holding k e | Releasing k e => Some (k, e)
  | Finished => None
  end.

(** Two positions that satisfy a test counted at most once are the same. *)
Lemma countb_unique f ps c1 c2 p1 p2 :
  f Finished = false -> countb f ps <= 1 ->
  ps !! c1 = Some p1 -> f p1 = true -> ps !! c2 = Some p2 -> f p2 = true -> c1 = c2.
Proof.
  intros Hfin Hle H1 Hf1 H2 Hf2. destruct (decide (c1 = c2)) as [|Hne]; [done|].
  pose proof (countb_insert f ps c1 p1 Finished H1) as Hi. rewrite Hf1, Hfin in Hi. simpl in Hi.
  assert (<[c1 := Finished]> ps !! c2 = Some p2) as H2' by by rewrite list_lookup_insert_ne.
  pose proof (countb_pos f _ c2 p2 H2' Hf2). lia.
Qed.

(** ** The invariant *)
Record lock_inv (l : MemoryLocker) : Prop := {
  inv_refs : forall e ent, heap l !! e = Some ent -> refs ent = countb (uses e) (calls l);
  inv_token : forall e ent, heap l !! e = Some ent -> b2z (negb (token ent)) = countb (holds e) (calls l);
  inv_active : forall c p k e, calls l !! c = Some p -> active p = Some (k, e) -> entries l !! k = Some e;
  inv_used : forall k e, entries l !! k = Some e -> exists c p, calls l !! c = Some p /\ active p = Some (k, e);
  inv_heap : forall k e, entries l !! k = Some e -> is_Some (heap l !! e);
  inv_inj : forall k1 k2 e, entries l !! k1 = Some e -> entries l !! k2 = Some e -> k1 = k2
}.

Lemma uses_active e0 p k e : active p = Some (k, e) -> uses e0 p = Nat.eqb e e0.
Proof. destruct p; simpl; intros [=]; by subst. Qed.

Lemma holds_uses e p : holds e p = true -> uses e p = true.
Proof. by destruct p. Qed.

Lemma lock_inv_init : lock_inv NewMemoryLocker.
Proof. by split. Qed.

(** A step that moves one call between two unfinished phases of the same key
    and entry and keeps the map. *)
Lemma lock_inv_move l heap' c p q k e :
  lock_inv l -> calls l !! c = Some p -> active p = Some (k, e) -> active q = Some (k, e) ->
  (forall e0 ent', heap' !! e0 = Some ent' -> exists ent, heap l !! e0 = Some ent /\ refs ent' = refs ent /\
     b2z (negb (token ent')) = b2z (negb (token ent)) - b2z (holds e0 p) + b2z (holds e0 q)) ->
  (forall e0, is_Some (heap l !! e0) -> is_Some (heap' !! e0)) ->
  lock_inv (mkMemoryLocker (entries l) heap' (<[c := q]> (calls l))).
Proof.
  intros [H1 H2 H3 H4 H5 H6] Hc Hp Hq Hheap Hsome.
  assert (forall e0, uses e0 p = uses e0 q) as Hu.
  { intros e0. by rewrite (uses_active _ _ _ _ Hp), (uses_active _ _ _ _ Hq). }
  split; simpl.
  - intros e0 ent' He. destruct (Hheap _ _ He) as (ent & Hent & -> & _).
    rewrite (countb_insert _ _ _ _ _ Hc), Hu, (H1 _ _ Hent). lia.
  - intros e0 ent' He. destruct (Hheap _ _ He) as (ent & Hent & _ & ->).
    rewrite (countb_insert _ _ _ _ _ Hc), (H2 _ _ Hent). lia.
  - intros c0 p0 k0 e0 Hc0 Hp0. destruct (decide (c0 = c)) as [->|Hne].
    + rewrite list_lookup_insert_eq in Hc0 by by eapply lookup_lt_Some. simplify_eq. eauto.
    + rewrite list_lookup_insert_ne in Hc0 by done. eauto.
  - intros k0 e0 Hk0. destruct (H4 _ _ Hk0) as (c0 & p0 & Hc0 & Hp0).
    destruct (decide (c0 = c)) as [->|Hne].
    + exists c, q. rewrite list_lookup_insert_eq by by eapply lookup_lt_Some. split; [done|congruence].
    + exists c0, p0. by rewrite list_lookup_insert_ne.
  - eauto.
  - eauto.
Qed.

(** A new waiting call on an entry of the map. *)
Lemma lock_inv_enter l key entries' heap' e :
  lock_inv l -> entries' !! key = Some e ->
  (forall k e0, entries' !! k = Some e0 -> entries l !! k = Some e0 \/ k = key /\ e0 = e) ->
  (forall k e0, entries l !! k = Some e0 -> entries' !! k = Some e0) ->
  (forall k, entries' !! k = Some e -> k = key) ->
  (forall e0 ent', heap' !! e0 = Some ent' ->
     refs ent' = countb (uses e0) (calls l) + b2z (Nat.eqb e e0) /\
     b2z (negb (token ent')) = countb (holds e0) (calls l)) ->
  (forall e0, is_Some (heap l !! e0) \/ e0 = e -> is_Some (heap' !! e0)) ->
  lock_inv (mkMemoryLocker entries' heap' (calls l ++ [Waiting key e])).
Proof.
  intros [H1 H2 H3 H4 H5 H6] Hkey Hback Hfwd Hinj Hheap Hsome. split; simpl.
  - intros e0 ent' He. rewrite countb_app, countb_cons. simpl. destruct (Hheap _ _ He) as [-> _].
    unfold countb at 3. simpl. lia.
  - intros e0 ent' He. rewrite countb_app, countb_cons. simpl. destruct (Hheap _ _ He) as [_ ->].
    unfold countb at 3. simpl. lia.
  - intros c p k e0 Hc Hp. apply lookup_app_Some in Hc as [Hc|[_ Hc]]; [eauto|].
    apply list_lookup_singleton_Some in Hc as [_ <-]. simpl in Hp. by simplify_eq.
  - intros k e0 Hk. destruct (Hback _ _ Hk) as [Hk'|[-> ->]].
    + destruct (H4 _ _ Hk') as (c & p & Hc & Hp). exists c, p. split; [by apply lookup_app_l_Some|done].
    + exists (length (calls l)), (Waiting key e). split; [by apply list_lookup_middle|done].
  - intros k e0 Hk. apply Hsome. destruct (Hback _ _ Hk) as [Hk'|[-> ->]]; [left; eauto|by right].
  - intros k1 k2 e0 Hk1 Hk2. destruct (Hback _ _ Hk1) as [Hk1'|[-> ->]].
    + destruct (Hback _ _ Hk2) as [Hk2'|[-> ->]]; [eauto|by apply Hinj].
    + symmetry. by apply Hinj.
Qed.

Lemma lock_inv_lock_enter key cancelled l : lock_inv l -> lock_inv (lock_enter key cancelled l).
Proof.
  intros Hinv. pose proof Hinv as [H1 H2 H3 H4 H5 H6]. unfold lock_enter. destruct cancelled.
  { split; simpl.
    - intros e ent He. rewrite countb_app, (H1 _ _ He). unfold countb at 3. simpl. lia.
    - intros e ent He. rewrite countb_app, (H2 _ _ He). unfold countb at 3. simpl. lia.
    - intros c p k e Hc Hp. apply lookup_app_Some in Hc as [Hc|[_ Hc]]; [eauto|].
      apply list_lookup_singleton_Some in Hc as [_ <-]. done.
    - intros k e Hk. destruct (H4 _ _ Hk) as (c & p & Hc & Hp). exists c, p.
      split; [by apply lookup_app_l_Some|done].
    - done.
    - done. }
  destruct (entries l !! key) as [e|] eqn:Hkey.
  - apply lock_inv_enter; try done; [by left|by eauto| |].
    + intros e0 ent' He. destruct (Nat.eqb_spec e e0) as [<-|Hne].
      * rewrite list_lookup_alter_eq in He. apply fmap_Some in He as (ent & He & ->). simpl.
        by rewrite (H1 _ _ He), (H2 _ _ He).
      * rewrite list_lookup_alter_ne in He by done. rewrite (H1 _ _ He), (H2 _ _ He). simpl. split; [lia|done].
    + intros e0 He. assert (is_Some (heap l !! e0)) as [ent Hent] by (destruct He as [He| ->]; eauto).
      destruct (Nat.eq_dec e e0) as [<-|]; [rewrite list_lookup_alter_eq|rewrite list_lookup_alter_ne by done];
        rewrite Hent; by eexists.
  - apply lock_inv_enter; try done.
    + by rewrite lookup_insert_eq.
    + intros k e0 [[-> <-]|[_ Hk]]%lookup_insert_Some; [by right|by left].
    + intros k e0 Hk. rewrite lookup_insert_ne; [done|]. intros ->. congruence.
    + intros k [[-> _]|[_ Hk]]%lookup_insert_Some; [done|].
      destruct (H5 _ _ Hk) as [ent He%lookup_lt_Some]. lia.
    + assert (forall f, (forall e p, f e p = true -> uses e p = true) ->
        countb (f (length (heap l))) (calls l) = 0) as Hfresh.
      { intros f Hf. apply countb_zero. intros p [c Hp]%list_elem_of_lookup.
        destruct (f (length (heap l)) p) eqn:E; [|done]. apply Hf in E.
        destruct (active p) as [[k e]|] eqn:Ha; [|by destruct p].
        rewrite (uses_active _ _ _ _ Ha) in E. apply Nat.eqb_eq in E as ->.
        destruct (H5 _ _ (H3 _ _ _ _ Hp Ha)) as [ent He%lookup_lt_Some]. lia. }
      intros e0 ent' [He|[Hlen He]]%lookup_app_Some.
      * rewrite (H1 _ _ He), (H2 _ _ He). apply lookup_lt_Some in He.
        destruct (Nat.eqb_spec (length (heap l)) e0); [lia|]. simpl. split; [lia|done].
      * apply list_lookup_singleton_Some in He as [He <-]. replace e0 with (length (heap l)) by lia.
        rewrite Nat.eqb_refl, !Hfresh by eauto using holds_uses. done.
    + intros e0 [[ent He]| ->]; [eexists; by apply lookup_app_l_Some|].
      eexists. by apply list_lookup_middle.
Qed.

Lemma lock_inv_release key e c l l' :
  lock_inv l -> calls l !! c = Some (Releasing key e) -> release key e c l = Some l' -> lock_inv l'.
Proof.
  intros [H1 H2 H3 H4 H5 H6] Hc Hrel. unfold release in Hrel.
  apply bind_Some in Hrel as (ent & Hent & [= <-]).
  pose proof (H3 _ _ _ _ Hc eq_refl) as Hkey. rewrite bool_decide_true, andb_true_r by done.
  pose proof (countb_insert (uses e) _ _ _ Finished Hc) as Hu. simpl in Hu. rewrite Nat.eqb_refl in Hu. simpl in Hu.
  assert (forall c0 p, <[c:=Finished]> (calls l) !! c0 = Some p -> p = Finished \/ c0 <> c /\ calls l !! c0 = Some p) as Hins.
  { intros c0 p Hp. destruct (decide (c0 = c)) as [->|Hne].
    - rewrite list_lookup_insert_eq in Hp by by eapply lookup_lt_Some. left. congruence.
    - rewrite list_lookup_insert_ne in Hp by done. by right. }
  assert (forall k e0, (if refs ent - 1 =? 0 then delete key (entries l) else entries l) !! k = Some e0 ->
    entries l !! k = Some e0 /\ (e0 = e -> refs ent - 1 <> 0)) as Hent'.
  { intros k e0. destruct (Z.eqb_spec (refs ent - 1) 0) as [Hz|Hz]; [|done].
    intros [Hne Hk]%lookup_delete_Some. split; [done|]. intros ->. by destruct Hne; eauto. }
  split; simpl.
  - intros e0 ent' He. apply list_lookup_insert_Some in He as [(<- & <- & _)|[Hne He]].
    + simpl. rewrite Hu, (H1 _ _ Hent). lia.
    + rewrite (countb_insert _ _ _ _ _ Hc), (H1 _ _ He). simpl. rewrite (proj2 (Nat.eqb_neq _ _)) by done. simpl. lia.
  - intros e0 ent' He. rewrite (countb_insert _ _ _ _ _ Hc). simpl.
    apply list_lookup_insert_Some in He as [(<- & <- & _)|[Hne He]]; simpl;
      [rewrite (H2 _ _ Hent)|rewrite (H2 _ _ He)]; lia.
  - intros c0 p k e0 Hc0 Hp. destruct (Hins _ _ Hc0) as [->|[Hne Hc0']]; [done|].
    pose proof (H3 _ _ _ _ Hc0' Hp) as Hk. destruct (Z.eqb_spec (refs ent - 1) 0) as [Hz|Hz]; [|done].
    rewrite lookup_delete_ne; [done|]. intros ->. assert (e0 = e) as -> by congruence.
    assert (0 < countb (uses e) (<[c:=Finished]> (calls l))).
    { eapply countb_pos; [exact Hc0|]. rewrite (uses_active _ _ _ _ Hp). apply Nat.eqb_refl. }
    rewrite Hu, <-(H1 _ _ Hent) in *. lia.
  - intros k e0 Hk. destruct (Hent' _ _ Hk) as [Hk' Hz]. destruct (H4 _ _ Hk') as (c0 & p & Hc0 & Hp).
    destruct (decide (c0 = c)) as [->|Hne].
    + rewrite Hc in Hc0. injection Hc0 as <-. simpl in Hp. injection Hp as <- <-.
      assert (countb (uses e) (<[c:=Finished]> (calls l)) <> 0) as Hpos
        by (specialize (Hz eq_refl); rewrite Hu, <-(H1 _ _ Hent); lia).
      destruct (existsb (uses e) (<[c:=Finished]> (calls l))) eqn:Hex.
      * apply existsb_elem_of in Hex as (p & [c1 Hc1]%list_elem_of_lookup & Hp).
        exists c1, p. split; [done|]. destruct (Hins _ _ Hc1) as [->|[Hne Hc1']]; [done|].
        destruct (active p) as [[k1 e1]|] eqn:Ha; [|by destruct p].
        rewrite (uses_active _ _ _ _ Ha) in Hp. apply Nat.eqb_eq in Hp as ->.
        by rewrite (H6 _ _ _ (H3 _ _ _ _ Hc1' Ha) Hkey).
      * destruct Hpos. apply countb_zero. by apply existsb_false.
    + exists c0, p. split; [by rewrite list_lookup_insert_ne|done].
  - intros k e0 [Hk _]%Hent'. rewrite list_lookup_insert_is_Some. by eapply H5.
  - intros k1 k2 e0 [Hk1 _]%Hent' [Hk2 _]%Hent'. eauto.
Qed.

Lemma lock_inv_exec a l l' : lock_inv l -> exec a l = Some l' -> lock_inv l'.
Proof.
  intros Hinv H. destruct a as [key cancelled|c|c|c|c]; simpl in H.
  - injection H as <-. by apply lock_inv_lock_enter.
  - destruct (calls l !! c) as [[key e| | |]|] eqn:Hc; try done.
    apply bind_Some in H as (ent & Hent & H). destruct (token ent) eqn:Ht; [|done]. injection H as <-.
    apply (lock_inv_move l _ c (Waiting key e) (Holding key e) key e); try done; simpl.
    + intros e0 ent' He. apply list_lookup_insert_Some in He as [(<- & <- & _)|[Hne He]].
      * exists ent. rewrite Ht, Nat.eqb_refl. done.
      * exists ent'. rewrite (proj2 (Nat.eqb_neq _ _)) by done. simpl. split; [done|]. split; [done|lia].
    + intros e0 He. by rewrite list_lookup_insert_is_Some.
  - destruct (calls l !! c) as [[key e| | |]|] eqn:Hc; try done. injection H as <-.
    apply (lock_inv_move l _ c (Waiting key e) (Releasing key e) key e); try done; simpl.
    intros e0 ent' He. exists ent'. split; [done|]. split; [done|lia].
  - destruct (calls l !! c) as [[|key e| |]|] eqn:Hc; try done.
    apply bind_Some in H as (ent & Hent & H). destruct (token ent) eqn:Ht; [done|]. injection H as <-.
    apply (lock_inv_move l _ c (Holding key e) (Releasing key e) key e); try done; simpl.
    + intros e0 ent' He. apply list_lookup_insert_Some in He as [(<- & <- & _)|[Hne He]].
      * exists ent. rewrite Ht, Nat.eqb_refl. done.
      * exists ent'. rewrite (proj2 (Nat.eqb_neq _ _)) by done. simpl. split; [done|]. split; [done|lia].
    + intros e0 He. by rewrite list_lookup_insert_is_Some.
  - destruct (calls l !! c) as [[| |key e|]|] eqn:Hc; try done. by eapply lock_inv_release.
Qed.

Lemma reachable_inv l : reachable l -> lock_inv l.
Proof. induction 1; [apply lock_inv_init|by eapply lock_inv_exec]. Qed.

(** The heap entry of a call that is not finished. *)
Lemma active_entry l c p k e :
  lock_inv l -> calls l !! c = Some p -> active p = Some (k, e) ->
  entries l !! k = Some e /\ exists ent, heap l !! e = Some ent.
Proof. intros [H1 H2 H3 H4 H5 H6] Hc Hp. pose proof (H3 _ _ _ _ Hc Hp) as Hk. split; [done|]. by eapply H5. Qed.

(** ** Properties *)

(** C37. Mutual exclusion under every interleaving of any number of calls,
    cancellations and releases: two calls that hold the lock of one key are
    the same call. *)
Theorem lock_mutual_exclusion l c1 c2 key e1 e2 :
  reachable l -> calls l !! c1 = Some (Holding key e1) -> calls l !! c2 = Some (Holding key e2) -> c1 = c2.
Proof.
  intros Hl%reachable_inv H1 H2.
  destruct (active_entry _ _ _ _ _ Hl H1 eq_refl) as [Hk1 [ent Hent]].
  destruct (active_entry _ _ _ _ _ Hl H2 eq_refl) as [Hk2 _]. assert (e2 = e1) as -> by congruence.
  apply (countb_unique (holds e1) (calls l) c1 c2 (Holding key e1) (Holding key e1));
    try done; [|apply Nat.eqb_refl..].
  rewrite <-(inv_token _ Hl _ _ Hent). destruct (token ent); simpl; lia.
Qed.

(** C40. The locker neither leaks nor blocks: a key is in the map exactly
    while some call for it is unfinished; returning the token never blocks
    and neither does [release]; and when no call holds the key's lock, every
    waiting call can take the token at once. *)
Theorem lock_no_leak_and_progress l :
  reachable l ->
  (forall key, is_Some (entries l !! key) <-> exists c p e, calls l !! c = Some p /\ active p = Some (key, e)) /\
  (forall c key e, calls l !! c = Some (Holding key e) -> is_Some (exec (Unlock c) l)) /\
  (forall c key e, calls l !! c = Some (Releasing key e) -> is_Some (exec (Release c) l)) /\
  (forall c key e, calls l !! c = Some (Waiting key e) ->
     (forall c' e', calls l !! c' <> Some (Holding key e')) -> is_Some (exec (TakeToken c) l)).
Proof.
  intros Hl%reachable_inv. split; [|split; [|split]].
  - intros key. split.
    + intros [e He]. destruct (inv_used _ Hl _ _ He) as (c & p & Hc & Hp). eauto.
    + intros (c & p & e & Hc & Hp). exists e. by eapply inv_active.
  - intros c key e Hc. destruct (active_entry _ _ _ _ _ Hl Hc eq_refl) as [_ [ent Hent]].
    simpl. rewrite Hc, Hent. simpl. pose proof (inv_token _ Hl _ _ Hent) as Ht.
    assert (0 < countb (holds e) (calls l)) by (eapply countb_pos; [exact Hc|apply Nat.eqb_refl]).
    destruct (token ent); simpl in *; [lia|by eexists].
  - intros c key e Hc. destruct (active_entry _ _ _ _ _ Hl Hc eq_refl) as [_ [ent Hent]].
    simpl. rewrite Hc. unfold release. rewrite Hent. by eexists.
  - intros c key e Hc Hfree. destruct (active_entry _ _ _ _ _ Hl Hc eq_refl) as [Hk [ent Hent]].
    simpl. rewrite Hc, Hent. simpl. destruct (token ent) eqn:Ht; [by eexists|].
    pose proof (inv_token _ Hl _ _ Hent) as Hcount. rewrite Ht in Hcount. simpl in Hcount.
    destruct (existsb (holds e) (calls l)) eqn:Hex.
    + apply existsb_elem_of in Hex as (p & [c' Hc']%list_elem_of_lookup & Hp).
      destruct p as [|key' e'| |]; simpl in Hp; try done. apply Nat.eqb_eq in Hp as ->.
      destruct (active_entry _ _ _ _ _ Hl Hc' eq_refl) as [Hk' _].
      rewrite (inv_inj _ Hl _ _ _ Hk' Hk) in Hc'. by destruct (Hfree c' e).
    + rewrite (proj2 (countb_zero _ _)) in Hcount; [done|]. by apply existsb_false.
Qed.

(** ** A concrete schedule *)
Fixpoint exec_all (l : MemoryLocker) (acts : list action) : option MemoryLocker :=
  match acts with
  | [] => Some l
  | a :: acts' => l' ← exec a l; exec_all l' acts'
  end.

Lemma exec_all_reachable acts l l' : reachable l -> exec_all l acts = Some l' -> reachable l'.
Proof.
  revert l. induction acts as [|a acts IH]; intros l Hl H; simpl in H; [by simplify_eq|].
  apply bind_Some in H as (l1 & Ha & H). eapply IH; [|done]. by eapply reach_step.
Qed.

(** Three calls on one key: the first acquires and unlocks, the second gives
    up, the third acquires. *)
Definition example_schedule : list action :=
  [LockEnter "a" false; LockEnter "a" false; TakeToken 0; LockEnter "a" false; GiveUp 1; Unlock 0;
   TakeToken 2; Release 0; Release 1]%nat.

Lemma lock_mutual_exclusion_witness :
  exists l, exec_all NewMemoryLocker example_schedule = Some l /\
    calls l = [Finished; Finished; Holding "a" 0] /\ (2 = 2)%nat.
Proof.
  eexists. split; [vm_compute; reflexivity|]. split; [vm_compute; reflexivity|].
  apply (lock_mutual_exclusion (default NewMemoryLocker (exec_all NewMemoryLocker example_schedule)) 2 2 "a" 0 0);
    [|vm_compute; reflexivity..].
  apply (exec_all_reachable example_schedule NewMemoryLocker); [apply reach_init|vm_compute; reflexivity].
Defined.

Lemma lock_no_leak_and_progress_witness :
  let l := default NewMemoryLocker (exec_all NewMemoryLocker example_schedule) in
  is_Some (exec (Unlock 2) l).
Proof.
  intros l. assert (reachable l) as Hl.
  { apply (exec_all_reachable example_schedule NewMemoryLocker); [apply reach_init|vm_compute; reflexivity]. }
  destruct (lock_no_leak_and_progress l Hl) as (_ & H & _). apply (H 2%nat "a" 0%nat). vm_compute. reflexivity.
Defined.

(** After the last release the map is empty again. *)
Example lock_entry_removed :
  (fun l => (map_to_list (entries l), refs <$> heap l)) <$>
    exec_all NewMemoryLocker (example_schedule ++ [Unlock 2; Release 2]%nat) = Some ([], [0]).
Proof. vm_compute. reflexivity. Qed.
