(* ===== verification/Repository.v ===== *)
(** * Deployment persistence

    Models [internal/repository/repository.go] and the deployment part of
    [internal/repository/postgres] ([postgres.go], [hostkey.go]): every
    method with its validation, and the effect of its SQL statements on the
    tables [deployments] and [deployment_steps].  A method is a function of
    the time of its transaction ([now()]) and of the tables; one transaction
    is one step.  Failures of the connection are added by the environment
    that the workflow is run in.

    The database itself is a parameter where its behaviour is not the SQL of
    the source: [uuid_text] is the UUID input and output conversion
    ([$1::uuid::text]), which rejects some texts and gives a canonical text
    for the others. *)

From S2P Require Import Prelude GoStrings NetIP NetIPFacts Deployment.

#[local] Open Scope Z_scope.

Inductive repoErr : Type :=
  | ErrNotFound
  | ErrInvalidArgument
  | DriverError.

#[export] Instance repoErr_eq_dec : EqDecision repoErr.
Proof. solve_decision. Defined.

(** ** Parameters of the methods *)
Record CreateDeploymentParams : Type := mkCreateDeploymentParams {
  cdp_ID : string;
  cdp_PanelID : string;
  cdp_TelegramOperatorUserID : Z;
  cdp_SelectedRemnawaveHostUUID : string;
  cdp_SelectedHostRemark : string;
  cdp_SNIDomain : string;
  cdp_NodeName : string;
  cdp_TargetVPSIP : Addr
}.

Record UpdateDeploymentStateParams : Type := mkUpdateDeploymentStateParams {
  usp_Status : Status;
  usp_CurrentStep : string;
  usp_SafeErrorCode : option string;
  usp_SafeErrorMessage : option string
}.

Record SetNodeHostBindingParams : Type := mkSetNodeHostBindingParams {
  shb_HostUUID : string;
  shb_HostRemark : string;
  shb_SNIDomain : string
}.

Record RecordStepParams : Type := mkRecordStepParams {
  rsp_DeploymentID : string;
  rsp_Name : string;
  rsp_Status : StepStatus;
  rsp_SafeSummary : option string;
  rsp_ErrorMessage : option string
}.

(** [validPanelID]: the index is a byte offset, and only the first rune has
    offset zero. *)
Fixpoint panel_runes (first : bool) (rs : list Z) : bool :=
  match rs with
  | [] => true
  | c :: rs' =>
    (((97 <=? c) && (c <=? 122)) || ((48 <=? c) && (c <=? 57)) ||
     (negb first && ((c =? 45) || (c =? 95)))) && panel_runes false rs'
  end.

Definition validPanelID (value : string) : bool :=
  if (str_len value <? 1) || (32 <? str_len value) then false else panel_runes true (runes value).

Definition validateCreate (p : CreateDeploymentParams) : bool :=
  validUUID (cdp_ID p) && (0 <? cdp_TelegramOperatorUserID p) && validPanelID (cdp_PanelID p) &&
  validUUID (cdp_SelectedRemnawaveHostUUID p) && negb (String.eqb (TrimSpace (cdp_SNIDomain p)) "") &&
  negb (String.eqb (TrimSpace (cdp_NodeName p)) "") && IsValid (cdp_TargetVPSIP p).

(** ** Tables *)
Record Db : Type := mkDb {
  deployments : gmap string Deployment;
  deployment_steps : gmap (string * string) Step
}.

Definition empty_db : Db := mkDb ∅ ∅.

Definition with_deployment (id : string) (d : Deployment) (db : Db) : Db :=
  mkDb (<[id := d]> (deployments db)) (deployment_steps db).

(** The row updates of the UPDATE statements. *)
Definition update_state_row (now : Z) (p : UpdateDeploymentStateParams) (d : Deployment) : Deployment :=
  mkDeployment (ID d) (PanelID d) (TelegramOperatorUserID d) (SelectedRemnawaveHostUUID d)
    (SelectedHostRemark d) (SNIDomain d) (NodeName d) (TargetVPSIP d) (RemnawaveNodeUUID d)
    (SSHHostKeyFingerprint d) (usp_Status p) (usp_CurrentStep p) (usp_SafeErrorCode p)
    (usp_SafeErrorMessage p) (CreatedAt d) now
    (if bool_decide (usp_Status p = StatusCreated) then StartedAt d
     else Some (default now (StartedAt d)))
    (if Status_Terminal (usp_Status p) then Some (default now (CompletedAt d)) else None).

Definition set_node_row (now : Z) (uuid : string) (d : Deployment) : Deployment :=
  mkDeployment (ID d) (PanelID d) (TelegramOperatorUserID d) (SelectedRemnawaveHostUUID d)
    (SelectedHostRemark d) (SNIDomain d) (NodeName d) (TargetVPSIP d) (Some uuid)
    (SSHHostKeyFingerprint d) (status d) (CurrentStep d) (SafeErrorCode d)
    (SafeErrorMessage d) (CreatedAt d) now (StartedAt d) (CompletedAt d).

Definition set_ip_row (now : Z) (ip : Addr) (d : Deployment) : Deployment :=
  mkDeployment (ID d) (PanelID d) (TelegramOperatorUserID d) (SelectedRemnawaveHostUUID d)
    (SelectedHostRemark d) (SNIDomain d) (NodeName d) ip (RemnawaveNodeUUID d)
    (SSHHostKeyFingerprint d) (status d) (CurrentStep d) (SafeErrorCode d)
    (SafeErrorMessage d) (CreatedAt d) now (StartedAt d) (CompletedAt d).

Definition set_binding_row (now : Z) (host remark sni : string) (d : Deployment) : Deployment :=
  mkDeployment (ID d) (PanelID d) (TelegramOperatorUserID d) host remark sni (NodeName d)
    (TargetVPSIP d) (RemnawaveNodeUUID d)
    (SSHHostKeyFingerprint d) (status d) (CurrentStep d) (SafeErrorCode d)
    (SafeErrorMessage d) (CreatedAt d) now (StartedAt d) (CompletedAt d).

Definition touch_row (now : Z) (current_step : string) (d : Deployment) : Deployment :=
  mkDeployment (ID d) (PanelID d) (TelegramOperatorUserID d) (SelectedRemnawaveHostUUID d)
    (SelectedHostRemark d) (SNIDomain d) (NodeName d) (TargetVPSIP d) (RemnawaveNodeUUID d)
    (SSHHostKeyFingerprint d) (status d) current_step (SafeErrorCode d)
    (SafeErrorMessage d) (CreatedAt d) now (StartedAt d) (CompletedAt d).

Definition set_key_row (now : Z) (fingerprint : option string) (d : Deployment) : Deployment :=
  mkDeployment (ID d) (PanelID d) (TelegramOperatorUserID d) (SelectedRemnawaveHostUUID d)
    (SelectedHostRemark d) (SNIDomain d) (NodeName d) (TargetVPSIP d) (RemnawaveNodeUUID d)
    fingerprint (status d) (CurrentStep d) (SafeErrorCode d)
    (SafeErrorMessage d) (CreatedAt d) now (StartedAt d) (CompletedAt d).

(** The row of [INSERT ... ON CONFLICT DO UPDATE] on [deployment_steps]. *)
Definition step_row (now : Z) (id : string) (p : RecordStepParams) (old : option Step) : Step :=
  match old with
  | None =>
    mkStep id (rsp_Name p) (rsp_Status p) (rsp_SafeSummary p) (rsp_ErrorMessage p)
      (if bool_decide (rsp_Status p = StepStatusPending) then None else Some now)
      (if StepStatus_Terminal (rsp_Status p) then Some now else None)
  | Some o =>
    mkStep id (rsp_Name p) (rsp_Status p) (rsp_SafeSummary p) (rsp_ErrorMessage p)
      (if bool_decide (rsp_Status p = StepStatusPending) then step_StartedAt o
       else Some (default now (step_StartedAt o)))
      (if StepStatus_Terminal (rsp_Status p) then Some (default now (step_CompletedAt o)) else None)
  end.

(** [inet]: a column value must have no zone. *)
Definition inet (a : Addr) : option Addr :=
  if IsValid a && String.eqb (Zone a) "" then Some a else None.

(** ** Queries over all deployments *)
Definition newest_first (key : Deployment -> Z) (a b : Deployment) : Prop :=
  key b < key a \/ key a = key b /\ str_le (ID b) (ID a).
Definition oldest_first (key : Deployment -> Z) (a b : Deployment) : Prop :=
  key a < key b \/ key a = key b /\ str_le (ID a) (ID b).
#[export] Instance newest_first_dec key : RelDecision (newest_first key).
Proof. intros a b. unfold newest_first. apply _. Defined.
#[export] Instance oldest_first_dec key : RelDecision (oldest_first key).
Proof. intros a b. unfold oldest_first. apply _. Defined.

Definition rows (db : Db) : list Deployment := snd <$> map_to_list (deployments db).

(** [Repository.list]. *)
Definition list_limited (query : Db -> list Deployment) (limit : Z) (db : Db) : result repoErr (list Deployment) :=
  if (limit <? 1) || (100 <? limit) then Err ErrInvalidArgument
  else Ok (take (Z.to_nat limit) (query db)).

Definition ListRecentDeployments (limit : Z) (db : Db) : result repoErr (list Deployment) :=
  list_limited (fun db => merge_sort (newest_first CreatedAt) (rows db)) limit db.

Definition unfinished (d : Deployment) : bool := negb (Status_Terminal (status d)).

Definition FindUnfinishedDeployments (limit : Z) (db : Db) : result repoErr (list Deployment) :=
  list_limited (fun db => merge_sort (oldest_first UpdatedAt) (List.filter unfinished (rows db))) limit db.

Definition FindUnfinishedDeploymentsByPanel (panel : string) (limit : Z) (db : Db) : result repoErr (list Deployment) :=
  if negb (validPanelID panel) then Err ErrInvalidArgument
  else list_limited (fun db => merge_sort (oldest_first UpdatedAt)
         (List.filter (fun d => String.eqb (PanelID d) panel && unfinished d) (rows db))) limit db.

(** ** Methods *)
Section Methods.
(** UUID input followed by text output; [None] for rejected input. *)
Variable uuid_text : string -> option string.

(** The row with a given UUID parameter. *)
Definition row (id : string) (db : Db) : option (string * Deployment) :=
  key ← uuid_text id; d ← deployments db !! key; Some (key, d).

(** A method that updates the row [WHERE id = $1] and returns it. *)
Definition update_row (id : string) (f : Deployment -> option Deployment) (db : Db)
    : result repoErr Deployment * Db :=
  match uuid_text id with
  | None => (Err DriverError, db)
  | Some key =>
    match deployments db !! key with
    | None => (Err ErrNotFound, db)
    | Some d =>
      match f d with
      | None => (Err DriverError, db)
      | Some d' => (Ok d', with_deployment key d' db)
      end
    end
  end.

Definition CreateDeployment (random : result string (list Z)) (now : Z) (p : CreateDeploymentParams) (db : Db)
    : result repoErr Deployment * Db :=
  let panel := if String.eqb (TrimSpace (cdp_PanelID p)) "" then "default" else cdp_PanelID p in
  match (if String.eqb (cdp_ID p) "" then NewID random else Ok (cdp_ID p)) with
  | Err _ => (Err DriverError, db)
  | Ok id =>
    let p := mkCreateDeploymentParams id panel (cdp_TelegramOperatorUserID p) (cdp_SelectedRemnawaveHostUUID p)
               (cdp_SelectedHostRemark p) (cdp_SNIDomain p) (cdp_NodeName p) (cdp_TargetVPSIP p) in
    if negb (validateCreate p) then (Err ErrInvalidArgument, db)
    else match uuid_text id, uuid_text (cdp_SelectedRemnawaveHostUUID p), inet (cdp_TargetVPSIP p) with
    | Some key, Some host, Some ip =>
      match deployments db !! key with
      | Some _ => (Err DriverError, db)
      | None =>
        let d := mkDeployment key panel (cdp_TelegramOperatorUserID p) host (cdp_SelectedHostRemark p)
                   (cdp_SNIDomain p) (cdp_NodeName p) ip None None StatusCreated "created" None None
                   now now None None in
        (Ok d, with_deployment key d db)
      end
    | _, _, _ => (Err DriverError, db)
    end
  end.

Definition GetDeployment (id : string) (db : Db) : result repoErr Deployment :=
  if negb (validUUID id) then Err ErrInvalidArgument
  else match uuid_text id with
  | None => Err DriverError
  | Some key => match deployments db !! key with None => Err ErrNotFound | Some d => Ok d end
  end.

Definition UpdateDeploymentState (now : Z) (id : string) (p : UpdateDeploymentStateParams) (db : Db)
    : result repoErr Deployment * Db :=
  if negb (validUUID id) || negb (Status_Valid (status_text (usp_Status p))) ||
     String.eqb (TrimSpace (usp_CurrentStep p)) ""
  then (Err ErrInvalidArgument, db)
  else update_row id (fun d => Some (update_state_row now p d)) db.

Definition SetRemnawaveNodeUUID (now : Z) (id nodeUUID : string) (db : Db) : result repoErr Deployment * Db :=
  if negb (validUUID id) || negb (validUUID nodeUUID) then (Err ErrInvalidArgument, db)
  else update_row id (fun d => uuid ← uuid_text nodeUUID; Some (set_node_row now uuid d)) db.

Definition SetTargetVPSIP (now : Z) (id : string) (address : Addr) (db : Db) : result repoErr Deployment * Db :=
  if negb (validUUID id) || negb (IsValid address) then (Err ErrInvalidArgument, db)
  else update_row id (fun d => ip ← inet (Unmap address); Some (set_ip_row now ip d)) db.

Definition SetNodeHostBinding (now : Z) (id : string) (p : SetNodeHostBindingParams) (db : Db)
    : result repoErr Deployment * Db :=
  if negb (validUUID id) || negb (validUUID (shb_HostUUID p)) ||
     String.eqb (TrimSpace (shb_HostRemark p)) "" || String.eqb (TrimSpace (shb_SNIDomain p)) ""
  then (Err ErrInvalidArgument, db)
  else update_row id (fun d => host ← uuid_text (shb_HostUUID p);
         Some (set_binding_row now host (TrimSpace (shb_HostRemark p)) (TrimSpace (shb_SNIDomain p)) d)) db.

Definition RecordDeploymentStep (now : Z) (p : RecordStepParams) (db : Db) : result repoErr Step * Db :=
  if negb (validUUID (rsp_DeploymentID p)) || String.eqb (TrimSpace (rsp_Name p)) "" ||
     negb (StepStatus_Valid (step_status_text (rsp_Status p)))
  then (Err ErrInvalidArgument, db)
  else match uuid_text (rsp_DeploymentID p) with
  | None => (Err DriverError, db)
  | Some key =>
    match deployments db !! key with
    | None => (Err ErrNotFound, db)
    | Some d =>
      let current := if bool_decide (rsp_Status p = StepStatusRunning) then rsp_Name p else CurrentStep d in
      let s := step_row now key p (deployment_steps db !! (key, rsp_Name p)) in
      (Ok s, mkDb (<[key := touch_row now current d]> (deployments db))
               (<[(key, rsp_Name p) := s]> (deployment_steps db)))
    end
  end.

(** [ORDER BY started_at NULLS FIRST, step_name]. *)
Definition step_le (a b : Step) : Prop :=
  match step_StartedAt a, step_StartedAt b with
  | None, Some _ => True
  | Some _, None => False
  | None, None => str_le (step_Name a) (step_Name b)
  | Some x, Some y => x < y \/ x = y /\ str_le (step_Name a) (step_Name b)
  end.
#[export] Instance step_le_dec : RelDecision step_le.
Proof. intros a b. unfold step_le. case_match; case_match; apply _. Defined.

Definition ListDeploymentSteps (id : string) (db : Db) : result repoErr (list Step) :=
  if negb (validUUID id) then Err ErrInvalidArgument
  else match uuid_text id with
  | None => Err DriverError
  | Some key => Ok (merge_sort step_le
      (List.filter (fun s => String.eqb (step_DeploymentID s) key) (snd <$> map_to_list (deployment_steps db))))
  end.

Definition FindDeploymentByPanelNodeUUID (panel nodeUUID : string) (db : Db) : result repoErr Deployment :=
  if negb (validPanelID panel) || negb (validUUID nodeUUID) then Err ErrInvalidArgument
  else match uuid_text nodeUUID with
  | None => Err DriverError
  | Some uuid =>
    match merge_sort (newest_first UpdatedAt)
            (List.filter (fun d => String.eqb (PanelID d) panel && bool_decide (RemnawaveNodeUUID d = Some uuid))
               (rows db)) with
    | [] => Err ErrNotFound
    | d :: _ => Ok d
    end
  end.

(** The SSH host key store of [hostkey.go]. *)
Definition GetHostKey (id : string) (db : Db) : result repoErr (option string) :=
  if negb (validUUID id) then Err ErrInvalidArgument
  else match uuid_text id with
  | None => Err DriverError
  | Some key =>
    match deployments db !! key with
    | None => Err ErrNotFound
    | Some d => Ok (SSHHostKeyFingerprint d)
    end
  end.

Definition StoreIfAbsent (now : Z) (id fingerprint : string) (db : Db) : result repoErr (string * bool) * Db :=
  if negb (validUUID id) then (Err ErrInvalidArgument, db)
  else if negb (HasPrefix fingerprint "SHA256:") || (str_len fingerprint <=? str_len "SHA256:")
  then (Err ErrInvalidArgument, db)
  else match uuid_text id with
  | None => (Err DriverError, db)
  | Some key =>
    match deployments db !! key with
    | None => (Err ErrNotFound, db)
    | Some d =>
      let trusted := default fingerprint (SSHHostKeyFingerprint d) in
      (Ok (trusted, bool_decide (SSHHostKeyFingerprint d = None)),
       with_deployment key (set_key_row now (Some trusted) d) db)
    end
  end.
End Methods.

(** ** All operations as one step function *)
Inductive repoOp : Type :=
  | OpCreate (random : result string (list Z)) (p : CreateDeploymentParams)
  | OpUpdateState (id : string) (p : UpdateDeploymentStateParams)
  | OpSetNode (id nodeUUID : string)
  | OpSetIP (id : string) (address : Addr)
  | OpSetBinding (id : string) (p : SetNodeHostBindingParams)
  | OpRecordStep (p : RecordStepParams)
  | OpStoreKey (id fingerprint : string).

Definition repo_exec (uuid_text : string -> option string) (now : Z) (o : repoOp) (db : Db) : Db :=
  match o with
  | OpCreate random p => snd (CreateDeployment uuid_text random now p db)
  | OpUpdateState id p => snd (UpdateDeploymentState uuid_text now id p db)
  | OpSetNode id uuid => snd (SetRemnawaveNodeUUID uuid_text now id uuid db)
  | OpSetIP id a => snd (SetTargetVPSIP uuid_text now id a db)
  | OpSetBinding id p => snd (SetNodeHostBinding uuid_text now id p db)
  | OpRecordStep p => snd (RecordDeploymentStep uuid_text now p db)
  | OpStoreKey id f => snd (StoreIfAbsent uuid_text now id f db)
  end.

(** ** Invariants of the tables *)

(** The lifecycle timestamps of a row, at time [now]. *)
Definition row_ok (now : Z) (key : string) (d : Deployment) : Prop :=
  ID d = key /\
  (CompletedAt d <> None <-> Status_Terminal (status d) = true) /\
  (status d <> StatusCreated -> StartedAt d <> None) /\
  (forall s, StartedAt d = Some s -> CreatedAt d <= s <= UpdatedAt d) /\
  (forall c, CompletedAt d = Some c -> exists s, StartedAt d = Some s /\ s <= c <= UpdatedAt d) /\
  CreatedAt d <= UpdatedAt d <= now.

Definition step_ok (now : Z) (key : string * string) (s : Step) : Prop :=
  step_DeploymentID s = fst key /\ step_Name s = snd key /\
  (step_CompletedAt s <> None <-> StepStatus_Terminal (step_Status s) = true) /\
  (step_Status s <> StepStatusPending -> step_StartedAt s <> None) /\
  (forall x, step_StartedAt s = Some x -> x <= now) /\
  (forall c, step_CompletedAt s = Some c -> exists x, step_StartedAt s = Some x /\ x <= c <= now).

Definition db_ok (now : Z) (db : Db) : Prop :=
  map_Forall (row_ok now) (deployments db) /\
  map_Forall (step_ok now) (deployment_steps db) /\
  (forall key, is_Some (deployment_steps db !! key) -> is_Some (deployments db !! fst key)).

(** How one operation may change an existing row: identity and creation are
    fixed and a pinned SSH key is kept. *)
Definition row_extends (d d' : Deployment) : Prop :=
  ID d' = ID d /\ PanelID d' = PanelID d /\ TelegramOperatorUserID d' = TelegramOperatorUserID d /\
  NodeName d' = NodeName d /\ CreatedAt d' = CreatedAt d /\
  (SSHHostKeyFingerprint d <> None -> SSHHostKeyFingerprint d' = SSHHostKeyFingerprint d) /\
  (StartedAt d <> None -> StartedAt d' = StartedAt d).

Section Facts.
Context (uuid_text : string -> option string).

(** Every operation leaves the tables alone, writes one row (and possibly a
    step of it), or adds a fresh row. *)
Inductive effect (now : Z) (db : Db) : Db -> Prop :=
  | effect_none : effect now db db
  | effect_new key d :
      deployments db !! key = None -> status d = StatusCreated -> StartedAt d = None -> CompletedAt d = None ->
      CreatedAt d = now -> UpdatedAt d = now -> ID d = key ->
      effect now db (with_deployment key d db)
  | effect_state key d p :
      deployments db !! key = Some d -> effect now db (with_deployment key (update_state_row now p d) db)
  | effect_row key d d' :
      deployments db !! key = Some d -> row_extends d d' -> status d' = status d -> CompletedAt d' = CompletedAt d ->
      StartedAt d' = StartedAt d -> UpdatedAt d' = now -> effect now db (with_deployment key d' db)
  | effect_step key d current p :
      deployments db !! key = Some d ->
      effect now db (mkDb (<[key := touch_row now current d]> (deployments db))
        (<[(key, rsp_Name p) := step_row now key p (deployment_steps db !! (key, rsp_Name p))]> (deployment_steps db))).

Lemma update_row_cases id f db :
  snd (update_row uuid_text id f db) = db \/
  exists key d d', deployments db !! key = Some d /\ f d = Some d' /\
    snd (update_row uuid_text id f db) = with_deployment key d' db.
Proof.
  unfold update_row. destruct (uuid_text id) as [key|]; [|by left].
  destruct (deployments db !! key) as [d|] eqn:Hd; [|by left].
  destruct (f d) as [d'|] eqn:Hf; [|by left]. right. by exists key, d, d'.
Qed.

Lemma repo_exec_effect now o db : effect now db (repo_exec uuid_text now o db).
Proof.
  destruct o as [random p|id p|id uuid|id a|id p|p|id f]; simpl.
  - unfold CreateDeployment. cbv zeta. destruct (if String.eqb (cdp_ID p) "" then _ else _) as [id|]; [|apply effect_none].
    destruct (negb _); [apply effect_none|]. destruct (uuid_text id) as [key|]; [|apply effect_none].
    destruct (uuid_text _) as [host|]; [|apply effect_none]. destruct (inet _) as [ip|]; [|apply effect_none].
    destruct (deployments db !! key) eqn:Hk; [apply effect_none|]. by apply effect_new.
  - unfold UpdateDeploymentState. case_match; [apply effect_none|].
    edestruct update_row_cases as [->|(key & d & d' & Hd & Hf & ->)]; [apply effect_none|].
    simplify_eq. by apply effect_state.
  - unfold SetRemnawaveNodeUUID. case_match; [apply effect_none|].
    edestruct update_row_cases as [->|(key & d & d' & Hd & Hf & ->)]; [apply effect_none|].
    apply bind_Some in Hf as (u & _ & [= <-]). by eapply effect_row.
  - unfold SetTargetVPSIP. case_match; [apply effect_none|].
    edestruct update_row_cases as [->|(key & d & d' & Hd & Hf & ->)]; [apply effect_none|].
    apply bind_Some in Hf as (u & _ & [= <-]). by eapply effect_row.
  - unfold SetNodeHostBinding. case_match; [apply effect_none|].
    edestruct update_row_cases as [->|(key & d & d' & Hd & Hf & ->)]; [apply effect_none|].
    apply bind_Some in Hf as (u & _ & [= <-]). by eapply effect_row.
  - unfold RecordDeploymentStep. case_match; [apply effect_none|].
    destruct (uuid_text _) as [key|]; [|apply effect_none].
    destruct (deployments db !! key) as [d|] eqn:Hd; [|apply effect_none]. by eapply effect_step.
  - unfold StoreIfAbsent. case_match; [apply effect_none|]. case_match; [apply effect_none|].
    destruct (uuid_text _) as [key|]; [|apply effect_none].
    destruct (deployments db !! key) as [d|] eqn:Hd; [|apply effect_none].
    simpl. eapply effect_row; try done. unfold row_extends. simpl. split_and!; try done.
    by destruct (SSHHostKeyFingerprint d).
Qed.

Lemma update_state_row_ok now0 now key p d :
  row_ok now0 key d -> now0 <= now -> row_ok now key (update_state_row now p d).
Proof.
  intros (H1 & H2 & H3 & H4 & H5 & H6) Hnow. unfold row_ok, update_state_row; simpl. split_and!; try done.
  - apply guard_Some_iff.
  - intros Hs. by rewrite bool_decide_false.
  - intros s. case_bool_decide as Hc; [intros Hs; specialize (H4 s Hs); lia|].
    intros [= <-]. destruct (StartedAt d) as [s|] eqn:Hs; simpl; [specialize (H4 s eq_refl)|]; lia.
  - destruct (Status_Terminal (usp_Status p)) eqn:Ht; [|done]. intros c [= <-].
    rewrite bool_decide_false by (intros Heq; by rewrite Heq in Ht). eexists. split; [done|].
    destruct (CompletedAt d) as [c|] eqn:Hc; simpl.
    + destruct (H5 c eq_refl) as (s & -> & Hs). simpl. lia.
    + destruct (StartedAt d) as [s|] eqn:Hs; simpl; [specialize (H4 s eq_refl)|]; lia.
  - lia.
Qed.

Lemma same_times_row_ok now0 now key d d' :
  row_ok now0 key d -> now0 <= now -> row_extends d d' -> status d' = status d ->
  CompletedAt d' = CompletedAt d -> StartedAt d' = StartedAt d -> UpdatedAt d' = now -> row_ok now key d'.
Proof.
  intros (H1 & H2 & H3 & H4 & H5 & H6) Hnow (E1 & _ & _ & _ & E2 & _) Hst Hc Hs Hu.
  unfold row_ok. rewrite E1, Hst, Hc, Hs, Hu, E2. split_and!; try done; try lia.
  - intros s Hs'. specialize (H4 s Hs'). lia.
  - intros c Hc'. destruct (H5 c Hc') as (s & -> & ?). exists s. split; [done|lia].
Qed.

Lemma row_ok_mono now0 now key d : row_ok now0 key d -> now0 <= now -> row_ok now key d.
Proof. unfold row_ok. intros (H1 & H2 & H3 & H4 & H5 & H6) Hn. split_and!; try done; lia. Qed.

Lemma step_ok_mono now0 now key s : step_ok now0 key s -> now0 <= now -> step_ok now key s.
Proof.
  unfold step_ok. intros (H1 & H2 & H3 & H4 & H5 & H6) Hn. split_and!; try done.
  - intros x Hx. specialize (H5 x Hx). lia.
  - intros c Hc. destruct (H6 c Hc) as (x & -> & ?). exists x. split; [done|lia].
Qed.

Lemma step_row_ok now0 now id p old :
  (forall o, old = Some o -> step_ok now0 (id, rsp_Name p) o) -> now0 <= now ->
  step_ok now (id, rsp_Name p) (step_row now id p old).
Proof.
  intros Hold Hn. unfold step_ok, step_row. destruct old as [o|]; simpl.
  - destruct (Hold o eq_refl) as (_ & _ & H3 & H4 & H5 & H6). split_and!; try done.
    + apply guard_Some_iff.
    + intros Hp. by rewrite bool_decide_false.
    + intros x. case_bool_decide; [intros Hx; specialize (H5 x Hx); lia|].
      intros [= <-]. destruct (step_StartedAt o) as [x|] eqn:Hx; simpl; [specialize (H5 x eq_refl)|]; lia.
    + destruct (StepStatus_Terminal (rsp_Status p)) eqn:Ht; [|done]. intros c [= <-].
      rewrite bool_decide_false by (intros Heq; by rewrite Heq in Ht). eexists. split; [done|].
      destruct (step_CompletedAt o) as [c|] eqn:Hc; simpl.
      * destruct (H6 c eq_refl) as (x & -> & ?). simpl. lia.
      * destruct (step_StartedAt o) as [x|] eqn:Hx; simpl; [specialize (H5 x eq_refl)|]; lia.
  - split_and!; try done.
    + apply guard_Some_iff.
    + intros Hp. by rewrite bool_decide_false.
    + intros x. case_bool_decide; [done|]. intros [= <-]. lia.
    + destruct (StepStatus_Terminal (rsp_Status p)) eqn:Ht; [|done]. intros c [= <-].
      rewrite bool_decide_false by (intros Heq; by rewrite Heq in Ht). eexists. split; [done|]. lia.
Qed.

Lemma db_ok_row now key d db :
  map_Forall (row_ok now) (deployments db) -> row_ok now key d ->
  map_Forall (row_ok now) (<[key := d]> (deployments db)).
Proof. intros. by apply map_Forall_insert_2. Qed.

Lemma effect_ok now0 now db db' : db_ok now0 db -> now0 <= now -> effect now db db' -> db_ok now db'.
Proof.
  intros (Hr & Hs & Hf) Hn He.
  assert (map_Forall (row_ok now) (deployments db)) as Hr' by (intros k d Hk; eapply row_ok_mono; eauto).
  assert (map_Forall (step_ok now) (deployment_steps db)) as Hs' by (intros k d Hk; eapply step_ok_mono; eauto).
  assert (forall key d, (forall key0, is_Some (deployment_steps db !! key0) ->
    is_Some (<[key := d]> (deployments db) !! fst key0))) as Hf'.
  { intros key d key0 H. apply lookup_insert_is_Some'. right. auto. }
  destruct He as [|key d H1 H2 H3 H4 H5 H6 H7|key d p H1|key d d' H1 H2 H3 H4 H5 H6|key d current p H1].
  - done.
  - split_and!; [|done|apply Hf']. apply db_ok_row; [done|]. unfold row_ok. rewrite H2, H3, H4, H5, H6.
    split_and!; try done; lia.
  - split_and!; [|done|apply Hf']. apply db_ok_row; [done|]. eapply update_state_row_ok; [by apply Hr|done].
  - split_and!; [|done|apply Hf']. apply db_ok_row; [done|]. eapply same_times_row_ok; eauto.
  - split_and!; simpl.
    + apply db_ok_row; [done|]. by eapply same_times_row_ok; [by apply Hr| |split_and!|..].
    + apply map_Forall_insert_2; [|done]. eapply step_row_ok; [|done]. intros o Ho. by apply Hs.
    + intros key0 [[=<-]|H]%lookup_insert_is_Some'; [simpl; rewrite lookup_insert_eq; by eexists|by apply Hf'].
Qed.
End Facts.

(** States the operations reach, with a clock that does not go back. *)
Inductive db_reachable (uuid_text : string -> option string) : Z -> Db -> Prop :=
  | db_init now : db_reachable uuid_text now empty_db
  | db_step now now' o db :
      db_reachable uuid_text now db -> now <= now' -> db_reachable uuid_text now' (repo_exec uuid_text now' o db).

Lemma row_extends_refl d : row_extends d d.
Proof. done. Qed.

Lemma effect_extends now db db' key d :
  effect now db db' -> deployments db !! key = Some d ->
  exists d', deployments db' !! key = Some d' /\ row_extends d d'.
Proof.
  intros He Hd.
  assert (forall key1 d1 d1', deployments db !! key1 = Some d1 -> row_extends d1 d1' ->
    exists d', <[key1 := d1']> (deployments db) !! key = Some d' /\ row_extends d d') as Hins.
  { intros key1 d1 d1' H1 Hx. destruct (decide (key1 = key)) as [->|Hne].
    - exists d1'. rewrite lookup_insert_eq. split; [done|]. by simplify_eq.
    - exists d. by rewrite lookup_insert_ne. }
  destruct He as [|key1 d1 H1|key1 d1 p H1|key1 d1 d1' H1 H2|key1 d1 current p H1].
  - by exists d.
  - exists d. simpl. rewrite lookup_insert_ne; [done|]. intros ->. congruence.
  - apply (Hins key1 d1); [done|]. unfold row_extends, update_state_row; simpl. split_and!; try done.
    intros Hs. case_bool_decide; [done|]. by destruct (StartedAt d1).
  - by apply (Hins key1 d1).
  - by apply (Hins key1 d1).
Qed.

(** *** Orders *)
Lemma oldest_first_total key a b : oldest_first key a b \/ oldest_first key b a.
Proof.
  unfold oldest_first. destruct (Z.lt_trichotomy (key a) (key b)) as [H|[H|H]]; [by left; left| |by right; left].
  destruct (str_le_total (ID a) (ID b)); [left|right]; right; by split.
Qed.

Lemma oldest_first_trans key a b c : oldest_first key a b -> oldest_first key b c -> oldest_first key a c.
Proof.
  unfold oldest_first. intros [H1|[H1 H1']] [H2|[H2 H2']]; try (left; lia).
  right. split; [congruence|by eapply str_le_trans].
Qed.

#[export] Instance oldest_first_Total key : Total (oldest_first key).
Proof. intros a b. apply oldest_first_total. Qed.
#[export] Instance oldest_first_Trans key : Transitive (oldest_first key).
Proof. intros a b c. apply oldest_first_trans. Qed.

Lemma list_limited_ok query limit db l :
  list_limited query limit db = Ok l -> 1 <= limit <= 100 /\ l = take (Z.to_nat limit) (query db).
Proof.
  unfold list_limited. destruct (_ || _) eqn:H; [done|]. intros [= <-].
  apply orb_false_iff in H as [H1 H2]. split; [lia|done].
Qed.

Lemma StronglySorted_app_le {A} (R : A -> A -> Prop) l1 l2 x y :
  StronglySorted R (l1 ++ l2) -> x ∈ l1 -> y ∈ l2 -> R x y.
Proof.
  induction l1 as [|z l1 IH]; simpl; [by intros _ ?%not_elem_of_nil|].
  inversion 1 as [|?? Hs Hf]; subst. rewrite Forall_forall in Hf.
  intros [->|Hx]%elem_of_cons Hy; [apply Hf, elem_of_app; by right|by apply IH].
Qed.

Lemma reachable_ok (uuid_text : string -> option string) now db : db_reachable uuid_text now db -> db_ok now db.
Proof.
  induction 1 as [now|now now' o db Hdb IH Hn].
  - split_and!; [apply map_Forall_empty|apply map_Forall_empty|]. intros key [s Hs].
    unfold empty_db in Hs. simpl in Hs. by rewrite lookup_empty in Hs.
  - eapply effect_ok; [exact IH|done|apply repo_exec_effect].
Qed.

(** ** Properties *)

(** C36. The lifecycle of every row of both tables is consistent in every
    reachable state, whatever operations ran in whatever order: a deployment
    or step has a completion time exactly when its status is terminal, has a
    start time whenever it left CREATED or PENDING, starts before it
    completes, and no step outlives its deployment. *)
Theorem repository_lifecycle_invariant (uuid_text : string -> option string) now db :
  db_reachable uuid_text now db -> db_ok now db.
Proof. apply reachable_ok. Qed.

(** No operation rewrites history: an existing deployment row stays,
    keeps its identity (id, panel, operator, Node name, creation time), keeps
    the first start time it was given, and keeps the SSH host key once one
    has been pinned (trust on first use). *)
Theorem repository_rows_only_extend (uuid_text : string -> option string) now o db key d :
  deployments db !! key = Some d ->
  exists d', deployments (repo_exec uuid_text now o db) !! key = Some d' /\ row_extends d d'.
Proof. intros H. eapply effect_extends; [apply repo_exec_effect|exact H]. Qed.

(** A state update is durable and exact: when it succeeds, the next read
    of the deployment returns the row it returned, with the given status,
    step, error code and message, and every other deployment is unchanged;
    when it fails, nothing changed. *)
Theorem update_state_then_get (uuid_text : string -> option string) now id p db :
  let '(r, db') := UpdateDeploymentState uuid_text now id p db in
  match r with
  | Ok d => GetDeployment uuid_text id db' = Ok d /\ status d = usp_Status p /\
      CurrentStep d = usp_CurrentStep p /\ SafeErrorCode d = usp_SafeErrorCode p /\
      SafeErrorMessage d = usp_SafeErrorMessage p /\
      forall other, uuid_text id <> Some other -> deployments db' !! other = deployments db !! other
  | Err _ => db' = db
  end.
Proof.
  unfold UpdateDeploymentState. destruct (_ || _) eqn:Hc; [done|].
  apply orb_false_iff in Hc as [[Hid _]%orb_false_iff _]. apply negb_false_iff in Hid.
  unfold update_row. destruct (uuid_text id) as [key|] eqn:Hkey; [|done].
  destruct (deployments db !! key) as [d|] eqn:Hd; [|done]. split_and!; try done.
  - unfold GetDeployment. rewrite Hid, Hkey. simpl. by rewrite lookup_insert_eq.
  - intros other Hne. simpl. rewrite lookup_insert_ne; [done|]. congruence.
Qed.

(** [FindUnfinishedDeployments] returns only deployments that are not in
    a terminal status, at most [limit] of them, ordered by the time of their
    last update, and never leaves out an older one for a newer one. *)
Theorem find_unfinished_oldest_first (limit : Z) (db : Db) l :
  FindUnfinishedDeployments limit db = Ok l ->
  Sorted (oldest_first UpdatedAt) l /\ Z.of_nat (length l) <= limit /\
  (forall d, d ∈ l -> d ∈ rows db /\ Status_Terminal (status d) = false) /\
  (forall d, d ∈ rows db -> Status_Terminal (status d) = false -> d ∈ l \/
     Z.of_nat (length l) = limit /\ forall d', d' ∈ l -> oldest_first UpdatedAt d' d).
Proof.
  intros [Hlim Hl]%list_limited_ok. set (sorted := merge_sort _ _) in Hl.
  assert (Permutation sorted (List.filter unfinished (rows db))) as Hp by apply merge_sort_Permutation.
  assert (StronglySorted (oldest_first UpdatedAt) sorted) as Hs by (apply StronglySorted_merge_sort; apply _).
  assert (forall d, d ∈ sorted <-> d ∈ rows db /\ Status_Terminal (status d) = false) as Hin.
  { intros d. rewrite Hp, !list_elem_of_In, filter_In. unfold unfinished. by rewrite negb_true_iff. }
  clearbody sorted. rewrite <-(take_drop (Z.to_nat limit) sorted), <-Hl in Hs.
  split_and!.
  - apply StronglySorted_Sorted. by apply StronglySorted_app_1_l in Hs.
  - rewrite Hl, length_take. lia.
  - intros d Hd. apply Hin. rewrite <-(take_drop (Z.to_nat limit) sorted), <-Hl. apply elem_of_app. by left.
  - intros d Hd Ht. assert (d ∈ sorted) as Hd' by by apply Hin.
    rewrite <-(take_drop (Z.to_nat limit) sorted), <-Hl in Hd'. apply elem_of_app in Hd' as [Hd'|Hd']; [by left|].
    right. split.
    + assert (drop (Z.to_nat limit) sorted <> []) as Hne by (intros He; rewrite He in Hd'; by apply not_elem_of_nil in Hd').
      rewrite Hl, length_take. destruct (decide (Z.to_nat limit <= length sorted)%nat); [lia|].
      destruct Hne. apply drop_ge. lia.
    + intros d' Hd''. by eapply StronglySorted_app_le.
Qed.

(** ** Concrete tables *)
Definition example_uuid (s : string) : option string := if validUUID s then Some s else None.
Definition id1 : string := "a1b2c3d4-0000-4000-8000-000000000001".
Definition id2 : string := "a1b2c3d4-0000-4000-8000-000000000002".
Definition host1 : string := "b1b2c3d4-0000-4000-8000-000000000001".

Definition example_create (id : string) : repoOp :=
  OpCreate (Err "no entropy") (mkCreateDeploymentParams id "" 7 host1 "edge" "vpn.example.com" "node-1" (Addr4 16909060)).

Definition example_ops : list (Z * repoOp) :=
  [(10, example_create id1); (20, example_create id2);
   (30, OpUpdateState id1 (mkUpdateDeploymentStateParams StatusPreflight "preflight" None None));
   (40, OpRecordStep (mkRecordStepParams id1 "preflight" StepStatusRunning (Some "started") None));
   (50, OpStoreKey id1 "SHA256:abc"); (60, OpStoreKey id1 "SHA256:def");
   (70, OpUpdateState id2 (mkUpdateDeploymentStateParams StatusFailed "preflight" (Some "X") (Some "x")))].

Definition run_ops (ops : list (Z * repoOp)) (db : Db) : Db :=
  foldl (fun db o => repo_exec example_uuid (fst o) (snd o) db) db ops.

Definition example_db : Db := run_ops example_ops empty_db.

Lemma example_db_reachable : db_reachable example_uuid 70 example_db.
Proof.
  unfold example_db, run_ops, example_ops. cbn [foldl fst snd].
  apply (db_step _ 60); [|lia]. apply (db_step _ 50); [|lia]. apply (db_step _ 40); [|lia].
  apply (db_step _ 30); [|lia]. apply (db_step _ 20); [|lia]. apply (db_step _ 10); [|lia].
  apply (db_step _ 10); [apply db_init|lia].
Qed.

Lemma repository_lifecycle_invariant_witness :
  db_ok 70 example_db /\ (CompletedAt <$> deployments example_db !! id2) = Some (Some 70).
Proof.
  split; [|vm_compute; reflexivity].
  apply (repository_lifecycle_invariant example_uuid 70 example_db), example_db_reachable.
Defined.

Lemma repository_rows_only_extend_witness :
  exists d d', deployments (run_ops (take 5 example_ops) empty_db) !! id1 = Some d /\
    deployments (repo_exec example_uuid 60 (OpStoreKey id1 "SHA256:def") (run_ops (take 5 example_ops) empty_db)) !! id1 = Some d' /\
    row_extends d d' /\ SSHHostKeyFingerprint d = Some "SHA256:abc".
Proof.
  destruct (deployments (run_ops (take 5 example_ops) empty_db) !! id1) as [d|] eqn:Hd;
    [|vm_compute in Hd; discriminate].
  destruct (repository_rows_only_extend example_uuid 60 (OpStoreKey id1 "SHA256:def")
    (run_ops (take 5 example_ops) empty_db) id1 d Hd) as (d' & Hd' & Hx).
  exists d, d'. split; [done|]. split; [done|]. split; [done|].
  vm_compute in Hd. injection Hd as <-. reflexivity.
Defined.

Lemma find_unfinished_oldest_first_witness :
  exists l, FindUnfinishedDeployments 5 example_db = Ok l /\ Sorted (oldest_first UpdatedAt) l /\
    (ID <$> l) = [id1].
Proof.
  destruct (FindUnfinishedDeployments 5 example_db) as [l|] eqn:Hl; [|vm_compute in Hl; discriminate].
  exists l. split; [done|]. split; [|vm_compute in Hl; injection Hl as <-; reflexivity].
  exact (proj1 (find_unfinished_oldest_first 5 example_db l Hl)).
Defined.
