(* ===== verification/CertTypes.v ===== *)
(** * Certificate data ([internal/certificates/material.go],
    [internal/certmanager/types.go])

    The material handed between components, the persisted metadata, and the
    errors of the certificate manager with the operator-safe text they may
    carry. *)

From S2P Require Import Prelude GoStrings NetIP.

#[local] Open Scope Z_scope.

(** ** Material: the bytes of the chain and of the key *)
Record Material : Type := mkMaterial { FullchainPEM : list Z; PrivateKeyPEM : list Z }.

#[export] Instance Material_eq_dec : EqDecision Material.
Proof. solve_decision. Defined.

(** [Material.Clone]: a copy that shares no bytes; values share none. *)
Definition Clone (m : Material) : Material := mkMaterial (FullchainPEM m) (PrivateKeyPEM m).

(** [String] and [GoString], and the value logged: never the bytes. *)
Definition Material_String (m : Material) : string := "CertificateMaterial{[REDACTED]}".

(** [Material.Destroy]. *)
Definition Destroy (m : Material) : Material := mkMaterial [] [].

(** Both parts are there. *)
Definition complete_material (m : Material) : bool :=
  negb (length (FullchainPEM m) =? 0)%nat && negb (length (PrivateKeyPEM m) =? 0)%nat.

Inductive Readiness : Type := ReadinessUnknown | ReadinessReady | ReadinessNotReady.

#[export] Instance Readiness_eq_dec : EqDecision Readiness.
Proof. solve_decision. Defined.

(** [Info]: the metadata of validated material. *)
Record Info : Type := mkInfo {
  inf_Fingerprint : string;
  inf_Serial : string;
  inf_IssuedAt : Z;
  inf_ExpiresAt : Z
}.

(** ** Persisted metadata *)
Inductive CertStatus : Type :=
  | StatusIssuing | StatusActive | StatusRenewalDue | StatusDistributionFailed | StatusInvalid.

Inductive VersionStatus : Type :=
  | VersionPending | VersionActive | VersionSuperseded | VersionDistribution | VersionInvalid.

Inductive DistributionStatus : Type := DistributionSucceeded | DistributionFailed.

Inductive TargetReviewState : Type := TargetManualReview | TargetLegacyAcknowledged.

#[export] Instance CertStatus_eq_dec : EqDecision CertStatus.
Proof. solve_decision. Defined.
#[export] Instance VersionStatus_eq_dec : EqDecision VersionStatus.
Proof. solve_decision. Defined.
#[export] Instance DistributionStatus_eq_dec : EqDecision DistributionStatus.
Proof. solve_decision. Defined.
#[export] Instance TargetReviewState_eq_dec : EqDecision TargetReviewState.
Proof. solve_decision. Defined.

Record CertRecord : Type := mkCertRecord {
  rec_SNI : string;
  rec_Fingerprint : string;
  rec_Serial : string;
  rec_IssuedAt : Z;
  rec_ExpiresAt : Z;
  rec_LastRenewedAt : option Z;
  rec_Status : CertStatus;
  rec_ActiveVersion : string;
  rec_UpdatedAt : Z
}.

Record CertVersion : Type := mkCertVersion {
  ver_SNI : string;
  ver_Version : string;
  ver_Fingerprint : string;
  ver_Serial : string;
  ver_IssuedAt : Z;
  ver_ExpiresAt : Z;
  ver_Status : VersionStatus;
  ver_CreatedAt : Z
}.

Record DistributionRecord : Type := mkDistributionRecord {
  dr_SNI : string;
  dr_Version : string;
  dr_DeploymentID : string;
  dr_NodeIP : Addr;
  dr_Status : DistributionStatus;
  dr_SafeErrorMessage : string;
  dr_AttemptedAt : Z
}.

Record TargetReview : Type := mkTargetReview {
  tr_SNI : string;
  tr_IP : Addr;
  tr_State : TargetReviewState;
  tr_Reason : string;
  tr_AcknowledgedBy : option Z;
  tr_CreatedAt : Z;
  tr_UpdatedAt : Z;
  tr_AcknowledgedAt : option Z
}.

Record Target : Type := mkTarget { tgt_DeploymentID : string; tgt_IP : Addr }.

Record TargetResolution : Type := mkTargetResolution {
  Managed : list Target;
  Unmanaged : list Addr;
  LegacyAcknowledged : list Addr
}.

Record DistributionResult : Type := mkDistributionResult {
  dres_Target : Target;
  dres_Status : DistributionStatus;
  dres_SafeMessage : string
}.

Record BootstrapResult : Type := mkBootstrapResult {
  br_SNI : string;
  br_Version : string;
  br_ManagedTargets : Z;
  br_AcknowledgedLegacyIPs : Z
}.

(** ** Errors *)
Inductive certKind : Type :=
  | ErrNotFound
  | ErrInvalidInput
  | ErrIssuanceFailed
  | ErrStorageFailed
  | ErrPersistenceFailed
  | ErrDistributionFailed
  | ErrActivationFailed
  | ErrNoUsableCertificate.

#[export] Instance certKind_eq_dec : EqDecision certKind.
Proof. solve_decision. Defined.

(** A Go error value: a sentinel, the sentinel [certificates.ErrInvalidMaterial],
    a [safeError], a join, or an error of another package (whose text may
    contain anything). *)
Inductive certErr : Type :=
  | CertSentinel (k : certKind)
  | ErrInvalidMaterial
  | CertSafe (message : string) (kind : certErr)
  | CertJoin (a b : certErr)
  | ForeignError.

(** [errors.Is(err, k)]. *)
Fixpoint cert_is (e : certErr) (k : certKind) : bool :=
  match e with
  | CertSentinel k' => bool_decide (k' = k)
  | CertSafe _ kind => cert_is kind k
  | CertJoin a b => cert_is a k || cert_is b k
  | ErrInvalidMaterial | ForeignError => false
  end.

(** [errors.Is(err, certificates.ErrInvalidMaterial)]. *)
Fixpoint cert_invalid (e : certErr) : bool :=
  match e with
  | ErrInvalidMaterial => true
  | CertSafe _ kind => cert_invalid kind
  | CertJoin a b => cert_invalid a || cert_invalid b
  | CertSentinel _ | ForeignError => false
  end.

(** [errors.As(err, &safeErr)]: the first [safeError] in depth-first order. *)
Fixpoint cert_as_safe (e : certErr) : option string :=
  match e with
  | CertSafe message _ => Some message
  | CertJoin a b => match cert_as_safe a with Some m => Some m | None => cert_as_safe b end
  | CertSentinel _ | ErrInvalidMaterial | ForeignError => None
  end.

(** [SafeMessage]. *)
Definition SafeMessage (e : certErr) (fallback : string) : string :=
  match cert_as_safe e with
  | Some message => if String.eqb message "" then fallback else message
  | None => fallback
  end.

(** ** Times

    A [time.Time] is the number of nanoseconds since the zero time. *)
Definition IsZero (t : Z) : bool := t =? 0.
