(* ===== verification/Certificates.v ===== *)
(** * Validation of certificate material ([internal/certificates/validation.go])

    [Validate] checks the whole contract of a chain and its key.  PEM, X.509
    and SHA-256 are library code: an instance of the class [X509] gives the
    functions the source calls, and the one documented fact it relies on,
    that [pem.Decode] consumes input. *)

From S2P Require Import Prelude GoStrings CertTypes.

#[local] Open Scope Z_scope.

Definition bytes : Type := list Z.

Record PemBlock : Type := mkPemBlock { pb_Type : string; pb_Bytes : bytes }.

(** The fields of [x509.Certificate] the source reads; [crt_Public] is the
    result of [x509.MarshalPKIXPublicKey] on its public key. *)
Record Certificate : Type := mkCertificate {
  crt_Raw : bytes;
  crt_Public : option bytes;
  crt_Serial : Z;
  crt_NotBefore : Z;
  crt_NotAfter : Z
}.

(** A [crypto.Signer]: [MarshalPKIXPublicKey] of its public key. *)
Record Signer : Type := mkSigner { sg_Public : option bytes }.

Class X509 : Type := {
  pem_Decode : bytes -> option (PemBlock * bytes);
  ParseCertificate : bytes -> option Certificate;
  ParsePKCS8PrivateKey : bytes -> option (option Signer);  (* [Some None]: a key that is no signer *)
  ParsePKCS1PrivateKey : bytes -> option Signer;
  ParseECPrivateKey : bytes -> option Signer;
  VerifyHostname : Certificate -> string -> bool;
  Sum256 : bytes -> bytes;
  hex_EncodeToString : bytes -> string;
  serial_text16 : Z -> string;
  pem_Decode_shorter data block rest :
    pem_Decode data = Some (block, rest) -> (length rest < length data)%nat
}.

Fixpoint string_of_bytes (l : bytes) : string :=
  match l with [] => EmptyString | b :: l' => String (of_byte b) (string_of_bytes l') end.

(** [len(bytes.TrimSpace(data)) == 0]. *)
Definition blank (data : bytes) : bool := String.eqb (TrimSpace (string_of_bytes data)) "".

Section Validation.
Context `{X509}.

(** The loop of [parseLeaf]; the chain gets shorter in every turn. *)
Fixpoint parse_chain (fuel : nat) (leaf : option Certificate) (remaining : bytes) : option Certificate :=
  if blank remaining then leaf
  else match fuel with
  | O => None
  | S fuel' =>
    match pem_Decode remaining with
    | None => None
    | Some (block, rest) =>
      if negb (String.eqb (pb_Type block) "CERTIFICATE") then None
      else match ParseCertificate (pb_Bytes block) with
      | None => None
      | Some certificate => parse_chain fuel' (match leaf with None => Some certificate | _ => leaf end) rest
      end
    end
  end.

Definition parseLeaf (fullchain : bytes) : option Certificate := parse_chain (length fullchain) None fullchain.

Definition parsePrivateKey (value : bytes) : option Signer :=
  match pem_Decode value with
  | None => None
  | Some (block, rest) =>
    if negb (blank rest) then None
    else match ParsePKCS8PrivateKey (pb_Bytes block) with
    | Some (Some signer) => Some signer
    | _ => match ParsePKCS1PrivateKey (pb_Bytes block) with
           | Some key => Some key
           | None => ParseECPrivateKey (pb_Bytes block)
           end
    end
  end.

Definition Validate (material : Material) (hostname : string) (now : Z) : result certErr Info :=
  match parseLeaf (FullchainPEM material), parsePrivateKey (PrivateKeyPEM material) with
  | Some leaf, Some privateKey =>
    match sg_Public privateKey, crt_Public leaf with
    | Some privatePublic, Some certificatePublic =>
      if negb (bool_decide (privatePublic = certificatePublic)) then Err ErrInvalidMaterial
      else
        let hostname := TrimSuffix (TrimSpace hostname) "." in
        if String.eqb hostname "" || negb (VerifyHostname leaf hostname) then Err ErrInvalidMaterial
        else if (now <? crt_NotBefore leaf) || negb (now <? crt_NotAfter leaf) then Err ErrInvalidMaterial
        else Ok (mkInfo (hex_EncodeToString (Sum256 (crt_Raw leaf))) (serial_text16 (crt_Serial leaf))
                   (crt_NotBefore leaf) (crt_NotAfter leaf))
    | _, _ => Err ErrInvalidMaterial
    end
  | _, _ => Err ErrInvalidMaterial
  end.

(** More fuel than the chain has bytes changes nothing: the loop always ends
    by itself. *)
Lemma parse_chain_fuel fuel leaf remaining :
  (length remaining <= fuel)%nat -> parse_chain fuel leaf remaining = parse_chain (length remaining) leaf remaining.
Proof.
  assert (forall n1 n2 data leaf, (length data <= n1)%nat -> (length data <= n2)%nat -> parse_chain n1 leaf data = parse_chain n2 leaf data) as Hgen.
  { induction n1 as [|n1 IH]; intros n2 data leaf0 H1 H2.
    - destruct data; [|simpl in H1; lia]. by destruct n2.
    - destruct n2 as [|n2]; [destruct data; [done|simpl in H2; lia]|]. simpl. destruct (blank data); [done|].
      destruct (pem_Decode data) as [[block rest]|] eqn:Hd; [|done]. destruct (negb _); [done|].
      destruct (ParseCertificate _); [|done]. apply pem_Decode_shorter in Hd. apply IH; lia. }
  intros Hl. by apply Hgen.
Qed.

(** What a successful validation says. *)
Lemma Validate_ok material hostname now info :
  Validate material hostname now = Ok info ->
  exists leaf key public, parseLeaf (FullchainPEM material) = Some leaf /\ parsePrivateKey (PrivateKeyPEM material) = Some key /\
    sg_Public key = Some public /\ crt_Public leaf = Some public /\
    VerifyHostname leaf (TrimSuffix (TrimSpace hostname) ".") = true /\
    crt_NotBefore leaf <= now < crt_NotAfter leaf /\
    inf_Fingerprint info = hex_EncodeToString (Sum256 (crt_Raw leaf)) /\
    inf_IssuedAt info = crt_NotBefore leaf /\ inf_ExpiresAt info = crt_NotAfter leaf.
Proof.
  unfold Validate. destruct (parseLeaf _) as [leaf|]; [|done]. destruct (parsePrivateKey _) as [key|]; [|done].
  destruct (sg_Public key) as [public|] eqn:Hpub; [|done]. destruct (crt_Public leaf) as [public'|] eqn:Hpub'; [|done].
  case_bool_decide as He; [subst public'|done]. simpl. destruct (_ || _) eqn:Hh; [done|]. apply orb_false_iff in Hh as [_ Hh].
  destruct (_ || _) eqn:Ht; [done|]. apply orb_false_iff in Ht as [Ht1 Ht2]. intros [= <-].
  exists leaf, key, public. apply negb_false_iff in Hh, Ht2. split_and!; try done; lia.
Qed.
End Validation.

(** A library whose certificates are single bytes, for concrete runs. *)
#[refine] Definition example_x509 : X509 := {|
  pem_Decode data := match data with [] => None | b :: rest => Some (mkPemBlock "CERTIFICATE" [b], rest) end;
  ParseCertificate block := Some (mkCertificate block (Some block) 1 0 (100 * 24 * 3600 * 1000000000));
  ParsePKCS8PrivateKey block := Some (Some (mkSigner (Some block)));
  ParsePKCS1PrivateKey _ := None;
  ParseECPrivateKey _ := None;
  VerifyHostname _ _ := true;
  Sum256 block := block;
  hex_EncodeToString := string_of_bytes;
  serial_text16 _ := "1"
|}.
Proof. intros [|b data] block rest; [done|]. intros [= <- <-]. simpl. lia. Defined.
