(* ===== verification/CertStore.v ===== *)
(** * Domains and certificate versions ([internal/certmanager/filestore.go])

    The canonical form of a domain, which names directories, locks and rows,
    and the form of version names; both are what keeps a path inside the
    store. *)

From S2P Require Import Prelude GoStrings Unicode CertTypes.

#[local] Open Scope Z_scope.

(** The bytes of "/\\\x00\r\n". *)
Definition path_bytes : string :=
  String (of_byte 47) (String (of_byte 92) (String (of_byte 0) (String chr_cr (String chr_nl EmptyString)))).

Definition label_rune (c : Z) : bool :=
  ((97 <=? c) && (c <=? 122)) || ((48 <=? c) && (c <=? 57)) || (c =? 45).

Definition first_byte (s : string) : option ascii := match s with EmptyString => None | String a _ => Some a end.
Definition last_byte (s : string) : option ascii := first_byte (str_rev s).

Definition label_ok (label : string) : bool :=
  negb ((str_len label =? 0) || (63 <? str_len label) ||
        bool_decide (first_byte label = Some "-"%char) || bool_decide (last_byte label = Some "-"%char)) &&
  forallb label_rune (runes label).

Definition canonicalSNI (value : string) : result certErr string :=
  let value := ToLower (TrimSuffix (TrimSpace value) ".") in
  if (str_len value <? 3) || (253 <? str_len value) || negb (Contains value ".") || ContainsAny value path_bytes
  then Err (CertSentinel ErrInvalidInput)
  else if forallb label_ok (Split value "."%char) then Ok value
  else Err (CertSentinel ErrInvalidInput).
