(* ===== verification/CertRepository.v ===== *)
(** * Certificate metadata ([internal/repository/postgres/certificates.go])

    The four certificate tables, every method of the repository with its
    validation and the effect of its SQL statements, and the constraints of
    the schema ([migrations/000003], [000005], [000006]) that a statement can
    violate.  A method is a function of the time of its transaction ([now()])
    and of the tables; one transaction is one step, and a transaction that
    fails changes nothing.  [ScopedRepository] of [internal/certmanager] is
    the same methods with the panel fixed.

    Parameters of the database: [sni_key], the value of [lower(btrim($n))] of
    a text parameter, which is [None] for a text the database rejects;
    [pg_lower], the function [lower]; [uuid_text], the UUID input and output
    conversion; [text_leb], the order of texts in the database's collation. *)

From S2P Require Import Prelude GoStrings NetIP Deployment CertTypes.
From S2P Require Repository.

#[local] Open Scope Z_scope.

(** ** Tables *)

(** The owner of a row: its panel and its normalised domain. *)
Notation scope := (string * string)%type.

Record RecordRow : Type := mkRecordRow {
  rr_Fingerprint : option string;
  rr_Serial : option string;
  rr_IssuedAt : option Z;
  rr_ExpiresAt : option Z;
  rr_LastRenewedAt : option Z;
  rr_Status : CertStatus;
  rr_ActiveVersion : option string;
  rr_CreatedAt : Z;
  rr_UpdatedAt : Z
}.

Record DistributionRow : Type := mkDistributionRow {
  di_NodeIP : Addr;
  di_Status : DistributionStatus;
  di_SafeErrorMessage : option string;
  di_AttemptedAt : Z
}.

Record ReviewRow : Type := mkReviewRow {
  rv_State : TargetReviewState;
  rv_Reason : string;
  rv_AcknowledgedBy : option Z;
  rv_CreatedAt : Z;
  rv_UpdatedAt : Z;
  rv_AcknowledgedAt : option Z
}.

Record CertDb : Type := mkCertDb {
  certificate_records : gmap scope RecordRow;
  certificate_versions : gmap (scope * string) CertVersion;
  certificate_distributions : gmap (scope * string * string) DistributionRow;
  certificate_target_reviews : gmap (scope * Addr) ReviewRow
}.

Definition empty_cert_db : CertDb := mkCertDb ∅ ∅ ∅ ∅.

(** ** Rows *)

(** [INSERT ... (status) ... ON CONFLICT DO UPDATE SET status, updated_at = now()]. *)
Definition status_row (now : Z) (status : CertStatus) (old : option RecordRow) : RecordRow :=
  match old with
  | None => mkRecordRow None None None None None status None now now
  | Some r => mkRecordRow (rr_Fingerprint r) (rr_Serial r) (rr_IssuedAt r) (rr_ExpiresAt r) (rr_LastRenewedAt r)
      status (rr_ActiveVersion r) (rr_CreatedAt r) now
  end.

Definition with_version_status (status : VersionStatus) (v : CertVersion) : CertVersion :=
  mkCertVersion (ver_SNI v) (ver_Version v) (ver_Fingerprint v) (ver_Serial v) (ver_IssuedAt v) (ver_ExpiresAt v)
    status (ver_CreatedAt v).

(** The UPDATE of [certificate_records] in an activation. *)
Definition activate_row (now : Z) (version : string) (v : CertVersion) (renewed : bool) (r : RecordRow) : RecordRow :=
  mkRecordRow (Some (ver_Fingerprint v)) (Some (ver_Serial v)) (Some (ver_IssuedAt v)) (Some (ver_ExpiresAt v))
    (if renewed then Some now else rr_LastRenewedAt r) StatusActive (Some version) (rr_CreatedAt r) now.

(** The UPDATE of [certificate_versions] in an activation. *)
Definition activate_version (s : scope) (version : string) (key : scope * string) (v : CertVersion) : CertVersion :=
  if bool_decide (key.1 = s) && (bool_decide (ver_Status v = VersionActive) || String.eqb key.2 version)
  then with_version_status (if String.eqb key.2 version then VersionActive else VersionSuperseded) v
  else v.

Definition review_row (now : Z) (r : TargetReview) (old : option ReviewRow) : ReviewRow :=
  mkReviewRow (tr_State r) (TrimSpace (tr_Reason r)) (tr_AcknowledgedBy r)
    (match old with Some o => rv_CreatedAt o | None => now end) now
    (if bool_decide (tr_State r = TargetLegacyAcknowledged) then Some now else None).

(** [scanCertificateRecord]: a NULL in a column that is read into a string or
    a time is an error. *)
Definition scanCertificateRecord (sni : string) (r : RecordRow) : option CertRecord :=
  fingerprint ← rr_Fingerprint r; serial ← rr_Serial r; issued ← rr_IssuedAt r; expires ← rr_ExpiresAt r;
  version ← rr_ActiveVersion r;
  Some (mkCertRecord sni fingerprint serial issued expires (rr_LastRenewedAt r) (rr_Status r) version (rr_UpdatedAt r)).

(** ** Orders of the queries *)
Section Orders.
Variable text_leb : string -> string -> bool.

Definition expiring_le (a b : CertRecord) : Prop :=
  rec_ExpiresAt a < rec_ExpiresAt b \/ rec_ExpiresAt a = rec_ExpiresAt b /\ text_leb (rec_SNI a) (rec_SNI b) = true.
#[export] Instance expiring_le_dec : RelDecision expiring_le.
Proof. intros a b. unfold expiring_le. apply _. Defined.

Definition newest_version_first (a b : CertVersion) : Prop :=
  ver_CreatedAt b < ver_CreatedAt a \/
  ver_CreatedAt a = ver_CreatedAt b /\ text_leb (ver_Version b) (ver_Version a) = true.
#[export] Instance newest_version_first_dec : RelDecision newest_version_first.
Proof. intros a b. unfold newest_version_first. apply _. Defined.
End Orders.

Definition review_le (a b : TargetReview) : Prop :=
  Compare (tr_IP a) (tr_IP b) = Lt \/ Compare (tr_IP a) (tr_IP b) = Eq /\ tr_CreatedAt a <= tr_CreatedAt b.
#[export] Instance review_le_dec : RelDecision review_le.
Proof. intros a b. unfold review_le. apply _. Defined.

(** ** Methods *)
Section Methods.
Variable sni_key : string -> option string.
Variable pg_lower : string -> string.
Variable uuid_text : string -> option string.
Variable text_leb : string -> string -> bool.

(** The CHECKs on [panel_id] and [sni_domain] of a new record. *)
Definition scope_check (s : scope) : bool :=
  Repository.validPanelID (fst s) && bool_decide (sni_key (snd s) = Some (snd s)) && Contains (snd s) ".".

Definition GetActiveForPanel (panel sni : string) (db : CertDb) : result certErr CertRecord :=
  match sni_key sni with
  | None => Err ForeignError
  | Some key =>
    match certificate_records db !! (panel, key) with
    | None => Err (CertSentinel ErrNotFound)
    | Some r =>
      match rr_ActiveVersion r with
      | None => Err (CertSentinel ErrNotFound)
      | Some _ => match scanCertificateRecord key r with None => Err ForeignError | Some rec => Ok rec end
      end
    end
  end.

(** [INSERT INTO certificate_records ... ON CONFLICT DO UPDATE]; [None] when a constraint fails. *)
Definition upsert_status (now : Z) (s : scope) (status : CertStatus) (db : CertDb) : option CertDb :=
  if scope_check s then
    Some (mkCertDb (<[s := status_row now status (certificate_records db !! s)]> (certificate_records db))
            (certificate_versions db) (certificate_distributions db) (certificate_target_reviews db))
  else None.

Definition SaveVersionForPanel (now : Z) (panel : string) (v : CertVersion) (db : CertDb) : result certErr unit * CertDb :=
  if String.eqb (TrimSpace (ver_SNI v)) "" || String.eqb (TrimSpace (ver_Version v)) "" ||
     String.eqb (ver_Fingerprint v) "" || String.eqb (ver_Serial v) "" || IsZero (ver_IssuedAt v) ||
     negb (ver_IssuedAt v <? ver_ExpiresAt v)
  then (Err (CertSentinel ErrInvalidInput), db)
  else match sni_key (ver_SNI v) with
  | None => (Err ForeignError, db)
  | Some key =>
    match upsert_status now (panel, key) StatusIssuing db, certificate_versions db !! ((panel, key), ver_Version v) with
    | Some db', None =>
      let row := mkCertVersion key (ver_Version v) (ver_Fingerprint v) (ver_Serial v) (ver_IssuedAt v) (ver_ExpiresAt v)
                   (ver_Status v) (ver_CreatedAt v) in
      (Ok tt, mkCertDb (certificate_records db') (<[((panel, key), ver_Version v) := row]> (certificate_versions db'))
                (certificate_distributions db') (certificate_target_reviews db'))
    | _, _ => (Err ForeignError, db)
    end
  end.

Definition SetVersionStatusForPanel (panel sni version : string) (status : VersionStatus) (db : CertDb)
    : result certErr unit * CertDb :=
  match sni_key sni with
  | None => (Err ForeignError, db)
  | Some key =>
    match certificate_versions db !! ((panel, key), version) with
    | None => (Err (CertSentinel ErrNotFound), db)
    | Some row =>
      (Ok tt, mkCertDb (certificate_records db)
                (<[((panel, key), version) := with_version_status status row]> (certificate_versions db))
                (certificate_distributions db) (certificate_target_reviews db))
    end
  end.

Definition ActivateVersionForPanel (now : Z) (panel sni version : string) (renewed : bool) (db : CertDb)
    : result certErr unit * CertDb :=
  match sni_key sni with
  | None => (Err ForeignError, db)
  | Some key =>
    match certificate_versions db !! ((panel, key), version) with
    | None => (Err (CertSentinel ErrNotFound), db)
    | Some row =>
      (Ok tt, mkCertDb (alter (activate_row now version row renewed) (panel, key) (certificate_records db))
                (map_imap (fun k v => Some (activate_version (panel, key) version k v)) (certificate_versions db))
                (certificate_distributions db) (certificate_target_reviews db))
    end
  end.

Definition SetStatusForPanel (now : Z) (panel sni : string) (status : CertStatus) (db : CertDb)
    : result certErr unit * CertDb :=
  match (key ← sni_key sni; upsert_status now (panel, key) status db) with
  | None => (Err ForeignError, db)
  | Some db' => (Ok tt, db')
  end.

(** The foreign keys of a distribution: the version, and a deployment of the panel. *)
Definition distribution_keys (panel key version deployment : string) (deployments : gmap string Deployment) (db : CertDb) : bool :=
  bool_decide (is_Some (certificate_versions db !! ((panel, key), version))) &&
  match deployments !! deployment with Some d => String.eqb (PanelID d) panel | None => false end.

Definition RecordDistributionForPanel (panel : string) (r : DistributionRecord) (deployments : gmap string Deployment) (db : CertDb)
    : result certErr unit * CertDb :=
  if negb (IsValid (dr_NodeIP r)) || String.eqb (TrimSpace (dr_DeploymentID r)) ""
  then (Err (CertSentinel ErrInvalidInput), db)
  else match sni_key (dr_SNI r), uuid_text (dr_DeploymentID r), Repository.inet (dr_NodeIP r) with
  | Some key, Some deployment, Some ip =>
    if distribution_keys panel key (dr_Version r) deployment deployments db then
      let row := mkDistributionRow ip (dr_Status r)
                   (if String.eqb (dr_SafeErrorMessage r) "" then None else Some (dr_SafeErrorMessage r)) (dr_AttemptedAt r) in
      (Ok tt, mkCertDb (certificate_records db) (certificate_versions db)
                (<[((panel, key), dr_Version r, deployment) := row]> (certificate_distributions db))
                (certificate_target_reviews db))
    else (Err ForeignError, db)
  | _, _, _ => (Err ForeignError, db)
  end.

(** The acknowledging operator that is stored: none for a manual review. *)
Definition review_operator (r : TargetReview) : option Z :=
  if bool_decide (tr_State r = TargetManualReview) then None else tr_AcknowledgedBy r.

Definition RecordTargetReviewForPanel (now : Z) (panel : string) (r : TargetReview) (db : CertDb) : result certErr unit * CertDb :=
  if String.eqb (TrimSpace (tr_SNI r)) "" || negb (IsValid (tr_IP r)) || String.eqb (TrimSpace (tr_Reason r)) "" ||
     (bool_decide (tr_State r = TargetLegacyAcknowledged) &&
      match tr_AcknowledgedBy r with None => true | Some operator => operator <=? 0 end)
  then (Err (CertSentinel ErrInvalidInput), db)
  else match sni_key (tr_SNI r), Repository.inet (Unmap (tr_IP r)) with
  | Some key, Some ip =>
    match certificate_records db !! (panel, key) with
    | None => (Err ForeignError, db)
    | Some _ =>
      let r' := mkTargetReview (tr_SNI r) (tr_IP r) (tr_State r) (tr_Reason r) (review_operator r)
                  (tr_CreatedAt r) (tr_UpdatedAt r) (tr_AcknowledgedAt r) in
      let row := review_row now r' (certificate_target_reviews db !! ((panel, key), ip)) in
      (Ok tt, mkCertDb (certificate_records db) (certificate_versions db) (certificate_distributions db)
                (<[((panel, key), ip) := row]> (certificate_target_reviews db)))
    end
  | _, _ => (Err ForeignError, db)
  end.

(** *** Queries *)
Definition ListTargetReviewsForPanel (panel sni : string) (db : CertDb) : result certErr (list TargetReview) :=
  match sni_key sni with
  | None => Err ForeignError
  | Some key => Ok (merge_sort review_le (omap (fun '((s, ip), r) =>
      if bool_decide (s = (panel, key)) then
        Some (mkTargetReview key ip (rv_State r) (rv_Reason r) (rv_AcknowledgedBy r) (rv_CreatedAt r) (rv_UpdatedAt r) (rv_AcknowledgedAt r))
      else None) (map_to_list (certificate_target_reviews db))))
  end.

Definition ListExpiringForPanel (panel : string) (before limit : Z) (db : CertDb) : result certErr (list CertRecord) :=
  if (limit <? 1) || (100 <? limit) then Err (CertSentinel ErrInvalidInput)
  else Ok (take (Z.to_nat limit) (merge_sort (expiring_le text_leb) (omap (fun '(s, r) =>
      rec ← scanCertificateRecord (snd s) r;
      if String.eqb (fst s) panel && (rec_ExpiresAt rec <=? before) then Some rec else None)
    (map_to_list (certificate_records db))))).

Definition ListVersionsForPanel (panel sni : string) (db : CertDb) : result certErr (list CertVersion) :=
  match sni_key sni with
  | None => Err ForeignError
  | Some key => Ok (merge_sort (newest_version_first text_leb) (omap (fun '((s, _), v) =>
      if bool_decide (s = (panel, key)) then Some v else None) (map_to_list (certificate_versions db))))
  end.

Definition FindDeploymentsByPanelSNI (panel sni : string) (limit : Z) (db : Repository.Db)
    : result Repository.repoErr (list Deployment) :=
  Repository.list_limited (fun db => merge_sort (Repository.newest_first UpdatedAt)
    (List.filter (fun d => String.eqb (PanelID d) panel && bool_decide (Some (pg_lower (SNIDomain d)) = sni_key sni))
       (Repository.rows db))) limit db.
End Methods.

(** ** The methods of one panel

    [ScopedRepository]: the methods with the panel of one [Manager]; the
    methods without a panel of the repository are those of the panel
    "default". *)
Definition NewScopedRepository (panelID : string) : option string :=
  let panel := TrimSpace panelID in
  if String.eqb panel "" then None else Some panel.

Inductive certOp : Type :=
  | OpSaveVersion (v : CertVersion)
  | OpSetVersionStatus (sni version : string) (status : VersionStatus)
  | OpActivateVersion (sni version : string) (renewed : bool)
  | OpSetStatus (sni : string) (status : CertStatus)
  | OpRecordDistribution (r : DistributionRecord)
  | OpRecordTargetReview (r : TargetReview).

Definition cert_exec (sni_key : string -> option string) (uuid_text : string -> option string) (deployments : gmap string Deployment)
    (now : Z) (panel : string) (o : certOp) (db : CertDb) : result certErr unit * CertDb :=
  match o with
  | OpSaveVersion v => SaveVersionForPanel sni_key now panel v db
  | OpSetVersionStatus sni version status => SetVersionStatusForPanel sni_key panel sni version status db
  | OpActivateVersion sni version renewed => ActivateVersionForPanel sni_key now panel sni version renewed db
  | OpSetStatus sni status => SetStatusForPanel sni_key now panel sni status db
  | OpRecordDistribution r => RecordDistributionForPanel sni_key uuid_text panel r deployments db
  | OpRecordTargetReview r => RecordTargetReviewForPanel sni_key now panel r db
  end.

(** ** Invariants of the tables *)
Section Invariants.
Context (sni_key : string -> option string) (uuid_text : string -> option string).

(** The metadata a record shows is that of its active version. *)
Definition mirrors (r : RecordRow) (v : CertVersion) : Prop :=
  rr_Fingerprint r = Some (ver_Fingerprint v) /\ rr_Serial r = Some (ver_Serial v) /\
  rr_IssuedAt r = Some (ver_IssuedAt v) /\ rr_ExpiresAt r = Some (ver_ExpiresAt v).

Definition record_ok (db : CertDb) (s : scope) (r : RecordRow) : Prop :=
  scope_check sni_key s = true /\
  forall version, rr_ActiveVersion r = Some version ->
    exists v, certificate_versions db !! (s, version) = Some v /\ mirrors r v.

Definition version_ok (db : CertDb) (k : scope * string) (v : CertVersion) : Prop :=
  is_Some (certificate_records db !! k.1) /\ ver_SNI v = snd k.1 /\ ver_Version v = k.2 /\
  ver_Fingerprint v <> "" /\ ver_IssuedAt v < ver_ExpiresAt v.

Definition review_ok (db : CertDb) (k : scope * Addr) (r : ReviewRow) : Prop :=
  is_Some (certificate_records db !! k.1) /\ rv_Reason r <> "" /\ IsValid k.2 = true /\
  match rv_State r with
  | TargetManualReview => rv_AcknowledgedBy r = None /\ rv_AcknowledgedAt r = None
  | TargetLegacyAcknowledged => (exists operator, rv_AcknowledgedBy r = Some operator /\ 0 < operator) /\ is_Some (rv_AcknowledgedAt r)
  end.

Definition cert_db_ok (db : CertDb) : Prop :=
  map_Forall (record_ok db) (certificate_records db) /\
  map_Forall (version_ok db) (certificate_versions db) /\
  map_Forall (fun k (_ : DistributionRow) => is_Some (certificate_versions db !! k.1)) (certificate_distributions db) /\
  map_Forall (review_ok db) (certificate_target_reviews db).

(** A version that is ACTIVE is the one its record names: there is at most
    one per domain. *)
Definition single_active (db : CertDb) : Prop :=
  forall s version v, certificate_versions db !! (s, version) = Some v -> ver_Status v = VersionActive ->
    exists r, certificate_records db !! s = Some r /\ rr_ActiveVersion r = Some version.

(** The states any calls reach, for any panels, with any deployments, at any times. *)
Inductive cert_reachable (allowed : certOp -> Prop) : CertDb -> Prop :=
  | cert_init : cert_reachable allowed empty_cert_db
  | cert_step deployments now panel o db :
      cert_reachable allowed db -> allowed o ->
      cert_reachable allowed (snd (cert_exec sni_key uuid_text deployments now panel o db)).

(** The status a call gives to a version by hand satisfies [P]. *)
Definition writes_version_status (P : VersionStatus -> Prop) (o : certOp) : Prop :=
  match o with
  | OpSaveVersion v => P (ver_Status v)
  | OpSetVersionStatus _ _ status => P status
  | _ => True
  end.

(** How the tables change. *)
Inductive cert_effect (P : VersionStatus -> Prop) (now : Z) (panel : string) (db : CertDb) : CertDb -> Prop :=
  | ceff_none : cert_effect P now panel db db
  | ceff_status key status :
      scope_check sni_key (panel, key) = true ->
      cert_effect P now panel db (mkCertDb (<[(panel, key) := status_row now status (certificate_records db !! (panel, key))]> (certificate_records db))
        (certificate_versions db) (certificate_distributions db) (certificate_target_reviews db))
  | ceff_version key v :
      P (ver_Status v) -> scope_check sni_key (panel, key) = true -> certificate_versions db !! ((panel, key), ver_Version v) = None ->
      ver_SNI v = key -> ver_Fingerprint v <> "" -> ver_IssuedAt v < ver_ExpiresAt v ->
      cert_effect P now panel db (mkCertDb (<[(panel, key) := status_row now StatusIssuing (certificate_records db !! (panel, key))]> (certificate_records db))
        (<[((panel, key), ver_Version v) := v]> (certificate_versions db)) (certificate_distributions db) (certificate_target_reviews db))
  | ceff_version_status key version row status :
      P status ->
      certificate_versions db !! ((panel, key), version) = Some row ->
      cert_effect P now panel db (mkCertDb (certificate_records db)
        (<[((panel, key), version) := with_version_status status row]> (certificate_versions db))
        (certificate_distributions db) (certificate_target_reviews db))
  | ceff_activate key version row renewed :
      certificate_versions db !! ((panel, key), version) = Some row ->
      cert_effect P now panel db (mkCertDb (alter (activate_row now version row renewed) (panel, key) (certificate_records db))
        (map_imap (fun k v => Some (activate_version (panel, key) version k v)) (certificate_versions db))
        (certificate_distributions db) (certificate_target_reviews db))
  | ceff_distribution key version deployment row :
      is_Some (certificate_versions db !! ((panel, key), version)) ->
      cert_effect P now panel db (mkCertDb (certificate_records db) (certificate_versions db)
        (<[((panel, key), version, deployment) := row]> (certificate_distributions db)) (certificate_target_reviews db))
  | ceff_review key ip r row :
      certificate_records db !! (panel, key) = Some r -> IsValid ip = true -> rv_Reason row <> "" ->
      match rv_State row with
      | TargetManualReview => rv_AcknowledgedBy row = None /\ rv_AcknowledgedAt row = None
      | TargetLegacyAcknowledged => (exists operator, rv_AcknowledgedBy row = Some operator /\ 0 < operator) /\ is_Some (rv_AcknowledgedAt row)
      end ->
      cert_effect P now panel db (mkCertDb (certificate_records db) (certificate_versions db) (certificate_distributions db)
        (<[((panel, key), ip) := row]> (certificate_target_reviews db))).

Lemma upsert_status_Some now s status db db' :
  upsert_status sni_key now s status db = Some db' -> scope_check sni_key s = true /\
  db' = mkCertDb (<[s := status_row now status (certificate_records db !! s)]> (certificate_records db))
          (certificate_versions db) (certificate_distributions db) (certificate_target_reviews db).
Proof. unfold upsert_status. destruct (scope_check _ _); [|done]. by intros [= <-]. Qed.

Lemma inet_valid a ip : Repository.inet a = Some ip -> IsValid ip = true.
Proof. unfold Repository.inet. destruct (_ && _) eqn:H; [|done]. intros [= <-]. by apply andb_true_iff in H as [H _]. Qed.

Lemma cert_exec_effect P deployments now panel o db :
  writes_version_status P o ->
  cert_effect P now panel db (snd (cert_exec sni_key uuid_text deployments now panel o db)).
Proof.
  intros HP. destruct o as [v|sni version status|sni version renewed|sni status|r|r]; simpl.
  - unfold SaveVersionForPanel. destruct (_ || _) eqn:Hin; [constructor|]. split_hyps.
    destruct (sni_key _) as [key|]; [|constructor].
    destruct (upsert_status _ _ _ _ _) as [db'|] eqn:Hup; [|constructor].
    destruct (certificate_versions db !! _) eqn:Hv; [constructor|]. apply upsert_status_Some in Hup as [Hc ->]. simpl.
    match goal with |- context [<[_ := ?row]> (certificate_versions db)] => pose proof (ceff_version P now panel db key row) as He end.
    apply He; simpl; try done; [|by apply Z.ltb_lt, negb_false_iff].
    by apply String.eqb_neq.
  - unfold SetVersionStatusForPanel. destruct (sni_key _) as [key|]; [|constructor].
    destruct (certificate_versions db !! _) eqn:Hv; by constructor.
  - unfold ActivateVersionForPanel. destruct (sni_key _) as [key|]; [|constructor].
    destruct (certificate_versions db !! _) eqn:Hv; by constructor.
  - unfold SetStatusForPanel. destruct (sni_key _) as [key|]; simpl; [|constructor].
    destruct (upsert_status _ _ _ _ _) as [db'|] eqn:Hup; [|constructor].
    apply upsert_status_Some in Hup as [Hc ->]. by constructor.
  - unfold RecordDistributionForPanel, distribution_keys. destruct (_ || _); [constructor|].
    destruct (sni_key _) as [key|]; [|constructor]. destruct (uuid_text _) as [d|]; [|constructor].
    destruct (Repository.inet _) as [ip|]; [|constructor]. destruct (_ && _) eqn:Hk; [|constructor].
    apply andb_true_iff in Hk as [Hk%bool_decide_eq_true _]. by constructor.
  - unfold RecordTargetReviewForPanel. destruct (_ || _) eqn:Hin; [constructor|]. split_hyps.
    destruct (sni_key _) as [key|]; [|constructor]. destruct (Repository.inet _) as [ip|] eqn:Hip; [|constructor].
    destruct (certificate_records db !! _) eqn:Hr; [|constructor]. eapply ceff_review; [done|by eapply inet_valid| |].
    + simpl. by apply String.eqb_neq.
    + simpl. unfold review_operator. destruct (tr_State r); [done|]. simpl in *.
      destruct (tr_AcknowledgedBy r) as [operator|]; [|done]. split; [|done]. exists operator. split; [done|lia].
Qed.

Lemma status_row_active now status old r :
  rr_ActiveVersion (status_row now status old) = Some r -> exists o, old = Some o /\ rr_ActiveVersion o = Some r.
Proof. destruct old as [o|]; [|done]. simpl. by exists o. Qed.

Lemma insert_is_Some {K V} `{Countable K} (m : gmap K V) i j x : is_Some (m !! j) -> is_Some (<[i := x]> m !! j).
Proof. intros Hj. apply lookup_insert_is_Some'. by right. Qed.


(** Rows survive with their metadata; only statuses and what a record shows change. *)
Definition same_version (v v' : CertVersion) : Prop :=
  ver_SNI v' = ver_SNI v /\ ver_Version v' = ver_Version v /\ ver_Fingerprint v' = ver_Fingerprint v /\
  ver_Serial v' = ver_Serial v /\ ver_IssuedAt v' = ver_IssuedAt v /\ ver_ExpiresAt v' = ver_ExpiresAt v.

Definition keeps_rows (db db' : CertDb) : Prop :=
  (forall s, is_Some (certificate_records db !! s) -> is_Some (certificate_records db' !! s)) /\
  (forall k v, certificate_versions db !! k = Some v -> exists v', certificate_versions db' !! k = Some v' /\ same_version v v').

Lemma activate_version_same s version k v : same_version v (activate_version s version k v).
Proof. unfold activate_version, same_version. by destruct (_ && _). Qed.

Lemma lookup_activated (m : gmap (scope * string) CertVersion) s version k :
  map_imap (fun k v => Some (activate_version s version k v)) m !! k = activate_version s version k <$> m !! k.
Proof. rewrite map_lookup_imap. by destruct (m !! k). Qed.

Lemma cert_effect_keeps P now panel db db' : cert_effect P now panel db db' -> keeps_rows db db'.
Proof.
  assert (forall v, same_version v v) as Hrefl by done.
  destruct 1 as [|key status Hc|key v HP Hc Hv H1 H2 H3|key version row status HP Hrow|key version row renewed Hrow
                |key version d row Hk|key ip r row Hr]; (split; simpl; [intros s Hs|intros k w Hw]);
    try done; try (by apply insert_is_Some); try (by exists w).
  - exists w. split; [|done]. rewrite lookup_insert_ne; [done|]. intros <-. congruence.
  - destruct (decide ((panel, key, version) = k)) as [<-|Hne]; [|exists w; by rewrite lookup_insert_ne].
    rewrite lookup_insert_eq. simplify_eq. by eexists.
  - by rewrite lookup_alter_is_Some.
  - rewrite lookup_activated, Hw. eexists. split; [done|apply activate_version_same].
Qed.

(** A record names a version as it did before, or was just activated. *)
Definition record_step (db db' : CertDb) (s : scope) (r' : RecordRow) : Prop :=
  scope_check sni_key s = true /\
  forall version, rr_ActiveVersion r' = Some version ->
    (exists r, certificate_records db !! s = Some r /\ rr_ActiveVersion r = Some version /\ forall v, mirrors r v -> mirrors r' v) \/
    (exists v, certificate_versions db' !! (s, version) = Some v /\ mirrors r' v).

Lemma active_step_ok db db' s r' :
  keeps_rows db db' -> map_Forall (record_ok db) (certificate_records db) -> record_step db db' s r' -> record_ok db' s r'.
Proof.
  intros [_ Hv] Hr [Hc Hs]. split; [done|]. intros version Hver.
  destruct (Hs version Hver) as [(r & Hr' & Ha & Hm)|Hdone]; [|done]. destruct (Hr s r Hr') as [_ Hmir].
  destruct (Hmir version Ha) as (v & Hv1 & Hm1). destruct (Hv _ _ Hv1) as (v' & Hv2 & E1 & E2 & E3 & E4 & E5 & E6).
  exists v'. split; [done|]. apply Hm in Hm1. unfold mirrors in *. by rewrite E3, E4, E5, E6.
Qed.

Lemma record_unchanged db db' s r :
  map_Forall (record_ok db) (certificate_records db) -> certificate_records db !! s = Some r -> record_step db db' s r.
Proof. intros Hr Hs. split; [by destruct (Hr s r Hs)|]. intros version Hv. left. by exists r. Qed.

Lemma record_restatus db db' now status s s' r :
  map_Forall (record_ok db) (certificate_records db) -> scope_check sni_key s = true ->
  <[s := status_row now status (certificate_records db !! s)]> (certificate_records db) !! s' = Some r ->
  record_step db db' s' r.
Proof.
  intros Hr Hc Hs. destruct (decide (s = s')) as [<-|Hne].
  - rewrite lookup_insert_eq in Hs. injection Hs as <-. split; [done|]. intros version (o & Ho & Ha)%status_row_active.
    left. exists o. split; [done|]. split; [done|]. by rewrite Ho.
  - rewrite lookup_insert_ne in Hs by done. by apply record_unchanged.
Qed.

Lemma cert_effect_records P now panel db db' :
  map_Forall (record_ok db) (certificate_records db) -> cert_effect P now panel db db' ->
  map_Forall (record_ok db') (certificate_records db').
Proof.
  intros Hr He. pose proof (cert_effect_keeps _ _ _ _ _ He) as Hk. intros s r' Hs. eapply active_step_ok; [exact Hk|done|].
  destruct He as [|key status Hc|key v HP Hc Hv H1 H2 H3|key version row status HP Hrow|key version row renewed Hrow
                |key version d row Hd|key ip r row Hrr]; simpl in Hs; try by apply record_unchanged.
  - by eapply record_restatus.
  - by eapply record_restatus.
  - destruct (decide ((panel, key) = s)) as [<-|Hne]; [|rewrite lookup_alter_ne in Hs by done; by apply record_unchanged].
    rewrite lookup_alter_eq in Hs. apply fmap_Some in Hs as (o & Ho & ->). split; [by destruct (Hr _ _ Ho)|].
    intros version' [= <-]. right. simpl. rewrite lookup_activated, Hrow. eexists. split; [done|].
    destruct (activate_version_same (panel, key) version (panel, key, version) row) as (E1 & E2 & E3 & E4 & E5 & E6).
    unfold mirrors. by rewrite E3, E4, E5, E6.
Qed.

Lemma same_version_ok db db' k v v' :
  keeps_rows db db' -> version_ok db k v -> same_version v v' -> version_ok db' k v'.
Proof.
  intros [Hr _] (H1 & H2 & H3 & H4 & H5) (E1 & E2 & E3 & E4 & E5 & E6). unfold version_ok. rewrite E1, E2, E3, E5, E6. auto.
Qed.

Lemma cert_effect_versions P now panel db db' :
  map_Forall (version_ok db) (certificate_versions db) -> cert_effect P now panel db db' ->
  map_Forall (version_ok db') (certificate_versions db').
Proof.
  intros Hv He. pose proof (cert_effect_keeps _ _ _ _ _ He) as Hk. assert (forall v, same_version v v) as Hrefl by done.
  intros k v' Hs.
  destruct He as [|key status Hc|key v HP Hc Hv0 H1 H2 H3|key version row status HP Hrow|key version row renewed Hrow
                |key version d row Hd|key ip r row Hrr]; simpl in Hs; try by (eapply same_version_ok; [exact Hk|by apply Hv|]).
  - destruct (decide ((panel, key, ver_Version v) = k)) as [<-|Hne].
    + rewrite lookup_insert_eq in Hs. injection Hs as <-. unfold version_ok; simpl. rewrite lookup_insert_eq. split_and!; try done; by eexists.
    + rewrite lookup_insert_ne in Hs by done. eapply same_version_ok; [exact Hk|by apply Hv|done].
  - destruct (decide ((panel, key, version) = k)) as [<-|Hne].
    + rewrite lookup_insert_eq in Hs. injection Hs as <-. eapply same_version_ok; [exact Hk|by apply Hv|done].
    + rewrite lookup_insert_ne in Hs by done. eapply same_version_ok; [exact Hk|by apply Hv|done].
  - rewrite lookup_activated in Hs. apply fmap_Some in Hs as (o & Ho & ->).
    eapply same_version_ok; [exact Hk|by apply Hv|apply activate_version_same].
Qed.

Lemma cert_effect_ok P now panel db db' : cert_db_ok db -> cert_effect P now panel db db' -> cert_db_ok db'.
Proof.
  intros (Hr & Hv & Hd & Ht) He. pose proof (cert_effect_keeps _ _ _ _ _ He) as [Hk1 Hk2].
  assert (forall k, is_Some (certificate_versions db !! k) -> is_Some (certificate_versions db' !! k)) as Hk3.
  { intros k [v Hk]. destruct (Hk2 k v Hk) as (v' & -> & _). by eexists. }
  split_and!; [by eapply cert_effect_records|by eapply cert_effect_versions| |].
  - intros k row Hs. destruct He as [|key status Hc|key v HP Hc Hv0 H1 H2 H3|key version row' status HP Hrow|key version row' renewed Hrow
      |key version d row' Hdi|key ip r row' Hrr]; simpl in Hs; try by (apply Hk3; apply (Hd k row)).
    apply lookup_insert_Some in Hs as [[<- <-]|[_ Hs]]; [done|by apply (Hd k row)].
  - intros k row Hs. assert (certificate_target_reviews db !! k = Some row -> review_ok db' k row) as Hkeep.
    { intros H. destruct (Ht k row H) as [H1 H2]. split; [by apply Hk1|done]. }
    destruct He as [|key status Hc|key v HP Hc Hv0 H1 H2 H3|key version row' status HP Hrow|key version row' renewed Hrow
      |key version d row' Hdi|key ip r row' Hrr H1 H2 H3]; simpl in Hs; try by apply Hkeep.
    apply lookup_insert_Some in Hs as [[<- <-]|[_ Hs]]; [|by apply Hkeep]. split_and!; try done; by eexists.
Qed.
Lemma restatus_active (now : Z) (status : CertStatus) (m : gmap scope RecordRow) (s s' : scope) (r : RecordRow) (version : string) :
  m !! s' = Some r -> rr_ActiveVersion r = Some version ->
  exists r', <[s := status_row now status (m !! s)]> m !! s' = Some r' /\ rr_ActiveVersion r' = Some version.
Proof.
  intros Hr Ha. destruct (decide (s = s')) as [<-|Hne].
  - rewrite lookup_insert_eq, Hr. by eexists.
  - rewrite lookup_insert_ne by done. by exists r.
Qed.

Lemma cert_effect_single now panel db db' :
  cert_db_ok db -> single_active db -> cert_effect (fun status => status <> VersionActive) now panel db db' -> single_active db'.
Proof.
  intros (Hr & Hv & _) Hs He s version0 v0 Hv0 Hst.
  destruct He as [|key status Hc|key v HP Hc Hnew H1 H2 H3|key version row status HP Hrow|key version row renewed Hrow
    |key version d row' Hdi|key ip r row' Hrr H1 H2 H3]; simpl in *; try by eapply Hs.
  - destruct (Hs _ _ _ Hv0 Hst) as (r & Hr1 & Ha). by eapply restatus_active.
  - apply lookup_insert_Some in Hv0 as [[_ <-]|[_ Hv0]]; [done|].
    destruct (Hs _ _ _ Hv0 Hst) as (r & Hr1 & Ha). by eapply restatus_active.
  - apply lookup_insert_Some in Hv0 as [[_ <-]|[_ Hv0]]; [done|]. by eapply Hs.
  - rewrite lookup_activated in Hv0. apply fmap_Some in Hv0 as (o & Ho & ->).
    destruct (decide ((panel, key) = s)) as [<-|Hne].
    + unfold activate_version in Hst. simpl in Hst. rewrite bool_decide_true in Hst by done.
      rewrite lookup_alter_eq. destruct (Hv _ _ Ho) as ([r Hr1] & _). simpl in Hr1. rewrite Hr1.
      eexists. split; [done|]. simpl. destruct (String.eqb_spec version0 version) as [->|Hne]; [done|]. exfalso.
      rewrite orb_false_r in Hst. by case_bool_decide.
    + rewrite lookup_alter_ne by done. apply (Hs s version0 o Ho). unfold activate_version in Hst. simpl in Hst.
      rewrite bool_decide_false in Hst by done. done.
Qed.

(** The rows of a panel are the same in both states. *)
Definition same_panel_rows (panel : string) (db db' : CertDb) : Prop :=
  forall key,
    certificate_records db' !! (panel, key) = certificate_records db !! (panel, key) /\
    (forall version, certificate_versions db' !! (panel, key, version) = certificate_versions db !! (panel, key, version)) /\
    (forall version deployment,
       certificate_distributions db' !! (panel, key, version, deployment) = certificate_distributions db !! (panel, key, version, deployment)) /\
    (forall ip, certificate_target_reviews db' !! (panel, key, ip) = certificate_target_reviews db !! (panel, key, ip)).

Lemma cert_effect_isolated P now panel other db db' :
  other <> panel -> cert_effect P now panel db db' -> same_panel_rows other db db'.
Proof.
  intros Hne He k.
  destruct He as [|key status Hc|key v HP Hc Hnew H1 H2 H3|key version row status HP Hrow|key version row renewed Hrow
    |key version d row' Hdi|key ip r row' Hrr H1 H2 H3]; simpl; split_and!; intros; try done;
    try (rewrite lookup_insert_ne; [done|congruence]).
  - apply lookup_alter_ne. congruence.
  - rewrite lookup_activated. destruct (certificate_versions db !! (other, k, version0)) as [v|]; [|done].
    simpl. unfold activate_version. simpl. case_bool_decide; [congruence|done].
Qed.

Lemma cert_reachable_ok allowed db : cert_reachable allowed db -> cert_db_ok db.
Proof.
  induction 1 as [|deployments now panel o db Hdb IH Ho].
  - split_and!; apply map_Forall_empty.
  - eapply cert_effect_ok; [exact IH|]. apply (cert_exec_effect (fun _ => True)). by destruct o.
Qed.
End Invariants.

(** ** Properties *)

(** The certificate tables stay well formed under every sequence of
    calls, for every panel: a record belongs to a valid panel and a normalised
    domain, and when it names an active version that version exists and the
    record shows its fingerprint, serial number and validity; a version
    belongs to an existing record, has a fingerprint and expires after it was
    issued; a distribution belongs to an existing version; a reviewed target
    has a reason, and an acknowledgement exactly when it is acknowledged. *)
Theorem certificate_tables_well_formed sni_key uuid_text db :
  cert_reachable sni_key uuid_text (fun _ => True) db -> cert_db_ok sni_key db.
Proof. apply cert_reachable_ok. Qed.

(** C24. A domain has at most one ACTIVE version, the one its record names, as
    long as no caller writes the status ACTIVE by hand (the certificate
    manager writes only PENDING and DISTRIBUTION_FAILED): whatever versions
    are saved, failed and activated in whatever order. *)
Theorem at_most_one_active_version sni_key uuid_text db :
  cert_reachable sni_key uuid_text (writes_version_status (fun status => status <> VersionActive)) db -> single_active db.
Proof.
  induction 1 as [|deployments now panel o db Hdb IH Ho]; [by intros s version v|].
  eapply cert_effect_single; [by eapply cert_reachable_ok|exact IH|]. by apply cert_exec_effect.
Qed.

(** Panels share no certificate state: a call made for one panel, with
    any arguments, leaves every row of every other panel as it was, and so
    the active certificate that another panel reads, even for the same
    domain. *)
Theorem certificate_panels_are_isolated sni_key uuid_text deployments now panel o db other sni :
  other <> panel ->
  let db' := snd (cert_exec sni_key uuid_text deployments now panel o db) in
  same_panel_rows other db db' /\ GetActiveForPanel sni_key other sni db' = GetActiveForPanel sni_key other sni db.
Proof.
  intros Hne db'. assert (same_panel_rows other db db') as H.
  { eapply (cert_effect_isolated sni_key (fun _ => True)); [exact Hne|]. apply cert_exec_effect. by destruct o. }
  split; [exact H|]. unfold GetActiveForPanel. destruct (sni_key sni) as [key|]; [|done]. by destruct (H key) as [-> _].
Qed.

(** ** Concrete tables *)
Definition example_key (s : string) : option string := Some s.

Definition example_version (version fingerprint : string) (at_ : Z) : CertVersion :=
  mkCertVersion "vpn.example.com" version fingerprint "01" at_ (at_ + 100) VersionPending at_.

Definition example_cert_ops : list certOp :=
  [OpSaveVersion (example_version "v-1" "aa" 10); OpActivateVersion "vpn.example.com" "v-1" false;
   OpSaveVersion (example_version "v-2" "bb" 20); OpSetVersionStatus "vpn.example.com" "v-2" VersionDistribution;
   OpSetStatus "vpn.example.com" StatusDistributionFailed; OpActivateVersion "vpn.example.com" "v-2" true;
   OpRecordTargetReview (mkTargetReview "vpn.example.com" (Addr4 16909060) TargetLegacyAcknowledged "legacy" (Some 7) 0 0 None)].

Definition run_cert_ops (ops : list certOp) : CertDb :=
  foldl (fun db o => snd (cert_exec example_key (fun s => Some s) ∅ 50 "default" o db)) empty_cert_db ops.

Lemma example_cert_reachable (allowed : certOp -> Prop) ops :
  Forall allowed ops -> cert_reachable example_key (fun s => Some s) allowed (run_cert_ops ops).
Proof.
  intros Hall. unfold run_cert_ops. assert (cert_reachable example_key (fun s => Some s) allowed empty_cert_db) as H by constructor.
  revert H. generalize empty_cert_db. induction Hall as [|o ops Ho Hall IH]; simpl; intros db H; [done|].
  apply IH. by constructor.
Qed.

Lemma certificate_tables_well_formed_witness :
  cert_db_ok example_key (run_cert_ops example_cert_ops) /\
  (rr_ActiveVersion <$> certificate_records (run_cert_ops example_cert_ops) !! ("default", "vpn.example.com")) = Some (Some "v-2").
Proof.
  split; [|vm_compute; reflexivity].
  apply (certificate_tables_well_formed example_key (fun s => Some s)), example_cert_reachable. by repeat constructor.
Defined.

Lemma at_most_one_active_version_witness :
  single_active (run_cert_ops example_cert_ops) /\
  (ver_Status <$> certificate_versions (run_cert_ops example_cert_ops) !! (("default", "vpn.example.com"), "v-1")) = Some VersionSuperseded.
Proof.
  split; [|vm_compute; reflexivity].
  apply (at_most_one_active_version example_key (fun s => Some s)), example_cert_reachable. by repeat constructor.
Defined.

Lemma certificate_panels_are_isolated_witness :
  let db := run_cert_ops example_cert_ops in
  let db' := snd (cert_exec example_key (fun s => Some s) ∅ 60 "spb" (OpSaveVersion (example_version "v-2" "cc" 30)) db) in
  GetActiveForPanel example_key "default" "vpn.example.com" db' = GetActiveForPanel example_key "default" "vpn.example.com" db /\
  is_ok (GetActiveForPanel example_key "default" "vpn.example.com" db') = true /\
  is_Some (certificate_versions db' !! (("spb", "vpn.example.com"), "v-2")).
Proof.
  intros db db'. split; [|split; [vm_compute; reflexivity|vm_compute; eexists; reflexivity]].
  assert ("default" <> "spb") as Hne by discriminate.
  exact (proj2 (certificate_panels_are_isolated example_key (fun s => Some s) ∅ 60 "spb"
    (OpSaveVersion (example_version "v-2" "cc" 30)) db "default" "vpn.example.com" Hne)).
Defined.
