(* ===== verification/Preflight.v ===== *)
(** * VPS preflight ([internal/provisioner/preflight.go])

    The parsers of the inspection commands' output, the validation of what
    they report, and the run that issues the commands in order.  One call
    [RunCommand] is one command through the SSH runner, answered by its
    standard output or by a failure. *)

From S2P Require Import Prelude GoStrings Unicode Effects.

#[local] Open Scope Z_scope.

(** ** Numbers as text ([strconv]) *)

Fixpoint digits_value (s : string) (acc : Z) : option Z :=
  match s with
  | "" => Some acc
  | String c s' => if byte_in 48 57 c then digits_value s' (acc * 10 + (byte_of c - 48)) else None
  end.

(** [strconv.ParseInt(s, 10, 64)], which is [strconv.Atoi] on the 64-bit
    platforms the program is built for. *)
Definition ParseInt64 (s : string) : option Z :=
  let '(negative, digits) :=
    match s with
    | String "-" s' => (true, s')
    | String "+" s' => (false, s')
    | _ => (false, s)
    end in
  if String.eqb digits "" then None
  else v ← digits_value digits 0;
       let v := if negative : bool then - v else v in
       if (- 2 ^ 63 <=? v) && (v <? 2 ^ 63) then Some v else None.

Definition ParseBool (s : string) : option bool :=
  if existsb (String.eqb s) ["1"; "t"; "T"; "TRUE"; "true"; "True"] then Some true
  else if existsb (String.eqb s) ["0"; "f"; "F"; "FALSE"; "false"; "False"] then Some false
  else None.

(** [strings.Cut]. *)
Fixpoint Cut (s : string) (sep : ascii) : option (string * string) :=
  match s with
  | "" => None
  | String c s' =>
    if Ascii.eqb c sep then Some ("", s')
    else match Cut s' sep with Some (k, v) => Some (String c k, v) | None => None end
  end.

(** ** Data *)
Record Requirements : Type := mkRequirements {
  MinimumCPUCount : Z;
  MinimumAvailableRAMBytes : Z;
  MinimumFreeDiskBytes : Z;
  AllowedDistributions : list string;
  AllowedArchitectures : list string;
  CommandTimeout : Z
}.

Record SystemInfo : Type := mkSystemInfo {
  EffectiveUID : Z;
  EffectiveUser : string;
  Distribution : string;
  Version : string;
  Architecture : string;
  CPUCount : Z;
  AvailableRAMBytes : Z;
  FreeDiskBytes : Z
}.

Record ComponentState : Type := mkComponentState {
  DockerInstalled : bool;
  RemnanodeDirectory : bool;
  XraySNIDirectory : bool;
  RemnanodeContainers : list string;
  XraySNIContainers : list string
}.

Record PortState : Type := mkPortState { Port : Z; Occupied : bool }.

Record Issue : Type := mkIssue { iss_Code : string; iss_Message : string }.

Record PreflightResult : Type := mkPreflightResult {
  SSHConnected : bool;
  System : SystemInfo;
  Components : ComponentState;
  Ports : list PortState;
  Warnings : list Issue;
  FatalFailures : list Issue
}.

(** Zero values. *)
Definition no_system : SystemInfo := mkSystemInfo 0 "" "" "" "" 0 0 0.
Definition no_components : ComponentState := mkComponentState false false false [] [].
Definition no_result : PreflightResult := mkPreflightResult false no_system no_components [] [] [].

(** [PreflightResult.Passed]. *)
Definition Passed (r : PreflightResult) : bool := SSHConnected r && (length (FatalFailures r) =? 0)%nat.

(** [NewPreflight]: the normalised requirements. *)
Definition NewPreflight (r : Requirements) : option Requirements :=
  if (MinimumCPUCount r <? 0) || (MinimumAvailableRAMBytes r <? 0) || (MinimumFreeDiskBytes r <? 0) then None
  else Some (mkRequirements (MinimumCPUCount r) (MinimumAvailableRAMBytes r) (MinimumFreeDiskBytes r)
    (match AllowedDistributions r with [] => ["ubuntu"; "debian"] | l => l end)
    (match AllowedArchitectures r with [] => ["amd64"; "arm64"] | l => l end)
    (if CommandTimeout r <=? 0 then 15000000000 else CommandTimeout r)).

(** ** Parsers *)
Fixpoint key_values (lines : list string) (values : gmap string string) : option (gmap string string) :=
  match lines with
  | [] => Some values
  | line :: lines' =>
    match Cut (TrimSpace line) "=" with
    | None => None
    | Some (key, value) =>
      if String.eqb key "" then None
      else match values !! key with
      | Some _ => None
      | None => key_values lines' (<[key := TrimSpace value]> values)
      end
    end
  end.

Definition parseKeyValues (output : string) : option (gmap string string) :=
  key_values (Split (TrimSpace output) chr_nl) ∅.

(** [values[key]] of a Go map: the empty string when absent. *)
Definition value_of (values : gmap string string) (key : string) : string := default "" (values !! key).

Definition normalizeArchitecture (value : string) : string :=
  let v := ToLower (TrimSpace value) in
  if String.eqb v "x86_64" || String.eqb v "amd64" then "amd64"
  else if String.eqb v "aarch64" || String.eqb v "arm64" then "arm64"
  else v.

Definition containsFold (values : list string) (target : string) : bool :=
  existsb (fun value => EqualFold value target) values.

Definition required_keys : list string :=
  ["effective_uid"; "effective_user"; "os_id"; "os_version"; "architecture"; "cpu_count"; "available_ram_kib"; "free_disk_kib"].

Definition parseSystemInfo (output : string) : option SystemInfo :=
  values ← parseKeyValues output;
  if existsb (fun key => String.eqb (TrimSpace (value_of values key)) "") required_keys then None
  else
    uid ← ParseInt64 (value_of values "effective_uid");
    cpus ← ParseInt64 (value_of values "cpu_count");
    ramKiB ← ParseInt64 (value_of values "available_ram_kib");
    diskKiB ← ParseInt64 (value_of values "free_disk_kib");
    Some (mkSystemInfo uid (value_of values "effective_user") (ToLower (value_of values "os_id"))
      (value_of values "os_version") (normalizeArchitecture (value_of values "architecture")) cpus
      (wrap64 (ramKiB * 1024)) (wrap64 (diskKiB * 1024))).

Definition parseComponentState (output : string) : option ComponentState :=
  values ← parseKeyValues output;
  docker ← ParseBool (value_of values "docker");
  remnanode ← ParseBool (value_of values "remnanode_directory");
  xraySNI ← ParseBool (value_of values "xray_sni_directory");
  Some (mkComponentState docker remnanode xraySNI [] []).

(** The two lists of [parseContainers]; an empty name is in neither. *)
Definition container_names (output : string) : list string :=
  List.filter (fun name => negb (String.eqb name "")) (TrimSpace <$> Split output chr_nl).

Definition parseContainers (output : string) : list string * list string :=
  (List.filter (fun name => Contains (ToLower name) "remnanode") (container_names output),
   List.filter (fun name => Contains (ToLower name) "xray-sni" || Contains (ToLower name) "xray_sni") (container_names output)).

Definition relevantPorts : list Z := [22; 443; 2222; 9100; 9200; 9443].

Fixpoint port_states (values : gmap string string) (ports : list Z) : option (list PortState) :=
  match ports with
  | [] => Some []
  | port :: ports' =>
    occupied ← ParseBool (value_of values ("port_" +:+ Itoa port));
    rest ← port_states values ports';
    Some (mkPortState port occupied :: rest)
  end.

Definition parsePortStates (output : string) : option (list PortState) :=
  values ← parseKeyValues output; port_states values relevantPorts.

(** ** Validation *)
Definition issue_if (b : bool) (code message : string) : list Issue := if b then [mkIssue code message] else [].

Definition port_failures (p : PortState) : list Issue :=
  issue_if (negb (Port p =? 22) && Occupied p) ("PORT_" +:+ Itoa (Port p) +:+ "_OCCUPIED")
    ("Required TCP port " +:+ Itoa (Port p) +:+ " is already occupied").

Definition port_warnings (p : PortState) : list Issue :=
  issue_if ((Port p =? 22) && negb (Occupied p)) "SSH_PORT_NOT_DETECTED"
    "Port 22 was not detected as listening despite the SSH connection".

Definition nonempty {A} (l : list A) : bool := negb (length l =? 0)%nat.

Definition validate (q : Requirements) (r : PreflightResult) : PreflightResult :=
  let s := System r in
  let c := Components r in
  mkPreflightResult (SSHConnected r) s c (Ports r)
    (Warnings r ++
     issue_if (negb (DockerInstalled c)) "DOCKER_NOT_INSTALLED" "Docker is not installed and will be required by provisioning" ++
     issue_if (RemnanodeDirectory c || nonempty (RemnanodeContainers c)) "REMNANODE_EXISTS" "Existing Remnanode files or containers were detected" ++
     issue_if (XraySNIDirectory c || nonempty (XraySNIContainers c)) "XRAY_SNI_EXISTS" "Existing xray-sni files or containers were detected" ++
     (Ports r ≫= port_warnings))
    (FatalFailures r ++
     issue_if (negb (EffectiveUID s =? 0)) "NOT_ROOT" "Effective SSH user is not root" ++
     issue_if (negb (containsFold (AllowedDistributions q) (Distribution s))) "UNSUPPORTED_OS" "VPS operating system distribution is unsupported" ++
     issue_if (String.eqb (TrimSpace (Version s)) "") "OS_VERSION_MISSING" "VPS operating system version is missing" ++
     issue_if (negb (containsFold (AllowedArchitectures q) (normalizeArchitecture (Architecture s)))) "UNSUPPORTED_ARCHITECTURE" "VPS architecture is unsupported" ++
     issue_if (CPUCount s <? Z.max 1 (MinimumCPUCount q)) "INSUFFICIENT_CPU" "VPS CPU count is below the required minimum" ++
     issue_if ((AvailableRAMBytes s <=? 0) || (AvailableRAMBytes s <? MinimumAvailableRAMBytes q)) "INSUFFICIENT_RAM" "VPS available RAM is below the required minimum" ++
     issue_if ((FreeDiskBytes s <=? 0) || (FreeDiskBytes s <? MinimumFreeDiskBytes q)) "INSUFFICIENT_DISK" "VPS free disk space is below the required minimum" ++
     (Ports r ≫= port_failures)).

(** ** The run *)
Inductive command : Type := systemInfoCommand | componentStateCommand | containerListCommand | portStateCommand.

Inductive preE : Type -> Type :=
  | RunCommand (c : command) (timeout : Z) : preE (option string)
  | CtxDone : preE bool.

(** Adding a warning or a fatal failure. *)
Definition warn (code message : string) (r : PreflightResult) : PreflightResult :=
  mkPreflightResult (SSHConnected r) (System r) (Components r) (Ports r) (Warnings r ++ [mkIssue code message]) (FatalFailures r).
Definition fatal (code message : string) (r : PreflightResult) : PreflightResult :=
  mkPreflightResult (SSHConnected r) (System r) (Components r) (Ports r) (Warnings r) (FatalFailures r ++ [mkIssue code message]).
Definition with_components (c : ComponentState) (r : PreflightResult) : PreflightResult :=
  mkPreflightResult (SSHConnected r) (System r) c (Ports r) (Warnings r) (FatalFailures r).
Definition with_ports (p : list PortState) (r : PreflightResult) : PreflightResult :=
  mkPreflightResult (SSHConnected r) (System r) (Components r) p (Warnings r) (FatalFailures r).

(** A command that failed: the context's error when it is done, otherwise the
    given continuation. *)
Definition unless_done (k : prog preE (option PreflightResult)) : prog preE (option PreflightResult) :=
  done ← call CtxDone; if (done : bool) then mret None else k.

Section Run.
Variable q : Requirements.

(** The inspection of the ports and the validation. *)
Definition run_ports (result : PreflightResult) : prog preE (option PreflightResult) :=
  out ← call (RunCommand portStateCommand (CommandTimeout q));
  match out with
  | None => unless_done (mret (Some (validate q
      (fatal "PORT_INSPECTION_FAILED" "Relevant TCP ports could not be inspected" result))))
  | Some stdout =>
    match parsePortStates stdout with
    | None => mret (Some (validate q
        (fatal "PORT_INFO_INVALID" "Relevant TCP port state could not be parsed" result)))
    | Some ports => mret (Some (validate q (with_ports ports result)))
    end
  end.

Definition run_containers (result : PreflightResult) : prog preE (option PreflightResult) :=
  if DockerInstalled (Components result) then
    out ← call (RunCommand containerListCommand (CommandTimeout q));
    match out with
    | None => unless_done (run_ports
        (warn "CONTAINER_INSPECTION_FAILED" "Existing Docker containers could not be inspected" result))
    | Some stdout =>
      let '(remnanode, xraySNI) := parseContainers stdout in
      let c := Components result in
      run_ports (with_components
        (mkComponentState (DockerInstalled c) (RemnanodeDirectory c) (XraySNIDirectory c) remnanode xraySNI) result)
    end
  else run_ports result.

Definition run_components (result : PreflightResult) : prog preE (option PreflightResult) :=
  out ← call (RunCommand componentStateCommand (CommandTimeout q));
  match out with
  | None => unless_done (run_containers
      (warn "COMPONENT_INSPECTION_FAILED" "Existing component state could not be inspected" result))
  | Some stdout =>
    match parseComponentState stdout with
    | None => run_containers (warn "COMPONENT_INFO_INVALID" "Existing component state could not be parsed" result)
    | Some c => run_containers (with_components c result)
    end
  end.

(** [Preflight.Run]; [None] is the context's error. *)
Definition Run : prog preE (option PreflightResult) :=
  out ← call (RunCommand systemInfoCommand (CommandTimeout q));
  match out with
  | None => unless_done (mret (Some
      (fatal "SSH_CONNECTIVITY_FAILED" "SSH preflight command could not be completed" no_result)))
  | Some stdout =>
    let connected s := mkPreflightResult true s no_components [] [] [] in
    match parseSystemInfo stdout with
    | None => mret (Some (fatal "SYSTEM_INFO_INVALID" "VPS system information could not be parsed" (connected no_system)))
    | Some s => run_components (connected s)
    end
  end.
End Run.

(** ** Properties *)

(** What the operator requires of a VPS. *)
Record fit (q : Requirements) (s : SystemInfo) (ports : list PortState) : Prop := {
  fit_root : EffectiveUID s = 0;
  fit_os : containsFold (AllowedDistributions q) (Distribution s) = true;
  fit_version : TrimSpace (Version s) <> "";
  fit_arch : containsFold (AllowedArchitectures q) (normalizeArchitecture (Architecture s)) = true;
  fit_cpu : 1 <= CPUCount s /\ MinimumCPUCount q <= CPUCount s;
  fit_ram : 0 < AvailableRAMBytes s /\ MinimumAvailableRAMBytes q <= AvailableRAMBytes s;
  fit_disk : 0 < FreeDiskBytes s /\ MinimumFreeDiskBytes q <= FreeDiskBytes s;
  fit_ports : forall p, p ∈ ports -> Port p <> 22 -> Occupied p = false
}.

Lemma issue_if_nil b code msg : issue_if b code msg = [] <-> b = false.
Proof. by destruct b. Qed.

Lemma port_failures_nil ports :
  ports ≫= port_failures = [] <-> forall p, p ∈ ports -> Port p <> 22 -> Occupied p = false.
Proof.
  induction ports as [|p ports IH].
  - split; [|done]. intros _ p Hp. by apply not_elem_of_nil in Hp.
  - rewrite bind_cons. split.
    + intros [H1 H2]%app_eq_nil q [->|Hq]%elem_of_cons Hne; [|by apply IH].
      unfold port_failures in H1. apply issue_if_nil in H1.
      destruct (Port p =? 22) eqn:E; [lia|]. done.
    + intros H. rewrite (proj2 IH); [|intros; apply H; [by right|done]]. rewrite app_nil_r.
      apply issue_if_nil. destruct (Port p =? 22) eqn:E; [done|]. simpl. apply H; [by left|lia].
Qed.

(** A result passes the validation exactly when it had no failure before and
    the requirements hold. *)
Lemma validate_passed q r :
  Passed (validate q r) = true <->
  SSHConnected r = true /\ FatalFailures r = [] /\ fit q (System r) (Ports r).
Proof.
  unfold Passed, validate. cbn [SSHConnected FatalFailures]. rewrite andb_true_iff, Nat.eqb_eq.
  split.
  - intros [Hssh H%nil_length_inv]. split; [done|].
    repeat match type of H with _ ++ _ = [] => apply app_eq_nil in H as [? H] end.
    rewrite issue_if_nil in *. pose proof (proj1 (port_failures_nil _) H) as Hp. clear H.
    repeat match goal with H : _ || _ = false |- _ => apply orb_false_iff in H as [? ?] | H : negb _ = false |- _ => apply negb_false_iff in H end.
    split; [done|]. split; try done; try lia. by apply String.eqb_neq.
  - intros (Hssh & Hf & H). split; [done|]. destruct H. rewrite Hf, (proj2 (port_failures_nil _)) by done.
    rewrite fit_os0, fit_arch0, (proj2 (Z.eqb_eq _ 0)), (proj2 (String.eqb_neq _ "")) by done.
    rewrite (proj2 (Z.ltb_ge (CPUCount _) _)) by lia.
    rewrite (proj2 (Z.ltb_ge (AvailableRAMBytes _) _)), (proj2 (Z.leb_gt (AvailableRAMBytes _) _)) by lia.
    rewrite (proj2 (Z.ltb_ge (FreeDiskBytes _) _)), (proj2 (Z.leb_gt (FreeDiskBytes _) _)) by lia.
    done.
Qed.

(** The commands of a trace and the answers of one of them. *)
Definition command_of (ev : event preE) : option (command * option string) :=
  match ev with Ev e x => match e in preE X return X -> _ with
    | RunCommand c _ => fun out => Some (c, out)
    | CtxDone => fun _ => None
    end x end.

Definition commands (tr : list (event preE)) : list (command * option string) := omap command_of tr.

#[export] Instance command_eq_dec : EqDecision command.
Proof. solve_decision. Defined.

Definition outputs (c : command) (tr : list (event preE)) : list (option string) :=
  (List.filter (fun p => bool_decide (fst p = c)) (commands tr)).*2.

(** The conclusion of the run: the verdict, with the parsed reports. *)
Definition passes_if_fit (q : Requirements) (tr : list (event preE)) (res : PreflightResult) : Prop :=
  Passed res = true <->
  exists out1 out2 sys ports,
    outputs systemInfoCommand tr = [Some out1] /\ parseSystemInfo out1 = Some sys /\
    outputs portStateCommand tr = [Some out2] /\ parsePortStates out2 = Some ports /\
    fit q sys ports /\ System res = sys.

(** The inspection commands in their order, perhaps cut short. *)
Definition inspects_in_order (tr : list (event preE)) : Prop :=
  exists docker : bool, (commands tr).*1 `prefix_of`
    systemInfoCommand :: componentStateCommand :: (if docker then [containerListCommand] else []) ++ [portStateCommand].

Section Mid.
Context (q : Requirements).

(** Between two commands: connected, no failure, the parsed system, and the
    commands so far. *)
Definition midway (out1 : string) (sys : SystemInfo) (cmds : list command) (r : PreflightResult) (tr : list (event preE)) : Prop :=
  SSHConnected r = true /\ FatalFailures r = [] /\ System r = sys /\ parseSystemInfo out1 = Some sys /\
  outputs systemInfoCommand tr = [Some out1] /\ outputs portStateCommand tr = [] /\ (commands tr).*1 = cmds.

Definition concludes (res : option PreflightResult) (tr : list (event preE)) : Prop :=
  inspects_in_order tr /\ forall r, res = Some r -> passes_if_fit q tr r.

Lemma commands_snoc tr ev : commands (tr ++ [ev]) = commands tr ++ option_list (command_of ev).
Proof. unfold commands. rewrite omap_app. simpl. by destruct (command_of ev). Qed.

Lemma outputs_snoc c tr c' t (out : option string) :
  outputs c (tr ++ [Ev (RunCommand c' t) out]) = outputs c tr ++ (if bool_decide (c' = c) then [out] else []).
Proof.
  unfold outputs. rewrite commands_snoc, List.filter_app, fmap_app. simpl. by destruct (bool_decide (c' = c)).
Qed.

Lemma outputs_ctx c tr b : outputs c (tr ++ [Ev CtxDone b]) = outputs c tr.
Proof. unfold outputs. by rewrite commands_snoc, app_nil_r. Qed.

(** The inspection of the ports, last, after [cmds]. *)
Lemma wp_run_ports out1 sys cmds (docker : bool) r tr :
  midway out1 sys cmds r tr ->
  cmds = systemInfoCommand :: componentStateCommand :: (if docker then [containerListCommand] else []) ->
  wp (run_ports q r) tt tr (fun res _ tr' => concludes res tr').
Proof.
  intros (H1 & H2 & H3 & H4 & H5 & H6 & H7) ->. unfold run_ports. wp_answer out s1 Hs. destruct s1.
  assert (forall b, inspects_in_order (tr ++ [Ev (RunCommand portStateCommand (CommandTimeout q)) out]) /\
    inspects_in_order ((tr ++ [Ev (RunCommand portStateCommand (CommandTimeout q)) out]) ++ [Ev CtxDone b])) as Ho.
  { intros b. unfold inspects_in_order. rewrite !commands_snoc, !fmap_app, H7. simpl. rewrite app_nil_r.
    split; exists docker; by destruct docker. }
  assert (forall x, FatalFailures x <> [] -> Passed (validate q x) = false) as Hfail.
  { intros x Hx. apply not_true_iff_false. rewrite validate_passed. tauto. }
  destruct out as [stdout|].
  - destruct (parsePortStates stdout) as [ports|] eqn:Hp; wp_steps; (split; [apply (Ho false)|]); intros x [= <-];
      unfold passes_if_fit; rewrite !outputs_snoc, H5, H6; simpl.
    + rewrite validate_passed. simpl. rewrite H3. split.
      * intros (_ & _ & Hf). by exists out1, stdout, sys, ports.
      * intros (o1 & o2 & s' & p' & [= <-] & Hs' & [= <-] & Hp' & Hf & _). simplify_eq. split_and!; [done|done|].
        congruence.
    + rewrite Hfail; [|simpl; by destruct (FatalFailures r)]. split; [done|].
      intros (o1 & o2 & s' & p' & _ & _ & [= <-] & Hp' & _). congruence.
  - unfold unless_done. wp_answer dn s2 Hs2. destruct dn; wp_steps; (split; [apply (Ho _)|]); [done|].
    intros x [= <-]. unfold passes_if_fit. rewrite !outputs_ctx, !outputs_snoc, H5, H6. simpl.
    rewrite Hfail; [|simpl; by destruct (FatalFailures r)]. split; [done|].
    by intros (o1 & o2 & s' & p' & _ & _ & ? & _).
Qed.

(** A command that is neither the first nor the last one keeps the state,
    as does a look at the context. *)
Lemma midway_command out1 sys cmds cmds' r r' tr c t out :
  midway out1 sys cmds r tr -> c <> systemInfoCommand -> c <> portStateCommand ->
  SSHConnected r' = SSHConnected r -> FatalFailures r' = FatalFailures r -> System r' = System r -> cmds' = cmds ++ [c] ->
  midway out1 sys cmds' r' (tr ++ [Ev (RunCommand c t) out]).
Proof.
  intros (H1 & H2 & H3 & H4 & H5 & H6 & H7) Hc1 Hc2 E1 E2 E3 ->. unfold midway.
  rewrite !outputs_snoc, commands_snoc, fmap_app, E1, E2, E3, H5, H6, H7.
  rewrite !bool_decide_eq_false_2 by done. done.
Qed.

Lemma midway_ctx out1 sys cmds r tr b : midway out1 sys cmds r tr -> midway out1 sys cmds r (tr ++ [Ev CtxDone b]).
Proof. unfold midway. by rewrite !outputs_ctx, commands_snoc, app_nil_r. Qed.

Lemma midway_cut out1 sys cmds r tr (docker : bool) :
  midway out1 sys cmds r tr ->
  cmds `prefix_of` systemInfoCommand :: componentStateCommand :: (if docker then [containerListCommand] else []) ++ [portStateCommand] ->
  concludes None tr.
Proof. intros (_ & _ & _ & _ & _ & _ & H7) Hp. split; [|done]. exists docker. by rewrite H7. Qed.

Lemma wp_run_containers out1 sys r tr :
  midway out1 sys [systemInfoCommand; componentStateCommand] r tr ->
  wp (run_containers q r) tt tr (fun res _ tr' => concludes res tr').
Proof.
  intros H. unfold run_containers. destruct (DockerInstalled (Components r)); [|by eapply (wp_run_ports _ _ _ false)].
  wp_answer out s1 Hs. destruct s1. destruct out as [stdout|].
  - destruct (parseContainers stdout) as [a b].
    eapply (wp_run_ports _ _ _ true); [by eapply (midway_command _ _ _ _ r)|done].
  - unfold unless_done. wp_answer dn s2 Hs2. destruct s2, dn; wp_steps.
    + eapply (midway_cut _ _ _ r _ true); [by eapply midway_ctx, (midway_command _ _ _ _ r)|]. by eexists.
    + eapply (wp_run_ports _ _ _ true); [by eapply midway_ctx, (midway_command _ _ _ _ r)|done].
Qed.

Lemma wp_run_components out1 sys r tr :
  midway out1 sys [systemInfoCommand] r tr ->
  wp (run_components q r) tt tr (fun res _ tr' => concludes res tr').
Proof.
  intros H. unfold run_components. wp_answer out s1 Hs. destruct s1. destruct out as [stdout|].
  - destruct (parseComponentState stdout) as [c|]; eapply wp_run_containers; by eapply (midway_command _ _ _ _ r).
  - unfold unless_done. wp_answer dn s2 Hs2. destruct s2, dn; wp_steps.
    + eapply (midway_cut _ _ _ r _ true); [by eapply midway_ctx, (midway_command _ _ _ _ r)|]. by eexists.
    + eapply wp_run_containers. by eapply midway_ctx, (midway_command _ _ _ _ r).
Qed.
End Mid.

(** A preflight that is not cut short by its context passes exactly when
    the VPS reported a system and a port table that parse and that meet every
    requirement (root, distribution, version, architecture, CPU, memory, disk,
    and no required port but SSH's occupied); the result then carries that
    system.  It only ever issues the inspection commands, each at most once and
    in the fixed order, the list of containers only when Docker is there. *)
Theorem preflight_passes_exactly_fit_hosts q :
  always (Run q) tt (fun tr r _ =>
    inspects_in_order tr /\ forall res, r = Some res -> passes_if_fit q tr res).
Proof.
  apply wp_always. unfold Run. wp_answer out s1 H1. destruct s1.
  destruct out as [stdout|].
  - destruct (parseSystemInfo stdout) as [s|] eqn:Hs.
    + by apply (wp_run_components q stdout s).
    + wp_steps. split; [exists false; by vm_compute; eexists|]. intros res [= <-]. split; [done|].
      intros (out1 & out2 & sys & ports & [= <-] & H2 & _). congruence.
  - unfold unless_done. wp_answer dn s2 H2. destruct dn; wp_steps.
    + split; [by exists false; eexists|]. done.
    + split; [by exists false; eexists|]. intros res [= <-]. split; [done|].
      intros (out1 & out2 & sys & ports & H & _). done.
Qed.

Definition example_requirements : Requirements := mkRequirements 1 536870912 1073741824 ["ubuntu"; "debian"] ["amd64"; "arm64"] 15000000000.

(** A VPS with two CPUs, 2 GiB of memory and free ports; and the same one with
    port 443 in use. *)
Definition nl : string := String chr_nl "".
Definition example_vps (busy443 : string) : handler preE unit := fun X e s =>
  match e in preE X return X * unit with
  | RunCommand systemInfoCommand _ => (Some ("effective_uid=0" +:+ nl +:+ "effective_user=root" +:+ nl +:+ "os_id=Ubuntu" +:+ nl +:+
      "os_version=24.04" +:+ nl +:+ "architecture=x86_64" +:+ nl +:+ "cpu_count=2" +:+ nl +:+ "available_ram_kib=2097152" +:+ nl +:+
      "free_disk_kib=20971520" +:+ nl), s)
  | RunCommand componentStateCommand _ => (Some ("docker=true" +:+ nl +:+ "remnanode_directory=false" +:+ nl +:+ "xray_sni_directory=false"), s)
  | RunCommand containerListCommand _ => (Some ("web" +:+ nl +:+ "Xray-SNI" +:+ nl), s)
  | RunCommand portStateCommand _ => (Some ("port_22=true" +:+ nl +:+ "port_443=" +:+ busy443 +:+ nl +:+ "port_2222=false" +:+ nl +:+ "port_9100=0" +:+ nl +:+
      "port_9200=false" +:+ nl +:+ "port_9443=false"), s)
  | CtxDone => (false, s)
  end.

Definition example_codes (busy443 : string) : option (list string * list string) :=
  match run (example_vps busy443) (Run example_requirements) tt with
  | (_, Some r, _) => Some (iss_Code <$> Warnings r, iss_Code <$> FatalFailures r)
  | _ => None
  end.

Example preflight_run : example_codes "false" = Some (["XRAY_SNI_EXISTS"], []) /\ example_codes "true" = Some (["XRAY_SNI_EXISTS"], ["PORT_443_OCCUPIED"]).
Proof. vm_compute. done. Qed.

(** The product [ramKiB * 1024] is an [int64]: a reported size of 2^53 KiB or
    more wraps around, and a huge machine is rejected for lack of memory. *)
Example huge_memory_wraps : ParseInt64 "9007199254740992" = Some (2 ^ 53) /\ wrap64 (2 ^ 53 * 1024) = - 2 ^ 63.
Proof. vm_compute. done. Qed.

