(* ===== verification/Provisioner.v ===== *)
(** * The provisioning engine

    Models [internal/provisioner/engine.go]: the stable order of the stages,
    the inspect/apply/validate unit and the resumable run that records every
    stage.  A stage is known by its name; what its methods do on the VPS is
    the environment's. *)

From S2P Require Import Prelude GoStrings NetIP Effects Deployment Repository.

#[local] Open Scope Z_scope.

Definition StageNames : list string :=
  ["system"; "docker"; "sysctl"; "limits"; "firewall"; "fail2ban"; "remnanode"; "node_exporter";
   "speedtest_exporter"; "logrotate"; "xray_sni"; "healthcheck"].

Record Inspection : Type := mkInspection { insp_Satisfied : bool; insp_Summary : string }.

Record Report : Type := mkReport {
  rep_Name : string;
  rep_Status : option StepStatus;
  rep_Changed : bool;
  rep_Summary : string;
  rep_Duration : Z
}.

(** What the engine calls: the store, the methods of a stage (an error is
    only tested for), the context, the clock and the progress callback. *)
Inductive provE : Type -> Type :=
  | StoreList (id : string) : provE (result repoErr (list Step))
  | StoreRecord (p : RecordStepParams) : provE (result repoErr Step)
  | StageInspect (name : string) : provE (option Inspection)
  | StageApply (name : string) : provE bool
  | StageValidate (name : string) : provE bool
  | CtxDone : provE bool
  | Elapsed : provE Z
  | EmitReport (r : Report) : provE unit.

Inductive engineErr : Type :=
  | IDRequired
  | LoadFailed (e : repoErr)
  | ContextDone
  | RecordStartFailed (e : repoErr)
  | StageFailed (name : string)
  | StageFailedUnrecorded (name : string) (e : repoErr)
  | RecordCompletionFailed (e : repoErr).

(** [NewEngine]: exactly the stages of [StageNames] in their order. *)
Definition NewEngine (stages : list string) : option (list string) :=
  if negb (length stages =? length StageNames)%nat then None
  else if forallb (fun p => String.eqb (fst p) (snd p)) (zip stages StageNames) then Some stages else None.

Definition safeSummary (value fallback : string) : string :=
  let value := TrimSpace value in
  if String.eqb value "" || (160 <? str_len value) || str_exists (fun a => Ascii.eqb a chr_cr || Ascii.eqb a chr_nl) value
  then fallback else value.

Definition emitReport (progress : bool) (r : Report) : prog provE unit :=
  if progress then call (EmitReport r) else mret tt.

(** [runStage]: the report and whether the stage failed; the duration is set
    by the deferred function. *)
Definition runStage (name : string) : prog provE (Report * bool) :=
  let report changed summary failed :=
    d ← call Elapsed; mret (mkReport name None changed summary d, failed : bool) in
  inspection ← call (StageInspect name);
  match inspection with
  | None => report false "inspection failed" true
  | Some i =>
    if insp_Satisfied i then report false (safeSummary (insp_Summary i) "already configured") false
    else
      applied ← call (StageApply name);
      if negb (applied : bool) then report true "apply failed" true
      else
        valid ← call (StageValidate name);
        if negb (valid : bool) then report true "validation failed" true
        else report true "configured and validated" false
  end.

Definition opt_text (s : string) : option string := if String.eqb s "" then None else Some s.

Definition record (id name : string) (st : StepStatus) (summary errorMessage : string)
    : prog provE (result repoErr Step) :=
  call (StoreRecord (mkRecordStepParams id name st (opt_text summary) (opt_text errorMessage))).

(** [completed[step.Name] = step.Status == COMPLETED]: the last step of a name
    counts. *)
Definition completed_stages (persisted : list Step) (name : string) : bool :=
  foldl (fun acc s => if String.eqb (step_Name s) name then bool_decide (step_Status s = StepStatusCompleted) else acc)
    false persisted.

Definition with_status (st : StepStatus) (r : Report) : Report :=
  mkReport (rep_Name r) (Some st) (rep_Changed r) (rep_Summary r) (rep_Duration r).

(** The loop over the stages, with the reports so far. *)
Fixpoint run_stages (id : string) (progress : bool) (completed : string -> bool) (stages : list string)
    (reports : list Report) : prog provE (list Report * option engineErr) :=
  match stages with
  | [] => mret (reports, None)
  | name :: stages' =>
    if completed name then
      let r := mkReport name (Some StepStatusSkipped) false "already completed" 0 in
      _ ← emitReport progress r;
      run_stages id progress completed stages' (reports ++ [r])
    else
      done ← call CtxDone;
      if (done : bool) then mret (reports, Some ContextDone)
      else
        started ← record id name StepStatusRunning "started" "";
        match started with
        | Err e => mret (reports, Some (RecordStartFailed e))
        | Ok _ =>
          _ ← emitReport progress (mkReport name (Some StepStatusRunning) false "started" 0);
          '(report, failed) ← runStage name;
          if (failed : bool) then
            persisted ← record id name StepStatusFailed (rep_Summary report)
              "stage failed; inspect protected service logs";
            let r := with_status StepStatusFailed report in
            _ ← emitReport progress r;
            mret (reports ++ [r],
              Some (match persisted with Err e => StageFailedUnrecorded name e | Ok _ => StageFailed name end))
          else
            finished ← record id name StepStatusCompleted (rep_Summary report) "";
            match finished with
            | Err e => mret (reports, Some (RecordCompletionFailed e))
            | Ok _ =>
              let r := with_status StepStatusCompleted report in
              _ ← emitReport progress r;
              run_stages id progress completed stages' (reports ++ [r])
            end
        end
  end.

Definition RunWithProgress (stages : list string) (id : string) (progress : bool)
    : prog provE (list Report * option engineErr) :=
  if String.eqb (TrimSpace id) "" then mret ([], Some IDRequired)
  else
    persisted ← call (StoreList id);
    match persisted with
    | Err e => mret ([], Some (LoadFailed e))
    | Ok steps => run_stages id progress (completed_stages steps) stages []
    end.

Definition Run (stages : list string) (id : string) : prog provE (list Report * option engineErr) :=
  RunWithProgress stages id false.

(** ** The engine over the deployment tables

    The environment of the first property: the store is the repository, with
    a clock that does not go back, whose answers may also be lost (an error
    after the transaction, committed or not); every other call may answer
    anything. *)
Section OnTables.
Context (uuid_text : string -> option string).

Definition ProvEnv : Env provE (Z * Db) := fun X e s x s' =>
  match e in provE X return X -> Prop with
  | StoreList id => fun x => s' = s /\ (x = ListDeploymentSteps uuid_text id (snd s) \/ x = Err DriverError)
  | StoreRecord p => fun x => fst s <= fst s' /\
      let '(r, db) := RecordDeploymentStep uuid_text (fst s') p (snd s) in
      (x = r /\ snd s' = db) \/ (x = Err DriverError /\ (snd s' = db \/ snd s' = snd s))
  | _ => fun _ => s' = s
  end x.
#[local] Existing Instance ProvEnv.

(** A call that leaves the tables alone. *)
Ltac frame H := unfold env_step, ProvEnv in H; cbv beta iota in H; subst.

(** The persisted status of one step. *)
Definition step_status (key name : string) (db : Db) : option StepStatus :=
  step_Status <$> deployment_steps db !! (key, name).

Lemma record_step_status now p db r db' key name :
  RecordDeploymentStep uuid_text now p db = (r, db') -> rsp_Name p <> name ->
  step_status key name db' = step_status key name db.
Proof.
  unfold RecordDeploymentStep, step_status. intros H Hne.
  destruct (_ || _); [by simplify_eq|]. destruct (uuid_text _) as [k|]; [|by simplify_eq].
  destruct (deployments db !! k) as [d|]; [|by simplify_eq]. simplify_eq. simpl.
  rewrite lookup_insert_ne; [done|]. congruence.
Qed.

Lemma record_step_ok now p db s db' key :
  RecordDeploymentStep uuid_text now p db = (Ok s, db') -> uuid_text (rsp_DeploymentID p) = Some key ->
  step_status key (rsp_Name p) db' = Some (rsp_Status p).
Proof.
  unfold RecordDeploymentStep, step_status. intros H Hk. rewrite Hk in H.
  destruct (_ || _); [done|]. destruct (deployments db !! key) as [d|]; [|done]. simplify_eq. simpl.
  rewrite lookup_insert_eq. simpl. by destruct (deployment_steps db !! _).
Qed.

Lemma record_db_ok now0 now p db r db' :
  db_ok now0 db -> now0 <= now -> RecordDeploymentStep uuid_text now p db = (r, db') -> db_ok now db'.
Proof.
  intros Hok Hn H. pose proof (repo_exec_effect uuid_text now (OpRecordStep p) db) as He.
  simpl in He. rewrite H in He. by eapply effect_ok.
Qed.

Definition all_completed (key : string) (names : list string) (db : Db) : Prop :=
  forall n, n ∈ names -> step_status key n db = Some StepStatusCompleted.

(** One record through the store: other steps keep their status, and an
    answer without error means that this step has the new one. *)
Lemma wp_record id key name st summary msg (s : Z * Db) tr Q :
  uuid_text id = Some key ->
  (forall r s' tr', (forall n, n <> name -> step_status key n (snd s') = step_status key n (snd s)) ->
     (is_ok r = true -> step_status key name (snd s') = Some st) -> Q r s' tr') ->
  wp (record id name st summary msg) s tr Q.
Proof.
  intros Hk HQ. unfold record. apply wp_call. intros x s' [Hn Hs]. unfold env_step, ProvEnv in *.
  destruct (RecordDeploymentStep _ _ _ _) as [r db] eqn:Hr.
  assert (forall n, n <> name -> step_status key n db = step_status key n (snd s)) as Hother.
  { intros n Hne. eapply record_step_status; [exact Hr|]. simpl. done. }
  apply HQ.
  - intros n Hne. destruct Hs as [[_ ->]|[_ [->| ->]]]; auto.
  - intros Hok. destruct Hs as [[-> ->]|[-> _]]; [|done]. destruct r as [step|]; [|done].
    by eapply (record_step_ok _ _ _ _ _ key) in Hr.
Qed.

Lemma wp_runStage name (s : Z * Db) tr Q :
  (forall r failed tr', Q (r, failed) s tr') -> wp (runStage name) s tr Q.
Proof.
  intros HQ. unfold runStage. wp_answer i s1 H1. frame H1.
  destruct i as [i|]; [destruct (insp_Satisfied i)|].
  1, 3: wp_answer d s2 H2; frame H2; wp_steps; apply HQ.
  wp_answer ap s2 H2. frame H2. destruct ap; simpl.
  - wp_answer v s3 H3. frame H3.
    destruct v; simpl; wp_answer d s4 H4; frame H4; wp_steps; apply HQ.
  - wp_answer d s4 H4. frame H4. wp_steps. apply HQ.
Qed.

Lemma wp_emitReport progress r (s : Z * Db) tr Q :
  (forall tr', Q tt s tr') -> wp (emitReport progress r) s tr Q.
Proof.
  intros HQ. unfold emitReport. destruct progress; [|by wp_steps].
  apply wp_call. intros [] s' H. by frame H.
Qed.

Lemma run_stages_completes id key progress completed stages reports names (s : Z * Db) tr :
  uuid_text id = Some key -> NoDup (names ++ stages) ->
  all_completed key names (snd s) ->
  (forall n, n ∈ stages -> completed n = true -> step_status key n (snd s) = Some StepStatusCompleted) ->
  wp (run_stages id progress completed stages reports) s tr (fun r s' _ =>
    snd r = None -> all_completed key (names ++ stages) (snd s')).
Proof.
  intros Hk. revert names reports s tr. induction stages as [|name stages IH]; intros names reports s tr Hnd Hdone Htrust.
  { simpl. wp_steps. intros _. by rewrite app_nil_r. }
  assert (names ++ name :: stages = (names ++ [name]) ++ stages) as Happ by by rewrite <-app_assoc.
  assert (forall n, n ∈ names \/ n ∈ stages -> n <> name) as Hfresh.
  { apply NoDup_app in Hnd as (_ & Hd & Hn2). apply NoDup_cons in Hn2 as [Hn2 _].
    intros n [Hn|Hn] ->; [|done]. apply (Hd name Hn). by left. }
  rewrite Happ in Hnd |- *. cbn [run_stages]. destruct (completed name) eqn:Hc.
  - wp_steps. apply wp_emitReport. intros tr'. cbv beta. apply IH; [done| |].
    + intros n [Hn| ->%list_elem_of_singleton]%elem_of_app; [auto|]. apply Htrust; [by left|done].
    + intros n Hn. apply Htrust. by right.
  - wp_answer done s1 H1. frame H1. destruct done; [by wp_steps|].
    wp_steps. apply (wp_record id key); [done|]. intros r1 s1 tr1 Ho1 _. cbv beta.
    destruct r1 as [st1|]; [|by wp_steps]. wp_steps. apply wp_emitReport. intros tr2. cbv beta.
    wp_steps. apply wp_runStage. intros report failed tr3. cbv beta. destruct failed.
    + wp_steps. apply (wp_record id key); [done|]. intros r2 s2 tr4 _ _. cbv beta.
      wp_steps. apply wp_emitReport. intros tr5. cbv beta. by wp_steps.
    + wp_steps. apply (wp_record id key); [done|]. intros r2 s2 tr4 Ho2 Hok. cbv beta.
      destruct r2 as [st2|]; [|by wp_steps]. wp_steps. apply wp_emitReport. intros tr5. cbv beta.
      apply IH; [done| |].
      * intros n [Hn| ->%list_elem_of_singleton]%elem_of_app; [|by apply Hok].
        rewrite Ho2, Ho1 by auto. auto.
      * intros n Hn Ht. rewrite Ho2, Ho1 by auto. apply Htrust; [by right|done].
Qed.

(** What the engine trusts is what the table says. *)
Lemma completed_stages_sound now id key db steps name :
  db_ok now db -> uuid_text id = Some key -> ListDeploymentSteps uuid_text id db = Ok steps ->
  completed_stages steps name = true -> step_status key name db = Some StepStatusCompleted.
Proof.
  intros (_ & Hs & _) Hk Hl. unfold ListDeploymentSteps in Hl. rewrite Hk in Hl.
  destruct (negb _); [done|]. injection Hl as <-. set (steps := merge_sort _ _).
  assert (forall s, s ∈ steps -> step_Name s = name -> deployment_steps db !! (key, name) = Some s) as Hin.
  { intros s Hin Hname. subst steps. rewrite merge_sort_Permutation in Hin.
    apply list_elem_of_In, filter_In in Hin as [Hin Hkey]. apply list_elem_of_In in Hin.
    apply list_elem_of_fmap in Hin as ([k s'] & -> & Hin). apply elem_of_map_to_list in Hin.
    simpl in *. pose proof (Hs _ _ Hin) as (H1 & H2 & _). apply String.eqb_eq in Hkey.
    rewrite <-Hkey, <-Hname, H1, H2. by destruct k. }
  clearbody steps. unfold completed_stages.
  assert (forall acc, (acc = true -> step_status key name db = Some StepStatusCompleted) ->
    foldl (fun acc s => if String.eqb (step_Name s) name then bool_decide (step_Status s = StepStatusCompleted) else acc)
      acc steps = true -> step_status key name db = Some StepStatusCompleted) as H.
  { induction steps as [|s steps IH]; intros acc Hacc; [done|]. simpl. apply IH.
    - intros s' Hs'. apply Hin. by right.
    - destruct (String.eqb_spec (step_Name s) name) as [Hname|]; [|done].
      intros Hst%bool_decide_eq_true. unfold step_status. rewrite (Hin s); [simpl; by rewrite Hst|by left|done]. }
  by apply H.
Qed.

Lemma NewEngine_stages stages stages' : NewEngine stages = Some stages' -> stages' = StageNames.
Proof.
  unfold NewEngine. destruct (length stages =? _)%nat eqn:Hlen; [|done]. simpl.
  destruct (forallb _ _) eqn:Hf; [|done]. intros [= <-]. apply Nat.eqb_eq in Hlen.
  revert Hlen Hf. generalize StageNames. induction stages as [|x l IH]; intros [|y l'] Hlen Hf; try done.
  simpl in *. apply andb_true_iff in Hf as [Hxy%String.eqb_eq Hf]. injection Hlen as Hlen.
  f_equal; [done|]. by apply IH.
Qed.

(** C35. A provisioning run that returns without error has every one of the
    twelve stages durably recorded COMPLETED for its deployment, over the real
    tables: the ones it skipped included, and although the answers of the
    store may be lost after or before the commit and the stages' methods may
    answer anything. *)
Theorem provisioning_success_completes_every_stage stages stages' id key progress now db :
  NewEngine stages = Some stages' -> uuid_text id = Some key -> db_ok now db ->
  always (RunWithProgress stages' id progress) (now, db) (fun _ r s' =>
    snd r = None -> forall name, name ∈ StageNames -> step_status key name (snd s') = Some StepStatusCompleted).
Proof.
  intros ->%NewEngine_stages Hk Hok. apply wp_always. unfold RunWithProgress.
  destruct (String.eqb _ _); [by wp_steps|]. wp_answer steps s1 Hs. unfold env_step, ProvEnv in Hs. destruct Hs as [-> Hs].
  destruct steps as [steps|]; [|by wp_steps]. destruct Hs as [Hs|]; [|done].
  eapply wp_mono; [apply (run_stages_completes id key _ _ _ _ [])|].
  - done.
  - simpl. apply (bool_decide_unpack _). vm_compute. done.
  - intros n Hn. by apply not_elem_of_nil in Hn.
  - intros n _ Hn. by eapply completed_stages_sound.
  - intros r s' tr H Hr. exact (H Hr).
Qed.
End OnTables.

Lemma provisioning_success_completes_every_stage_witness :
  @always _ _ (ProvEnv example_uuid) _ (RunWithProgress StageNames id1 true) (70, example_db) (fun _ r s' =>
    snd r = None -> forall name, name ∈ StageNames -> step_status id1 name (snd s') = Some StepStatusCompleted).
Proof.
  apply (provisioning_success_completes_every_stage example_uuid StageNames StageNames id1 id1 true 70 example_db).
  - vm_compute. reflexivity.
  - vm_compute. reflexivity.
  - apply (reachable_ok example_uuid), example_db_reachable.
Defined.

(** ** The discipline of a run, over any environment *)

(** The stage events of a trace: methods of a stage and its records. *)
Inductive stageCall : Type := CInspect | CApply | CValidate | CRecord (st : StepStatus).

Definition stage_event (ev : event provE) : option (string * stageCall) :=
  match ev_op ev with
  | StageInspect n => Some (n, CInspect)
  | StageApply n => Some (n, CApply)
  | StageValidate n => Some (n, CValidate)
  | StoreRecord p => Some (rsp_Name p, CRecord (rsp_Status p))
  | _ => None
  end.

(** Tests on one event, with its answer. *)
Definition ev_test (test : forall X, provE X -> X -> bool) (ev : event provE) : bool := test _ (ev_op ev) (ev_res ev).

Definition recorded (n : string) (st : StepStatus) : event provE -> bool := ev_test (fun X e =>
  match e in provE X return X -> bool with
  | StoreRecord p => fun r => String.eqb (rsp_Name p) n && bool_decide (rsp_Status p = st) && is_ok r
  | _ => fun _ => false
  end).

Definition trusted (n : string) : event provE -> bool := ev_test (fun X e =>
  match e in provE X return X -> bool with
  | StoreList _ => fun r => match r with Ok steps => completed_stages steps n | Err _ => false end
  | _ => fun _ => false
  end).

Definition unsatisfied (n : string) : event provE -> bool := ev_test (fun X e =>
  match e in provE X return X -> bool with
  | StageInspect m => fun r => String.eqb m n && match r with Some i => negb (insp_Satisfied i) | None => false end
  | _ => fun _ => false
  end).

Definition applied_ok (n : string) : event provE -> bool := ev_test (fun X e =>
  match e in provE X return X -> bool with
  | StageApply m => fun r => String.eqb m n && r
  | _ => fun _ => false
  end).

(** The stage is in its desired state: found so, or validated. *)
Definition settled (n : string) : event provE -> bool := ev_test (fun X e =>
  match e in provE X return X -> bool with
  | StageInspect m => fun r => String.eqb m n && match r with Some i => insp_Satisfied i | None => false end
  | StageValidate m => fun r => String.eqb m n && r
  | _ => fun _ => false
  end).

(** A method of the stage failed. *)
Definition broken (n : string) : event provE -> bool := ev_test (fun X e =>
  match e in provE X return X -> bool with
  | StageInspect m => fun r => String.eqb m n && match r with Some _ => false | None => true end
  | StageApply m | StageValidate m => fun r => String.eqb m n && negb r
  | _ => fun _ => false
  end).

Definition any_broken (ev : event provE) : bool :=
  match stage_event ev with Some (n, _) => broken n ev | None => false end.

Definition stage_done (n : string) (ev : event provE) : bool := recorded n StepStatusCompleted ev || trusted n ev.

(** [m] comes before [n] in the order of the stages. *)
Definition before (m n : string) (stages : list string) : Prop :=
  exists pre post, stages = pre ++ n :: post /\ m ∈ pre.

(** What must have happened before a stage event. *)
Definition stage_rule (stages : list string) (past : list (event provE)) (ev : event provE) : Prop :=
  match stage_event ev with
  | None => True
  | Some (n, c) =>
    n ∈ stages /\
    (forall m, before m n stages -> existsb (stage_done m) past = true) /\
    match c with
    | CRecord StepStatusFailed => existsb (broken n) past = true
    | _ => existsb any_broken past = false
    end /\
    match c with
    | CInspect => existsb (recorded n StepStatusRunning) past = true
    | CApply => existsb (unsatisfied n) past = true
    | CValidate => existsb (applied_ok n) past = true
    | CRecord StepStatusCompleted => existsb (settled n) past = true
    | CRecord StepStatusFailed => True
    | CRecord st => st = StepStatusRunning /\ existsb (trusted n) past = false
    end
  end.

Definition follows_rules (stages : list string) (tr : list (event provE)) : Prop := every (stage_rule stages) tr.

Lemma follows_rules_snoc stages tr ev :
  follows_rules stages tr -> stage_rule stages tr ev -> follows_rules stages (tr ++ [ev]).
Proof. apply every_snoc. Qed.

Lemma existsb_last {A} (P : A -> bool) l x : P x = true -> existsb P (l ++ [x]) = true.
Proof. intros H. rewrite existsb_app. simpl. by rewrite H, orb_true_r. Qed.

Lemma existsb_mono {A} (P Q : A -> bool) l :
  (forall x, P x = true -> Q x = true) -> existsb P l = true -> existsb Q l = true.
Proof. intros H (x & Hin & Hx)%existsb_elem_of. apply existsb_elem_of. exists x. auto. Qed.

Lemma split_point {A} (pre pre' post post' : list A) x :
  NoDup (pre ++ x :: post) -> pre ++ x :: post = pre' ++ x :: post' -> pre = pre'.
Proof.
  revert pre'. induction pre as [|y pre IH]; intros [|z pre'] Hnd H; simpl in *; try done.
  - injection H as <- ->. apply NoDup_cons in Hnd as [[] _]. apply elem_of_app. right. by left.
  - injection H as -> _. apply NoDup_cons in Hnd as [[] _]. apply elem_of_app. right. by left.
  - injection H as -> H. f_equal. apply IH; [|done]. by apply NoDup_cons in Hnd as [_ ?].
Qed.

Lemma recorded_done name tr :
  existsb (recorded name StepStatusCompleted) tr = true -> existsb (stage_done name) tr = true.
Proof. apply existsb_mono. intros ev H. unfold stage_done. by rewrite H. Qed.

Lemma trusted_done name tr : existsb (trusted name) tr = true -> existsb (stage_done name) tr = true.
Proof. apply existsb_mono. intros ev H. unfold stage_done. by rewrite H, orb_true_r. Qed.

Section Discipline.
Context (all : list string) (completed : string -> bool).
Hypothesis Hnd : NoDup all.

(** Between two events of a run in which nothing failed, after the stages
    [pre]. *)
Definition sound_so_far (pre : list string) (tr : list (event provE)) : Prop :=
  follows_rules all tr /\ existsb any_broken tr = false /\
  (forall m, m ∈ pre -> existsb (stage_done m) tr = true) /\
  (forall n, existsb (trusted n) tr = completed n).

(** An event that is no stage event. *)
Lemma quiet_snoc tr ev : follows_rules all tr -> stage_event ev = None -> follows_rules all (tr ++ [ev]).
Proof. intros H He. apply follows_rules_snoc; [done|]. unfold stage_rule. by rewrite He. Qed.

Lemma sound_snoc pre tr ev :
  sound_so_far pre tr -> stage_rule all tr ev -> any_broken ev = false -> (forall n, trusted n ev = false) ->
  sound_so_far pre (tr ++ [ev]).
Proof.
  intros (H1 & H2 & H3 & H4) Hr Hb Ht. unfold sound_so_far. split_and!.
  - by apply follows_rules_snoc.
  - by rewrite existsb_app, H2; simpl; rewrite Hb.
  - intros m Hm. by rewrite existsb_app, H3.
  - intros n. rewrite existsb_app, H4. simpl. by rewrite Ht, !orb_false_r.
Qed.

Lemma sound_quiet pre tr ev :
  sound_so_far pre tr -> stage_event ev = None -> (forall n, trusted n ev = false) -> sound_so_far pre (tr ++ [ev]).
Proof. intros H He Ht. apply sound_snoc; [done| | |done]; unfold stage_rule, any_broken; by rewrite He. Qed.

Lemma sound_next pre name tr :
  sound_so_far pre tr -> existsb (stage_done name) tr = true -> sound_so_far (pre ++ [name]) tr.
Proof.
  intros (H1 & H2 & H3 & H4) Hn. split_and!; try done.
  intros m [Hm| ->%list_elem_of_singleton]%elem_of_app; auto.
Qed.

(** The rule of an event of the stage that follows [pre]. *)
Lemma rule_at pre name rest tr ev c :
  all = pre ++ name :: rest -> sound_so_far pre tr -> stage_event ev = Some (name, c) ->
  c <> CRecord StepStatusFailed ->
  match c with
  | CInspect => existsb (recorded name StepStatusRunning) tr = true
  | CApply => existsb (unsatisfied name) tr = true
  | CValidate => existsb (applied_ok name) tr = true
  | CRecord StepStatusCompleted => existsb (settled name) tr = true
  | CRecord StepStatusFailed => True
  | CRecord st => st = StepStatusRunning /\ existsb (trusted name) tr = false
  end -> stage_rule all tr ev.
Proof.
  intros Hall (_ & H2 & H3 & _) He Hc Hr. unfold stage_rule. rewrite He. split_and!.
  - rewrite Hall. apply elem_of_app. right. by left.
  - intros m (pre' & post' & Hall' & Hm). apply H3. rewrite Hall in Hall', Hnd.
    by rewrite (split_point _ _ _ _ _ Hnd Hall').
  - by destruct c as [| | |[]].
  - exact Hr.
Qed.

(** The failure record is the last stage event. *)
Lemma rule_failed pre name rest tr ev :
  all = pre ++ name :: rest -> (forall m, m ∈ pre -> existsb (stage_done m) tr = true) ->
  stage_event ev = Some (name, CRecord StepStatusFailed) -> existsb (broken name) tr = true -> stage_rule all tr ev.
Proof.
  intros Hall H3 He Hb. unfold stage_rule. rewrite He. split_and!; [| |done|done].
  - rewrite Hall. apply elem_of_app. right. by left.
  - intros m (pre' & post' & Hall' & Hm). apply H3. rewrite Hall in Hall', Hnd.
    by rewrite (split_point _ _ _ _ _ Hnd Hall').
Qed.

(** What a stage leaves behind. *)
Definition after_stage (pre : list string) (name : string) (failed : bool) (tr : list (event provE)) : Prop :=
  if failed
  then follows_rules all tr /\ (forall m, m ∈ pre -> existsb (stage_done m) tr = true) /\ existsb (broken name) tr = true
  else sound_so_far pre tr /\ existsb (settled name) tr = true.

(** The method that broke is the last stage event of the stage. *)
Lemma after_broken pre name tr ev d dur :
  sound_so_far pre tr -> stage_rule all tr ev -> broken name ev = true ->
  d = Ev Elapsed dur -> after_stage pre name true ((tr ++ [ev]) ++ [d]).
Proof.
  intros (H1 & H2 & H3 & H4) Hr Hb ->. unfold after_stage. split_and!.
  - apply quiet_snoc; [|done]. by apply follows_rules_snoc.
  - intros m Hm. by rewrite !existsb_app, H3.
  - by rewrite existsb_app, existsb_last.
Qed.

Lemma after_settled pre name tr ev d dur :
  sound_so_far pre (tr ++ [ev]) -> settled name ev = true -> d = Ev Elapsed dur ->
  after_stage pre name false ((tr ++ [ev]) ++ [d]).
Proof.
  intros H Hb ->. split; [by apply sound_quiet|]. by rewrite existsb_app, existsb_last.
Qed.

Ltac this_event := unfold any_broken, broken, settled, unsatisfied, applied_ok, ev_test; simpl;
  rewrite ?String.eqb_refl; simpl; rewrite ?andb_false_r; try done.

Lemma wp_runStage_rules pre name rest tr :
  all = pre ++ name :: rest -> sound_so_far pre tr -> existsb (recorded name StepStatusRunning) tr = true ->
  wp (runStage name) tt tr (fun r _ tr' => after_stage pre name (snd r) tr').
Proof.
  intros Hall Hs Hrun. unfold runStage. wp_answer i s1 H1.
  assert (stage_rule all tr (Ev (StageInspect name) i)) as Hi by (eapply rule_at; done).
  destruct i as [i|]; [|wp_answer d s2 H2; wp_steps; eapply after_broken; [done|done|this_event|done]].
  assert (sound_so_far pre (tr ++ [Ev (StageInspect name) (Some i)])) as Hs1.
  { apply sound_snoc; [done|done| |done]. this_event. }
  destruct (insp_Satisfied i) eqn:Hsat.
  { wp_answer d s2 H2. wp_steps. eapply after_settled; [done| |done]. this_event. }
  wp_answer ap s2 H2.
  assert (stage_rule all (tr ++ [Ev (StageInspect name) (Some i)]) (Ev (StageApply name) ap)) as Ha.
  { eapply rule_at; [done|done|done|done|]. apply existsb_last. this_event. by rewrite Hsat. }
  destruct ap; [|wp_answer d s3 H3; wp_steps; eapply after_broken; [done|done|this_event|done]].
  assert (sound_so_far pre ((tr ++ [Ev (StageInspect name) (Some i)]) ++ [Ev (StageApply name) true])) as Hs2.
  { apply sound_snoc; [done|done| |done]. this_event. }
  cbn [negb]. wp_answer v s3 H3.
  assert (stage_rule all ((tr ++ [Ev (StageInspect name) (Some i)]) ++ [Ev (StageApply name) true])
    (Ev (StageValidate name) v)) as Hv.
  { eapply rule_at; [done|done|done|done|]. apply existsb_last. this_event. }
  destruct v; cbn [negb]; wp_answer d s4 H4; wp_steps.
  - eapply after_settled; [|this_event|done]. apply sound_snoc; [done|done| |done]. this_event.
  - eapply after_broken; [done|done|this_event|done].
Qed.

Lemma wp_emit_quiet progress r tr (P : list (event provE) -> Prop) :
  P tr -> P (tr ++ [Ev (EmitReport r) tt]) -> wp (emitReport progress r) tt tr (fun _ _ tr' => P tr').
Proof. intros H1 H2. unfold emitReport. destruct progress; [|by wp_steps]. by apply wp_call; intros [] [] _. Qed.

Lemma wp_emit_sound progress r pre tr :
  sound_so_far pre tr -> wp (emitReport progress r) tt tr (fun _ _ tr' => sound_so_far pre tr').
Proof. intros H. apply wp_emit_quiet; [done|]. by apply sound_quiet. Qed.

Lemma wp_record_rules id pre name rest st summary msg tr Q :
  all = pre ++ name :: rest -> sound_so_far pre tr -> st <> StepStatusFailed ->
  match st with
  | StepStatusCompleted => existsb (settled name) tr = true
  | _ => st = StepStatusRunning /\ existsb (trusted name) tr = false
  end ->
  (forall r tr', sound_so_far pre tr' -> (is_ok r = true -> existsb (recorded name st) tr' = true) -> Q r tt tr') ->
  wp (record id name st summary msg) tt tr Q.
Proof.
  intros Hall Hs Hst Hr HQ. unfold record. apply wp_call. intros r [] _. apply HQ.
  - apply sound_snoc; [done| |done|done]. eapply rule_at; [done|done|done|by intros [= ?]|]. by destruct st.
  - intros Hok. apply existsb_last. unfold recorded, ev_test. simpl.
    by rewrite String.eqb_refl, bool_decide_eq_true_2, Hok.
Qed.

Lemma run_stages_rules id progress pre rest reports tr :
  all = pre ++ rest -> sound_so_far pre tr ->
  wp (run_stages id progress completed rest reports) tt tr (fun _ _ tr' => follows_rules all tr').
Proof.
  revert pre reports tr. induction rest as [|name rest IH]; intros pre reports tr Hall Hs.
  { simpl. wp_steps. apply Hs. }
  assert (all = (pre ++ [name]) ++ rest) as Hnext by by rewrite <-app_assoc.
  cbn [run_stages]. destruct (completed name) eqn:Hc.
  { wp_steps. eapply wp_mono; [by apply wp_emit_sound|]. intros [] [] tr1 Hs1. cbv beta.
    apply (IH (pre ++ [name])); [done|]. apply sound_next; [done|]. destruct Hs1 as (_ & _ & _ & Ht).
    rewrite <-(Ht name) in Hc. by apply trusted_done. }
  wp_answer dn s1 H1. destruct s1. assert (sound_so_far pre (tr ++ [Ev CtxDone dn])) as Hs0 by by apply sound_quiet.
  destruct dn; [wp_steps; apply Hs0|]. wp_steps.
  eapply wp_record_rules; [done|done|done| |].
  { split; [done|]. by rewrite (proj2 (proj2 (proj2 Hs0))). }
  intros r1 tr1 Hs1 Hrec. cbv beta. destruct r1 as [st1|e]; [|wp_steps; apply Hs1]. specialize (Hrec eq_refl).
  wp_steps. eapply wp_mono; [apply (wp_emit_quiet _ _ _ (fun tr' => sound_so_far pre tr' /\ existsb (recorded name StepStatusRunning) tr' = true))|].
  { done. }
  { split; [by apply sound_quiet|]. by rewrite existsb_app, Hrec. }
  intros [] [] tr2 [Hs2 Hrec2]. cbv beta. wp_steps.
  eapply wp_mono; [by eapply wp_runStage_rules|]. intros [report failed] [] tr3 H3. cbn [snd] in H3.
  destruct failed; unfold after_stage in H3.
  - destruct H3 as (Hr & Hd & Hb). wp_steps. unfold record. apply wp_call. intros r2 [] _.
    assert (follows_rules all (tr3 ++ [Ev (StoreRecord (mkRecordStepParams id name StepStatusFailed
      (opt_text (rep_Summary report)) (opt_text "stage failed; inspect protected service logs"))) r2])) as Hf.
    { apply follows_rules_snoc; [done|]. by eapply rule_failed. }
    wp_steps. eapply wp_mono; [apply (wp_emit_quiet _ _ _ (follows_rules all)); [done|by apply quiet_snoc]|].
    intros [] [] tr4 H4. cbv beta. by wp_steps.
  - destruct H3 as [Hs3 Hset]. wp_steps. eapply wp_record_rules; [done|done|done|done|].
    intros r2 tr4 Hs4 Hrec4. cbv beta. destruct r2 as [st2|e]; [|wp_steps; apply Hs4]. specialize (Hrec4 eq_refl).
    wp_steps. eapply wp_mono; [apply (wp_emit_quiet _ _ _ (sound_so_far (pre ++ [name])))|].
    { apply sound_next; [done|]. by apply recorded_done. }
    { apply sound_quiet; [|done|done]. apply sound_next; [done|]. by apply recorded_done. }
    intros [] [] tr5 H5. cbv beta. by apply (IH (pre ++ [name])).
Qed.
End Discipline.

(** The discipline of a provisioning run, whatever the VPS and the
    database answer, a result lost in transit or the context expiring included:
    no method of a stage and no record is issued before every earlier stage of
    the fixed order is durably completed (recorded so in this run, or reported
    so by the store at its start); a stage is applied only after its RUNNING
    record succeeded and its inspection found it unsatisfied, validated only
    after its apply succeeded, recorded COMPLETED only when it was found
    satisfied or validated; a stage trusted from an earlier run is never
    touched; and after the first failure nothing but its FAILED record
    follows. *)
Theorem provisioning_follows_the_stage_rules id progress :
  always (RunWithProgress StageNames id progress) tt (fun tr _ _ => follows_rules StageNames tr).
Proof.
  apply wp_always. unfold RunWithProgress. assert (follows_rules StageNames []) as H0 by apply every_nil.
  destruct (String.eqb _ _); [by wp_steps|]. wp_answer steps s1 Hs. destruct s1.
  destruct steps as [steps|e]; [|wp_steps; by apply quiet_snoc].
  apply (run_stages_rules StageNames (completed_stages steps) ltac:(apply (bool_decide_unpack _); by vm_compute) _ _ []);
    [done|]. split_and!.
  - by apply quiet_snoc.
  - done.
  - intros m Hm. by apply not_elem_of_nil in Hm.
  - intros n. simpl. unfold trusted, ev_test. simpl. apply orb_false_r.
Qed.
