(* ===== verification/Remote.v ===== *)
(** * Stages on the VPS

    Models [internal/provisioner/remote.go], [config.go], [xray_sni.go] and
    [certificate_validation.go]: the quoting of shell words, the managed
    files, the stage every service but xray-sni is, and the inputs of a run.
    A stage runs commands on an SSH connection; SHA-256 is the class [X509] of
    Certificates.v. *)

From S2P Require Import Prelude GoStrings NetIP Effects GoFmt CertTypes Certificates Provisioner.

#[local] Open Scope Z_scope.

(** ** Effects

    [RunCommand detached command stdin timeout]: [None] is any error of
    [CommandRunner.Run], [Some stdout] a command that exited with status 0;
    [detached] is a context that is not cancelled with the caller's.
    [CtxDone] is [ctx.Err() != nil]. *)
Inductive vpsE : Type -> Type :=
  | RunCommand (detached : bool) (command : string) (stdin : bytes) (timeout : Z) : vpsE (option string)
  | VpsCtxDone (detached : bool) : vpsE bool
  | VpsNow : vpsE Z.

(** The errors of a stage: a fixed text, or the context's error. *)
Inductive stageErr : Type := StageText (text : string) | StageContext.
#[export] Instance stageErr_eq_dec : EqDecision stageErr.
Proof. solve_decision. Defined.

(** The bytes of a text. *)
Fixpoint bytes_of (s : string) : bytes :=
  match s with EmptyString => [] | String a s' => byte_of a :: bytes_of s' end.

(** ** Shell words *)
Definition control_bytes : string := String chr_cr (String chr_nl (String (of_byte 0) "")).

Definition shellQuote (value : string) : result stageErr string :=
  if ContainsAny value control_bytes then Err (StageText "value cannot be represented safely in a shell command")
  else Ok ("'" +:+ replace_byte_str "'" (raw "'`'`'") value +:+ "'").

Definition shellPath (value : string) : result stageErr string :=
  if negb (HasPrefix value "/") || ContainsAny value control_bytes
  then Err (StageText "managed file path must be an absolute path")
  else shellQuote value.

(** ** Managed files *)
Record managedFile : Type := mkManagedFile { mf_path : string; mf_mode : string; mf_content : bytes }.

(** The pattern [^[0-7]{3,4}$]. *)
Definition valid_mode (mode : string) : bool :=
  ((String.length mode =? 3)%nat || (String.length mode =? 4)%nat) && negb (str_exists (fun a => negb (byte_in 48 55 a)) mode).

Definition Minute : Z := 60 * 1000000000.

Section Remote.
Context `{X509} {printable_rune : UnicodePrint}.

(** [hex.EncodeToString] of [sha256.Sum256]. *)
Definition sha256_hex (content : bytes) : string := hex_EncodeToString (Sum256 content).

(** ** [remoteStage] *)
Record remoteStage : Type := mkRemoteStage {
  rs_name : string;
  rs_timeout : Z;
  rs_files : list managedFile;
  rs_inspectCommand : string;
  rs_applyCommand : string;
  rs_validateCommand : string
}.

Definition commandReady (s : remoteStage) (command : string) : prog vpsE (result stageErr bool) :=
  result ← call (RunCommand false command [] (rs_timeout s));
  mret match result with
  | None => Err (StageText "remote inspection command failed")
  | Some stdout =>
    let answer := TrimSpace stdout in
    if String.eqb answer "ready" then Ok true
    else if String.eqb answer "pending" then Ok false
    else Err (StageText "remote inspection returned an invalid response")
  end.

Definition runChecked (s : remoteStage) (command : string) (stdin : bytes) : prog vpsE (option stageErr) :=
  result ← call (RunCommand false command stdin (rs_timeout s));
  match result with
  | Some _ => mret None
  | None =>
    over ← call (VpsCtxDone false);
    mret (Some (if (over : bool) then StageContext else StageText "remote apply command failed"))
  end.

Definition match_command (path : string) : string :=
  Sprintf "if [ -f %s ]; then sha256sum %s | cut -d' ' -f1; else printf missing; fi" [FStr path; FStr path].

Definition fileMatches (s : remoteStage) (file : managedFile) : prog vpsE (result stageErr bool) :=
  match shellPath (mf_path file) with
  | Err e => mret (Err e)
  | Ok path =>
    result ← call (RunCommand false (match_command path) [] (rs_timeout s));
    mret match result with
    | None => Err (StageText "managed file inspection failed")
    | Some stdout => Ok (String.eqb (TrimSpace stdout) (sha256_hex (mf_content file)))
    end
  end.

Definition write_command (path mode : string) : string := Sprintf (raw "set -eu
target=%s
directory=$(dirname `$target`)
install -d -m 0755 `$directory`
temporary=$(mktemp `$directory/.provisioner.XXXXXX`)
trap 'rm -f `$temporary`' EXIT
cat > `$temporary`
chmod %s `$temporary`
if [ -f `$target` ] && cmp -s `$temporary` `$target`; then
    exit 0
fi
mv -f `$temporary` `$target`
trap - EXIT") [FStr path; FStr mode].

Definition writeFile (s : remoteStage) (file : managedFile) : prog vpsE (option stageErr) :=
  match shellPath (mf_path file) with
  | Err e => mret (Some e)
  | Ok path =>
    if negb (valid_mode (mf_mode file)) then mret (Some (StageText "invalid managed file mode"))
    else runChecked s (write_command path (mf_mode file)) (mf_content file)
  end.

(** The loops over the managed files. *)
Fixpoint all_match (s : remoteStage) (files : list managedFile) : prog vpsE (result stageErr bool) :=
  match files with
  | [] => mret (Ok true)
  | file :: files' =>
    matches ← fileMatches s file;
    match matches with
    | Ok true => all_match s files'
    | r => mret r
    end
  end.

Fixpoint write_all (s : remoteStage) (files : list managedFile) : prog vpsE (option stageErr) :=
  match files with
  | [] => mret None
  | file :: files' => writeFile s file ;;? write_all s files'
  end.

Definition Inspect (s : remoteStage) : prog vpsE (result stageErr Inspection) :=
  files ← all_match s (rs_files s);
  match files with
  | Err e => mret (Err e)
  | Ok false => mret (Ok (mkInspection false "managed configuration requires update"))
  | Ok true =>
    if String.eqb (rs_inspectCommand s) "" then mret (Ok (mkInspection true "already configured"))
    else
      ready ← commandReady s (rs_inspectCommand s);
      mret match ready with
      | Err e => Err e
      | Ok false => Ok (mkInspection false "service state requires update")
      | Ok true => Ok (mkInspection true "already configured")
      end
  end.

Definition Apply (s : remoteStage) : prog vpsE (option stageErr) :=
  write_all s (rs_files s) ;;?
  if String.eqb (rs_applyCommand s) "" then mret None else runChecked s (rs_applyCommand s) [].

Definition Validate (s : remoteStage) : prog vpsE (option stageErr) :=
  files ← all_match s (rs_files s);
  match files with
  | Ok true =>
    if String.eqb (rs_validateCommand s) "" then mret None
    else
      ready ← commandReady s (rs_validateCommand s);
      mret match ready with Ok true => None | _ => Some (StageText "remote service validation failed") end
  | _ => mret (Some (StageText "managed file validation failed"))
  end.
End Remote.

(** ** The interface of a stage ([Stage] of engine.go) *)
Record Stage : Type := mkStage {
  stage_Name : string;
  stage_Inspect : prog vpsE (result stageErr Inspection);
  stage_Apply : prog vpsE (option stageErr);
  stage_Validate : prog vpsE (option stageErr)
}.

Definition remote_stage `{X509} {printable_rune : UnicodePrint} (s : remoteStage) : Stage :=
  mkStage (rs_name s) (Inspect s) (Apply s) (Validate s).

(** ** [XraySNIInstaller] (xray_sni.go) *)
Record XraySNIInstaller : Type := mkXraySNIInstaller {
  xi_Inspect : prog vpsE (result stageErr Inspection);
  xi_Install : prog vpsE (option stageErr);
  xi_Validate : prog vpsE (option stageErr)
}.

Definition ErrXraySNIAdapterNotImplemented : stageErr := StageText "xray-sni installer adapter is not implemented".

Definition NotImplementedXraySNIInstaller : XraySNIInstaller :=
  mkXraySNIInstaller (mret (Err ErrXraySNIAdapterNotImplemented)) (mret (Some ErrXraySNIAdapterNotImplemented))
    (mret (Some ErrXraySNIAdapterNotImplemented)).

Definition xraySNIStage (i : XraySNIInstaller) : Stage := mkStage "xray_sni" (xi_Inspect i) (xi_Install i) (xi_Validate i).

(** ** [validateCertificateMaterial] *)
Definition ErrInvalidCertificateMaterial : stageErr := StageText "certificate material is invalid".

Definition validateCertificateMaterial `{X509} (material : Material) (hostname : string) (now : Z) : option stageErr :=
  match Certificates.Validate material hostname now with Ok _ => None | Err _ => Some ErrInvalidCertificateMaterial end.

(** ** [Config] (config.go) *)
Record Config : Type := mkConfig {
  pc_RemnawaveAPIIP : Addr;
  pc_MetricsIP : Addr;
  pc_Timezone : string;
  pc_NodeExporterVersion : string;
  pc_CommandTimeout : Z;
  pc_remnanodeSecret : bytes
}.

Definition NewConfig (remnawaveAPIIP metricsIP : Addr) (remnanodeSecret : bytes) : option Config :=
  if negb (IsValid remnawaveAPIIP) || negb (IsValid metricsIP) || bool_decide (remnanodeSecret = []) then None
  else Some (mkConfig remnawaveAPIIP metricsIP "Europe/Moscow" "1.8.2" (5 * Minute) remnanodeSecret).

Definition Config_Destroy (c : Config) : Config :=
  mkConfig (pc_RemnawaveAPIIP c) (pc_MetricsIP c) (pc_Timezone c) (pc_NodeExporterVersion c) (pc_CommandTimeout c) [].

Definition normalized (c : Config) : option Config :=
  if negb (IsValid (pc_RemnawaveAPIIP c)) || negb (IsValid (pc_MetricsIP c)) || bool_decide (pc_remnanodeSecret c = []) then None
  else Some (mkConfig (pc_RemnawaveAPIIP c) (pc_MetricsIP c)
         (if String.eqb (pc_Timezone c) "" then "Europe/Moscow" else pc_Timezone c)
         (if String.eqb (pc_NodeExporterVersion c) "" then "1.8.2" else pc_NodeExporterVersion c)
         (if pc_CommandTimeout c <=? 0 then 5 * Minute else pc_CommandTimeout c)
         (pc_remnanodeSecret c)).
