(* ===== verification/XraySni.v ===== *)
(** * The xray-sni service of a VPS

    Models [internal/provisioner/xray_sni_external.go] and
    [xray_sni_legacy.go]: the installer that keeps the service at a pinned
    revision with an external certificate, the update of the certificate with
    its rollback, and the switch of a Node to another domain.  The commands
    are the texts of the source; what the scripts among them do to the files
    of the VPS is XrayScripts.v. *)

From S2P Require Import Prelude GoStrings Unicode Effects GoFmt GoURL CertTypes Certificates Preflight Provisioner Remote.

#[local] Open Scope Z_scope.

Definition xraySNIInstallDirectory : string := "/opt/xray-sni".
Definition xraySNIPort : Z := 9443.

Definition ErrInvalidXraySNIConfiguration : stageErr := StageText "invalid xray-sni configuration".
Definition ErrXraySNIInspectionFailed : stageErr := StageText "xray-sni inspection failed".
Definition ErrXraySNIInstallationFailed : stageErr := StageText "xray-sni installation failed".
Definition ErrXraySNIValidationFailed : stageErr := StageText "xray-sni validation failed".

Record ExternalXraySNIConfig : Type := mkExternalXraySNIConfig {
  xc_RepositoryURL : string;
  xc_Ref : string;
  xc_SNIDomain : string;
  xc_Timeout : Z
}.

Record ExternalXraySNIInstaller : Type := mkExternalXraySNIInstaller {
  xa_config : ExternalXraySNIConfig;
  xa_material : Material
}.

(** ** Validation of the configuration *)
Definition ref_byte (a : ascii) : bool := letter a || decimal a || one_of "._/-" a.

Definition validXrayPinnedRef (value : string) : bool :=
  let value := TrimSpace value in
  negb (String.eqb value "" || EqualFold value "main" || EqualFold value "master" || EqualFold value "HEAD" ||
        HasPrefix value "-" || Contains value ".." || Contains value "@{") &&
  negb (str_exists (fun a => negb (ref_byte a)) value).

Definition valid_label (label : string) : bool :=
  negb ((String.length label =? 0)%nat || (63 <? str_len label) || HasPrefix label "-" || HasSuffix label "-") &&
  negb (str_exists (fun a => negb (letter a || decimal a || Ascii.eqb a "-")) label).

Definition validSNIDomain (value : string) : bool :=
  negb ((253 <? str_len value) || ContainsAny value control_bytes || HasPrefix value "." || HasSuffix value "." ||
        negb (Contains value ".")) &&
  forallb valid_label (Split value ".").

Definition validExternalXraySNIConfig (config : ExternalXraySNIConfig) : bool :=
  match Parse (xc_RepositoryURL config) with
  | None => false
  | Some parsed =>
    String.eqb (url_Scheme parsed) "https" && negb (String.eqb (url_Host parsed) "") && bool_decide (url_User parsed = None) &&
    String.eqb (url_RawQuery parsed) "" && String.eqb (url_Fragment parsed) "" && validXrayPinnedRef (xc_Ref config) &&
    validSNIDomain (xc_SNIDomain config)
  end.

(** What [shellQuote] gives when its error is ignored. *)
Definition quoted (value : string) : string := match shellQuote value with Ok q => q | Err _ => "" end.

(** ** The fixed commands *)
Definition certificate_directory_command : string :=
  "# xray-sni:certificate-directory
install -d -o root -g root -m 0755 /opt/xray-sni/certs".

Definition activate_command : string := raw "# xray-sni:activate-certificates
set -eu
cd /opt/xray-sni/certs
test -f fullchain.pem.new
test -f privkey.pem.new
backup=.certificate-previous
test ! -e `$backup`
install -d -o root -g root -m 0700 `$backup`
had_fullchain=false
had_private_key=false
if [ -f fullchain.pem ]; then mv fullchain.pem `$backup/fullchain.pem`; had_fullchain=true; fi
if [ -f privkey.pem ]; then mv privkey.pem `$backup/privkey.pem`; had_private_key=true; fi
if mv -f fullchain.pem.new fullchain.pem && mv -f privkey.pem.new privkey.pem && chown root:root fullchain.pem privkey.pem && chmod 0644 fullchain.pem && chmod 0600 privkey.pem; then
    true
else
    if [ `$had_fullchain` = true ]; then mv -f `$backup/fullchain.pem` fullchain.pem; else rm -f fullchain.pem; fi
    if [ `$had_private_key` = true ]; then mv -f `$backup/privkey.pem` privkey.pem; else rm -f privkey.pem; fi
    rm -f `$backup/fullchain.pem` `$backup/privkey.pem` fullchain.pem.new privkey.pem.new
    rmdir `$backup`
    exit 1
fi".

Definition permissions_command : string :=
  "# xray-sni:certificate-permissions
chown root:root /opt/xray-sni/certs /opt/xray-sni/certs/fullchain.pem /opt/xray-sni/certs/privkey.pem && chmod 0755 /opt/xray-sni/certs && chmod 0644 /opt/xray-sni/certs/fullchain.pem && chmod 0600 /opt/xray-sni/certs/privkey.pem".

Definition cleanup_command : string := raw "# xray-sni:cleanup-previous
directory=/opt/xray-sni/certs/.certificate-previous
if [ -d `$directory` ]; then
    rm -f `$directory/fullchain.pem` `$directory/privkey.pem`
    rmdir `$directory`
fi".

Definition rollback_command : string := raw "# xray-sni:rollback-certificates
set -eu
cd /opt/xray-sni/certs
backup=.certificate-previous
test -d `$backup`
test -f `$backup/fullchain.pem`
test -f `$backup/privkey.pem`
rm -f fullchain.pem privkey.pem fullchain.pem.new privkey.pem.new
mv `$backup/fullchain.pem` fullchain.pem
mv `$backup/privkey.pem` privkey.pem
chown root:root fullchain.pem privkey.pem
chmod 0644 fullchain.pem
chmod 0600 privkey.pem
rmdir `$backup`".

Definition compose_config_command : string :=
  "# xray-sni:compose-config
cd /opt/xray-sni && docker compose config >/dev/null".

Definition compose_build_command : string :=
  "# xray-sni:compose-build
cd /opt/xray-sni && docker compose up -d --build --remove-orphans".

Definition compose_up_command : string :=
  "# xray-sni:compose-up
cd /opt/xray-sni && docker compose up -d --remove-orphans".

Definition record_commit_command : string := raw "# xray-sni:record-deployed-commit
set -eu
cd /opt/xray-sni
temporary=$(mktemp .deployed-commit.XXXXXX)
trap 'rm -f `$temporary`' EXIT
git rev-parse HEAD > `$temporary`
chmod 0644 `$temporary`
mv -f `$temporary` .deployed-commit
trap - EXIT".

Definition reload_command : string :=
  "# xray-sni:reload
docker exec snisite caddy reload --config /etc/caddy/Caddyfile --adapter caddyfile".

Definition container_command : string := raw
  "# xray-sni:container
test `$(docker inspect -f '{{.State.Running}}' snisite 2>/dev/null)` = true".

Definition caddy_validate_command : string :=
  "# xray-sni:caddy-validate
docker exec snisite caddy validate --config /etc/caddy/Caddyfile --adapter caddyfile".

(** ** The observed state *)
Record xraySNIState : Type := mkXraySNIState {
  RepositoryExists : bool; RemoteMatches : bool; RefMatches : bool; WorktreeClean : bool;
  ComposeExists : bool; DeployedCommitMatches : bool; EnvironmentMatches : bool;
  FullchainMatches : bool; PrivateKeyMatches : bool; PermissionsMatch : bool;
  ContainerExists : bool; ContainerRunning : bool
}.

Definition repairSummary (s : xraySNIState) : string :=
  if negb (RepositoryExists s) then "xray-sni repository is not installed"
  else if negb (RemoteMatches s) || negb (RefMatches s) || negb (WorktreeClean s) then "xray-sni repository revision requires update"
  else if negb (ComposeExists s) then "xray-sni Compose project is incomplete"
  else if negb (DeployedCommitMatches s) then "xray-sni container image requires a pinned rebuild"
  else if negb (EnvironmentMatches s) then "xray-sni external mode configuration requires update"
  else if negb (FullchainMatches s) || negb (PrivateKeyMatches s) then "xray-sni certificate material requires update"
  else if negb (PermissionsMatch s) then "xray-sni certificate permissions require repair"
  else if negb (ContainerExists s) || negb (ContainerRunning s) then "xray-sni container requires start or repair"
  else "".

Definition state_fields : list string :=
  ["repository_exists"; "remote_matches"; "ref_matches"; "worktree_clean"; "compose_exists"; "deployed_commit_matches";
   "environment_matches"; "fullchain_matches"; "private_key_matches"; "permissions_match"; "container_exists"; "container_running"].

Definition parse_state (output : string) : option xraySNIState :=
  values ← parseKeyValues output;
  parsed ← mapM (fun field => ParseBool (value_of values field)) state_fields;
  match parsed with
  | [p0; p1; p2; p3; p4; p5; p6; p7; p8; p9; p10; p11] => Some (mkXraySNIState p0 p1 p2 p3 p4 p5 p6 p7 p8 p9 p10 p11)
  | _ => None
  end.

Section Installer.
Context `{X509} {printable_rune : UnicodePrint}.

Definition xraySNIHealthcheckCommand (domain : string) : string :=
  Sprintf (raw "# xray-sni:healthcheck
domain=%s
code=$(curl --silent --show-error --output /dev/null --write-out '%%{http_code}' --resolve `$domain:%d:127.0.0.1` --cacert /opt/xray-sni/certs/fullchain.pem `https://$domain:%d/health`)
test `$code` = 200") [FStr (quoted domain); FInt xraySNIPort; FInt xraySNIPort].

Definition NewExternalXraySNIInstaller (config : ExternalXraySNIConfig) (material : Material)
    : prog vpsE (result stageErr ExternalXraySNIInstaller) :=
  if negb (validExternalXraySNIConfig config) then mret (Err ErrInvalidXraySNIConfiguration)
  else
    let config := mkExternalXraySNIConfig (xc_RepositoryURL config) (xc_Ref config) (xc_SNIDomain config)
      (if xc_Timeout config <=? 0 then 5 * Minute else xc_Timeout config) in
    now ← call VpsNow;
    mret match validateCertificateMaterial (Clone material) (xc_SNIDomain config) now with
    | Some e => Err e
    | None => Ok (mkExternalXraySNIInstaller config (Clone material))
    end.

Definition Destroy (a : ExternalXraySNIInstaller) : ExternalXraySNIInstaller :=
  mkExternalXraySNIInstaller (xa_config a) (CertTypes.Destroy (xa_material a)).

Context (a : ExternalXraySNIInstaller).
#[local] Notation config := (xa_config a).
#[local] Notation material := (xa_material a).

Definition environment : bytes :=
  bytes_of (Sprintf "TLS_MODE=external
SNI_DOMAIN=%s
SNI_PORT=%d
" [FStr (xc_SNIDomain config); FInt xraySNIPort]).

(** [runSafe] on the caller's context or on a detached one. *)
Definition runSafe (detached : bool) (command : string) (safeError : stageErr) : prog vpsE (option stageErr) :=
  result ← call (RunCommand detached command [] (xc_Timeout config));
  match result with
  | Some _ => mret None
  | None =>
    over ← call (VpsCtxDone detached);
    mret (Some (if (over : bool) then StageContext else safeError))
  end.

Definition inspect_command : string :=
  Sprintf (raw "# xray-sni:inspect
directory=/opt/xray-sni
repository_exists=false
remote_matches=false
ref_matches=false
worktree_clean=false
compose_exists=false
deployed_commit_matches=false
environment_matches=false
fullchain_matches=false
private_key_matches=false
permissions_match=false
container_exists=false
container_running=false
if [ -d `$directory/.git` ]; then
    repository_exists=true
    [ `$(git -C `$directory` remote get-url origin 2>/dev/null)` = %s ] && remote_matches=true
    expected=$(git -C `$directory` rev-parse --verify %s'^{commit}' 2>/dev/null || true)
    actual=$(git -C `$directory` rev-parse --verify HEAD 2>/dev/null || true)
    [ -n `$expected` ] && [ `$actual` = `$expected` ] && ref_matches=true
    git -C `$directory` diff --quiet && git -C `$directory` diff --cached --quiet && worktree_clean=true
fi
[ -f `$directory/docker-compose.yml` ] && [ -f `$directory/Caddyfile.external` ] && [ -f `$directory/Dockerfile` ] && compose_exists=true
[ -n `$actual` ] && [ `$(cat `$directory/.deployed-commit` 2>/dev/null)` = `$actual` ] && deployed_commit_matches=true
[ `$(sha256sum `$directory/.env` 2>/dev/null | cut -d' ' -f1)` = %s ] && environment_matches=true
[ `$(sha256sum `$directory/certs/fullchain.pem` 2>/dev/null | cut -d' ' -f1)` = %s ] && fullchain_matches=true
[ `$(sha256sum `$directory/certs/privkey.pem` 2>/dev/null | cut -d' ' -f1)` = %s ] && private_key_matches=true
[ `$(stat -c '%%U:%%G:%%a' `$directory/certs` 2>/dev/null)` = 'root:root:755' ] && [ `$(stat -c '%%U:%%G:%%a' `$directory/certs/fullchain.pem` 2>/dev/null)` = 'root:root:644' ] && [ `$(stat -c '%%U:%%G:%%a' `$directory/certs/privkey.pem` 2>/dev/null)` = 'root:root:600' ] && permissions_match=true
docker inspect snisite >/dev/null 2>&1 && container_exists=true
[ `$(docker inspect -f '{{.State.Running}}' snisite 2>/dev/null)` = true ] && container_running=true
printf 'repository_exists=%%s\nremote_matches=%%s\nref_matches=%%s\nworktree_clean=%%s\ncompose_exists=%%s\ndeployed_commit_matches=%%s\nenvironment_matches=%%s\nfullchain_matches=%%s\nprivate_key_matches=%%s\npermissions_match=%%s\ncontainer_exists=%%s\ncontainer_running=%%s\n' `$repository_exists` `$remote_matches` `$ref_matches` `$worktree_clean` `$compose_exists` `$deployed_commit_matches` `$environment_matches` `$fullchain_matches` `$private_key_matches` `$permissions_match` `$container_exists` `$container_running`") [FStr (quoted (xc_RepositoryURL config)); FStr (quoted (xc_Ref config)); FStr (sha256_hex environment);
    FStr (sha256_hex (FullchainPEM material)); FStr (sha256_hex (PrivateKeyPEM material))].

Definition inspectState : prog vpsE (result stageErr xraySNIState) :=
  result ← call (RunCommand false inspect_command [] (xc_Timeout config));
  match result with
  | None =>
    over ← call (VpsCtxDone false);
    mret (Err (if (over : bool) then StageContext else ErrXraySNIInspectionFailed))
  | Some stdout =>
    mret match parse_state stdout with Some state => Ok state | None => Err ErrXraySNIInspectionFailed end
  end.

Definition repository_command : string :=
  Sprintf (raw "# xray-sni:repository
set -eu
repository=%s
ref=%s
directory=/opt/xray-sni
install -d -m 0755 /opt
if [ ! -e `$directory` ]; then
    git clone --no-checkout -- `$repository` `$directory`
elif [ ! -d `$directory/.git` ]; then
    exit 2
fi
current_remote=$(git -C `$directory` remote get-url origin)
if [ `$current_remote` != `$repository` ]; then git -C `$directory` remote set-url origin `$repository`; fi
case `$ref` in
    [0-9a-fA-F][0-9a-fA-F][0-9a-fA-F][0-9a-fA-F][0-9a-fA-F][0-9a-fA-F][0-9a-fA-F][0-9a-fA-F][0-9a-fA-F][0-9a-fA-F][0-9a-fA-F][0-9a-fA-F][0-9a-fA-F][0-9a-fA-F][0-9a-fA-F][0-9a-fA-F][0-9a-fA-F][0-9a-fA-F][0-9a-fA-F][0-9a-fA-F][0-9a-fA-F][0-9a-fA-F][0-9a-fA-F][0-9a-fA-F][0-9a-fA-F][0-9a-fA-F][0-9a-fA-F][0-9a-fA-F][0-9a-fA-F][0-9a-fA-F][0-9a-fA-F][0-9a-fA-F][0-9a-fA-F][0-9a-fA-F][0-9a-fA-F][0-9a-fA-F][0-9a-fA-F][0-9a-fA-F][0-9a-fA-F][0-9a-fA-F])
        git -C `$directory` fetch --force origin `$ref`
        expected=`$ref`
        ;;
    *)
        git -C `$directory` fetch --force origin `refs/tags/$ref:refs/tags/$ref`
        expected=$(git -C `$directory` rev-parse --verify `refs/tags/$ref^{commit}`)
        ;;
esac
git -C `$directory` checkout --detach --force `$expected`") [FStr (quoted (xc_RepositoryURL config)); FStr (quoted (xc_Ref config))].

Definition ensureRepository : prog vpsE (option stageErr) := runSafe false repository_command ErrXraySNIInstallationFailed.

Definition writeManagedFile (file : managedFile) : prog vpsE (option stageErr) :=
  r ← writeFile (mkRemoteStage "" (xc_Timeout config) [] "" "" "") file;
  mret match r with Some _ => Some ErrXraySNIInstallationFailed | None => None end.

Definition staged_fullchain : managedFile :=
  mkManagedFile (xraySNIInstallDirectory +:+ "/certs/fullchain.pem.new") "0644" (FullchainPEM material).
Definition staged_private_key : managedFile :=
  mkManagedFile (xraySNIInstallDirectory +:+ "/certs/privkey.pem.new") "0600" (PrivateKeyPEM material).

Definition stageAndActivateCertificates : prog vpsE (option stageErr) :=
  runSafe false certificate_directory_command ErrXraySNIInstallationFailed ;;?
  writeManagedFile staged_fullchain ;;?
  writeManagedFile staged_private_key ;;?
  runSafe false activate_command ErrXraySNIInstallationFailed.

Definition ensureCertificatePermissions : prog vpsE (option stageErr) :=
  runSafe false permissions_command ErrXraySNIInstallationFailed.

Definition cleanupPreviousCertificates : prog vpsE (option stageErr) :=
  runSafe false cleanup_command ErrXraySNIValidationFailed.

Definition rollbackCertificates (detached : bool) : prog vpsE (option stageErr) :=
  runSafe detached rollback_command ErrXraySNIValidationFailed.

Definition composeConfig : prog vpsE (option stageErr) := runSafe false compose_config_command ErrXraySNIValidationFailed.

Definition recordDeployedCommit : prog vpsE (option stageErr) :=
  runSafe false record_commit_command ErrXraySNIInstallationFailed.

Definition reload (detached : bool) : prog vpsE (option stageErr) := runSafe detached reload_command ErrXraySNIValidationFailed.

Definition runtime_commands : list string :=
  [compose_config_command; container_command; caddy_validate_command; xraySNIHealthcheckCommand (xc_SNIDomain config)].

Fixpoint run_all (detached : bool) (commands : list string) : prog vpsE (option stageErr) :=
  match commands with
  | [] => mret None
  | command :: commands' => runSafe detached command ErrXraySNIValidationFailed ;;? run_all detached commands'
  end.

Definition validateRuntime (detached : bool) : prog vpsE (option stageErr) := run_all detached runtime_commands.

(** ** The installer of the stage engine *)
Definition Inspect : prog vpsE (result stageErr Inspection) :=
  state ← inspectState;
  match state with
  | Err e => mret (Err e)
  | Ok state =>
    if negb (String.eqb (repairSummary state) "") then mret (Ok (mkInspection false (repairSummary state)))
    else
      runtime ← validateRuntime false;
      match runtime with
      | None => mret (Ok (mkInspection true "xray-sni external mode is healthy"))
      | Some _ =>
        over ← call (VpsCtxDone false);
        mret (if (over : bool) then Err StageContext else Ok (mkInspection false "xray-sni runtime requires repair"))
      end
  end.

Definition repository_changed (s : xraySNIState) : bool :=
  negb (RepositoryExists s) || negb (RemoteMatches s) || negb (RefMatches s) || negb (WorktreeClean s) || negb (ComposeExists s).

(** The changes [Install] makes after it looked at the state. *)
Definition install_certificates (s : xraySNIState) : prog vpsE (option stageErr) :=
  if negb (FullchainMatches s) || negb (PrivateKeyMatches s) then stageAndActivateCertificates
  else if negb (PermissionsMatch s) then ensureCertificatePermissions
  else mret None.

Definition install_service (s : xraySNIState) : prog vpsE (option stageErr) :=
  if repository_changed s || negb (DeployedCommitMatches s) then
    runSafe false compose_build_command ErrXraySNIInstallationFailed ;;? recordDeployedCommit
  else if negb (EnvironmentMatches s) || (negb (ContainerExists s) || negb (ContainerRunning s)) then
    runSafe false compose_up_command ErrXraySNIInstallationFailed
  else if negb (FullchainMatches s) || negb (PrivateKeyMatches s) then reload false
  else if PermissionsMatch s then reload false
  else mret None.

Definition environment_file : managedFile := mkManagedFile (xraySNIInstallDirectory +:+ "/.env") "0600" environment.

Definition Install : prog vpsE (option stageErr) :=
  now ← call VpsNow;
  match validateCertificateMaterial material (xc_SNIDomain config) now with
  | Some e => mret (Some e)
  | None =>
    state ← inspectState;
    match state with
    | Err e => mret (Some e)
    | Ok s =>
      (if repository_changed s then ensureRepository else mret None) ;;?
      (if negb (EnvironmentMatches s) then writeManagedFile environment_file else mret None) ;;?
      install_certificates s ;;?
      composeConfig ;;?
      install_service s
    end
  end.

Definition Validate : prog vpsE (option stageErr) :=
  state ← inspectState;
  match state with
  | Err _ => mret (Some ErrXraySNIValidationFailed)
  | Ok s =>
    if negb (String.eqb (repairSummary s) "") then mret (Some ErrXraySNIValidationFailed)
    else validateRuntime false ;;? cleanupPreviousCertificates
  end.

(** ** The update of the certificate *)
Definition rollbackFailedCertificateActivation : prog vpsE (option stageErr) :=
  rolled ← rollbackCertificates true;
  match rolled with
  | Some _ => mret (Some ErrXraySNIValidationFailed)
  | None =>
    reloaded ← reload true;
    match reloaded with
    | Some _ => mret (Some ErrXraySNIValidationFailed)
    | None => _ ← validateRuntime true; mret (Some ErrXraySNIValidationFailed)
    end
  end.

(** What follows the switch of the files: both branches of [UpdateCertificate]. *)
Definition reload_or_rollback : prog vpsE (option stageErr) :=
  reloaded ← reload false;
  match reloaded with
  | Some _ => rollbackFailedCertificateActivation
  | None =>
    runtime ← validateRuntime false;
    match runtime with
    | None => cleanupPreviousCertificates
    | Some _ => rollbackFailedCertificateActivation
    end
  end.

Definition updatable (s : xraySNIState) : bool :=
  RepositoryExists s && RemoteMatches s && RefMatches s && WorktreeClean s && ComposeExists s && DeployedCommitMatches s &&
  EnvironmentMatches s && ContainerExists s && ContainerRunning s.

Definition UpdateCertificate : prog vpsE (option stageErr) :=
  now ← call VpsNow;
  match validateCertificateMaterial material (xc_SNIDomain config) now with
  | Some e => mret (Some e)
  | None =>
    state ← inspectState;
    match state with
    | Err e => mret (Some e)
    | Ok s =>
      if negb (updatable s) then mret (Some ErrXraySNIValidationFailed)
      else if FullchainMatches s && PrivateKeyMatches s then
        (if negb (PermissionsMatch s) then ensureCertificatePermissions else mret None) ;;? reload_or_rollback
      else stageAndActivateCertificates ;;? reload_or_rollback
    end
  end.

(** ** The switch to another domain *)
Definition switchable (s : xraySNIState) : bool :=
  RepositoryExists s && RemoteMatches s && RefMatches s && WorktreeClean s && ComposeExists s && DeployedCommitMatches s &&
  ContainerExists s && ContainerRunning s.

Definition switch_env_new : managedFile :=
  mkManagedFile (xraySNIInstallDirectory +:+ "/.env.sni-new") "0600" environment.
Definition switch_fullchain_new : managedFile :=
  mkManagedFile (xraySNIInstallDirectory +:+ "/certs/fullchain.pem.sni-new") "0644" (FullchainPEM material).
Definition switch_private_key_new : managedFile :=
  mkManagedFile (xraySNIInstallDirectory +:+ "/certs/privkey.pem.sni-new") "0600" (PrivateKeyPEM material).
Definition switch_files : list managedFile := [switch_env_new; switch_fullchain_new; switch_private_key_new].

Fixpoint write_managed_files (files : list managedFile) : prog vpsE (option stageErr) :=
  match files with
  | [] => mret None
  | file :: files' => writeManagedFile file ;;? write_managed_files files'
  end.

Definition switch_command (previousDomain : string) : string :=
  Sprintf (raw "# xray-sni:switch-sni
set -eu
cd /opt/xray-sni
backup=.sni-switch-previous
test ! -e `$backup`
test -f .env
test -f certs/fullchain.pem
test -f certs/privkey.pem
test -f .env.sni-new
test -f certs/fullchain.pem.sni-new
test -f certs/privkey.pem.sni-new
install -d -o root -g root -m 0700 `$backup`
committed=false
rollback() {
    committed=true
    if [ -f `$backup/env` ]; then rm -f .env; mv `$backup/env` .env; fi
    if [ -f `$backup/fullchain.pem` ]; then rm -f certs/fullchain.pem; mv `$backup/fullchain.pem` certs/fullchain.pem; fi
    if [ -f `$backup/privkey.pem` ]; then rm -f certs/privkey.pem; mv `$backup/privkey.pem` certs/privkey.pem; fi
    rm -f .env.sni-new certs/fullchain.pem.sni-new certs/privkey.pem.sni-new
    chown root:root .env certs/fullchain.pem certs/privkey.pem
    chmod 0600 .env certs/privkey.pem
    chmod 0644 certs/fullchain.pem
    docker compose up -d --remove-orphans
    old_domain=%s
    old_code=$(curl --silent --show-error --output /dev/null --write-out '%%{http_code}' --resolve `$old_domain:%d:127.0.0.1` --cacert certs/fullchain.pem `https://$old_domain:%d/health`)
    test `$old_code` = 200
    rmdir `$backup`
}
trap 'if [ `$committed` != true ]; then rollback || true; fi' EXIT HUP INT TERM
mv .env `$backup/env`
mv certs/fullchain.pem `$backup/fullchain.pem`
mv certs/privkey.pem `$backup/privkey.pem`
mv .env.sni-new .env
mv certs/fullchain.pem.sni-new certs/fullchain.pem
mv certs/privkey.pem.sni-new certs/privkey.pem
chown root:root .env certs/fullchain.pem certs/privkey.pem
chmod 0600 .env certs/privkey.pem
chmod 0644 certs/fullchain.pem
docker compose config >/dev/null
docker compose up -d --remove-orphans
new_domain=%s
new_code=$(curl --silent --show-error --output /dev/null --write-out '%%{http_code}' --resolve `$new_domain:%d:127.0.0.1` --cacert certs/fullchain.pem `https://$new_domain:%d/health` || true)
if [ `$new_code` != 200 ]; then
    exit 1
fi
rm -f `$backup/env` `$backup/fullchain.pem` `$backup/privkey.pem`
rmdir `$backup`
committed=true
trap - EXIT HUP INT TERM") [FStr (quoted previousDomain); FInt xraySNIPort; FInt xraySNIPort; FStr (quoted (xc_SNIDomain config)); FInt xraySNIPort; FInt xraySNIPort].

Definition SwitchSNI (previousDomain : string) : prog vpsE (option stageErr) :=
  let previousDomain := TrimSpace previousDomain in
  if negb (validSNIDomain previousDomain) || EqualFold previousDomain (xc_SNIDomain config)
  then mret (Some ErrInvalidXraySNIConfiguration)
  else
    now ← call VpsNow;
    match validateCertificateMaterial material (xc_SNIDomain config) now with
    | Some e => mret (Some e)
    | None =>
      state ← inspectState;
      match state with
      | Err e => mret (Some e)
      | Ok s =>
        if negb (switchable s) then mret (Some ErrXraySNIValidationFailed)
        else
          write_managed_files switch_files ;;?
          runSafe false (switch_command previousDomain) ErrXraySNIValidationFailed ;;?
          Validate
      end
    end.

Definition installer : XraySNIInstaller := mkXraySNIInstaller Inspect Install Validate.
End Installer.

(** ** The legacy installation ([SwitchLegacyXraySNI]) *)
Section Legacy.
Context {printable_rune : UnicodePrint}.

Definition legacyXraySNIInstallDirectory : string := "/root/xray-sni".

Definition legacy_command (previousDomain targetDomain : string) : string :=
  Sprintf (raw "# xray-sni:switch-legacy-sni
set -eu
cd /root/xray-sni
test -f .env
test -f Caddyfile
test -f docker-compose.yml || test -f compose.yml
backup=.env.sni-switch-previous
test ! -e `$backup`
cp -p .env `$backup`
committed=false
rollback() {
    if [ -f `$backup` ]; then
        mv -f `$backup` .env
        docker compose up -d --remove-orphans >/dev/null
        old_domain=%s
        old_code=$(curl --silent --show-error --output /dev/null --write-out '%%{http_code}' --resolve `$old_domain:%d:127.0.0.1` `https://$old_domain:%d/health` || true)
        test `$old_code` = 200
    fi
}
trap 'if [ `$committed` != true ]; then rollback || true; fi' EXIT HUP INT TERM
new_domain=%s
temporary=$(mktemp .env.sni-new.XXXXXX)
awk -v domain=`$new_domain` '
BEGIN { found=0 }
/^SNI_DOMAIN=/ { print `SNI_DOMAIN=\`` domain `\``; found=1; next }
{ print }
END { if (!found) print `SNI_DOMAIN=\`` domain `\`` }
' .env > `$temporary`
chmod --reference=.env `$temporary`
chown --reference=.env `$temporary`
mv -f `$temporary` .env
docker compose config >/dev/null
docker compose up -d --remove-orphans >/dev/null
new_code=000
attempt=0
while [ `$attempt` -lt 30 ]; do
    new_code=$(curl --silent --show-error --output /dev/null --write-out '%%{http_code}' --resolve `$new_domain:%d:127.0.0.1` `https://$new_domain:%d/health` || true)
    [ `$new_code` = 200 ] && break
    attempt=$((attempt + 1))
    sleep 5
done
test `$new_code` = 200
rm -f `$backup`
committed=true
trap - EXIT HUP INT TERM") [FStr (quoted previousDomain); FInt xraySNIPort; FInt xraySNIPort; FStr (quoted targetDomain); FInt xraySNIPort; FInt xraySNIPort].

Definition SwitchLegacyXraySNI (previousDomain targetDomain : string) (timeout : Z) : prog vpsE (option stageErr) :=
  let previousDomain := TrimSpace previousDomain in
  let targetDomain := TrimSpace targetDomain in
  if (timeout <=? 0) || negb (validSNIDomain previousDomain) || negb (validSNIDomain targetDomain) ||
     EqualFold previousDomain targetDomain
  then mret (Some ErrInvalidXraySNIConfiguration)
  else
    result ← call (RunCommand false (legacy_command previousDomain targetDomain) [] timeout);
    match result with
    | Some _ => mret None
    | None =>
      over ← call (VpsCtxDone false);
      mret (Some (if (over : bool) then StageContext else ErrXraySNIValidationFailed))
    end.
End Legacy.
