(* ===== verification/XrayScripts.v ===== *)
(** * The scripts of the xray-sni service

    The shell scripts of internal/provisioner that move the files of the
    service, as programs over the files of the VPS.  Every command may fail;
    under [set -e] a failure ends the script ([;;!]), and the script may also
    be cut off before any command ([crashes] of Effects.v).  A move is the
    rename of one file inside a file system: it happens or it does not.
    Ownership and modes are not tracked; commands that do not touch the files
    named here are [Other]. *)

From S2P Require Import Prelude GoStrings Effects GoFmt Certificates Remote XraySni.

#[local] Open Scope Z_scope.

(** ** Shell commands

    [Mktemp] answers the fresh name, [Receive] copies standard input to a
    file, [Rewrite] writes a changed copy of a file, and [HttpCode] is the
    code [curl] prints for the health address of a domain. *)
Inductive shE : Type -> Type :=
  | TestFile (p : string) : shE bool
  | TestExists (p : string) : shE bool
  | TestDir (p : string) : shE bool
  | InstallDir (p : string) : shE bool
  | Move (p q : string) : shE bool
  | Copy (p q : string) : shE bool
  | Remove (p : string) : shE bool
  | RemoveDir (p : string) : shE bool
  | Mktemp (directory : string) : shE (option string)
  | Receive (p : string) (content : bytes) : shE bool
  | Compare (p q : string) : shE bool
  | Rewrite (p q : string) : shE bool
  | HttpCode (domain : string) : shE string
  | Other (text : string) : shE bool.

(** A script answers whether its exit status is 0. *)
Definition script : Type := prog shE bool.

(** One command under [set -e]. *)
Definition must (m k : script) : script := pbind (fun ok : bool => if ok then k else Ret false) m.
Notation "m ;;! k" := (must m k) (at level 100, k at level 200, right associativity).

Definition sh (e : shE bool) : script := call e.
Definition negated (m : script) : script := negb <$> m.
Definition exit (status : bool) : script := mret status.

(** A command whose failure is not looked at. *)
Definition quietly (m k : script) : script := pbind (fun _ : bool => k) m.

(** [rm -f] of several files goes on after a failure. *)
Fixpoint remove_all (l : list string) : script :=
  match l with
  | [] => mret true
  | p :: l' => removed ← sh (Remove p); rest ← remove_all l'; mret (removed && rest)
  end.

(** ** Writing a managed file (remote.go) *)
Definition write_script (directory target : string) (content : bytes) : script :=
  sh (InstallDir directory) ;;!
  temporary ← call (Mktemp (directory +:+ "/.provisioner."));
  match temporary with
  | None => exit false
  | Some temporary =>
    (* the status, and whether the trap that removes the temporary file is still set *)
    '(status, trapped) ← (
      received ← sh (Receive temporary content);
      if negb received then mret (false, true)
      else
        moded ← sh (Other "chmod");
        if negb moded then mret (false, true)
        else
          present ← sh (TestFile target);
          same ← (if (present : bool) then sh (Compare temporary target) else mret false);
          if (same : bool) then mret (true, true)
          else moved ← sh (Move temporary target); mret (moved, negb moved));
    _ ← (if (trapped : bool) then sh (Remove temporary) else mret true);
    exit status
  end.

(** ** The certificate files *)
Definition certs : string := "/opt/xray-sni/certs".
Definition fullchain : string := "/opt/xray-sni/certs/fullchain.pem".
Definition privkey : string := "/opt/xray-sni/certs/privkey.pem".
Definition fullchain_new : string := "/opt/xray-sni/certs/fullchain.pem.new".
Definition privkey_new : string := "/opt/xray-sni/certs/privkey.pem.new".
Definition certificate_previous : string := "/opt/xray-sni/certs/.certificate-previous".
Definition previous_fullchain : string := "/opt/xray-sni/certs/.certificate-previous/fullchain.pem".
Definition previous_privkey : string := "/opt/xray-sni/certs/.certificate-previous/privkey.pem".

(** [if [ -f p ]; then mv p q; had=true; fi]. *)
Definition set_aside (p q : string) (k : bool -> script) : script :=
  present ← sh (TestFile p);
  if (present : bool) then sh (Move p q) ;;! k true else k false.

Definition activate_script : script :=
  sh (Other "cd /opt/xray-sni/certs") ;;!
  sh (TestFile fullchain_new) ;;!
  sh (TestFile privkey_new) ;;!
  negated (sh (TestExists certificate_previous)) ;;!
  sh (InstallDir certificate_previous) ;;!
  set_aside fullchain previous_fullchain (fun had_fullchain =>
  set_aside privkey previous_privkey (fun had_private_key =>
    moved ← (sh (Move fullchain_new fullchain) ;;! sh (Move privkey_new privkey) ;;!
             sh (Other "chown root:root fullchain.pem privkey.pem") ;;! sh (Other "chmod 0644 fullchain.pem") ;;!
             sh (Other "chmod 0600 privkey.pem"));
    if (moved : bool) then exit true
    else
      (if had_fullchain : bool then sh (Move previous_fullchain fullchain) else sh (Remove fullchain)) ;;!
      (if had_private_key : bool then sh (Move previous_privkey privkey) else sh (Remove privkey)) ;;!
      remove_all [previous_fullchain; previous_privkey; fullchain_new; privkey_new] ;;!
      sh (RemoveDir certificate_previous) ;;!
      exit false)).

(** No [set -e]: the status is that of the last command. *)
Definition cleanup_script : script :=
  present ← sh (TestDir certificate_previous);
  if (present : bool) then
    quietly (remove_all [previous_fullchain; previous_privkey]) (sh (RemoveDir certificate_previous))
  else exit true.

Definition rollback_script : script :=
  sh (Other "cd /opt/xray-sni/certs") ;;!
  sh (TestDir certificate_previous) ;;!
  sh (TestFile previous_fullchain) ;;!
  sh (TestFile previous_privkey) ;;!
  remove_all [fullchain; privkey; fullchain_new; privkey_new] ;;!
  sh (Move previous_fullchain fullchain) ;;!
  sh (Move previous_privkey privkey) ;;!
  sh (Other "chown root:root fullchain.pem privkey.pem") ;;!
  sh (Other "chmod 0644 fullchain.pem") ;;!
  sh (Other "chmod 0600 privkey.pem") ;;!
  sh (RemoveDir certificate_previous).

(** ** The switch of the domain *)
Definition env_file : string := "/opt/xray-sni/.env".
Definition env_sni_new : string := "/opt/xray-sni/.env.sni-new".
Definition fullchain_sni_new : string := "/opt/xray-sni/certs/fullchain.pem.sni-new".
Definition privkey_sni_new : string := "/opt/xray-sni/certs/privkey.pem.sni-new".
Definition switch_previous : string := "/opt/xray-sni/.sni-switch-previous".
Definition switch_env : string := "/opt/xray-sni/.sni-switch-previous/env".
Definition switch_fullchain : string := "/opt/xray-sni/.sni-switch-previous/fullchain.pem".
Definition switch_privkey : string := "/opt/xray-sni/.sni-switch-previous/privkey.pem".

(** [if [ -f p ]; then rm -f q; mv p q; fi], errors ignored. *)
Definition put_back (p q : string) (k : script) : script :=
  present ← sh (TestFile p);
  if (present : bool) then quietly (sh (Remove q)) (quietly (sh (Move p q)) k) else k.

(** [rollback || true]: no command of the function ends it. *)
Definition switch_rollback (old_domain : string) : script :=
  put_back switch_env env_file (
  put_back switch_fullchain fullchain (
  put_back switch_privkey privkey (
  quietly (remove_all [env_sni_new; fullchain_sni_new; privkey_sni_new]) (
  quietly (sh (Other "chown root:root .env certs/fullchain.pem certs/privkey.pem")) (
  quietly (sh (Other "chmod 0600 .env certs/privkey.pem")) (
  quietly (sh (Other "chmod 0644 certs/fullchain.pem")) (
  quietly (sh (Other "docker compose up -d --remove-orphans")) (
  old_code ← call (HttpCode old_domain);
  sh (RemoveDir switch_previous))))))))).

(** What runs under the trap. *)
Definition switch_body (new_domain : string) : script :=
  sh (Move env_file switch_env) ;;!
  sh (Move fullchain switch_fullchain) ;;!
  sh (Move privkey switch_privkey) ;;!
  sh (Move env_sni_new env_file) ;;!
  sh (Move fullchain_sni_new fullchain) ;;!
  sh (Move privkey_sni_new privkey) ;;!
  sh (Other "chown root:root .env certs/fullchain.pem certs/privkey.pem") ;;!
  sh (Other "chmod 0600 .env certs/privkey.pem") ;;!
  sh (Other "chmod 0644 certs/fullchain.pem") ;;!
  sh (Other "docker compose config") ;;!
  sh (Other "docker compose up -d --remove-orphans") ;;!
  new_code ← call (HttpCode new_domain);
  if negb (String.eqb new_code "200") then exit false
  else remove_all [switch_env; switch_fullchain; switch_privkey] ;;! sh (RemoveDir switch_previous).

Definition switch_script (old_domain new_domain : string) : script :=
  sh (Other "cd /opt/xray-sni") ;;!
  negated (sh (TestExists switch_previous)) ;;!
  sh (TestFile env_file) ;;!
  sh (TestFile fullchain) ;;!
  sh (TestFile privkey) ;;!
  sh (TestFile env_sni_new) ;;!
  sh (TestFile fullchain_sni_new) ;;!
  sh (TestFile privkey_sni_new) ;;!
  sh (InstallDir switch_previous) ;;!
  committed ← switch_body new_domain;
  if (committed : bool) then exit true else quietly (switch_rollback old_domain) (exit false).

(** ** The legacy installation (xray_sni_legacy.go) *)
Definition legacy_env : string := "/root/xray-sni/.env".
Definition legacy_previous : string := "/root/xray-sni/.env.sni-switch-previous".

Definition legacy_rollback (old_domain : string) : script :=
  present ← sh (TestFile legacy_previous);
  if (present : bool) then
    quietly (sh (Move legacy_previous legacy_env)) (
    quietly (sh (Other "docker compose up -d --remove-orphans")) (
    old_code ← call (HttpCode old_domain);
    exit (String.eqb old_code "200")))
  else exit true.

(** The loop: at most [attempts] more requests, five seconds apart. *)
Fixpoint wait_healthy (attempts : nat) (new_domain new_code : string) : prog shE string :=
  match attempts with
  | O => mret new_code
  | S attempts' =>
    code ← call (HttpCode new_domain);
    if String.eqb code "200" then mret code
    else slept ← sh (Other "sleep 5"); if (slept : bool) then wait_healthy attempts' new_domain code else mret ""
  end.

Definition legacy_body (new_domain : string) : script :=
  temporary ← call (Mktemp "/root/xray-sni/.env.sni-new.");
  match temporary with
  | None => exit false
  | Some temporary =>
    sh (Rewrite legacy_env temporary) ;;!
    sh (Other "chmod --reference=.env") ;;!
    sh (Other "chown --reference=.env") ;;!
    sh (Move temporary legacy_env) ;;!
    sh (Other "docker compose config") ;;!
    sh (Other "docker compose up -d --remove-orphans") ;;!
    new_code ← wait_healthy 30 new_domain "000";
    if negb (String.eqb new_code "200") then exit false else sh (Remove legacy_previous)
  end.

Definition legacy_script (old_domain new_domain : string) : script :=
  sh (Other "cd /root/xray-sni") ;;!
  sh (TestFile legacy_env) ;;!
  sh (TestFile "/root/xray-sni/Caddyfile") ;;!
  composed ← sh (TestFile "/root/xray-sni/docker-compose.yml");
  (if (composed : bool) then mret true else sh (TestFile "/root/xray-sni/compose.yml")) ;;!
  negated (sh (TestExists legacy_previous)) ;;!
  sh (Copy legacy_env legacy_previous) ;;!
  committed ← legacy_body new_domain;
  if (committed : bool) then exit true else quietly (legacy_rollback old_domain) (exit false).
