(* ===== verification/XrayWorld.v ===== *)
(** * The VPS of the xray-sni service

    The files the scripts of XrayScripts.v work on, what the shell commands
    may do to them, and what the commands of the installer do to the VPS: a
    script the program sends runs to the end with status 0 when the program
    sees it succeed, and has been cut off anywhere, or was never started, when
    it sees an error. *)

From S2P Require Import Prelude GoStrings Utf8 Effects GoFmt CertTypes Certificates GoURL Remote XraySni XrayScripts.

#[local] Open Scope Z_scope.

(** The files and directories; and, as ghost state, the domains whose health
    address has answered 200, whether the active certificate files have been
    reloaded, and whether the health check passed, since they last changed. *)
Record World : Type := mkWorld {
  files : gmap string bytes;
  dirs : gset string;
  answered : gset string;
  reloaded : bool;
  confirmed : bool;
  restored : bool
}.

Definition with_files (f : gmap string bytes) (w : World) : World := mkWorld f (dirs w) (answered w) (reloaded w) (confirmed w) (restored w).
Definition with_dirs (d : gset string) (w : World) : World := mkWorld (files w) d (answered w) (reloaded w) (confirmed w) (restored w).
Definition with_answered (d : gset string) (w : World) : World := mkWorld (files w) (dirs w) d (reloaded w) (confirmed w) (restored w).
Definition with_checks (r c b : bool) (w : World) : World := mkWorld (files w) (dirs w) (answered w) r c b.

Definition present (p : string) (w : World) : bool := bool_decide (is_Some (files w !! p)).

(** The directory of a path. *)
Definition parent (p : string) : string := match cut_last "/" p with Some (d, _) => d | None => "" end.

(** The file [q] can be created. *)
Definition creatable (q : string) (w : World) : Prop := parent q ∈ dirs w.

(** ** The shell commands *)
Definition ShEnv : Env shE World := fun X e w x w' =>
  match e in shE X return X -> Prop with
  | TestFile p => fun x => w' = w /\ x = present p w
  | TestExists p => fun x => w' = w /\ x = present p w || bool_decide (p ∈ dirs w)
  | TestDir p => fun x => w' = w /\ x = bool_decide (p ∈ dirs w)
  | InstallDir p => fun x => exists d, w' = with_dirs d w /\ dirs w ⊆ d /\ (x = true -> p ∈ d) /\
      forall q, q ∈ d -> q ∈ dirs w \/ HasPrefix p q = true
  | Move p q => fun x =>
      if x then exists c, files w !! p = Some c /\ creatable q w /\ w' = with_files (<[q := c]> (delete p (files w))) w
      else w' = w
  | Copy p q => fun x =>
      if x then exists c, files w !! p = Some c /\ creatable q w /\ w' = with_files (<[q := c]> (files w)) w
      else w' = w \/ (exists c, creatable q w /\ w' = with_files (<[q := c]> (files w)) w)
  | Remove p => fun x => w' = if x then with_files (delete p (files w)) w else w
  | RemoveDir p => fun x =>
      if x then p ∈ dirs w /\ (forall f, parent f = p -> files w !! f = None) /\ w' = with_dirs (dirs w ∖ {[p]}) w
      else w' = w
  | Mktemp prefix => fun x =>
      match x with
      | Some t => HasPrefix t prefix = true /\ parent t = parent prefix /\ creatable t w /\ files w !! t = None /\
          w' = with_files (<[t := []]> (files w)) w
      | None => w' = w
      end
  | Receive p content => fun x =>
      if x then creatable p w /\ w' = with_files (<[p := content]> (files w)) w
      else w' = w \/ (exists c, creatable p w /\ w' = with_files (<[p := c]> (files w)) w)
  | Compare p q => fun x => w' = w /\ (x = true -> files w !! p = files w !! q)
  | Rewrite p q => fun x => w' = w \/ (exists c, creatable q w /\ w' = with_files (<[q := c]> (files w)) w)
  | HttpCode domain => fun x => w' = with_answered (if String.eqb x "200" then {[domain]} ∪ answered w else answered w) w
  | Other _ => fun x => w' = w
  end x.
#[export] Existing Instance ShEnv.

(** What one command of the program does through its script. *)
Definition script_step (p : script) (ans : option string) (w w' : World) : Prop :=
  match ans with
  | Some _ => exists tr, runs p w tr true w'
  | None => crashes p w w'
  end.

(** ** The commands of one installer *)
Section Commands.
Context `{X509} {printable_rune : UnicodePrint} (a : ExternalXraySNIInstaller) (previousDomain : string).

(** The files the installer writes, with the directory of each. *)
Definition managed : list managedFile := environment_file a :: staged_fullchain a :: staged_private_key a :: switch_files a.

Definition writes (command : string) (file : managedFile) : bool :=
  String.eqb command (write_command (quoted (mf_path file)) (mf_mode file)).

(** The script of a command, and what it does to the ghost state. *)
Inductive effect : Type := Changes | Restores | Leaves.

Definition mark (e : effect) (ans : option string) (w : World) : World :=
  match e with
  | Changes => with_checks false false false w
  | Restores => with_checks false false (if ans then true else false) w
  | Leaves => w
  end.

Definition script_of (command : string) (stdin : bytes) : option (script * effect) :=
  if String.eqb command activate_command then Some (activate_script, Changes)
  else if String.eqb command rollback_command then Some (rollback_script, Restores)
  else if String.eqb command cleanup_command then Some (cleanup_script, Leaves)
  else if String.eqb command (switch_command a previousDomain) then Some (switch_script previousDomain (xc_SNIDomain (xa_config a)), Changes)
  else match List.find (writes command) managed with
       | Some file => Some (write_script (parent (mf_path file)) (mf_path file) stdin, Leaves)
       | None => None
       end.

Definition active_hash (p : string) (w : World) (content : bytes) : Prop :=
  exists c, files w !! p = Some c /\ sha256_hex c = sha256_hex content.

(** What the printed state says of the files. *)
Definition observes (s : xraySNIState) (w : World) : Prop :=
  (EnvironmentMatches s = true -> active_hash env_file w (environment a)) /\
  (FullchainMatches s = true -> active_hash fullchain w (FullchainPEM (xa_material a))) /\
  (PrivateKeyMatches s = true -> active_hash privkey w (PrivateKeyPEM (xa_material a))).

Definition command_step (command : string) (stdin : bytes) (ans : option string) (w w' : World) : Prop :=
  match script_of command stdin with
  | Some (p, e) => exists w1, script_step p ans w w1 /\ w' = mark e ans w1
  | None =>
    if String.eqb command reload_command then w' = if ans then with_checks true (confirmed w) (restored w) w else w
    else if String.eqb command (xraySNIHealthcheckCommand (xc_SNIDomain (xa_config a))) then
      w' = if ans then with_checks (reloaded w) true (restored w) w else w
    else if String.eqb command (inspect_command a) then
      w' = w /\ (forall out s, ans = Some out -> parse_state out = Some s -> observes s w)
    else w' = w
  end.

Definition VpsEnv : Env vpsE World := fun X e w x w' =>
  match e in vpsE X return X -> Prop with
  | RunCommand _ command stdin _ => fun x => command_step command stdin x w w'
  | VpsCtxDone _ => fun _ => w' = w
  | VpsNow => fun _ => w' = w
  end x.
End Commands.

(** ** Concrete executions

    A VPS on which every command that can succeed does. *)
Definition sh_handler : handler shE World := fun X e w =>
  match e in shE X return X * World with
  | TestFile p => (present p w, w)
  | TestExists p => (present p w || bool_decide (p ∈ dirs w), w)
  | TestDir p => (bool_decide (p ∈ dirs w), w)
  | InstallDir p => (true, with_dirs ({[p]} ∪ dirs w) w)
  | Move p q =>
    match files w !! p with
    | Some c => if bool_decide (parent q ∈ dirs w) then (true, with_files (<[q := c]> (delete p (files w))) w) else (false, w)
    | None => (false, w)
    end
  | Copy p q =>
    match files w !! p with
    | Some c => if bool_decide (parent q ∈ dirs w) then (true, with_files (<[q := c]> (files w)) w) else (false, w)
    | None => (false, w)
    end
  | Remove p => (true, with_files (delete p (files w)) w)
  | RemoveDir p =>
    if bool_decide (p ∈ dirs w) && forallb (fun f => negb (String.eqb (parent f.1) p)) (map_to_list (files w))
    then (true, with_dirs (dirs w ∖ {[p]}) w) else (false, w)
  | Mktemp prefix =>
    let t := prefix +:+ "Xq3k9Z" in
    if HasPrefix t prefix && String.eqb (parent t) (parent prefix) && bool_decide (parent t ∈ dirs w) && bool_decide (files w !! t = None)
    then (Some t, with_files (<[t := []]> (files w)) w) else (None, w)
  | Receive p content => if bool_decide (parent p ∈ dirs w) then (true, with_files (<[p := content]> (files w)) w) else (false, w)
  | Compare p q => (bool_decide (files w !! p = files w !! q), w)
  | Rewrite p q =>
    match files w !! p with
    | Some c => if bool_decide (parent q ∈ dirs w) then (true, with_files (<[q := c]> (files w)) w) else (false, w)
    | None => (false, w)
    end
  | HttpCode domain => ("200", with_answered ({[domain]} ∪ answered w) w)
  | Other _ => (true, w)
  end.

Lemma sh_handler_respects X (e : shE X) w : env_step e w (fst (sh_handler X e w)) (snd (sh_handler X e w)).
Proof.
  destruct e; cbn; try done.
  - exists ({[p]} ∪ dirs w). split_and!; [done|set_solver|set_solver|]. intros q [Hq| Hq]%elem_of_union; [|by left].
    right. apply elem_of_singleton in Hq as ->. apply HasPrefix_refl.
  - destruct (files w !! p) as [c|] eqn:Hp; [|done]. case_bool_decide; [|done]. by exists c.
  - destruct (files w !! p) as [c|] eqn:Hp; [|by left]. case_bool_decide; [|by left]. by exists c.
  - destruct (_ && _) eqn:H; [|done]. apply andb_true_iff in H as [H1%bool_decide_eq_true H2]. split_and!; [done| |done].
    intros f Hf. destruct (files w !! f) as [c|] eqn:Hc; [|done]. exfalso.
    rewrite forallb_forall in H2. specialize (H2 (f, c)). cbn in H2. rewrite Hf, String.eqb_refl in H2.
    discriminate H2. apply list_elem_of_In. by apply elem_of_map_to_list.
  - destruct (_ && _ && _ && _) eqn:H; [|done]. rewrite !andb_true_iff in H. destruct H as [[[H1 H2] H3] H4].
    apply String.eqb_eq in H2. apply bool_decide_eq_true in H3, H4. done.
  - case_bool_decide; [done|by left].
  - split; [done|]. intros H. by apply bool_decide_eq_true in H.
  - destruct (files w !! p) as [c|] eqn:Hp; [|by left]. case_bool_decide; [|by left]. right. by exists c.
Qed.

Lemma sh_handler_step p w :
  let '(_, ok, w1) := run sh_handler p w in script_step p (if ok : bool then Some "" else None) w w1.
Proof.
  pose proof (run_runs sh_handler p w sh_handler_respects) as H. destruct (run sh_handler p w) as [[tr ok] w1].
  destruct ok; [by exists tr|by eapply runs_crashes].
Qed.

Section Handler.
Context `{X509} {printable_rune : UnicodePrint} (a : ExternalXraySNIInstaller) (previousDomain : string).

Definition newline : string := String chr_nl "".
Definition shown (b : bool) : string := if b then "true" else "false".

(** The state of a service whose repository and container are in order. *)
Definition printed (environment_matches fullchain_matches private_key_matches : bool) : string :=
  "repository_exists=true" +:+ newline +:+ "remote_matches=true" +:+ newline +:+ "ref_matches=true" +:+ newline +:+
  "worktree_clean=true" +:+ newline +:+ "compose_exists=true" +:+ newline +:+ "deployed_commit_matches=true" +:+ newline +:+
  "environment_matches=" +:+ shown environment_matches +:+ newline +:+ "fullchain_matches=" +:+ shown fullchain_matches +:+ newline +:+
  "private_key_matches=" +:+ shown private_key_matches +:+ newline +:+ "permissions_match=true" +:+ newline +:+
  "container_exists=true" +:+ newline +:+ "container_running=true" +:+ newline.

Definition hash_shown (p : string) (w : World) (content : bytes) : bool :=
  match files w !! p with Some c => String.eqb (sha256_hex c) (sha256_hex content) | None => false end.

Lemma hash_shown_active p w content : hash_shown p w content = true -> active_hash p w content.
Proof. unfold hash_shown. destruct (files w !! p) as [c|] eqn:Hc; [|done]. intros Hh%String.eqb_eq. by exists c. Qed.

Definition printed_state (w : World) : string :=
  printed (hash_shown env_file w (environment a)) (hash_shown fullchain w (FullchainPEM (xa_material a)))
    (hash_shown privkey w (PrivateKeyPEM (xa_material a))).

Lemma printed_observes w s : parse_state (printed_state w) = Some s -> observes a s w.
Proof.
  unfold printed_state. destruct (hash_shown env_file _ _) eqn:H1, (hash_shown fullchain _ _) eqn:H2, (hash_shown privkey _ _) eqn:H3;
    intros Hs; vm_compute in Hs; injection Hs as <-; split_and!; intros Hm; try discriminate Hm; by apply hash_shown_active.
Qed.

Definition command_handler (command : string) (stdin : bytes) (w : World) : option string * World :=
  match script_of a previousDomain command stdin with
  | Some (p, e) =>
    let '(_, ok, w1) := run sh_handler p w in
    let ans := if ok : bool then Some "" else None in (ans, mark e ans w1)
  | None =>
    if String.eqb command reload_command then (Some "", with_checks true (confirmed w) (restored w) w)
    else if String.eqb command (xraySNIHealthcheckCommand (xc_SNIDomain (xa_config a))) then (Some "", with_checks (reloaded w) true (restored w) w)
    else if String.eqb command (inspect_command a) then (Some (printed_state w), w)
    else (Some "", w)
  end.

Lemma command_handler_respects command stdin w :
  command_step a previousDomain command stdin (command_handler command stdin w).1 w (command_handler command stdin w).2.
Proof.
  unfold command_handler, command_step. destruct (script_of a previousDomain command stdin) as [[p e]|].
  - pose proof (sh_handler_step p w) as Hp. destruct (run sh_handler p w) as [[tr ok] w1]. by exists w1.
  - destruct (String.eqb command reload_command); [done|].
    destruct (String.eqb command (xraySNIHealthcheckCommand _)); [done|].
    destruct (String.eqb command (inspect_command a)); [|done].
    split; [done|]. intros out s [= <-]. apply printed_observes.
Qed.

Definition vps_handler (now : Z) : handler vpsE World := fun X e w =>
  match e in vpsE X return X * World with
  | RunCommand _ command stdin _ => command_handler command stdin w
  | VpsCtxDone _ => (false, w)
  | VpsNow => (now, w)
  end.

Lemma vps_handler_runs now {A} (p : prog vpsE A) w :
  let '(tr, r, w') := run (vps_handler now) p w in @runs _ _ (VpsEnv a previousDomain) _ p w tr r w'.
Proof.
  apply (@run_runs _ _ (VpsEnv a previousDomain)). intros X e w1. destruct e; cbn; [|done..]. apply command_handler_respects.
Qed.
End Handler.

(** A VPS that serves one domain. *)
Definition example_world : World := mkWorld
  {[ env_file := bytes_of "SNI_DOMAIN=old.example.com"; fullchain := bytes_of "old chain"; privkey := bytes_of "old key" ]}
  {[ xraySNIInstallDirectory; certs ]} ∅ false false false.
