(* ===== verification/XrayScriptFacts.v ===== *)
(** * What the scripts keep

    The scripts of XrayScripts.v in the world of XrayWorld.v: wherever one is
    cut off and whichever command fails, the contents of the active
    certificate pair it started with are still there, in place or set aside
    ([pair_kept]); and what each has done when it ends with status 0. *)

From S2P Require Import Prelude GoStrings Effects GoFmt GoURL CertTypes Certificates Preflight Remote XraySni XrayScripts XrayWorld.

#[local] Open Scope Z_scope.

#[local] Arguments HasPrefix : simpl never.
#[local] Arguments iwp : simpl never.

(** ** Stepping through a script *)
Section Scripts.
Context (I : World -> Prop).

Lemma iwp_must (m k : script) w Q :
  iwp I m w (fun ok w' => if ok then iwp I k w' Q else Q false w') -> iwp I (m ;;! k) w Q.
Proof. intros H. apply iwp_bind. eapply iwp_mono; [exact H|]. by intros [] w'. Qed.

Lemma iwp_quietly (m k : script) w Q : iwp I m w (fun _ w' => iwp I k w' Q) -> iwp I (quietly m k) w Q.
Proof. intros H. apply iwp_bind. exact H. Qed.

Lemma iwp_negated (m : script) w Q : iwp I m w (fun ok w' => Q (negb ok) w') -> iwp I (negated m) w Q.
Proof. intros H. apply iwp_bind. exact H. Qed.

Lemma iwp_seq {A B} (f : A -> prog shE B) (p : prog shE A) w Q :
  iwp I p w (fun a w' => iwp I (f a) w' Q) -> iwp I (p ≫= f) w Q.
Proof. apply iwp_mbind. Qed.

Lemma iwp_exit {A} (x : A) w (Q : A -> World -> Prop) : Q x w -> iwp I (mret x : prog shE A) w Q.
Proof. done. Qed.

Lemma iwp_sh {X} (e : shE X) w (Q : X -> World -> Prop) :
  (forall x w1, env_step e w x w1 -> I w1 /\ Q x w1) -> iwp I (call e) w Q.
Proof. intros H. apply iwp_call. exact H. Qed.
End Scripts.

(** ** The files stay in directories *)
Definition rooted (w : World) : Prop := forall f, is_Some (files w !! f) -> parent f ∈ dirs w.

Lemma rooted_insert w q c : rooted w -> creatable q w -> rooted (with_files (<[q := c]> (files w)) w).
Proof.
  intros Hw Hq f. simpl. destruct (decide (f = q)) as [->|Hne]; [by intros _|]. rewrite lookup_insert_ne by done. apply Hw.
Qed.

Lemma rooted_delete w p : rooted w -> rooted (with_files (delete p (files w)) w).
Proof. intros Hw f [c Hf]. simpl in *. apply lookup_delete_Some in Hf as [_ Hf]. apply Hw. by exists c. Qed.

Lemma rooted_dirs w d : rooted w -> dirs w ⊆ d -> rooted (with_dirs d w).
Proof. intros Hw Hd f Hf. apply Hd, Hw, Hf. Qed.

Lemma rooted_step {X} (e : shE X) w x w' : env_step e w x w' -> rooted w -> rooted w'.
Proof.
  intros He Hw. destruct e; cbn in He.
  - by destruct He as [-> _].
  - by destruct He as [-> _].
  - by destruct He as [-> _].
  - destruct He as (d & -> & Hd & _). by apply rooted_dirs.
  - destruct x; [|by subst]. destruct He as (c & _ & Hq & ->).
    exact (rooted_insert (with_files (delete p (files w)) w) q c (rooted_delete w p Hw) Hq).
  - destruct x; [destruct He as (c & _ & Hq & ->); by apply rooted_insert|].
    destruct He as [->|(c & Hq & ->)]; [done|by apply rooted_insert].
  - destruct x; subst; [by apply rooted_delete|done].
  - destruct x; [|by subst]. destruct He as (_ & Hnone & ->). intros f Hf. simpl in *. apply elem_of_difference. split; [by apply Hw|].
    intros Hp%elem_of_singleton. rewrite Hnone in Hf by done. by destruct Hf.
  - destruct x; [|by subst]. destruct He as (_ & _ & Hq & _ & ->). by apply rooted_insert.
  - destruct x; [destruct He as [Hq ->]; by apply rooted_insert|]. destruct He as [->|(c & Hq & ->)]; [done|by apply rooted_insert].
  - by destruct He as [-> _].
  - destruct He as [->|(c & Hq & ->)]; [done|by apply rooted_insert].
  - by subst.
  - by subst.
Qed.

(** The ghost state but for the rollbacks the caller marks. *)
Definition flags (w : World) : bool * bool * bool * gset string := (reloaded w, confirmed w, restored w, answered w).

(** ** The pair of certificate files *)

(** The content [c] is still there: set aside, or not touched yet. *)
Definition kept (c : bytes) (active previous : option bytes) : Prop := previous = Some c \/ (previous = None /\ active = Some c).

Record pair_kept (c k : bytes) (w : World) : Prop := mkPairKept {
  pk_rooted : rooted w;
  pk_chain : kept c (files w !! fullchain) (files w !! previous_fullchain);
  pk_key : kept k (files w !! privkey) (files w !! previous_privkey)
}.

Lemma pair_kept_step {X} (e : shE X) c k w x w' :
  env_step e w x w' -> pair_kept c k w ->
  kept c (files w' !! fullchain) (files w' !! previous_fullchain) -> kept k (files w' !! privkey) (files w' !! previous_privkey) ->
  pair_kept c k w'.
Proof. intros He [Hr _ _] H1 H2. split; [by eapply rooted_step|done|done]. Qed.

(** Lookups at fixed paths. *)
Ltac paths_differ := let E := fresh in intros E; vm_compute in E; discriminate E.
Ltac lookups :=
  cbn [files dirs answered reloaded confirmed restored with_files with_dirs with_answered with_checks];
  repeat first
    [ rewrite lookup_insert_eq | rewrite lookup_delete_eq
    | rewrite lookup_insert_ne by paths_differ | rewrite lookup_delete_ne by paths_differ ].

Ltac sh_control :=
  lazymatch goal with
  | |- iwp _ (must _ _) _ _ => apply iwp_must
  | |- iwp _ (quietly _ _) _ _ => apply iwp_quietly
  | |- iwp _ (negated _) _ _ => apply iwp_negated
  | |- iwp _ (mbind _ _) _ _ => apply iwp_seq
  | |- iwp _ (mret _) _ _ => apply iwp_exit
  | |- iwp _ (exit _) _ _ => apply iwp_exit
  | |- iwp _ (remove_all (_ :: _)) _ _ => cbn [remove_all]
  | |- iwp _ (remove_all []) _ _ => cbn [remove_all]
  end; cbv beta iota.
Ltac sh_controls := repeat (cbn [negb andb]; sh_control).


(** The same in a hypothesis. *)
Ltac lookups_in H :=
  cbn [files dirs answered reloaded confirmed restored with_files with_dirs with_answered with_checks] in H;
  repeat first
    [ rewrite lookup_insert_eq in H | rewrite lookup_delete_eq in H
    | rewrite lookup_insert_ne in H by paths_differ | rewrite lookup_delete_ne in H by paths_differ ].

(** Known lookups, and what they make of a goal on the pair. *)
Ltac facts := repeat match goal with H : files _ !! _ = _ |- _ => rewrite H end.
Ltac same_lookups :=
  repeat match goal with
  | H : files ?w !! ?p = Some ?x, H' : files ?w !! ?p = Some ?y |- _ =>
    assert (y = x) by congruence; subst y; clear H'
  | H : Some ?x = Some ?y |- _ => injection H as H; subst
  end.
Ltac side := lookups; first [assumption | facts; first [done | by left | by right]].

(** The invariant of a state whose lookups are known. *)
Ltac pair_now Hr := split; [exact Hr|side..].

(** One command: the invariant after it, shown by [keep], then a goal for each
    outcome. *)
Ltac sh_step Hr keep :=
  let x := fresh "x" in let w' := fresh "w" in let He := fresh "He" in
  sh_controls; cbn [negb andb]; unfold sh; apply iwp_sh; intros x w' He;
  apply (rooted_step _ _ _ _ He) in Hr;
  cbn in He; destruct x;
  repeat match goal with H : _ /\ _ |- _ => destruct H | H : exists _, _ |- _ => destruct H end; subst w';
  repeat match goal with H : _ !! _ = _ |- _ => progress lookups_in H end;
  same_lookups;
  (split; [keep Hr|]).
Ltac sh_move Hr := sh_step Hr ltac:(fun H => pair_now H).

(** The script has ended. *)
Ltac sh_failed Hr := sh_controls; split; [pair_now Hr|first [discriminate|done]].

Lemma present_spec p w b : present p w = b -> if b then exists c, files w !! p = Some c else files w !! p = None.
Proof. unfold present. case_bool_decide as H; intros <-; [done|]. by apply eq_None_not_Some. Qed.

(** What a script that ends leaves behind. *)
Definition restored_pair (c k : bytes) (w : World) : Prop :=
  files w !! fullchain = Some c /\ files w !! privkey = Some k /\ certificate_previous ∉ dirs w.

(** [rm -f]: a property no removal ends. *)
Lemma iwp_remove_all (I P : World -> Prop) l w (Q : bool -> World -> Prop) :
  P w -> (forall p w, p ∈ l -> P w -> P (with_files (delete p (files w)) w)) -> (forall w, P w -> I w) ->
  (forall ok w', P w' -> Q ok w') -> iwp I (remove_all l) w Q.
Proof.
  intros H0 Hd HI. revert w Q H0. induction l as [|p l IH]; intros w Q H0 HQ; [by apply HQ|].
  cbn [remove_all]. apply <- @iwp_mbind. apply iwp_sh. intros x w1 He. cbn in He.
  assert (P w1) as H1 by (destruct x; subst; [apply Hd; [by left|done]|done]).
  split; [by apply HI|]. apply <- @iwp_mbind. apply IH; [|done|].
  - intros q w2 Hq. apply Hd. by right.
  - intros ok w2 H2. apply iwp_ret. by apply HQ.
Qed.

Definition backed_up (c k : bytes) (w : World) : Prop :=
  rooted w /\ files w !! previous_fullchain = Some c /\ files w !! previous_privkey = Some k.

Lemma backed_up_kept c k w : backed_up c k w -> pair_kept c k w.
Proof. intros (H1 & H2 & H3). split; [done|by left|by left]. Qed.

Lemma backed_up_delete c k p w :
  p <> previous_fullchain -> p <> previous_privkey -> backed_up c k w -> backed_up c k (with_files (delete p (files w)) w).
Proof. intros Hc Hk (H1 & H2 & H3). split; [by apply rooted_delete|]. cbn. by rewrite !lookup_delete_ne. Qed.

Lemma iwp_rollback c k w :
  pair_kept c k w ->
  iwp (pair_kept c k) rollback_script w (fun ok w' => pair_kept c k w' /\ (ok = true -> restored_pair c k w')).
Proof.
  intros [Hr Hc Hk]. unfold rollback_script.
  do 4 (sh_move Hr; [|done]).
  match goal with H : true = present previous_fullchain _ |- _ => destruct (present_spec _ _ _ (eq_sym H)) as [c' Hc'] end.
  match goal with H : true = present previous_privkey _ |- _ => destruct (present_spec _ _ _ (eq_sym H)) as [k' Hk'] end.
  destruct Hc as [Hc|[Hc _]]; [|congruence]. destruct Hk as [Hk|[Hk _]]; [|congruence]. same_lookups.
  apply iwp_must. apply (iwp_remove_all _ (backed_up c k)); [done| |apply backed_up_kept|].
  { intros p w1 Hp. apply backed_up_delete; intros ->; vm_compute in Hp; set_solver. }
  clear Hr. intros ok w1 Hw. destruct ok; [|by split; [apply backed_up_kept|]]. destruct Hw as (Hr & Hc1 & Hk1).
  do 6 (sh_move Hr; [|sh_failed Hr]).
  sh_controls. split; [pair_now Hr|]. intros _. split_and!; [by lookups|by lookups|cbn; set_solver].
Qed.

(** Nothing is set aside while the directory is not there. *)
Lemma kept_untouched c (active previous : option bytes) : kept c active previous -> previous = None -> active = Some c.
Proof. intros [->|[_ H]]; [done|done]. Qed.

Definition intact (c k : bytes) (w : World) : Prop :=
  rooted w /\ files w !! fullchain = Some c /\ files w !! privkey = Some k /\
  files w !! previous_fullchain = None /\ files w !! previous_privkey = None.

Lemma pair_kept_intact c k w : pair_kept c k w -> certificate_previous ∉ dirs w -> intact c k w.
Proof.
  intros [Hr Hc Hk] Hd.
  assert (forall f, parent f = certificate_previous -> files w !! f = None) as Hnone.
  { intros f Hf. apply eq_None_not_Some. intros H%Hr. by rewrite Hf in H. }
  assert (files w !! previous_fullchain = None) as H1 by (apply Hnone; vm_compute; reflexivity).
  assert (files w !! previous_privkey = None) as H2 by (apply Hnone; vm_compute; reflexivity).
  split_and!; [done|by eapply kept_untouched|by eapply kept_untouched|done|done].
Qed.

Lemma intact_kept c k w : intact c k w -> pair_kept c k w.
Proof. intros (H1 & H2 & H3 & H4 & H5). split; [done| |]; right; done. Qed.

(** The new pair is active and the old one set aside. *)
Definition activated (c k nc nk : bytes) (w : World) : Prop :=
  backed_up c k w /\ files w !! fullchain = Some nc /\ files w !! privkey = Some nk.

(** The old files are in place, and at most copies of them set aside. *)
Definition in_place (c k : bytes) (w : World) : Prop :=
  rooted w /\ files w !! fullchain = Some c /\ files w !! privkey = Some k /\
  (files w !! previous_fullchain = None \/ files w !! previous_fullchain = Some c) /\
  (files w !! previous_privkey = None \/ files w !! previous_privkey = Some k).

Lemma in_place_kept c k w : in_place c k w -> pair_kept c k w.
Proof. intros (Hr & Hc & Hk & Hpc & Hpk). split; [done| |]; unfold kept; naive_solver. Qed.

Lemma lookup_delete_or (m : gmap string bytes) p q c :
  m !! q = None \/ m !! q = Some c -> delete p m !! q = None \/ delete p m !! q = Some c.
Proof. destruct (decide (p = q)) as [->|Hne]; [left; apply lookup_delete_eq|by rewrite lookup_delete_ne]. Qed.

Lemma in_place_delete c k p w :
  p <> fullchain -> p <> privkey -> in_place c k w -> in_place c k (with_files (delete p (files w)) w).
Proof.
  intros Hf Hp (Hr & Hc & Hk & Hpc & Hpk). split; [by apply rooted_delete|]. cbn. rewrite !lookup_delete_ne by done.
  split_and!; [done|done|by apply lookup_delete_or|by apply lookup_delete_or].
Qed.

(** The attempt failed: the old files go back. *)
Lemma iwp_put_pair_back c k w :
  backed_up c k w ->
  iwp (pair_kept c k)
    (sh (Move previous_fullchain fullchain) ;;! sh (Move previous_privkey privkey) ;;!
     remove_all [previous_fullchain; previous_privkey; fullchain_new; privkey_new] ;;! sh (RemoveDir certificate_previous) ;;! exit false)
    w (fun ok w' => pair_kept c k w' /\ (ok = true -> False)).
Proof.
  intros (Hr & Hc & Hk). do 2 (sh_move Hr; [|sh_failed Hr]).
  apply iwp_must. apply (iwp_remove_all _ (in_place c k)).
  - split_and!; [done|by lookups|by lookups|left; by lookups|left; by lookups].
  - intros p w1 Hp. apply in_place_delete; intros ->; vm_compute in Hp; set_solver.
  - apply in_place_kept.
  - clear Hr Hc Hk. intros ok w1 Hw. destruct ok; [|by split; [apply in_place_kept|]].
    apply in_place_kept in Hw as [Hr Hc Hk]. sh_move Hr; sh_failed Hr.
Qed.

(** The new files go in place of the old ones, which are set aside. *)
Lemma iwp_exchange c k nc nk w :
  backed_up c k w -> files w !! fullchain_new = Some nc -> files w !! privkey_new = Some nk ->
  iwp (pair_kept c k)
    (moved ← (sh (Move fullchain_new fullchain) ;;! sh (Move privkey_new privkey) ;;!
              sh (Other "chown root:root fullchain.pem privkey.pem") ;;! sh (Other "chmod 0644 fullchain.pem") ;;!
              sh (Other "chmod 0600 privkey.pem"));
     if (moved : bool) then exit true
     else sh (Move previous_fullchain fullchain) ;;! sh (Move previous_privkey privkey) ;;!
       remove_all [previous_fullchain; previous_privkey; fullchain_new; privkey_new] ;;! sh (RemoveDir certificate_previous) ;;! exit false)
    w (fun ok w' => pair_kept c k w' /\ (ok = true -> activated c k nc nk w')).
Proof.
  intros (Hr & Hc & Hk) Hnc Hnk.
  do 5 (sh_move Hr; [|cbv beta iota; eapply iwp_mono;
    [apply iwp_put_pair_back; split_and!; [exact Hr|by lookups|by lookups]|by intros ok w' [Hw Hok]; split]]).
  sh_controls. split; [pair_now Hr|]. intros _.
  split; [split_and!; [exact Hr|by lookups|by lookups]|split; by lookups].
Qed.

Lemma iwp_activate c k nc nk w :
  pair_kept c k w -> files w !! fullchain_new = Some nc -> files w !! privkey_new = Some nk ->
  iwp (pair_kept c k) activate_script w (fun ok w' => pair_kept c k w' /\ (ok = true -> activated c k nc nk w')).
Proof.
  intros Hw Hnc Hnk. unfold activate_script, set_aside. pose proof Hw as [Hr Hc Hk].
  do 3 (sh_move Hr; [|done]). sh_move Hr; [done|].
  assert (certificate_previous ∉ dirs w) as Hd by (by destruct (present certificate_previous w), (decide (certificate_previous ∈ dirs w)); case_bool_decide).
  destruct (pair_kept_intact _ _ _ Hw Hd) as (_ & Hfc & Hfk & Hpc & Hpk). clear Hc Hk Hw.
  sh_move Hr; [|sh_failed Hr].
  sh_move Hr. 2:{ match goal with H : false = present fullchain _ |- _ => apply eq_sym, present_spec in H; cbn in H; congruence end. }
  sh_move Hr; [|sh_failed Hr].
  sh_move Hr. 2:{ match goal with H : false = present privkey _ |- _ => apply eq_sym, present_spec in H; lookups_in H; congruence end. }
  sh_move Hr; [|sh_failed Hr].
  apply iwp_exchange; [split_and!; [exact Hr|by lookups|by lookups]|by lookups|by lookups].
Qed.

(** ** Scripts that leave some files alone *)
Definition same_on (L : list string) (w w' : World) : Prop :=
  rooted w' /\ flags w' = flags w /\ forall p, p ∈ L -> files w' !! p = files w !! p.

Lemma same_on_refl L w : rooted w -> same_on L w w.
Proof. intros Hr. by split_and!. Qed.

Lemma same_on_insert L w w' q c : same_on L w w' -> creatable q w' -> q ∉ L -> same_on L w (with_files (<[q := c]> (files w')) w').
Proof.
  intros (Hr & Hf & Hl) Hq Hn. split_and!; [by apply rooted_insert|done|]. intros p Hp. cbn. rewrite lookup_insert_ne; [by apply Hl|].
  by intros ->.
Qed.

Lemma same_on_delete L w w' q : same_on L w w' -> q ∉ L -> same_on L w (with_files (delete q (files w')) w').
Proof.
  intros (Hr & Hf & Hl) Hn. split_and!; [by apply rooted_delete|done|]. intros p Hp. cbn. rewrite lookup_delete_ne; [by apply Hl|].
  by intros ->.
Qed.

Lemma same_on_dirs L w w' d : same_on L w w' -> dirs w' ⊆ d -> same_on L w (with_dirs d w').
Proof. intros (Hr & Hf & Hl) Hd. split_and!; [by apply rooted_dirs|done|done]. Qed.

Lemma iwp_cleanup L w :
  rooted w -> bool_decide (previous_fullchain ∈ L) = false -> bool_decide (previous_privkey ∈ L) = false ->
  iwp (same_on L w) cleanup_script w (fun ok w' =>
    same_on L w w' /\ (ok = true -> certificate_previous ∉ dirs w')).
Proof.
  intros Hr HnL%bool_decide_eq_false HkL%bool_decide_eq_false. unfold cleanup_script. apply iwp_seq, iwp_sh. intros x w1 He. cbn in He. destruct He as [-> Hx].
  split; [by apply same_on_refl|]. destruct x.
  2:{ apply iwp_exit. split; [by apply same_on_refl|]. intros _. by case_bool_decide. }
  apply iwp_quietly. apply (iwp_remove_all _ (same_on L w)); [by apply same_on_refl| |done|].
  - intros p w1 Hp Hw. apply same_on_delete; [done|]. intros Hin. set_unfold. by destruct Hp as [->|[->|[]]].
  - intros _ w1 Hw. apply iwp_sh. intros y w2 He. pose proof (rooted_step _ _ _ _ He) as Hr2. cbn in He. destruct y; [|by subst].
    destruct He as (Hd & _ & ->). assert (same_on L w (with_dirs (dirs w1 ∖ {[certificate_previous]}) w1)) as Hs.
    { destruct Hw as (H1 & H2 & H3). by split_and!; [apply Hr2| |]. }
    split; [done|]. split; [done|]. intros _. cbn. set_solver.
Qed.

Lemma iwp_write L directory target content w :
  rooted w -> target ∉ L -> HasPrefix target (directory +:+ "/.provisioner.") = false ->
  (forall p, p ∈ L -> HasPrefix p (directory +:+ "/.provisioner.") = false) ->
  iwp (same_on L w) (write_script directory target content) w (fun ok w' =>
    same_on L w w' /\ (ok = true -> files w' !! target = Some content)).
Proof.
  intros Hr Ht Htp HL. unfold write_script. apply iwp_must, iwp_sh. intros x w1 He. cbn in He. destruct He as (d & -> & Hd & _).
  assert (same_on L w (with_dirs d w)) as Hw by (apply same_on_dirs; [by apply same_on_refl|done]).
  split; [done|]. destruct x; [|done]. generalize dependent (with_dirs d w). clear d Hd. intros w1 Hw.
  apply iwp_seq, iwp_sh. intros [t|] w2 He; cbn in He; [|by subst; sh_controls].
  destruct He as (Hpre & _ & Hc & _ & ->).
  assert (t ∉ L) as HtL by (intros Hin; by rewrite (HL _ Hin) in Hpre).
  assert (t <> target) as Hne by (intros ->; by rewrite Htp in Hpre).
  assert (same_on L w (with_files (<[t := []]> (files w1)) w1)) as Hw2 by (by apply same_on_insert).
  split; [done|]. clear Hw Hpre. generalize dependent (with_files (<[t := []]> (files w1)) w1). clear w1 Hc. intros w1 Hw.
  apply iwp_seq. apply (iwp_mono _ _ _ (fun (st : bool * bool) w' => same_on L w w' /\ (fst st = true -> files w' !! target = Some content))).
  - apply iwp_seq, iwp_sh. intros received w2 He. cbn in He.
    assert (same_on L w w2 /\ (received = true -> files w2 !! t = Some content)) as [Hw2 Hrec].
    { destruct received; [destruct He as [Hc ->]|destruct He as [->|(c & Hc & ->)]]; (split; [first [done|by apply same_on_insert]|]); [|done|done].
      intros _. cbn. by rewrite lookup_insert_eq. }
    split; [done|]. destruct received; [|by sh_controls]. specialize (Hrec eq_refl). clear Hw He w1. cbn [negb].
    apply iwp_seq, iwp_sh. intros moded w3 He. cbn in He. subst w3. split; [done|]. destruct moded; [|by sh_controls]. cbn [negb].
    apply iwp_seq, iwp_sh. intros there w3 He. cbn in He. destruct He as [-> _]. split; [done|].
    apply iwp_seq. apply (iwp_mono _ _ _ (fun (same : bool) w' => w' = w2 /\ (same = true -> files w2 !! t = files w2 !! target))).
    + destruct there; [|by apply iwp_exit]. apply iwp_sh. intros same w3 He. cbn in He. destruct He as [-> He]. by split.
    + intros same w3 [-> Hsame]. destruct same; [apply iwp_exit; split; [done|]; intros _; by rewrite <-Hsame|].
      apply iwp_seq, iwp_sh. intros moved w3 He. cbn in He. destruct moved; [|subst; split; [done|by apply iwp_exit]].
      destruct He as (c & Hc & Hcr & ->). assert (same_on L w (with_files (<[target := c]> (delete t (files w2))) w2)) as Hw3.
      { exact (same_on_insert L w (with_files (delete t (files w2)) w2) target c (same_on_delete L w w2 t Hw2 HtL) Hcr Ht). }
      split; [done|]. apply iwp_exit. split; [done|]. intros _. cbn. rewrite lookup_insert_eq. congruence.
  - intros [status trapped] w2 [Hw2 Hst]. apply iwp_seq. destruct trapped; [|by apply iwp_exit, iwp_exit].
    apply iwp_sh. intros removed w3 He. cbn in He. destruct removed; subst; [|by split; [|apply iwp_exit]].
    split; [by apply same_on_delete|]. apply iwp_exit. split; [by apply same_on_delete|]. intros Hs. cbn. rewrite lookup_delete_ne by done. by apply Hst.
Qed.
