(* ===== verification/XrayFacts.v ===== *)
(** * The certificate of a VPS survives its updates

    [UpdateCertificate], [Install] and [Validate] of XraySni.v over the
    world of XrayWorld.v. *)

From S2P Require Import Prelude GoStrings Effects GoFmt GoURL CertTypes Certificates Preflight Provisioner Remote XraySni XrayScripts XrayWorld XrayScriptFacts.

#[local] Open Scope Z_scope.
#[local] Arguments iwp : simpl never.

Section Update.
Context {x509 : X509} {printable_rune : UnicodePrint} (a : ExternalXraySNIInstaller) (previousDomain : string).
#[local] Instance vps_env : Env vpsE World := VpsEnv a previousDomain.
#[local] Notation chain := (FullchainPEM (xa_material a)).
#[local] Notation key := (PrivateKeyPEM (xa_material a)).

(** ** Rules *)
Section Rules.
Context (I : World -> Prop).

Lemma iwp_then {Er} (m k : prog vpsE (option Er)) w Q :
  iwp I m w (fun r w' => match r with Some e => Q (Some e) w' | None => iwp I k w' Q end) -> iwp I (m ;;? k) w Q.
Proof. apply iwp_or_return. Qed.

Lemma iwp_run d command stdin timeout w (Q : option string -> World -> Prop) :
  (forall ans w1, command_step a previousDomain command stdin ans w w1 -> I w1 /\ Q ans w1) ->
  iwp I (call (RunCommand d command stdin timeout)) w Q.
Proof. intros H. apply iwp_call. exact H. Qed.

Lemma iwp_ctx d w (Q : bool -> World -> Prop) : I w -> (forall x, Q x w) -> iwp I (call (VpsCtxDone d)) w Q.
Proof. intros HI HQ. apply iwp_call. intros x w1 He. change (w1 = w) in He. subst w1. by split. Qed.

Lemma iwp_now w (Q : Z -> World -> Prop) : I w -> (forall x, Q x w) -> iwp I (call VpsNow) w Q.
Proof. intros HI HQ. apply iwp_call. intros x w1 He. change (w1 = w) in He. subst w1. by split. Qed.

Lemma iwp_runSafe d command e w Q :
  (forall ans w1, command_step a previousDomain command [] ans w w1 ->
     I w1 /\ match ans with Some _ => Q None w1 | None => forall err, Q (Some err) w1 end) ->
  iwp I (runSafe a d command e) w Q.
Proof.
  intros H. apply iwp_mbind, iwp_run. intros ans w1 He. destruct (H _ _ He) as [HI HQ]. split; [done|].
  destruct ans; [exact HQ|]. apply iwp_mbind, iwp_ctx; [done|]. intros x. exact (HQ _).
Qed.

(** A script with its rule. *)
Lemma script_step_rule (J : World -> Prop) p ans w w1 (Q : bool -> World -> Prop) :
  J w -> iwp J p w Q -> script_step p ans w w1 -> match ans with Some _ => Q true w1 | None => J w1 end.
Proof. intros HJ Hp Hs. destruct ans; [destruct Hs as [tr Hr]; exact (iwp_runs _ _ _ _ Hp _ _ _ Hr)|exact (iwp_crashes _ _ _ _ HJ Hp _ Hs)]. Qed.
End Rules.

(** ** What the commands do *)
Lemma step_activate ans w w1 : command_step a previousDomain activate_command [] ans w w1 ->
  exists w2, script_step activate_script ans w w2 /\ w1 = with_checks false false false w2.
Proof. intros H. exact H. Qed.

Lemma step_rollback ans w w1 : command_step a previousDomain rollback_command [] ans w w1 ->
  exists w2, script_step rollback_script ans w w2 /\ w1 = with_checks false false (if ans then true else false) w2.
Proof. intros H. exact H. Qed.

Lemma step_cleanup ans w w1 : command_step a previousDomain cleanup_command [] ans w w1 ->
  exists w2, script_step cleanup_script ans w w2 /\ w1 = w2.
Proof. intros H. exact H. Qed.

Lemma step_fullchain content ans w w1 :
  command_step a previousDomain (write_command (quoted (mf_path (staged_fullchain a))) "0644") content ans w w1 ->
  script_step (write_script certs fullchain_new content) ans w w1.
Proof. intros (w2 & H & ->). exact H. Qed.

Lemma step_reload ans w w1 : command_step a previousDomain reload_command [] ans w w1 ->
  w1 = if ans then with_checks true (confirmed w) (restored w) w else w.
Proof. intros H. exact H. Qed.

(** A command without a script that is not the reload. *)
Lemma plain_step command ans w w1 :
  script_of a previousDomain command [] = None -> String.eqb command reload_command = false ->
  command_step a previousDomain command [] ans w w1 ->
  if String.eqb command (xraySNIHealthcheckCommand (xc_SNIDomain (xa_config a)))
  then w1 = if ans then with_checks (reloaded w) true (restored w) w else w
  else if String.eqb command (inspect_command a)
  then w1 = w /\ (forall out s, ans = Some out -> parse_state out = Some s -> observes a s w)
  else w1 = w.
Proof. unfold command_step. by intros -> ->. Qed.

Lemma step_health ans w w1 : command_step a previousDomain (xraySNIHealthcheckCommand (xc_SNIDomain (xa_config a))) [] ans w w1 ->
  w1 = if ans then with_checks (reloaded w) true (restored w) w else w.
Proof. intros H. apply plain_step in H; [|reflexivity|reflexivity]. by rewrite String.eqb_refl in H. Qed.

Lemma step_inspect ans w w1 : command_step a previousDomain (inspect_command a) [] ans w w1 ->
  w1 = w /\ (forall out s, ans = Some out -> parse_state out = Some s -> observes a s w).
Proof.
  intros H. apply plain_step in H; [|reflexivity|reflexivity].
  assert (String.eqb (inspect_command a) (xraySNIHealthcheckCommand (xc_SNIDomain (xa_config a))) = false) as Hne by reflexivity.
  by rewrite Hne, String.eqb_refl in H.
Qed.

(** The commands that leave the files and the checks alone. *)
Definition neutral (command : string) : Prop := forall ans w w1, command_step a previousDomain command [] ans w w1 -> w1 = w.

Lemma neutral_directory : neutral certificate_directory_command.
Proof. intros ans w w1 H. exact H. Qed.
Lemma neutral_permissions : neutral permissions_command.
Proof. intros ans w w1 H. exact H. Qed.
Lemma neutral_compose_config : neutral compose_config_command.
Proof. intros ans w w1 H. exact H. Qed.
Lemma neutral_compose_build : neutral compose_build_command.
Proof. intros ans w w1 H. exact H. Qed.
Lemma neutral_compose_up : neutral compose_up_command.
Proof. intros ans w w1 H. exact H. Qed.
Lemma neutral_record : neutral record_commit_command.
Proof. intros ans w w1 H. exact H. Qed.
Lemma neutral_container : neutral container_command.
Proof. intros ans w w1 H. exact H. Qed.
Lemma neutral_caddy : neutral caddy_validate_command.
Proof. intros ans w w1 H. exact H. Qed.
Lemma neutral_repository : neutral (repository_command a).
Proof. intros ans w w1 H. exact H. Qed.

(** ** The pieces of an update *)
Definition confirm (w : World) : World := with_checks (reloaded w) true (restored w) w.

Lemma iwp_neutral I d command e w Q :
  neutral command -> I w -> Q None w -> (forall err, Q (Some err) w) -> iwp I (runSafe a d command e) w Q.
Proof. intros Hn HI HN HS. apply iwp_runSafe. intros ans w1 ->%Hn. split; [done|]. by destruct ans. Qed.

Lemma iwp_runtime I d w Q :
  I w -> I (confirm w) -> Q None (confirm w) -> (forall err, Q (Some err) w) -> iwp I (validateRuntime a d) w Q.
Proof.
  intros HI Hc HN HS. unfold validateRuntime, runtime_commands. cbn [run_all].
  apply iwp_then, iwp_neutral; [apply neutral_compose_config|done| |done].
  apply iwp_then, iwp_neutral; [apply neutral_container|done| |done].
  apply iwp_then, iwp_neutral; [apply neutral_caddy|done| |done].
  apply iwp_then, iwp_runSafe. intros ans w1 ->%step_health. by destruct ans.
Qed.

Lemma iwp_writeManagedFile I file w Q :
  shellPath (mf_path file) = Ok (quoted (mf_path file)) -> valid_mode (mf_mode file) = true ->
  (forall ans w1, command_step a previousDomain (write_command (quoted (mf_path file)) (mf_mode file)) (mf_content file) ans w w1 ->
     I w1 /\ match ans with Some _ => Q None w1 | None => Q (Some ErrXraySNIInstallationFailed) w1 end) ->
  iwp I (writeManagedFile a file) w Q.
Proof.
  intros Hp Hm H. unfold writeManagedFile, writeFile. rewrite Hp, Hm. apply iwp_mbind, iwp_mbind, iwp_run.
  intros ans w1 He. destruct (H _ _ He) as [HI HQ]. split; [done|]. destruct ans; [exact HQ|].
  apply iwp_mbind, iwp_ctx; [done|]. intros x. exact HQ.
Qed.

(** The pair of before is there, or the new one has passed the health check. *)
Definition survives (c k : bytes) (w : World) : Prop := rooted w /\ (pair_kept c k w \/ confirmed w = true).

Lemma kept_survives c k w : pair_kept c k w -> survives c k w.
Proof. intros H. split; [apply H|by left]. Qed.

Lemma pair_kept_checks c k r f b w : pair_kept c k w -> pair_kept c k (with_checks r f b w).
Proof. intros [H1 H2 H3]. by split. Qed.

(** The new pair is the active one. *)
Definition accepted (w : World) : Prop := active_hash fullchain w chain /\ active_hash privkey w key.

(** What an update has done when it reports success, and when it reports an error. *)
Definition updated (w : World) : Prop :=
  accepted w /\ reloaded w = true /\ confirmed w = true /\ certificate_previous ∉ dirs w.
Definition not_updated (c k : bytes) (w : World) : Prop :=
  survives c k w /\ (restored w = true -> restored_pair c k w).
Definition outcome (c k : bytes) (r : option stageErr) (w : World) : Prop :=
  match r with None => updated w | Some _ => not_updated c k w end.

Lemma iwp_rollbackFailed c k w :
  pair_kept c k w ->
  iwp (survives c k) (rollbackFailedCertificateActivation a) w (outcome c k).
Proof.
  intros Hw. apply iwp_mbind, iwp_runSafe. intros ans w1 (w2 & Hs & ->)%step_rollback.
  pose proof (script_step_rule _ _ _ _ _ _ Hw (iwp_rollback c k w Hw) Hs) as H.
  destruct ans as [out|].
  - destruct H as [Hk Hr]. specialize (Hr eq_refl). set (w1 := with_checks false false true w2).
    assert (pair_kept c k w1) as Hk1 by by apply pair_kept_checks.
    split; [by apply kept_survives|]. apply iwp_mbind, iwp_runSafe. intros ans w3 ->%step_reload.
    assert (pair_kept c k (if ans then with_checks true (confirmed w1) (restored w1) w1 else w1)) as Hk3 by (by destruct ans; [apply pair_kept_checks|]).
    split; [by apply kept_survives|]. destruct ans as [out2|].
    + apply iwp_mbind, iwp_runtime; [by apply kept_survives|by apply kept_survives, pair_kept_checks| |].
      * split; [by apply kept_survives, pair_kept_checks|done].
      * intros _. split; [by apply kept_survives|done].
    + intros err. split; [by apply kept_survives|done].
  - assert (pair_kept c k (with_checks false false false w2)) as Hk1 by by apply pair_kept_checks.
    split; [by apply kept_survives|]. intros err. split; [by apply kept_survives|done].
Qed.

Lemma iwp_reload_or_rollback c k w :
  pair_kept c k w -> accepted w -> restored w = false ->
  iwp (survives c k) (reload_or_rollback a) w (outcome c k).
Proof.
  intros Hw Ha Hres. apply iwp_mbind, iwp_runSafe. intros ans w1 ->%step_reload.
  destruct ans as [out|]; [|split; [by apply kept_survives|intros _; by apply iwp_rollbackFailed]].
  set (w1 := with_checks true (confirmed w) (restored w) w).
  assert (pair_kept c k w1) as Hw1 by by apply pair_kept_checks. split; [by apply kept_survives|].
  apply iwp_mbind, iwp_runtime; [by apply kept_survives|by apply kept_survives, pair_kept_checks| |].
  2:{ intros _. by apply iwp_rollbackFailed. }
  apply iwp_runSafe. intros ans w2 (w3 & Hs & ->)%step_cleanup.
  assert (rooted (confirm w1)) as Hr by apply Hw.
  pose proof (script_step_rule _ _ _ _ _ _ (same_on_refl _ _ Hr) (iwp_cleanup [fullchain; privkey] _ Hr eq_refl eq_refl) Hs) as H.
  assert (same_on [fullchain; privkey] (confirm w1) w3) as (Hr3 & Hf3 & Hl3) by (destruct ans; [apply H|done]).
  injection Hf3 as Hrel Hcon Hre _. cbn in Hrel, Hcon, Hre.
  split; [by split; [|right]|]. destruct ans as [out2|].
  - destruct Ha as [(xc & H1 & H2) (xk & H3 & H4)]. destruct H as [_ Hd]. split_and!; [|done|done|by apply Hd].
    split; [exists xc|exists xk]; (split; [rewrite Hl3 by set_solver|]; done).
  - intros err. split; [by split; [|right]|]. by rewrite Hre, Hres.
Qed.

(** Writing the two staged files. *)
Lemma step_staged_chain ans w w1 :
  command_step a previousDomain (write_command (quoted (mf_path (staged_fullchain a))) (mf_mode (staged_fullchain a))) chain ans w w1 ->
  script_step (write_script certs fullchain_new chain) ans w w1.
Proof. intros (w2 & H & ->). exact H. Qed.

Lemma step_staged_key ans w w1 :
  command_step a previousDomain (write_command (quoted (mf_path (staged_private_key a))) (mf_mode (staged_private_key a))) key ans w w1 ->
  script_step (write_script certs privkey_new key) ans w w1.
Proof. intros (w2 & H & ->). exact H. Qed.

Definition tracked : list string := [fullchain; privkey; previous_fullchain; previous_privkey].

Lemma same_on_pair c k L w w' : same_on (tracked ++ L) w w' -> pair_kept c k w -> pair_kept c k w'.
Proof. intros (Hr & _ & Hl) [_ Hc Hk]. split; [done| |]; rewrite !Hl by (cbn; set_solver); done. Qed.

(** A managed file outside some files. *)
Lemma written_on L directory target content ans w w1 :
  bool_decide (target ∈ L) = false -> HasPrefix target (directory +:+ "/.provisioner.") = false ->
  forallb (fun p => negb (HasPrefix p (directory +:+ "/.provisioner."))) (L) = true -> rooted w ->
  script_step (write_script directory target content) ans w w1 ->
  same_on (L) w w1 /\ (ans <> None -> files w1 !! target = Some content).
Proof.
  intros Ht%bool_decide_eq_false Hp HL Hr Hs. assert (forall p, p ∈ L -> HasPrefix p (directory +:+ "/.provisioner.") = false) as HL'.
  { intros p Hin. apply forallb_elem_of with (x := p) in HL; [|done]. by apply negb_true_iff. }
  pose proof (script_step_rule _ _ _ _ _ _ (same_on_refl _ _ Hr) (iwp_write _ _ _ content _ Hr Ht Hp HL') Hs) as H.
  destruct ans; [destruct H; by split; [|intros _; auto]|by split].
Qed.

Lemma written L directory target content ans w w1 :
  bool_decide (target ∈ tracked ++ L) = false -> HasPrefix target (directory +:+ "/.provisioner.") = false ->
  forallb (fun p => negb (HasPrefix p (directory +:+ "/.provisioner."))) (tracked ++ L) = true -> rooted w ->
  script_step (write_script directory target content) ans w w1 ->
  same_on (tracked ++ L) w w1 /\ (ans <> None -> files w1 !! target = Some content).
Proof. apply written_on. Qed.

Lemma iwp_stageAndActivate c k w :
  pair_kept c k w ->
  iwp (pair_kept c k) (stageAndActivateCertificates a) w (fun r w' => pair_kept c k w' /\ restored w' = false /\ (r = None -> accepted w')
    \/ pair_kept c k w' /\ restored w' = restored w /\ r <> None).
Proof.
  intros Hw. apply iwp_then, iwp_neutral; [apply neutral_directory|done| |intros err; right; by split_and!].
  apply iwp_then, iwp_writeManagedFile; [reflexivity|reflexivity|]. intros ans1 w1 Hs%step_staged_chain.
  destruct (written [] certs fullchain_new chain ans1 w w1 eq_refl eq_refl eq_refl (pk_rooted _ _ _ Hw) Hs) as [Hw1 Hc1].
  assert (pair_kept c k w1) as Hk1 by by eapply same_on_pair. assert (restored w1 = restored w) as Hr1 by by destruct Hw1 as (_ & [= _ _ H _] & _).
  split; [done|]. destruct ans1 as [out1|]; [|right; by split_and!]. specialize (Hc1 ltac:(done)).
  apply iwp_then, iwp_writeManagedFile; [reflexivity|reflexivity|]. intros ans2 w2 Hs2%step_staged_key.
  destruct (written [fullchain_new] certs privkey_new key ans2 w1 w2 eq_refl eq_refl eq_refl (pk_rooted _ _ _ Hk1) Hs2) as [Hw2 Hc2].
  assert (pair_kept c k w2) as Hk2 by by eapply same_on_pair. assert (restored w2 = restored w1) as Hr2 by by destruct Hw2 as (_ & [= _ _ H _] & _).
  split; [done|]. destruct ans2 as [out2|]; [|right; split_and!; [done|congruence|done]]. specialize (Hc2 ltac:(done)).
  assert (files w2 !! fullchain_new = Some chain) as Hn by (destruct Hw2 as (_ & _ & Hl); rewrite Hl by (cbn; set_solver); done).
  apply iwp_runSafe. intros ans3 w3 (w4 & Hs3 & ->)%step_activate.
  pose proof (script_step_rule _ _ _ _ _ _ Hk2 (iwp_activate _ _ _ _ _ Hk2 Hn Hc2) Hs3) as H.
  assert (pair_kept c k w4) as Hk4 by (destruct ans3; [apply H|done]).
  assert (pair_kept c k (with_checks false false false w4)) as Hk5 by by apply pair_kept_checks.
  split; [done|]. destruct ans3 as [out3|].
  - left. split_and!; [done|done|]. intros _. destruct H as [_ H]. destruct (H eq_refl) as (_ & H1 & H2).
    split; [by exists chain|by exists key].
  - intros err. left. by split_and!.
Qed.

Lemma iwp_update c k w :
  pair_kept c k w -> restored w = false -> iwp (survives c k) (UpdateCertificate a) w (outcome c k).
Proof.
  intros Hw Hres. assert (survives c k w) as Hsv by by apply kept_survives.
  assert (forall err, outcome c k (Some err) w) as Hno by (intros err; split; [done|congruence]).
  apply iwp_mbind, iwp_now; [done|]. intros now. destruct (validateCertificateMaterial _ _ _); [apply Hno|].
  apply iwp_mbind, iwp_mbind, iwp_run. intros ans w1 [-> Hobs]%step_inspect. split; [done|].
  destruct ans as [out|]; [|apply iwp_mbind, iwp_ctx; [done|]; intros x; apply Hno].
  apply iwp_ret. destruct (parse_state out) as [s|] eqn:Hp; [|apply Hno]. specialize (Hobs _ _ eq_refl Hp).
  destruct (updatable s); [|apply Hno]. cbn [negb]. destruct (FullchainMatches s && PrivateKeyMatches s) eqn:Hm.
  - apply andb_true_iff in Hm as [Hm1 Hm2]. destruct Hobs as (_ & H1 & H2).
    apply iwp_then. destruct (PermissionsMatch s); [apply iwp_ret; by apply iwp_reload_or_rollback; [|split; auto|]|].
    apply iwp_neutral; [apply neutral_permissions|done| |by intros err]. by apply iwp_reload_or_rollback; [|split; auto|].
  - apply iwp_then. eapply iwp_mono; [eapply iwp_weaken; [apply kept_survives|by apply iwp_stageAndActivate]|]. intros r w' H. cbv beta.
    assert (pair_kept c k w' /\ restored w' = false) as [Hk Hr] by (destruct H as [(?&?&?)|(?&?&?)]; [done|split; congruence]).
    destruct r as [e|]; [split; [by apply kept_survives|congruence]|].
    destruct H as [(_ & _ & Ha)|(_ & _ & [])]; [|done]. by apply iwp_reload_or_rollback; [|apply Ha|].
Qed.

(** ** [Validate] and [Install] *)
Lemma iwp_inspectState I w Q :
  I w -> (forall err, Q (Err err) w) -> (forall s, observes a s w -> Q (Ok s) w) -> iwp I (inspectState a) w Q.
Proof.
  intros HI HE HO. apply iwp_mbind, iwp_run. intros ans w1 [-> Hobs]%step_inspect. split; [done|].
  destruct ans as [out|]; [|apply iwp_mbind, iwp_ctx; [done|]; intros x; apply HE].
  apply iwp_ret. destruct (parse_state out) as [s|] eqn:Hp; [|apply HE]. by apply HO, (Hobs out).
Qed.

Lemma iwp_validate c k w : pair_kept c k w -> iwp (survives c k) (Validate a) w (fun _ w' => survives c k w').
Proof.
  intros Hw. assert (survives c k w) as Hsv by by apply kept_survives.
  apply iwp_mbind, iwp_inspectState; [done|done|]. intros s _. destruct (negb _); [exact Hsv|].
  apply iwp_then, iwp_runtime; [done|by apply kept_survives, pair_kept_checks| |done].
  assert (rooted (confirm w)) as Hr by apply Hw. apply iwp_runSafe. intros ans w2 (w3 & Hs & ->)%step_cleanup.
  pose proof (script_step_rule _ _ _ _ _ _ (same_on_refl _ _ Hr) (iwp_cleanup [fullchain; privkey] _ Hr eq_refl eq_refl) Hs) as H.
  assert (survives c k w3) as Hsv3; [|by split; [|destruct ans]].
  assert (same_on [fullchain; privkey] (confirm w) w3) as (Hr3 & [= _ Hc _ _] & _) by (destruct ans; [apply H|done]).
  by split; [|right].
Qed.

(** A step that keeps the pair, whatever it answers. *)
Lemma iwp_keeps c k (m : prog vpsE (option stageErr)) (n : prog vpsE (option stageErr)) w :
  iwp (pair_kept c k) m w (fun _ w' => pair_kept c k w') ->
  (forall w, pair_kept c k w -> iwp (pair_kept c k) n w (fun _ w' => pair_kept c k w')) ->
  iwp (pair_kept c k) (m ;;? n) w (fun _ w' => pair_kept c k w').
Proof. intros Hm Hn. apply iwp_then. eapply iwp_mono; [exact Hm|]. intros [e|] w' Hw'; [done|by apply Hn]. Qed.

Lemma iwp_neutral_keeps c k d command e w :
  neutral command -> pair_kept c k w -> iwp (pair_kept c k) (runSafe a d command e) w (fun _ w' => pair_kept c k w').
Proof. intros Hn Hw. by apply iwp_neutral. Qed.

Lemma iwp_reload_keeps c k d w : pair_kept c k w -> iwp (pair_kept c k) (reload a d) w (fun _ w' => pair_kept c k w').
Proof.
  intros Hw. apply iwp_runSafe. intros ans w1 ->%step_reload.
  assert (pair_kept c k (if ans then with_checks true (confirmed w) (restored w) w else w)) by (by destruct ans; [apply pair_kept_checks|]).
  by split; [|destruct ans].
Qed.

Lemma step_environment content ans w w1 :
  command_step a previousDomain (write_command (quoted (mf_path (environment_file a))) (mf_mode (environment_file a))) content ans w w1 ->
  script_step (write_script xraySNIInstallDirectory env_file content) ans w w1.
Proof. intros (w2 & H & ->). exact H. Qed.

Lemma iwp_environment c k w : pair_kept c k w ->
  iwp (pair_kept c k) (writeManagedFile a (environment_file a)) w (fun _ w' => pair_kept c k w').
Proof.
  intros Hw. apply iwp_writeManagedFile; [reflexivity|reflexivity|]. intros ans w1 Hs%step_environment.
  destruct (written [] xraySNIInstallDirectory env_file (mf_content (environment_file a)) ans w w1 eq_refl eq_refl eq_refl (pk_rooted _ _ _ Hw) Hs) as [H _].
  assert (pair_kept c k w1) by by eapply same_on_pair. by split; [|destruct ans].
Qed.

Lemma iwp_service c k s w : pair_kept c k w -> iwp (pair_kept c k) (install_service a s) w (fun _ w' => pair_kept c k w').
Proof.
  intros Hw. unfold install_service. repeat case_match; [|by apply iwp_neutral_keeps; [apply neutral_compose_up|]|by apply iwp_reload_keeps|by apply iwp_reload_keeps|exact Hw].
  apply iwp_keeps; [by apply iwp_neutral_keeps; [apply neutral_compose_build|]|]. intros w1 Hw1. by apply iwp_neutral_keeps; [apply neutral_record|].
Qed.

Lemma iwp_certificates c k s w : pair_kept c k w -> iwp (pair_kept c k) (install_certificates a s) w (fun _ w' => pair_kept c k w').
Proof.
  intros Hw. unfold install_certificates. repeat case_match; [|by apply iwp_neutral_keeps; [apply neutral_permissions|]|exact Hw].
  eapply iwp_mono; [by apply iwp_stageAndActivate|]. intros r w' Hpost. cbv beta in Hpost. tauto.
Qed.

(** [Install] keeps the pair of before until the stage is validated. *)
Lemma iwp_install c k w : pair_kept c k w -> iwp (pair_kept c k) (Install a) w (fun _ w' => pair_kept c k w').
Proof.
  intros Hw. apply iwp_mbind, iwp_now; [done|]. intros now. destruct (validateCertificateMaterial _ _ _); [exact Hw|].
  apply iwp_mbind, iwp_inspectState; [done|done|]. intros s _.
  apply iwp_keeps; [destruct (repository_changed s); [by apply iwp_neutral_keeps; [apply neutral_repository|]|exact Hw]|]. clear w Hw. intros w Hw.
  apply iwp_keeps; [destruct (negb _); [by apply iwp_environment|exact Hw]|]. clear w Hw. intros w Hw.
  apply iwp_keeps; [by apply iwp_certificates|]. clear w Hw. intros w Hw.
  apply iwp_keeps; [by apply iwp_neutral_keeps; [apply neutral_compose_config|]|]. clear w Hw. intros w Hw.
  by apply iwp_service.
Qed.
End Update.

(** ** The property *)

(** C31. Replacing the certificate of a VPS never loses a working pair.  The
    VPS holds the pair [(c, k)], in place or set aside by an earlier attempt.
    Whatever command fails, whatever the service answers and wherever the
    update, the installation or the validation of the xray-sni stage is cut
    off, every state on the way still holds [(c, k)], unless the health check
    has passed since the files last changed.  An update that reports success
    has put the new chain and key in place, reloaded the service, seen the
    health check pass after that and removed what it set aside; one that
    reports an error has kept [(c, k)] (or passed the check), and if its
    rollback succeeded [(c, k)] is in place again. *)
Theorem certificate_update_keeps_a_working_pair `{X509} {printable_rune : UnicodePrint} (a : ExternalXraySNIInstaller)
    (previousDomain : string) (c k : bytes) (w : World) :
  pair_kept c k w -> restored w = false ->
  (forall p, p ∈ [UpdateCertificate a; Install a; Validate a] ->
     forall w', @crashes _ _ (VpsEnv a previousDomain) _ p w w' -> survives c k w') /\
  @always _ _ (VpsEnv a previousDomain) _ (UpdateCertificate a) w (fun _ r w' =>
    match r with
    | None => updated a w'
    | Some _ => survives c k w' /\ (restored w' = true -> restored_pair c k w')
    end).
Proof.
  intros Hw Hres. pose proof (kept_survives _ _ _ Hw) as Hsv. split.
  - intros p Hp w' Hc. set_unfold. destruct Hp as [->|[->|[->|[]]]].
    + exact (iwp_crashes _ _ _ _ Hsv (iwp_update a previousDomain c k w Hw Hres) w' Hc).
    + apply kept_survives. exact (iwp_crashes _ _ _ _ Hw (iwp_install a previousDomain c k w Hw) w' Hc).
    + exact (iwp_crashes _ _ _ _ Hsv (iwp_validate a previousDomain c k w Hw) w' Hc).
  - intros tr r w' Hr. exact (iwp_runs _ _ _ _ (iwp_update a previousDomain c k w Hw Hres) _ _ _ Hr).
Qed.

(** The update of the example VPS. *)
#[local] Existing Instance example_x509.
#[local] Instance example_print : UnicodePrint := fun _ => true.
Definition example_installer : ExternalXraySNIInstaller := mkExternalXraySNIInstaller
  (mkExternalXraySNIConfig "https://github.com/example/xray-sni" "v1.2.3" "new.example.com" (5 * Minute)) (mkMaterial [78] [78]).

Lemma example_rooted : rooted example_world.
Proof.
  intros f Hf. unfold example_world in Hf. cbn in Hf. apply lookup_insert_is_Some' in Hf as [<-|Hf]; [by vm_compute|].
  apply lookup_insert_is_Some' in Hf as [<-|Hf]; [by vm_compute|]. apply lookup_singleton_is_Some in Hf as <-. by vm_compute.
Qed.

Lemma certificate_update_keeps_a_working_pair_witness :
  exists tr w', @runs _ _ (VpsEnv example_installer "old.example.com") _ (UpdateCertificate example_installer)
    (with_files (<[env_file := environment example_installer]> (files example_world)) example_world) tr None w' /\ updated example_installer w'.
Proof.
  set (w := with_files _ example_world).
  pose proof (vps_handler_runs example_installer "old.example.com" 1000 (UpdateCertificate example_installer) w) as Hr.
  destruct (run _ _ _) as [[tr r] w'] eqn:Hrun.
  assert (r = None) as -> by (apply (f_equal (fun x => snd (fst x))) in Hrun; vm_compute in Hrun; by symmetry).
  exists tr, w'. split; [exact Hr|].
  assert (pair_kept (bytes_of "old chain") (bytes_of "old key") w) as Hw.
  { split; [|right; split; reflexivity..]. apply rooted_insert; [apply example_rooted|]. by vm_compute. }
  exact (proj2 (certificate_update_keeps_a_working_pair example_installer "old.example.com" _ _ w Hw eq_refl) tr None w' Hr).
Defined.
