(* ===== verification/XraySwitch.v ===== *)
(** * The switch of a Node to another domain

    [SwitchSNI] of XraySni.v over the world of XrayWorld.v: the environment
    and the certificate pair of the old domain stay on the VPS, in place or
    set aside, until the new domain has answered. *)

From S2P Require Import Prelude GoStrings Effects GoFmt GoURL CertTypes Certificates Preflight Provisioner Remote XraySni XrayScripts XrayWorld XrayScriptFacts XrayFacts.

#[local] Open Scope Z_scope.
#[local] Arguments iwp : simpl never.
#[local] Arguments HasPrefix : simpl never.

(** ** The script *)
Record trio_kept (e c k : bytes) (w : World) : Prop := mkTrioKept {
  tk_rooted : rooted w;
  tk_env : kept e (files w !! env_file) (files w !! switch_env);
  tk_chain : kept c (files w !! fullchain) (files w !! switch_fullchain);
  tk_key : kept k (files w !! privkey) (files w !! switch_privkey)
}.

Section Script.
Context (e c k : bytes) (new_domain : string).

(** The old files are there, or the new domain has answered. *)
Definition switch_safe (w : World) : Prop := rooted w /\ (trio_kept e c k w \/ new_domain ∈ answered w).

Lemma trio_safe w : trio_kept e c k w -> switch_safe w.
Proof. intros H. split; [apply H|by left]. Qed.

Lemma iwp_other (I : World -> Prop) text (rest : script) w Q : I w -> iwp I rest w Q -> iwp I (quietly (sh (Other text)) rest) w Q.
Proof. intros HI HQ. apply iwp_quietly, iwp_sh. intros x w1 ->. by split. Qed.

(** Each of the three files goes back, or stays set aside. *)
Lemma iwp_put_back p q (rest : script) w Q :
  (p, q) ∈ [(switch_env, env_file); (switch_fullchain, fullchain); (switch_privkey, privkey)] ->
  trio_kept e c k w -> (forall w', trio_kept e c k w' -> iwp (trio_kept e c k) rest w' Q) ->
  iwp (trio_kept e c k) (put_back p q rest) w Q.
Proof.
  intros Hp [Hr He Hc Hk] Hrest. unfold put_back. 
  assert (trio_kept e c k w) as Hw by done.
  apply iwp_seq, iwp_sh. intros x w1 [-> ->]. split; [done|]. destruct (present p w) eqn:Hpr; [|by apply Hrest].
  apply present_spec in Hpr as [x Hx]. set_unfold. destruct Hp as [[= -> ->]|[[= -> ->]|[[= -> ->]|[]]]].
  - destruct He as [He|[He _]]; [|congruence]. sh_move Hr.
    + sh_move Hr; sh_controls; apply Hrest; pair_now Hr.
    + sh_move Hr; sh_controls; apply Hrest; pair_now Hr.
  - destruct Hc as [Hc|[Hc _]]; [|congruence]. sh_move Hr; sh_move Hr; sh_controls; apply Hrest; pair_now Hr.
  - destruct Hk as [Hk|[Hk _]]; [|congruence]. sh_move Hr; sh_move Hr; sh_controls; apply Hrest; pair_now Hr.
Qed.

(** A step that touches none of the six files. *)
Lemma trio_kept_step {X} (ev : shE X) w x w' :
  env_step ev w x w' -> trio_kept e c k w ->
  (forall p, p ∈ [env_file; switch_env; fullchain; switch_fullchain; privkey; switch_privkey] -> files w' !! p = files w !! p) ->
  trio_kept e c k w'.
Proof.
  intros Hs [Hr He Hc Hk] Hl. split; [by eapply rooted_step|..]; rewrite !Hl by (set_unfold; tauto); done.
Qed.

Lemma trio_kept_delete p w :
  p ∉ [env_file; switch_env; fullchain; switch_fullchain; privkey; switch_privkey] ->
  trio_kept e c k w -> trio_kept e c k (with_files (delete p (files w)) w).
Proof.
  intros Hp [Hr He Hc Hk]. split; [by apply rooted_delete|..]; cbn; rewrite !lookup_delete_ne by (set_unfold; naive_solver); done.
Qed.

Lemma iwp_switch_rollback old_domain w :
  trio_kept e c k w -> iwp (trio_kept e c k) (switch_rollback old_domain) w (fun _ w' => trio_kept e c k w').
Proof.
  intros Hw. unfold switch_rollback.
  apply iwp_put_back; [set_unfold; tauto|done|]. clear w Hw. intros w Hw.
  apply iwp_put_back; [set_unfold; tauto|done|]. clear w Hw. intros w Hw.
  apply iwp_put_back; [set_unfold; tauto|done|]. clear w Hw. intros w Hw.
  apply iwp_quietly. apply (iwp_remove_all _ (trio_kept e c k)); [done| |done|].
  { intros p w1 Hp. apply trio_kept_delete. set_unfold. destruct Hp as [->|[->|[->|[]]]]; intros Hp;
      repeat (destruct Hp as [Hp|Hp]; [vm_compute in Hp; discriminate Hp|]); done. }
  clear w Hw. intros _ w Hw. do 4 (apply iwp_other; [done|]).
  apply iwp_seq, iwp_sh. intros code w1 Hs. assert (trio_kept e c k w1) as Hw1 by (apply (trio_kept_step _ _ _ _ Hs Hw); cbn in Hs; by subst).
  split; [done|]. apply iwp_sh. intros ok w2 Hs2.
  assert (trio_kept e c k w2); [|done]. apply (trio_kept_step _ _ _ _ Hs2 Hw1). cbn in Hs2. destruct ok; [|by subst]. by destruct Hs2 as (_ & _ & ->).
Qed.

(** An answer is not forgotten. *)
Definition has_answered (w : World) : Prop := rooted w /\ new_domain ∈ answered w.

Lemma answered_step {X} (ev : shE X) w x w' : env_step ev w x w' -> has_answered w -> has_answered w'.
Proof.
  intros Hs [Hr Ha]. split; [by eapply rooted_step|]. destruct ev; cbn in Hs; split_hyps; try (by subst);
    repeat (case_match || destruct_or? || split_hyps); subst; cbn; set_solver.
Qed.

Lemma iwp_answered {A} (p : prog shE A) w : has_answered w -> iwp has_answered p w (fun _ w' => has_answered w').
Proof.
  revert w. induction p as [x|X ev k' IH]; intros w Hw; [exact Hw|]. intros x w1 Hs.
  assert (has_answered w1) by by eapply answered_step. split; [done|by apply IH].
Qed.

Lemma answered_safe w : has_answered w -> switch_safe w.
Proof. intros [H1 H2]. split; [done|by right]. Qed.

(** The new files, once the body has ended well. *)
Definition switched (ne nc nk : bytes) (w : World) : Prop :=
  files w !! env_file = Some ne /\ files w !! fullchain = Some nc /\ files w !! privkey = Some nk /\
  switch_previous ∉ dirs w /\ new_domain ∈ answered w.

Definition old_intact (w : World) : Prop :=
  rooted w /\ (files w !! env_file = Some e /\ files w !! switch_env = None) /\
  (files w !! fullchain = Some c /\ files w !! switch_fullchain = None) /\
  (files w !! privkey = Some k /\ files w !! switch_privkey = None).

(** After the answer the old files go. *)
Lemma iwp_switch_commit ne nc nk w :
  has_answered w -> files w !! env_file = Some ne -> files w !! fullchain = Some nc -> files w !! privkey = Some nk ->
  iwp switch_safe (remove_all [switch_env; switch_fullchain; switch_privkey] ;;! sh (RemoveDir switch_previous)) w
    (fun ok w' => if ok then switch_safe w' /\ switched ne nc nk w' else switch_safe w').
Proof.
  intros Ha He Hc Hk. apply iwp_must.
  apply (iwp_remove_all _ (fun w => has_answered w /\ files w !! env_file = Some ne /\ files w !! fullchain = Some nc /\ files w !! privkey = Some nk)).
  - done.
  - intros p w1 Hp ([Hr1 Ha1] & H1 & H2 & H3). split; [by split; [apply rooted_delete|]|]. set_unfold.
    destruct Hp as [->|[->|[->|[]]]]; (split_and!; by lookups).
  - intros w1 [H1 _]. by apply answered_safe.
  - clear w Ha He Hc Hk. intros ok w (Ha & He & Hc & Hk). destruct ok; [|by apply answered_safe].
    apply iwp_sh. intros x w1 Hs. pose proof (answered_step _ _ _ _ Hs Ha) as Ha1. split; [by apply answered_safe|].
    destruct x; [|by apply answered_safe]. split; [by apply answered_safe|]. destruct Ha1 as [_ Ha1].
    destruct Hs as (_ & _ & ->). split_and!; [done|done|done|cbn; set_solver|done].
Qed.

Lemma iwp_switch_body ne nc nk w :
  old_intact w -> files w !! env_sni_new = Some ne -> files w !! fullchain_sni_new = Some nc -> files w !! privkey_sni_new = Some nk ->
  iwp switch_safe (switch_body new_domain) w (fun ok w' => if ok then switch_safe w' /\ switched ne nc nk w' else switch_safe w').
Proof.
  intros (Hr & (He & He0) & (Hc & Hc0) & (Hk & Hk0)) Hne Hnc Hnk. unfold switch_body.
  do 11 (sh_step Hr ltac:(fun H => apply trio_safe; pair_now H); [|sh_controls; apply trio_safe; pair_now Hr]).
  match goal with |- iwp _ _ ?v _ =>
    assert (files v !! env_file = Some ne /\ files v !! fullchain = Some nc /\ files v !! privkey = Some nk) as (Ge & Gc & Gk) by (split_and!; by lookups);
    assert (trio_kept e c k v) as Hv by pair_now Hr; generalize dependent v end.
  clear dependent w. intros w Hr Ge Gc Gk Hw.
  apply iwp_seq, iwp_sh. intros code w1 Hs. cbn in Hs.
  destruct (String.eqb code "200") eqn:Hcode; cbn [negb].
  - assert (has_answered w1) as Ha by (subst; split; [apply Hw|cbn; set_solver]). split; [by apply answered_safe|].
    apply iwp_switch_commit; [done|by subst..].
  - assert (trio_kept e c k w1) as Hw1 by (subst; by destruct Hw). split; [by apply trio_safe|]. by apply iwp_exit, trio_safe.
Qed.

Lemma iwp_switch_script ne nc nk old_domain w :
  trio_kept e c k w -> files w !! env_sni_new = Some ne -> files w !! fullchain_sni_new = Some nc -> files w !! privkey_sni_new = Some nk ->
  iwp switch_safe (switch_script old_domain new_domain) w
    (fun ok w' => if ok then switch_safe w' /\ switched ne nc nk w' else switch_safe w').
Proof.
  intros Hw Hne Hnc Hnk. unfold switch_script. pose proof (trio_safe _ Hw) as Hs. pose proof Hw as [Hr He Hc Hk].
  sh_step Hr ltac:(fun H => done); [|done]. sh_step Hr ltac:(fun H => done); [done|].
  assert (switch_previous ∉ dirs w) as Hd.
  { match goal with Hx : false = _ || _ |- _ => symmetry in Hx; apply orb_false_iff in Hx as [_ Hx]; by apply bool_decide_eq_false in Hx end. }
  assert (old_intact w) as Hold.
  { assert (forall f, parent f = switch_previous -> files w !! f = None) as Hnone.
    { intros f Hf. apply eq_None_not_Some. intros H%Hr. by rewrite Hf in H. }
    assert (files w !! switch_env = None) as Ne by (apply Hnone; vm_compute; reflexivity).
    assert (files w !! switch_fullchain = None) as Nc by (apply Hnone; vm_compute; reflexivity).
    assert (files w !! switch_privkey = None) as Nk by (apply Hnone; vm_compute; reflexivity).
    split; [done|]. split_and!; by eauto using kept_untouched. }
  do 6 (sh_step Hr ltac:(fun H => done); [|done]).
  apply iwp_must, iwp_sh. intros x w1 Hst. cbn in Hst. destruct Hst as (d & -> & Hd1 & _ & _).
  assert (rooted (with_dirs d w)) as Hr1 by by apply rooted_dirs.
  assert (trio_kept e c k (with_dirs d w)) as Hw1 by by split.
  split; [by apply trio_safe|]. destruct x; [|by apply trio_safe].
  apply iwp_seq. eapply iwp_mono; [apply (iwp_switch_body ne nc nk); [by destruct Hold|done..]|].
  intros ok w2. destruct ok; [by intros Hok; apply iwp_exit|]. intros [Hr2 [Ht|Ha]]; apply iwp_quietly.
  - eapply iwp_weaken; [apply trio_safe|]. eapply iwp_mono; [by apply iwp_switch_rollback|]. intros ? w3 Hw3. by apply iwp_exit, trio_safe.
  - eapply iwp_weaken; [apply answered_safe|]. eapply iwp_mono; [by apply iwp_answered|]. intros ? w3 Hw3. by apply iwp_exit, answered_safe.
Qed.
End Script.

(** ** The program *)
Section Switch.
Context {x509 : X509} {printable_rune : UnicodePrint} (a : ExternalXraySNIInstaller) (previousDomain : string).
#[local] Instance switch_env_step : Env vpsE World := VpsEnv a (TrimSpace previousDomain).
#[local] Notation chain := (FullchainPEM (xa_material a)).
#[local] Notation key := (PrivateKeyPEM (xa_material a)).
#[local] Notation new_domain := (xc_SNIDomain (xa_config a)).
#[local] Notation old_domain := (TrimSpace previousDomain).

Lemma step_switch ans w w1 :
  command_step a old_domain (switch_command a old_domain) [] ans w w1 ->
  exists w2, script_step (switch_script old_domain new_domain) ans w w2 /\ w1 = with_checks false false false w2.
Proof.
  unfold command_step, script_of.
  assert (String.eqb (switch_command a old_domain) activate_command = false) as -> by reflexivity.
  assert (String.eqb (switch_command a old_domain) rollback_command = false) as -> by reflexivity.
  assert (String.eqb (switch_command a old_domain) cleanup_command = false) as -> by reflexivity.
  by rewrite String.eqb_refl.
Qed.

Lemma content_env : mf_content (switch_env_new a) = environment a.
Proof. reflexivity. Qed.
Lemma content_chain : mf_content (switch_fullchain_new a) = chain.
Proof. reflexivity. Qed.
Lemma content_key : mf_content (switch_private_key_new a) = key.
Proof. reflexivity. Qed.

Lemma step_env_new content ans w w1 :
  command_step a old_domain (write_command (quoted (mf_path (switch_env_new a))) (mf_mode (switch_env_new a))) content ans w w1 ->
  script_step (write_script xraySNIInstallDirectory env_sni_new content) ans w w1.
Proof. intros (w2 & H & ->). exact H. Qed.

Lemma step_chain_new content ans w w1 :
  command_step a old_domain (write_command (quoted (mf_path (switch_fullchain_new a))) (mf_mode (switch_fullchain_new a))) content ans w w1 ->
  script_step (write_script certs fullchain_sni_new content) ans w w1.
Proof. intros (w2 & H & ->). exact H. Qed.

Lemma step_key_new content ans w w1 :
  command_step a old_domain (write_command (quoted (mf_path (switch_private_key_new a))) (mf_mode (switch_private_key_new a))) content ans w w1 ->
  script_step (write_script certs privkey_sni_new content) ans w w1.
Proof. intros (w2 & H & ->). exact H. Qed.

(** What a switch has done when it reports success. *)
Definition switch_done (w : World) : Prop :=
  files w !! env_file = Some (environment a) /\ files w !! fullchain = Some chain /\ files w !! privkey = Some key /\
  new_domain ∈ answered w /\ confirmed w = true.

(** The final validation changes nothing the switch did. *)
Lemma iwp_switch_validate e c k w :
  has_answered new_domain w -> files w !! env_file = Some (environment a) -> files w !! fullchain = Some chain -> files w !! privkey = Some key ->
  iwp (switch_safe e c k new_domain) (Validate a) w (fun r w' => if r then switch_safe e c k new_domain w' else switch_done w').
Proof.
  intros Ha He Hc Hk. pose proof (answered_safe e c k _ _ Ha) as Hs. assert (switch_safe e c k new_domain (confirm w)) as Hs' by exact (answered_safe e c k _ (confirm w) Ha).
  apply iwp_mbind, iwp_inspectState; [done|done|]. intros s _. destruct (negb _); [exact Hs|].
  apply iwp_then, iwp_runtime; [done|done| |done].
  assert (rooted (confirm w)) as Hr by apply Ha. apply iwp_runSafe. intros ans w2 (w3 & Hst & ->)%step_cleanup.
  pose proof (script_step_rule _ _ _ _ _ _ (same_on_refl _ _ Hr) (iwp_cleanup [env_file; fullchain; privkey] _ Hr eq_refl eq_refl) Hst) as H.
  assert (same_on [env_file; fullchain; privkey] (confirm w) w3) as (Hr3 & [= _ Hcon _ Han] & Hl) by (destruct ans; [apply H|done]).
  assert (switch_safe e c k new_domain w3) as Hs3 by (split; [done|right; rewrite Han; apply Ha]). split; [done|].
  destruct ans; [|done]. split_and!; [by rewrite Hl by set_solver..|rewrite Han; apply Ha|done].
Qed.

Definition six : list string := [env_file; switch_env; fullchain; switch_fullchain; privkey; switch_privkey].

Lemma same_on_trio e c k L w w' : same_on (six ++ L) w w' -> trio_kept e c k w -> trio_kept e c k w'.
Proof. intros (Hr & _ & Hl) [_ He Hc Hk]. split; [done|..]; rewrite !Hl by (cbn; set_solver); done. Qed.

(** A staged file next to the six. *)
Lemma staged L e c k directory target content ans w w1 :
  bool_decide (target ∈ six ++ L) = false -> HasPrefix target (directory +:+ "/.provisioner.") = false ->
  forallb (fun p => negb (HasPrefix p (directory +:+ "/.provisioner."))) (six ++ L) = true -> trio_kept e c k w ->
  script_step (write_script directory target content) ans w w1 ->
  trio_kept e c k w1 /\ (forall p, p ∈ L -> files w1 !! p = files w !! p) /\ (ans <> None -> files w1 !! target = Some content).
Proof.
  intros Ht Hp HL Hw Hs.
  destruct (written_on (six ++ L) _ _ _ _ _ _ Ht Hp HL (tk_rooted _ _ _ _ Hw) Hs) as [H1 H2].
  split; [by eapply same_on_trio|]. split; [|done]. intros p Hin. apply H1. set_solver.
Qed.

Lemma iwp_switch_files e c k w Q :
  trio_kept e c k w ->
  (forall w', trio_kept e c k w' -> files w' !! env_sni_new = Some (environment a) -> files w' !! fullchain_sni_new = Some chain ->
     files w' !! privkey_sni_new = Some key -> Q None w') ->
  (forall err w', trio_kept e c k w' -> Q (Some err) w') ->
  iwp (switch_safe e c k new_domain) (write_managed_files a (switch_files a)) w Q.
Proof.
  intros Hw HN HS. unfold switch_files. cbn [write_managed_files].
  apply iwp_then, iwp_writeManagedFile; [reflexivity|reflexivity|]. intros ans1 w1 Hs1%step_env_new.
  destruct (staged [] e c k xraySNIInstallDirectory env_sni_new (mf_content (switch_env_new a)) ans1 w w1 eq_refl eq_refl eq_refl Hw Hs1) as (Hw1 & _ & He1).
  split; [by apply trio_safe|]. destruct ans1; [|by apply HS]. specialize (He1 ltac:(discriminate)). rewrite content_env in He1.
  apply iwp_then, iwp_writeManagedFile; [reflexivity|reflexivity|]. intros ans2 w2 Hs2%step_chain_new.
  destruct (staged [env_sni_new] e c k certs fullchain_sni_new (mf_content (switch_fullchain_new a)) ans2 w1 w2 eq_refl eq_refl eq_refl Hw1 Hs2) as (Hw2 & Hl2 & Hc2).
  split; [by apply trio_safe|]. destruct ans2; [|by apply HS]. specialize (Hc2 ltac:(discriminate)). rewrite content_chain in Hc2.
  apply iwp_then, iwp_writeManagedFile; [reflexivity|reflexivity|]. intros ans3 w3 Hs3%step_key_new.
  destruct (staged [env_sni_new; fullchain_sni_new] e c k certs privkey_sni_new (mf_content (switch_private_key_new a)) ans3 w2 w3 eq_refl eq_refl eq_refl Hw2 Hs3) as (Hw3 & Hl3 & Hk3).
  split; [by apply trio_safe|]. destruct ans3; [|by apply HS]. specialize (Hk3 ltac:(discriminate)). rewrite content_key in Hk3.
  apply HN; [exact Hw3| | |exact Hk3].
  - rewrite Hl3 by constructor. rewrite Hl2 by constructor. exact He1.
  - rewrite Hl3 by (constructor; constructor). exact Hc2.
Qed.

Lemma iwp_switch e c k w :
  trio_kept e c k w ->
  iwp (switch_safe e c k new_domain) (SwitchSNI a previousDomain) w (fun r w' => if r then switch_safe e c k new_domain w' else switch_done w').
Proof.
  intros Hw. pose proof (trio_safe _ _ _ new_domain _ Hw) as Hs. unfold SwitchSNI. cbv zeta. destruct (_ || _); [exact Hs|].
  apply iwp_mbind, iwp_now; [done|]. intros now. destruct (validateCertificateMaterial _ _ _); [exact Hs|].
  apply iwp_mbind, iwp_inspectState; [done|done|]. intros s _. destruct (negb _); [exact Hs|].
  apply iwp_then, (iwp_switch_files e c k); [done| |by intros err w' Hw'; apply trio_safe].
  clear w Hw Hs. intros w Hw He Hc Hk. apply iwp_then, iwp_runSafe. intros ans w1 (w2 & Hst & ->)%step_switch.
  pose proof (script_step_rule _ _ _ _ _ _ (trio_safe _ _ _ _ _ Hw) (iwp_switch_script e c k new_domain _ _ _ old_domain w Hw He Hc Hk) Hst) as H.
  assert (forall r1 c1 b1 v, switch_safe e c k new_domain v -> switch_safe e c k new_domain (with_checks r1 c1 b1 v)) as Hm.
  { intros r1 c1 b1 v [Hr [[? ? ? ?]|Ha]]; (split; [exact Hr|]); [by left; split|by right]. }
  destruct ans as [out|]; [|split; [by apply Hm|intros err; by apply Hm]].
  destruct H as [Hs2 (H1 & H2 & H3 & _ & H5)]. split; [by apply Hm|]. apply iwp_switch_validate; [by split; [apply Hs2|]|done..].
Qed.
End Switch.

(** C32. Switching a Node to another domain never loses the old one before the
    new one answers.  The VPS holds the environment [e] and the pair [(c, k)]
    of the old domain, in place or set aside by an earlier attempt.  Whatever
    command fails and wherever the switch is cut off, every state on the way
    still holds all three, unless the health address of the new domain has
    answered 200.  A switch that reports success has put the environment, the
    chain and the key of the new domain in place, has had that answer, and
    has seen the health check of the final validation pass. *)
Theorem domain_switch_keeps_the_old_files `{X509} {printable_rune : UnicodePrint} (a : ExternalXraySNIInstaller)
    (previousDomain : string) (e c k : bytes) (w : World) :
  trio_kept e c k w ->
  (forall w', @crashes _ _ (VpsEnv a (TrimSpace previousDomain)) _ (SwitchSNI a previousDomain) w w' ->
     trio_kept e c k w' \/ xc_SNIDomain (xa_config a) ∈ answered w') /\
  @always _ _ (VpsEnv a (TrimSpace previousDomain)) _ (SwitchSNI a previousDomain) w (fun _ r w' => r = None -> switch_done a w').
Proof.
  intros Hw. pose proof (iwp_switch a previousDomain e c k w Hw) as Hp. split.
  - intros w' Hc. exact (proj2 (iwp_crashes _ _ _ _ (trio_safe _ _ _ _ _ Hw) Hp w' Hc)).
  - intros tr r w' Hr ->. exact (iwp_runs _ _ _ _ Hp _ _ _ Hr).
Qed.

(** The switch of the example VPS. *)
#[local] Existing Instance example_x509.
#[local] Instance example_print : UnicodePrint := fun _ => true.

Lemma domain_switch_keeps_the_old_files_witness :
  exists tr w', @runs _ _ (VpsEnv example_installer "old.example.com") _ (SwitchSNI example_installer "old.example.com") example_world tr None w' /\
    switch_done example_installer w'.
Proof.
  pose proof (vps_handler_runs example_installer "old.example.com" 1000 (SwitchSNI example_installer "old.example.com") example_world) as Hr.
  destruct (run _ _ _) as [[tr r] w'] eqn:Hrun.
  assert (r = None) as -> by (apply (f_equal (fun x => snd (fst x))) in Hrun; vm_compute in Hrun; by symmetry).
  exists tr, w'. split; [exact Hr|].
  assert (trio_kept (bytes_of "SNI_DOMAIN=old.example.com") (bytes_of "old chain") (bytes_of "old key") example_world) as Hw
    by (split; [apply example_rooted|right; split; reflexivity..]).
  exact (proj2 (domain_switch_keeps_the_old_files example_installer "old.example.com" _ _ _ example_world Hw) tr None w' Hr eq_refl).
Defined.

(** ** What a leftover backup does

    A directory [.certificate-previous] that an earlier attempt left behind
    stops the activation of every later certificate. *)
Theorem leftover_backup_blocks_activation w :
  certificate_previous ∈ dirs w -> always activate_script w (fun _ ok w' => ok = false /\ w' = w).
Proof.
  intros Hd. apply wp_always. unfold activate_script, must, sh, negated, call, mret, prog_ret.
  intros ok1 w1 ->. destruct ok1; [|done]. intros ok2 w2 [-> ->]. destruct (present fullchain_new w); [|done].
  intros ok3 w3 [-> ->]. destruct (present privkey_new w); [|done]. intros ok4 w4 [-> ->].
  rewrite bool_decide_eq_true_2, orb_true_r by done. done.
Qed.
