(* ===== verification/XrayLegacy.v ===== *)
(** * The switch of a legacy installation

    [SwitchLegacyXraySNI] of XraySni.v: its one command runs the legacy script
    of XrayScripts.v over the files of the VPS. *)

From S2P Require Import Prelude GoStrings Utf8 Effects GoFmt Certificates Remote XraySni XrayScripts XrayWorld XrayScriptFacts XrayFacts.

#[local] Open Scope Z_scope.
#[local] Arguments iwp : simpl never.
#[local] Arguments HasPrefix : simpl never.

(** ** The script *)
Section Script.
Context (e : bytes) (new_domain : string).

Definition env_kept (w : World) : Prop := files w !! legacy_env = Some e \/ files w !! legacy_previous = Some e.
Definition legacy_safe (w : World) : Prop := env_kept w \/ new_domain ∈ answered w.

(** The copy is complete. *)
Definition copied (w : World) : Prop := files w !! legacy_previous = Some e.

Lemma copied_safe w : copied w -> legacy_safe w.
Proof. intros H. left. by right. Qed.

(** A file the script does not know by name. *)
Definition fresh_name (t : string) : Prop := t <> legacy_env /\ t <> legacy_previous.

Lemma temporary_fresh t : HasPrefix t "/root/xray-sni/.env.sni-new." = true -> fresh_name t.
Proof. intros Ht. split; intros ->; vm_compute in Ht; discriminate Ht. Qed.

Lemma copied_insert t c w : t <> legacy_previous -> copied w -> copied (with_files (<[t := c]> (files w)) w).
Proof. intros Ht Hw. unfold copied. cbn. by rewrite lookup_insert_ne. Qed.

(** A command that changes nothing. *)
Lemma iwp_look (I : World -> Prop) {X} (ev : shE X) w (Q : X -> World -> Prop) :
  (forall x w1, env_step ev w x w1 -> w1 = w) -> I w -> (forall x, Q x w) -> iwp I (call ev) w Q.
Proof. intros He HI HQ. apply iwp_sh. intros x w1 ->%He. by split. Qed.

Lemma iwp_legacy_rollback old_domain w :
  copied w -> iwp legacy_safe (legacy_rollback old_domain) w (fun _ w' => legacy_safe w').
Proof.
  intros Hw. pose proof (copied_safe _ Hw) as Hs. unfold legacy_rollback. apply iwp_seq, iwp_sh. intros x w1 [-> _]. split; [done|].
  destruct x; [|by apply iwp_exit]. apply iwp_quietly, iwp_sh. intros moved w1 Hm.
  assert (env_kept w1) as H1.
  { destruct moved; [|rewrite Hm; right; exact Hw]. destruct Hm as (c & Hc & _ & ->). unfold copied in Hw. left. cbn. rewrite lookup_insert_eq. congruence. }
  split; [by left|]. apply iwp_quietly, iwp_sh. intros y w2 ->. split; [by left|].
  apply iwp_seq, iwp_sh. intros code w2 ->. split; [by left|]. by apply iwp_exit; left.
Qed.

(** Waiting keeps the copy and learns the answer. *)
Lemma iwp_wait_healthy n code w :
  copied w -> (code = "200" -> new_domain ∈ answered w) ->
  iwp legacy_safe (wait_healthy n new_domain code) w (fun code' w' => copied w' /\ (code' = "200" -> new_domain ∈ answered w')).
Proof.
  revert code w. induction n as [|n IH]; intros code w Hw Hc; [by apply iwp_exit|]. cbn [wait_healthy].
  apply iwp_seq, iwp_sh. intros code1 w1 Hst. cbn in Hst.
  assert (copied w1) as H1 by by subst.
  assert (code1 = "200" -> new_domain ∈ answered w1) as Hc1.
  { intros ->. subst w1. cbn. set_solver. }
  split; [by apply copied_safe|]. destruct (String.eqb code1 "200"); [by apply iwp_exit|].
  apply iwp_seq, iwp_sh. intros slept w2 ->. split; [by apply copied_safe|]. destruct slept; [by apply IH|by apply iwp_exit].
Qed.

Lemma iwp_legacy_body w :
  copied w ->
  iwp legacy_safe (legacy_body new_domain) w
    (fun ok w' => if ok then new_domain ∈ answered w' /\ files w' !! legacy_previous = None else copied w').
Proof.
  intros Hw. unfold legacy_body. apply iwp_seq, iwp_sh. intros [t|] w1 Ht; cbn in Ht; [|subst; split; [by apply copied_safe|done]].
  destruct Ht as (Hp & _ & _ & _ & ->). apply temporary_fresh in Hp as [Hne Hnp].
  assert (copied (with_files (<[t := []]> (files w)) w)) as H1 by by apply copied_insert.
  split; [by apply copied_safe|]. clear Hw. revert H1. generalize (with_files (<[t := []]> (files w)) w). clear w. intros w Hw.
  apply iwp_must, iwp_sh. intros x w1 Hst. assert (copied w1) as H1 by (destruct Hst as [->|(c & _ & ->)]; [done|by apply copied_insert]).
  split; [by apply copied_safe|]. destruct x; [|exact H1]. clear w Hst Hw.
  do 2 (apply iwp_must, iwp_sh; intros [|] w ->; (split; [by apply copied_safe|]); [|done]).
  apply iwp_must, iwp_sh. intros x w2 Hst.
  assert (copied w2) as H2.
  { cbn in Hst. destruct x; [|by subst w2]. destruct Hst as (c & _ & _ & ->). unfold copied. cbn. rewrite lookup_insert_ne by (intros E; vm_compute in E; discriminate E).
    by rewrite lookup_delete_ne. }
  split; [by apply copied_safe|]. destruct x; [|done].
  do 2 (apply iwp_must, iwp_sh; intros [|] w ->; (split; [by apply copied_safe|]); [|done]).
  apply iwp_seq. eapply iwp_mono; [apply iwp_wait_healthy; [done|discriminate]|]. intros code w3 [Hc3 Ha3].
  destruct (String.eqb code "200") eqn:Hcode; [|by apply iwp_exit].
  apply String.eqb_eq in Hcode. specialize (Ha3 Hcode). cbn [negb]. apply iwp_sh. intros x w4 Hst4. cbn in Hst4.
  destruct x; subst w4; (split; [by right|]); [|done]. split; [done|]. cbn. by rewrite lookup_delete_eq.
Qed.

Lemma iwp_legacy_script old_domain w :
  env_kept w ->
  iwp legacy_safe (legacy_script old_domain new_domain) w
    (fun ok w' => legacy_safe w' /\ (ok = true -> new_domain ∈ answered w' /\ files w' !! legacy_previous = None)).
Proof.
  intros Hw. assert (legacy_safe w) as Hs by by left. unfold legacy_script.
  do 3 (apply iwp_must, iwp_look; [intros x w1 Hst; cbn in Hst; tauto|done|]; intros [|]; [|by split]).
  apply iwp_seq, iwp_sh. intros composed w1 [-> _]. split; [done|].
  apply iwp_must.
  assert (forall Q : bool -> World -> Prop, (forall b, Q b w) -> iwp legacy_safe (if composed then mret true else sh (TestFile "/root/xray-sni/compose.yml")) w Q) as Hif.
  { intros Q HQ. destruct composed; [by apply iwp_exit|]. apply iwp_sh. intros x w1 [-> _]. by split. }
  apply Hif. intros b. destruct b; [|by split].
  apply iwp_must, iwp_negated, iwp_sh. intros x w1 [-> Hx]. split; [done|]. destruct x; cbn [negb]; [by split|].
  symmetry in Hx. apply orb_false_iff in Hx as [Hx _]. apply present_spec in Hx.
  destruct Hw as [Hw|Hw]; [|congruence].
  apply iwp_must, iwp_sh. intros x w1 Hst.
  assert (legacy_safe w1 /\ (x = true -> copied w1)) as [Hs1 Hc1].
  { assert (forall c, legacy_safe (with_files (<[legacy_previous := c]> (files w)) w)) as Hins
      by (intros cc; left; left; cbn; by rewrite lookup_insert_ne by (intros E; vm_compute in E; discriminate E)).
    cbn in Hst. destruct x; [|by destruct Hst as [Hst|(c & Hcr & Hst)]; subst w1].
    destruct Hst as (c & Hc & Hcr & Hst). subst w1. split; [done|]. intros _.
    unfold copied. cbn. rewrite lookup_insert_eq. congruence. }
  split; [done|]. destruct x; [|by split]. specialize (Hc1 eq_refl).
  apply iwp_seq. eapply iwp_mono; [by apply iwp_legacy_body|]. intros ok w2 H2. destruct ok.
  - apply iwp_exit. split; [right; apply H2|done].
  - apply iwp_quietly. eapply iwp_mono; [by apply iwp_legacy_rollback|]. intros b w3 H3. by apply iwp_exit.
Qed.
End Script.

(** ** The program *)
Section Program.
Context {printable_rune : UnicodePrint} (previousDomain targetDomain : string).

Definition LegacyEnv : Env vpsE World := fun X e w x w' =>
  match e in vpsE X return X -> Prop with
  | RunCommand _ command _ _ => fun x =>
      if String.eqb command (legacy_command (TrimSpace previousDomain) (TrimSpace targetDomain))
      then script_step (legacy_script (TrimSpace previousDomain) (TrimSpace targetDomain)) x w w'
      else w' = w
  | VpsCtxDone _ => fun _ => w' = w
  | VpsNow => fun _ => w' = w
  end x.
#[local] Existing Instance LegacyEnv.

Definition legacy_switched (w : World) : Prop := TrimSpace targetDomain ∈ answered w /\ files w !! legacy_previous = None.

Lemma iwp_SwitchLegacy e timeout w :
  env_kept e w ->
  iwp (legacy_safe e (TrimSpace targetDomain)) (SwitchLegacyXraySNI previousDomain targetDomain timeout) w
    (fun r w' => r = None -> legacy_switched w').
Proof.
  intros Hw. unfold SwitchLegacyXraySNI. cbv zeta. destruct (_ || _); [apply iwp_ret; discriminate|].
  apply iwp_mbind, iwp_call. intros ans w1 Hst. cbn in Hst. rewrite String.eqb_refl in Hst.
  pose proof (iwp_legacy_script e (TrimSpace targetDomain) (TrimSpace previousDomain) w Hw) as Hp.
  assert (legacy_safe e (TrimSpace targetDomain) w) as Hs by by left.
  pose proof (script_step_rule _ _ _ _ _ _ Hs Hp Hst) as H1.
  assert (legacy_safe e (TrimSpace targetDomain) w1) as Hs1 by (destruct ans; [exact (proj1 H1)|exact H1]).
  split; [done|]. destruct ans; [apply iwp_ret; intros _; exact (proj2 H1 eq_refl)|].
  apply iwp_mbind, iwp_call. intros over w2 ->. split; [done|]. apply iwp_ret. discriminate.
Qed.
End Program.

(** Switching the domain of a legacy installation never loses its
    environment file before the new domain answers.  Wherever the command is
    cut off and whichever step of it fails, the old content is the
    environment file or its backup, unless the health address of the new
    domain has answered 200; and a switch that reports success has had that
    answer and has removed the backup. *)
Theorem legacy_switch_keeps_the_old_environment {printable_rune : UnicodePrint} (previousDomain targetDomain : string) (timeout : Z)
    (e : bytes) (w : World) :
  env_kept e w ->
  (forall w', @crashes _ _ (LegacyEnv previousDomain targetDomain) _ (SwitchLegacyXraySNI previousDomain targetDomain timeout) w w' ->
     files w' !! legacy_env = Some e \/ files w' !! legacy_previous = Some e \/ TrimSpace targetDomain ∈ answered w') /\
  @always _ _ (LegacyEnv previousDomain targetDomain) _ (SwitchLegacyXraySNI previousDomain targetDomain timeout) w
    (fun _ r w' => r = None -> TrimSpace targetDomain ∈ answered w' /\ files w' !! legacy_previous = None).
Proof.
  intros Hw. pose proof (iwp_SwitchLegacy previousDomain targetDomain e timeout w Hw) as Hp. split.
  - intros w' Hc. assert (legacy_safe e (TrimSpace targetDomain) w) as Hs by by left.
    destruct (iwp_crashes _ _ _ _ Hs Hp w' Hc) as [[H|H]|H]; auto.
  - intros tr r w' Hr. exact (iwp_runs _ _ _ _ Hp _ _ _ Hr).
Qed.

(** The switch of an example VPS, cut off after the backup was made. *)
Definition legacy_world : World := mkWorld
  {[ legacy_env := bytes_of "SNI_DOMAIN=old.example.com"; "/root/xray-sni/Caddyfile" := []; "/root/xray-sni/compose.yml" := [] ]}
  {[ legacyXraySNIInstallDirectory ]} ∅ false false false.

Lemma legacy_switch_keeps_the_old_environment_witness :
  let w : World := legacy_world in
  env_kept (bytes_of "SNI_DOMAIN=old.example.com") w /\ snd (fst (run sh_handler (legacy_script "old.example.com" "new.example.com") w)) = true /\ (forall w', @crashes _ _ (@LegacyEnv (fun _ => true) "old.example.com" "new.example.com") _
      (@SwitchLegacyXraySNI (fun _ => true) "old.example.com" "new.example.com" Minute) w w' ->
    files w' !! legacy_env = Some (bytes_of "SNI_DOMAIN=old.example.com") \/
    files w' !! legacy_previous = Some (bytes_of "SNI_DOMAIN=old.example.com") \/ TrimSpace "new.example.com" ∈ answered w').
Proof.
  intros w. assert (env_kept (bytes_of "SNI_DOMAIN=old.example.com") w) as Hw by (left; reflexivity).
  split; [exact Hw|]. split; [vm_compute; reflexivity|].
  exact (proj1 (@legacy_switch_keeps_the_old_environment (fun _ => true) "old.example.com" "new.example.com" Minute _ w Hw)).
Defined.
