(* ===== verification/Stages.v ===== *)
(** * The provisioning stages

    Models [internal/provisioner/stages.go]: the twelve stages of a
    deployment with the files and commands of each, as texts of the source. *)

From S2P Require Import Prelude GoStrings GoText NetIP Effects GoFmt CertTypes Certificates Provisioner Remote.

#[local] Open Scope Z_scope.

(** ** The managed files and fixed commands *)
Definition sysctlConfig : string := "net.core.somaxconn = 65535
net.core.netdev_max_backlog = 65535
net.core.rmem_max = 16777216
net.core.wmem_max = 16777216
net.ipv4.tcp_rmem = 4096 87380 16777216
net.ipv4.tcp_wmem = 4096 65536 16777216
net.ipv4.tcp_max_syn_backlog = 65535
net.ipv4.ip_local_port_range = 1024 65535
net.ipv4.tcp_fin_timeout = 15
net.ipv4.tcp_tw_reuse = 1
net.netfilter.nf_conntrack_max = 262144
net.core.default_qdisc = fq
net.ipv4.tcp_congestion_control = bbr
".

Definition limitsConfig : string := "* soft nofile 300000
* hard nofile 300000
root soft nofile 300000
root hard nofile 300000
".

Definition systemdLimits : string := "[Manager]
DefaultLimitNOFILE=300000
".

Definition fail2banConfig : string := "[sshd]
enabled = true
backend = systemd
".

Definition logrotateConfig : string := "/var/log/remnanode/*.log {
    size 50M
    rotate 5
    compress
    missingok
    notifempty
    copytruncate
}
".

Definition speedtestCompose : string := raw "services:
  speedtest-exporter:
    image: kutovoys/speedtest-exporter:latest
    container_name: speedtest-exporter
    restart: always
    environment:
      SERVER_IDS: `32983`
      UPDATE_INTERVAL: `60`
      METRICS_PROTECTED: `false`
    ports:
      - `9200:9090`
".

Definition nodeExporterService : string := "[Unit]
Description=Prometheus Node Exporter
After=network-online.target
Wants=network-online.target

[Service]
User=node_exporter
Group=node_exporter
Type=simple
ExecStart=/usr/local/bin/node_exporter
Restart=on-failure

[Install]
WantedBy=multi-user.target
".

Definition dockerInspect : string := "if command -v docker >/dev/null 2>&1 && docker compose version >/dev/null 2>&1 && systemctl is-active --quiet docker; then printf ready; else printf pending; fi".

Definition dockerApply : string := raw "set -eu
export DEBIAN_FRONTEND=noninteractive
. /etc/os-release
case `$ID` in ubuntu|debian) ;; *) exit 2 ;; esac
apt-get update
apt-get install -y ca-certificates curl gpg
install -m 0755 -d /etc/apt/keyrings
curl --fail --silent --show-error --location `https://download.docker.com/linux/$ID/gpg` --output /etc/apt/keyrings/docker.asc
chmod a+r /etc/apt/keyrings/docker.asc
arch=$(dpkg --print-architecture)
printf 'deb [arch=%s signed-by=/etc/apt/keyrings/docker.asc] https://download.docker.com/linux/%s %s stable\n' `$arch` `$ID` `$VERSION_CODENAME` > /etc/apt/sources.list.d/docker.list
apt-get update
apt-get install -y docker-ce docker-ce-cli containerd.io docker-buildx-plugin docker-compose-plugin
systemctl enable --now docker".

Definition remnanodeValidate : string := raw "attempt=0
while [ `$attempt` -lt 30 ]; do
    if docker inspect -f '{{.State.Running}}' remnanode 2>/dev/null | grep -qx true && ss -lnt | awk '{print $4}' | grep -Eq '(^|:)2222$'; then
        printf ready
        exit 0
    fi
    attempt=$((attempt + 1))
    sleep 1
done
printf pending".

Definition healthcheckCommand : string := "if systemctl is-active --quiet docker &&
docker inspect -f '{{.State.Running}}' remnanode 2>/dev/null | grep -qx true &&
systemctl is-active --quiet node_exporter &&
docker inspect -f '{{.State.Running}}' speedtest-exporter 2>/dev/null | grep -qx true &&
ss -lnt | awk '{print $4}' | grep -Eq '(^|:)2222$' &&
ss -lnt | awk '{print $4}' | grep -Eq '(^|:)9100$' &&
ss -lnt | awk '{print $4}' | grep -Eq '(^|:)9200$'; then printf ready; else printf pending; fi".

(** ** The checks of the parameters *)

(** [^[A-Za-z0-9_+/-]+$]. *)
Definition timezone_byte (a : ascii) : bool :=
  byte_in 65 90 a || byte_in 97 122 a || byte_in 48 57 a || str_exists (Ascii.eqb a) "_+/-".
Definition valid_timezone (s : string) : bool :=
  negb (String.eqb s "") && negb (str_exists (fun a => negb (timezone_byte a)) s).

(** [^[0-9]+\.[0-9]+\.[0-9]+$]. *)
Definition digits (s : string) : bool := negb (String.eqb s "") && negb (str_exists (fun a => negb (byte_in 48 57 a)) s).
Definition valid_version (s : string) : bool :=
  match Split s "." with [a; b; c] => digits a && digits b && digits c | _ => false end.

Section Stages.
Context `{X509} {printable_rune : UnicodePrint}.

(** ** Commands that depend on the configuration *)
Definition systemInspect (timezone : string) : string := Sprintf (raw "ready=true
	for package in mc htop btop iftop curl wget ca-certificates git; do
    dpkg-query -W -f='${Status}' `$package` 2>/dev/null | grep -qx 'install ok installed' || ready=false
done
if [ `$(timedatectl show -p Timezone --value)` != %q ]; then ready=false; fi
if [ `$ready` = true ]; then printf ready; else printf pending; fi") [FStr timezone].

Definition systemApply (timezone : string) : string := Sprintf ("set -eu
export DEBIAN_FRONTEND=noninteractive
apt-get update
apt-get upgrade -y
apt-get install -y mc htop btop iftop curl wget ca-certificates git
timedatectl set-timezone %s") [FStr timezone].

Definition nodeInspect (version : string) : string := Sprintf ("if command -v node_exporter >/dev/null 2>&1 && node_exporter --version 2>&1 | grep -Fq 'version %s' && systemctl is-active --quiet node_exporter; then printf ready; else printf pending; fi") [FStr version].

Definition nodeApply (version : string) : string := Sprintf (raw "set -eu
arch=$(uname -m)
case `$arch` in x86_64) arch=amd64 ;; aarch64) arch=arm64 ;; *) exit 2 ;; esac
version=%s
filename=`node_exporter-${version}.linux-${arch}.tar.gz`
work=$(mktemp -d)
trap 'rm -rf `$work`' EXIT
curl --fail --silent --show-error --location `https://github.com/prometheus/node_exporter/releases/download/v${version}/${filename}` --output `$work/$filename`
curl --fail --silent --show-error --location `https://github.com/prometheus/node_exporter/releases/download/v${version}/sha256sums.txt` --output `$work/sha256sums.txt`
(cd `$work` && grep `  ${filename}$` sha256sums.txt | sha256sum --check --status)
tar -xzf `$work/$filename` -C `$work`
install -m 0755 `$work/node_exporter-${version}.linux-${arch}/node_exporter` /usr/local/bin/node_exporter
id node_exporter >/dev/null 2>&1 || useradd --system --no-create-home --shell /usr/sbin/nologin node_exporter
systemctl daemon-reload
systemctl enable --now node_exporter") [FStr version].

Definition buildRemnanodeCompose (secret : bytes) : bytes :=
  bytes_of (Sprintf (raw "services:
  remnanode:
    image: remnawave/node:3.0.0
    container_name: remnanode
    hostname: remnanode
    network_mode: host
    restart: always
    cap_add:
      - NET_ADMIN
    ulimits:
      nofile:
        soft: 1048576
        hard: 1048576
    environment:
      NODE_PORT: `2222`
      SECRET_KEY: %s
    volumes:
      - /var/log/remnanode:/var/log/remnanode
") [FStr (json_string (string_of_bytes secret))]).

(** ** The firewall *)
Record rule : Type := mkRule { marker : string; expected : string; rule_command : string }.

Definition fixed_rules (panelIP metricsIP : string) : list rule :=
  [mkRule "deployer-ssh" "22/tcp" "ufw allow 22/tcp comment 'deployer-ssh'";
   mkRule "deployer-https" "443/tcp" "ufw allow 443/tcp comment 'deployer-https'";
   mkRule "deployer-remnanode" panelIP
     (Sprintf "ufw allow from %s to any port 2222 proto tcp comment 'deployer-remnanode'" [FStr panelIP]);
   mkRule "deployer-node-metrics" metricsIP
     (Sprintf "ufw allow from %s to any port 9100 proto tcp comment 'deployer-node-metrics'" [FStr metricsIP]);
   mkRule "deployer-speedtest-metrics" metricsIP
     (Sprintf "ufw allow from %s to any port 9200 proto tcp comment 'deployer-speedtest-metrics'" [FStr metricsIP]);
   mkRule "deployer-smtp-block" "25/tcp" "ufw deny out 25/tcp comment 'deployer-smtp-block'"].

Definition blocked : list string :=
  ["178.162.203.0/24"; "45.159.79.0/24"; "85.17.155.0/24"; "185.221.222.0/24"; "89.150.57.0/24"; "46.165.199.0/24";
   "178.162.202.0/24"; "85.17.70.0/24"; "64.62.203.0/24"].

Fixpoint blocked_rules (index : Z) (l : list string) : list rule :=
  match l with
  | [] => []
  | cidr :: l' =>
    let markerIn := Sprintf "deployer-block-%d-in" [FInt (index + 1)] in
    let markerOut := Sprintf "deployer-block-%d-out" [FInt (index + 1)] in
    mkRule markerIn cidr (Sprintf "ufw deny from %s comment '%s'" [FStr cidr; FStr markerIn]) ::
    mkRule markerOut cidr (Sprintf "ufw deny out to %s comment '%s'" [FStr cidr; FStr markerOut]) ::
    blocked_rules (index + 1) l'
  end.

Definition rules (panelIP metricsIP : string) : list rule := fixed_rules panelIP metricsIP ++ blocked_rules 0 blocked.

Definition rule_check (r : rule) : string :=
  Sprintf (raw "printf '%%s\n' `$status` | grep -F %q | grep -Fq %q") [FStr (marker r); FStr (expected r)].

Definition rule_apply (r : rule) : string := Sprintf (raw "if ! printf '%%s\n' `$status` | grep -F %q | grep -Fq %q; then
    while number=$(printf '%%s\n' `$status` | awk -v marker=%q 'index($0, marker) {gsub(/[][]/, ``, $1); print $1; exit}') && [ -n `$number` ]; do
        ufw --force delete `$number`
        status=$(ufw status numbered)
    done
    %s
    status=$(ufw status numbered)
fi") [FStr (marker r); FStr (expected r); FStr (marker r); FStr (rule_command r)].

Definition firewall_check (panelIP metricsIP : string) : string :=
  "status=$(ufw status numbered 2>/dev/null || true); if " +:+ Join (rule_check <$> rules panelIP metricsIP) " && " +:+ raw " && printf '%s\n' `$status` | grep -q '^Status: active'; then printf ready; else printf pending; fi".

Definition firewall_apply (panelIP metricsIP : string) : string :=
  "set -eu
export DEBIAN_FRONTEND=noninteractive
if ! command -v ufw >/dev/null 2>&1; then apt-get update; apt-get install -y ufw; fi
if ! ufw show added | grep -Fq 'deployer-ssh'; then ufw allow 22/tcp comment 'deployer-ssh'; fi
ufw --force enable
status=$(ufw status numbered)
" +:+ Join (rule_apply <$> rules panelIP metricsIP) (String chr_nl "") +:+ "
true".

Definition firewallCommands (panelIP metricsIP : string) : string * string * string :=
  (firewall_check panelIP metricsIP, firewall_apply panelIP metricsIP, firewall_check panelIP metricsIP).

(** ** The list of the stages *)
Definition fixed_file (path content : string) : managedFile := mkManagedFile path "0644" (bytes_of content).

Definition default_stages (config : Config) : list remoteStage :=
  let remote name inspect apply validate files := mkRemoteStage name (pc_CommandTimeout config) files inspect apply validate in
  let '(firewallInspect, firewallApply, firewallValidate) :=
    firewallCommands (addr_string (pc_RemnawaveAPIIP config)) (addr_string (pc_MetricsIP config)) in
  [remote "system" (systemInspect (pc_Timezone config)) (systemApply (pc_Timezone config)) (systemInspect (pc_Timezone config)) [];
   remote "docker" dockerInspect dockerApply dockerInspect [];
   remote "sysctl" "" ("set -eu
modprobe nf_conntrack
sysctl --system >/dev/null") (raw "if [ `$(sysctl -n net.ipv4.tcp_congestion_control)` = bbr ] && [ `$(sysctl -n net.netfilter.nf_conntrack_max)` = 262144 ]; then printf ready; else printf pending; fi")
     [fixed_file "/etc/modules-load.d/remnanode.conf" ("nf_conntrack" +:+ String chr_nl "");
      fixed_file "/etc/sysctl.d/99-remnanode.conf" sysctlConfig];
   remote "limits" "" "systemctl daemon-reexec" ("if systemctl show --property DefaultLimitNOFILE | grep -q '=300000$'; then printf ready; else printf pending; fi")
     [fixed_file "/etc/security/limits.d/99-remnanode.conf" limitsConfig;
      fixed_file "/etc/systemd/system.conf.d/99-remnanode.conf" systemdLimits];
   remote "firewall" firewallInspect firewallApply firewallValidate [];
   remote "fail2ban" ("if command -v fail2ban-client >/dev/null 2>&1 && systemctl is-active --quiet fail2ban; then printf ready; else printf pending; fi") ("set -eu
export DEBIAN_FRONTEND=noninteractive
apt-get update
apt-get install -y fail2ban
systemctl enable --now fail2ban") ("if systemctl is-active --quiet fail2ban && fail2ban-client status sshd >/dev/null 2>&1; then printf ready; else printf pending; fi")
     [fixed_file "/etc/fail2ban/jail.d/remnanode-sshd.local" fail2banConfig];
   remote "remnanode" ("if docker inspect -f '{{.State.Running}}' remnanode 2>/dev/null | grep -qx true; then printf ready; else printf pending; fi") ("set -eu
install -d -m 0755 /var/log/remnanode
docker compose -f /opt/remnanode/docker-compose.yml up -d --remove-orphans") remnanodeValidate
     [mkManagedFile "/opt/remnanode/docker-compose.yml" "0600" (buildRemnanodeCompose (pc_remnanodeSecret config))];
   remote "node_exporter" (nodeInspect (pc_NodeExporterVersion config)) (nodeApply (pc_NodeExporterVersion config)) ("if systemctl is-active --quiet node_exporter && ss -lnt | awk '{print $4}' | grep -Eq '(^|:)9100$'; then printf ready; else printf pending; fi")
     [fixed_file "/etc/systemd/system/node_exporter.service" nodeExporterService];
   remote "speedtest_exporter" ("if docker inspect -f '{{.State.Running}}' speedtest-exporter 2>/dev/null | grep -qx true; then printf ready; else printf pending; fi") ("docker compose -f /opt/speedtest-exporter/docker-compose.yml up -d --remove-orphans") ("if docker inspect -f '{{.State.Running}}' speedtest-exporter 2>/dev/null | grep -qx true && ss -lnt | awk '{print $4}' | grep -Eq '(^|:)9200$'; then printf ready; else printf pending; fi")
     [fixed_file "/opt/speedtest-exporter/docker-compose.yml" speedtestCompose];
   remote "logrotate" ("if command -v logrotate >/dev/null 2>&1; then printf ready; else printf pending; fi") ("set -eu
export DEBIAN_FRONTEND=noninteractive
apt-get update
apt-get install -y logrotate") ("if logrotate --debug /etc/logrotate.d/remnanode >/dev/null 2>&1; then printf ready; else printf pending; fi")
     [fixed_file "/etc/logrotate.d/remnanode" logrotateConfig];
   remote "healthcheck" healthcheckCommand "" healthcheckCommand []].

Definition NewDefaultStages (config : Config) (xray : XraySNIInstaller) : option (list Stage) :=
  match normalized config with
  | None => None
  | Some config =>
    if negb (valid_timezone (pc_Timezone config)) || negb (valid_version (pc_NodeExporterVersion config)) then None
    else
      let remote := remote_stage <$> default_stages config in
      Some (take 10 remote ++ [xraySNIStage xray] ++ drop 10 remote)
  end.
End Stages.
