(* ===== verification/Service.v ===== *)
(** * The deployment workflow ([internal/orchestrator])

    Models [types.go], [service.go] and the part of [vps.go] and
    [certificate.go] the workflow uses: the durable stages of a deployment,
    their order, their failure states, the resume and retry operations and
    the execution slots.  Everything the service calls (the repository, the
    Remnawave and DNS clients, the certificate provider, the VPS operator, the
    observer, the progress sink, the context, timers and its own guarded map of
    running executions) is one effect signature. *)

From S2P Require Import Prelude GoStrings Utf8 Unicode NetIP Effects Deployment Repository CertTypes.
From S2P Require Remnawave DnsBalancer Preflight Provisioner.

#[local] Open Scope Z_scope.

Notation Host := Remnawave.Host.
Notation Node := Remnawave.Node.
Notation DeploymentProfile := Remnawave.DeploymentProfile.
Notation remErr := Remnawave.remErr.
Notation dnsErr := DnsBalancer.dnsErr.
Notation PreflightResult := Preflight.PreflightResult.
Notation Report := Provisioner.Report.

(** ** Data ([types.go]) *)
Inductive errKind : Type :=
  | ErrInvalidInput
  | ErrHostUnavailable
  | ErrDuplicateNodeName
  | ErrDuplicateNodeAddress
  | ErrPreflightFailed
  | ErrCertificateUnavailable
  | ErrProvisioningFailed
  | ErrRemnawaveCreationFailed
  | ErrNodeConnectionFailed
  | ErrNodeConnectionTimeout
  | ErrDNSUpdateFailed
  | ErrDNSRetryRequired
  | ErrDeploymentAlreadyRunning
  | ErrDeploymentNotRunnable
  | ErrPersistenceFailed
  (* ip_change.go, dns_sync.go, node_host_move.go, node_sni.go *)
  | ErrNodeIPChangeFailed
  | ErrNodeNotFound
  | ErrAmbiguousNode
  | ErrDNSSyncUnavailable
  | ErrDNSTargetUnknown
  | ErrNodeHostMoveFailed
  | ErrNodeStateChanged
  | ErrNodeHostUnchanged
  | ErrNodeSNISwitchFailed.

#[export] Instance errKind_eq_dec : EqDecision errKind.
Proof. solve_decision. Defined.

Inductive ctxErr : Type := Canceled | DeadlineExceeded.

(** The contexts of an operation: the caller's, the execution's and the
    poll's.  [ctx.Err] is sticky, so a test followed by the return of the
    error is one look. *)
Inductive ctxId : Type := ParentCtx | RunCtx | PollCtx.

Inductive svcErr : Type :=
  | Sentinel (k : errKind)
  | Join (a b : svcErr)
  | SafeError (Code SafeMessage : string) (Kind : svcErr)
  | CtxError (e : ctxErr)
  | RepoError (e : repoErr)
  | nodeConnectionError (code message : string) (kind : errKind).

#[export] Instance ctxErr_eq_dec : EqDecision ctxErr.
Proof. solve_decision. Defined.
#[export] Instance svcErr_eq_dec : EqDecision svcErr.
Proof. solve_decision. Defined.

(** [errors.Is(err, k)], with [SafeError.Unwrap]. *)
Fixpoint svc_is (e : svcErr) (k : errKind) : bool :=
  match e with
  | Sentinel k' => bool_decide (k' = k)
  | Join a b => svc_is a k || svc_is b k
  | SafeError _ _ kind => svc_is kind k
  | _ => false
  end.

(** [SafeError.Error]. *)
Definition SafeError_Error (SafeMessage : string) : string :=
  if String.eqb SafeMessage "" then "deployment operation failed" else SafeMessage.

Record Config : Type := mkConfig {
  cfg_PanelID : string;
  cfg_DNSDisabled : bool;
  cfg_MaxConcurrentDeployments : Z;
  cfg_NodeConnectTimeout : Z;
  cfg_InitialPollBackoff : Z;
  cfg_MaxPollBackoff : Z;
  cfg_Observer : bool;
  cfg_Bootstrapper : bool;
  cfg_NodeSNISwitcher : bool
}.

Record PrepareInput : Type := mkPrepareInput {
  pi_PanelID : string;
  pi_OperatorUserID : Z;
  pi_HostID : string;
  pi_NodeName : string;
  pi_VPSIP : Addr;
  pi_Password : string
}.

Record OperatorNotice : Type := mkOperatorNotice { not_Code : string; not_Message : string }.

Record PreparedDeployment : Type := mkPreparedDeployment {
  prep_Deployment : Deployment;
  prep_DNSZone : string;
  prep_CertificateReadiness : Readiness;
  prep_ConfigProfileReadiness : bool;
  prep_Warnings : list OperatorNotice
}.

Record StartInput : Type := mkStartInput {
  si_DeploymentID : string;
  si_OperatorUserID : Z;
  si_HostID : string;
  si_NodeName : string;
  si_VPSIP : Addr
}.

Record Progress : Type := mkProgress {
  prog_Step : string;
  prog_Completed : Z;
  prog_Total : Z;
  prog_SafeMessage : string;
  prog_Status : option StepStatus;
  prog_Code : string
}.

Record SafeLogEntry : Type := mkSafeLogEntry {
  log_Step : string;
  log_Status : string;
  log_Summary : string;
  log_Code : string;
  log_StartedAt : option Z;
  log_CompletedAt : option Z
}.

Record PreflightVPSInput : Type := mkPreflightVPSInput {
  pvi_DeploymentID : string;
  pvi_Address : Addr;
  pvi_Password : string
}.

Record ProvisionVPSInput : Type := mkProvisionVPSInput {
  pro_DeploymentID : string;
  pro_Address : Addr;
  pro_SNIDomain : string;
  pro_RemnanodeSecretKey : string;
  pro_Certificate : Material
}.

Record NodeSNISwitchInput : Type := mkNodeSNISwitchInput {
  sw_Address : Addr;
  sw_PreviousSNI : string;
  sw_TargetSNI : string;
  sw_Password : string;
  sw_PreviousCertificate : Material;
  sw_Certificate : Material
}.

(** The error of [VPSOperator.Provision]: the predefined phase text of a
    [provisioningPhaseError], or any other error. *)
Inductive vpsErr : Type := provisioningPhaseError (message : string) | OtherError.

(** [safeProvisioningMessage]. *)
Definition safeProvisioningMessage (e : vpsErr) : string :=
  match e with
  | provisioningPhaseError message =>
    if String.eqb (TrimSpace message) "" then "VPS provisioning failed" else message
  | OtherError => "VPS provisioning failed"
  end.

(** What the observer is told. *)
Inductive observation : Type :=
  | DeploymentCreated
  | DeploymentFailed
  | ActiveDeployment (delta : Z)
  | DeploymentDuration (d : Z)
  | ProvisioningStepDuration (name : string) (d : Z).

(** ** Effects *)
Inductive svcE : Type -> Type :=
  | CtxErr (c : ctxId) : svcE (option ctxErr)
  | RunningInsert (id : string) : svcE bool
  | RunningRemove (id : string) : svcE unit
  | RunningCancel (id : string) : svcE unit
  | SlotAcquire : svcE (option ctxErr)
  | SlotRelease : svcE unit
  | Observe (o : observation) : svcE unit
  | Since : svcE Z
  | Emit (p : Progress) : svcE unit
  | RepoCreate (p : CreateDeploymentParams) : svcE (result repoErr Deployment)
  | RepoGet (id : string) : svcE (result repoErr Deployment)
  | RepoUpdateState (id : string) (p : UpdateDeploymentStateParams) : svcE (result repoErr Deployment)
  | RepoSetNode (id uuid : string) : svcE (result repoErr Deployment)
  | RepoRecordStep (p : RecordStepParams) : svcE (result repoErr Step)
  | RepoListSteps (id : string) : svcE (result repoErr (list Step))
  | RepoFindByNode (panel uuid : string) : svcE (result repoErr Deployment)
  | RepoSetIP (id : string) (ip : Addr) : svcE (result repoErr Deployment)
  | RepoSetBinding (id : string) (p : SetNodeHostBindingParams) : svcE (result repoErr Deployment)
  | RemGetHosts : svcE (result remErr (list Host))
  | RemGenerateSecretKey : svcE (result remErr string)
  | RemGetNodes : svcE (result remErr (list Node))
  | RemGetNode (uuid : string) : svcE (result remErr Node)
  | RemCreateNode (i : Remnawave.CreateNodeInput) : svcE (result remErr Node)
  | RemUpdateAddress (i : Remnawave.UpdateNodeAddressInput) : svcE (result remErr Node)
  | RemUpdateProfile (i : Remnawave.UpdateNodeProfileInput) : svcE (result remErr Node)
  | DnsFindZone (fqdn : string) : svcE (result dnsErr DnsBalancer.ZoneMatch)
  | DnsAddIP (fqdn : string) (ip : Addr) : svcE (result dnsErr DnsBalancer.AddIPResult)
  | DnsFindZonesByIP (ip : Addr) : svcE (result dnsErr (list DnsBalancer.ZoneMatch))
  | DnsReplaceIP (fqdn : string) (oldIP newIP : Addr) : svcE (result dnsErr DnsBalancer.ReplaceIPResult)
  | DnsMoveIP (source target : string) (ip : Addr) : svcE (result dnsErr DnsBalancer.MoveIPResult)
  | CertReadiness (sni : string) : svcE (result certErr Readiness)
  | CertPrepare (sni : string) : svcE (result certErr Material)
  | CertBootstrap (sni : string) (operator : Z) : svcE (result string BootstrapResult)
  | DestroyMaterial (m : Material) : svcE unit
  | ClearBytes (secret : string) : svcE unit
  | VpsPreflight (i : PreflightVPSInput) : svcE (result unit PreflightResult)
  | VpsProvision (i : ProvisionVPSInput) : svcE (list Report * option vpsErr)
  | SwitchNodeSNI (i : NodeSNISwitchInput) : svcE (option svcErr)
  | PollWait (backoff : Z) : svcE bool.

(** ** Texts and tests *)
Definition stepPreflight := "preflight".
Definition stepPrepareCertificate := "prepare_certificate".
Definition stepProvisioning := "provisioning".
Definition stepCreateNode := "create_remnawave_node".
Definition stepWaitNode := "wait_remnawave".
Definition stepAddDNS := "add_dns".
Definition workflowStepCount : Z := 6.

(** The loop of [safeText] cuts whole runes. *)
Definition safeText (value fallback : string) : string :=
  let value := TrimSpace (flatten_ws value) in
  let value := if String.eqb value "" then fallback else value in
  cut_runes 200 (String.length value) value.

Definition stepOrFallback (step : string) : string :=
  if String.eqb (TrimSpace step) "" then "workflow" else step.

Definition safeError (code message : string) (kind : svcErr) : svcErr :=
  SafeError code (safeText message "Deployment operation failed") kind.

Definition normalizeDomain (value : string) : string := ToLower (TrimSuffix (TrimSpace value) ".").

Definition isProvisioningStep (name : string) : bool := existsb (String.eqb name) Provisioner.StageNames.

(** [strings.Trim(s, "-")]. *)
Fixpoint drop_dashes (s : string) : string :=
  match s with String "-" s' => drop_dashes s' | _ => s end.
Definition trim_dashes (s : string) : string := str_rev (drop_dashes (str_rev (drop_dashes s))).

Definition warningCode (code : string) : string :=
  let code := trim_dashes (ToUpper (replace_byte "_" "-" code)) in
  if String.eqb code "" then "W-GENERAL"
  else if HasPrefix code "W-" then code
  else "W-" +:+ code.

Definition warningMessage (code fallback : string) : string :=
  let code := ToUpper (TrimSpace code) in
  if String.eqb code "DOCKER_NOT_INSTALLED" then "Docker не установлен — бот установит его автоматически"
  else if String.eqb code "REMNANODE_EXISTS" then "Обнаружены существующие файлы или контейнеры Remnanode — конфигурация будет проверена и обновлена"
  else if String.eqb code "XRAY_SNI_EXISTS" then "Обнаружена существующая установка Xray SNI — конфигурация будет проверена и обновлена"
  else if String.eqb code "SSH_PORT_NOT_DETECTED" then "Порт 22 не найден в списке слушающих портов, хотя SSH-соединение работает"
  else if String.eqb code "COMPONENT_INSPECTION_FAILED" || String.eqb code "COMPONENT_INFO_INVALID" then "Не удалось полностью определить состояние установленного компонента — этап выполнит дополнительную проверку"
  else if String.eqb code "CONTAINER_INSPECTION_FAILED" then "Не удалось полностью проверить существующие Docker-контейнеры"
  else fallback.

(** [publicIP]. *)
Definition reserved_prefixes : list Prefix :=
  [Prefix4 (ip4 100 64 0 0) 10; Prefix4 (ip4 192 0 2 0) 24; Prefix4 (ip4 198 18 0 0) 15;
   Prefix4 (ip4 198 51 100 0) 24; Prefix4 (ip4 203 0 113 0) 24;
   Prefix6 (join_fields 65536 [8193; 3512; 0; 0; 0; 0; 0; 0]) 32].

Definition publicIP (address : Addr) : bool :=
  if negb (IsValid address) then false
  else
    let address := Unmap address in
    if negb (IsGlobalUnicast address) || IsPrivate address || IsLoopback address ||
       IsLinkLocalUnicast address || IsMulticast address
    then false
    else negb (existsb (fun prefix => prefix_contains prefix address) reserved_prefixes).

Definition nodeUUID (value : Deployment) : string := default "" (RemnawaveNodeUUID value).

Definition matchesStartInput (current : Deployment) (input : StartInput) : bool :=
  String.eqb (ID current) (si_DeploymentID input) && (TelegramOperatorUserID current =? si_OperatorUserID input) &&
  String.eqb (SelectedRemnawaveHostUUID current) (si_HostID input) &&
  String.eqb (NodeName current) (TrimSpace (si_NodeName input)) &&
  bool_decide (TargetVPSIP current = Unmap (si_VPSIP input)).

(** ** Uniqueness of Nodes *)
Definition name_matches (name : string) (node : Node) : bool :=
  String.eqb (TrimSpace (Remnawave.node_Name node)) (TrimSpace name).

Definition address_matches (address : Addr) (node : Node) : bool :=
  match ParseAddr (TrimSpace (Remnawave.node_Address node)) with
  | Some nodeIP => bool_decide (Unmap nodeIP = Unmap address)
  | None => false
  end.

(** The loop of [checkUnique]. *)
Fixpoint unique_loop (name : string) (address : Addr) (ownUUID : string) (allowRecovery : bool) (nodes : list Node)
    : option svcErr :=
  match nodes with
  | [] => None
  | node :: nodes' =>
    if negb (String.eqb ownUUID "") && String.eqb (Remnawave.node_UUID node) ownUUID
    then unique_loop name address ownUUID allowRecovery nodes'
    else
      let nameMatches := name_matches name node in
      let addressMatches := address_matches address node in
      if allowRecovery && String.eqb ownUUID "" && nameMatches && addressMatches
      then unique_loop name address ownUUID allowRecovery nodes'
      else if nameMatches && addressMatches then Some (Join (Sentinel ErrDuplicateNodeName) (Sentinel ErrDuplicateNodeAddress))
      else if nameMatches then Some (Sentinel ErrDuplicateNodeName)
      else if addressMatches then Some (Sentinel ErrDuplicateNodeAddress)
      else unique_loop name address ownUUID allowRecovery nodes'
  end.

(** The loop of [recoverableNode]. *)
Fixpoint recover_loop (name : string) (address : Addr) (recovered : option Node) (nodes : list Node)
    : result svcErr (option Node) :=
  match nodes with
  | [] => Ok recovered
  | node :: nodes' =>
    let nameMatches := name_matches name node in
    let addressMatches := address_matches address node in
    if nameMatches && addressMatches then
      match recovered with
      | Some _ => Err (Join (Sentinel ErrDuplicateNodeName) (Sentinel ErrDuplicateNodeAddress))
      | None => recover_loop name address (Some node) nodes'
      end
    else if nameMatches then Err (Sentinel ErrDuplicateNodeName)
    else if addressMatches then Err (Sentinel ErrDuplicateNodeAddress)
    else recover_loop name address recovered nodes'
  end.

Definition recoverableNode (nodes : list Node) (name : string) (address : Addr) : result svcErr (option Node) :=
  recover_loop name address None nodes.

(** The host of [selectedHost]: the first one with that UUID decides. *)
Definition select_host (hostID : string) (hosts : list Host) : result svcErr (Host * DeploymentProfile) :=
  match find_first (fun host => String.eqb (Remnawave.host_UUID host) hostID) hosts with
  | Some host =>
    if Remnawave.host_IsDisabled host then Err (Sentinel ErrHostUnavailable)
    else match Remnawave.DeploymentProfileFromHost host with
    | Ok profile => Ok (host, profile)
    | Err _ => Err (Sentinel ErrHostUnavailable)
    end
  | None => Err (Sentinel ErrHostUnavailable)
  end.

(** [NewDeploymentService]: the normalised configuration; [ready] says that no
    dependency is nil. *)
Definition NewDeploymentService (ready : bool) (c : Config) : option Config :=
  if negb ready then None
  else
    let panel := if String.eqb (TrimSpace (cfg_PanelID c)) "" then "default" else cfg_PanelID c in
    let slots := if cfg_MaxConcurrentDeployments c <=? 0 then 2 else cfg_MaxConcurrentDeployments c in
    let timeout := if cfg_NodeConnectTimeout c <=? 0 then 300000000000 else cfg_NodeConnectTimeout c in
    let initial := if cfg_InitialPollBackoff c <=? 0 then 1000000000 else cfg_InitialPollBackoff c in
    let maximum := if cfg_MaxPollBackoff c <=? 0 then 10000000000 else cfg_MaxPollBackoff c in
    if (maximum <? initial) || (100 <? slots) then None
    else Some (mkConfig panel (cfg_DNSDisabled c) slots timeout initial maximum (cfg_Observer c) (cfg_Bootstrapper c) (cfg_NodeSNISwitcher c)).

(** ** The service *)
Section Service.
Variable config : Config.

Notation M := (prog svcE).

(** [if ctx.Err() != nil { return ctx.Err() }]. *)
Definition ctx_return {A} (wrap : svcErr -> A) (c : ctxId) (k : M A) : M A :=
  e ← call (CtxErr c);
  match e with Some e => mret (wrap (CtxError e)) | None => k end.

Definition observe (o : observation) : M unit :=
  if cfg_Observer config then call (Observe o) else mret tt.

Definition emit (sink : bool) (p : Progress) : M unit := if sink then call (Emit p) else mret tt.

(** A progress message of a workflow step. *)
Definition stepProgress (step : string) (completed : Z) (message : string) (st : StepStatus) : Progress :=
  mkProgress step completed workflowStepCount message (Some st) "".

(** *** Durable state *)
Definition setState (c : ctxId) (id : string) (st : Status) (step code message : string) : M (option svcErr) :=
  ctx_return Some c (
    r ← call (RepoUpdateState id (mkUpdateDeploymentStateParams st (stepOrFallback step)
      (if String.eqb code "" then None else Some code)
      (if String.eqb message "" then None else Some (safeText message "Deployment operation failed"))));
    match r with
    | Err _ => ctx_return Some c (mret (Some (safeError "STATE_PERSIST_FAILED" "Could not persist deployment state" (Sentinel ErrPersistenceFailed))))
    | Ok _ => mret None
    end).

(** The answer to a step record, as [beginStage] and [completeStage] treat it. *)
Definition step_recorded (c : ctxId) (r : result repoErr Step) : M (option svcErr) :=
  match r with
  | Err _ => ctx_return Some c (mret (Some (safeError "STEP_PERSIST_FAILED" "Could not persist deployment step" (Sentinel ErrPersistenceFailed))))
  | Ok _ => mret None
  end.

Definition beginStage (c : ctxId) (id : string) (st : Status) (step : string) : M (option svcErr) :=
  ctx_return Some c (
    setState c id st step "" "" ;;?
    (r ← call (RepoRecordStep (mkRecordStepParams id step StepStatusRunning (Some "started") None));
     step_recorded c r)).

Definition completeStage (c : ctxId) (id step summary : string) : M (option svcErr) :=
  ctx_return Some c (
    r ← call (RepoRecordStep (mkRecordStepParams id step StepStatusCompleted (Some (safeText summary "completed")) None));
    step_recorded c r).

(** [failStage] never returns nil. *)
Definition failStage (c : ctxId) (id step : string) (st : Status) (code message : string) (kind : svcErr)
    : M svcErr :=
  ctx_return (fun e => e) c (
    let message := safeText message "Deployment step failed" in
    _ ← observe DeploymentFailed;
    recorded ← (if negb (String.eqb (TrimSpace step) "")
      then (fun r => is_ok r) <$> call (RepoRecordStep (mkRecordStepParams id step StepStatusFailed (Some "failed") (Some message)))
      else mret true);
    updated ← call (RepoUpdateState id (mkUpdateDeploymentStateParams st (stepOrFallback step) (Some code) (Some message)));
    ctx_return (fun e => e) c (
      if negb ((recorded : bool) && is_ok updated)
      then mret (safeError "FAILURE_PERSIST_FAILED" "Deployment failed and its state could not be persisted" (Sentinel ErrPersistenceFailed))
      else mret (safeError code message kind))).

(** [return s.failStage(...)]. *)
Definition fail (c : ctxId) (id step : string) (st : Status) (code message : string) (kind : svcErr)
    : M (option svcErr) :=
  Some <$> failStage c id step st code message kind.

Definition deploymentForPanel (id : string) : M (result repoErr Deployment) :=
  item ← call (RepoGet id);
  match item with
  | Err e => mret (Err e)
  | Ok item =>
    if negb (String.eqb (PanelID item) "") && negb (String.eqb (PanelID item) (cfg_PanelID config))
    then mret (Err Repository.ErrNotFound) else mret (Ok item)
  end.

(** *** Executions and slots *)
Definition beginExecution (id : string) : M (option svcErr) :=
  if String.eqb (TrimSpace id) "" then mret (Some (Sentinel ErrInvalidInput))
  else
    inserted ← call (RunningInsert id);
    mret (if (inserted : bool) then None else Some (Sentinel ErrDeploymentAlreadyRunning)).

Definition acquire : M (option svcErr) :=
  r ← call SlotAcquire;
  match r with
  | Some e => mret (Some (CtxError e))
  | None => _ ← observe (ActiveDeployment 1); mret None
  end.

Definition releaseSlot : M unit := _ ← call SlotRelease; observe (ActiveDeployment (-1)).

(** The common head of [Prepare], [Deploy] and [RetryDNS]: the execution and
    the slot are held while the body runs and released by the deferred
    functions. *)
Definition with_execution {A} (wrap : svcErr -> A) (id : string) (body : M A) : M A :=
  started ← beginExecution id;
  match started with
  | Some e => mret (wrap e)
  | None =>
    finally
      (acquired ← acquire;
       match acquired with
       | Some e => mret (wrap e)
       | None => finally body releaseSlot
       end)
      (call (RunningRemove id))
  end.

(** *** Host and Node checks *)
Definition selectedHost (c : ctxId) (hostID : string) : M (result svcErr (Host * DeploymentProfile)) :=
  hosts ← call RemGetHosts;
  match hosts with
  | Err _ => ctx_return Err c (mret (Err (safeError "HOSTS_UNAVAILABLE" "Remnawave Hosts are unavailable" (Sentinel ErrHostUnavailable))))
  | Ok hosts => mret (select_host hostID hosts)
  end.

Definition checkUnique (c : ctxId) (name : string) (address : Addr) (ownUUID : string) (allowRecovery : bool)
    : M (option svcErr) :=
  nodes ← call RemGetNodes;
  match nodes with
  | Err _ => ctx_return Some c (mret (Some (safeError "NODE_LIST_UNAVAILABLE" "Could not verify Node uniqueness" (Sentinel ErrRemnawaveCreationFailed))))
  | Ok nodes => mret (unique_loop name address ownUUID allowRecovery nodes)
  end.

(** *** Certificate and provisioning *)

(** The code of a certificate failure. *)
Definition certificate_code (e : certErr) : string :=
  if cert_is e ErrIssuanceFailed then "CERTIFICATE_ISSUANCE_FAILED"
  else if cert_is e ErrDistributionFailed then "CERTIFICATE_DISTRIBUTION_FAILED"
  else if cert_is e ErrStorageFailed then "CERTIFICATE_STORAGE_FAILED"
  else if cert_is e CertTypes.ErrPersistenceFailed then "CERTIFICATE_PERSISTENCE_FAILED"
  else "CERTIFICATE_UNAVAILABLE".

(** The progress callback of [Provision]. *)
Definition provisioning_code (report : Report) : string :=
  if bool_decide (Provisioner.rep_Status report = Some StepStatusFailed)
  then "E-PROVISIONING-" +:+ ToUpper (replace_byte "_" "-" (safeText (Provisioner.rep_Name report) "STAGE"))
  else "".

Definition provisioning_report (progress : bool) (report : Report) : M unit :=
  _ ← observe (ProvisioningStepDuration (Provisioner.rep_Name report) (Provisioner.rep_Duration report));
  emit progress (mkProgress ("provisioning/" +:+ safeText (Provisioner.rep_Name report) "stage") 2 workflowStepCount
    (safeText (Provisioner.rep_Summary report) "Provisioning stage updated") (Provisioner.rep_Status report)
    (provisioning_code report)).

(** From the generated key to the stage of the Node; the copy of the key is
    cleared by the deferred [clear]. *)
Definition provisionWithSecret (c : ctxId) (current : Deployment) (material : Material) (secret : string)
    (progress : bool) : M (option svcErr) :=
  finally (
    '(reports, err) ← call (VpsProvision (mkProvisionVPSInput (ID current) (TargetVPSIP current) (SNIDomain current) secret material));
    _ ← for_each (provisioning_report progress) reports;
    ctx_return Some c (
      match err with
      | Some err => fail c (ID current) stepProvisioning StatusFailed "PROVISIONING_FAILED" (safeProvisioningMessage err) (Sentinel ErrProvisioningFailed)
      | None =>
        completeStage c (ID current) stepProvisioning "VPS provisioning completed" ;;?
        (_ ← emit progress (stepProgress stepProvisioning 3 "VPS provisioning completed" StepStatusCompleted);
         beginStage c (ID current) StatusCreatingRemnawave stepCreateNode)
      end))
    (call (ClearBytes secret)).

(** After the certificate: the copy of the material is destroyed by the
    deferred [Destroy]. *)
Definition provisionWithMaterial (c : ctxId) (current : Deployment) (material : Material) (progress : bool)
    : M (option svcErr) :=
  finally (
    (if bool_decide (status current = StatusProvisioning) then mret None
     else completeStage c (ID current) stepPrepareCertificate "Certificate prepared") ;;?
    (_ ← emit progress (stepProgress stepPrepareCertificate 2 "Certificate prepared" StepStatusCompleted);
     _ ← emit progress (stepProgress stepProvisioning 2 "Provisioning VPS" StepStatusRunning);
     beginStage c (ID current) StatusProvisioning stepProvisioning ;;?
     (secret ← call RemGenerateSecretKey;
      ctx_return Some c (
        let keygen_failed := fail c (ID current) stepProvisioning StatusFailed "KEYGEN_FAILED" "Could not generate Remnanode key" (Sentinel ErrProvisioningFailed) in
        match secret with
        | Err _ => keygen_failed
        | Ok secret =>
          if String.eqb (TrimSpace secret) "" then keygen_failed
          else provisionWithSecret c current material secret progress
        end))))
    (call (DestroyMaterial material)).

Definition prepareAndProvision (c : ctxId) (current : Deployment) (progress : bool) : M (option svcErr) :=
  _ ← emit progress (stepProgress stepPrepareCertificate 1 "Preparing certificate" StepStatusRunning);
  (if bool_decide (status current = StatusProvisioning) then mret None
   else beginStage c (ID current) StatusPreparingCertificate stepPrepareCertificate) ;;?
  (material ← call (CertPrepare (SNIDomain current));
   ctx_return Some c (
     match material with
     | Err e => fail c (ID current) stepPrepareCertificate StatusFailed (certificate_code e)
         (SafeMessage e "Certificate is not ready") (Sentinel ErrCertificateUnavailable)
     | Ok material => provisionWithMaterial c current material progress
     end)).

(** *** The Remnawave Node *)

(** The end of [createNode]: the identifier is stored and the next stage begun. *)
Definition nodeCreated (c : ctxId) (current : Deployment) (progress : bool) : M (option svcErr) :=
  completeStage c (ID current) stepCreateNode "Remnawave Node created" ;;?
  (_ ← emit progress (stepProgress stepCreateNode 4 "Remnawave Node created" StepStatusCompleted);
   beginStage c (ID current) StatusWaitingRemnawave stepWaitNode).

Definition storeNode (c : ctxId) (current : Deployment) (node : Node) (progress : bool) : M (option svcErr) :=
  stored ← call (RepoSetNode (ID current) (Remnawave.node_UUID node));
  match stored with
  | Err _ => ctx_return Some c (mret (Some (safeError "NODE_UUID_PERSIST_FAILED"
      "Node was created but its identifier could not be persisted" (Sentinel ErrPersistenceFailed))))
  | Ok _ => nodeCreated c current progress
  end.

Definition createNode (c : ctxId) (current : Deployment) (host : Host) (progress : bool) : M (option svcErr) :=
  _ ← emit progress (stepProgress stepCreateNode 3 "Creating Remnawave Node" StepStatusRunning);
  (if bool_decide (status current = StatusCreatingRemnawave) then mret None
   else beginStage c (ID current) StatusCreatingRemnawave stepCreateNode) ;;?
  match RemnawaveNodeUUID current with
  | Some _ => nodeCreated c current progress
  | None =>
    nodes ← call RemGetNodes;
    ctx_return Some c (
      match nodes with
      | Err _ => fail c (ID current) stepCreateNode StatusFailed "NODE_DUPLICATE_CHECK_FAILED" "Could not verify Node uniqueness" (Sentinel ErrRemnawaveCreationFailed)
      | Ok nodes =>
        match recoverableNode nodes (NodeName current) (TargetVPSIP current) with
        | Err duplicate => fail c (ID current) stepCreateNode StatusFailed "DUPLICATE_NODE" "Node name or address is already in use" duplicate
        | Ok (Some node) => storeNode c current node progress
        | Ok None =>
          node ← call (RemCreateNode (Remnawave.mkCreateNodeInput (NodeName current) (TargetVPSIP current) host));
          ctx_return Some c (
            match node with
            | Err _ => fail c (ID current) stepCreateNode StatusFailed "NODE_CREATE_FAILED" "Remnawave Node could not be created" (Sentinel ErrRemnawaveCreationFailed)
            | Ok node => storeNode c current node progress
            end)
        end
      end)
  end.

(** *** Waiting for the connection

    [waited] is the sum of the timers that fired: once it reaches the
    timeout of the poll's context, that context is done and the next
    [select] takes its branch. *)
Definition next_backoff (backoff : Z) : Z :=
  let doubled := wrap64 (backoff * 2) in
  if cfg_MaxPollBackoff config <? doubled then cfg_MaxPollBackoff config else doubled.

Definition poll_timeout (c : ctxId) : M (result svcErr Node) :=
  ctx_return Err c (mret (Err (nodeConnectionError "NODE_CONNECTION_TIMEOUT" "Remnawave Node did not connect before timeout" ErrNodeConnectionTimeout))).

(** The [select] between the poll's context and the timer. *)
Definition poll_wait (c : ctxId) (waited backoff : Z) (again : M (result svcErr Node)) : M (result svcErr Node) :=
  done ← (if cfg_NodeConnectTimeout config <=? waited then mret true else call (PollWait backoff));
  if (done : bool) then poll_timeout c else again.

(** One read of the Node; [wait] is the rest of the loop's body. *)
Definition poll_read (uuid : string) (progress : bool) (wait : M (result svcErr Node)) : M (result svcErr Node) :=
  node ← call (RemGetNode uuid);
  match node with
  | Ok node =>
    if Remnawave.node_IsConnected node then mret (Ok node)
    else if negb (Remnawave.node_IsConnecting node) then
      let message := "Remnawave Node stopped connecting" in
      let message := match Remnawave.node_LastStatusMessage node with
                     | Some text => safeText text message | None => message end in
      mret (Err (nodeConnectionError "NODE_CONNECTION_REJECTED" message ErrNodeConnectionFailed))
    else
      _ ← emit progress (stepProgress stepWaitNode 4 "Waiting for Remnawave Node connection" StepStatusRunning);
      wait
  | Err _ => wait
  end.

Fixpoint poll_loop (fuel : nat) (c : ctxId) (uuid : string) (progress : bool) (waited backoff : Z)
    : M (result svcErr Node) :=
  poll_read uuid progress (poll_wait c waited backoff
    match fuel with
    | O => poll_timeout c
    | S fuel' => poll_loop fuel' c uuid progress (waited + backoff) (next_backoff backoff)
    end).

(** One timer per [InitialPollBackoff] of the timeout at most. *)
Definition poll_fuel : nat := Z.to_nat (cfg_NodeConnectTimeout config / cfg_InitialPollBackoff config) + 1.

Definition pollNode (c : ctxId) (uuid : string) (progress : bool) : M (result svcErr Node) :=
  poll_loop poll_fuel c uuid progress 0 (cfg_InitialPollBackoff config).

Definition waitForHealthyNode (c : ctxId) (current : Deployment) (progress : bool) : M (option svcErr) :=
  _ ← emit progress (stepProgress stepWaitNode 4 "Waiting for Remnawave Node connection" StepStatusRunning);
  match RemnawaveNodeUUID current with
  | None => fail c (ID current) stepWaitNode StatusFailed "NODE_UUID_MISSING" "Remnawave Node identifier is missing" (Sentinel ErrNodeConnectionFailed)
  | Some uuid =>
    (if bool_decide (status current = StatusWaitingRemnawave) then mret None
     else beginStage c (ID current) StatusWaitingRemnawave stepWaitNode) ;;?
    (node ← pollNode c uuid progress;
     ctx_return Some c (
       match node with
       | Err (nodeConnectionError code message kind) => fail c (ID current) stepWaitNode StatusFailed code message (Sentinel kind)
       | Err _ => fail c (ID current) stepWaitNode StatusFailed "NODE_WAIT_FAILED" "Could not read Remnawave Node status" (Sentinel ErrNodeConnectionFailed)
       | Ok node =>
         if negb (Remnawave.node_IsConnected node)
         then fail c (ID current) stepWaitNode StatusFailed "NODE_NOT_CONNECTED" "Remnawave Node is not connected" (Sentinel ErrNodeConnectionFailed)
         else
           completeStage c (ID current) stepWaitNode "Remnawave Node connected" ;;?
           (_ ← emit progress (stepProgress stepWaitNode 5 "Remnawave Node connected" StepStatusCompleted);
            beginStage c (ID current) StatusAddingToDNS stepAddDNS)
       end))
  end.

(** *** DNS *)
Definition completed (c : ctxId) (current : Deployment) (p : Progress) (progress : bool) : M (option svcErr) :=
  setState c (ID current) StatusCompleted "completed" "" "" ;;?
  (_ ← emit progress p; mret None).

Definition skipDNS (c : ctxId) (current : Deployment) (progress : bool) : M (option svcErr) :=
  skipped ← call (RepoRecordStep (mkRecordStepParams (ID current) stepAddDNS StepStatusSkipped
    (Some "DNS balancing is disabled for this panel") None));
  match skipped with
  | Err _ => mret (Some (safeError "DNS_SKIP_PERSIST_FAILED" "Could not persist skipped DNS step" (Sentinel ErrPersistenceFailed)))
  | Ok _ => completed c current (mkProgress stepAddDNS workflowStepCount workflowStepCount
      "DNS-балансировка отключена для этой панели" (Some StepStatusSkipped) "W-DNS-DISABLED") progress
  end.

Definition addDNS (c : ctxId) (current : Deployment) (progress : bool) : M (option svcErr) :=
  _ ← emit progress (stepProgress stepAddDNS 5 "Updating DNS balancing" StepStatusRunning);
  match RemnawaveNodeUUID current with
  | None => mret (Some (Sentinel ErrDeploymentNotRunnable))
  | Some uuid =>
    (if bool_decide (status current = StatusAddingToDNS) then mret None
     else beginStage c (ID current) StatusAddingToDNS stepAddDNS) ;;?
    (if cfg_DNSDisabled config then skipDNS c current progress
     else
       node ← call (RemGetNode uuid);
       ctx_return Some c (
         let unhealthy := fail c (ID current) stepAddDNS StatusFailed "NODE_NOT_HEALTHY" "DNS was not changed because the Node is not connected" (Sentinel ErrNodeConnectionFailed) in
         match node with
         | Err _ => unhealthy
         | Ok node =>
           if negb (Remnawave.node_IsConnected node) then unhealthy
           else
             added ← call (DnsAddIP (SNIDomain current) (TargetVPSIP current));
             match added with
             | Err _ => ctx_return Some c
                 (fail c (ID current) stepAddDNS StatusDNSFailed "DNS_UPDATE_FAILED" "Node is healthy but DNS update failed" (Sentinel ErrDNSUpdateFailed))
             | Ok _ =>
               completeStage c (ID current) stepAddDNS "DNS updated" ;;?
               completed c current (stepProgress stepAddDNS workflowStepCount "DNS updated" StepStatusCompleted) progress
             end
         end))
  end.

(** *** Deploy *)
Definition persistence_read_failed (message : string) : svcErr :=
  safeError "PERSISTENCE_READ_FAILED" message (Sentinel ErrPersistenceFailed).

(** Reads the deployment again and continues with what is stored. *)
Definition reload (c : ctxId) (id message : string) (k : Deployment -> M (option svcErr)) : M (option svcErr) :=
  item ← call (RepoGet id);
  match item with
  | Err _ => ctx_return Some c (mret (Some (persistence_read_failed message)))
  | Ok item => k item
  end.

Definition load (c : ctxId) (id : string) (k : Deployment -> M (option svcErr)) : M (option svcErr) :=
  item ← deploymentForPanel id;
  match item with
  | Err _ => ctx_return Some c (mret (Some (persistence_read_failed "Could not load deployment")))
  | Ok item => k item
  end.

Definition is_status (current : Deployment) (l : list Status) : bool := bool_decide (status current ∈ l).

(** The last two stages of [Deploy]. *)
Definition deploy_dns (current : Deployment) (progress : bool) : M (option svcErr) :=
  if is_status current [StatusAddingToDNS; StatusWaitingRemnawave] then addDNS RunCtx current progress
  else mret (Some (Sentinel ErrDeploymentNotRunnable)).

Definition deploy_wait (current : Deployment) (progress : bool) : M (option svcErr) :=
  if is_status current [StatusWaitingRemnawave; StatusCreatingRemnawave] then
    waitForHealthyNode RunCtx current progress ;;?
    reload RunCtx (ID current) "Could not reload healthy Node" (fun current => deploy_dns current progress)
  else deploy_dns current progress.

Definition deploy_node (host : Host) (current : Deployment) (progress : bool) : M (option svcErr) :=
  if is_status current [StatusCreatingRemnawave] || bool_decide (RemnawaveNodeUUID current = None) then
    createNode RunCtx current host progress ;;?
    reload RunCtx (ID current) "Could not reload created Node" (fun current => deploy_wait current progress)
  else deploy_wait current progress.

Definition deploy_stages (host : Host) (current : Deployment) (progress : bool) : M (option svcErr) :=
  if is_status current [StatusPreflight; StatusPreparingCertificate; StatusProvisioning] then
    prepareAndProvision RunCtx current progress ;;?
    reload RunCtx (ID current) "Could not reload deployment" (fun current => deploy_node host current progress)
  else deploy_node host current progress.

(** The checks before the stages: the Host is still deployable and the Node
    still unique. *)
Definition deploy_selected (current : Deployment) (progress : bool) (selected : result svcErr (Host * DeploymentProfile))
    : M (option svcErr) :=
  let invalid := fail RunCtx (ID current) (CurrentStep current) StatusFailed "HOST_INVALID" "Selected Host is no longer deployable" (Sentinel ErrHostUnavailable) in
  match selected with
  | Err _ => invalid
  | Ok (host, profile) =>
    if negb (String.eqb (normalizeDomain (Remnawave.prof_SNIDomain profile)) (normalizeDomain (SNIDomain current)))
    then invalid
    else
      let allowRecovery := is_status current [StatusCreatingRemnawave; StatusWaitingRemnawave; StatusAddingToDNS] in
      duplicate ← checkUnique RunCtx (NodeName current) (TargetVPSIP current) (nodeUUID current) allowRecovery;
      match duplicate with
      | Some e => ctx_return Some RunCtx
          (fail RunCtx (ID current) (CurrentStep current) StatusFailed "DUPLICATE_NODE" "Node name or address is no longer unique" e)
      | None => deploy_stages host current progress
      end
  end.

Definition deploy_checked (current : Deployment) (progress : bool) : M (option svcErr) :=
  selected ← selectedHost RunCtx (SelectedRemnawaveHostUUID current);
  ctx_return Some RunCtx (deploy_selected current progress selected).

Definition deploy_body (input : StartInput) (progress : bool) : M (option svcErr) :=
  load RunCtx (si_DeploymentID input) (fun current =>
    if negb (matchesStartInput current input) then mret (Some (Sentinel ErrInvalidInput))
    else if is_status current [StatusCompleted] then mret None
    else if is_status current [StatusDNSFailed] then mret (Some (Sentinel ErrDNSRetryRequired))
    else if is_status current [StatusFailed; StatusCancelled; StatusCreated] then mret (Some (Sentinel ErrDeploymentNotRunnable))
    else deploy_checked current progress).

Definition Deploy (input : StartInput) (progress : bool) : M (option svcErr) :=
  finally
    (if String.eqb (TrimSpace (si_DeploymentID input)) "" then mret (Some (Sentinel ErrInvalidInput))
     else with_execution Some (si_DeploymentID input) (deploy_body input progress))
    (if cfg_Observer config then d ← call Since; observe (DeploymentDuration d) else mret tt).

(** *** Retries *)
Definition with_status (st : Status) (d : Deployment) : Deployment :=
  mkDeployment (ID d) (PanelID d) (TelegramOperatorUserID d) (SelectedRemnawaveHostUUID d)
    (SelectedHostRemark d) (SNIDomain d) (NodeName d) (TargetVPSIP d) (RemnawaveNodeUUID d)
    (SSHHostKeyFingerprint d) st (CurrentStep d) (SafeErrorCode d)
    (SafeErrorMessage d) (CreatedAt d) (UpdatedAt d) (StartedAt d) (CompletedAt d).

Definition retryDNS_body (deploymentID : string) (progress : bool) : M (option svcErr) :=
  load RunCtx deploymentID (fun current =>
    if is_status current [StatusCompleted] then mret None
    else if negb (is_status current [StatusDNSFailed; StatusAddingToDNS]) then mret (Some (Sentinel ErrDeploymentNotRunnable))
    else
      beginStage RunCtx (ID current) StatusAddingToDNS stepAddDNS ;;?
      addDNS RunCtx (with_status StatusAddingToDNS current) progress).

Definition RetryDNS (deploymentID : string) (progress : bool) : M (option svcErr) :=
  with_execution Some deploymentID (retryDNS_body deploymentID progress).

(** The status from which a failed step is resumed. *)
Definition resume_status (step : string) : option Status :=
  if String.eqb step stepPrepareCertificate then Some StatusPreflight
  else if String.eqb step stepProvisioning then Some StatusProvisioning
  else if String.eqb step stepCreateNode then Some StatusCreatingRemnawave
  else if String.eqb step stepWaitNode then Some StatusWaitingRemnawave
  else None.

Definition RetryFailedStep (deploymentID : string) (progress : bool) : M (option svcErr) :=
  item ← deploymentForPanel deploymentID;
  match item with
  | Err _ => mret (Some (persistence_read_failed "Could not load deployment"))
  | Ok current =>
    if negb (is_status current [StatusFailed]) then mret (Some (Sentinel ErrDeploymentNotRunnable))
    else match resume_status (CurrentStep current) with
    | Some resume =>
      setState ParentCtx (ID current) resume (CurrentStep current) "" "" ;;?
      Deploy (mkStartInput (ID current) (TelegramOperatorUserID current) (SelectedRemnawaveHostUUID current)
        (NodeName current) (TargetVPSIP current)) progress
    | None =>
      if String.eqb (CurrentStep current) stepAddDNS then
        setState ParentCtx (ID current) StatusDNSFailed stepAddDNS "DNS_RETRY_REQUIRED" "DNS retry requires a healthy Node" ;;?
        RetryDNS (ID current) progress
      else mret (Some (Sentinel ErrDeploymentNotRunnable))
    end
  end.

Definition BootstrapCertificate (sni : string) (operatorUserID : Z) : M (string * option svcErr) :=
  if negb (cfg_Bootstrapper config)
  then mret ("", Some (safeError "CERTIFICATE_BOOTSTRAP_UNAVAILABLE" "Certificate bootstrap is unavailable" (Sentinel ErrCertificateUnavailable)))
  else
    r ← call (CertBootstrap sni operatorUserID);
    match r with
    | Err text =>
      let message := safeText text "Certificate bootstrap could not be completed" in
      mret (message, Some (safeError "CERTIFICATE_BOOTSTRAP_FAILED" message (Sentinel ErrCertificateUnavailable)))
    | Ok result =>
      mret ("Certificate " +:+ br_Version result +:+ " activated for " +:+ br_SNI result +:+
            "; managed targets: " +:+ Itoa (br_ManagedTargets result) +:+
            "; acknowledged legacy targets: " +:+ Itoa (br_AcknowledgedLegacyIPs result), None)
    end.

(** *** Logs *)
Definition opt_safe (v : option string) (fallback : string) : string :=
  match v with Some text => safeText text fallback | None => fallback end.

Definition log_entry (current : Deployment) (step : Step) : SafeLogEntry :=
  let summary := opt_safe (step_SafeSummary step) "" in
  let summary := opt_safe (step_ErrorMessage step) summary in
  let code := if String.eqb (step_Name step) (CurrentStep current) then opt_safe (SafeErrorCode current) "" else "" in
  let code := if bool_decide (step_Status step = StepStatusFailed) && String.eqb code "" && isProvisioningStep (step_Name step)
              then "E-PROVISIONING-" +:+ ToUpper (replace_byte "_" "-" (step_Name step)) else code in
  let code := if bool_decide (step_Status step = StepStatusSkipped) && String.eqb (step_Name step) stepAddDNS
              then "W-DNS-DISABLED" else code in
  mkSafeLogEntry (safeText (step_Name step) "step") (step_status_text (step_Status step)) summary code
    (step_StartedAt step) (step_CompletedAt step).

Definition log_entries (current : Deployment) (steps : list Step) : list SafeLogEntry :=
  (log_entry current <$> steps) ++
  match SafeErrorMessage current with
  | Some text =>
    if existsb (fun step => String.eqb (step_Name step) (CurrentStep current)) steps then []
    else [mkSafeLogEntry (safeText (CurrentStep current) "workflow") (status_text (status current)) (safeText text "")
            (opt_safe (SafeErrorCode current) "") (StartedAt current) (CompletedAt current)]
  | None => []
  end.

Definition SafeLogs (deploymentID : string) : M (result svcErr (list SafeLogEntry)) :=
  item ← deploymentForPanel deploymentID;
  match item with
  | Err _ => mret (Err (persistence_read_failed "Could not load deployment"))
  | Ok current =>
    steps ← call (RepoListSteps deploymentID);
    match steps with
    | Err _ => mret (Err (persistence_read_failed "Could not load safe deployment logs"))
    | Ok steps => mret (Ok (log_entries current steps))
    end
  end.

(** *** Cancel *)
Definition Cancel (deploymentID : string) : M (option svcErr) :=
  ctx_return Some ParentCtx (
    _ ← call (RunningCancel deploymentID);
    load ParentCtx deploymentID (fun current =>
      if is_status current [StatusCompleted; StatusCancelled] then mret None
      else setState ParentCtx deploymentID StatusCancelled "cancelled" "CANCELLED" "Deployment cancelled by operator")).

(** *** Prepare *)
Definition prepare_input_ok (input : PrepareInput) : bool :=
  (String.eqb (TrimSpace (pi_PanelID input)) "" || String.eqb (pi_PanelID input) (cfg_PanelID config)) &&
  (0 <? pi_OperatorUserID input) && negb (String.eqb (TrimSpace (pi_HostID input)) "") &&
  bool_decide (Remnawave.ValidateNodeName (pi_NodeName input) = None) && publicIP (pi_VPSIP input) &&
  negb (String.eqb (pi_Password input) "").

Definition prepare_notices (dns_disabled : bool) (warnings : list Preflight.Issue) : list OperatorNotice :=
  (if dns_disabled then [mkOperatorNotice "W-DNS-DISABLED" "DNS-балансировка отключена для этой панели"] else []) ++
  (warnings ≫= fun w =>
    let text := safeText (Preflight.iss_Message w) "" in
    if String.eqb text "" then []
    else [mkOperatorNotice (warningCode (Preflight.iss_Code w)) (warningMessage (Preflight.iss_Code w) text)]).

(** The view shown for confirmation. *)
Definition prepare_view (created : Deployment) (profile : DeploymentProfile) (result : PreflightResult)
    : M (Prelude.result svcErr PreparedDeployment) :=
  zone ← (if cfg_DNSDisabled config then mret ""
          else zone ← call (DnsFindZone (Remnawave.prof_SNIDomain profile));
               mret (match zone with Ok m => DnsBalancer.zm_FQDN m | Err _ => "" end));
  ctx_return Err RunCtx (
    readiness ← call (CertReadiness (Remnawave.prof_SNIDomain profile));
    ctx_return Err RunCtx (
      mret (Ok (mkPreparedDeployment created zone
        (match readiness with Ok r => r | Err _ => ReadinessUnknown end) true
        (prepare_notices (cfg_DNSDisabled config) (Preflight.Warnings result)))))).

(** [if err := m; err != nil { return PreparedDeployment{}, err }]. *)
Definition or_fail (m : M (option svcErr)) (k : M (Prelude.result svcErr PreparedDeployment))
    : M (Prelude.result svcErr PreparedDeployment) :=
  e ← m; match e with Some e => mret (Err e) | None => k end.

Definition prepare_body (created : Deployment) (profile : DeploymentProfile) (input : PrepareInput)
    : M (Prelude.result svcErr PreparedDeployment) :=
  or_fail (beginStage RunCtx (ID created) StatusPreflight stepPreflight) (
    result ← call (VpsPreflight (mkPreflightVPSInput (ID created) (Unmap (pi_VPSIP input)) (pi_Password input)));
    _ ← call (ClearBytes (pi_Password input));
    ctx_return Err RunCtx (
      match result with
      | Err _ => (Err <$> failStage RunCtx (ID created) stepPreflight StatusFailed "PREFLIGHT_FAILED" "VPS preflight could not be completed" (Sentinel ErrPreflightFailed))
      | Ok result =>
        if negb (Preflight.Passed result) then
          let message := "VPS did not pass preflight" in
          let message := match Preflight.FatalFailures result with
                         | issue :: _ => safeText (Preflight.iss_Message issue) message | [] => message end in
          (Err <$> failStage RunCtx (ID created) stepPreflight StatusFailed "PREFLIGHT_REJECTED" message (Sentinel ErrPreflightFailed))
        else
          or_fail (completeStage RunCtx (ID created) stepPreflight "VPS preflight passed") (
            reloaded ← call (RepoGet (ID created));
            match reloaded with
            | Err _ => ctx_return Err RunCtx (mret (Err (persistence_read_failed "Could not load prepared deployment")))
            | Ok created => prepare_view created profile result
            end)
      end)).

(** The durable deployment and the preflight that follows. *)
Definition prepare_create (input : PrepareInput) (host : Host) (profile : DeploymentProfile)
    : M (Prelude.result svcErr PreparedDeployment) :=
  created ← call (RepoCreate (mkCreateDeploymentParams "" (cfg_PanelID config) (pi_OperatorUserID input)
    (Remnawave.host_UUID host) (Remnawave.host_Remark host) (Remnawave.prof_SNIDomain profile)
    (TrimSpace (pi_NodeName input)) (Unmap (pi_VPSIP input))));
  match created with
  | Err _ => ctx_return Err ParentCtx (mret (Err (safeError "PERSISTENCE_CREATE_FAILED" "Could not create deployment state" (Sentinel ErrPersistenceFailed))))
  | Ok created =>
    _ ← observe DeploymentCreated;
    with_execution Err (ID created) (prepare_body created profile input)
  end.

Definition prepare_selected (input : PrepareInput) (selected : Prelude.result svcErr (Host * DeploymentProfile))
    : M (Prelude.result svcErr PreparedDeployment) :=
  match selected with
  | Err e => mret (Err e)
  | Ok (host, profile) =>
    duplicate ← checkUnique ParentCtx (TrimSpace (pi_NodeName input)) (pi_VPSIP input) "" false;
    match duplicate with
    | Some e => ctx_return Err ParentCtx (mret (Err e))
    | None => prepare_create input host profile
    end
  end.

Definition Prepare (input : PrepareInput) : M (Prelude.result svcErr PreparedDeployment) :=
  if negb (prepare_input_ok input) then mret (Err (Sentinel ErrInvalidInput))
  else
    selected ← selectedHost ParentCtx (pi_HostID input);
    ctx_return Err ParentCtx (prepare_selected input selected).
End Service.
