(* ===== verification/ServiceFacts.v ===== *)
(** * Properties of the deployment workflow

    Theorems about [Service]: the outcome of a deployment over the real
    tables, the guards of the external side effects, the execution
    discipline, the secrets, and the pure decisions. *)

From Stdlib Require Import FunctionalExtensionality.
From S2P Require Import Prelude GoStrings Utf8 NetIP NetIPFacts Effects Deployment Repository CertTypes Service.
From S2P Require Remnawave DnsBalancer Preflight Provisioner.

#[local] Open Scope Z_scope.

(** ** Kinds of calls *)
Inductive opClass : Type :=
  | CCtx | CRunning | CSlot | CObserve | CEmit | CRepoRead | CRepoCreate | CStateWrite | CNodeWrite | CStepWrite
  | CRemRead | CKeygen | CRemCreate | CDnsRead | CDnsWrite | CCertRead | CCertPrepare | CCertBootstrap
  | CClear | CVps | CPoll | CRowMeta | CRemUpdate | CDnsUpdate | CSwitch.

#[export] Instance opClass_eq_dec : EqDecision opClass.
Proof. solve_decision. Defined.

Definition op_class {X} (e : svcE X) : opClass :=
  match e with
  | CtxErr _ => CCtx
  | RunningInsert _ | RunningRemove _ | RunningCancel _ => CRunning
  | SlotAcquire | SlotRelease => CSlot
  | Observe _ | Since => CObserve
  | Emit _ => CEmit
  | RepoGet _ | RepoListSteps _ | RepoFindByNode _ _ => CRepoRead
  | RepoSetIP _ _ | RepoSetBinding _ _ => CRowMeta
  | RepoCreate _ => CRepoCreate
  | RepoUpdateState _ _ => CStateWrite
  | RepoSetNode _ _ => CNodeWrite
  | RepoRecordStep _ => CStepWrite
  | RemGetHosts | RemGetNodes | RemGetNode _ => CRemRead
  | RemGenerateSecretKey => CKeygen
  | RemCreateNode _ => CRemCreate
  | RemUpdateAddress _ | RemUpdateProfile _ => CRemUpdate
  | DnsFindZone _ | DnsFindZonesByIP _ => CDnsRead
  | DnsReplaceIP _ _ _ | DnsMoveIP _ _ _ => CDnsUpdate
  | DnsAddIP _ _ => CDnsWrite
  | CertReadiness _ => CCertRead
  | CertPrepare _ => CCertPrepare
  | CertBootstrap _ _ => CCertBootstrap
  | DestroyMaterial _ | ClearBytes _ => CClear
  | VpsPreflight _ | VpsProvision _ => CVps
  | SwitchNodeSNI _ => CSwitch
  | PollWait _ => CPoll
  end.

Definition kinds (f : opClass -> bool) : forall X, svcE X -> bool := fun X e => f (op_class e).
Definition among (l : list opClass) (c : opClass) : bool := bool_decide (c ∈ l).
Definition outside (l : list opClass) (c : opClass) : bool := negb (among l c).

(** Unfolds the small combinators at the head of a program. *)
Ltac svc_head :=
  lazymatch goal with
  | |- calls_only _ (ctx_return _ _ _) => unfold ctx_return
  | |- calls_only _ (observe _ _) => unfold observe
  | |- calls_only _ (emit _ _) => unfold emit
  | |- calls_only _ (step_recorded _ _) => unfold step_recorded
  | |- calls_only _ (deploymentForPanel _ _) => unfold deploymentForPanel
  | |- calls_only _ (selectedHost _ _) => unfold selectedHost
  | |- calls_only _ (checkUnique _ _ _ _ _) => unfold checkUnique
  | |- calls_only _ (load _ _ _ _) => unfold load
  | |- calls_only _ (reload _ _ _ _) => unfold reload
  | |- calls_only _ (poll_timeout _) => unfold poll_timeout
  | |- calls_only _ (or_fail _ _) => unfold or_fail
  | |- calls_only _ (let _ := _ in _) => cbv zeta
  end; cbv beta.

Section Facts.
Context (config : Config).

Lemma poll_loop_calls f fuel c uuid progress waited backoff :
  f CCtx = true -> f CEmit = true -> f CRemRead = true -> f CPoll = true ->
  calls_only (kinds f) (poll_loop config fuel c uuid progress waited backoff).
Proof.
  intros H1 H2 H3 H4. revert waited backoff.
  induction fuel as [|fuel IH]; intros waited backoff; cbn [poll_loop]; unfold poll_read, poll_wait; cbv zeta;
    repeat first [apply IH | svc_head | apply calls_only_call; assumption | calls_step].
Qed.
End Facts.

Lemma kinds_weaken L (f : opClass -> bool) {A} (p : prog svcE A) :
  calls_only (kinds (among L)) p -> forallb f L = true -> calls_only (kinds f) p.
Proof.
  intros Hp Hf. eapply calls_only_impl; [|exact Hp]. intros X e He. unfold kinds, among in *.
  apply bool_decide_eq_true in He. rewrite forallb_elem_of in Hf. auto.
Qed.

Create HintDb svc_kinds.

(** The calls of a program of the service; those of a sub-program are taken
    from its lemma. *)
Ltac svc_calls := repeat first
  [ calls_step
  | svc_head
  | solve [eapply kinds_weaken; [solve [eauto with svc_kinds nocore]|reflexivity]] ].

Section Kinds.
Context (config : Config).

Definition stage_kinds := [CCtx; CObserve; CStateWrite; CStepWrite].

Lemma setState_kinds c id st step code msg : calls_only (kinds (among [CCtx; CStateWrite])) (setState c id st step code msg).
Proof. unfold setState. svc_calls. Qed.
#[local] Hint Resolve setState_kinds : svc_kinds.
Lemma beginStage_kinds c id st step : calls_only (kinds (among [CCtx; CStateWrite; CStepWrite])) (beginStage c id st step).
Proof. unfold beginStage. svc_calls. Qed.
Lemma completeStage_kinds c id step msg : calls_only (kinds (among [CCtx; CStepWrite])) (completeStage c id step msg).
Proof. unfold completeStage. svc_calls. Qed.
Lemma failStage_kinds c id step st code msg kind : calls_only (kinds (among stage_kinds)) (failStage config c id step st code msg kind).
Proof. unfold failStage. svc_calls. Qed.
#[local] Hint Resolve failStage_kinds : svc_kinds.
Lemma fail_kinds c id step st code msg kind : calls_only (kinds (among stage_kinds)) (fail config c id step st code msg kind).
Proof. unfold fail. svc_calls. Qed.
Lemma emit_kinds sink p : calls_only (kinds (among [CEmit])) (emit sink p).
Proof. unfold emit. svc_calls. Qed.
Lemma poll_kinds fuel c uuid progress waited backoff :
  calls_only (kinds (among [CCtx; CEmit; CRemRead; CPoll])) (poll_loop config fuel c uuid progress waited backoff).
Proof. by apply poll_loop_calls. Qed.
#[local] Hint Resolve beginStage_kinds completeStage_kinds fail_kinds emit_kinds poll_kinds : svc_kinds.

Lemma provision_kinds c current material progress :
  calls_only (kinds (among (stage_kinds ++ [CEmit; CKeygen; CVps; CClear]))) (provisionWithMaterial config c current material progress).
Proof. unfold provisionWithMaterial, provisionWithSecret, provisioning_report. svc_calls. Qed.
#[local] Hint Resolve provision_kinds : svc_kinds.
Lemma prepareAndProvision_kinds c current progress :
  calls_only (kinds (among (stage_kinds ++ [CEmit; CKeygen; CVps; CClear; CCertPrepare]))) (prepareAndProvision config c current progress).
Proof. unfold prepareAndProvision. svc_calls. Qed.
Lemma nodeCreated_kinds c current progress :
  calls_only (kinds (among [CCtx; CStateWrite; CStepWrite; CEmit])) (nodeCreated c current progress).
Proof. unfold nodeCreated. svc_calls. Qed.
#[local] Hint Resolve nodeCreated_kinds : svc_kinds.
Lemma storeNode_kinds c current node progress :
  calls_only (kinds (among [CCtx; CStateWrite; CStepWrite; CEmit; CNodeWrite])) (storeNode c current node progress).
Proof. unfold storeNode. svc_calls. Qed.
#[local] Hint Resolve storeNode_kinds : svc_kinds.
Lemma createNode_kinds c current host progress :
  calls_only (kinds (among (stage_kinds ++ [CEmit; CNodeWrite; CRemRead; CRemCreate]))) (createNode config c current host progress).
Proof. unfold createNode. svc_calls. Qed.
Lemma wait_kinds c current progress :
  calls_only (kinds (among (stage_kinds ++ [CEmit; CRemRead; CPoll]))) (waitForHealthyNode config c current progress).
Proof. unfold waitForHealthyNode, pollNode. svc_calls. Qed.
Lemma completed_kinds c current p progress :
  calls_only (kinds (among [CCtx; CStateWrite; CEmit])) (completed c current p progress).
Proof. unfold completed. svc_calls. Qed.
#[local] Hint Resolve completed_kinds : svc_kinds.
Lemma skipDNS_kinds c current progress :
  calls_only (kinds (among [CCtx; CStateWrite; CStepWrite; CEmit])) (skipDNS c current progress).
Proof. unfold skipDNS. svc_calls. Qed.
#[local] Hint Resolve skipDNS_kinds : svc_kinds.
Lemma addDNS_kinds c current progress :
  calls_only (kinds (among (stage_kinds ++ [CEmit; CRemRead; CDnsWrite]))) (addDNS config c current progress).
Proof. unfold addDNS. svc_calls. Qed.
#[local] Hint Resolve prepareAndProvision_kinds createNode_kinds wait_kinds addDNS_kinds : svc_kinds.

Definition node_kinds := stage_kinds ++ [CEmit; CNodeWrite; CRemRead; CRemCreate; CPoll; CDnsWrite; CRepoRead].
Definition deploy_kinds := node_kinds ++ [CKeygen; CVps; CClear; CCertPrepare].

Lemma deploy_dns_kinds current progress : calls_only (kinds (among node_kinds)) (deploy_dns config current progress).
Proof. unfold deploy_dns. svc_calls. Qed.
#[local] Hint Resolve deploy_dns_kinds : svc_kinds.
Lemma deploy_wait_kinds current progress : calls_only (kinds (among node_kinds)) (deploy_wait config current progress).
Proof. unfold deploy_wait. svc_calls. Qed.
#[local] Hint Resolve deploy_wait_kinds : svc_kinds.
Lemma deploy_node_kinds host current progress : calls_only (kinds (among node_kinds)) (deploy_node config host current progress).
Proof. unfold deploy_node. svc_calls. Qed.
#[local] Hint Resolve deploy_node_kinds : svc_kinds.
Lemma deploy_stages_kinds host current progress : calls_only (kinds (among deploy_kinds)) (deploy_stages config host current progress).
Proof. unfold deploy_stages. svc_calls. Qed.
#[local] Hint Resolve deploy_stages_kinds : svc_kinds.
Lemma deploy_body_kinds input progress : calls_only (kinds (among deploy_kinds)) (deploy_body config input progress).
Proof. unfold deploy_body, deploy_checked, deploy_selected. svc_calls. Qed.

Lemma retryDNS_body_kinds id progress :
  calls_only (kinds (among (stage_kinds ++ [CEmit; CRepoRead; CRemRead; CDnsWrite]))) (retryDNS_body config id progress).
Proof. unfold retryDNS_body. svc_calls. Qed.

Lemma prepare_body_kinds created profile input :
  calls_only (kinds (among (stage_kinds ++ [CVps; CClear; CRepoRead; CDnsRead; CCertRead]))) (prepare_body config created profile input).
Proof. unfold prepare_body, prepare_view. svc_calls. Qed.
End Kinds.

#[export] Hint Resolve setState_kinds beginStage_kinds completeStage_kinds failStage_kinds fail_kinds emit_kinds poll_kinds
  provision_kinds prepareAndProvision_kinds nodeCreated_kinds storeNode_kinds createNode_kinds wait_kinds skipDNS_kinds
  completed_kinds addDNS_kinds deploy_dns_kinds deploy_wait_kinds deploy_node_kinds deploy_stages_kinds deploy_body_kinds
  retryDNS_body_kinds prepare_body_kinds : svc_kinds.

(** ** The guards of the external side effects *)

(** Facts of one event. *)
Definition answer_test {B} (test : forall X, svcE X -> X -> B) (ev : event svcE) : B := test _ (ev_op ev) (ev_res ev).

Definition stored_deployment : event svcE -> option Deployment := answer_test (fun X e =>
  match e in svcE X return X -> option Deployment with
  | RepoGet _ => fun r => match r with Ok d => Some d | Err _ => None end
  | _ => fun _ => None
  end).

Definition connected_node : event svcE -> option string := answer_test (fun X e =>
  match e in svcE X return X -> option string with
  | RemGetNode uuid => fun r =>
      match r with Ok node => if Remnawave.node_IsConnected node then Some uuid else None | Err _ => None end
  | _ => fun _ => None
  end).

Definition listed_nodes : event svcE -> option (list Node) := answer_test (fun X e =>
  match e in svcE X return X -> option (list Node) with
  | RemGetNodes => fun r => match r with Ok nodes => Some nodes | Err _ => None end
  | _ => fun _ => None
  end).

Definition ctx_alive : event svcE -> bool := answer_test (fun X e =>
  match e in svcE X return X -> bool with
  | CtxErr _ => fun r => match r with None => true | Some _ => false end
  | _ => fun _ => false
  end).

Definition dns_added (ev : event svcE) : option (string * Addr) :=
  match ev_op ev with DnsAddIP fqdn ip => Some (fqdn, ip) | _ => None end.

Definition node_requested (ev : event svcE) : option Remnawave.CreateNodeInput :=
  match ev_op ev with RemCreateNode i => Some i | _ => None end.

(** The deployment as it was read last. *)
Definition last_read (tr : list (event svcE)) : option Deployment :=
  foldl (fun acc ev => match stored_deployment ev with Some d => Some d | None => acc end) None tr.

(** DNS is changed only for the address and the domain of the deployment as
    read last, and the two calls just before are a read that found its Node
    connected and a look at a context that is not done. *)
Definition dns_guard (past : list (event svcE)) (ev : event svcE) : Prop :=
  match dns_added ev with
  | None => True
  | Some (fqdn, ip) => exists past' e1 e2 d uuid, past = past' ++ [e1; e2] /\
      connected_node e1 = Some uuid /\ ctx_alive e2 = true /\
      last_read past = Some d /\ RemnawaveNodeUUID d = Some uuid /\ SNIDomain d = fqdn /\ TargetVPSIP d = ip
  end.

(** A Node is requested at most once, for a deployment that has none, with its
    name and address and a deployable Host, after a list of the Nodes none of
    which has that name or that address. *)
Definition create_guard (past : list (event svcE)) (ev : event svcE) : Prop :=
  match node_requested ev with
  | None => True
  | Some i => existsb (fun e => bool_decide (node_requested e <> None)) past = false /\
      exists past' e1 e2 d nodes, past = past' ++ [e1; e2] /\
      listed_nodes e1 = Some nodes /\ ctx_alive e2 = true /\
      last_read past = Some d /\ RemnawaveNodeUUID d = None /\
      Remnawave.cni_Name i = NodeName d /\ Remnawave.cni_Address i = TargetVPSIP d /\
      Remnawave.host_IsDisabled (Remnawave.cni_Host i) = false /\
      (exists profile, Remnawave.DeploymentProfileFromHost (Remnawave.cni_Host i) = Ok profile) /\
      forall node, node ∈ nodes -> name_matches (NodeName d) node = false /\ address_matches (TargetVPSIP d) node = false
  end.

Definition guarded_effects (tr : list (event svcE)) : Prop :=
  every (fun past ev => dns_guard past ev /\ create_guard past ev) tr.

(** *** [recoverableNode] *)
Lemma recover_loop_none name address recovered nodes :
  recover_loop name address recovered nodes = Ok None <->
  recovered = None /\ forall node, node ∈ nodes -> name_matches name node = false /\ address_matches address node = false.
Proof.
  revert recovered. induction nodes as [|node nodes IH]; intros recovered; simpl.
  - split; [intros [= ->]; split; [done|]; intros n Hn; by apply not_elem_of_nil in Hn|by intros [-> _]].
  - destruct (name_matches name node) eqn:Hn, (address_matches address node) eqn:Ha; simpl.
    + split.
      * destruct recovered; [done|]. intros [? _]%IH. done.
      * intros [-> H]. destruct (H node); [by left|congruence].
    + split; [done|]. intros [_ H]. destruct (H node); [by left|congruence].
    + split; [done|]. intros [_ H]. destruct (H node); [by left|congruence].
    + rewrite IH. split; intros [-> H]; (split; [done|]).
      * intros n [->|Hin]%elem_of_cons; [done|auto].
      * intros n Hin. apply H. by right.
Qed.

(** *** Traces *)
Lemma last_read_snoc tr ev :
  last_read (tr ++ [ev]) = match stored_deployment ev with Some d => Some d | None => last_read tr end.
Proof. unfold last_read. by rewrite foldl_app. Qed.

(** The state of a run between two stages: the guards hold so far and the
    deployment [d] was read last. *)
Definition guarded_at (created : bool) (d : Deployment) (tr : list (event svcE)) : Prop :=
  guarded_effects tr /\ last_read tr = Some d /\
  (created = false -> existsb (fun e => bool_decide (node_requested e <> None)) tr = false).

(** An event that is none of the guarded ones and no read. *)
Definition plain (c : opClass) : bool := outside [CRemCreate; CDnsWrite; CRepoRead] c.

Lemma plain_facts {X} (e : svcE X) x :
  plain (op_class e) = true ->
  dns_added (Ev e x) = None /\ node_requested (Ev e x) = None /\ stored_deployment (Ev e x) = None.
Proof. by destruct e. Qed.

Lemma guarded_plain created d tr ev :
  plain (op_class (ev_op ev)) = true -> guarded_at created d tr -> guarded_at created d (tr ++ [ev]).
Proof.
  destruct ev as [X e x]. intros Hp (H1 & H2 & H3). destruct (plain_facts e x Hp) as (E1 & E2 & E3).
  split_and!.
  - apply every_snoc; [done|]. unfold dns_guard, create_guard. by rewrite E1, E2.
  - by rewrite last_read_snoc, E3.
  - intros Hc. rewrite existsb_app, H3 by done. simpl. by rewrite E2.
Qed.

Lemma wp_plain {A} (p : prog svcE A) created d tr :
  calls_only (kinds plain) p -> guarded_at created d tr ->
  wp p tt tr (fun _ _ tr' => guarded_at created d tr').
Proof.
  intros Hp. apply wp_calls_only with (P := kinds plain); [done|]. intros tr' ev Hev. by apply guarded_plain.
Qed.

(** A read replaces the deployment. *)
Lemma guarded_read created d0 tr id r d :
  guarded_effects tr -> (created = false -> existsb (fun e => bool_decide (node_requested e <> None)) tr = false) ->
  stored_deployment (Ev (RepoGet id) r) = Some d -> d0 = d -> guarded_at created d0 (tr ++ [Ev (RepoGet id) r]).
Proof.
  intros H1 H3 Hd ->. split_and!.
  - by apply every_snoc.
  - by rewrite last_read_snoc, Hd.
  - intros Hc. by rewrite existsb_app, H3.
Qed.

(** Passes a sub-program that makes none of the guarded calls. *)
Ltac pass_plain x tr H :=
  wp_steps; eapply wp_mono; [eapply wp_plain; [solve [svc_calls]|eassumption]|];
  clear H; intros x [] tr H; cbv beta.

Section Guards.
Context (config : Config).

Lemma wp_addDNS_guarded created current d progress tr :
  guarded_at created d tr -> RemnawaveNodeUUID current = RemnawaveNodeUUID d -> SNIDomain current = SNIDomain d ->
  TargetVPSIP current = TargetVPSIP d ->
  wp (addDNS config RunCtx current progress) tt tr (fun _ _ tr' => guarded_effects tr').
Proof.
  intros H Hu Hs Hi. unfold addDNS. pass_plain x tr1 H.
  destruct (RemnawaveNodeUUID current) as [uuid|] eqn:Huuid; [|wp_steps; apply H].
  wp_steps. eapply wp_mono; [eapply (wp_plain _ created d); [svc_calls|exact H]|].
  clear tr1 H. intros [e|] [] tr1 H; cbv beta; [apply H|].
  destruct (cfg_DNSDisabled config).
  { eapply wp_mono; [eapply (wp_plain _ created d); [svc_calls|exact H]|]. intros ? [] tr2 H2. apply H2. }
  wp_answer node s1 Hn. destruct s1. unfold ctx_return at 1. wp_answer e s2 He. destruct s2.
  assert (guarded_at created d ((tr1 ++ [Ev (RemGetNode uuid) node]) ++ [Ev (CtxErr RunCtx) e])) as H2
    by (apply guarded_plain, guarded_plain; done).
  destruct e as [e|]; [wp_steps; apply H2|].
  assert (forall X (p : prog svcE X) tr, guarded_at created d tr -> calls_only (kinds plain) p ->
    wp p tt tr (fun _ _ tr' => guarded_effects tr')) as Hend.
  { intros X p tr2 H3 Hp. eapply wp_mono; [by eapply wp_plain|]. intros ? [] tr3 H4. apply H4. }
  destruct node as [node|]; [destruct (Remnawave.node_IsConnected node) eqn:Hc|]; cbn [negb];
    [|by apply Hend; [done|svc_calls]|by apply Hend; [done|svc_calls]].
  wp_answer added s3 Ha. destruct s3.
  assert (guarded_at created d (((tr1 ++ [Ev (RemGetNode uuid) (Ok node)]) ++ [Ev (CtxErr RunCtx) None]) ++
    [Ev (DnsAddIP (SNIDomain current) (TargetVPSIP current)) added])) as H4.
  { destruct H2 as (G1 & G2 & G3). split_and!.
    - apply every_snoc; [done|]. split; [|done]. unfold dns_guard. simpl.
      exists tr1, (Ev (RemGetNode uuid) (Ok node)), (Ev (CtxErr RunCtx) None), d, uuid.
      split_and!; try done; [by rewrite <-app_assoc|].
      unfold connected_node, answer_test. simpl. by rewrite Hc.
    - by rewrite last_read_snoc.
    - intros Hcr. rewrite existsb_app, G3 by done. done. }
  destruct added; apply Hend; try done; svc_calls.
Qed.

Lemma guarded_end created d tr : guarded_at created d tr -> guarded_effects tr.
Proof. by intros (H & _). Qed.

Lemma wp_storeNode_guarded d current node progress tr :
  guarded_at true d tr -> wp (storeNode RunCtx current node progress) tt tr (fun _ _ tr' => guarded_effects tr').
Proof.
  intros H. eapply wp_mono; [eapply wp_plain; [svc_calls|exact H]|]. intros ? [] tr' H'. by eapply guarded_end.
Qed.

(** A plain program, at the end of a run. *)
Lemma wp_plain_end {A} (p : prog svcE A) created d tr :
  guarded_at created d tr -> calls_only (kinds plain) p -> wp p tt tr (fun _ _ tr' => guarded_effects tr').
Proof. intros H Hp. eapply wp_mono; [by eapply wp_plain|]. intros ? [] tr' H'. by eapply guarded_end. Qed.

Lemma guarded_weaken created d tr : guarded_at created d tr -> guarded_at true d tr.
Proof. intros (H1 & H2 & _). done. Qed.

(** The Host the run deploys to. *)
Definition deployable (host : Host) : Prop :=
  Remnawave.host_IsDisabled host = false /\ exists profile, Remnawave.DeploymentProfileFromHost host = Ok profile.

Lemma select_host_deployable hostID hosts host profile :
  select_host hostID hosts = Ok (host, profile) -> deployable host.
Proof.
  unfold select_host, deployable. destruct (find_first _ hosts) as [h|]; [|done].
  destruct (Remnawave.host_IsDisabled h) eqn:Hd; [done|].
  destruct (Remnawave.DeploymentProfileFromHost h) as [p|] eqn:Hp; [|done]. intros [= <- <-]. eauto.
Qed.

Lemma wp_createNode_guarded d host progress tr :
  guarded_at false d tr -> deployable host ->
  wp (createNode config RunCtx d host progress) tt tr (fun _ _ tr' => guarded_effects tr').
Proof.
  intros H [Hdis Hprof]. unfold createNode. pass_plain x tr1 H. wp_steps.
  eapply wp_mono; [eapply (wp_plain _ false d); [svc_calls|exact H]|].
  clear tr1 H. intros [e|] [] tr1 H; cbv beta; [by eapply guarded_end|].
  destruct (RemnawaveNodeUUID d) as [uuid|] eqn:Huuid; [by eapply wp_plain_end; [|svc_calls]|].
  wp_answer nodes s1 Hn. destruct s1. unfold ctx_return at 1. wp_answer e s2 He. destruct s2.
  assert (guarded_at false d ((tr1 ++ [Ev RemGetNodes nodes]) ++ [Ev (CtxErr RunCtx) e])) as H2
    by (apply guarded_plain, guarded_plain; done).
  destruct e as [e|]; [wp_steps; by eapply guarded_end|].
  destruct nodes as [nodes|]; [|by eapply wp_plain_end; [|svc_calls]].
  destruct (recoverableNode nodes (NodeName d) (TargetVPSIP d)) as [[node|]|dup] eqn:Hrec;
    [by eapply wp_plain_end; [|svc_calls]| |by eapply wp_plain_end; [|svc_calls]].
  wp_answer node s3 Hc. destruct s3. set (i := Remnawave.mkCreateNodeInput _ _ _) in *.
  assert (guarded_at true d (((tr1 ++ [Ev RemGetNodes (Ok nodes)]) ++ [Ev (CtxErr RunCtx) None]) ++ [Ev (RemCreateNode i) node])) as H3.
  { destruct H2 as (G1 & G2 & G3). split_and!; [|by rewrite last_read_snoc|done].
    apply every_snoc; [done|]. split; [done|]. unfold create_guard. simpl. split; [auto|].
    exists tr1, (Ev RemGetNodes (Ok nodes)), (Ev (CtxErr RunCtx) None), d, nodes.
    split_and!; try done; [by rewrite <-app_assoc|]. apply recover_loop_none in Hrec as [_ Hrec]. exact Hrec. }
  eapply wp_plain_end; [exact H3|]. svc_calls.
Qed.

Lemma wp_deploy_dns_guarded created d progress tr :
  guarded_at created d tr -> wp (deploy_dns config d progress) tt tr (fun _ _ tr' => guarded_effects tr').
Proof.
  intros H. unfold deploy_dns. destruct (is_status _ _); [by eapply wp_addDNS_guarded|]. wp_steps. by eapply guarded_end.
Qed.

(** Reading the deployment again between two stages. *)
Lemma wp_reload_guarded c id message (k : Deployment -> prog svcE (option svcErr)) created tr :
  guarded_effects tr ->
  (created = false -> existsb (fun e => bool_decide (node_requested e <> None)) tr = false) ->
  (forall d tr', guarded_at created d tr' -> wp (k d) tt tr' (fun _ _ tr' => guarded_effects tr')) ->
  wp (reload c id message k) tt tr (fun _ _ tr' => guarded_effects tr').
Proof.
  intros H1 H2 Hk. unfold reload. wp_answer item s1 H. destruct s1. destruct item as [d|e].
  - apply Hk. by eapply guarded_read.
  - unfold ctx_return. wp_answer x s2 Hx.
    assert (guarded_effects ((tr ++ [Ev (RepoGet id) (Err e)]) ++ [Ev (CtxErr c) x]))
      by (apply every_snoc; [by apply every_snoc|done]).
    by destruct x; wp_steps.
Qed.

(** A stage followed by a reload. *)
Lemma wp_stage_guarded (p : prog svcE (option svcErr)) c id message k created d tr :
  guarded_at created d tr -> calls_only (kinds plain) p ->
  (forall d tr', guarded_at created d tr' -> wp (k d) tt tr' (fun _ _ tr' => guarded_effects tr')) ->
  wp (p ;;? reload c id message k) tt tr (fun _ _ tr' => guarded_effects tr').
Proof.
  intros H Hp Hk. wp_steps. eapply wp_mono; [by eapply (wp_plain _ created d)|].
  intros [e|] [] tr1 (H1 & H2 & H3); [done|]. by apply (wp_reload_guarded _ _ _ _ created).
Qed.

Lemma wp_deploy_wait_guarded created d progress tr :
  guarded_at created d tr -> wp (deploy_wait config d progress) tt tr (fun _ _ tr' => guarded_effects tr').
Proof.
  intros H. unfold deploy_wait. destruct (is_status _ _); [|by eapply wp_deploy_dns_guarded].
  eapply wp_stage_guarded; [exact H|svc_calls|]. intros d' tr' H'. by eapply wp_deploy_dns_guarded.
Qed.

Lemma wp_deploy_node_guarded host d progress tr :
  guarded_at false d tr -> deployable host ->
  wp (deploy_node config host d progress) tt tr (fun _ _ tr' => guarded_effects tr').
Proof.
  intros H Hh. unfold deploy_node. destruct (_ || _); [|by eapply wp_deploy_wait_guarded].
  wp_steps. eapply wp_mono; [by apply wp_createNode_guarded|]. intros [e|] [] tr1 H1; [done|].
  apply (wp_reload_guarded _ _ _ _ true); [done|done|]. intros d' tr' H'. by eapply wp_deploy_wait_guarded.
Qed.

Lemma wp_deploy_stages_guarded host d progress tr :
  guarded_at false d tr -> deployable host ->
  wp (deploy_stages config host d progress) tt tr (fun _ _ tr' => guarded_effects tr').
Proof.
  intros H Hh. unfold deploy_stages. destruct (is_status _ _); [|by apply wp_deploy_node_guarded].
  eapply wp_stage_guarded; [exact H|svc_calls|]. intros d' tr' H'. by apply wp_deploy_node_guarded.
Qed.

Lemma wp_deploy_selected_guarded d progress selected tr :
  guarded_at false d tr -> (forall host profile, selected = Ok (host, profile) -> deployable host) ->
  wp (deploy_selected config d progress selected) tt tr (fun _ _ tr' => guarded_effects tr').
Proof.
  intros H Hsel. unfold deploy_selected. cbv zeta.
  destruct selected as [[host profile]|]; [|by eapply wp_plain_end; [|svc_calls]].
  destruct (negb _); [by eapply wp_plain_end; [|svc_calls]|].
  wp_steps. eapply wp_mono; [eapply (wp_plain _ false d); [unfold checkUnique; svc_calls|exact H]|].
  intros [e|] [] tr2 H2; cbv beta; [by eapply wp_plain_end; [|svc_calls]|].
  apply wp_deploy_stages_guarded; [done|]. by eapply Hsel.
Qed.

Lemma wp_ctx_return_guarded {A} (wrap : svcErr -> A) c (k : prog svcE A) created d tr :
  guarded_at created d tr ->
  (forall tr', guarded_at created d tr' -> wp k tt tr' (fun _ _ tr' => guarded_effects tr')) ->
  wp (ctx_return wrap c k) tt tr (fun _ _ tr' => guarded_effects tr').
Proof.
  intros H Hk. unfold ctx_return. wp_answer e s Hs. destruct s.
  apply (guarded_plain _ _ _ (Ev (CtxErr c) e)) in H; [|done].
  destruct e; [wp_steps; by eapply guarded_end|by apply Hk].
Qed.

Lemma wp_deploy_checked_guarded d progress tr :
  guarded_at false d tr -> wp (deploy_checked config d progress) tt tr (fun _ _ tr' => guarded_effects tr').
Proof.
  intros H. unfold deploy_checked, selectedHost. wp_steps. wp_answer hosts s1 Hh. destruct s1.
  apply (guarded_plain _ _ _ (Ev RemGetHosts hosts)) in H; [|done].
  destruct hosts as [hosts|x].
  - wp_steps. apply (wp_ctx_return_guarded _ _ _ false d); [done|]. intros tr' H'.
    apply wp_deploy_selected_guarded; [done|]. intros host profile Hs. by eapply select_host_deployable.
  - unfold ctx_return at 1. wp_answer e s2 He. destruct s2. apply (guarded_plain _ _ _ (Ev (CtxErr RunCtx) e)) in H; [|done].
    destruct e as [e|]; wp_steps; (apply (wp_ctx_return_guarded _ _ _ false d); [done|]); intros tr' H';
      by apply wp_deploy_selected_guarded.
Qed.

(** The head of an operation: the deployment is loaded. *)
Lemma wp_load_guarded c id (k : Deployment -> prog svcE (option svcErr)) tr :
  guarded_effects tr -> existsb (fun e => bool_decide (node_requested e <> None)) tr = false ->
  (forall d tr', guarded_at false d tr' -> wp (k d) tt tr' (fun _ _ tr' => guarded_effects tr')) ->
  wp (load config c id k) tt tr (fun _ _ tr' => guarded_effects tr').
Proof.
  intros H1 H2 Hk. unfold load, deploymentForPanel. wp_answer item s1 H. destruct s1.
  assert (forall x, guarded_effects ((tr ++ [Ev (RepoGet id) item]) ++ [Ev (CtxErr c) x])) as Hg
    by (intros x; apply every_snoc; [by apply every_snoc|done]).
  destruct item as [d|e]; [destruct (_ && _)|]; wp_steps.
  2: { apply Hk. by eapply guarded_read. }
  all: unfold ctx_return; wp_answer x s2 Hx; by destruct x; wp_steps.
Qed.

Lemma wp_deploy_body_guarded input progress tr :
  guarded_effects tr -> existsb (fun e => bool_decide (node_requested e <> None)) tr = false ->
  wp (deploy_body config input progress) tt tr (fun _ _ tr' => guarded_effects tr').
Proof.
  intros H1 H2. apply wp_load_guarded; [done|done|]. intros d tr' H.
  destruct (negb _); [wp_steps; by eapply guarded_end|].
  destruct (is_status _ _); [wp_steps; by eapply guarded_end|].
  destruct (is_status _ _); [wp_steps; by eapply guarded_end|].
  destruct (is_status _ _); [wp_steps; by eapply guarded_end|]. by apply wp_deploy_checked_guarded.
Qed.

Lemma wp_retryDNS_body_guarded id progress tr :
  guarded_effects tr -> existsb (fun e => bool_decide (node_requested e <> None)) tr = false ->
  wp (retryDNS_body config id progress) tt tr (fun _ _ tr' => guarded_effects tr').
Proof.
  intros H1 H2. apply wp_load_guarded; [done|done|]. intros d tr' H.
  destruct (is_status _ _); [wp_steps; by eapply guarded_end|].
  destruct (negb _); [wp_steps; by eapply guarded_end|].
  wp_steps. eapply wp_mono; [eapply (wp_plain _ false d); [svc_calls|exact H]|].
  intros [e|] [] tr2 H'; [by eapply guarded_end|]. by eapply wp_addDNS_guarded.
Qed.

(** Calls of the registry and of the observer keep the guards. *)
Lemma wp_unguarded {A} (p : prog svcE A) tr :
  calls_only (kinds (among [CRunning; CSlot; CObserve])) p ->
  guarded_effects tr -> existsb (fun e => bool_decide (node_requested e <> None)) tr = false ->
  wp p tt tr (fun _ _ tr' => guarded_effects tr' /\ existsb (fun e => bool_decide (node_requested e <> None)) tr' = false).
Proof.
  intros Hp H1 H2. eapply wp_calls_only; [exact Hp| |done]. clear tr H1 H2. intros tr [X e x] He [H1 H2]. split.
  - apply every_snoc; [done|]. by destruct e.
  - rewrite existsb_app, H2. by destruct e.
Qed.

Lemma wp_finish_guarded {A} (p : prog svcE A) tr :
  calls_only (kinds (among [CRunning; CSlot; CObserve])) p -> guarded_effects tr ->
  wp p tt tr (fun _ _ tr' => guarded_effects tr').
Proof.
  intros Hp H1. eapply wp_calls_only; [exact Hp| |done]. clear tr H1. intros tr [X e x] He H1.
  apply every_snoc; [done|]. by destruct e.
Qed.

Lemma wp_execution_guarded {A} (wrap : svcErr -> A) id (body : prog svcE A) :
  (forall tr, guarded_effects tr -> existsb (fun e => bool_decide (node_requested e <> None)) tr = false ->
     wp body tt tr (fun _ _ tr' => guarded_effects tr')) ->
  wp (with_execution config wrap id body) tt [] (fun _ _ tr' => guarded_effects tr').
Proof.
  intros Hb. unfold with_execution. wp_steps. eapply wp_mono; [apply wp_unguarded; [|by apply every_nil|done]|].
  { unfold beginExecution. svc_calls. }
  intros [e|] [] tr [H1 H2]; [by wp_steps|].
  wp_steps. eapply wp_mono; [apply wp_unguarded; [|done|done]|].
  { unfold acquire. svc_calls. }
  intros [e|] [] tr2 [H3 H4]; wp_steps.
  - apply wp_call. intros ? [] _. by apply every_snoc.
  - eapply wp_mono; [by apply Hb|]. intros a [] tr3 H5. cbv beta.
    eapply wp_mono; [apply wp_finish_guarded; [unfold releaseSlot; svc_calls|done]|].
    intros [] [] tr4 H6. cbv beta. apply wp_call. intros ? [] _. by apply every_snoc.
Qed.

Lemma deploy_guarded input progress :
  always (Deploy config input progress) tt (fun tr _ _ => guarded_effects tr).
Proof.
  apply wp_always. unfold Deploy. wp_steps. destruct (String.eqb _ _).
  - wp_steps. apply wp_finish_guarded; [svc_calls|apply every_nil].
  - eapply wp_mono; [apply wp_execution_guarded; intros; by apply wp_deploy_body_guarded|].
    intros a [] tr H. cbv beta. apply wp_finish_guarded; [svc_calls|done].
Qed.

Lemma retryDNS_guarded id progress :
  always (RetryDNS config id progress) tt (fun tr _ _ => guarded_effects tr).
Proof. apply wp_always, wp_execution_guarded. intros. by apply wp_retryDNS_body_guarded. Qed.
End Guards.

(** C1. A deployment is published in DNS only when its Node is connected:
    in every run of [Deploy] and of [RetryDNS], whatever the services answer,
    each [AddIP] is for the domain and the address of the deployment as it was
    read last, and the two calls before it are a read that found the Node of
    that very deployment connected and a look at a context that is not done. *)
Theorem dns_only_for_connected_nodes (config : Config) input id progress :
  always (Deploy config input progress) tt (fun tr _ _ => every dns_guard tr) /\
  always (RetryDNS config id progress) tt (fun tr _ _ => every dns_guard tr).
Proof.
  split; intros tr r s H; (eapply every_impl; [|first [by eapply deploy_guarded|by eapply retryDNS_guarded]]); by intros ?? [].
Qed.

(** C5. A deployment creates at most one Remnawave Node in a run, and only
    when it has none, on a Host that is not disabled and has a deployment
    profile, right after a list of the Nodes in which no Node has its name or
    its address: a Node created by an interrupted run is recovered, never
    duplicated. *)
Theorem node_created_once_and_unique (config : Config) input progress :
  always (Deploy config input progress) tt (fun tr _ _ => every create_guard tr).
Proof. intros tr r s H. eapply every_impl; [|by eapply deploy_guarded]. by intros ?? []. Qed.

(** ** Uniqueness *)
Lemma recover_loop_some name address recovered nodes node :
  recover_loop name address recovered nodes = Ok (Some node) <->
  (recovered = Some node /\ (forall n, n ∈ nodes -> name_matches name n = false /\ address_matches address n = false)) \/
  (recovered = None /\ exists pre post, nodes = pre ++ node :: post /\
     name_matches name node = true /\ address_matches address node = true /\
     forall n, n ∈ pre ++ post -> name_matches name n = false /\ address_matches address n = false).
Proof.
  revert recovered. induction nodes as [|x nodes IH]; intros recovered.
  - simpl. split.
    + intros [= ->]. left. split; [done|]. intros n Hn. by apply not_elem_of_nil in Hn.
    + intros [[-> _]|(_ & pre & post & H & _)]; [done|]. by destruct pre.
  - cbn [recover_loop]. cbv zeta. destruct (name_matches name x) eqn:Hn, (address_matches address x) eqn:Ha; simpl.
    + destruct recovered as [r|].
      * split; [done|]. intros [[_ H]|[? _]]; [|done]. destruct (H x); [by left|congruence].
      * rewrite IH. split.
        -- intros [[[= ->] H]|[? _]]; [|done]. right. split; [done|]. by exists [], nodes.
        -- intros [[? _]|(_ & pre & post & He & H1 & H2 & H)]; [done|]. left. destruct pre as [|y pre].
           ++ injection He as -> ->. done.
           ++ injection He as -> ->. destruct (H y); [apply elem_of_app; left; by left|congruence].
    + split; [done|]. intros [[_ H]|(_ & pre & post & He & H1 & H2 & H)].
      * destruct (H x); [by left|congruence].
      * destruct pre as [|y pre]; injection He as -> ->; [congruence|].
        destruct (H y); [apply elem_of_app; left; by left|congruence].
    + split; [done|]. intros [[_ H]|(_ & pre & post & He & H1 & H2 & H)].
      * destruct (H x); [by left|congruence].
      * destruct pre as [|y pre]; injection He as -> ->; [congruence|].
        destruct (H y); [apply elem_of_app; left; by left|congruence].
    + rewrite IH. split; (intros [[-> H]|(-> & pre & post & He & H1 & H2 & H)]; [left|right]); (split; [done|]).
      * by intros n [->|?]%elem_of_cons; [|auto].
      * exists (x :: pre), post. split_and!; [by rewrite He|done|done|]. intros n [->|?]%elem_of_cons; [done|auto].
      * intros n ?. apply H. by right.
      * destruct pre as [|y pre]; injection He as -> ->; [congruence|]. exists pre, post. split_and!; try done.
        intros n ?. apply H. by right.
Qed.

(** The recovery of a Node is exact: [recoverableNode] returns a Node
    exactly when it has the deployment's name and address and every other Node
    has neither; it returns none exactly when no Node has either; otherwise it
    is an error.  And [checkUnique] accepts a list exactly when every Node in
    it is the deployment's own, or (while recovery is allowed and the
    deployment has no Node yet) has both its name and its address, or has
    neither. *)
Theorem uniqueness_checks_are_exact (nodes : list Node) name address ownUUID allowRecovery :
  (forall node, recoverableNode nodes name address = Ok (Some node) <->
     exists pre post, nodes = pre ++ node :: post /\
       name_matches name node = true /\ address_matches address node = true /\
       forall n, n ∈ pre ++ post -> name_matches name n = false /\ address_matches address n = false) /\
  (recoverableNode nodes name address = Ok None <->
     forall n, n ∈ nodes -> name_matches name n = false /\ address_matches address n = false) /\
  (unique_loop name address ownUUID allowRecovery nodes = None <->
     forall n, n ∈ nodes ->
       (ownUUID <> "" /\ Remnawave.node_UUID n = ownUUID) \/
       (allowRecovery = true /\ ownUUID = "" /\ name_matches name n = true /\ address_matches address n = true) \/
       (name_matches name n = false /\ address_matches address n = false)).
Proof.
  split_and!.
  - intros node. unfold recoverableNode. rewrite recover_loop_some. split; [by intros [[? _]|[_ H]]|by right].
  - unfold recoverableNode. rewrite recover_loop_none. tauto.
  - induction nodes as [|x nodes IH]; [split; [intros _ n Hn; by apply not_elem_of_nil in Hn|done]|].
    assert (forall P : Node -> Prop, (forall n, n ∈ x :: nodes -> P n) <-> P x /\ forall n, n ∈ nodes -> P n) as Hcons.
    { intros P. split; [intros H; split; [apply H; by left|intros; apply H; by right]|].
      intros [H1 H2] n [->|?]%elem_of_cons; auto. }
    rewrite Hcons, <-IH. clear IH Hcons. cbn [unique_loop]. cbv zeta.
    destruct (String.eqb_spec ownUUID "") as [->|Hown]; simpl.
    + destruct allowRecovery, (name_matches name x) eqn:Hn, (address_matches address x) eqn:Ha; simpl;
        split; intros H; try done; try (split; [|done]); try (destruct H as [? H]); try done; naive_solver.
    + rewrite andb_false_r. simpl. destruct (String.eqb_spec (Remnawave.node_UUID x) ownUUID) as [Hx|Hx]; [naive_solver|].
      destruct (name_matches name x) eqn:Hn, (address_matches address x) eqn:Ha; simpl;
        split; intros H; try done; naive_solver.
Qed.

(** ** Executions and slots *)

(** What a run holds for one deployment: nothing, its entry in the map of
    running executions, or the entry and a slot. *)
Inductive hold : Type := Free | Registered | Active.

(** The discipline: an entry is taken before a slot and removed after it, and
    every call that is neither the context's nor the observer's is made
    between the two. *)
Definition hold_step (id : string) (h : hold) (ev : event svcE) : option hold :=
  match ev with Ev e x =>
    match e in svcE X return X -> option hold with
    | RunningInsert i => fun inserted =>
        match h with Free => if String.eqb i id then Some (if inserted : bool then Registered else Free) else None | _ => None end
    | RunningRemove i => fun _ => match h with Registered => if String.eqb i id then Some Free else None | _ => None end
    | SlotAcquire => fun r => match h with Registered => Some (match r with None => Active | Some _ => Registered end) | _ => None end
    | SlotRelease => fun _ => match h with Active => Some Registered | _ => None end
    | CtxErr _ | Observe _ | Since => fun _ => Some h
    | _ => fun _ => match h with Active => Some Active | _ => None end
    end x
  end.

Definition hold_steps (id : string) (tr : list (event svcE)) : option hold :=
  foldl (fun h ev => h ≫= fun h => hold_step id h ev) (Some Free) tr.

Lemma hold_snoc id tr ev : hold_steps id (tr ++ [ev]) = hold_steps id tr ≫= fun h => hold_step id h ev.
Proof. unfold hold_steps. by rewrite foldl_app. Qed.

Lemma wp_while_active {A} (p : prog svcE A) id tr :
  calls_only (kinds (outside [CRunning; CSlot])) p -> hold_steps id tr = Some Active ->
  wp p tt tr (fun _ _ tr' => hold_steps id tr' = Some Active).
Proof.
  intros Hp. apply (wp_calls_only (kinds (outside [CRunning; CSlot])) p (fun tr => hold_steps id tr = Some Active)); [done|].
  intros tr' [X e x] He H. rewrite hold_snoc, H. by destruct e.
Qed.

Lemma wp_observed {A} (p : prog svcE A) id tr h :
  calls_only (kinds (among [CObserve])) p -> hold_steps id tr = Some h ->
  wp p tt tr (fun _ _ tr' => hold_steps id tr' = Some h).
Proof.
  intros Hp. apply (wp_calls_only (kinds (among [CObserve])) p (fun tr => hold_steps id tr = Some h)); [done|].
  intros tr' [X e x] He H. rewrite hold_snoc, H. by destruct e.
Qed.

Lemma wp_execution_held config {A} (wrap : svcErr -> A) id (body : prog svcE A) :
  calls_only (kinds (outside [CRunning; CSlot])) body ->
  wp (with_execution config wrap id body) tt [] (fun _ _ tr' => hold_steps id tr' = Some Free).
Proof.
  intros Hb. unfold with_execution, beginExecution. wp_steps. destruct (String.eqb (TrimSpace id) ""); [by wp_steps|].
  wp_answer inserted s1 H1. destruct s1. set (tr := [] ++ _).
  assert (hold_steps id tr = Some (if inserted then Registered else Free)) as Ht
    by by (unfold hold_steps; simpl; rewrite String.eqb_refl).
  destruct inserted; [|by wp_steps]. clearbody tr. wp_steps. unfold acquire. wp_answer r s2 H2. destruct s2.
  assert (forall tr', hold_steps id tr' = Some Registered ->
    wp (call (RunningRemove id)) tt tr' (fun _ _ tr' => hold_steps id tr' = Some Free)) as Hend.
  { intros tr' H. apply wp_call. intros ? s _. rewrite hold_snoc, H. simpl. by rewrite String.eqb_refl. }
  assert (hold_steps id (tr ++ [Ev SlotAcquire r]) = Some (match r with None => Active | Some _ => Registered end)) as H3
    by by rewrite hold_snoc, Ht.
  destruct r as [e|]; [wp_steps; by apply Hend|].
  wp_steps. eapply wp_mono; [apply wp_observed; [svc_calls|exact H3]|]. intros [] [] tr2 H4. cbv beta. wp_steps.
  eapply wp_mono; [by apply wp_while_active|]. intros a [] tr3 H5. cbv beta. unfold releaseSlot. wp_answer x s3 Hs3. destruct s3.
  eapply wp_mono; [apply wp_observed; [svc_calls|]|].
  { rewrite hold_snoc, H5. done. }
  intros [] [] tr4 H6. cbv beta. by apply Hend.
Qed.

(** C17. Runs of one deployment exclude each other and release what they take,
    on every path: in every run of [Deploy] and of [RetryDNS] the entry of the
    deployment is inserted first, a slot is taken next, every call to the
    repository, the panel, DNS, the certificates or the VPS is made while both
    are held, and at the end both have been given back; a run that finds the
    entry taken, or whose context ends before a slot is free, makes no such
    call. *)
Theorem executions_exclude_and_release (config : Config) input id progress :
  always (Deploy config input progress) tt (fun tr _ _ => hold_steps (si_DeploymentID input) tr = Some Free) /\
  always (RetryDNS config id progress) tt (fun tr _ _ => hold_steps id tr = Some Free).
Proof.
  split; apply wp_always.
  - unfold Deploy. wp_steps. destruct (String.eqb _ _).
    + wp_steps. apply wp_observed; [svc_calls|done].
    + eapply wp_mono; [apply wp_execution_held; svc_calls|]. intros a [] tr H. cbv beta.
      apply wp_observed; [svc_calls|done].
  - apply wp_execution_held. svc_calls.
Qed.

Definition retry_kinds : list opClass :=
  [CCtx; CRunning; CSlot; CObserve; CEmit; CRepoRead; CStateWrite; CStepWrite; CRemRead; CDnsWrite].

(** A DNS retry changes nothing but DNS and the record of the deployment:
    it never creates a Node, never stores a Node identifier, never touches the
    VPS, a certificate or a key, and never creates a deployment. *)
Theorem retry_dns_touches_only_dns (config : Config) id progress :
  always (RetryDNS config id progress) tt (fun tr _ _ =>
    forall ev, ev ∈ tr -> among retry_kinds (op_class (ev_op ev)) = true).
Proof.
  apply (calls_only_always (kinds (among retry_kinds))).
  unfold RetryDNS, with_execution, beginExecution, acquire, releaseSlot. svc_calls.
Qed.

(** ** Secrets handed to the VPS *)

(** The keys and materials that were handed to [Provision] and not cleared yet. *)
Definition owed_step (o : list string * list Material) (ev : event svcE) : list string * list Material :=
  match ev_op ev with
  | VpsProvision i => (pro_RemnanodeSecretKey i :: fst o, pro_Certificate i :: snd o)
  | ClearBytes s => (List.filter (fun x => negb (String.eqb x s)) (fst o), snd o)
  | DestroyMaterial m => (fst o, List.filter (fun x => bool_decide (x <> m)) (snd o))
  | _ => o
  end.

Definition owed (tr : list (event svcE)) : list string * list Material := foldl owed_step ([], []) tr.

Lemma owed_snoc tr ev : owed (tr ++ [ev]) = owed_step (owed tr) ev.
Proof. unfold owed. by rewrite foldl_app. Qed.

Lemma wp_owes_nothing {A} (p : prog svcE A) o tr :
  calls_only (kinds (outside [CVps; CClear])) p -> owed tr = o -> wp p tt tr (fun _ _ tr' => owed tr' = o).
Proof.
  intros Hp. apply (wp_calls_only (kinds (outside [CVps; CClear])) p (fun tr => owed tr = o)); [done|].
  intros tr' [X e x] He H. rewrite owed_snoc, H. by destruct e.
Qed.

Section Secrets.
Context (config : Config).

Lemma wp_provisionWithSecret_owed c current material secret progress tr :
  owed tr = ([], []) ->
  wp (provisionWithSecret config c current material secret progress) tt tr (fun _ _ tr' => owed tr' = ([], [material])).
Proof.
  intros H. unfold provisionWithSecret. wp_steps.
  wp_answer r s1 H1. destruct s1, r as [reports err].
  eapply wp_mono; [apply (wp_owes_nothing _ ([secret], [material]))|].
  - unfold provisioning_report. svc_calls.
  - rewrite owed_snoc, H. done.
  - intros a [] tr2 H2. cbv beta. apply wp_call. intros ? [] _. rewrite owed_snoc, H2. unfold owed_step. simpl. by rewrite String.eqb_refl.
Qed.

Lemma wp_provisionWithMaterial_owed c current material progress tr :
  owed tr = ([], []) ->
  wp (provisionWithMaterial config c current material progress) tt tr (fun _ _ tr' => owed tr' = ([], [])).
Proof.
  intros H. unfold provisionWithMaterial. wp_steps.
  assert (forall tr' ms, owed tr' = ([], ms) -> ms = [] \/ ms = [material] ->
    wp (call (DestroyMaterial material)) tt tr' (fun _ _ tr' => owed tr' = ([], []))) as Hend.
  { intros tr' ms H' Hms. apply wp_call. intros ? ? _. rewrite owed_snoc, H'. unfold owed_step. simpl.
    destruct Hms as [->| ->]; simpl; [done|]. by rewrite bool_decide_eq_false_2 by (intros Hn; by destruct Hn). }
  eapply wp_mono; [apply (wp_owes_nothing _ ([], [])); [svc_calls|exact H]|].
  intros [e|] [] tr1 H1; cbv beta; [by eapply Hend; [|left]|].
  wp_steps. eapply wp_mono; [apply (wp_owes_nothing _ ([], [])); [svc_calls|exact H1]|]. intros [] [] tr2 H2. cbv beta.
  wp_steps. eapply wp_mono; [apply (wp_owes_nothing _ ([], [])); [svc_calls|exact H2]|]. intros [] [] tr3 H3. cbv beta.
  wp_steps. eapply wp_mono; [apply (wp_owes_nothing _ ([], [])); [svc_calls|exact H3]|].
  intros [e|] [] tr4 H4; cbv beta; [by eapply Hend; [|left]|].
  wp_answer secret s1 Hs. destruct s1. unfold ctx_return at 1. wp_answer e s2 He. destruct s2.
  set (tr5 := (tr4 ++ _) ++ _). assert (owed tr5 = ([], [])) as H5 by (unfold tr5; by rewrite !owed_snoc, H4).
  clearbody tr5. destruct e as [e|]; [wp_steps; by eapply Hend; [|left]|]. cbv zeta.
  destruct secret as [secret|]; [destruct (String.eqb (TrimSpace secret) "")|].
  2: { eapply wp_mono; [by apply wp_provisionWithSecret_owed|]. intros a [] tr6 H6. by eapply Hend; [|right]. }
  all: eapply wp_mono; [apply (wp_owes_nothing _ ([], [])); [svc_calls|exact H5]|]; intros a [] tr6 H6; by eapply Hend; [|left].
Qed.

Lemma wp_prepareAndProvision_owed c current progress tr :
  owed tr = ([], []) -> wp (prepareAndProvision config c current progress) tt tr (fun _ _ tr' => owed tr' = ([], [])).
Proof.
  intros H. unfold prepareAndProvision. wp_steps.
  eapply wp_mono; [apply (wp_owes_nothing _ ([], [])); [svc_calls|exact H]|]. intros [] [] tr1 H1. cbv beta. wp_steps.
  eapply wp_mono; [apply (wp_owes_nothing _ ([], [])); [svc_calls|exact H1]|].
  intros [e|] [] tr2 H2; cbv beta; [done|]. wp_answer m s1 Hs. destruct s1. unfold ctx_return at 1. wp_answer e s2 He. destruct s2.
  set (tr3 := (tr2 ++ _) ++ _). assert (owed tr3 = ([], [])) as H3 by (unfold tr3; by rewrite !owed_snoc, H2).
  clearbody tr3. destruct e as [e|]; [by wp_steps|]. destruct m as [m|e]; [by apply wp_provisionWithMaterial_owed|].
  apply wp_owes_nothing; [svc_calls|done].
Qed.

Lemma wp_deploy_stages_owed host current progress tr :
  owed tr = ([], []) -> wp (deploy_stages config host current progress) tt tr (fun _ _ tr' => owed tr' = ([], [])).
Proof.
  intros H. unfold deploy_stages. destruct (is_status _ _); [|apply wp_owes_nothing; [svc_calls|done]].
  wp_steps. eapply wp_mono; [by apply wp_prepareAndProvision_owed|]. intros [e|] [] tr1 H1; [done|].
  apply wp_owes_nothing; [svc_calls|done].
Qed.

Lemma wp_deploy_body_owed input progress tr :
  owed tr = ([], []) -> wp (deploy_body config input progress) tt tr (fun _ _ tr' => owed tr' = ([], [])).
Proof.
  intros H. unfold deploy_body, load. wp_steps.
  eapply wp_mono; [apply (wp_owes_nothing _ ([], [])); [svc_calls|exact H]|]. intros item [] tr1 H1. cbv beta.
  destruct item as [d|e]; [|apply wp_owes_nothing; [svc_calls|done]].
  destruct (negb _); [by wp_steps|]. destruct (is_status _ _); [by wp_steps|].
  destruct (is_status _ _); [by wp_steps|]. destruct (is_status _ _); [by wp_steps|].
  unfold deploy_checked. wp_steps. eapply wp_mono; [apply (wp_owes_nothing _ ([], [])); [svc_calls|exact H1]|].
  intros selected [] tr2 H2. cbv beta. unfold ctx_return at 1. wp_answer e s2 He. destruct s2.
  set (tr3 := tr2 ++ _). assert (owed tr3 = ([], [])) as H3 by (unfold tr3; by rewrite !owed_snoc, H2).
  clearbody tr3. destruct e as [e|]; [by wp_steps|]. unfold deploy_selected. cbv zeta.
  destruct selected as [[host profile]|]; [|apply wp_owes_nothing; [svc_calls|done]].
  destruct (negb _); [apply wp_owes_nothing; [svc_calls|done]|].
  wp_steps. eapply wp_mono; [apply (wp_owes_nothing _ ([], [])); [svc_calls|exact H3]|]. intros [e|] [] tr4 H4; cbv beta.
  - apply wp_owes_nothing; [svc_calls|done].
  - by apply wp_deploy_stages_owed.
Qed.
End Secrets.

(** The secrets handed to the VPS never outlive the run: in every run of
    [Deploy], every key and every certificate material given to [Provision] is
    cleared, respectively destroyed, before the run ends, whatever failed in
    between. *)
Theorem provisioning_secrets_are_cleared (config : Config) input progress :
  always (Deploy config input progress) tt (fun tr _ _ => owed tr = ([], [])).
Proof.
  apply wp_always. unfold Deploy. wp_steps.
  assert (forall tr', owed tr' = ([], []) -> wp (if cfg_Observer config then d ← call Since; observe config (DeploymentDuration d) else mret tt)
    tt tr' (fun _ _ tr' => owed tr' = ([], []))) as Hend by (intros tr' H; apply wp_owes_nothing; [svc_calls|done]).
  destruct (String.eqb _ _); [wp_steps; by apply Hend|]. unfold with_execution. wp_steps.
  eapply wp_mono; [apply (wp_owes_nothing _ ([], [])); [unfold beginExecution; svc_calls|done]|].
  intros [e|] [] tr1 H1; cbv beta; [wp_steps; by apply Hend|]. wp_steps.
  eapply wp_mono; [apply (wp_owes_nothing _ ([], [])); [unfold acquire; svc_calls|exact H1]|].
  intros [e|] [] tr2 H2; cbv beta; wp_steps.
  - apply wp_call. intros ? [] _. apply Hend. by rewrite owed_snoc, H2.
  - eapply wp_mono; [by apply wp_deploy_body_owed|]. intros a [] tr3 H3. cbv beta.
    eapply wp_mono; [apply (wp_owes_nothing _ ([], [])); [unfold releaseSlot; svc_calls|exact H3]|]. intros [] [] tr4 H4. cbv beta.
    apply wp_call. intros ? [] _. apply Hend. by rewrite owed_snoc, H4.
Qed.

(** ** Deployments that cannot be run *)

(** The deployment as it was read first. *)
Definition first_read (tr : list (event svcE)) : option Deployment := head (omap stored_deployment tr).

(** The answer of [Deploy] when it must not touch anything. *)
Definition refusal (config : Config) (input : StartInput) (d : Deployment) : option (option svcErr -> Prop) :=
  if negb (String.eqb (PanelID d) "") && negb (String.eqb (PanelID d) (cfg_PanelID config)) then Some (fun r => r <> None)
  else if negb (matchesStartInput d input) then Some (fun r => r = Some (Sentinel ErrInvalidInput))
  else match status d with
  | StatusCompleted => Some (fun r => r = None)
  | StatusDNSFailed => Some (fun r => r = Some (Sentinel ErrDNSRetryRequired))
  | StatusFailed | StatusCancelled | StatusCreated => Some (fun r => r = Some (Sentinel ErrDeploymentNotRunnable))
  | _ => None
  end.

Definition inert_kinds : list opClass := [CCtx; CRunning; CSlot; CObserve; CRepoRead].

Definition inert (tr : list (event svcE)) : Prop := forall ev, ev ∈ tr -> among inert_kinds (op_class (ev_op ev)) = true.

(** What is known of a run once the deployment has been read: it is refused,
    or there is nothing to say. *)
Definition refused (config : Config) (input : StartInput) (tr : list (event svcE)) (r : option svcErr) : Prop :=
  forall d answer, first_read tr = Some d -> refusal config input d = Some answer -> answer r /\ inert tr.

Lemma inert_snoc tr ev : inert tr -> among inert_kinds (op_class (ev_op ev)) = true -> inert (tr ++ [ev]).
Proof. intros H He ev' [Hin| ->%list_elem_of_singleton]%elem_of_app; [auto|done]. Qed.

Lemma first_read_snoc tr ev :
  first_read (tr ++ [ev]) = match first_read tr with Some d => Some d | None => stored_deployment ev end.
Proof.
  unfold first_read. rewrite omap_app. destruct (omap stored_deployment tr) as [|x l]; [|done].
  simpl. by destruct (stored_deployment ev).
Qed.

(** Calls without effect keep what is known. *)
Lemma wp_inert {A} (p : prog svcE A) tr o :
  calls_only (kinds (among [CCtx; CRunning; CSlot; CObserve])) p -> inert tr -> first_read tr = o ->
  wp p tt tr (fun _ _ tr' => inert tr' /\ first_read tr' = o).
Proof.
  intros Hp H1 H2. apply (wp_calls_only (kinds (among [CCtx; CRunning; CSlot; CObserve])) p (fun tr => inert tr /\ first_read tr = o)); [done| |done].
  intros tr' [X e x] He [H3 H4]. split; [apply inert_snoc; [done|]|].
  - by destruct e.
  - rewrite first_read_snoc, H4. destruct o; [done|]. by destruct e.
Qed.

(** Any calls keep what was read first. *)
Lemma wp_first_read {A} (p : prog svcE A) tr d :
  first_read tr = Some d -> wp p tt tr (fun _ _ tr' => first_read tr' = Some d).
Proof.
  intros H. apply (wp_calls_only (fun _ _ => true) p (fun tr => first_read tr = Some d)); [| |done].
  - clear. by induction p as [a|X e k IH].
  - intros tr' ev _ H'. by rewrite first_read_snoc, H'.
Qed.

Section Refusal.
Context (config : Config) (input : StartInput).

Lemma refused_finish {A} (fin : prog svcE A) r tr :
  calls_only (kinds (among [CCtx; CRunning; CSlot; CObserve])) fin ->
  refused config input tr r -> wp fin tt tr (fun _ _ tr' => refused config input tr' r).
Proof.
  intros Hp. apply (wp_calls_only (kinds (among [CCtx; CRunning; CSlot; CObserve])) fin (fun tr => refused config input tr r)); [done|].
  intros tr' [X e x] He H d answer Hd Ha. rewrite first_read_snoc in Hd.
  destruct (first_read tr') as [d'|] eqn:Hf.
  - injection Hd as ->. destruct (H d answer Hf Ha) as [H1 H2]. split; [done|]. apply inert_snoc; [done|]. by destruct e.
  - by destruct e.
Qed.

Lemma wp_deploy_body_refused progress tr :
  inert tr -> first_read tr = None ->
  wp (deploy_body config input progress) tt tr (fun r _ tr' => refused config input tr' r).
Proof.
  intros Hi Hf. unfold deploy_body, load, deploymentForPanel. wp_steps. wp_answer item s1 H1. destruct s1.
  assert (inert (tr ++ [Ev (RepoGet (si_DeploymentID input)) item])) as Hi1 by by apply inert_snoc.
  assert (forall k, wp (ctx_return Some RunCtx (mret (Some (persistence_read_failed k)))) tt
    (tr ++ [Ev (RepoGet (si_DeploymentID input)) item])
    (fun r _ tr' => r <> None /\ inert tr' /\ first_read tr' = stored_deployment (Ev (RepoGet (si_DeploymentID input)) item))) as Hload.
  { intros k. unfold ctx_return. wp_answer e s2 H2.
    assert (inert ((tr ++ [Ev (RepoGet (si_DeploymentID input)) item]) ++ [Ev (CtxErr RunCtx) e])) by by apply inert_snoc.
    destruct e; wp_steps; (split_and!; [done|done|]); rewrite !first_read_snoc, Hf; by destruct item. }
  destruct item as [d|e].
  2: { wp_steps. eapply wp_mono; [apply Hload|]. intros r [] tr' (Hr & _ & Hn) d answer Hd. by rewrite Hn in Hd. }
  assert (first_read (tr ++ [Ev (RepoGet (si_DeploymentID input)) (Ok d)]) = Some d) as Hd by by rewrite first_read_snoc, Hf.
  assert (forall r (answer : option svcErr -> Prop), refusal config input d = Some answer -> answer r ->
    refused config input (tr ++ [Ev (RepoGet (si_DeploymentID input)) (Ok d)]) r) as Hout.
  { intros r answer Ha Hr d' answer' Hd' Ha'. rewrite Hd in Hd'. injection Hd' as <-. rewrite Ha in Ha'. by injection Ha' as <-. }
  destruct (negb (String.eqb (PanelID d) "") && _) eqn:Hpanel; wp_steps.
  { eapply wp_mono; [apply Hload|]. intros r [] tr' (Hr & Hi' & Hn) d' answer Hd' Ha. rewrite Hn in Hd'. injection Hd' as <-.
    unfold refusal in Ha. rewrite Hpanel in Ha. by injection Ha as <-. }
  unfold refusal in Hout. rewrite Hpanel in Hout.
  destruct (negb (matchesStartInput d input)) eqn:Hm; [wp_steps; by eapply Hout|].
  assert (forall p : prog svcE (option svcErr), refusal config input d = None ->
    wp p tt (tr ++ [Ev (RepoGet (si_DeploymentID input)) (Ok d)]) (fun r _ tr' => refused config input tr' r)) as Hrun.
  { intros p Hn. eapply wp_mono; [by apply wp_first_read|]. intros r [] tr' Hd' d' answer Hd'' Ha.
    rewrite Hd' in Hd''. injection Hd'' as <-. by rewrite Hn in Ha. }
  unfold refusal in Hrun. rewrite Hpanel, Hm in Hrun.
  unfold is_status. destruct (status d); simpl; try (wp_steps; by eapply Hout); by apply Hrun.
Qed.
End Refusal.

(** [Deploy] is inert on a deployment it must not run: when the first
    read finds a deployment of another panel, one that is not the confirmed
    one, or one that is COMPLETED, DNS_FAILED, FAILED, CANCELLED or CREATED,
    the run makes no call but reads, context looks and its own bookkeeping, and
    answers with, respectively, an error, [ErrInvalidInput], success,
    [ErrDNSRetryRequired] and [ErrDeploymentNotRunnable]. *)
Theorem deploy_refuses_without_effects (config : Config) input progress :
  always (Deploy config input progress) tt (fun tr r _ => refused config input tr r).
Proof.
  apply wp_always. unfold Deploy. wp_steps.
  assert (forall tr' r, refused config input tr' r ->
    wp (if cfg_Observer config then d ← call Since; observe config (DeploymentDuration d) else mret tt)
    tt tr' (fun _ _ tr' => refused config input tr' r)) as Hend by (intros tr' r H; apply refused_finish; [svc_calls|done]).
  assert (forall tr r, first_read tr = None -> refused config input tr r) as Hnone by (intros tr r Hn d answer Hd; by rewrite Hn in Hd).
  destruct (String.eqb _ _); [wp_steps; by apply Hend, Hnone|]. unfold with_execution. wp_steps.
  eapply wp_mono; [apply (wp_inert _ _ None); [unfold beginExecution; svc_calls|by intros ev Hin%not_elem_of_nil|done]|].
  intros [e|] [] tr1 [H1 H2]; cbv beta; [wp_steps; by apply Hend, Hnone|]. wp_steps.
  eapply wp_mono; [apply (wp_inert _ _ None); [unfold acquire; svc_calls|exact H1|exact H2]|].
  intros [e|] [] tr2 [H3 H4]; cbv beta; wp_steps.
  - eapply wp_mono; [apply refused_finish; [svc_calls|by apply Hnone]|]. intros [] [] tr3 H5. cbv beta. by apply Hend.
  - eapply wp_mono; [by apply wp_deploy_body_refused|]. intros r [] tr3 H5. cbv beta.
    eapply wp_mono; [apply refused_finish; [unfold releaseSlot; svc_calls|exact H5]|]. intros [] [] tr4 H6. cbv beta.
    eapply wp_mono; [apply refused_finish; [svc_calls|exact H6]|]. intros [] [] tr5 H7. cbv beta. by apply Hend.
Qed.

(** ** The poll *)
Section Poll.
Context (config : Config).
Hypothesis Hinitial : 0 < cfg_InitialPollBackoff config <= cfg_MaxPollBackoff config.
Hypothesis Hmax : cfg_MaxPollBackoff config < 2 ^ 62.

Definition backoff_ok (b : Z) : Prop := cfg_InitialPollBackoff config <= b <= cfg_MaxPollBackoff config.

Lemma next_backoff_ok b : backoff_ok b -> backoff_ok (next_backoff config b).
Proof.
  unfold backoff_ok, next_backoff. intros H. rewrite wrap64_id by lia. destruct (Z.ltb_spec (cfg_MaxPollBackoff config) (b * 2)); lia.
Qed.

(** The fuel left covers the time left. *)
Definition covers (fuel : nat) (waited : Z) : Prop :=
  cfg_NodeConnectTimeout config <= waited + Z.of_nat fuel * cfg_InitialPollBackoff config.

Lemma poll_fuel_covers : covers (poll_fuel config) 0.
Proof.
  unfold covers, poll_fuel. destruct (Z.le_gt_cases 0 (cfg_NodeConnectTimeout config)) as [H|H].
  - pose proof (Z.div_mod (cfg_NodeConnectTimeout config) (cfg_InitialPollBackoff config)) as Hd.
    pose proof (Z.mod_pos_bound (cfg_NodeConnectTimeout config) (cfg_InitialPollBackoff config)) as Hb.
    pose proof (Z.div_pos (cfg_NodeConnectTimeout config) (cfg_InitialPollBackoff config)) as Hp.
    rewrite Nat2Z.inj_add, Z2Nat.id by lia. nia.
  - pose proof (Zle_0_nat (Z.to_nat (cfg_NodeConnectTimeout config / cfg_InitialPollBackoff config) + 1)). nia.
Qed.

(** Once the time is over, the rest of the loop does not matter. *)
Lemma poll_wait_over c waited backoff k k' :
  cfg_NodeConnectTimeout config <= waited -> poll_wait config c waited backoff k = poll_wait config c waited backoff k'.
Proof. intros H. unfold poll_wait. by rewrite (proj2 (Z.leb_le _ waited)). Qed.

(** More fuel changes nothing. *)
Lemma poll_loop_fuel fuel fuel' c uuid progress waited backoff :
  covers fuel waited -> covers fuel' waited -> backoff_ok backoff ->
  poll_loop config fuel c uuid progress waited backoff = poll_loop config fuel' c uuid progress waited backoff.
Proof.
  revert fuel' waited backoff. induction fuel as [|fuel IH]; intros [|fuel'] waited backoff H1 H2 Hb; [done| | |];
    cbn [poll_loop]; f_equal.
  1, 2: apply poll_wait_over; unfold covers in *; lia.
  f_equal. unfold covers, backoff_ok in *. apply IH; [nia|nia|by apply next_backoff_ok].
Qed.

(** What the poll does: its reads are of one Node, its timers are within the
    bounds, and its answer is justified by the last read or by the time. *)
Definition poll_reads (uuid : string) (tr : list (event svcE)) : nat :=
  length (List.filter (fun ev => match ev_op ev with RemGetNode u => String.eqb u uuid | _ => false end) tr).

Definition timers_ok (tr : list (event svcE)) : Prop :=
  forall ev, ev ∈ tr -> match ev_op ev with PollWait b => backoff_ok b | _ => True end.

Definition poll_outcome (tr : list (event svcE)) (r : result svcErr Node) : Prop :=
  match r with
  | Ok node => Remnawave.node_IsConnected node = true /\ exists pre uuid, tr = pre ++ [Ev (RemGetNode uuid) (Ok node)]
  | Err (nodeConnectionError code message kind) =>
      (code = "NODE_CONNECTION_REJECTED" /\ kind = ErrNodeConnectionFailed /\
       exists pre uuid node, tr = pre ++ [Ev (RemGetNode uuid) (Ok node)] /\
         Remnawave.node_IsConnected node = false /\ Remnawave.node_IsConnecting node = false) \/
      (code = "NODE_CONNECTION_TIMEOUT" /\ kind = ErrNodeConnectionTimeout)
  | Err (CtxError _) => True
  | Err _ => False
  end.

Lemma poll_reads_snoc uuid tr ev :
  poll_reads uuid (tr ++ [ev]) =
  (poll_reads uuid tr + match ev_op ev with RemGetNode u => if String.eqb u uuid then 1 else 0 | _ => 0 end)%nat.
Proof.
  unfold poll_reads. rewrite List.filter_app, length_app. simpl. destruct (ev_op ev); simpl; try lia.
  by destruct (String.eqb _ _).
Qed.

Lemma timers_ok_snoc tr ev :
  timers_ok tr -> match ev_op ev with PollWait b => backoff_ok b | _ => True end -> timers_ok (tr ++ [ev]).
Proof. intros H He ev' [Hin| ->%list_elem_of_singleton]%elem_of_app; [by apply H|done]. Qed.

(** After [n] reads at most, the timers and the answer are justified. *)
Definition polled (uuid : string) (n : nat) (r : result svcErr Node) (tr : list (event svcE)) : Prop :=
  (poll_reads uuid tr <= n)%nat /\ timers_ok tr /\ poll_outcome tr r.

Lemma wp_poll_timeout c uuid n tr :
  timers_ok tr -> (poll_reads uuid tr <= n)%nat -> wp (poll_timeout c) tt tr (fun r _ tr' => polled uuid n r tr').
Proof.
  intros H1 H2. unfold poll_timeout, ctx_return. wp_answer e s He.
  assert (timers_ok (tr ++ [Ev (CtxErr c) e])) by by apply timers_ok_snoc.
  assert (poll_reads uuid (tr ++ [Ev (CtxErr c) e]) <= n)%nat by (rewrite poll_reads_snoc; simpl; lia).
  destruct e; wp_steps; (split; [done|split; [done|]]); [done|]. by right.
Qed.

Lemma wp_poll_wait c uuid n waited backoff again tr :
  backoff_ok backoff -> timers_ok tr -> (poll_reads uuid tr <= n)%nat ->
  (forall tr', timers_ok tr' -> poll_reads uuid tr' = poll_reads uuid tr -> wp again tt tr' (fun r _ tr' => polled uuid n r tr')) ->
  wp (poll_wait config c waited backoff again) tt tr (fun r _ tr' => polled uuid n r tr').
Proof.
  intros Hb H1 H2 Hk. unfold poll_wait. wp_steps. destruct (_ <=? _).
  - wp_steps. by apply wp_poll_timeout.
  - apply wp_call. intros fired [] _.
    assert (timers_ok (tr ++ [Ev (PollWait backoff) fired])) by by apply timers_ok_snoc.
    assert (poll_reads uuid (tr ++ [Ev (PollWait backoff) fired]) = poll_reads uuid tr) by (rewrite poll_reads_snoc; simpl; lia).
    destruct fired; [apply wp_poll_timeout; [done|lia]|by apply Hk].
Qed.

Lemma wp_poll_read uuid n progress wait tr :
  timers_ok tr -> (poll_reads uuid tr + 1 <= n)%nat ->
  (forall tr', timers_ok tr' -> poll_reads uuid tr' = (poll_reads uuid tr + 1)%nat -> wp wait tt tr' (fun r _ tr' => polled uuid n r tr')) ->
  wp (poll_read uuid progress wait) tt tr (fun r _ tr' => polled uuid n r tr').
Proof.
  intros H1 H2 Hk. unfold poll_read. wp_answer node s1 Hs. destruct s1. set (tr1 := tr ++ _).
  assert (timers_ok tr1) by by apply timers_ok_snoc.
  assert (poll_reads uuid tr1 = poll_reads uuid tr + 1)%nat
    by (unfold tr1; rewrite poll_reads_snoc; simpl; rewrite String.eqb_refl; lia).
  destruct node as [node|]; [|by apply Hk].
  destruct (Remnawave.node_IsConnected node) eqn:Hc; [wp_steps; split; [lia|split; [done|]]; split; [done|by exists tr, uuid]|].
  destruct (negb (Remnawave.node_IsConnecting node)) eqn:Hci.
  { wp_steps. split; [lia|split; [done|]]. left. apply negb_true_iff in Hci. split_and!; [done|done|]. by exists tr, uuid, node. }
  wp_steps. unfold emit. destruct progress; [|wp_steps; by apply Hk].
  apply wp_call. intros [] [] _. apply Hk; [by apply timers_ok_snoc|]. rewrite poll_reads_snoc. simpl. lia.
Qed.

Lemma wp_poll_loop fuel c uuid progress waited backoff n tr :
  backoff_ok backoff -> timers_ok tr -> (poll_reads uuid tr + fuel + 1 <= n)%nat ->
  wp (poll_loop config fuel c uuid progress waited backoff) tt tr (fun r _ tr' => polled uuid n r tr').
Proof.
  revert waited backoff tr. induction fuel as [|fuel IH]; intros waited backoff tr Hb H1 H2; cbn [poll_loop];
    (apply wp_poll_read; [done|lia|]); intros tr1 H3 H4; (apply wp_poll_wait; [done|done|lia|]); intros tr2 H5 H6.
  - apply wp_poll_timeout; [done|lia].
  - apply IH; [by apply next_backoff_ok|done|lia].
Qed.
End Poll.

(** C34. Waiting for a Node terminates within the configured time: with any
    configuration the service accepts (and a maximal backoff below 2^62 ns),
    any amount of fuel from [poll_fuel] on gives the same poll, so the fuel is
    never what ends it; the Node is read at most once per
    [InitialPollBackoff] of the timeout and twice more; every timer is between
    the initial and the maximal backoff; and the poll answers with a Node only
    when the last read found it connected, and rejects it only when the last
    read found it neither connected nor connecting. *)
Theorem poll_terminates_within_bounds (c config : Config) ready uuid progress :
  NewDeploymentService ready c = Some config -> cfg_MaxPollBackoff config < 2 ^ 62 ->
  (forall n, (poll_fuel config <= n)%nat ->
     poll_loop config n RunCtx uuid progress 0 (cfg_InitialPollBackoff config) = pollNode config RunCtx uuid progress) /\
  always (pollNode config RunCtx uuid progress) tt (fun tr r _ =>
    Z.of_nat (poll_reads uuid tr) <= cfg_NodeConnectTimeout config / cfg_InitialPollBackoff config + 2 /\
    timers_ok config tr /\ poll_outcome tr r).
Proof.
  intros Hnew Hmax.
  assert (0 < cfg_InitialPollBackoff config <= cfg_MaxPollBackoff config /\ 0 < cfg_NodeConnectTimeout config) as [Hi Ht].
  { revert Hnew. unfold NewDeploymentService. destruct ready; [|done]. cbv zeta. simpl. destruct (_ || _) eqn:Hc; [done|].
    apply orb_false_iff in Hc as [Hc _]. apply Z.ltb_ge in Hc. intros [= <-]. simpl.
    destruct (Z.leb_spec (cfg_InitialPollBackoff c) 0), (Z.leb_spec (cfg_MaxPollBackoff c) 0), (Z.leb_spec (cfg_NodeConnectTimeout c) 0); lia. }
  assert (backoff_ok config (cfg_InitialPollBackoff config)) as Hb by (unfold backoff_ok; lia).
  split.
  - intros n Hn. apply poll_loop_fuel; [done|done| | |done].
    + pose proof (poll_fuel_covers config Hi). unfold covers in *. nia.
    + by apply poll_fuel_covers.
  - apply wp_always. unfold pollNode. eapply wp_mono; [apply (wp_poll_loop config Hi Hmax _ _ uuid _ _ _ (poll_fuel config + 1)); [done| |done]|].
    + intros ev Hev. by apply not_elem_of_nil in Hev.
    + intros r s tr (H1 & H2 & H3). split_and!; [|done|done]. unfold poll_fuel in H1.
      pose proof (Z.div_pos (cfg_NodeConnectTimeout config) (cfg_InitialPollBackoff config)). lia.
Qed.

Definition example_config : Config := mkConfig "" false 0 0 0 0 false false false.
Definition live_config : Config := mkConfig "default" false 2 300000000000 1000000000 10000000000 false false false.

Lemma poll_terminates_within_bounds_witness :
  always (pollNode live_config RunCtx "n" true) tt (fun tr r _ =>
    Z.of_nat (poll_reads "n" tr) <= 302 /\ timers_ok live_config tr /\ poll_outcome tr r).
Proof.
  apply (poll_terminates_within_bounds example_config live_config true "n" true); [reflexivity|].
  vm_compute. reflexivity.
Defined.

(** ** [Prepare] *)

(** The Hosts of an answer. *)
Definition listed_hosts : event svcE -> option (list Host) := answer_test (fun X e =>
  match e in svcE X return X -> option (list Host) with
  | RemGetHosts => fun r => match r with Ok hosts => Some hosts | Err _ => None end
  | _ => fun _ => None
  end).

Definition created_with (ev : event svcE) : option CreateDeploymentParams :=
  match ev_op ev with RepoCreate p => Some p | _ => None end.

(** A deployment is created only for a public address, a valid Node name and
    an operator, on the Host the operator selected, which is deployable, after
    a list of the Nodes in which no Node has that name or that address. *)
Definition prepare_guard (config : Config) (input : PrepareInput) (past : list (event svcE)) (ev : event svcE) : Prop :=
  match created_with ev with
  | None => True
  | Some p =>
      existsb (fun e => bool_decide (created_with e <> None)) past = false /\
      publicIP (pi_VPSIP input) = true /\ Remnawave.ValidateNodeName (pi_NodeName input) = None /\ 0 < pi_OperatorUserID input /\
      exists host profile hosts nodes e1 e2,
        e1 ∈ past /\ listed_hosts e1 = Some hosts /\ host ∈ hosts /\ Remnawave.host_UUID host = pi_HostID input /\
        Remnawave.host_IsDisabled host = false /\ Remnawave.DeploymentProfileFromHost host = Ok profile /\
        e2 ∈ past /\ listed_nodes e2 = Some nodes /\
        (forall node, node ∈ nodes -> name_matches (TrimSpace (pi_NodeName input)) node = false /\ address_matches (pi_VPSIP input) node = false) /\
        p = mkCreateDeploymentParams "" (cfg_PanelID config) (pi_OperatorUserID input) (Remnawave.host_UUID host)
              (Remnawave.host_Remark host) (Remnawave.prof_SNIDomain profile) (TrimSpace (pi_NodeName input)) (Unmap (pi_VPSIP input))
  end.

Lemma select_host_found hostID hosts host profile :
  select_host hostID hosts = Ok (host, profile) ->
  host ∈ hosts /\ Remnawave.host_UUID host = hostID /\ Remnawave.host_IsDisabled host = false /\
  Remnawave.DeploymentProfileFromHost host = Ok profile.
Proof.
  unfold select_host. destruct (find_first _ hosts) as [h|] eqn:Hf; [|done].
  destruct (find_first_Some _ _ _ Hf) as [Hin Hid]. apply String.eqb_eq in Hid.
  destruct (Remnawave.host_IsDisabled h) eqn:Hd; [done|].
  destruct (Remnawave.DeploymentProfileFromHost h) as [p|] eqn:Hp; [|done]. by intros [= <- <-].
Qed.

Lemma unique_loop_fresh name address nodes :
  unique_loop name address "" false nodes = None ->
  forall node, node ∈ nodes -> name_matches name node = false /\ address_matches address node = false.
Proof.
  induction nodes as [|x nodes IH]; [intros _ n Hn; by apply not_elem_of_nil in Hn|].
  cbn [unique_loop]. cbv zeta. simpl. destruct (name_matches name x) eqn:Hn, (address_matches address x) eqn:Ha; simpl; try done.
  by intros H n [->|?]%elem_of_cons; [|auto].
Qed.

Section Prepare.
Context (config : Config) (input : PrepareInput).

Definition prepared_ok (tr : list (event svcE)) : Prop := every (prepare_guard config input) tr.

(** No deployment created yet. *)
Definition none_created (tr : list (event svcE)) : Prop := existsb (fun e => bool_decide (created_with e <> None)) tr = false.

Lemma prepared_snoc tr ev : prepared_ok tr -> created_with ev = None -> prepared_ok (tr ++ [ev]).
Proof. intros H He. apply every_snoc; [done|]. unfold prepare_guard. by rewrite He. Qed.

Lemma none_created_snoc tr ev : none_created tr -> created_with ev = None -> none_created (tr ++ [ev]).
Proof. unfold none_created. intros H He. rewrite existsb_app, H. simpl. by rewrite He. Qed.

Lemma wp_no_create {A} (p : prog svcE A) tr :
  calls_only (kinds (outside [CRepoCreate])) p -> prepared_ok tr -> wp p tt tr (fun _ _ tr' => prepared_ok tr').
Proof.
  intros Hp. apply (wp_calls_only (kinds (outside [CRepoCreate])) p prepared_ok); [done|].
  intros tr' [X e x] He H. apply prepared_snoc; [done|]. by destruct e.
Qed.

Lemma wp_ctx_prepared {A} (wrap : svcErr -> A) c (k : prog svcE A) tr :
  prepared_ok tr -> none_created tr ->
  (forall tr', prepared_ok tr' -> none_created tr' -> (forall e, e ∈ tr -> e ∈ tr') -> wp k tt tr' (fun _ _ tr' => prepared_ok tr')) ->
  wp (ctx_return wrap c k) tt tr (fun _ _ tr' => prepared_ok tr').
Proof.
  intros H1 H2 Hk. unfold ctx_return. wp_answer e s Hs. destruct s.
  assert (prepared_ok (tr ++ [Ev (CtxErr c) e])) by by apply prepared_snoc.
  destruct e; [by wp_steps|]. apply Hk; [done|by apply none_created_snoc|]. intros ev Hev. apply elem_of_app. by left.
Qed.

Lemma wp_create_prepared host profile hosts nodes e1 e2 tr :
  prepare_input_ok config input = true -> prepared_ok tr -> none_created tr ->
  select_host (pi_HostID input) hosts = Ok (host, profile) -> listed_hosts e1 = Some hosts -> e1 ∈ tr ->
  listed_nodes e2 = Some nodes -> e2 ∈ tr ->
  unique_loop (TrimSpace (pi_NodeName input)) (pi_VPSIP input) "" false nodes = None ->
  wp (prepare_create config input host profile) tt tr (fun _ _ tr' => prepared_ok tr').
Proof.
  intros Hin H1 H2 Hsel He1 Hin1 He2 Hin2 Hu. apply select_host_found in Hsel as (S1 & S2 & S3 & S4).
  unfold prepare_input_ok in Hin. repeat (apply andb_true_iff in Hin as [Hin ?]).
  unfold prepare_create. set (p := mkCreateDeploymentParams _ _ _ _ _ _ _ _). wp_answer created s1 Hs. destruct s1.
  assert (prepared_ok (tr ++ [Ev (RepoCreate p) created])) as Hg.
  { apply every_snoc; [done|]. unfold prepare_guard. simpl. split; [done|]. split; [done|].
    split; [match goal with Hb : bool_decide _ = true |- _ => by apply bool_decide_eq_true in Hb end|]. split; [lia|].
    exists host, profile, hosts, nodes, e1, e2. split_and!; try done. by apply unique_loop_fresh. }
  destruct created as [created|e].
  - apply wp_no_create; [|done]. unfold with_execution, beginExecution, acquire, releaseSlot. svc_calls.
  - apply wp_no_create; [svc_calls|done].
Qed.

Lemma wp_checked_prepared hosts host profile e1 tr :
  prepare_input_ok config input = true -> prepared_ok tr -> none_created tr ->
  select_host (pi_HostID input) hosts = Ok (host, profile) -> listed_hosts e1 = Some hosts -> e1 ∈ tr ->
  wp (prepare_selected config input (Ok (host, profile))) tt tr (fun _ _ tr' => prepared_ok tr').
Proof.
  intros Hin H1 H2 Hsel He1 Hin1. unfold prepare_selected, checkUnique. wp_steps. wp_answer nodes s1 Hs. destruct s1.
  assert (prepared_ok (tr ++ [Ev RemGetNodes nodes]) /\ none_created (tr ++ [Ev RemGetNodes nodes])) as [H3 H4]
    by (split; [by apply prepared_snoc|by apply none_created_snoc]).
  destruct nodes as [nodes|e].
  - wp_steps. destruct (unique_loop _ _ _ _ _) eqn:Hu; [apply wp_no_create; [svc_calls|done]|].
    apply (wp_create_prepared _ _ hosts nodes e1 (Ev RemGetNodes (Ok nodes))); try done.
    + apply elem_of_app. by left.
    + apply elem_of_app. right. by left.
  - unfold ctx_return at 1. wp_answer x s2 Hs2. destruct s2.
    destruct x; wp_steps; (apply wp_no_create; [svc_calls|by apply prepared_snoc]).
Qed.
End Prepare.

(** [Prepare] creates at most one deployment in a run, and only for a
    public address, a valid Node name and a positive operator, on a
    listed Host with the selected identifier, enabled and with a deployment
    profile, after a list of the Nodes in which no Node has that name or that
    address; what it stores is exactly that name, address, Host and domain. *)
Theorem prepare_creates_only_checked_deployments (config : Config) input :
  always (Prepare config input) tt (fun tr _ _ => every (prepare_guard config input) tr).
Proof.
  apply wp_always. unfold Prepare. destruct (prepare_input_ok config input) eqn:Hin; cbn [negb]; [|wp_steps; apply every_nil].
  unfold selectedHost. wp_steps. wp_answer hosts s1 Hs. destruct s1.
  assert (prepared_ok config input ([] ++ [Ev RemGetHosts hosts]) /\ none_created ([] ++ [Ev RemGetHosts hosts])) as [H1 H2]
    by (split; [apply prepared_snoc; [apply every_nil|done]|done]).
  assert (Ev RemGetHosts hosts ∈ [] ++ [Ev RemGetHosts hosts]) as He1 by by left.
  set (tr := [] ++ _) in *. clearbody tr. destruct hosts as [hosts|e].
  - wp_steps. apply wp_ctx_prepared; [done|done|]. intros tr' H3 H4 Hsub.
    destruct (select_host (pi_HostID input) hosts) as [[host profile]|e] eqn:Hsel; [|unfold prepare_selected; by wp_steps].
    apply (wp_checked_prepared _ _ hosts host profile (Ev RemGetHosts (Ok hosts))); auto.
  - unfold ctx_return at 1. wp_answer x s2 Hs2. destruct s2.
    destruct x; wp_steps; (apply wp_no_create; [unfold prepare_selected; svc_calls|by apply prepared_snoc]).
Qed.

(** ** Operator texts *)
(** Every text shown to the operator is bounded and intact: [safeText]
    gives at most 200 bytes, a prefix of the trimmed one-line text (or of the
    fallback when that is empty), the whole of it when it fits, and it is
    well-formed UTF-8 whenever that text is: the cut never splits a rune. *)
Theorem safe_text_is_bounded_and_intact (value fallback : string) :
  let text := let t := TrimSpace (flatten_ws value) in if String.eqb t "" then fallback else t in
  str_len (safeText value fallback) <= 200 /\
  HasPrefix text (safeText value fallback) = true /\
  (str_len text <= 200 -> safeText value fallback = text) /\
  (ValidString text = true -> ValidString (safeText value fallback) = true).
Proof.
  cbv zeta. unfold safeText. set (text := if String.eqb (TrimSpace (flatten_ws value)) "" then fallback else TrimSpace (flatten_ws value)).
  destruct (cut_runes_spec 200 (String.length text) text) as (H1 & H2 & H3 & H4); [lia|lia|]. done.
Qed.

(** 100 two-byte letters and one more byte: the last letter goes whole. *)
Example safe_text_cuts_whole_runes :
  let long := "x" +:+ concat_runes (replicate 100 "ж") in
  str_len long = 201 /\ str_len (safeText long "") = 199 /\ ValidString (safeText long "") = true.
Proof. vm_compute. done. Qed.
