(* ===== verification/ServiceDb.v ===== *)
(** * The deployment workflow over the real tables

    The environment of these theorems is the repository of [Repository], with
    a clock that does not go back and answers that may be lost after or before
    the commit; the VPS operator may record steps and pin host keys; every
    other service may answer anything.  Proved here: success means COMPLETED
    in the tables, a reported failure is the one the tables hold, and the
    statuses a run writes only climb. *)

From S2P Require Import Prelude GoStrings NetIP Effects Deployment Repository CertTypes Service ServiceFacts.
From S2P Require Remnawave DnsBalancer Preflight Provisioner.

#[local] Open Scope Z_scope.

(** ** Statuses *)
Definition rank (st : Status) : Z :=
  match st with
  | StatusPreflight => 1
  | StatusPreparingCertificate => 2
  | StatusProvisioning => 3
  | StatusCreatingRemnawave => 4
  | StatusWaitingRemnawave => 5
  | StatusAddingToDNS => 6
  | StatusCompleted | StatusFailed | StatusDNSFailed => 7
  | StatusCreated | StatusCancelled | StatusManualReview => 0
  end.

Definition written_status (ev : event svcE) : option Status :=
  match ev_op ev with RepoUpdateState _ p => Some (usp_Status p) | _ => None end.

(** The statuses a run wrote, in order. *)
Definition written (tr : list (event svcE)) : list Status := omap written_status tr.

(** Every status ranks above the one before it, the first one above [lo]. *)
Fixpoint climbing (lo : Z) (l : list Status) : Prop :=
  match l with [] => True | st :: l' => lo < rank st /\ climbing (rank st) l' end.

Fixpoint top (lo : Z) (l : list Status) : Z :=
  match l with [] => lo | st :: l' => top (rank st) l' end.

Lemma climbing_snoc lo l st : climbing lo (l ++ [st]) <-> climbing lo l /\ top lo l < rank st.
Proof. revert lo. induction l as [|x l IH]; intros lo; simpl; [tauto|]. rewrite IH. tauto. Qed.

Lemma top_snoc lo l st : top lo (l ++ [st]) = rank st.
Proof. revert lo. induction l as [|x l IH]; intros lo; simpl; auto. Qed.

Lemma written_snoc tr ev : written (tr ++ [ev]) = written tr ++ option_list (written_status ev).
Proof. unfold written. rewrite omap_app. simpl. by destruct (written_status ev). Qed.

(** The run climbed, to rank [n] at most. *)
Definition climbed (n : Z) (tr : list (event svcE)) : Prop := climbing 0 (written tr) /\ top 0 (written tr) <= n.

Lemma climbed_write n tr ev st :
  climbed n tr -> written_status ev = Some st -> n < rank st -> climbed (rank st) (tr ++ [ev]).
Proof.
  intros [H1 H2] Hev Hn. unfold climbed. rewrite written_snoc, Hev. simpl. rewrite climbing_snoc, top_snoc.
  split; [split; [done|lia]|lia].
Qed.

Lemma climbed_quiet n tr ev : climbed n tr -> written_status ev = None -> climbed n (tr ++ [ev]).
Proof. intros H Hev. unfold climbed. rewrite written_snoc, Hev, app_nil_r. exact H. Qed.

Lemma climbed_le n m tr : climbed n tr -> n <= m -> climbed m tr.
Proof. intros [H1 H2] H. split; [done|lia]. Qed.

(** ** The environment *)
Section OnTables.
Context (uuid_text : string -> option string).

(** A write whose answer may be lost. *)
Definition written_to {A} (op : Z -> Db -> result repoErr A * Db) (s : Z * Db) (x : result repoErr A) (s' : Z * Db) : Prop :=
  fst s <= fst s' /\
  ((x = fst (op (fst s') (snd s)) /\ snd s' = snd (op (fst s') (snd s))) \/
   (x = Err DriverError /\ (snd s' = snd (op (fst s') (snd s)) \/ snd s' = snd s))).

(** What the VPS operator does to the tables: it records steps and pins the
    SSH host key. *)
Inductive vps_writes : Z * Db -> Z * Db -> Prop :=
  | vps_done s : vps_writes s s
  | vps_record s now p s' :
      fst s <= now -> vps_writes (now, repo_exec uuid_text now (OpRecordStep p) (snd s)) s' -> vps_writes s s'
  | vps_key s now id f s' :
      fst s <= now -> vps_writes (now, repo_exec uuid_text now (OpStoreKey id f) (snd s)) s' -> vps_writes s s'.

Definition SvcEnv : Env svcE (Z * Db) := fun X e s x s' =>
  match e in svcE X return X -> Prop with
  | RepoCreate p => fun x => exists random, written_to (fun now => CreateDeployment uuid_text random now p) s x s'
  | RepoGet id => fun x => s' = s /\ (x = GetDeployment uuid_text id (snd s) \/ x = Err DriverError)
  | RepoUpdateState id p => fun x => written_to (fun now => UpdateDeploymentState uuid_text now id p) s x s'
  | RepoSetNode id uuid => fun x => written_to (fun now => SetRemnawaveNodeUUID uuid_text now id uuid) s x s'
  | RepoRecordStep p => fun x => written_to (fun now => RecordDeploymentStep uuid_text now p) s x s'
  | RepoListSteps id => fun x => s' = s /\ (x = ListDeploymentSteps uuid_text id (snd s) \/ x = Err DriverError)
  | RepoFindByNode panel uuid => fun x => s' = s /\ (x = FindDeploymentByPanelNodeUUID uuid_text panel uuid (snd s) \/ x = Err DriverError)
  | RepoSetIP id ip => fun x => written_to (fun now => SetTargetVPSIP uuid_text now id ip) s x s'
  | RepoSetBinding id p => fun x => written_to (fun now => SetNodeHostBinding uuid_text now id p) s x s'
  | VpsPreflight _ => fun _ => vps_writes s s'
  | VpsProvision _ => fun _ => vps_writes s s'
  | _ => fun _ => s' = s
  end x.
#[local] Existing Instance SvcEnv.

(** What a run cares about in a row. *)
Record core : Type := mkCore { c_status : Status; c_code : option string; c_message : option string; c_node : option string }.

Definition core_of (d : Deployment) : core := mkCore (status d) (SafeErrorCode d) (SafeErrorMessage d) (RemnawaveNodeUUID d).

(** The tables are consistent and hold the deployment [k] with core [c]. *)
Definition at_row (k : string) (c : core) (s : Z * Db) : Prop :=
  db_ok (fst s) (snd s) /\ exists d, deployments (snd s) !! k = Some d /\ core_of d = c.

Section Row.
Context (k : string) (Hk : uuid_text k = Some k).

Lemma exec_ok s now o : db_ok (fst s) (snd s) -> fst s <= now -> db_ok now (repo_exec uuid_text now o (snd s)).
Proof. intros H1 H2. eapply effect_ok; [exact H1|exact H2|apply repo_exec_effect]. Qed.

(** An operation keeps the core of the row, or gives it a new one. *)
Lemma at_row_exec c s now o s' :
  at_row k c s -> fst s <= now -> fst s' = now -> snd s' = repo_exec uuid_text now o (snd s) ->
  (forall d, deployments (snd s) !! k = Some d -> exists d', deployments (repo_exec uuid_text now o (snd s)) !! k = Some d' /\ core_of d' = core_of d) ->
  at_row k c s'.
Proof.
  intros [Hok (d & Hd & Hc)] Hn E1 E2 H. split; [rewrite E1, E2; by apply exec_ok|].
  destruct (H d Hd) as (d' & Hd' & Hc'). exists d'. rewrite E2. split; [done|congruence].
Qed.

Lemma record_core now p db d :
  deployments db !! k = Some d ->
  exists d', deployments (repo_exec uuid_text now (OpRecordStep p) db) !! k = Some d' /\ core_of d' = core_of d.
Proof.
  intros Hd. simpl. unfold RecordDeploymentStep. destruct (_ || _); [eauto|].
  destruct (uuid_text (rsp_DeploymentID p)) as [key|]; [|eauto]. destruct (deployments db !! key) as [x|] eqn:Hx; [|eauto].
  simpl. destruct (decide (key = k)) as [->|Hne].
  - rewrite lookup_insert_eq. eexists. split; [done|]. by simplify_eq.
  - exists d. by rewrite lookup_insert_ne.
Qed.

Lemma key_core now id f db d :
  deployments db !! k = Some d ->
  exists d', deployments (repo_exec uuid_text now (OpStoreKey id f) db) !! k = Some d' /\ core_of d' = core_of d.
Proof.
  intros Hd. simpl. unfold StoreIfAbsent. destruct (negb _); [eauto|]. destruct (_ || _); [eauto|].
  destruct (uuid_text id) as [key|]; [|eauto]. destruct (deployments db !! key) as [x|] eqn:Hx; [|eauto].
  simpl. destruct (decide (key = k)) as [->|Hne].
  - rewrite lookup_insert_eq. eexists. split; [done|]. by simplify_eq.
  - exists d. by rewrite lookup_insert_ne.
Qed.

Lemma at_row_vps c s s' : vps_writes s s' -> at_row k c s -> at_row k c s'.
Proof.
  induction 1 as [s|s now p s' Hn _ IH|s now id f s' Hn _ IH]; intros H; [done| |]; apply IH.
  - eapply (at_row_exec _ _ _ (OpRecordStep p)); [exact H|exact Hn|done|done|]. intros d. apply record_core.
  - eapply (at_row_exec _ _ _ (OpStoreKey id f)); [exact H|exact Hn|done|done|]. intros d. apply key_core.
Qed.

(** The core after a state update of this row. *)
Definition core_updated (p : UpdateDeploymentStateParams) (c : core) : core :=
  mkCore (usp_Status p) (usp_SafeErrorCode p) (usp_SafeErrorMessage p) (c_node c).

Lemma at_row_update c s x s' p :
  at_row k c s -> written_to (fun now => UpdateDeploymentState uuid_text now k p) s x s' ->
  (at_row k c s' \/ at_row k (core_updated p c) s') /\ (is_ok x = true -> at_row k (core_updated p c) s').
Proof.
  intros [Hok (d & Hd & Hc)] [Hn Hx].
  pose proof (exec_ok s (fst s') (OpUpdateState k p) Hok Hn) as Hok'.
  pose proof (exec_ok s (fst s') (OpRecordStep (mkRecordStepParams "" "" StepStatusRunning None None)) Hok Hn) as Hsame.
  simpl in Hok', Hsame. revert Hx Hok'. unfold UpdateDeploymentState.
  assert (db_ok (fst s') (snd s)) as Hok2 by (unfold RecordDeploymentStep in Hsame; exact Hsame).
  assert (at_row k c (fst s', snd s)) as Hold by (split; [done|by exists d]).
  destruct (_ || _); simpl.
  { intros [[-> E]|[-> [E|E]]] _; (split; [left; split; rewrite E; [done|by exists d]|done]). }
  unfold update_row. rewrite Hk, Hd. simpl. intros Hx Hok'.
  assert (snd s' = with_deployment k (update_state_row (fst s') p d) (snd s) -> at_row k (core_updated p c) s') as Hnew.
  { intros E. split; [by rewrite E|]. rewrite E. simpl. rewrite lookup_insert_eq. eexists. split; [done|]. by rewrite <-Hc. }
  destruct Hx as [[-> E]|[-> [E|E]]]; (split; [|done || auto]); [right; auto|right; auto|left].
  split; rewrite E; [done|by exists d].
Qed.

Lemma at_row_record c s x s' p :
  at_row k c s -> written_to (fun now => RecordDeploymentStep uuid_text now p) s x s' -> at_row k c s'.
Proof.
  intros H [Hn Hx]. destruct s' as [now db']. simpl in *.
  assert (at_row k c (now, repo_exec uuid_text now (OpRecordStep p) (snd s))) as H1.
  { eapply (at_row_exec _ _ now (OpRecordStep p)); [exact H|exact Hn|done|done|]. intros d. apply record_core. }
  assert (at_row k c (now, snd s)) as H2.
  { eapply (at_row_exec _ _ now (OpRecordStep (mkRecordStepParams "" "" StepStatusRunning None None))); [exact H|exact Hn|done|done|].
    intros d. apply record_core. }
  simpl in H1. destruct Hx as [[_ ->]|[_ [->| ->]]]; done.
Qed.

Lemma at_row_set_node c s x s' uuid :
  at_row k c s -> written_to (fun now => SetRemnawaveNodeUUID uuid_text now k uuid) s x s' ->
  exists c', at_row k c' s' /\ c_status c' = c_status c /\ (is_ok x = true -> c_node c' <> None).
Proof.
  intros H [Hn Hx]. destruct s' as [now db']. simpl in *.
  assert (at_row k c (now, snd s)) as Hold.
  { eapply (at_row_exec _ _ now (OpRecordStep (mkRecordStepParams "" "" StepStatusRunning None None))); [exact H|exact Hn|done|done|].
    intros d. apply record_core. }
  destruct H as [Hok (d & Hd & Hc)].
  pose proof (exec_ok s now (OpSetNode k uuid) Hok Hn) as Hok'. simpl in Hok'.
  revert Hx Hok'. unfold SetRemnawaveNodeUUID.
  destruct (_ || _); simpl.
  { intros [[-> ->]|[-> [->| ->]]] _; by exists c. }
  unfold update_row. rewrite Hk, Hd. destruct (uuid_text uuid) as [u|]; simpl; intros Hx Hok'.
  2: { destruct Hx as [[-> ->]|[-> [->| ->]]]; by exists c. }
  assert (at_row k (mkCore (c_status c) (c_code c) (c_message c) (Some u)) (now, with_deployment k (set_node_row now u d) (snd s))) as Hnew.
  { split; [done|]. simpl. rewrite lookup_insert_eq. eexists. split; [done|]. by rewrite <-Hc. }
  destruct Hx as [[-> ->]|[-> [->| ->]]]; [eexists; by split|eexists; by split|by exists c].
Qed.

Lemma at_row_get c s x s' :
  at_row k c s -> s' = s /\ (x = GetDeployment uuid_text k (snd s) \/ x = Err DriverError) ->
  s' = s /\ forall d, x = Ok d -> ID d = k /\ core_of d = c.
Proof.
  intros [Hok (d & Hd & Hc)] [-> Hx]. split; [done|]. intros d' ->. destruct Hx as [Hx|]; [|done].
  unfold GetDeployment in Hx. destruct (negb _); [done|]. rewrite Hk, Hd in Hx. injection Hx as ->.
  split; [|done]. by apply Hok in Hd as [Hd _].
Qed.

(** *** Outcomes of the pieces of a run *)

(** The codes of the failures of the persistence itself. *)
Definition persistence_codes : list string :=
  ["PERSISTENCE_READ_FAILED"; "STATE_PERSIST_FAILED"; "STEP_PERSIST_FAILED"; "NODE_UUID_PERSIST_FAILED";
   "DNS_SKIP_PERSIST_FAILED"; "FAILURE_PERSIST_FAILED"].

(** A safe error is the failure the row holds, unless the persistence
    itself failed. *)
Definition reported (e : svcErr) (s : Z * Db) : Prop :=
  match e with
  | SafeError code message _ => code ∈ persistence_codes \/
      exists c, at_row k c s /\ (c_status c = StatusFailed \/ c_status c = StatusDNSFailed) /\
        c_code c = Some code /\ exists m, c_message c = Some m /\ message = safeText m "Deployment operation failed"
  | _ => True
  end.

Definition outcome (n : Z) (ok : core -> Prop) (r : option svcErr) (s : Z * Db) (tr : list (event svcE)) : Prop :=
  match r with
  | None => climbed n tr /\ exists c, at_row k c s /\ ok c
  | Some e => climbed 7 tr /\ reported e s
  end.

Definition steady : opClass -> bool := outside [CStateWrite; CNodeWrite; CRepoCreate; CRowMeta].

(** Calls that are no state or Node writes keep the core and the climb. *)
Lemma wp_steady {A} (p : prog svcE A) c n s tr :
  calls_only (kinds steady) p -> at_row k c s -> climbed n tr ->
  wp p s tr (fun _ s' tr' => at_row k c s' /\ climbed n tr').
Proof.
  intros Hp H1 H2. apply (wp_calls_inv (kinds steady) p (fun s tr => at_row k c s /\ climbed n tr)); [done| |done].
  clear s tr H1 H2. intros X e s x s' tr He Hs [H1 H2]. split.
  - unfold env_step, SvcEnv in Hs. destruct e; try done; try (by subst s').
    + by destruct Hs as [-> _].
    + by eapply at_row_record.
    + by destruct Hs as [-> _].
    + by destruct Hs as [-> _].
    + by eapply at_row_vps.
    + by eapply at_row_vps.
  - apply climbed_quiet; [done|]. by destruct e.
Qed.

(** The same before the rest of a program. *)
Lemma wp_steady_then {A B} (p : prog svcE A) (f : A -> prog svcE B) c n s tr Q :
  calls_only (kinds steady) p -> at_row k c s -> climbed n tr ->
  (forall a s' tr', at_row k c s' -> climbed n tr' -> wp (f a) s' tr' Q) ->
  wp (p ≫= f) s tr Q.
Proof.
  intros Hp H1 H2 Hf. wp_steps. eapply wp_mono; [by eapply wp_steady|]. intros a s' tr' [H3 H4]. by apply Hf.
Qed.

Lemma wp_seq (p q : prog svcE (option svcErr)) n m ok ok' s tr :
  wp p s tr (outcome n ok) ->
  (forall c s' tr', at_row k c s' -> climbed n tr' -> ok c -> wp q s' tr' (outcome m ok')) ->
  wp (p ;;? q) s tr (outcome m ok').
Proof.
  intros Hp Hq. wp_steps. eapply wp_mono; [exact Hp|]. intros [e|] s' tr' H; [exact H|].
  destruct H as (H1 & c & H2 & H3). by eapply Hq.
Qed.

Lemma climbed_end n tr : climbed n tr -> n <= 7 -> climbed 7 tr.
Proof. intros H Hn. by eapply climbed_le. Qed.

(** A look at the context. *)
Lemma wp_ctx c n cx (p : prog svcE (option svcErr)) m ok s tr :
  at_row k c s -> climbed n tr -> n <= 7 ->
  (forall s' tr', at_row k c s' -> climbed n tr' -> wp p s' tr' (outcome m ok)) ->
  wp (ctx_return Some cx p) s tr (outcome m ok).
Proof.
  intros H1 H2 Hn Hp. unfold ctx_return. apply (wp_steady_then _ _ c n); [svc_calls|done|done|].
  intros [e|] s' tr' H3 H4; [|by apply Hp]. wp_steps. split; [by eapply climbed_end|done].
Qed.

(** An error of the persistence. *)
Lemma wp_infra c n cx code message kind m ok s tr :
  at_row k c s -> climbed n tr -> n <= 7 -> code ∈ persistence_codes ->
  wp (ctx_return Some cx (mret (Some (safeError code message kind)))) s tr (outcome m ok).
Proof.
  intros H1 H2 Hn Hc. apply (wp_ctx c n); [done|done|done|]. intros s' tr' H3 H4. wp_steps.
  split; [by eapply climbed_end|]. by left.
Qed.

Lemma wp_setState cx st step code message c n s tr :
  at_row k c s -> climbed n tr -> n < rank st -> rank st <= 7 ->
  wp (setState cx k st step code message) s tr (outcome (rank st) (fun c' => c_status c' = st /\ c_node c' = c_node c)).
Proof.
  intros H1 H2 Hn Hr. unfold setState. apply (wp_ctx c n); [done|done|lia|]. clear s tr H1 H2. intros s tr H1 H2.
  wp_answer r s1 Hs. unfold env_step, SvcEnv in Hs.
  destruct (at_row_update _ _ _ _ _ H1 Hs) as [Hany Hok].
  set (p := mkUpdateDeploymentStateParams _ _ _ _) in *.
  assert (climbed (rank st) (tr ++ [Ev (RepoUpdateState k p) r])) as H3 by by eapply climbed_write.
  destruct r as [d|e].
  - wp_steps. split; [done|]. eexists. split; [by apply Hok|]. done.
  - destruct Hany as [H4|H4]; (eapply wp_infra; [exact H4|exact H3|done|]); right; by left.
Qed.

Lemma wp_step_recorded cx r c n s tr :
  at_row k c s -> climbed n tr -> n <= 7 -> wp (step_recorded cx r) s tr (outcome n (fun c' => c' = c)).
Proof.
  intros H1 H2 Hn. destruct r as [x|e]; unfold step_recorded.
  - wp_steps. split; [done|]. by exists c.
  - eapply wp_infra; [done|done|done|]. right; right; by left.
Qed.

Lemma wp_record_step cx p c n s tr :
  at_row k c s -> climbed n tr -> n <= 7 ->
  wp (r ← call (RepoRecordStep p); step_recorded cx r) s tr (outcome n (fun c' => c' = c)).
Proof.
  intros H1 H2 Hn. apply (wp_steady_then _ _ c n); [svc_calls|done|done|]. intros r s' tr' H3 H4. by apply wp_step_recorded.
Qed.

Lemma wp_beginStage cx st step c n s tr :
  at_row k c s -> climbed n tr -> n < rank st -> rank st <= 7 ->
  wp (beginStage cx k st step) s tr (outcome (rank st) (fun c' => c_status c' = st /\ c_node c' = c_node c)).
Proof.
  intros H1 H2 Hn Hr. unfold beginStage. apply (wp_ctx c n); [done|done|lia|]. clear s tr H1 H2. intros s tr H1 H2.
  eapply wp_seq; [by eapply wp_setState|]. intros c' s' tr' H3 H4 H5.
  eapply wp_mono; [by apply (wp_record_step _ _ c')|]. intros [e|] s2 tr2; [done|]. intros (H6 & c2 & H7 & ->).
  split; [done|]. by exists c'.
Qed.

Lemma wp_completeStage cx step summary c n s tr :
  at_row k c s -> climbed n tr -> n <= 7 ->
  wp (completeStage cx k step summary) s tr (outcome n (fun c' => c' = c)).
Proof.
  intros H1 H2 Hn. unfold completeStage. apply (wp_ctx c n); [done|done|done|]. intros s' tr' H3 H4. by apply wp_record_step.
Qed.

Lemma wp_fail config cx step st code message kind c n m ok s tr :
  at_row k c s -> climbed n tr -> n < 7 -> st = StatusFailed \/ st = StatusDNSFailed ->
  wp (fail config cx k step st code message kind) s tr (outcome m ok).
Proof.
  intros H1 H2 Hn Hst. unfold fail, failStage. assert (rank st = 7) as Hr by by destruct Hst as [->| ->].
  unfold ctx_return. wp_steps. eapply wp_mono; [apply (wp_steady _ c n); [svc_calls|done|done]|].
  clear s tr H1 H2. intros [e|] s tr [H1 H2]; cbv beta; [wp_steps; split; [apply (climbed_end n); [done|lia]|done]|]. cbv zeta.
  wp_steps. eapply wp_mono; [apply (wp_steady _ c n); [svc_calls|done|done]|].
  clear s tr H1 H2. intros [] s tr [H1 H2]; cbv beta. wp_steps.
  eapply wp_mono; [apply (wp_steady _ c n); [svc_calls|done|done]|].
  clear s tr H1 H2. intros recorded s tr [H1 H2]; cbv beta.
  set (p := mkUpdateDeploymentStateParams _ _ _ _). wp_answer updated s1 Hs. unfold env_step, SvcEnv in Hs.
  destruct (at_row_update _ _ _ _ _ H1 Hs) as [Hany Hok].
  assert (climbed 7 (tr ++ [Ev (RepoUpdateState k p) updated])) as H3 by (rewrite <-Hr; apply (climbed_write n _ _ st); [done|done|lia]).
  wp_answer e s2 Hs2. unfold env_step, SvcEnv in Hs2. subst s2.
  assert (climbed 7 ((tr ++ [Ev (RepoUpdateState k p) updated]) ++ [Ev (CtxErr cx) e])) as H4 by by apply climbed_quiet.
  destruct e as [e|]; [by wp_steps|].
  destruct (negb (recorded && is_ok updated)) eqn:Hp; wp_steps; (split; [done|]).
  - left. do 5 right. by left.
  - right. apply negb_false_iff, andb_true_iff in Hp as [_ Hp]. eexists. split; [by apply Hok|]. simpl.
    split; [done|]. split; [done|]. by eexists.
Qed.

(** *** The stages *)
Section Stages.
Context (config : Config).

(** A stage leaves the row in status [st] with the Node it had. *)
Definition moved (st : Status) (c : core) : core -> Prop := fun c' => c_status c' = st /\ c_node c' = c_node c.

(** [beginStage], unless the row already is in that status. *)
Lemma wp_enter cx (b : bool) st step c n s tr :
  at_row k c s -> climbed n tr -> n <= rank st -> rank st <= 7 ->
  (b = true -> c_status c = st) -> (b = false -> n < rank st) ->
  wp (if b then mret None else beginStage cx k st step) s tr (outcome (rank st) (moved st c)).
Proof.
  intros H1 H2 Hn Hr Hb Hb'. destruct b; [wp_steps; split; [by eapply climbed_le|]; exists c; split; [done|]; split; [auto|done]|].
  eapply wp_beginStage; [done|done|auto|done].
Qed.

Lemma wp_finally_steady (p : prog svcE (option svcErr)) fin n ok s tr :
  wp p s tr (outcome n ok) -> calls_only (kinds (among [CClear])) fin ->
  wp (finally p fin) s tr (outcome n ok).
Proof.
  intros Hp Hf. wp_steps. eapply wp_mono; [exact Hp|]. intros r s' tr' H.
  eapply wp_mono; [eapply (wp_calls_inv _ _ (fun s tr => outcome n ok r s tr)); [exact Hf| |exact H]|done].
  intros X e s0 x s1 tr0 He Hs H0. assert (s1 = s0) as -> by (destruct e; done || exact Hs).
  assert (written_status (Ev e x) = None) as Hw by by destruct e.
  destruct r as [er|]; [destruct H0 as [H1 H2]; split; [by apply climbed_quiet|done]|].
  destruct H0 as [H1 H2]. split; [by apply climbed_quiet|done].
Qed.

Lemma wp_provisionWithSecret cx d material secret progress c n s tr :
  ID d = k -> at_row k c s -> climbed n tr -> n < 4 ->
  wp (provisionWithSecret config cx d material secret progress) s tr (outcome 4 (moved StatusCreatingRemnawave c)).
Proof.
  intros Hid H1 H2 Hn. unfold provisionWithSecret. rewrite Hid. apply wp_finally_steady; [|svc_calls].
  apply (wp_steady_then _ _ c n); [svc_calls|done|done|]. clear s tr H1 H2. intros [reports err] s tr H1 H2.
  apply (wp_steady_then _ _ c n); [unfold provisioning_report; svc_calls|done|done|].
  clear s tr H1 H2. intros [] s tr H1 H2. apply (wp_ctx c n); [done|done|lia|]. clear s tr H1 H2. intros s tr H1 H2.
  destruct err as [err|]; [eapply wp_fail; [done|done|lia|by left]|].
  eapply wp_seq; [eapply wp_completeStage; [done|done|lia]|]. intros c' s' tr' H3 H4 ->.
  apply (wp_steady_then _ _ c n); [svc_calls|done|done|]. intros [] s2 tr2 H5 H6.
  by apply (wp_beginStage _ StatusCreatingRemnawave _ _ n).
Qed.

Lemma wp_provisionWithMaterial cx d material progress c n s tr :
  ID d = k -> at_row k c s -> climbed n tr -> n < 3 ->
  wp (provisionWithMaterial config cx d material progress) s tr (outcome 4 (moved StatusCreatingRemnawave c)).
Proof.
  intros Hid H1 H2 Hn. unfold provisionWithMaterial. rewrite Hid. apply wp_finally_steady; [|svc_calls].
  eapply (wp_seq _ _ n _ (fun c' => c' = c)).
  { destruct (bool_decide _); [wp_steps; split; [done|by exists c]|]. apply wp_completeStage; [done|done|lia]. }
  clear s tr H1 H2. intros c' s tr H1 H2 ->.
  apply (wp_steady_then _ _ c n); [svc_calls|done|done|]. clear s tr H1 H2. intros [] s tr H1 H2.
  apply (wp_steady_then _ _ c n); [svc_calls|done|done|]. clear s tr H1 H2. intros [] s tr H1 H2.
  eapply wp_seq; [by apply (wp_beginStage _ StatusProvisioning _ c n)|]. clear s tr H1 H2. intros c1 s tr H1 H2 [Hst Hnode].
  apply (wp_steady_then _ _ c1 3); [svc_calls|done|done|]. clear s tr H1 H2. intros secret s tr H1 H2.
  apply (wp_ctx c1 3); [done|done|lia|]. clear s tr H1 H2. intros s tr H1 H2. cbv zeta.
  assert (moved StatusCreatingRemnawave c = moved StatusCreatingRemnawave c1) as -> by (unfold moved; by rewrite Hnode).
  destruct secret as [secret|]; [|by eapply wp_fail; [| | |left]].
  destruct (String.eqb _ _); [by eapply wp_fail; [| | |left]|]. by eapply wp_provisionWithSecret.
Qed.

Lemma wp_prepareAndProvision cx d progress c s tr :
  ID d = k -> status d = c_status c -> at_row k c s -> climbed 0 tr ->
  wp (prepareAndProvision config cx d progress) s tr (outcome 4 (moved StatusCreatingRemnawave c)).
Proof.
  intros Hid Hst H1 H2. unfold prepareAndProvision. rewrite Hid.
  apply (wp_steady_then _ _ c 0); [svc_calls|done|done|]. clear s tr H1 H2. intros [] s tr H1 H2.
  eapply (wp_seq _ _ 2 _ (fun c' => c_node c' = c_node c)).
  { destruct (bool_decide _).
    - wp_steps. split; [by eapply climbed_le|by exists c].
    - eapply wp_mono; [by apply (wp_beginStage _ StatusPreparingCertificate _ c 0)|].
      intros [e|] s' tr'; [done|]. intros (H3 & c' & H4 & H5 & H6). split; [done|by exists c']. }
  clear s tr H1 H2. intros c1 s tr H1 H2 Hnode.
  assert (moved StatusCreatingRemnawave c = moved StatusCreatingRemnawave c1) as -> by (unfold moved; by rewrite Hnode).
  apply (wp_steady_then _ _ c1 2); [svc_calls|done|done|]. clear s tr H1 H2. intros material s tr H1 H2.
  apply (wp_ctx c1 2); [done|done|lia|]. clear s tr H1 H2. intros s tr H1 H2.
  destruct material as [material|e]; [|by eapply wp_fail; [| | |left]]. by eapply wp_provisionWithMaterial.
Qed.

(** A created Node: its identifier is stored. *)
Definition waiting (c : core) : Prop := c_status c = StatusWaitingRemnawave /\ c_node c <> None.

Lemma wp_nodeCreated cx d progress c n s tr :
  ID d = k -> c_node c <> None -> at_row k c s -> climbed n tr -> n < 5 ->
  wp (nodeCreated cx d progress) s tr (outcome 5 waiting).
Proof.
  intros Hid Hnode H1 H2 Hn. unfold nodeCreated. rewrite Hid.
  eapply wp_seq; [eapply wp_completeStage; [done|done|lia]|]. clear s tr H1 H2. intros c' s tr H1 H2 ->.
  apply (wp_steady_then _ _ c n); [svc_calls|done|done|]. clear s tr H1 H2. intros [] s tr H1 H2.
  eapply wp_mono; [by apply (wp_beginStage _ StatusWaitingRemnawave _ c n)|].
  intros [e|] s' tr'; [done|]. intros (H3 & c' & H4 & H5 & H6). split; [done|]. exists c'. split; [done|].
  split; [done|congruence].
Qed.

Lemma wp_storeNode cx d node progress c n s tr :
  ID d = k -> at_row k c s -> climbed n tr -> n < 5 ->
  wp (storeNode cx d node progress) s tr (outcome 5 waiting).
Proof.
  intros Hid H1 H2 Hn. unfold storeNode. rewrite Hid. wp_answer r s1 Hs. unfold env_step, SvcEnv in Hs.
  destruct (at_row_set_node _ _ _ _ _ H1 Hs) as (c' & H3 & _ & H5).
  assert (climbed n (tr ++ [Ev (RepoSetNode k (Remnawave.node_UUID node)) r])) as H4 by by apply climbed_quiet.
  destruct r as [x|e].
  - eapply wp_nodeCreated; [done|by apply H5|done|done|lia].
  - eapply wp_infra; [done|done|lia|]. do 3 right. by left.
Qed.

Lemma wp_createNode cx d host progress c n s tr :
  ID d = k -> core_of d = c -> at_row k c s -> climbed n tr -> n <= 4 ->
  (c_status c = StatusCreatingRemnawave \/ n < 4) ->
  wp (createNode config cx d host progress) s tr (outcome 5 waiting).
Proof.
  intros Hid Hd H1 H2 Hn Hor. unfold createNode. rewrite Hid. rewrite <-Hd in Hor. simpl in Hor.
  apply (wp_steady_then _ _ c n); [svc_calls|done|done|]. clear s tr H1 H2. intros [] s tr H1 H2.
  eapply wp_seq.
  { apply (wp_enter _ _ StatusCreatingRemnawave _ c n); [done|done|done|done| |].
    - intros Hb%bool_decide_eq_true. by rewrite <-Hd.
    - intros Hb%bool_decide_eq_false. by destruct Hor. }
  clear s tr H1 H2. intros c1 s tr H1 H2 [Hst Hnode].
  destruct (RemnawaveNodeUUID d) as [uuid|] eqn:Huuid.
  { eapply wp_nodeCreated; [done| |done|exact H2|done]. rewrite Hnode, <-Hd. simpl. by rewrite Huuid. }
  apply (wp_steady_then _ _ c1 4); [svc_calls|done|done|]. clear s tr H1 H2. intros nodes s tr H1 H2.
  apply (wp_ctx c1 4); [done|done|lia|]. clear s tr H1 H2. intros s tr H1 H2.
  destruct nodes as [nodes|]; [|by eapply wp_fail; [| | |left]].
  destruct (recoverableNode _ _ _) as [[node|]|dup]; [by eapply wp_storeNode| |by eapply wp_fail; [| | |left]].
  apply (wp_steady_then _ _ c1 4); [svc_calls|done|done|]. clear s tr H1 H2. intros node s tr H1 H2.
  apply (wp_ctx c1 4); [done|done|lia|]. clear s tr H1 H2. intros s tr H1 H2.
  destruct node as [node|]; [by eapply wp_storeNode|by eapply wp_fail; [| | |left]].
Qed.

Lemma wp_waitForHealthyNode cx d progress c n s tr :
  ID d = k -> core_of d = c -> at_row k c s -> climbed n tr -> n <= 5 ->
  (c_status c = StatusWaitingRemnawave \/ n < 5) ->
  wp (waitForHealthyNode config cx d progress) s tr (outcome 6 (moved StatusAddingToDNS c)).
Proof.
  intros Hid Hd H1 H2 Hn Hor. unfold waitForHealthyNode. rewrite Hid. rewrite <-Hd in Hor. simpl in Hor.
  apply (wp_steady_then _ _ c n); [svc_calls|done|done|]. clear s tr H1 H2. intros [] s tr H1 H2.
  destruct (RemnawaveNodeUUID d) as [uuid|] eqn:Huuid; [|eapply wp_fail; [done|done|lia|by left]].
  eapply wp_seq.
  { apply (wp_enter _ _ StatusWaitingRemnawave _ c n); [done|done|done|done| |].
    - intros Hb%bool_decide_eq_true. by rewrite <-Hd.
    - intros Hb%bool_decide_eq_false. by destruct Hor. }
  clear s tr H1 H2. intros c1 s tr H1 H2 [Hst Hnode].
  assert (moved StatusAddingToDNS c = moved StatusAddingToDNS c1) as -> by (unfold moved; by rewrite Hnode).
  apply (wp_steady_then _ _ c1 5); [unfold pollNode; svc_calls|done|done|]. clear s tr H1 H2. intros node s tr H1 H2.
  apply (wp_ctx c1 5); [done|done|lia|]. clear s tr H1 H2. intros s tr H1 H2.
  destruct node as [node|e]; [|destruct e; by eapply wp_fail; [| | |left]].
  destruct (negb _); [by eapply wp_fail; [| | |left]|].
  eapply wp_seq; [by eapply wp_completeStage|]. clear s tr H1 H2. intros c2 s tr H1 H2 ->.
  apply (wp_steady_then _ _ c1 5); [svc_calls|done|done|]. clear s tr H1 H2. intros [] s tr H1 H2.
  by apply (wp_beginStage _ StatusAddingToDNS _ _ 5).
Qed.

Definition finished (c : core) : Prop := c_status c = StatusCompleted /\ c_node c <> None.

Lemma wp_completed cx d p progress c s tr :
  ID d = k -> c_node c <> None -> at_row k c s -> climbed 6 tr ->
  wp (completed cx d p progress) s tr (outcome 7 finished).
Proof.
  intros Hid Hnode H1 H2. unfold completed. rewrite Hid.
  eapply wp_seq; [by apply (wp_setState _ StatusCompleted _ _ _ c 6)|]. clear s tr H1 H2. intros c1 s tr H1 H2 [H3 H4].
  apply (wp_steady_then _ _ c1 7); [svc_calls|done|done|]. clear s tr H1 H2. intros [] s tr H1 H2. wp_steps.
  split; [done|]. exists c1. split; [done|]. split; [done|congruence].
Qed.

Lemma wp_addDNS cx d progress c n s tr :
  ID d = k -> c_status c = status d -> c_node c = RemnawaveNodeUUID d -> at_row k c s -> climbed n tr -> n <= 6 ->
  (status d = StatusAddingToDNS \/ n < 6) ->
  wp (addDNS config cx d progress) s tr (outcome 7 finished).
Proof.
  intros Hid Hd Hu H1 H2 Hn Hor. unfold addDNS. rewrite Hid.
  apply (wp_steady_then _ _ c n); [svc_calls|done|done|]. clear s tr H1 H2. intros [] s tr H1 H2.
  destruct (RemnawaveNodeUUID d) as [uuid|] eqn:Huuid; [|wp_steps; split; [apply (climbed_end n); [done|lia]|done]].
  eapply wp_seq.
  { apply (wp_enter _ _ StatusAddingToDNS _ c n); [done|done|done|done| |].
    - intros Hb%bool_decide_eq_true. congruence.
    - intros Hb%bool_decide_eq_false. by destruct Hor. }
  clear s tr H1 H2. intros c1 s tr H1 H2 [Hst Hnode]. assert (c_node c1 <> None) as Hsome by congruence.
  destruct (cfg_DNSDisabled config).
  { unfold skipDNS. rewrite Hid. apply (wp_steady_then _ _ c1 6); [svc_calls|done|done|]. clear s tr H1 H2. intros r s tr H1 H2.
    destruct r as [r|e]; [by eapply wp_completed|]. wp_steps. split; [by eapply climbed_end|]. left. do 4 right. by left. }
  apply (wp_steady_then _ _ c1 6); [svc_calls|done|done|]. clear s tr H1 H2. intros node s tr H1 H2.
  apply (wp_ctx c1 6); [done|done|lia|]. clear s tr H1 H2. intros s tr H1 H2. cbv zeta.
  destruct node as [node|e]; [|by eapply wp_fail; [| | |left]].
  destruct (negb _); [by eapply wp_fail; [| | |left]|].
  apply (wp_steady_then _ _ c1 6); [svc_calls|done|done|]. clear s tr H1 H2. intros added s tr H1 H2.
  destruct added as [added|e].
  - eapply wp_seq; [by eapply wp_completeStage|]. clear s tr H1 H2. intros c2 s tr H1 H2 ->. by eapply wp_completed.
  - apply (wp_ctx c1 6); [done|done|lia|]. clear s tr H1 H2. intros s tr H1 H2. by eapply wp_fail; [| | |right].
Qed.

(** *** The run *)
Lemma wp_reload cx message (f : Deployment -> prog svcE (option svcErr)) c n m ok s tr :
  at_row k c s -> climbed n tr -> n <= 7 ->
  (forall d tr', ID d = k -> core_of d = c -> climbed n tr' -> wp (f d) s tr' (outcome m ok)) ->
  wp (reload cx k message f) s tr (outcome m ok).
Proof.
  intros H1 H2 Hn Hf. unfold reload. wp_answer item s1 Hs. unfold env_step, SvcEnv in Hs.
  destruct (at_row_get _ _ _ _ H1 Hs) as [-> Hd].
  assert (climbed n (tr ++ [Ev (RepoGet k) item])) as H3 by by apply climbed_quiet.
  destruct item as [d|e]; [destruct (Hd d eq_refl); by apply Hf|].
  eapply wp_infra; [done|done|done|by left].
Qed.

Lemma wp_deploy_dns d progress c n s tr :
  ID d = k -> core_of d = c -> at_row k c s -> climbed n tr -> n <= 6 -> (c_status c = StatusAddingToDNS \/ n < 6) ->
  wp (deploy_dns config d progress) s tr (outcome 7 finished).
Proof.
  intros Hid Hd H1 H2 Hn Hor. unfold deploy_dns. destruct (is_status _ _).
  - apply (wp_addDNS _ _ _ c n); [done|by rewrite <-Hd|by rewrite <-Hd|done|done|done|by rewrite <-Hd in Hor].
  - wp_steps. split; [eapply climbed_end; [done|lia]|done].
Qed.

Lemma wp_deploy_wait d progress c n s tr :
  ID d = k -> core_of d = c -> at_row k c s -> climbed n tr -> n <= 5 -> (c_status c = StatusWaitingRemnawave \/ n < 5) ->
  wp (deploy_wait config d progress) s tr (outcome 7 finished).
Proof.
  intros Hid Hd H1 H2 Hn Hor. unfold deploy_wait. destruct (is_status _ _) eqn:Hst.
  - eapply wp_seq; [by eapply wp_waitForHealthyNode|]. clear s tr H1 H2. intros c1 s tr H1 H2 [H3 H4]. rewrite Hid.
    eapply wp_reload; [done|done|lia|]. intros d' tr' Hid' Hd' H5. eapply wp_deploy_dns; [done|done|done|done|lia|by left].
  - eapply wp_deploy_dns; [done|done|done|done|lia|right; lia].
Qed.

Lemma wp_deploy_node host d progress c n s tr :
  ID d = k -> core_of d = c -> at_row k c s -> climbed n tr -> n <= 4 -> (c_status c = StatusCreatingRemnawave \/ n < 4) ->
  wp (deploy_node config host d progress) s tr (outcome 7 finished).
Proof.
  intros Hid Hd H1 H2 Hn Hor. unfold deploy_node. destruct (_ || _).
  - eapply wp_seq; [by eapply wp_createNode|]. clear s tr H1 H2. intros c1 s tr H1 H2 [H3 H4]. rewrite Hid.
    eapply wp_reload; [done|done|lia|]. intros d' tr' Hid' Hd' H5. eapply wp_deploy_wait; [done|done|done|done|lia|by left].
  - eapply wp_deploy_wait; [done|done|done|done|lia|right; lia].
Qed.

Lemma wp_deploy_stages host d progress c s tr :
  ID d = k -> core_of d = c -> at_row k c s -> climbed 0 tr ->
  wp (deploy_stages config host d progress) s tr (outcome 7 finished).
Proof.
  intros Hid Hd H1 H2. unfold deploy_stages. destruct (is_status _ _).
  - eapply wp_seq; [apply (wp_prepareAndProvision _ _ _ c); [done|by rewrite <-Hd|done|done]|]. clear s tr H1 H2. intros c1 s tr H1 H2 [H3 H4]. rewrite Hid.
    eapply wp_reload; [done|done|lia|]. intros d' tr' Hid' Hd' H5. eapply wp_deploy_node; [done|done|done|done|lia|by left].
  - eapply wp_deploy_node; [done|done|done|done|lia|right; lia].
Qed.

Lemma wp_deploy_checked d progress c s tr :
  ID d = k -> core_of d = c -> at_row k c s -> climbed 0 tr ->
  wp (deploy_checked config d progress) s tr (outcome 7 finished).
Proof.
  intros Hid Hd H1 H2. unfold deploy_checked.
  apply (wp_steady_then _ _ c 0); [svc_calls|done|done|]. clear s tr H1 H2. intros selected s tr H1 H2.
  apply (wp_ctx c 0); [done|done|lia|]. clear s tr H1 H2. intros s tr H1 H2. unfold deploy_selected. rewrite Hid. cbv zeta.
  destruct selected as [[host profile]|e]; [|by eapply wp_fail; [| | |left]].
  destruct (negb _); [by eapply wp_fail; [| | |left]|].
  apply (wp_steady_then _ _ c 0); [svc_calls|done|done|]. clear s tr H1 H2. intros dup s tr H1 H2.
  destruct dup as [e|]; [|by eapply wp_deploy_stages].
  apply (wp_ctx c 0); [done|done|lia|]. clear s tr H1 H2. intros s tr H1 H2. by eapply wp_fail; [| | |left].
Qed.
End Stages.
End Row.

(** What the caller learns from the answer of a run. *)
Definition run_outcome (k : string) (r : option svcErr) (s : Z * Db) (tr : list (event svcE)) : Prop :=
  climbed 7 tr /\
  match r with
  | None => exists c, at_row k c s /\ c_status c = StatusCompleted
  | Some e => reported k e s
  end.

Lemma outcome_run k n r s tr : n <= 7 -> outcome k n (finished) r s tr -> run_outcome k r s tr.
Proof.
  intros Hn H. destruct r as [e|]; [exact H|]. destruct H as (H1 & c & H2 & H3 & _).
  split; [by eapply climbed_le|by exists c].
Qed.

Lemma wp_deploy_body config input progress s tr :
  db_ok (fst s) (snd s) -> climbed 0 tr ->
  wp (deploy_body config input progress) s tr (run_outcome (si_DeploymentID input)).
Proof.
  intros H1 H2. unfold deploy_body, load, deploymentForPanel. wp_steps. set (k := si_DeploymentID input).
  wp_answer item s1 Hs. unfold env_step, SvcEnv in Hs. destruct Hs as [-> Hs].
  assert (climbed 0 (tr ++ [Ev (RepoGet k) item])) as H3 by by apply climbed_quiet.
  assert (wp (ctx_return Some RunCtx (mret (Some (persistence_read_failed "Could not load deployment")))) s
    (tr ++ [Ev (RepoGet k) item]) (run_outcome k)) as Herr.
  { unfold ctx_return. wp_answer e s2 Hs2. unfold env_step, SvcEnv in Hs2. subst s2.
    assert (climbed 7 ((tr ++ [Ev (RepoGet k) item]) ++ [Ev (CtxErr RunCtx) e])) as H4
      by (eapply climbed_le; [by apply climbed_quiet|lia]).
    destruct e; wp_steps; (split; [done|]); [done|]. left. by left. }
  destruct item as [d|e]; [|wp_steps; exact Herr]. destruct Hs as [Hs|]; [|done].
  destruct (_ && _); [wp_steps; exact Herr|]. wp_steps.
  assert (forall e, match e with SafeError _ _ _ => False | _ => True end -> run_outcome k (Some e) s (tr ++ [Ev (RepoGet k) (Ok d)])) as Hany.
  { intros e He. split; [eapply climbed_le; [done|lia]|]. by destruct e. }
  destruct (matchesStartInput d input) eqn:Hm; cbn [negb]; [|wp_steps; by apply Hany].
  unfold matchesStartInput in Hm. repeat apply andb_true_iff in Hm as [Hm _]. apply String.eqb_eq in Hm. fold k in Hm.
  unfold GetDeployment in Hs. destruct (negb _); [done|]. destruct (uuid_text k) as [key|] eqn:Hkey; [|done].
  destruct (deployments (snd s) !! key) as [x|] eqn:Hx; [|done]. injection Hs as ->.
  assert (key = k) as -> by (destruct H1 as [H1 _]; destruct (H1 _ _ Hx) as [Hid _]; congruence).
  assert (at_row k (core_of x) s) as Hrow by (split; [done|by exists x]).
  destruct (is_status x [StatusCompleted]) eqn:Hst.
  { apply bool_decide_eq_true, list_elem_of_singleton in Hst. wp_steps. split; [eapply climbed_le; [done|lia]|].
    exists (core_of x). split; [done|done]. }
  clear Hst. destruct (is_status x [StatusDNSFailed]); [wp_steps; by apply Hany|].
  destruct (is_status x _); [wp_steps; by apply Hany|].
  eapply wp_mono; [by eapply wp_deploy_checked|]. intros r s' tr' H. by apply (outcome_run _ 7).
Qed.

(** Calls that touch neither the tables nor the climb. *)
Lemma wp_aside {A} (p : prog svcE A) (I : Z * Db -> Prop) n s tr :
  calls_only (kinds (among [CRunning; CSlot; CObserve])) p -> I s -> climbed n tr ->
  wp p s tr (fun _ s' tr' => I s' /\ climbed n tr').
Proof.
  intros Hp H1 H2. apply (wp_calls_inv _ p (fun s tr => I s /\ climbed n tr) _ _ Hp); [|done].
  clear s tr H1 H2. intros X e s x s' tr He Hs [H1 H2]. split; [|apply climbed_quiet; [done|by destruct e]].
  assert (s' = s) as -> by (destruct e; done || exact Hs). done.
Qed.

Lemma wp_deploy_run config input progress s :
  db_ok (fst s) (snd s) ->
  wp (Deploy config input progress) s [] (run_outcome (si_DeploymentID input)).
Proof.
  intros Hok. assert (climbed 0 []) as H0 by (by split). set (k := si_DeploymentID input).
  assert (forall (p : prog svcE unit) r s tr, calls_only (kinds (among [CRunning; CSlot; CObserve])) p ->
    run_outcome k r s tr -> wp p s tr (fun _ s' tr' => run_outcome k r s' tr')) as Hend.
  { intros p r s0 tr0 Hp [H1 H2]. eapply wp_mono; [eapply (wp_aside p (fun s' => s' = s0)); [exact Hp|done|exact H1]|].
    intros [] s1 tr1 [-> H3]. by split. }
  assert (forall e s tr, match e with SafeError _ _ _ => False | _ => True end -> climbed 0 tr -> run_outcome k (Some e) s tr) as Hany.
  { intros e s0 tr0 He H. split; [eapply climbed_le; [done|lia]|]. by destruct e. }
  unfold Deploy. wp_steps. destruct (String.eqb _ _) eqn:Hblank.
  { wp_steps. apply Hend; [svc_calls|by apply Hany]. }
  unfold with_execution, beginExecution. rewrite Hblank. wp_steps.
  apply wp_call. intros inserted s1 Hs1. unfold env_step, SvcEnv in Hs1. subst s1. wp_steps.
  assert (climbed 0 ([] ++ [Ev (RunningInsert (si_DeploymentID input)) inserted])) as H1 by by apply climbed_quiet.
  destruct inserted; [|wp_steps; apply Hend; [svc_calls|by apply Hany]]. wp_steps. unfold acquire.
  wp_answer slot s1 Hs1. unfold env_step, SvcEnv in Hs1. subst s1. set (tr1 := (_ ++ _) ++ _).
  assert (climbed 0 tr1) as H2 by by apply climbed_quiet. clearbody tr1. destruct slot as [e|]; wp_steps.
  { apply wp_call. intros [] s1 Hs1. unfold env_step, SvcEnv in Hs1. subst s1. apply Hend; [svc_calls|].
    apply Hany; [done|by apply climbed_quiet]. }
  eapply wp_mono; [apply (wp_aside _ (fun s' => s' = s)); [svc_calls|done|exact H2]|]. intros [] s1 tr2 [-> H3]. cbv beta. wp_steps.
  eapply wp_mono; [by apply wp_deploy_body|]. intros r s1 tr3 H4. cbv beta.
  eapply wp_mono; [apply Hend; [unfold releaseSlot; svc_calls|exact H4]|]. intros [] s2 tr4 H5. cbv beta.
  apply wp_call. intros [] s3 Hs3. unfold env_step, SvcEnv in Hs3. subst s3. apply Hend; [svc_calls|].
  destruct H5 as [H5 H6]. split; [by apply climbed_quiet|done].
Qed.

(** C2. Success is durable: when [Deploy] returns nil, the tables hold the
    deployment with the status COMPLETED and a completion time, whatever the
    services answered and although answers of the store may be lost. *)
Theorem deploy_success_is_completed config input progress now db :
  db_ok now db ->
  always (Deploy config input progress) (now, db) (fun _ r s' =>
    r = None -> exists d, deployments (snd s') !! si_DeploymentID input = Some d /\
      status d = StatusCompleted /\ CompletedAt d <> None).
Proof.
  intros Hok. apply wp_always. eapply wp_mono; [by apply wp_deploy_run|]. intros r s tr [_ H] ->.
  destruct H as (c & [Hok' (d & Hd & <-)] & Hst). exists d. split; [done|]. split; [done|].
  destruct Hok' as [Hrows _]. destruct (Hrows _ _ Hd) as (_ & Hc & _). apply Hc. simpl in Hst. by rewrite Hst.
Qed.

(** C3. A failure is durable: when [Deploy] returns an operator-safe error
    whose code is not one of the persistence's own failures, the tables hold
    the deployment with the status FAILED or DNS_FAILED and with that very
    code, and the returned text is the stored one (normalised once more). *)
Theorem deploy_failure_is_persisted config input progress now db :
  db_ok now db ->
  always (Deploy config input progress) (now, db) (fun _ r s' =>
    forall code message kind, r = Some (SafeError code message kind) -> code ∉ persistence_codes ->
      exists d stored, deployments (snd s') !! si_DeploymentID input = Some d /\
        (status d = StatusFailed \/ status d = StatusDNSFailed) /\ SafeErrorCode d = Some code /\
        SafeErrorMessage d = Some stored /\ message = safeText stored "Deployment operation failed").
Proof.
  intros Hok. apply wp_always. eapply wp_mono; [by apply wp_deploy_run|]. intros r s tr [_ H] code message kind -> Hcode.
  destruct H as [H|(c & [_ (d & Hd & <-)] & Hst & Hc & m & Hm & He)]; [done|]. by exists d, m.
Qed.

(** C4. The statuses a run writes only climb: each one ranks strictly above
    the one before it in the order of the stages, so no stage is entered
    twice or out of order, and nothing is written after COMPLETED, FAILED or
    DNS_FAILED; CREATED, CANCELLED and MANUAL_REVIEW are never written. *)
Theorem deploy_statuses_climb config input progress now db :
  db_ok now db ->
  always (Deploy config input progress) (now, db) (fun tr _ _ => climbing 0 (written tr)).
Proof.
  intros Hok. apply wp_always. eapply wp_mono; [by apply wp_deploy_run|]. by intros r s tr [[H _] _].
Qed.
End OnTables.

(** ** A concrete run *)

(** Services that work: one deployable Host, no Node before, a connected Node
    after, and the real tables. *)
Definition example_host : Host :=
  Remnawave.mkHost host1 "edge" "vpn.example.com" None false
    (Remnawave.mkHostInbound (Some "c1b2c3d4-0000-4000-8000-000000000001") (Some "d1b2c3d4-0000-4000-8000-000000000001")).

Definition example_node_id : string := "e1b2c3d4-0000-4000-8000-000000000001".

Definition example_node (connected : bool) : Node :=
  Remnawave.mkNode example_node_id "node-1" "1.2.3.4" (Some 2222) connected true false None None None [].

Definition write_with {A} (s : Z * Db) (op : Z -> Db -> result repoErr A * Db) : result repoErr A * (Z * Db) :=
  let now := fst s + 1 in
  let '(r, db) := op now (snd s) in (r, (now, db)).

Definition example_services (connected : bool) : handler svcE (Z * Db) := fun X e s =>
  match e in svcE X return X * (Z * Db) with
  | CtxErr _ => (None, s)
  | RunningInsert _ => (true, s)
  | RunningRemove _ | RunningCancel _ | SlotRelease | Observe _ | Emit _ | DestroyMaterial _ | ClearBytes _ => (tt, s)
  | SlotAcquire => (None, s)
  | Since => (0, s)
  | RepoCreate p => write_with s (fun now => CreateDeployment example_uuid (Err "no entropy") now p)
  | RepoGet id => (GetDeployment example_uuid id (snd s), s)
  | RepoUpdateState id p => write_with s (fun now => UpdateDeploymentState example_uuid now id p)
  | RepoSetNode id uuid => write_with s (fun now => SetRemnawaveNodeUUID example_uuid now id uuid)
  | RepoRecordStep p => write_with s (fun now => RecordDeploymentStep example_uuid now p)
  | RepoListSteps id => (ListDeploymentSteps example_uuid id (snd s), s)
  | RepoFindByNode panel uuid => (FindDeploymentByPanelNodeUUID example_uuid panel uuid (snd s), s)
  | RepoSetIP id ip => write_with s (fun now => SetTargetVPSIP example_uuid now id ip)
  | RepoSetBinding id p => write_with s (fun now => SetNodeHostBinding example_uuid now id p)
  | RemUpdateAddress _ | RemUpdateProfile _ => (Err Remnawave.TransportError, s)
  | DnsFindZonesByIP _ => (Ok [], s)
  | DnsReplaceIP _ _ _ | DnsMoveIP _ _ _ => (Err DnsBalancer.ErrNotFound, s)
  | SwitchNodeSNI _ => (Some (Sentinel ErrNodeSNISwitchFailed), s)
  | RemGetHosts => (Ok [example_host], s)
  | RemGenerateSecretKey => (Ok "secret", s)
  | RemGetNodes => (Ok [], s)
  | RemGetNode _ | RemCreateNode _ => (Ok (example_node connected), s)
  | DnsFindZone _ => (Err DnsBalancer.ErrNotFound, s)
  | DnsAddIP fqdn _ => (Ok (DnsBalancer.mkAddIPResult fqdn true ["1.2.3.4"]), s)
  | CertReadiness _ => (Ok ReadinessReady, s)
  | CertPrepare _ => (Ok (mkMaterial [1] [2]), s)
  | CertBootstrap _ _ => (Err "unavailable", s)
  | VpsPreflight _ => (Err tt, s)
  | VpsProvision _ => (([], None), s)
  | PollWait _ => (true, s)
  end.

(** The deployment [id1] after a successful preflight. *)
Definition prepared_db : Db := run_ops (take 4 example_ops) empty_db.

Definition example_input : StartInput := mkStartInput id1 7 host1 "node-1" (Addr4 16909060).

Definition example_run (connected : bool) : option svcErr * list Status * option (Status * option string) :=
  let '(tr, r, s) := run (example_services connected) (Deploy live_config example_input true) (40, prepared_db) in
  (r, written tr, (fun d => (status d, RemnawaveNodeUUID d)) <$> deployments (snd s) !! id1).

Example deploy_runs :
  example_run true =
    (None, [StatusPreparingCertificate; StatusProvisioning; StatusCreatingRemnawave; StatusWaitingRemnawave; StatusAddingToDNS; StatusCompleted],
     Some (StatusCompleted, Some example_node_id)) /\
  example_run false =
    (Some (SafeError "NODE_CONNECTION_TIMEOUT" "Remnawave Node did not connect before timeout" (Sentinel ErrNodeConnectionTimeout)),
     [StatusPreparingCertificate; StatusProvisioning; StatusCreatingRemnawave; StatusWaitingRemnawave; StatusFailed],
     Some (StatusFailed, Some example_node_id)).
Proof. vm_compute. done. Qed.

Lemma deploy_success_is_completed_witness :
  @always _ _ (SvcEnv example_uuid) _ (Deploy live_config example_input true) (70, example_db) (fun _ r s' =>
    r = None -> exists d, deployments (snd s') !! id1 = Some d /\ status d = StatusCompleted /\ CompletedAt d <> None).
Proof.
  apply (deploy_success_is_completed example_uuid live_config example_input true 70 example_db).
  apply (reachable_ok example_uuid), example_db_reachable.
Defined.

Lemma deploy_failure_is_persisted_witness :
  @always _ _ (SvcEnv example_uuid) _ (Deploy live_config example_input false) (70, example_db) (fun _ r s' =>
    forall code message kind, r = Some (SafeError code message kind) -> code ∉ persistence_codes ->
      exists d stored, deployments (snd s') !! id1 = Some d /\
        (status d = StatusFailed \/ status d = StatusDNSFailed) /\ SafeErrorCode d = Some code /\
        SafeErrorMessage d = Some stored /\ message = safeText stored "Deployment operation failed").
Proof.
  apply (deploy_failure_is_persisted example_uuid live_config example_input false 70 example_db).
  apply (reachable_ok example_uuid), example_db_reachable.
Defined.

Lemma deploy_statuses_climb_witness :
  @always _ _ (SvcEnv example_uuid) _ (Deploy live_config example_input true) (70, example_db)
    (fun tr _ _ => climbing 0 (written tr)).
Proof.
  apply (deploy_statuses_climb example_uuid live_config example_input true 70 example_db).
  apply (reachable_ok example_uuid), example_db_reachable.
Defined.

(** ** What the runs show

    A deployment in MANUAL_REVIEW is not in the list of the statuses [Deploy]
    refuses: with no Node yet, the run requests one although nothing was
    provisioned. *)
Definition review_db : Db :=
  repo_exec example_uuid 50 (OpUpdateState id1 (mkUpdateDeploymentStateParams StatusManualReview "recovery" (Some "X") (Some "x"))) prepared_db.

Definition provisioned (tr : list (event svcE)) : bool :=
  existsb (fun ev => match ev_op ev with VpsProvision _ => true | _ => false end) tr.

Lemma manual_review_creates_a_node :
  let '(tr, r, s) := run (example_services true) (Deploy live_config example_input true) (50, review_db) in
  status <$> deployments review_db !! id1 = Some StatusManualReview /\ provisioned tr = false /\
  existsb (fun ev => bool_decide (node_requested ev <> None)) tr = true /\ r = None /\
  status <$> deployments (snd s) !! id1 = Some StatusCompleted.
Proof. vm_compute. done. Qed.

(** When the context ends while [Prepare] returns its material, the run leaves
    without destroying it. *)
Definition cancelled_after_prepare : handler svcE (bool * Db) := fun X e s =>
  match e in svcE X return X * (bool * Db) with
  | CtxErr _ => (if fst s then Some Canceled else None, s)
  | CertPrepare _ => (Ok (mkMaterial [1] [2]), (true, snd s))
  | e => let '(x, s') := example_services true _ e (40, snd s) in (x, (fst s, snd s'))
  end.

Definition destroyed (m : Material) (tr : list (event svcE)) : bool :=
  existsb (fun ev => match ev_op ev with DestroyMaterial m' => bool_decide (m' = m) | _ => false end) tr.

Lemma cancelled_prepare_keeps_material :
  let '(tr, r, s) := run cancelled_after_prepare (Deploy live_config example_input true) (false, prepared_db) in
  r = Some (CtxError Canceled) /\ destroyed (mkMaterial [1] [2]) tr = false.
Proof. vm_compute. done. Qed.

(** A list of Nodes that cannot be read fails the deployment as a duplicate. *)
Definition nodes_unavailable : handler svcE (Z * Db) := fun X e s =>
  match e in svcE X return X * (Z * Db) with
  | RemGetNodes => (Err Remnawave.TransportError, s)
  | e => example_services true _ e s
  end.

Lemma unreadable_nodes_fail_as_duplicate :
  let '(tr, r, s) := run nodes_unavailable (Deploy live_config example_input true) (40, prepared_db) in
  (fun d => (status d, SafeErrorCode d)) <$> deployments (snd s) !! id1 = Some (StatusFailed, Some "DUPLICATE_NODE").
Proof. vm_compute. done. Qed.
