(* ===== verification/SshOps.v ===== *)
(** * The operations on a VPS

    Models [internal/orchestrator/vps.go] and [node_sni.go]: the preflight of
    a new VPS, its provisioning and the switch of a Node to another domain,
    each over one SSH connection.  The preflight of Preflight.v, the engine of
    Provisioner.v and the stages and installers of the provisioner run on the
    connection; their calls are answered by calls of [sshE]. *)

From S2P Require Import Prelude GoStrings NetIP Effects GoFmt Deployment Repository CertTypes Certificates.
From S2P Require Preflight.
From S2P Require Import Provisioner Remote XraySni Stages Service.

#[local] Open Scope Z_scope.

(** ** Effects

    [ConnectInitial] and [ConnectWithDeploymentKey] dial the VPS: [true] is a
    connection.  [OnVps] and [OnCheck] run on it.  [ClearPassword],
    [ClearConfig] and [ClearInstaller] overwrite what was kept of a password,
    of the key of the Node and of a certificate. *)
Inductive sshE : Type -> Type :=
  | ConnectInitial (id : string) (address : Addr) (user password : string) : sshE bool
  | ConnectWithDeploymentKey (id : string) (address : Addr) (user : string) : sshE bool
  | InstallDeploymentPublicKey : sshE bool
  | CloseConnection : sshE unit
  | ClearPassword (password : string) : sshE unit
  | ClearConfig (c : Remote.Config) : sshE unit
  | ClearInstaller (a : ExternalXraySNIInstaller) : sshE unit
  | OnVps {X} (e : vpsE X) : sshE X
  | OnCheck {X} (e : Preflight.preE X) : sshE X
  | ListSteps (id : string) : sshE (result repoErr (list Step))
  | RecordStep (p : RecordStepParams) : sshE (result repoErr Step)
  | StageClock : sshE Z
  | ReportProgress (r : Provisioner.Report) : sshE unit.

Definition on_vps {A} : prog vpsE A -> prog sshE A := interp (fun X e => call (OnVps e)).
Definition on_check {A} : prog Preflight.preE A -> prog sshE A := interp (fun X e => call (OnCheck e)).

(** ** The engine on the connection *)
Definition find_stage (stages : list Stage) (name : string) : option Stage :=
  List.find (fun s => String.eqb (stage_Name s) name) stages.

Definition is_none {A} (x : option A) : bool := match x with None => true | Some _ => false end.

Definition engine_call (stages : list Stage) : forall X, provE X -> prog sshE X := fun X e =>
  match e in provE X return prog sshE X with
  | StoreList id => call (ListSteps id)
  | StoreRecord p => call (RecordStep p)
  | StageInspect name =>
    match find_stage stages name with
    | None => mret None
    | Some s => inspection ← on_vps (stage_Inspect s); mret match inspection with Ok i => Some i | Err _ => None end
    end
  | StageApply name =>
    match find_stage stages name with None => mret false | Some s => is_none <$> on_vps (stage_Apply s) end
  | StageValidate name =>
    match find_stage stages name with None => mret false | Some s => is_none <$> on_vps (stage_Validate s) end
  | CtxDone => call (OnVps (VpsCtxDone false))
  | Elapsed => call StageClock
  | EmitReport r => call (ReportProgress r)
  end.

(** ** [SSHProvisioner] (vps.go) *)
Record SSHProvisionerConfig : Type := mkSSHProvisionerConfig {
  sp_RemnawaveAPIIP : Addr;
  sp_MetricsIP : Addr;
  sp_Preflight : Preflight.Requirements;
  sp_XrayRepository : string;
  sp_XrayRef : string;
  sp_CommandTimeout : Z
}.

Definition NewSSHProvisioner (config : SSHProvisionerConfig) : option SSHProvisionerConfig :=
  if negb (IsValid (sp_RemnawaveAPIIP config)) || negb (IsValid (sp_MetricsIP config)) ||
     String.eqb (TrimSpace (sp_XrayRepository config)) "" || String.eqb (TrimSpace (sp_XrayRef config)) ""
  then None
  else Some (mkSSHProvisionerConfig (sp_RemnawaveAPIIP config) (sp_MetricsIP config) (sp_Preflight config)
         (sp_XrayRepository config) (sp_XrayRef config)
         (if sp_CommandTimeout config <=? 0 then 5 * Minute else sp_CommandTimeout config)).

Inductive vpsPreflightErr : Type := PreflightInvalidInput | PreflightText (text : string) | PreflightContext.

Section Operations.
Context `{X509} {printable_rune : UnicodePrint} (config : SSHProvisionerConfig).

Definition preflight_on_connection : prog sshE (result vpsPreflightErr Preflight.PreflightResult) :=
  match Preflight.NewPreflight (sp_Preflight config) with
  | None => mret (Err (PreflightText "create VPS preflight failed"))
  | Some requirements =>
    result ← on_check (Preflight.Run requirements);
    match result with
    | None => mret (Err PreflightContext)
    | Some result =>
      if negb (Preflight.Passed result) then mret (Ok result)
      else
        installed ← call InstallDeploymentPublicKey;
        mret (if (installed : bool) then Ok result else Err (PreflightText "deployment SSH key installation failed"))
    end
  end.

Definition Preflight (input : PreflightVPSInput) : prog sshE (result vpsPreflightErr Preflight.PreflightResult) :=
  if String.eqb (TrimSpace (pvi_DeploymentID input)) "" || negb (IsValid (pvi_Address input)) ||
     String.eqb (pvi_Password input) ""
  then mret (Err PreflightInvalidInput)
  else
    finally
      (connected ← call (ConnectInitial (pvi_DeploymentID input) (pvi_Address input) "root" (pvi_Password input));
       if negb (connected : bool) then mret (Err (PreflightText "initial SSH connection failed"))
       else finally preflight_on_connection (call CloseConnection))
      (call (ClearPassword (pvi_Password input))).

Definition provisioningPhase (message : string) : prog sshE (option vpsErr) := mret (Some (provisioningPhaseError message)).

Definition run_engine (stages : list Stage) (id : string) (progress : bool) : prog sshE (option vpsErr) :=
  match NewEngine (stage_Name <$> stages) with
  | None => provisioningPhase "Provisioner engine could not be initialized"
  | Some names =>
    r ← interp (engine_call stages) (RunWithProgress names id progress);
    match snd r with
    | Some _ => provisioningPhase "Provisioner engine failed; inspect stage logs"
    | None => mret None
    end
  end.

Definition provision_on_connection (input : ProvisionVPSInput) (progress : bool) : prog sshE (option vpsErr) :=
  match NewConfig (sp_RemnawaveAPIIP config) (sp_MetricsIP config) (bytes_of (pro_RemnanodeSecretKey input)) with
  | None => provisioningPhase "Provisioner configuration could not be created"
  | Some stage_config =>
    finally
      (xray ← on_vps (NewExternalXraySNIInstaller
          (mkExternalXraySNIConfig (sp_XrayRepository config) (sp_XrayRef config) (pro_SNIDomain input) (sp_CommandTimeout config))
          (pro_Certificate input));
       match xray with
       | Err _ => provisioningPhase "xray-sni adapter could not be initialized"
       | Ok xray =>
         finally
           match NewDefaultStages stage_config (installer xray) with
           | None => provisioningPhase "Provisioning stages could not be created"
           | Some stages => run_engine stages (pro_DeploymentID input) progress
           end
           (call (ClearInstaller xray))
       end)
      (call (ClearConfig stage_config))
  end.

Definition Provision (input : ProvisionVPSInput) (progress : bool) : prog sshE (option vpsErr) :=
  if String.eqb (TrimSpace (pro_DeploymentID input)) "" || negb (IsValid (pro_Address input)) ||
     String.eqb (TrimSpace (pro_SNIDomain input)) "" || String.eqb (pro_RemnanodeSecretKey input) "" ||
     negb (complete_material (pro_Certificate input))
  then mret (Some OtherError)
  else
    connected ← call (ConnectWithDeploymentKey (pro_DeploymentID input) (pro_Address input) "root");
    if negb (connected : bool) then provisioningPhase "Deployment-key SSH connection failed"
    else finally (provision_on_connection input progress) (call CloseConnection).
End Operations.

(** ** [PasswordNodeSNISwitcher] (node_sni.go) *)
Record PasswordNodeSNISwitcher : Type := mkPasswordNodeSNISwitcher { ns_repository : string; ns_ref : string; ns_timeout : Z }.

Definition NewPasswordNodeSNISwitcher (repository ref : string) (timeout : Z) : option PasswordNodeSNISwitcher :=
  if String.eqb (TrimSpace repository) "" || String.eqb (TrimSpace ref) "" || (timeout <=? 0) then None
  else Some (mkPasswordNodeSNISwitcher repository ref timeout).

Definition detect_command : string := "# xray-sni:detect-install
if [ -f /opt/xray-sni/docker-compose.yml ] || [ -f /opt/xray-sni/compose.yml ]; then
    printf managed
elif [ -f /root/xray-sni/docker-compose.yml ] || [ -f /root/xray-sni/compose.yml ]; then
    printf legacy
else
    exit 1
fi".

Definition detectXraySNIInstallType (timeout : Z) : prog vpsE (option string) :=
  result ← call (RunCommand false detect_command [] timeout);
  mret match result with
  | None => None
  | Some stdout =>
    let installType := TrimSpace stdout in
    if negb (String.eqb installType "managed") && negb (String.eqb installType "legacy") then None else Some installType
  end.

Section Switch.
Context `{X509} {printable_rune : UnicodePrint} (s : PasswordNodeSNISwitcher).

Definition switch_failed : prog sshE (option svcErr) := mret (Some (Sentinel ErrNodeSNISwitchFailed)).

Definition sni_config (domain : string) : ExternalXraySNIConfig :=
  mkExternalXraySNIConfig (ns_repository s) (ns_ref s) domain (ns_timeout s).

(** The installation of the previous domain passes its validation. *)
Definition validate_current (input : NodeSNISwitchInput) : prog sshE bool :=
  current ← on_vps (NewExternalXraySNIInstaller (sni_config (sw_PreviousSNI input)) (sw_PreviousCertificate input));
  match current with
  | Err _ => mret false
  | Ok current => valid ← on_vps (Validate current); _ ← call (ClearInstaller current); mret (is_none valid)
  end.

Definition switch_managed (input : NodeSNISwitchInput) : prog sshE (option svcErr) :=
  valid ← validate_current input;
  if negb (valid : bool) then switch_failed
  else
    installer ← on_vps (NewExternalXraySNIInstaller (sni_config (sw_TargetSNI input)) (sw_Certificate input));
    match installer with
    | Err _ => switch_failed
    | Ok installer =>
      finally
        (switched ← on_vps (SwitchSNI installer (sw_PreviousSNI input));
         if is_none switched then mret None else switch_failed)
        (call (ClearInstaller installer))
    end.

Definition switch_on_connection (input : NodeSNISwitchInput) : prog sshE (option svcErr) :=
  installType ← on_vps (detectXraySNIInstallType (ns_timeout s));
  match installType with
  | None => switch_failed
  | Some installType =>
    if String.eqb installType "legacy" then
      switched ← on_vps (SwitchLegacyXraySNI (sw_PreviousSNI input) (sw_TargetSNI input) (ns_timeout s));
      if is_none switched then mret None else switch_failed
    else switch_managed input
  end.

Definition SwitchNodeSNI (input : NodeSNISwitchInput) : prog sshE (option svcErr) :=
  let address := Unmap (sw_Address input) in
  if negb (IsValid address) || negb (publicIP address) || String.eqb (TrimSpace (sw_PreviousSNI input)) "" ||
     String.eqb (TrimSpace (sw_TargetSNI input)) "" || String.eqb (sw_Password input) "" ||
     negb (complete_material (sw_PreviousCertificate input)) || negb (complete_material (sw_Certificate input))
  then mret (Some (Sentinel ErrInvalidInput))
  else
    finally
      (connected ← call (ConnectInitial ("node-sni:" +:+ addr_string address) address "root" (sw_Password input));
       if negb (connected : bool) then switch_failed
       else finally (switch_on_connection input) (call CloseConnection))
      (call (ClearPassword (sw_Password input))).
End Switch.
