(* ===== verification/SshFacts.v ===== *)
(** * What a provisioning run leaves on the VPS

    [Provision] of SshOps.v over the deployment tables and the files of the
    VPS: the engine of Provisioner.v, the stages of Stages.v and the script
    that writes a managed file (XrayScripts.v) run together. *)

From S2P Require Import Prelude GoStrings NetIP Effects GoFmt Deployment Repository CertTypes Certificates.
From S2P Require Import Provisioner Remote XraySni XrayScripts XrayWorld XrayScriptFacts XrayFacts Stages Service SshOps.

#[local] Open Scope Z_scope.
#[local] Arguments iwp : simpl never.
#[local] Arguments HasPrefix : simpl never.

(** ** A file is replaced in one step *)
Section Write.
Context (directory target : string) (content : bytes) (w0 : World).

Definition old_or_new (w : World) : Prop := files w !! target = files w0 !! target \/ files w !! target = Some content.

Lemma old_or_new_insert t c w : t <> target -> old_or_new w -> old_or_new (with_files (<[t := c]> (files w)) w).
Proof. intros Hne Hw. unfold old_or_new. cbn. by rewrite lookup_insert_ne. Qed.

Lemma old_or_new_delete t w : t <> target -> old_or_new w -> old_or_new (with_files (delete t (files w)) w).
Proof. intros Hne Hw. unfold old_or_new. cbn. by rewrite lookup_delete_ne. Qed.

Lemma iwp_write_replaces w Q :
  HasPrefix target (directory +:+ "/.provisioner.") = false -> old_or_new w -> (forall ok w', old_or_new w' -> Q ok w') ->
  iwp old_or_new (write_script directory target content) w Q.
Proof.
  intros Htp Hw HQ. unfold write_script. apply iwp_must, iwp_sh. intros x w1 (d & -> & _). split; [done|].
  destruct x; [|by apply HQ]. assert (old_or_new (with_dirs d w)) as H1 by done. revert H1. generalize (with_dirs d w). clear w Hw. intros w Hw.
  apply iwp_seq, iwp_sh. intros [t|] w2 He; cbn in He; [|subst; split; [done|by apply HQ]].
  destruct He as (Hpre & _ & _ & _ & ->).
  assert (t <> target) as Hne by (intros ->; by rewrite Htp in Hpre).
  split; [by apply old_or_new_insert|]. apply iwp_seq.
  assert (old_or_new (with_files (<[t := []]> (files w)) w)) as H2 by by apply old_or_new_insert.
  revert H2. generalize (with_files (<[t := []]> (files w)) w). clear w Hw. intros w Hw.
  assert (forall (trapped : bool) v (R : bool -> World -> Prop), old_or_new v -> (forall ok v', old_or_new v' -> R ok v') ->
    iwp old_or_new (if trapped then sh (Remove t) else mret true) v R) as Htrap.
  { intros [|] v R Hv HR; [|by apply iwp_exit, HR]. apply iwp_sh. intros x v1 He. cbn in He.
    assert (old_or_new v1) by (destruct x; subst; [by apply old_or_new_delete|done]). split; [done|by apply HR]. }
  assert (forall status (trapped : bool) v, old_or_new v ->
    iwp old_or_new (_ ← (if trapped then sh (Remove t) else mret true); exit status) v Q) as Hend.
  { intros status trapped v Hv. apply iwp_seq, Htrap; [done|]. intros ok v' Hv'. by apply iwp_exit, HQ. }
  apply iwp_seq, iwp_sh. intros received w1 Hst. cbn in Hst.
  assert (old_or_new w1) as H1.
  { destruct received; [destruct Hst as [_ ->]; by apply old_or_new_insert|]. destruct Hst as [->|(c & _ & ->)]; [done|by apply old_or_new_insert]. }
  split; [done|]. destruct received; cbn [negb]; [|by apply Hend].
  assert (files w1 !! t = Some content) as Hc by (destruct Hst as [_ ->]; cbn; by rewrite lookup_insert_eq).
  clear Hst Hw w. apply iwp_seq, iwp_sh. intros moded w2 ->. split; [done|]. destruct moded; cbn [negb]; [|by apply Hend].
  apply iwp_seq, iwp_sh. intros exists_ w2 [-> _]. split; [done|]. apply iwp_seq.
  assert (forall R : bool -> World -> Prop, (forall b, R b w1) ->
    iwp old_or_new (if exists_ then sh (Compare t target) else mret false) w1 R) as Hcmp.
  { intros R HR. destruct exists_; [|by apply iwp_exit]. apply iwp_sh. intros x w2 [-> _]. by split. }
  apply Hcmp. intros same. destruct same; [by apply Hend|].
  apply iwp_seq, iwp_sh. intros moved w2 Hst. cbn in Hst.
  assert (old_or_new w2) as H2.
  { destruct moved; [|by subst]. destruct Hst as (c & Hc' & _ & ->). right. cbn. rewrite lookup_insert_eq. congruence. }
  split; [done|]. by apply Hend.
Qed.

Lemma written_replaces ans w1 :
  HasPrefix target (directory +:+ "/.provisioner.") = false -> script_step (write_script directory target content) ans w0 w1 -> old_or_new w1.
Proof.
  intros Htp Hs. assert (old_or_new w0) as H0 by by left.
  pose proof (script_step_rule _ _ _ _ _ _ H0 (iwp_write_replaces w0 (fun _ => old_or_new) Htp H0 (fun _ _ H => H)) Hs) as H. by destruct ans.
Qed.
End Write.

(** ** The managed files of the stages *)
Definition stage_paths : list (string * string) :=
  [("/etc/modules-load.d/remnanode.conf", "0644"); ("/etc/sysctl.d/99-remnanode.conf", "0644");
   ("/etc/security/limits.d/99-remnanode.conf", "0644"); ("/etc/systemd/system.conf.d/99-remnanode.conf", "0644");
   ("/etc/fail2ban/jail.d/remnanode-sshd.local", "0644"); ("/opt/remnanode/docker-compose.yml", "0600");
   ("/etc/systemd/system/node_exporter.service", "0644"); ("/opt/speedtest-exporter/docker-compose.yml", "0644");
   ("/etc/logrotate.d/remnanode", "0644")].

(** The stages that install managed files. *)
Definition file_stages : list string :=
  ["sysctl"; "limits"; "fail2ban"; "remnanode"; "node_exporter"; "speedtest_exporter"; "logrotate"].

Lemma file_stage {printable_rune : UnicodePrint} `{X509} c name :
  name ∈ file_stages -> exists st, st ∈ default_stages c /\ rs_name st = name /\ rs_files st <> [].
Proof.
  intros Hn. assert (exists i st, default_stages c !! i = Some st /\ rs_name st = name /\ rs_files st <> []) as (i & st & Hi & Hst).
  { revert name Hn. apply Forall_forall.
    constructor; [by exists 2%nat; eexists|]. constructor; [by exists 3%nat; eexists|]. constructor; [by exists 5%nat; eexists|].
    constructor; [by exists 6%nat; eexists|]. constructor; [by exists 7%nat; eexists|]. constructor; [by exists 8%nat; eexists|].
    constructor; [by exists 9%nat; eexists|]. constructor. }
  exists st. split; [by eapply list_elem_of_lookup_2|done].
Qed.

Section Files.
Context `{X509} {printable_rune : UnicodePrint}.

(** The managed file a command writes, or whose hash it prints. *)
Definition written_file (command : string) : option (string * string) :=
  List.find (fun f => String.eqb command (write_command (quoted f.1) f.2)) stage_paths.
Definition hashed_file (command : string) : option (string * string) :=
  List.find (fun f => String.eqb command (match_command (quoted f.1))) stage_paths.

#[local] Arguments written_file : simpl never.
#[local] Arguments hashed_file : simpl never.

Definition shown_hash (p : string) (w : World) : string :=
  match files w !! p with Some c => sha256_hex c | None => "missing" end.

(** What a command does: one that writes a managed file runs its script, one
    that prints a hash prints it, and any other leaves the managed files
    alone. *)
Definition vps_command (command : string) (stdin : bytes) (ans : option string) (w w' : World) : Prop :=
  match written_file command with
  | Some f => script_step (write_script (parent f.1) f.1 stdin) ans w w'
  | None =>
    match hashed_file command with
    | Some f => w' = w /\ (forall out, ans = Some out -> TrimSpace out = shown_hash f.1 w)
    | None => (rooted w -> rooted w') /\ forall f, f ∈ stage_paths -> files w' !! f.1 = files w !! f.1
    end
  end.

Definition FilesEnv : Env vpsE World := fun X e w x w' =>
  match e in vpsE X return X -> Prop with
  | RunCommand _ command stdin _ => fun x => vps_command command stdin x w w'
  | VpsCtxDone _ => fun _ => w' = w
  | VpsNow => fun _ => w' = w
  end x.
#[local] Existing Instance FilesEnv.

Lemma iwp_vps (I : World -> Prop) d command stdin t w (Q : option string -> World -> Prop) :
  (forall ans w1, vps_command command stdin ans w w1 -> I w1 /\ Q ans w1) -> iwp I (call (RunCommand d command stdin t)) w Q.
Proof. intros HQ. apply iwp_call. exact HQ. Qed.

Lemma written_file_of f : f ∈ stage_paths -> written_file (write_command (quoted f.1) f.2) = Some f.
Proof. revert f. apply Forall_forall. repeat (constructor; [vm_compute; reflexivity|]). constructor. Qed.

Lemma not_written_by_hash f : f ∈ stage_paths -> written_file (match_command (quoted f.1)) = None.
Proof. revert f. apply Forall_forall. repeat (constructor; [vm_compute; reflexivity|]). constructor. Qed.

Lemma hashed_file_of f : f ∈ stage_paths -> hashed_file (match_command (quoted f.1)) = Some f.
Proof. revert f. apply Forall_forall. repeat (constructor; [vm_compute; reflexivity|]). constructor. Qed.

Lemma stage_path_quoted f : f ∈ stage_paths ->
  shellPath f.1 = Ok (quoted f.1) /\ valid_mode f.2 = true /\ HasPrefix f.1 (parent f.1 +:+ "/.provisioner.") = false /\
  forallb (fun p => negb (HasPrefix p (parent f.1 +:+ "/.provisioner."))) stage_paths.*1 = true.
Proof. revert f. apply Forall_forall. repeat (constructor; [vm_compute; by split_and!|]). constructor. Qed.

(** ** The stages of one run *)
Context (hex_present : forall l, hex_EncodeToString l <> "missing") (config : Remote.Config).

Definition all_files : list managedFile := mjoin (rs_files <$> default_stages config).

Definition installed (name : string) (w : World) : Prop :=
  forall st, st ∈ default_stages config -> rs_name st = name ->
  forall f, f ∈ rs_files st -> active_hash (mf_path f) w (mf_content f).

Definition grows (w w' : World) : Prop := (rooted w -> rooted w') /\ forall name, installed name w -> installed name w'.

Lemma grows_refl w : grows w w.
Proof. by split. Qed.

Lemma grows_trans w1 w2 w3 : grows w1 w2 -> grows w2 w3 -> grows w1 w3.
Proof. intros [H1 H2] [H3 H4]. split; auto. Qed.

Lemma all_files_paths : (fun f => (mf_path f, mf_mode f)) <$> all_files = stage_paths.
Proof. reflexivity. Qed.

Lemma all_files_in f : f ∈ all_files -> (mf_path f, mf_mode f) ∈ stage_paths.
Proof. intros Hf. rewrite <-all_files_paths. apply list_elem_of_fmap. by exists f. Qed.

Lemma all_files_unique f g : f ∈ all_files -> g ∈ all_files -> mf_path f = mf_path g -> f = g.
Proof.
  assert (NoDup (mf_path <$> all_files)) as Hnd.
  { assert (mf_path <$> all_files = stage_paths.*1) as -> by reflexivity. apply (bool_decide_unpack _). by vm_compute. }
  revert Hnd. generalize all_files. induction l as [|x l IH]; intros Hnd Hf Hg Hp; [by apply not_elem_of_nil in Hf|].
  rewrite fmap_cons in Hnd. apply NoDup_cons in Hnd as [Hx Hnd].
  apply elem_of_cons in Hf as [-> | Hf], Hg as [-> | Hg]; [done| | |by apply IH].
  - destruct Hx. rewrite Hp. by apply list_elem_of_fmap_2.
  - destruct Hx. rewrite <-Hp. by apply list_elem_of_fmap_2.
Qed.

Lemma stage_files st f : st ∈ default_stages config -> f ∈ rs_files st -> f ∈ all_files.
Proof. intros Hs Hf. apply list_elem_of_join. exists (rs_files st). split; [done|]. by apply list_elem_of_fmap_2. Qed.

(** A command that writes no managed file, or the content of the run. *)
Definition allowed X (e : vpsE X) : bool :=
  match e with
  | RunCommand _ command stdin _ =>
    match written_file command with
    | Some p => existsb (fun f => String.eqb (mf_path f) p.1 && bool_decide (mf_content f = stdin)) all_files
    | None => true
    end
  | _ => true
  end.

Lemma allowed_grows X (e : vpsE X) w x w' : rooted w -> allowed X e = true -> env_step e w x w' -> grows w w'.
Proof.
  intros Hr Ha Hs. destruct e as [d command stdin t|d|]; unfold env_step, FilesEnv in Hs; cbv beta iota in Hs; [|subst; apply grows_refl..].
  unfold vps_command in Hs. unfold allowed in Ha. destruct (written_file command) as [p|] eqn:Hw.
  - apply existsb_exists in Ha as (f & Hf & Hp). apply list_elem_of_In in Hf. apply andb_true_iff in Hp as [Hp Hc].
    apply String.eqb_eq in Hp. apply bool_decide_eq_true in Hc. subst stdin.
    assert (p ∈ stage_paths) as Hin by (apply find_some in Hw as [Hw _]; by apply list_elem_of_In).
    destruct (stage_path_quoted p Hin) as (_ & _ & Ht & HL).
    set (others := List.filter (fun q => negb (String.eqb q p.1)) stage_paths.*1).
    assert (bool_decide (p.1 ∈ others) = false) as Hno.
    { apply bool_decide_eq_false. intros Hq%list_elem_of_In%filter_In. destruct Hq as [_ Hq]. by rewrite String.eqb_refl in Hq. }
    assert (forallb (fun q => negb (HasPrefix q (parent p.1 +:+ "/.provisioner."))) others = true) as HL2.
    { apply forallb_forall. intros q [Hq _]%filter_In. by apply (proj1 (forallb_forall _ _) HL). }
    pose proof (written_replaces (parent p.1) p.1 (mf_content f) w x w' Ht Hs) as Hold.
    destruct (written_on others _ _ _ _ _ _ Hno Ht HL2 Hr Hs) as [(Hr' & _ & Hl) _].
    split; [done|]. intros name Hi st Hst Hn g Hg. specialize (Hi st Hst Hn g Hg).
    destruct (decide (mf_path g = p.1)) as [Hpe|Hne].
    + assert (g = f) as -> by (apply all_files_unique; [by eapply stage_files|done|congruence]).
      destruct Hi as (c & Hc & Hh). rewrite Hpe in *. destruct Hold as [Ho| Ho]; [exists c|exists (mf_content f)]; split; congruence.
    + unfold active_hash. rewrite Hl; [done|]. apply list_elem_of_In, filter_In. split.
      * apply list_elem_of_In, list_elem_of_fmap. exists (mf_path g, mf_mode g). split; [done|]. apply all_files_in. by eapply stage_files.
      * apply negb_true_iff. by apply String.eqb_neq.
  - destruct (hashed_file command) as [p|]; [destruct Hs as [-> _]; apply grows_refl|]. destruct Hs as [Hr' Hl].
    split; [done|]. intros name Hi st Hst Hn g Hg. unfold active_hash.
    assert (files w' !! mf_path g = files w !! mf_path g) as ->; [|by eapply Hi].
    apply (Hl (mf_path g, mf_mode g)), all_files_in. by eapply stage_files.
Qed.

(** ** The methods of a stage *)
Definition since (w w' : World) : Prop := rooted w' /\ grows w w'.

Lemma since_refl w : rooted w -> since w w.
Proof. intros Hr. split; [done|apply grows_refl]. Qed.

Lemma since_step w X (e : vpsE X) w1 x w2 : allowed X e = true -> env_step e w1 x w2 -> since w w1 -> since w w2.
Proof.
  intros Ha Hs [Hr Hg]. pose proof (allowed_grows _ _ _ _ _ Hr Ha Hs) as H1. split; [by apply H1|]. by eapply grows_trans.
Qed.

Lemma iwp_allowed {A} (p : prog vpsE A) w w1 :
  calls_only allowed p -> since w w1 -> iwp (since w) p w1 (fun _ w' => since w w').
Proof. intros Hp. apply (iwp_calls_inv allowed); [done|]. intros X e s x s' Ha Hs. by eapply since_step. Qed.

Lemma allowed_none d command stdin t : written_file command = None -> allowed _ (RunCommand d command stdin t) = true.
Proof. unfold allowed. by intros ->. Qed.

Lemma allowed_write f d t : f ∈ all_files ->
  allowed _ (RunCommand d (write_command (quoted (mf_path f)) (mf_mode f)) (mf_content f) t) = true.
Proof.
  intros Hf. unfold allowed. pose proof (all_files_in f Hf) as Hp.
  pose proof (written_file_of (mf_path f, mf_mode f) Hp) as E. cbn [fst snd] in E. rewrite E. apply existsb_exists. exists f. split; [by apply list_elem_of_In|].
  cbn. by rewrite String.eqb_refl, bool_decide_eq_true_2.
Qed.

(** The commands of one stage. *)
Definition quiet_stage (st : remoteStage) : Prop :=
  (forall f, f ∈ rs_files st -> f ∈ all_files) /\ written_file (rs_inspectCommand st) = None /\
  written_file (rs_applyCommand st) = None /\ written_file (rs_validateCommand st) = None.

Lemma default_stages_quiet st : st ∈ default_stages config -> quiet_stage st.
Proof.
  intros Hs. split; [intros f; by apply stage_files|]. revert st Hs. apply Forall_forall.
  unfold default_stages. cbv zeta. repeat (constructor; [split_and!; reflexivity|]). constructor.
Qed.

Section Stage.
Context (st : remoteStage) (Hst : quiet_stage st).

Lemma commandReady_allowed command : written_file command = None -> calls_only allowed (commandReady st command).
Proof. intros Hc. apply calls_only_mbind; [by apply calls_only_call, allowed_none|]. intros x. apply calls_only_ret. Qed.

Lemma runChecked_allowed command stdin :
  (forall d t, allowed _ (RunCommand d command stdin t) = true) -> calls_only allowed (runChecked st command stdin).
Proof.
  intros Hc. apply calls_only_mbind; [by apply calls_only_call|]. intros [x|]; [apply calls_only_ret|].
  apply calls_only_mbind; [by apply calls_only_call|]. intros b. apply calls_only_ret.
Qed.

Lemma writeFile_allowed f : f ∈ all_files -> calls_only allowed (writeFile st f).
Proof.
  intros Hf. destruct (stage_path_quoted _ (all_files_in f Hf)) as (Hp & Hm & _). cbn [fst snd] in Hp, Hm.
  unfold writeFile. rewrite Hp, Hm. apply runChecked_allowed. intros d t. by apply allowed_write.
Qed.

Lemma Apply_allowed : calls_only allowed (Remote.Apply st).
Proof.
  destruct Hst as (Hf & _ & Ha & _). apply calls_only_or_return.
  - revert Hf. generalize (rs_files st). induction l as [|f l IH]; intros Hf; [apply calls_only_ret|].
    apply calls_only_or_return; [apply writeFile_allowed, Hf; by left|]. apply IH. intros g Hg. apply Hf. by right.
  - destruct (String.eqb _ _); [apply calls_only_ret|]. apply runChecked_allowed. intros d t. by apply allowed_none.
Qed.

(** A file that was found to match has the content of the run. *)
Lemma hash_step p m stdin ans w w' : (p, m) ∈ stage_paths -> vps_command (match_command (quoted p)) stdin ans w w' ->
  w' = w /\ (forall out, ans = Some out -> TrimSpace out = shown_hash p w).
Proof.
  intros Hin. pose proof (not_written_by_hash _ Hin) as E1. pose proof (hashed_file_of _ Hin) as E2. cbn [fst snd] in E1, E2.
  unfold vps_command. by rewrite E1, E2.
Qed.

Lemma iwp_fileMatches w w1 f (Q : result stageErr bool -> World -> Prop) :
  f ∈ all_files -> since w w1 ->
  (forall r, (r = Ok true -> active_hash (mf_path f) w1 (mf_content f)) -> Q r w1) ->
  iwp (since w) (fileMatches st f) w1 Q.
Proof.
  intros Hf Hw HQ. pose proof (all_files_in f Hf) as Hin.
  destruct (stage_path_quoted _ Hin) as (Hp & _). unfold fileMatches. cbn [fst] in Hp. rewrite Hp.
  apply iwp_mbind, iwp_vps. intros ans w2 Hs. apply (hash_step _ _ _ _ _ _ Hin) in Hs.
  destruct Hs as [-> Hs]. split; [done|]. apply iwp_ret, HQ. destruct ans as [out|]; [|discriminate].
  intros [= Heq%String.eqb_eq]. rewrite (Hs out eq_refl) in Heq. unfold shown_hash in Heq.
  destruct (files w1 !! mf_path f) as [c|] eqn:Hc; [exists c; split; [exact Hc|exact Heq]|]. exfalso. exact (hex_present _ (eq_sym Heq)).
Qed.

Lemma iwp_all_match w w1 l (Q : result stageErr bool -> World -> Prop) :
  (forall f, f ∈ l -> f ∈ all_files) -> since w w1 ->
  (forall r, (r = Ok true -> forall f, f ∈ l -> active_hash (mf_path f) w1 (mf_content f)) -> Q r w1) ->
  iwp (since w) (all_match st l) w1 Q.
Proof.
  intros Hl Hw. revert Q. induction l as [|f l IH]; intros Q HQ.
  { apply iwp_ret, HQ. intros _ f Hf. by apply not_elem_of_nil in Hf. }
  cbn [all_match]. apply iwp_mbind, iwp_fileMatches; [apply Hl; by left|done|]. intros r Hr.
  destruct r as [[]|e]; [|apply iwp_ret, HQ; discriminate..].
  apply IH; [intros g Hg; apply Hl; by right|]. intros r Hrest. apply HQ. intros Hok g [->|Hg]%elem_of_cons; [by apply Hr|by apply Hrest].
Qed.

Definition files_active (w : World) : Prop := forall f, f ∈ rs_files st -> active_hash (mf_path f) w (mf_content f).

Hypothesis files_stay : forall w w', grows w w' -> files_active w -> files_active w'.

Lemma iwp_ready w w1 command (Q : result stageErr bool -> World -> Prop) :
  written_file command = None -> since w w1 -> (forall r w2, since w w2 -> grows w1 w2 -> Q r w2) ->
  iwp (since w) (commandReady st command) w1 Q.
Proof.
  intros Hc Hw HQ. apply iwp_mbind, iwp_call. intros x w2 Hs.
  assert (since w w2) as H2 by (eapply since_step; [by apply allowed_none|exact Hs|done]). split; [done|]. apply iwp_ret, HQ; [done|].
  apply (allowed_grows _ _ _ _ _ (proj1 Hw) (allowed_none _ _ _ _ Hc) Hs).
Qed.

Lemma iwp_Inspect w : rooted w ->
  iwp (since w) (Remote.Inspect st) w (fun r w' => since w w' /\ forall i, r = Ok i -> insp_Satisfied i = true -> files_active w').
Proof.
  intros Hr. destruct Hst as (Hf & Hi & _). apply iwp_mbind, iwp_all_match; [done|by apply since_refl|]. intros r Hm.
  pose proof (since_refl w Hr) as Hw.
  destruct r as [[]|e]; [|by apply iwp_ret; split; [|intros i [= <-]]|by apply iwp_ret].
  specialize (Hm eq_refl). destruct (String.eqb _ _); [by apply iwp_ret|].
  apply iwp_mbind, iwp_ready; [done|done|]. intros r w2 H2 Hg. apply iwp_ret. split; [done|].
  destruct r as [[]|e]; [|by intros i [= <-]|done]. intros i _ _. by apply (files_stay w).
Qed.

Lemma iwp_Validate w : rooted w ->
  iwp (since w) (Remote.Validate st) w (fun r w' => since w w' /\ (r = None -> files_active w')).
Proof.
  intros Hr. destruct Hst as (Hf & _ & _ & Hv). apply iwp_mbind, iwp_all_match; [done|by apply since_refl|]. intros r Hm.
  pose proof (since_refl w Hr) as Hw.
  destruct r as [[]|e]; [|by apply iwp_ret..]. specialize (Hm eq_refl). destruct (String.eqb _ _); [by apply iwp_ret|].
  apply iwp_mbind, iwp_ready; [done|done|]. intros r w2 H2 Hg. apply iwp_ret. split; [done|].
  destruct r as [[]|e]; [|done..]. intros _. by apply (files_stay w).
Qed.
End Stage.

Lemma stage_names_unique st st' : st ∈ default_stages config -> st' ∈ default_stages config -> rs_name st = rs_name st' -> st = st'.
Proof.
  assert (NoDup (rs_name <$> default_stages config)) as Hnd.
  { assert (rs_name <$> default_stages config = take 10 StageNames ++ ["healthcheck"]) as -> by reflexivity.
    apply (bool_decide_unpack _). by vm_compute. }
  revert Hnd. generalize (default_stages config). induction l as [|x l IH]; intros Hnd Hf Hg Hp; [by apply not_elem_of_nil in Hf|].
  rewrite fmap_cons in Hnd. apply NoDup_cons in Hnd as [Hx Hnd].
  apply elem_of_cons in Hf as [-> | Hf], Hg as [-> | Hg]; [done| | |by apply IH].
  - destruct Hx. rewrite Hp. by apply list_elem_of_fmap_2.
  - destruct Hx. rewrite <-Hp. by apply list_elem_of_fmap_2.
Qed.

Lemma active_installed st w : st ∈ default_stages config -> files_active st w <-> installed (rs_name st) w.
Proof.
  intros Hs. split; [|intros Hi f; by apply Hi]. intros Ha st' Hs' Hn. by rewrite (stage_names_unique st' st).
Qed.

Lemma active_stays st : st ∈ default_stages config -> forall w w', grows w w' -> files_active st w -> files_active st w'.
Proof. intros Hs w w' [_ Hg]. rewrite !active_installed by done. apply Hg. Qed.

(** The commands of the xray-sni stage write no managed file of another stage. *)
Section Xray.
Context (a : ExternalXraySNIInstaller).

Lemma runSafe_allowed d command e : written_file command = None -> calls_only allowed (runSafe a d command e).
Proof.
  intros Hc. apply calls_only_mbind; [by apply calls_only_call, allowed_none|]. intros [x|]; [apply calls_only_ret|].
  apply calls_only_mbind; [by apply calls_only_call|]. intros b. apply calls_only_ret.
Qed.

Lemma writeManagedFile_allowed f : written_file (write_command (quoted (mf_path f)) (mf_mode f)) = None ->
  calls_only allowed (writeManagedFile a f).
Proof.
  intros Hf. apply calls_only_mbind; [|intros; apply calls_only_ret]. unfold writeFile.
  destruct (shellPath (mf_path f)) as [q|e] eqn:Hp; [|apply calls_only_ret].
  assert (q = quoted (mf_path f)) as -> by (unfold shellPath in Hp; destruct (_ || _); [done|]; unfold quoted; by rewrite Hp).
  destruct (negb _); [apply calls_only_ret|]. apply runChecked_allowed. intros d t. exact (allowed_none _ _ _ _ Hf).
Qed.

Lemma inspectState_allowed : calls_only allowed (inspectState a).
Proof.
  apply calls_only_mbind; [apply calls_only_call, allowed_none; reflexivity|]. intros [x|]; [apply calls_only_ret|].
  apply calls_only_mbind; [by apply calls_only_call|]. intros b. apply calls_only_ret.
Qed.

Lemma validateRuntime_allowed d : calls_only allowed (validateRuntime a d).
Proof.
  unfold validateRuntime, runtime_commands. cbn [run_all].
  repeat (apply calls_only_or_return; [apply runSafe_allowed; reflexivity|]). apply calls_only_ret.
Qed.

Lemma stageAndActivate_allowed : calls_only allowed (stageAndActivateCertificates a).
Proof.
  apply calls_only_or_return; [apply runSafe_allowed; reflexivity|].
  apply calls_only_or_return; [apply writeManagedFile_allowed; reflexivity|].
  apply calls_only_or_return; [apply writeManagedFile_allowed; reflexivity|]. apply runSafe_allowed; reflexivity.
Qed.

Ltac xray_step := first
  [ apply runSafe_allowed; reflexivity | apply writeManagedFile_allowed; reflexivity | apply inspectState_allowed
  | apply validateRuntime_allowed | apply calls_only_ret
  | apply calls_only_or_return | apply calls_only_mbind; [|intros] | by apply calls_only_call ].

Lemma xray_Inspect_allowed : calls_only allowed (XraySni.Inspect a).
Proof.
  apply calls_only_mbind; [xray_step|]. intros [s|e]; [|xray_step]. destruct (negb _); [xray_step|].
  apply calls_only_mbind; [xray_step|]. intros [e|]; repeat xray_step.
Qed.

Lemma xray_Install_allowed : calls_only allowed (Install a).
Proof.
  apply calls_only_mbind; [by apply calls_only_call|]. intros now. destruct (validateCertificateMaterial _ _ _); [xray_step|].
  apply calls_only_mbind; [xray_step|]. intros [s|e]; [|xray_step].
  apply calls_only_or_return; [destruct (repository_changed s); xray_step|].
  apply calls_only_or_return; [destruct (negb _); xray_step|].
  apply calls_only_or_return.
  { unfold install_certificates. destruct (_ || _); [apply stageAndActivate_allowed|]. destruct (negb _); xray_step. }
  apply calls_only_or_return; [xray_step|].
  unfold install_service. destruct (_ || _); [repeat xray_step|]. destruct (_ || _); [xray_step|].
  destruct (_ || _); [xray_step|]. destruct (PermissionsMatch s); xray_step.
Qed.

Lemma xray_Validate_allowed : calls_only allowed (XraySni.Validate a).
Proof.
  apply calls_only_mbind; [xray_step|]. intros [s|e]; [|xray_step]. destruct (negb _); [xray_step|]. repeat xray_step.
Qed.
End Xray.

(** ** The engine *)
Section Engine.
Context (uuid_text : string -> option string).

(** The deployment tables, with their clock, and the VPS. *)
Definition Site : Type := (Z * Db) * World.

Definition DeployEnv : Env sshE Site := fun X e s x s' =>
  match e in sshE X return X -> Prop with
  | OnVps e => fun x => s'.1 = s.1 /\ FilesEnv _ e s.2 x s'.2
  | ListSteps id => fun x => s' = s /\ (x = ListDeploymentSteps uuid_text id s.1.2 \/ x = Err DriverError)
  | RecordStep p => fun x => s'.2 = s.2 /\
      let '(r, db) := RecordDeploymentStep uuid_text s'.1.1 p s.1.2 in
      (x = r /\ s'.1.2 = db) \/ (x = Err DriverError /\ (s'.1.2 = db \/ s'.1.2 = s.1.2))
  | _ => fun _ => s' = s
  end x.
#[local] Existing Instance DeployEnv.

(** What the engine may rely on. *)
Definition StageEnv : Env provE Site := fun X e s x s' =>
  match e in provE X return X -> Prop with
  | StoreList id => fun x => s' = s /\ (x = ListDeploymentSteps uuid_text id s.1.2 \/ x = Err DriverError)
  | StoreRecord p => fun x => s'.2 = s.2 /\
      let '(r, db) := RecordDeploymentStep uuid_text s'.1.1 p s.1.2 in
      (x = r /\ s'.1.2 = db) \/ (x = Err DriverError /\ (s'.1.2 = db \/ s'.1.2 = s.1.2))
  | StageInspect name => fun x => s'.1 = s.1 /\ since s.2 s'.2 /\
      (forall i, x = Some i -> insp_Satisfied i = true -> installed name s'.2)
  | StageApply name => fun _ => s'.1 = s.1 /\ since s.2 s'.2
  | StageValidate name => fun x => s'.1 = s.1 /\ since s.2 s'.2 /\ (x = true -> installed name s'.2)
  | _ => fun _ => s' = s
  end x.
#[local] Existing Instance StageEnv.

Context (key : string) (db0 : Db).

(** Every stage this run recorded COMPLETED has its files on the VPS. *)
Definition before (name : string) : Prop := step_status key name db0 = Some StepStatusCompleted.
Definition faithful (s : Site) : Prop :=
  rooted s.2 /\ forall name, ~ before name -> step_status key name s.1.2 = Some StepStatusCompleted -> installed name s.2.

Lemma faithful_since s s' : s'.1 = s.1 -> since s.2 s'.2 -> faithful s -> faithful s'.
Proof. intros H1 [Hr [_ Hg]] [_ Hf]. split; [done|]. rewrite H1. intros n Hb Hs. by apply Hg, Hf. Qed.

(** A program on the connection. *)
Lemma iwp_on_vps {A} (p : prog vpsE A) s (Q : A -> World -> Prop) :
  faithful s -> iwp (since s.2) p s.2 Q ->
  iwp faithful (on_vps p) s (fun a s' => s'.1 = s.1 /\ Q a s'.2).
Proof.
  intros Hf. assert (forall w, since s.2 w -> faithful (s.1, w)) as Hsince by (intros w Hw; by apply (faithful_since s)).
  assert (forall w, since s.2 w -> iwp (since s.2) p w Q -> iwp faithful (on_vps p) (s.1, w) (fun a s' => s'.1 = s.1 /\ Q a s'.2)) as Hgen.
  { unfold on_vps. clear Hf. induction p as [a|X e k IH]; intros w Hw Hp; [by split|].
    cbn [interp]. apply iwp_bind, iwp_call. intros x [d w'] [Hd He]. cbn in Hd, He. subst d.
    destruct (Hp x w' He) as [H1 H2]. split; [by apply Hsince|]. by apply IH. }
  intros Hp. destruct s as [d w]. apply Hgen; [|done]. apply since_refl, Hf.
Qed.

(** ** The stages answer as the engine may expect *)
Context (a : ExternalXraySNIInstaller) (stages : list Stage).
Hypothesis stages_are : stages = take 10 (remote_stage <$> default_stages config) ++ [xraySNIStage (installer a)] ++
                                 drop 10 (remote_stage <$> default_stages config).

Lemma stage_cases st : st ∈ stages ->
  st = xraySNIStage (installer a) \/ exists r, r ∈ default_stages config /\ st = remote_stage r.
Proof.
  rewrite stages_are. intros [Hs|[->%list_elem_of_singleton|Hs]%elem_of_app]%elem_of_app; [right|by left|right].
  - assert (st ∈ remote_stage <$> default_stages config) as Hin by (rewrite <-(take_drop 10 (remote_stage <$> _)); apply elem_of_app; by left).
    apply list_elem_of_fmap in Hin as (r & -> & Hr). by exists r.
  - assert (st ∈ remote_stage <$> default_stages config) as Hin by (rewrite <-(take_drop 10 (remote_stage <$> _)); apply elem_of_app; by right).
    apply list_elem_of_fmap in Hin as (r & -> & Hr). by exists r.
Qed.

Lemma find_stage_spec name st : find_stage stages name = Some st -> st ∈ stages /\ stage_Name st = name.
Proof. intros [H1 H2]%find_some. split; [by apply list_elem_of_In|by apply String.eqb_eq]. Qed.

Lemma installed_xray w : installed "xray_sni" w.
Proof.
  intros st Hst Hn. exfalso. assert ("xray_sni" ∈ rs_name <$> default_stages config) as Hin by (rewrite <-Hn; by apply list_elem_of_fmap_2).
  assert (rs_name <$> default_stages config = take 10 StageNames ++ ["healthcheck"]) as E by reflexivity. rewrite E in Hin.
  revert Hin. apply (bool_decide_unpack _). by vm_compute.
Qed.

Lemma iwp_stage_Inspect st w : st ∈ stages -> rooted w ->
  iwp (since w) (stage_Inspect st) w (fun r w' => since w w' /\
    forall i, r = Ok i -> insp_Satisfied i = true -> installed (stage_Name st) w').
Proof.
  intros Hs Hr. destruct (stage_cases st Hs) as [->|(r & Hin & ->)].
  - eapply iwp_mono; [apply (iwp_allowed _ w w (xray_Inspect_allowed a)), since_refl, Hr|]. intros x w' Hw. split; [done|].
    intros i _ _. apply installed_xray.
  - eapply iwp_mono; [apply (iwp_Inspect r (default_stages_quiet r Hin) (active_stays r Hin) w Hr)|]. intros x w' [Hw Hi].
    split; [done|]. intros i Hx Hsat. apply (active_installed r w' Hin). by eapply Hi.
Qed.

Lemma iwp_stage_Apply st w : st ∈ stages -> rooted w -> iwp (since w) (stage_Apply st) w (fun _ w' => since w w').
Proof.
  intros Hs Hr. destruct (stage_cases st Hs) as [->|(r & Hin & ->)]; apply iwp_allowed; try by apply since_refl.
  - apply xray_Install_allowed.
  - apply Apply_allowed. by apply default_stages_quiet.
Qed.

Lemma iwp_stage_Validate st w : st ∈ stages -> rooted w ->
  iwp (since w) (stage_Validate st) w (fun r w' => since w w' /\ (r = None -> installed (stage_Name st) w')).
Proof.
  intros Hs Hr. destruct (stage_cases st Hs) as [->|(r & Hin & ->)].
  - eapply iwp_mono; [apply (iwp_allowed _ w w (xray_Validate_allowed a)), since_refl, Hr|]. intros x w' Hw. split; [done|].
    intros _. apply installed_xray.
  - eapply iwp_mono; [apply (iwp_Validate r (default_stages_quiet r Hin) (active_stays r Hin) w Hr)|]. intros x w' [Hw Hi].
    split; [done|]. intros Hx. apply (active_installed r w' Hin). by apply Hi.
Qed.

Lemma engine_call_answers X (e : provE X) s (R : X -> Site -> Prop) :
  faithful s -> (forall x s', env_step e s x s' -> faithful s' /\ R x s') -> iwp faithful (engine_call stages X e) s R.
Proof.
  intros Hf HR. pose proof (proj1 Hf) as Hr. pose proof (since_refl _ Hr) as Hs0.
  assert (forall s' : Site, s'.1 = s.1 -> since s.2 s'.2 -> faithful s') as Hsince by (intros s' H1 H2; by apply (faithful_since s)).
  destruct e as [id|p|name|name|name| | |r]; cbn [engine_call]; try (apply iwp_call; exact HR).
  - destruct (find_stage stages name) as [st|] eqn:Hst; [|apply iwp_ret, HR; by split_and!].
    apply find_stage_spec in Hst as [Hin <-]. apply iwp_mbind. eapply iwp_mono.
    { exact (iwp_on_vps _ s _ Hf (iwp_stage_Inspect st s.2 Hin Hr)). }
    intros [i|e] s' (H1 & H2 & H3); apply iwp_ret, HR; (split_and!; [done|done|]); [|done]. intros i' [= <-]. by apply H3.
  - destruct (find_stage stages name) as [st|] eqn:Hst; [|apply iwp_ret, HR; by split_and!].
    apply find_stage_spec in Hst as [Hin <-]. apply iwp_bind. eapply iwp_mono.
    { exact (iwp_on_vps _ s _ Hf (iwp_stage_Apply st s.2 Hin Hr)). }
    intros x s' [H1 H2]. apply iwp_ret, HR. by split.
  - destruct (find_stage stages name) as [st|] eqn:Hst; [|apply iwp_ret, HR; by split_and!].
    apply find_stage_spec in Hst as [Hin <-]. apply iwp_bind. eapply iwp_mono.
    { exact (iwp_on_vps _ s _ Hf (iwp_stage_Validate st s.2 Hin Hr)). }
    intros x s' (H1 & H2 & H3). apply iwp_ret, HR. split_and!; [done|done|]. destruct x; [done|by intros _; apply H3].
  - apply iwp_call. intros x s' [H1 H2]. apply HR. destruct s as [d w], s' as [d' w']. cbn in *. by subst.
Qed.

(** ** The loop over the stages *)
Lemma record_keeps_on_error now p db e db' : RecordDeploymentStep uuid_text now p db = (Err e, db') -> db' = db.
Proof.
  unfold RecordDeploymentStep. destruct (_ || _); [by intros [= _ <-]|]. destruct (uuid_text _) as [k|]; [|by intros [= _ <-]].
  destruct (deployments db !! k); [done|by intros [= _ <-]].
Qed.

Lemma iwp_record id name st summary msg s (Q : result repoErr Step -> Site -> Prop) :
  uuid_text id = Some key -> faithful s -> (st = StepStatusCompleted -> before name \/ installed name s.2) ->
  (forall r s', faithful s' -> s'.2 = s.2 -> Q r s') -> iwp faithful (record id name st summary msg) s Q.
Proof.
  intros Hk Hf Hst HQ. apply iwp_call. intros r s' [Hw Hs].
  set (p := mkRecordStepParams id name st (opt_text summary) (opt_text msg)) in *.
  destruct (RecordDeploymentStep uuid_text s'.1.1 p s.1.2) as [r' db'] eqn:Hr.
  assert (faithful s') as Hf'; [|by split; [|apply HQ]].
  destruct Hf as [Hroot Hf]. split; [by rewrite Hw|]. rewrite Hw.
  assert (s'.1.2 = db' \/ s'.1.2 = s.1.2) as [->| ->] by tauto; [|done]. intros n Hb Hn.
  destruct (decide (n = name)) as [->|Hne].
  - destruct r' as [step|e]; [|apply record_keeps_on_error in Hr; subst; by apply Hf].
    apply (record_step_ok uuid_text _ _ _ _ _ key) in Hr; [|done]. cbn in Hr. destruct st; try congruence.
    by destruct (Hst eq_refl).
  - rewrite (record_step_status uuid_text _ _ _ _ _ key n Hr) in Hn by done. by apply Hf.
Qed.

Definition accounted (names : list string) (s : Site) : Prop := forall n, n ∈ names -> before n \/ installed n s.2.

Lemma accounted_since names s s' : since s.2 s'.2 -> accounted names s -> accounted names s'.
Proof. intros [_ [_ Hg]] Hd n Hn. destruct (Hd n Hn) as [Hb|Hi]; [by left|right; by apply Hg]. Qed.

Lemma accounted_same names s s' : s'.2 = s.2 -> accounted names s -> accounted names s'.
Proof. intros H1 Hd n Hn. rewrite H1. by apply Hd. Qed.

Lemma iwp_runStage name s (Q : Provisioner.Report * bool -> Site -> Prop) :
  faithful s ->
  (forall r s', faithful s' -> since s.2 s'.2 -> (snd r = false -> installed name s'.2) -> Q r s') ->
  iwp faithful (runStage name) s Q.
Proof.
  intros Hf HQ.
  assert (forall changed summary failed s', faithful s' -> since s.2 s'.2 -> (failed = false -> installed name s'.2) ->
    iwp faithful (d ← call Elapsed; mret (mkReport name None changed summary d, failed)) s' Q) as Hend.
  { intros ch sm fl s' H1 H2 H3. apply iwp_mbind, iwp_call. intros d s2 ->. split; [done|]. by apply iwp_ret, HQ. }
  assert (forall s1 s2, s2.1 = s1.1 -> since s1.2 s2.2 -> faithful s1 -> faithful s2) as Hnext by apply faithful_since.
  assert (forall s1 s2 : Site, since s.2 s1.2 -> since s1.2 s2.2 -> since s.2 s2.2) as Htrans.
  { intros s1 s2 [_ H1] [H2 H3]. split; [done|]. by eapply grows_trans. }
  apply iwp_mbind, iwp_call. intros i s1 (H1 & H2 & H3). assert (faithful s1) as Hf1 by by eapply Hnext. split; [done|].
  destruct i as [i|]; [|by apply Hend]. destruct (insp_Satisfied i) eqn:Hsat; [apply Hend; [done|done|intros _; by eapply H3]|].
  apply iwp_mbind, iwp_call. intros ap s2 (H4 & H5). assert (faithful s2) as Hf2 by by eapply Hnext. split; [done|].
  assert (since s.2 s2.2) as H6 by by eapply Htrans. destruct ap; [|by apply Hend]. cbn [negb].
  apply iwp_mbind, iwp_call. intros v s3 (H7 & H8 & H9). assert (faithful s3) as Hf3 by by eapply Hnext. split; [done|].
  assert (since s.2 s3.2) as H10 by by eapply Htrans. destruct v; cbn [negb]; apply Hend; [done|done|intros _; by apply H9|done|done|done].
Qed.

Lemma iwp_emit progress r s (Q : unit -> Site -> Prop) : faithful s -> Q tt s -> iwp faithful (emitReport progress r) s Q.
Proof. intros Hf HQ. destruct progress; [|by apply iwp_ret]. apply iwp_call. intros [] s' ->. by split. Qed.

Lemma iwp_run_stages id progress completed rest reports done_ s :
  uuid_text id = Some key -> faithful s -> accounted done_ s -> (forall n, n ∈ rest -> completed n = true -> before n) ->
  iwp faithful (run_stages id progress completed rest reports) s (fun r s' => snd r = None -> accounted (done_ ++ rest) s').
Proof.
  intros Hk. revert done_ reports s. induction rest as [|name rest IH]; intros names reports s Hf Hd Ht.
  { apply iwp_ret. intros _. by rewrite app_nil_r. }
  assert (names ++ name :: rest = (names ++ [name]) ++ rest) as -> by by rewrite <-app_assoc.
  assert (forall s', accounted names s' -> before name \/ installed name s'.2 -> accounted (names ++ [name]) s') as Hsnoc.
  { intros s' H1 H2 n [Hn| ->%list_elem_of_singleton]%elem_of_app; [by apply H1|done]. }
  assert (forall n, n ∈ rest -> completed n = true -> before n) as Ht' by (intros n Hn; apply Ht; by right).
  cbn [run_stages]. destruct (completed name) eqn:Hc.
  { apply iwp_mbind, iwp_emit; [done|]. apply IH; [done| |done]. apply Hsnoc; [done|]. left. apply Ht; [by left|done]. }
  apply iwp_mbind, iwp_call. intros dn s1 ->. split; [done|]. destruct dn; [by apply iwp_ret|].
  apply iwp_mbind, iwp_record; [done|done|done|]. intros r1 s1 Hf1 Hw1. pose proof (accounted_same _ _ _ Hw1 Hd) as Hd1.
  destruct r1 as [st1|e]; [|by apply iwp_ret]. clear s Hf Hd Hw1.
  apply iwp_mbind, iwp_emit; [done|]. apply iwp_mbind, iwp_runStage; [done|]. intros [report failed] s2 Hf2 Hs2 Hi2.
  pose proof (accounted_since _ _ _ Hs2 Hd1) as Hd2. cbn [snd] in Hi2. destruct failed.
  - apply iwp_mbind, iwp_record; [done|done|done|]. intros r3 s3 Hf3 _. apply iwp_mbind, iwp_emit; [done|]. by apply iwp_ret.
  - specialize (Hi2 eq_refl). apply iwp_mbind, iwp_record; [done|done|by right|]. intros r3 s3 Hf3 Hw3.
    destruct r3 as [st3|e]; [|by apply iwp_ret]. apply iwp_mbind, iwp_emit; [done|].
    apply IH; [done| |done]. apply Hsnoc; [by eapply accounted_same|]. right. by rewrite Hw3.
Qed.
End Engine.
End Files.

(** ** The whole run *)
Section Run.
Context `{X509} {printable_rune : UnicodePrint} (uuid_text : string -> option string) (v : SSHProvisionerConfig).
Context (input : ProvisionVPSInput) (progress : bool) (key : string) (s0 : Site).
#[local] Instance deploy_env : Env sshE Site := DeployEnv uuid_text.

(** The configuration of the stages. *)
Definition run_config : option Remote.Config :=
  NewConfig (sp_RemnawaveAPIIP v) (sp_MetricsIP v) (bytes_of (pro_RemnanodeSecretKey input)).

Lemma NewConfig_normalized c : run_config = Some c -> normalized c = Some c.
Proof.
  unfold run_config, NewConfig, normalized. destruct (_ || _) eqn:Hb; [done|]. intros [= <-]. cbn. by rewrite Hb.
Qed.

Lemma iwp_finally_quiet I {A} (body : prog sshE A) (ev : sshE unit) (Q : A -> Site -> Prop) s :
  (forall s x s', env_step ev s x s' -> s' = s) ->
  iwp I body s (fun a s' => I s' /\ Q a s') -> iwp I (finally body (call ev)) s Q.
Proof.
  intros Hev Hb. apply iwp_bind. eapply iwp_mono; [exact Hb|]. intros a s' [HI HQ]. apply iwp_bind, iwp_call.
  intros x s2 ->%Hev. by split.
Qed.

(** A stage of the run with files has all of them on the VPS, with the hash
    of what the run configured. *)
Definition stage_installed (name : string) (w : World) : Prop :=
  exists c st, run_config = Some c /\ st ∈ default_stages c /\ rs_name st = name /\ rs_files st <> [] /\
    forall f, f ∈ rs_files st -> active_hash (mf_path f) w (mf_content f).

Lemma installed_stage c name w : run_config = Some c -> name ∈ file_stages -> installed c name w -> stage_installed name w.
Proof.
  intros Hc Hn Hi. destruct (file_stage c name Hn) as (st & Hst & Hname & Hne). exists c, st. split_and!; [done..|].
  exact (Hi st Hst Hname).
Qed.

Hypothesis hex_present : forall l, hex_EncodeToString l <> "missing".
Hypothesis key_of : uuid_text (pro_DeploymentID input) = Some key.
Hypothesis table_ok : db_ok s0.1.1 s0.1.2.
Hypothesis rooted0 : rooted s0.2.

Section Configured.
Context (c : Remote.Config) (Hc : run_config = Some c).
#[local] Notation I := (faithful c key s0.1.2).
#[local] Notation accounted := (accounted c key s0.1.2).

Lemma iwp_engine a stages s :
  s.1 = s0.1 -> I s -> NewDefaultStages c (installer a) = Some stages ->
  iwp I (run_engine stages (pro_DeploymentID input) progress) s (fun r s' => r = None -> accounted StageNames s').
Proof.
  intros Hs HI Hst. unfold NewDefaultStages in Hst. rewrite (NewConfig_normalized c Hc) in Hst.
  destruct (_ || _); [done|]. injection Hst as Hst. unfold run_engine.
  destruct (NewEngine _) as [names|] eqn:Hn; [|by apply iwp_ret]. apply NewEngine_stages in Hn. subst names.
  apply iwp_mbind, (@iwp_interp provE sshE Site (StageEnv c uuid_text) (DeployEnv uuid_text)).
  - intros X e s1 R HI1. by apply (engine_call_answers hex_present c uuid_text key s0.1.2 a stages (eq_sym Hst)).
  - done.
  - unfold RunWithProgress. destruct (String.eqb _ _); [by apply iwp_ret, iwp_ret|].
    apply iwp_mbind, iwp_call. intros steps s1 [-> Hsteps]. split; [done|].
    destruct steps as [steps|e]; [|by apply iwp_ret, iwp_ret]. eapply iwp_mono.
    + apply (iwp_run_stages c uuid_text key s0.1.2 _ _ _ _ _ []); [done|done|by intros n ?%not_elem_of_nil|].
      intros n _ Hn. unfold before. destruct Hsteps as [Hsteps|]; [|done]. rewrite Hs in Hsteps.
      by eapply completed_stages_sound.
    + intros [reports r] s' Hr. cbn [snd] in Hr. destruct r as [e|]; cbn [snd]; apply iwp_ret; [done|]. intros _. by apply Hr.
Qed.

Lemma iwp_provision s :
  s.1 = s0.1 -> I s ->
  iwp I (provision_on_connection v input progress) s (fun r s' => r = None -> accounted StageNames s').
Proof.
  intros Hs HI. unfold provision_on_connection. unfold run_config in Hc. rewrite Hc.
  apply iwp_finally_quiet; [by intros ? ? ?|]. apply iwp_inv; [done|]. apply iwp_mbind. eapply iwp_mono.
  { apply iwp_inv; [done|]. apply (iwp_on_vps c uuid_text key s0.1.2 _ s (fun _ w' => True) HI).
    eapply iwp_mono; [apply (iwp_allowed c _ _ s.2)|done]; [|apply since_refl, HI].
    unfold NewExternalXraySNIInstaller. destruct (negb _); [apply calls_only_ret|].
    apply calls_only_mbind; [by apply calls_only_call|]. intros now. apply calls_only_ret. }
  intros [a|e] s1 (HI1 & H1 & _); [|by apply iwp_ret]. rewrite Hs in H1.
  apply iwp_finally_quiet; [by intros ? ? ?|]. apply iwp_inv; [done|].
  destruct (NewDefaultStages c (installer a)) as [stages|] eqn:Hst; [|by apply iwp_ret]. by apply (iwp_engine a).
Qed.

Lemma faithful_start : I s0.
Proof. split; [done|]. intros name Hb Hn. by destruct Hb. Qed.

Lemma iwp_Provision : iwp I (Provision v input progress) s0 (fun r s' => r = None -> accounted StageNames s').
Proof.
  pose proof faithful_start as H0. unfold Provision. destruct (_ || _); [by apply iwp_ret|].
  apply iwp_mbind, iwp_call. intros b s ->. split; [done|]. destruct b; [|by apply iwp_ret].
  apply iwp_finally_quiet; [by intros ? ? ?|]. apply iwp_inv; [done|]. by apply iwp_provision.
Qed.
End Configured.

(** Without a configuration nothing is recorded. *)
Lemma iwp_unconfigured : run_config = None ->
  iwp (fun s => s = s0) (Provision v input progress) s0 (fun r _ => r <> None).
Proof.
  intros Hc. unfold Provision. destruct (_ || _); [by apply iwp_ret|].
  apply iwp_mbind, iwp_call. intros b s ->. split; [done|]. destruct b; [|by apply iwp_ret].
  apply iwp_finally_quiet; [by intros ? ? ?|]. unfold provision_on_connection. unfold run_config in Hc. rewrite Hc. by apply iwp_ret.
Qed.
End Run.

(** C6. What the table says of a stage is true of the VPS.  A provisioning run
    over one SSH connection, with the real engine, stages, tables and the
    script that writes a managed file, whichever command fails, whichever
    answer of the database is lost and wherever the run is cut off: every
    stage with managed files (the seven of [file_stages]) that is recorded
    COMPLETED and was not before has each of its files on the VPS, with the
    SHA-256 of the content this run configured.  When [Provision] succeeds
    that holds of all seven but those that were COMPLETED when it started.
    The modes of the files are not tracked, and the files of xray_sni, which
    has an installer of its own, are the subject of XrayFacts.v and
    XraySwitch.v. *)
Theorem completed_stages_are_on_the_vps `{X509} {printable_rune : UnicodePrint} (uuid_text : string -> option string)
    (v : SSHProvisionerConfig) (input : ProvisionVPSInput) (progress : bool) (key : string) (s : Site) :
  (forall l, hex_EncodeToString l <> "missing") -> uuid_text (pro_DeploymentID input) = Some key ->
  db_ok s.1.1 s.1.2 -> rooted s.2 ->
  let was name := step_status key name s.1.2 = Some StepStatusCompleted in
  (forall s', @crashes _ _ (DeployEnv uuid_text) _ (Provision v input progress) s s' ->
     forall name, name ∈ file_stages -> step_status key name s'.1.2 = Some StepStatusCompleted ->
       was name \/ stage_installed v input name s'.2) /\
  @always _ _ (DeployEnv uuid_text) _ (Provision v input progress) s (fun _ r s' =>
     r = None -> forall name, name ∈ file_stages -> was name \/ stage_installed v input name s'.2).
Proof.
  intros Hhex Hkey Hok Hr was. destruct (run_config v input) as [c|] eqn:Hc.
  - pose proof (iwp_Provision uuid_text v input progress key s Hhex Hkey Hok Hr c Hc) as Hp.
    assert (forall n w, n ∈ file_stages -> was n \/ installed c n w -> was n \/ stage_installed v input n w) as Hex.
    { intros n w Hin [Hw|Hi]; [by left|right]. by eapply installed_stage. }
    split.
    + intros s' Hcr name Hin Hn. apply Hex; [done|]. destruct (decide (was name)) as [Hw|Hw]; [by left|right].
      by apply (iwp_crashes _ _ _ _ (faithful_start key s Hr c) Hp s' Hcr).
    + intros tr r s' Hrun -> name Hname. apply Hex; [done|].
      apply (iwp_runs _ _ _ _ Hp _ _ _ Hrun eq_refl name). unfold file_stages in Hname. set_solver.
  - pose proof (iwp_unconfigured uuid_text v input progress s Hc) as Hp. split.
    + intros s' Hcr name _ Hn. left. by rewrite (iwp_crashes _ _ _ _ eq_refl Hp s' Hcr) in Hn.
    + intros tr r s' Hrun ->. by destruct (iwp_runs _ _ _ _ Hp _ _ _ Hrun).
Qed.

(** ** A concrete run *)

(** The example library with the hexadecimal text of Go. *)
#[refine] Definition hex_x509 : X509 := {|
  pem_Decode := @pem_Decode example_x509;
  ParseCertificate := @ParseCertificate example_x509;
  ParsePKCS8PrivateKey := @ParsePKCS8PrivateKey example_x509;
  ParsePKCS1PrivateKey := @ParsePKCS1PrivateKey example_x509;
  ParseECPrivateKey := @ParseECPrivateKey example_x509;
  VerifyHostname := @VerifyHostname example_x509;
  Sum256 := @Sum256 example_x509;
  hex_EncodeToString := hex_encode;
  serial_text16 := @serial_text16 example_x509
|}.
Proof. exact (@pem_Decode_shorter example_x509). Defined.
#[local] Existing Instance hex_x509.
#[local] Instance example_print : UnicodePrint := fun _ => true.

Lemma hex_encode_even l : Nat.even (String.length (hex_encode l)) = true.
Proof. induction l as [|b l IH]; [done|]. exact IH. Qed.

Lemma hex_not_missing l : hex_EncodeToString l <> "missing".
Proof. intros Hl. pose proof (hex_encode_even l) as He. change (hex_encode l = "missing") in Hl. by rewrite Hl in He. Qed.

(** A fresh VPS on which every command succeeds, and the tables. *)
Definition site_handler : handler sshE Site := fun X e s =>
  match e in sshE X return X * Site with
  | ConnectInitial _ _ _ _ => (true, s)
  | ConnectWithDeploymentKey _ _ _ => (true, s)
  | InstallDeploymentPublicKey => (true, s)
  | CloseConnection => (tt, s)
  | ClearPassword _ => (tt, s)
  | ClearConfig _ => (tt, s)
  | ClearInstaller _ => (tt, s)
  | OnVps e =>
    match e in vpsE X return X * Site with
    | RunCommand _ command stdin _ =>
      match written_file command with
      | Some f =>
        let '(_, ok, w) := run sh_handler (write_script (parent f.1) f.1 stdin) s.2 in
        (if ok : bool then Some "" else None, (s.1, w))
      | None =>
        match hashed_file command with
        | Some f => (if String.eqb (TrimSpace (shown_hash f.1 s.2)) (shown_hash f.1 s.2) then Some (shown_hash f.1 s.2) else None, s)
        | None => (Some (if HasPrefix command "# xray-sni:inspect" then printed true true true else "ready"), s)
        end
      end
    | VpsCtxDone _ => (false, s)
    | VpsNow => (1000, s)
    end
  | OnCheck e => match e in Preflight.preE X return X * Site with Preflight.RunCommand _ _ => (None, s) | Preflight.CtxDone => (false, s) end
  | ListSteps id => (ListDeploymentSteps example_uuid id s.1.2, s)
  | RecordStep p => let '(r, db) := RecordDeploymentStep example_uuid s.1.1 p s.1.2 in (r, ((s.1.1, db), s.2))
  | StageClock => (0, s)
  | ReportProgress _ => (tt, s)
  end.

Lemma site_handler_respects X (e : sshE X) s : @env_step _ _ (DeployEnv example_uuid) _ e s (fst (site_handler X e s)) (snd (site_handler X e s)).
Proof.
  destruct e as [id ad u p|id ad u| | |p|c|a|X e|X e|id|p| |r]; try done; unfold env_step, DeployEnv, site_handler.
  - destruct e as [d command stdin t|d|]; [|done..]. cbv beta iota. unfold FilesEnv, vps_command.
    destruct (written_file command) as [f|].
    + pose proof (sh_handler_step (write_script (parent f.1) f.1 stdin) s.2) as Hs.
      destruct (run _ _ _) as [[tr ok] w]. by split.
    + destruct (hashed_file command) as [f|]; [|by split_and!]. split; [done|]. split; [done|].
      destruct (String.eqb_spec (TrimSpace (shown_hash f.1 s.2)) (shown_hash f.1 s.2)) as [Heq|_]; [|done]. by intros out [= <-].
  - by destruct e.
  - split; [done|]. by left.
  - cbv beta iota. destruct (RecordDeploymentStep _ _ _ _) as [r db] eqn:Hr. cbn. rewrite Hr. split; [done|]. by left.
Qed.

Definition example_provisioner : SSHProvisionerConfig :=
  mkSSHProvisionerConfig (Addr4 3221225991) (Addr4 3221225992) (Preflight.mkRequirements 0 0 0 [] [] 0)
    "https://github.com/example/xray-sni" "v1.2.3" (5 * Minute).
Definition example_provision : ProvisionVPSInput :=
  mkProvisionVPSInput id1 (Addr4 3405803781) "new.example.com" "node-secret" (mkMaterial [78] [78]).
Definition example_site : Site := ((70, example_db), mkWorld ∅ ∅ ∅ false false false).

Lemma completed_stages_are_on_the_vps_witness :
  exists tr s', @runs _ _ (DeployEnv example_uuid) _ (Provision example_provisioner example_provision true) example_site tr None s' /\
    forall name, name ∈ file_stages -> step_status id1 name example_db = Some StepStatusCompleted \/
      stage_installed example_provisioner example_provision name s'.2.
Proof.
  pose proof (run_runs (Env0 := DeployEnv example_uuid) site_handler (Provision example_provisioner example_provision true) example_site site_handler_respects) as Hr.
  destruct (run _ _ _) as [[tr r] s'] eqn:Hrun.
  assert (r = None) as -> by (apply (f_equal (fun x => snd (fst x))) in Hrun; vm_compute in Hrun; by symmetry).
  exists tr, s'. split; [exact Hr|].
  refine (proj2 (completed_stages_are_on_the_vps example_uuid example_provisioner example_provision true id1 example_site _ _ _ _) tr None s' Hr eq_refl).
  - exact hex_not_missing.
  - vm_compute. reflexivity.
  - apply (reachable_ok example_uuid), example_db_reachable.
  - intros f [x Hf]. discriminate Hf.
Defined.
