(* ===== verification/CertStatic.v ===== *)
(** * The in-memory certificate provider

    Models [StaticCertificateProvider] of [internal/orchestrator/certificate.go]:
    a table of materials under a lock, one critical section per method.
    [done] is the error of the caller's context. *)

From S2P Require Import Prelude GoStrings CertTypes Service.

(** The table, by normalised domain. *)
Definition StaticCertificateProvider : Type := gmap string Material.

(** [initial] in the order the map is ranged over: the last of two domains
    that normalise alike wins. *)
Definition NewStaticCertificateProvider (initial : list (string * Material)) : StaticCertificateProvider :=
  foldl (fun p '(domain, material) => <[normalizeDomain domain := Clone material]> p) ∅ initial.

Inductive staticErr : Type := StaticContext (e : ctxErr) | StaticUnavailable.

Definition complete_entry (p : gmap string Material) (domain : string) : option Material :=
  material ← p !! normalizeDomain domain;
  if complete_material material then Some material else None.

Definition Readiness (done : option ctxErr) (p : gmap string Material) (domain : string) : result staticErr CertTypes.Readiness :=
  match done with
  | Some e => Err (StaticContext e)
  | None => Ok (match complete_entry p domain with Some _ => ReadinessReady | None => ReadinessNotReady end)
  end.

Definition Prepare (done : option ctxErr) (p : gmap string Material) (domain : string) : result staticErr Material :=
  match done with
  | Some e => Err (StaticContext e)
  | None => match complete_entry p domain with Some material => Ok (Clone material) | None => Err StaticUnavailable end
  end.

(** The material that is destroyed, and the new table. *)
Definition Put (p : gmap string Material) (domain : string) (material : Material) : option Material * gmap string Material :=
  (p !! normalizeDomain domain, <[normalizeDomain domain := Clone material]> p).

Definition Close (p : gmap string Material) : list Material * gmap string Material := ((map_to_list p).*2, ∅).

Lemma Clone_id m : Clone m = m.
Proof. by destruct m. Qed.

(** What was put is what is prepared, under any spelling of the domain. *)
Lemma put_prepare (p : gmap string Material) domain domain' material :
  normalizeDomain domain' = normalizeDomain domain ->
  Prepare None (Put p domain material).2 domain' = if complete_material material then Ok material else Err StaticUnavailable.
Proof.
  intros Hd. unfold Prepare, Put, complete_entry. cbn [snd]. rewrite Hd, lookup_insert_eq, Clone_id. cbn.
  destruct (complete_material material); [by rewrite Clone_id|done].
Qed.

(** [Readiness] says whether [Prepare] would succeed. *)
Lemma readiness_prepare (p : gmap string Material) domain :
  Readiness None p domain = Ok ReadinessReady <-> exists material, Prepare None p domain = Ok material.
Proof.
  unfold Readiness, Prepare. destruct (complete_entry p domain) as [m|]; split.
  - by eauto.
  - done.
  - by intros [=].
  - by intros [m H].
Qed.
