(* ===== verification/SshClient.v ===== *)
(** * SSH connections to a VPS

    Models [internal/ssh]: the credentials of a first connection, the pinned
    host keys, the attempts of [Client.connect], the bounded buffers and
    [Connection.Run], and the installation of the deployment key.  The
    protocol itself is golang.org/x/crypto/ssh; its handshake appears as the
    calls it makes: a key exchange, the host key callback, and then the
    authentication. *)

From S2P Require Import Prelude GoStrings NetIP Effects Deployment Repository Certificates.
From S2P Require Import Remote Service.

#[local] Open Scope Z_scope.

(** ** Host keys (hostkey.go) *)
Inductive keyErr : Type := KeyContext | KeyStoreFailed.

(** [HostKeyStore]: what its implementations promise to the client. *)
Class HostKeyStore (St : Type) : Type := {
  pin_of : St -> string -> option string;
  key_Get : string -> St -> result keyErr (option string);
  key_StoreIfAbsent : string -> string -> St -> result keyErr (string * bool) * St;
  key_Get_pin id s k : key_Get id s = Ok k -> k = pin_of s id;
  key_Store_pin id fp s t b : fst (key_StoreIfAbsent id fp s) = Ok (t, b) ->
    t = default fp (pin_of s id) /\ pin_of (snd (key_StoreIfAbsent id fp s)) id = Some t;
  key_Store_keeps id fp s id' t : pin_of s id' = Some t -> pin_of (snd (key_StoreIfAbsent id fp s)) id' = Some t
}.

(** [MemoryHostKeyStore]; each method is one critical section. *)
Definition MemoryHostKeyStore : Type := gmap string string.
Definition memory_Get (ended : bool) (deploymentID : string) (s : gmap string string) : result keyErr (option string) :=
  if ended then Err KeyContext else Ok (s !! deploymentID).
Definition memory_StoreIfAbsent (ended : bool) (deploymentID fingerprint : string) (s : gmap string string)
    : result keyErr (string * bool) * gmap string string :=
  if ended then (Err KeyContext, s)
  else match s !! deploymentID with
  | Some trusted => (Ok (trusted, false), s)
  | None => (Ok (fingerprint, true), <[deploymentID := fingerprint]> s)
  end.

#[export] Instance memory_store : HostKeyStore MemoryHostKeyStore.
Proof.
  refine {| pin_of := fun s id => (s : gmap string string) !! id; key_Get := memory_Get false; key_StoreIfAbsent := memory_StoreIfAbsent false |}.
  - by intros id s k [= <-].
  - intros id fp s t b. unfold memory_StoreIfAbsent. destruct ((s : gmap string string) !! id) as [trusted|] eqn:Hs; cbn.
    + by intros [= <- <-].
    + intros [= <- <-]. split; [done|apply lookup_insert_eq].
  - intros id fp s id' t H. unfold memory_StoreIfAbsent. destruct ((s : gmap string string) !! id) as [trusted|] eqn:Hs; [done|].
    cbn. rewrite lookup_insert_ne; [done|]. intros ->. by rewrite Hs in H.
Defined.

(** The repository (postgres/hostkey.go) is a store of keys too. *)
Section RepositoryStore.
Context (uuid_text : string -> option string) (now : Z).

Definition as_key_error {A} (r : result repoErr A) : result keyErr A := match r with Ok a => Ok a | Err _ => Err KeyStoreFailed end.
Definition row_pin (db : Db) (id : string) : option string :=
  key ← uuid_text id; d ← deployments db !! key; SSHHostKeyFingerprint d.

Definition repository_store : HostKeyStore Db.
Proof.
  refine {| pin_of := row_pin; key_Get id db := as_key_error (GetHostKey uuid_text id db);
            key_StoreIfAbsent id fp db := let '(r, db') := Repository.StoreIfAbsent uuid_text now id fp db in (as_key_error r, db') |}.
  - intros id db k. unfold GetHostKey, row_pin. destruct (negb _); [done|]. destruct (uuid_text id) as [key|]; [|done]. cbn.
    destruct (deployments db !! key) as [d|]; [|done]. by intros [= <-].
  - intros id fp db t b. unfold Repository.StoreIfAbsent, row_pin. destruct (negb _); [done|]. destruct (_ || _); [done|].
    destruct (uuid_text id) as [key|]; [|done]. cbn. destruct (deployments db !! key) as [d|]; [|done]. cbn.
    intros [= <- <-]. split; [done|]. by rewrite lookup_insert_eq.
  - intros id fp db id' t. unfold Repository.StoreIfAbsent, row_pin. destruct (negb _); [done|]. destruct (_ || _); [done|].
    destruct (uuid_text id) as [key|] eqn:Hid; [|done]. destruct (deployments db !! key) as [d|] eqn:Hd; [|done]. cbn.
    destruct (uuid_text id') as [key'|]; [|done]. cbn. destruct (decide (key = key')) as [->|Hne].
    + rewrite Hd, lookup_insert_eq. cbn. by intros ->.
    + by rewrite lookup_insert_ne.
Defined.
End RepositoryStore.

(** ** Effects of a connection

    [KeyExchange]: the server and the first key it shows for the algorithms
    asked ([[]] are the library's own): the base64 text of the SHA-256 digest
    of the key, [None] a handshake that failed before one was shown.
    [Authenticate] sends the password or a signature to that server.
    [DialEnded] is [connectCtx.Err() != nil].  [CloseTransport] and
    [CloseClient] close what was opened, [ClearCredentials] zeroes the copy
    of the password. *)
Inductive Auth : Type := PasswordAuth (password : string) | DeploymentKeyAuth.

Inductive dialE : Type -> Type :=
  | KeyGet (id : string) : dialE (result keyErr (option string))
  | KeyStore (id fingerprint : string) : dialE (result keyErr (string * bool))
  | Dial (address : Addr) (port : Z) : dialE bool
  | KeyExchange (algorithms : list string) : dialE (option string)
  | Authenticate (user : string) (auth : Auth) : dialE bool
  | DialEnded : dialE bool
  | CloseTransport : dialE unit
  | CloseClient : dialE unit
  | ClearCredentials : dialE unit.

#[local] Notation M := (prog dialE).

Inductive sshErr : Type :=
  | ErrInvalidConfiguration
  | LoadTrustedKey (e : keyErr)
  | StoreTrustedKey (e : keyErr)
  | HostKeyChangedError (Expected Actual : string)
  | NoHostKey
  | EndpointUnreachable
  | HandshakeFailed (cause : option sshErr)
  | ConnectEnded.

(** ** One session's host key ([hostKeySession]); [candidate] is its state *)
Definition callback (deploymentID candidate fingerprint : string) : M (result sshErr string) :=
  trusted ← call (KeyGet deploymentID);
  mret match trusted with
  | Err e => Err (LoadTrustedKey e)
  | Ok (Some trusted) =>
    if negb (String.eqb trusted fingerprint) then Err (HostKeyChangedError trusted fingerprint)
    else if negb (String.eqb candidate "") && negb (String.eqb candidate fingerprint) then Err (HostKeyChangedError candidate fingerprint)
    else Ok fingerprint
  | Ok None =>
    if negb (String.eqb candidate "") && negb (String.eqb candidate fingerprint) then Err (HostKeyChangedError candidate fingerprint)
    else Ok fingerprint
  end.

Definition accepted (candidate : string) : bool := negb (String.eqb candidate "").

Definition commit (deploymentID candidate : string) : M (option sshErr) :=
  if String.eqb candidate "" then mret (Some NoHostKey)
  else
    stored ← call (KeyStore deploymentID candidate);
    mret match stored with
    | Err e => Some (StoreTrustedKey e)
    | Ok (trusted, _) => if negb (String.eqb trusted candidate) then Some (HostKeyChangedError trusted candidate) else None
    end.

(** [gossh.FingerprintSHA256]. *)
Definition FingerprintSHA256 (digest : string) : string := "SHA256:" +:+ digest.

(** [gossh.NewClientConn]: the callback decides between the key exchange and
    the authentication.  The error, and the candidate of the session. *)
Definition NewClientConn (deploymentID user : string) (auth : Auth) (algorithms : list string) : M (option sshErr * string) :=
  key ← call (KeyExchange algorithms);
  match key with
  | None => mret (Some (HandshakeFailed None), "")
  | Some digest =>
    checked ← callback deploymentID "" (FingerprintSHA256 digest);
    match checked with
    | Err e => mret (Some (HandshakeFailed (Some e)), "")
    | Ok candidate =>
      authenticated ← call (Authenticate user auth);
      mret (if (authenticated : bool) then None else Some (HandshakeFailed None), candidate)
    end
  end.

(** ** The client (client.go) *)
Definition pinnedHostKeyAlgorithmAttempts : list (list string) :=
  [["ssh-ed25519-cert-v01@openssh.com"]; ["ecdsa-sha2-nistp256-cert-v01@openssh.com"]; ["ecdsa-sha2-nistp384-cert-v01@openssh.com"];
   ["ecdsa-sha2-nistp521-cert-v01@openssh.com"]; ["rsa-sha2-512-cert-v01@openssh.com"]; ["rsa-sha2-256-cert-v01@openssh.com"];
   ["ssh-ed25519"]; ["ecdsa-sha2-nistp256"]; ["ecdsa-sha2-nistp384"]; ["ecdsa-sha2-nistp521"]; ["rsa-sha2-512"]; ["rsa-sha2-256"]].

Record Client : Type := mkClient {
  cl_connectTimeout : Z; cl_commandTimeout : Z; cl_stdoutLimit : Z; cl_stderrLimit : Z
}.
Record Connection : Type := mkConnection { cn_defaultTimeout : Z; cn_stdoutLimit : Z; cn_stderrLimit : Z }.

Definition NewClient (hasStore hasKey : bool) (connectTimeout commandTimeout stdoutLimit stderrLimit : Z) : option Client :=
  if negb hasStore || negb hasKey || (connectTimeout <=? 0) || (commandTimeout <=? 0) || (stdoutLimit <=? 0) || (stderrLimit <=? 0)
  then None else Some (mkClient connectTimeout commandTimeout stdoutLimit stderrLimit).

Definition connection_of (c : Client) : Connection := mkConnection (cl_commandTimeout c) (cl_stdoutLimit c) (cl_stderrLimit c).
Definition defaultSSHPort : Z := 22.

Section Connect.
Context (c : Client) (deploymentID : string) (address : Addr) (username : string) (auth : Auth).

(** The connection or the error, and whether the host key was accepted. *)
Definition connectAttempt (algorithms : list string) : M (result sshErr Connection * bool) :=
  dialed ← call (Dial address defaultSSHPort);
  if negb (dialed : bool) then mret (Err EndpointUnreachable, false)
  else
    shaken ← NewClientConn deploymentID username auth algorithms;
    match shaken with
    | (Some e, candidate) => _ ← call CloseTransport; mret (Err e, accepted candidate)
    | (None, candidate) =>
      committed ← commit deploymentID candidate;
      match committed with
      | Some e => _ ← call CloseClient; _ ← call CloseTransport; mret (Err e, accepted candidate)
      | None => mret (Ok (connection_of c), true)
      end
    end.

(** The loop over the attempts, after the error of the last one. *)
Fixpoint try_attempts (attempts : list (list string)) (lastErr : sshErr) : M (result sshErr Connection) :=
  match attempts with
  | [] => mret (Err lastErr)
  | algorithms :: attempts' =>
    r ← connectAttempt algorithms;
    match r with
    | (Ok connection, _) => mret (Ok connection)
    | (Err e, hostKeyAccepted) =>
      if (hostKeyAccepted : bool) then mret (Err e)
      else
        ended ← call DialEnded;
        if (ended : bool) then mret (Err ConnectEnded) else try_attempts attempts' e
    end
  end.

Definition connect : M (result sshErr Connection) :=
  if String.eqb (TrimSpace deploymentID) "" then mret (Err ErrInvalidConfiguration)
  else
    pinned ← call (KeyGet deploymentID);
    match pinned with
    | Err e => mret (Err (LoadTrustedKey e))
    | Ok pin => try_attempts (match pin with Some _ => pinnedHostKeyAlgorithmAttempts | None => [[]] end) ErrInvalidConfiguration
    end.
End Connect.

(** ** Credentials (credentials.go)

    The bytes of the password kept for one connection; [Clear] zeroes and
    drops them. *)
Record InitialCredentials : Type := mkInitialCredentials { cr_Address : Addr; cr_Username : string; cr_password : option string }.
Definition NewInitialCredentials (address : Addr) (username temporaryPassword : string) : InitialCredentials :=
  mkInitialCredentials address username (Some temporaryPassword).
Definition passwordString (i : InitialCredentials) : string := default "" (cr_password i).
Definition credentials_String (i : InitialCredentials) : string :=
  "InitialCredentials{Address:" +:+ addr_string (cr_Address i) +:+ " Username:" +:+ cr_Username i +:+ " Password:[REDACTED]}".

Definition ConnectInitial (c : Client) (deploymentID : string) (credentials : option InitialCredentials) : M (result sshErr Connection) :=
  match credentials with
  | None => mret (Err ErrInvalidConfiguration)
  | Some i =>
    if negb (IsValid (cr_Address i)) || String.eqb (TrimSpace (cr_Username i)) "" then mret (Err ErrInvalidConfiguration)
    else if String.eqb (passwordString i) "" then mret (Err ErrInvalidConfiguration)
    else finally (connect c deploymentID (cr_Address i) (cr_Username i) (PasswordAuth (passwordString i))) (call ClearCredentials)
  end.

Definition ConnectWithDeploymentKey (c : Client) (deploymentID : string) (address : Addr) (username : string) : M (result sshErr Connection) :=
  if negb (IsValid address) || String.eqb (TrimSpace username) "" then mret (Err ErrInvalidConfiguration)
  else connect c deploymentID address username DeploymentKeyAuth.

(** ** Pinned host keys

    Over any store of host keys and whatever other connections do with it: a
    key is pinned once, secrets go only to a server that showed the pinned
    key, and a connection is one to the server of the pinned key. *)
Section Keys.
Context {St : Type} `{!HostKeyStore St}.

(** Other connections: whatever is pinned stays. *)
Definition pins_kept (s s' : St) : Prop := forall id t, pin_of s id = Some t -> pin_of s' id = Some t.

#[local] Instance pins_kept_preorder : PreOrder pins_kept.
Proof. split; [by intros s id t|]. intros s1 s2 s3 H1 H2 id t H. by apply H2, H1. Qed.

(** The calls of a connection; any of them can fail, and the answer of the
    store can be lost after it stored. *)
#[local] Instance dial_env : Env dialE St := fun X e s x s' =>
  exists s1, pins_kept s s1 /\
  match e in dialE X return X -> Prop with
  | KeyGet id => fun x => s' = s1 /\ forall k, x = Ok k -> key_Get id s1 = Ok k
  | KeyStore id fp => fun x =>
    (x = fst (key_StoreIfAbsent id fp s1) /\ s' = snd (key_StoreIfAbsent id fp s1)) \/
    (exists e, x = Err e) /\ (s' = s1 \/ s' = snd (key_StoreIfAbsent id fp s1))
  | _ => fun _ => s' = s1
  end x.

Lemma dial_step_keeps X (e : dialE X) s x s' : env_step e s x s' -> pins_kept s s'.
Proof.
  intros (s1 & H1 & H). etrans; [exact H1|].
  destruct e; cbn in H; subst; try reflexivity; [by destruct H as [-> _]|].
  destruct H as [[_ ->]|[_ [->| ->]]]; try reflexivity; intros id' t; apply key_Store_keeps.
Qed.

(** ** Where a secret goes *)
Definition authentication {X} (e : dialE X) : bool := match e with Authenticate _ _ => true | _ => false end.

(** A password or a signature is sent right after the server showed a key
    and the store was asked: no key is pinned, or this one is. *)
Definition to_the_pinned (id : string) (pinned : option string) (past : list (event dialE)) (ev : event dialE) : Prop :=
  authentication (ev_op ev) = true ->
  exists before algorithms digest k,
    past = before ++ [Ev (KeyExchange algorithms) (Some digest); Ev (KeyGet id) (Ok k)] /\
    (k = None \/ k = Some (FingerprintSHA256 digest)) /\ (forall t, pinned = Some t -> t = FingerprintSHA256 digest).

(** How a trace ends that established a connection. *)
Definition established (id : string) (s : St) (tr : list (event dialE)) : Prop :=
  exists before algorithms digest k user auth b,
    tr = before ++ [Ev (KeyExchange algorithms) (Some digest); Ev (KeyGet id) (Ok k); Ev (Authenticate user auth) true;
                    Ev (KeyStore id (FingerprintSHA256 digest)) (Ok (FingerprintSHA256 digest, b))] /\
    pin_of s id = Some (FingerprintSHA256 digest).

Section Connect.
Context (c : Client) (id : string) (s0 : St).

Notation R := (to_the_pinned id (pin_of s0 id)).

Lemma quiet_event tr ev : every R tr -> authentication (ev_op ev) = false -> every R (tr ++ [ev]).
Proof. intros H1 H2. apply every_snoc; [done|]. intros H. by rewrite H2 in H. Qed.

Lemma dial_quiet {A} (e : dialE unit) (k : prog dialE A) s tr Q :
  authentication e = false -> pins_kept s0 s -> every R tr ->
  (forall s' tr', pins_kept s0 s' -> every R tr' -> wp k s' tr' Q) -> wp (_ ← call e; k) s tr Q.
Proof.
  intros He Hs Htr Hk. wp_answer u s1 H1. apply dial_step_keeps in H1. apply Hk; [by etrans|by apply quiet_event].
Qed.

(** The callback after a key was shown. *)
Lemma callback_result digest algorithms s tr :
  pins_kept s0 s -> every R (tr ++ [Ev (KeyExchange algorithms) (Some digest)]) ->
  wp (callback id "" (FingerprintSHA256 digest)) s (tr ++ [Ev (KeyExchange algorithms) (Some digest)]) (fun r s' tr' =>
    pins_kept s0 s' /\ every R tr' /\
    match r with
    | Err _ => True
    | Ok candidate =>
      candidate = FingerprintSHA256 digest /\
      exists k, tr' = tr ++ [Ev (KeyExchange algorithms) (Some digest); Ev (KeyGet id) (Ok k)] /\
        (k = None \/ k = Some (FingerprintSHA256 digest)) /\ (forall t, pin_of s0 id = Some t -> t = FingerprintSHA256 digest)
    end).
Proof.
  intros Hs Htr. unfold callback. wp_answer trusted s1 H1. pose proof (dial_step_keeps _ _ _ _ _ H1) as Hk.
  assert (pins_kept s0 s1) as Hs1 by by etrans. wp_steps. split; [done|]. split; [by apply quiet_event|].
  destruct trusted as [k|e]; [|done]. destruct H1 as (s2 & _ & -> & Hget). pose proof (key_Get_pin _ _ _ (Hget k eq_refl)) as Hpin.
  rewrite <-app_assoc. cbn [negb String.eqb andb app]. destruct k as [t|].
  - destruct (String.eqb t (FingerprintSHA256 digest)) eqn:Heq; [|done]. apply String.eqb_eq in Heq as ->. split; [done|].
    eexists. split; [done|]. split; [by right|]. intros t Ht. apply Hs1 in Ht. rewrite <-Hpin in Ht. by injection Ht as <-.
  - split; [done|]. eexists. split; [done|]. split; [by left|]. intros t Ht. apply Hs1 in Ht. by rewrite <-Hpin in Ht.
Qed.

(** One attempt. *)
Lemma attempt_result address user auth algorithms s tr :
  pins_kept s0 s -> every R tr ->
  wp (connectAttempt c id address user auth algorithms) s tr (fun r s' tr' =>
    pins_kept s0 s' /\ every R tr' /\ (is_ok (fst r) = true -> established id s' tr')).
Proof.
  intros Hs Htr. unfold connectAttempt. wp_answer dialed s1 H1. apply dial_step_keeps in H1. assert (pins_kept s0 s1) by by etrans.
  assert (every R (tr ++ [Ev (Dial address defaultSSHPort) dialed])) as Htr1 by by apply quiet_event.
  destruct (negb dialed); [by wp_steps|].
  unfold NewClientConn. wp_answer key s2 H2. apply dial_step_keeps in H2. assert (pins_kept s0 s2) by by etrans.
  revert Htr1. generalize (tr ++ [Ev (Dial address defaultSSHPort) dialed]). clear tr Htr. intros tr Htr.
  assert (every R (tr ++ [Ev (KeyExchange algorithms) key])) as Htr2 by by apply quiet_event.
  assert (forall (r : result sshErr Connection * bool) s tr, is_ok (fst r) = false -> pins_kept s0 s -> every R tr ->
    wp (_ ← call CloseTransport; mret r) s tr (fun r s' tr' => pins_kept s0 s' /\ every R tr' /\ (is_ok (fst r) = true -> established id s' tr'))) as Hclose.
  { intros r s3 tr3 Hr Hs3 Htr3. apply dial_quiet; [done..|]. intros s4 tr4 Hs4 Htr4. wp_steps. by rewrite Hr. }
  destruct key as [digest|]; [|by wp_steps; apply Hclose]. wp_step. eapply wp_mono; [by apply callback_result|].
  intros checked s3 tr3 (H3 & Htr3 & Hc). destruct checked as [candidate|e]; [|by wp_steps; apply Hclose].
  destruct Hc as (-> & k & -> & Hk & Hpin). wp_answer authenticated s4 H4. apply dial_step_keeps in H4. assert (pins_kept s0 s4) by by etrans.
  set (past := tr ++ [Ev (KeyExchange algorithms) (Some digest); Ev (KeyGet id) (Ok k)]) in *.
  assert (every R (past ++ [Ev (Authenticate user auth) authenticated])) as Htr4.
  { apply every_snoc; [done|]. intros _. by exists tr, algorithms, digest, k. }
  wp_steps. destruct (authenticated : bool); [|by apply Hclose].
  unfold commit. change (String.eqb (FingerprintSHA256 digest) "") with false. cbv iota. wp_answer stored s5 Hst5.
  pose proof (dial_step_keeps _ _ _ _ _ Hst5) as Hk5. assert (pins_kept s0 s5) by by etrans.
  assert (every R ((past ++ [Ev (Authenticate user auth) true]) ++ [Ev (KeyStore id (FingerprintSHA256 digest)) stored])) as Htr5 by by apply quiet_event.
  wp_steps. destruct stored as [[trusted b]|e]; [|by apply dial_quiet; [done..|intros; apply Hclose]].
  destruct (negb (String.eqb trusted _)) eqn:Heq; [by apply dial_quiet; [done..|intros; apply Hclose]|].
  apply negb_false_iff, String.eqb_eq in Heq as ->. wp_steps. split; [done|]. split; [done|]. intros _.
  exists tr, algorithms, digest, k, user, auth, b. split; [unfold past; by rewrite <-!app_assoc|].
  destruct Hst5 as (s6 & _ & [[Hst ->]|[[e He] _]]); [|done]. symmetry in Hst. by apply key_Store_pin in Hst as [_ ?].
Qed.

Lemma attempts_result address user auth attempts lastErr s tr :
  pins_kept s0 s -> every R tr ->
  wp (try_attempts c id address user auth attempts lastErr) s tr (fun r s' tr' =>
    pins_kept s0 s' /\ every R tr' /\ (is_ok r = true -> established id s' tr')).
Proof.
  revert lastErr s tr. induction attempts as [|algorithms attempts IH]; intros lastErr s tr Hs Htr; cbn [try_attempts]; [by wp_steps|].
  wp_step. eapply wp_mono; [by apply attempt_result|]. intros [[cn|e] acc] s1 tr1 (H1 & H2 & H3); cbn [fst is_ok] in H3.
  { wp_steps. split_and!; [done..|]. intros _. by apply H3. }
  destruct acc; [by wp_steps|]. wp_answer ended s2 Hs2. apply dial_step_keeps in Hs2.
  assert (every R (tr1 ++ [Ev DialEnded ended])) by by apply quiet_event.
  destruct (ended : bool); [wp_steps; split; [by etrans|done]|]. apply IH; [by etrans|done].
Qed.

Lemma connect_result address user auth :
  wp (connect c id address user auth) s0 [] (fun r s' tr' =>
    pins_kept s0 s' /\ every R tr' /\ (is_ok r = true -> established id s' tr')).
Proof.
  unfold connect. destruct (String.eqb _ ""); [by wp_steps; split_and!; [|apply every_nil|]|].
  wp_answer pinned s1 H1. apply dial_step_keeps in H1.
  assert (every R ([] ++ [Ev (KeyGet id) pinned])) by by apply quiet_event; [apply every_nil|].
  destruct pinned as [pin|e]; [by apply attempts_result|by wp_steps].
Qed.
End Connect.

(** C22. Host keys are pinned.  Over any store of host keys, and whatever
    other connections do with it meanwhile: no connection changes a key that
    is pinned; the password or a signature is sent only to a server that just
    showed the pinned key, or any key while none is pinned; and a connection
    that is returned is one to the server whose key is pinned for the
    deployment, which is the one pinned before if there was one. *)
Theorem connections_are_to_the_pinned_server c id address user credentials s0 :
  (forall s', crashes (ConnectInitial c id credentials) s0 s' \/ crashes (ConnectWithDeploymentKey c id address user) s0 s' -> pins_kept s0 s') /\
  always (ConnectInitial c id credentials) s0 (fun tr r s' =>
    every (to_the_pinned id (pin_of s0 id)) tr /\
    (is_ok r = true -> exists tr', tr = tr' ++ [Ev ClearCredentials tt] /\ established id s' tr')) /\
  always (ConnectWithDeploymentKey c id address user) s0 (fun tr r s' =>
    every (to_the_pinned id (pin_of s0 id)) tr /\ (is_ok r = true -> established id s' tr)).
Proof.
  assert (wp (ConnectInitial c id credentials) s0 [] (fun r s' tr => pins_kept s0 s' /\ every (to_the_pinned id (pin_of s0 id)) tr /\
    (is_ok r = true -> exists tr', tr = tr' ++ [Ev ClearCredentials tt] /\ established id s' tr'))) as Hi.
  { unfold ConnectInitial. destruct credentials as [i|]; [|wp_steps; split_and!; [done|apply every_nil|done]].
    destruct (_ || _); [wp_steps; split_and!; [done|apply every_nil|done]|].
    destruct (String.eqb (passwordString i) ""); [wp_steps; split_and!; [done|apply every_nil|done]|].
    apply <- @wp_finally. eapply wp_mono; [apply connect_result|]. intros r s1 tr1 (H1 & H2 & H3).
    apply wp_call. intros [] s2 Hs2. pose proof (dial_step_keeps _ _ _ _ _ Hs2) as Hk. split; [by etrans|]. split; [by apply quiet_event|].
    intros Hr. exists tr1. split; [done|]. destruct (H3 Hr) as (b & al & dg & k & u & au & bb & -> & Hp). do 7 eexists. split; [done|]. by apply Hk. }
  assert (wp (ConnectWithDeploymentKey c id address user) s0 [] (fun r s' tr => pins_kept s0 s' /\ every (to_the_pinned id (pin_of s0 id)) tr /\
    (is_ok r = true -> established id s' tr))) as Hk.
  { unfold ConnectWithDeploymentKey. destruct (_ || _); [wp_steps; split_and!; [done|apply every_nil|done]|]. apply connect_result. }
  assert (forall A (p : prog dialE A) s', crashes p s0 s' -> pins_kept s0 s') as Hcr.
  { intros A p s'. apply (crashes_calls_inv (fun _ _ => true) p (pins_kept s0)); [|intros; etrans; [done|by eapply dial_step_keeps]|done].
    by induction p. }
  split_and!; [by intros s' [H|H]; eapply Hcr| |].
  - apply wp_always. eapply wp_mono; [exact Hi|]. by intros r s tr (_ & H).
  - apply wp_always. eapply wp_mono; [exact Hk|]. by intros r s tr (_ & H).
Qed.
End Keys.
#[local] Existing Instance dial_env.
#[local] Existing Instance pins_kept_preorder.

(** A first connection to a server that shows one key. *)
Definition one_server (digest : string) : handler dialE MemoryHostKeyStore := fun X e s =>
  match e in dialE X return X * MemoryHostKeyStore with
  | KeyGet id => (key_Get id s, s)
  | KeyStore id fp => key_StoreIfAbsent id fp s
  | Dial _ _ => (true, s)
  | KeyExchange _ => (Some digest, s)
  | Authenticate _ _ => (true, s)
  | DialEnded => (false, s)
  | CloseTransport => (tt, s)
  | CloseClient => (tt, s)
  | ClearCredentials => (tt, s)
  end.

Lemma one_server_step digest X (e : dialE X) s : env_step e s (fst (one_server digest X e s)) (snd (one_server digest X e s)).
Proof.
  exists s. split; [reflexivity|]. destruct e; cbn; try done. by left.
Qed.

Lemma connections_are_to_the_pinned_server_witness :
  exists tr r s', runs (ConnectInitial (mkClient 1 1 1 1) "d" (Some (NewInitialCredentials (Addr4 1) "root" "pw"))) (∅ : MemoryHostKeyStore) tr (Ok r) s' /\
    pin_of s' "d" = Some "SHA256:abc" /\ every (to_the_pinned "d" None) tr.
Proof.
  pose proof (run_runs (one_server "abc") (ConnectInitial (mkClient 1 1 1 1) "d" (Some (NewInitialCredentials (Addr4 1) "root" "pw"))) ∅
    (one_server_step "abc")) as Hr.
  destruct (run _ _ _) as [[tr a] s] eqn:Heq. vm_compute in Heq. injection Heq as _ <- <-. eexists tr, _, _. split; [exact Hr|]. split; [done|].
  exact (proj1 (proj1 (proj2 (connections_are_to_the_pinned_server (mkClient 1 1 1 1) "d" (Addr4 1) "root"
    (Some (NewInitialCredentials (Addr4 1) "root" "pw")) (∅ : MemoryHostKeyStore))) _ _ _ Hr)).
Defined.
