(* ===== verification/SshCommand.v ===== *)
(** * Commands on a connection ([internal/ssh/command.go, authorized_keys.go])

    The bounded buffers of the output and [Connection.Run], which every stage
    runs its commands with, and the installation of the deployment key.  The
    session is golang.org/x/crypto/ssh. *)

From S2P Require Import Prelude GoStrings Effects GoFmt Certificates.
From S2P Require Import Remote Service SshClient.

#[local] Open Scope Z_scope.

(** ** [limitedBuffer] *)
Record limitedBuffer : Type := mkLimitedBuffer { lb_buffer : bytes; lb_limit : Z; lb_exceeded : bool }.

Definition newLimitedBuffer (limit : Z) : limitedBuffer := mkLimitedBuffer [] limit false.

Definition len (l : bytes) : Z := Z.of_nat (length l).

Definition Write (b : limitedBuffer) (value : bytes) : limitedBuffer :=
  let remaining := lb_limit b - len (lb_buffer b) in
  if remaining <? len value
  then mkLimitedBuffer (lb_buffer b ++ take (Z.to_nat remaining) value) (lb_limit b) true
  else mkLimitedBuffer (lb_buffer b ++ value) (lb_limit b) (lb_exceeded b).

(** ** Effects of a session

    [SessionWait] is the select of [Run]: whether the command's context ended
    first, the chunks written to the two outputs until [Wait] returned
    ([true] is stdout), and what it returned; a context that ends first closes
    the session.  [CommandContext] is [commandCtx.Err()]. *)
Inductive waitResult : Type := WaitOk | WaitExit (status : Z) | WaitFailed.

Inductive sessionE : Type -> Type :=
  | NewSession : sessionE bool
  | StartCommand (command : string) (stdin : option bytes) (timeout : Z) : sessionE bool
  | SessionWait : sessionE (option ctxErr * list (bool * bytes) * waitResult)
  | CommandContext : sessionE (option ctxErr)
  | SessionSince : sessionE Z
  | CloseSession : sessionE unit.

#[local] Notation M := (prog sessionE).

Record CommandRequest : Type := mkCommandRequest { rq_Command : string; rq_Stdin : option bytes; rq_Timeout : Z }.
Record CommandResult : Type := mkCommandResult {
  rs_Stdout : bytes; rs_Stderr : bytes; rs_ExitStatus : Z; rs_Duration : Z; rs_TimedOut : bool
}.

Inductive runErr : Type :=
  | SessionFailed
  | StartFailed
  | CommandCancelled (e : ctxErr)
  | ErrOutputLimitExceeded
  | CommandError (ExitStatus : Z)
  | NoExitStatus.

(** One chunk of output. *)
Definition write_output (buffers : limitedBuffer * limitedBuffer) (chunk : bool * bytes) : limitedBuffer * limitedBuffer :=
  let '(stdout, stderr) := buffers in
  if fst chunk then (Write stdout (snd chunk), stderr) else (stdout, Write stderr (snd chunk)).

Definition exit_status (w : waitResult) : Z := match w with WaitOk => 0 | WaitExit status => status | WaitFailed => -1 end.

(** The error of a command whose context has not ended. *)
Definition run_error (exceeded : bool) (w : waitResult) : option runErr :=
  if exceeded then Some ErrOutputLimitExceeded
  else match w with
       | WaitOk => None
       | WaitExit status => Some (CommandError status)
       | WaitFailed => Some NoExitStatus
       end.

Definition Run (c : Connection) (request : CommandRequest) : M (CommandResult * option runErr) :=
  let timeout := if rq_Timeout request <=? 0 then cn_defaultTimeout c else rq_Timeout request in
  opened ← call NewSession;
  if negb (opened : bool) then mret (mkCommandResult [] [] (-1) 0 false, Some SessionFailed)
  else finally
    (started ← call (StartCommand (rq_Command request) (rq_Stdin request) timeout);
     if negb (started : bool)
     then duration ← call SessionSince; mret (mkCommandResult [] [] (-1) duration false, Some StartFailed)
     else
       waited ← call SessionWait;
       let '(ended, chunks, w) := waited in
       let '(stdout, stderr) := fold_left write_output chunks (newLimitedBuffer (cn_stdoutLimit c), newLimitedBuffer (cn_stderrLimit c)) in
       duration ← call SessionSince;
       cancelled ← call CommandContext;
       let result status := mkCommandResult (lb_buffer stdout) (lb_buffer stderr) status duration (bool_decide (ended = Some DeadlineExceeded)) in
       mret match cancelled with
       | Some e => (result (-1), Some (CommandCancelled e))
       | None => (result (exit_status w), run_error (lb_exceeded stdout || lb_exceeded stderr) w)
       end)
    (call CloseSession).

(** ** The deployment key (authorized_keys.go)

    [ParseAuthorizedKey] and [MarshalAuthorizedKey] are the library's:
    [canonical_key] is the line they make of a key, if it is one. *)
Definition installAuthorizedKeyCommand : string := raw "set -eu
if [ `$(id -u)` -ne 0 ]; then exit 77; fi
umask 077
mkdir -p /root/.ssh
touch /root/.ssh/authorized_keys
chmod 700 /root/.ssh
chmod 600 /root/.ssh/authorized_keys
key=`$(cat)`
grep -qxF -- `$key` /root/.ssh/authorized_keys || printf '%s\n' `$key` >> /root/.ssh/authorized_keys".

Class AuthorizedKeys : Type := canonical_key : bytes -> option string.

Definition InstallDeploymentPublicKey `{AuthorizedKeys} (c : Connection) (authorizedKey : bytes) : M bool :=
  match canonical_key authorizedKey with
  | None => mret false
  | Some line =>
    r ← Run c (mkCommandRequest installAuthorizedKeyCommand (Some (bytes_of (TrimSpace line +:+ String chr_nl ""))) 0);
    mret match snd r with None => true | Some _ => false end
  end.

(** ** What a buffer keeps *)
Definition written_to (stream : bool) (chunks : list (bool * bytes)) : bytes :=
  concat (snd <$> List.filter (fun c => Bool.eqb (fst c) stream) chunks).

(** The state of a buffer after [written] was written to it. *)
Definition buffered (limit : Z) (written : bytes) (b : limitedBuffer) : Prop :=
  lb_limit b = limit /\ lb_buffer b = take (Z.to_nat limit) written /\ lb_exceeded b = (limit <? len written).

Lemma Write_buffered limit written b value :
  0 <= limit -> buffered limit written b -> buffered limit (written ++ value) (Write b value).
Proof.
  intros Hl (H1 & H2 & H3). unfold Write, buffered. rewrite H1. unfold len in *. rewrite H2, length_app.
  assert (length (take (Z.to_nat limit) written) = Nat.min (Z.to_nat limit) (length written)) as Hlen by apply length_take.
  destruct (_ - _ <? _) eqn:Hr; cbn; (split; [done|]).
  - apply Z.ltb_lt in Hr. rewrite take_app. split; [|symmetry; apply Z.ltb_lt; lia]. f_equal. f_equal. lia.
  - apply Z.ltb_ge in Hr. rewrite H3. split.
    + rewrite take_app, (take_ge value) by lia. done.
    + destruct (Z.ltb_spec limit (Z.of_nat (length written))); symmetry; [apply Z.ltb_lt|apply Z.ltb_ge]; lia.
Qed.

Lemma outputs_buffered out err chunks o e wo we :
  0 <= out -> 0 <= err -> buffered out wo o -> buffered err we e ->
  buffered out (wo ++ written_to true chunks) (fst (fold_left write_output chunks (o, e))) /\
  buffered err (we ++ written_to false chunks) (snd (fold_left write_output chunks (o, e))).
Proof.
  intros Ho He. revert o e wo we. induction chunks as [|[[] value] chunks IH]; intros o e wo we H1 H2; cbn.
  - unfold written_to. cbn. by rewrite !app_nil_r.
  - destruct (IH (Write o value) e (wo ++ value) we) as [H3 H4]; [by apply Write_buffered|done|].
    unfold written_to in *. cbn. by rewrite <-(app_assoc wo value) in H3.
  - destruct (IH o (Write e value) wo (we ++ value)) as [H3 H4]; [done|by apply Write_buffered|].
    unfold written_to in *. cbn. by rewrite <-(app_assoc we value) in H4.
Qed.

Lemma new_buffered limit : buffered limit [] (newLimitedBuffer limit) \/ limit < 0.
Proof.
  destruct (Z.lt_ge_cases limit 0); [by right|left]. unfold buffered, newLimitedBuffer. cbn. split; [done|]. rewrite take_nil.
  split; [done|]. symmetry. by apply Z.ltb_ge.
Qed.

(** What the session of a run reported. *)
Definition wait_of (ev : event sessionE) : option (option ctxErr * list (bool * bytes) * waitResult) :=
  match ev_op ev in sessionE X return X -> option (option ctxErr * list (bool * bytes) * waitResult) with
  | SessionWait => fun x => Some x
  | _ => fun _ => None
  end (ev_res ev).

Lemma run_error_none exceeded w : run_error exceeded w = None -> exceeded = false /\ w = WaitOk.
Proof. unfold run_error. destruct exceeded; [done|]. by destruct w. Qed.

(** Bounded output.  On a connection of a client, whatever the server
    sends, [Run] keeps of each stream at most its limit, and exactly the
    first bytes that were written; a command that is reported as successful
    ended with status 0 before its context, and nothing of its output is
    missing. *)
Theorem command_output_is_bounded_and_complete hasStore hasKey t1 t2 out err client request
  (Hclient : NewClient hasStore hasKey t1 t2 out err = Some client) :
  always (Run (connection_of client) request) tt (fun tr r _ =>
    (forall ended chunks w, (ended, chunks, w) ∈ omap wait_of tr ->
       rs_Stdout (fst r) = take (Z.to_nat out) (written_to true chunks) /\ len (rs_Stdout (fst r)) <= out /\
       rs_Stderr (fst r) = take (Z.to_nat err) (written_to false chunks) /\ len (rs_Stderr (fst r)) <= err) /\
    (snd r = None -> exists ended chunks, (ended, chunks, WaitOk) ∈ omap wait_of tr /\
       rs_ExitStatus (fst r) = 0 /\ rs_Stdout (fst r) = written_to true chunks /\ rs_Stderr (fst r) = written_to false chunks)).
Proof.
  assert (0 < out /\ 0 < err /\ connection_of client = mkConnection t2 out err) as (Ho & He & ->).
  { unfold NewClient in Hclient. destruct (_ || _) eqn:Hbad in Hclient; [done|]. injection Hclient as <-.
    rewrite !orb_false_iff, !Z.leb_gt in Hbad. cbn. naive_solver. }
  clear Hclient. apply wp_always. unfold Run. wp_answer opened s H1. destruct (negb opened).
  { wp_steps. split; [|done]. by intros ended chunks w Hin%not_elem_of_nil. }
  wp_answer started s2 H2. destruct (negb started).
  { wp_answer d s3 H3. wp_answer u s4 H4. wp_steps. split; [|done]. by intros ended chunks w Hin%not_elem_of_nil. }
  wp_answer waited s3 H3. destruct waited as [[ended chunks] w].
  destruct (new_buffered out) as [Hbo|]; [|lia]. destruct (new_buffered err) as [Hbe|]; [|lia].
  pose proof (outputs_buffered out err chunks _ _ _ _ ltac:(lia) ltac:(lia) Hbo Hbe) as [(_ & Hob & Hox) (_ & Heb & Hex)].
  cbn [cn_stdoutLimit cn_stderrLimit]. destruct (fold_left _ _ _) as [stdout stderr]. cbn [fst snd] in *.
  wp_answer d s4 H4. wp_answer cancelled s5 H5. wp_answer u s6 H6. wp_steps.
  rewrite !omap_app. cbn -[written_to len]. split.
  - intros ended' chunks' w' [= -> -> ->]%list_elem_of_singleton. destruct cancelled; cbn [fst rs_Stdout rs_Stderr]; rewrite Hob, Heb; cbn [app];
      unfold len; rewrite !length_take; split_and!; try done; lia.
  - destruct cancelled; [done|]. cbn [fst snd rs_ExitStatus rs_Stdout rs_Stderr]. intros [Hx ->]%run_error_none.
    rewrite Hox, Hex in Hx. cbn [app] in *. apply orb_false_iff in Hx as [Hx1%Z.ltb_ge Hx2%Z.ltb_ge]. unfold len in *.
    exists ended, chunks. split; [by apply list_elem_of_singleton|]. rewrite Hob, Heb, !take_ge by lia. done.
Qed.

Lemma command_output_is_bounded_and_complete_witness :
  exists tr r, runs (Run (connection_of (mkClient 1 1 4 4)) (mkCommandRequest "uname" None 0)) tt tr (r, None) tt /\
    rs_Stdout r = [76; 105; 110] /\ exists ended chunks, (ended, chunks, WaitOk) ∈ omap wait_of tr.
Proof.
  set (chunks := [(true, [76; 105]); (false, [33]); (true, [110])] : list (bool * bytes)).
  assert (exists tr r, runs (Run (connection_of (mkClient 1 1 4 4)) (mkCommandRequest "uname" None 0)) tt tr (r, None) tt /\
    rs_Stdout r = [76; 105; 110]) as (tr & r & Hr & Ho).
  { exists [Ev NewSession true; Ev (StartCommand "uname" None 1) true; Ev SessionWait (None, chunks, WaitOk);
            Ev SessionSince 5; Ev CommandContext None; Ev CloseSession tt]. eexists. split; [do 6 one_event; hnf; done|done]. }
  exists tr, r. split; [done|]. split; [done|].
  destruct (proj2 (command_output_is_bounded_and_complete true true 1 1 4 4 _ (mkCommandRequest "uname" None 0) eq_refl _ _ _ Hr) eq_refl)
    as (ended & chunks' & Hin & _). by exists ended, chunks'.
Defined.
