(* ===== verification/Monitoring.v ===== *)
(** * Health and metrics ([internal/health/server.go],
    [internal/metrics/registry.go])

    The life of the health server and its two probes, over the listener, the
    HTTP server and the context as an effect; and the counters with their
    exposition.  Counters are machine integers; the sums and the days are
    floating point numbers, which are a parameter. *)

From S2P Require Import Prelude GoStrings GoText Effects.

#[local] Open Scope Z_scope.

(** ** The health server

    [ready] is an atomic flag the handlers read at any time. *)

(** How [Serve] ended. *)
Inductive serveError : Type := ErrServerClosed | ServeFailed.
(** The winner of the [select]. *)
Inductive selected : Type := Served (e : serveError) | ContextDone.

Inductive healthE : Type -> Type :=
  | Listen (addr : string) : healthE bool
  | StoreReady (ready : bool) : healthE unit
  | GoServe : healthE unit
  | SelectServe : healthE selected
  | LogShutdown : healthE unit
  | Shutdown (timeout : Z) : healthE bool
  | WaitServe : healthE serveError
  (* a probe *)
  | LoadReady : healthE bool
  | Check (timeout : Z) : healthE bool.

Definition shutdownTimeout : Z := 10 * 1000000000.

Inductive healthErr : Type := ListenFailed | ServeError | ShutdownFailed.

Record Server : Type := mkServer { srv_Addr : string; srv_check : bool }.

(** [NewServer] has no dependency check. *)
Definition NewServerWithOptions (addr : string) (check : bool) : Server := mkServer addr check.
Definition NewServer (addr : string) : Server := NewServerWithOptions addr false.

Definition serve_result (e : serveError) : option healthErr := match e with ErrServerClosed => None | ServeFailed => Some ServeError end.

Definition Run (s : Server) : prog healthE (option healthErr) :=
  listening ← call (Listen (srv_Addr s));
  if negb (listening : bool) then mret (Some ListenFailed)
  else
    call (StoreReady true) ≫= fun _ => call GoServe ≫= fun _ =>
    winner ← call SelectServe;
    match winner with
    | Served e => call (StoreReady false) ≫= fun _ => mret (serve_result e)
    | ContextDone =>
      call (StoreReady false) ≫= fun _ => call LogShutdown ≫= fun _ =>
      stopped ← call (Shutdown shutdownTimeout);
      if negb (stopped : bool) then mret (Some ShutdownFailed)
      else e ← call WaitServe; mret (serve_result e)
    end.

(** A response: its status and its body. *)
Definition liveness : Z * string := (200, "ok" +:+ String (Ascii.ascii_of_nat 10) "").

Definition readiness (s : Server) : prog healthE (Z * string) :=
  ready ← call LoadReady;
  if negb (ready : bool) then mret (503, "not ready" +:+ String (Ascii.ascii_of_nat 10) "")
  else
    healthy ← (if srv_check s then call (Check (2 * 1000000000)) else mret true);
    if negb (healthy : bool) then mret (503, "dependency unavailable" +:+ String (Ascii.ascii_of_nat 10) "")
    else mret (200, "ready" +:+ String (Ascii.ascii_of_nat 10) "").

(** The flag of the process. *)
#[export] Instance health_env : Env healthE bool := fun X e s =>
  match e in healthE X return X -> bool -> Prop with
  | StoreReady ready => fun _ s' => s' = ready
  | LoadReady => fun a s' => a = s /\ s' = s
  | _ => fun _ s' => s' = s
  end.

(** The server says it is ready only while it serves: not before it listens,
    and not any more once it returned or began to shut down. *)
Definition serving_rule (s : Server) (past : list (event healthE)) (ev : event healthE) : Prop :=
  match ev_op ev with
  | StoreReady true => Ev (Listen (srv_Addr s)) true ∈ past
  | Shutdown _ => Ev (StoreReady false) tt ∈ past
  | _ => True
  end.

Lemma ready_only_while_serving s :
  wp (Run s) false [] (fun _ ready tr => ready = false /\ every (serving_rule s) tr).
Proof.
  unfold Run. wp_answer listening w1 Hw1. hnf in Hw1. subst w1.
  assert (every (serving_rule s) ([] ++ [Ev (Listen (srv_Addr s)) listening])) as H1 by (apply every_snoc; [apply every_nil|done]).
  destruct listening; cbn [negb]; [|by wp_steps].
  wp_answer u w2 Hw2. wp_answer v w3 Hw3. wp_answer winner w4 Hw4. destruct winner as [e|].
  - wp_answer w w5 Hw5. wp_steps. split; [done|].
    repeat (apply every_snoc; [|first [exact I | unfold serving_rule; cbn [ev_op]; in_past]]). apply every_nil.
  - wp_answer w w5 Hw5. wp_answer w' w6 Hw6. wp_answer stopped w7 Hw7. hnf in Hw5, Hw6, Hw7. destruct w, stopped; cbn [negb].
    + wp_answer e w8 Hw8. hnf in Hw8. wp_steps. split; [congruence|].
      repeat (apply every_snoc; [|first [exact I | unfold serving_rule; cbn [ev_op]; in_past]]). apply every_nil.
    + wp_steps. split; [congruence|]. repeat (apply every_snoc; [|first [exact I | unfold serving_rule; cbn [ev_op]; in_past]]). apply every_nil.
Qed.

Definition checked (ev : event healthE) : bool :=
  match ev with
  | @Ev _ _ op res => match op in healthE X return X -> bool with Check _ => fun healthy => healthy | _ => fun _ => false end res
  end.

(** The readiness probe succeeds exactly when the flag is set and the
    dependencies answered. *)
Lemma readiness_needs_both s ready :
  wp (readiness s) ready [] (fun r ready' tr => ready' = ready /\ (fst r = 200 <-> ready = true /\
    (srv_check s = true -> Ev (Check (2 * 1000000000)) true ∈ tr))).
Proof.
  unfold readiness. wp_answer a s1 Hs1. destruct Hs1 as [-> ->].
  destruct ready; cbn [negb]; [|wp_steps; split; [done|]; split; [done|by intros [? _]]].
  wp_step. destruct (srv_check s) eqn:Hc; [|wp_steps; cbn [negb]; wp_steps; split; [done|]; split; [by intros _; split|done]].
  wp_answer healthy s2 Hs2. hnf in Hs2. subst s2. destruct healthy; cbn [negb]; wp_steps.
  - split; [done|]. split; [intros _; split; [done|intros _; in_past]|done].
  - split; [done|]. split; [done|]. intros [_ H]. specialize (H eq_refl).
    rewrite elem_of_app, list_elem_of_singleton in H. destruct H as [H|H]; [apply list_elem_of_singleton in H|];
      by apply (f_equal checked) in H.
Qed.

(** ** The registry

    A method is one critical section or one atomic addition, so a registry
    used by many goroutines goes through some sequence of these operations. *)

Class Floats : Type := {
  float : Type;
  float_zero : float;
  float_add : float -> float -> float;
  Seconds : Z -> float;        (* [Duration.Seconds] *)
  Days : Z -> float;           (* [Duration.Hours() / 24] *)
  format_g : float -> string   (* the verb [%g] *)
}.

Definition wrap_uint64 (z : Z) : Z := z mod 2 ^ 64.

(** [escapeLabel]: backslash, quote and both line ends. *)
Definition quote_char : ascii := of_byte 34.
Definition backslash : ascii := of_byte 92.
Definition escapeLabel (value : string) : string :=
  let value := replace_byte_str backslash (String backslash (String backslash "")) value in
  let value := replace_byte_str quote_char (String backslash (String quote_char "")) value in
  let value := replace_byte_str chr_nl (String backslash "n") value in
  replace_byte_str chr_cr (String backslash "n") value.

Section Registry.
Context `{Floats}.

Record Registry : Type := mkRegistry {
  deploymentsTotal : Z; deploymentsFailedTotal : Z; activeDeployments : Z;
  remnawaveAPIErrors : Z; dnsAPIErrors : Z; certificateRenewalFailures : Z;
  deploymentDurationCount : Z; deploymentDurationSum : float;
  provisioningDurationCount : Z; provisioningDurationSum : float;
  certificateExpiryDays : gmap string float
}.

Definition New : Registry := mkRegistry 0 0 0 0 0 0 0 float_zero 0 float_zero ∅.

Definition inc (n : Z) : Z := wrap_uint64 (n + 1).

Definition DeploymentCreated (r : Registry) : Registry :=
  mkRegistry (inc (deploymentsTotal r)) (deploymentsFailedTotal r) (activeDeployments r) (remnawaveAPIErrors r) (dnsAPIErrors r)
    (certificateRenewalFailures r) (deploymentDurationCount r) (deploymentDurationSum r) (provisioningDurationCount r)
    (provisioningDurationSum r) (certificateExpiryDays r).
Definition DeploymentFailed (r : Registry) : Registry :=
  mkRegistry (deploymentsTotal r) (inc (deploymentsFailedTotal r)) (activeDeployments r) (remnawaveAPIErrors r) (dnsAPIErrors r)
    (certificateRenewalFailures r) (deploymentDurationCount r) (deploymentDurationSum r) (provisioningDurationCount r)
    (provisioningDurationSum r) (certificateExpiryDays r).
Definition ActiveDeployment (delta : Z) (r : Registry) : Registry :=
  mkRegistry (deploymentsTotal r) (deploymentsFailedTotal r) (wrap64 (activeDeployments r + delta)) (remnawaveAPIErrors r)
    (dnsAPIErrors r) (certificateRenewalFailures r) (deploymentDurationCount r) (deploymentDurationSum r)
    (provisioningDurationCount r) (provisioningDurationSum r) (certificateExpiryDays r).
Definition RemnawaveAPIError (r : Registry) : Registry :=
  mkRegistry (deploymentsTotal r) (deploymentsFailedTotal r) (activeDeployments r) (inc (remnawaveAPIErrors r)) (dnsAPIErrors r)
    (certificateRenewalFailures r) (deploymentDurationCount r) (deploymentDurationSum r) (provisioningDurationCount r)
    (provisioningDurationSum r) (certificateExpiryDays r).
Definition DNSAPIError (r : Registry) : Registry :=
  mkRegistry (deploymentsTotal r) (deploymentsFailedTotal r) (activeDeployments r) (remnawaveAPIErrors r) (inc (dnsAPIErrors r))
    (certificateRenewalFailures r) (deploymentDurationCount r) (deploymentDurationSum r) (provisioningDurationCount r)
    (provisioningDurationSum r) (certificateExpiryDays r).
Definition CertificateRenewalFailed (sni : string) (r : Registry) : Registry :=
  mkRegistry (deploymentsTotal r) (deploymentsFailedTotal r) (activeDeployments r) (remnawaveAPIErrors r) (dnsAPIErrors r)
    (inc (certificateRenewalFailures r)) (deploymentDurationCount r) (deploymentDurationSum r) (provisioningDurationCount r)
    (provisioningDurationSum r) (certificateExpiryDays r).
Definition DeploymentDuration (duration : Z) (r : Registry) : Registry :=
  mkRegistry (deploymentsTotal r) (deploymentsFailedTotal r) (activeDeployments r) (remnawaveAPIErrors r) (dnsAPIErrors r)
    (certificateRenewalFailures r) (inc (deploymentDurationCount r)) (float_add (deploymentDurationSum r) (Seconds duration))
    (provisioningDurationCount r) (provisioningDurationSum r) (certificateExpiryDays r).
Definition ProvisioningStepDuration (step : string) (duration : Z) (r : Registry) : Registry :=
  mkRegistry (deploymentsTotal r) (deploymentsFailedTotal r) (activeDeployments r) (remnawaveAPIErrors r) (dnsAPIErrors r)
    (certificateRenewalFailures r) (deploymentDurationCount r) (deploymentDurationSum r) (inc (provisioningDurationCount r))
    (float_add (provisioningDurationSum r) (Seconds duration)) (certificateExpiryDays r).
Definition SetCertificateExpiry (sni : string) (duration : Z) (r : Registry) : Registry :=
  mkRegistry (deploymentsTotal r) (deploymentsFailedTotal r) (activeDeployments r) (remnawaveAPIErrors r) (dnsAPIErrors r)
    (certificateRenewalFailures r) (deploymentDurationCount r) (deploymentDurationSum r) (provisioningDurationCount r)
    (provisioningDurationSum r) (<[escapeLabel sni := Days duration]> (certificateExpiryDays r)).

Definition line (name value : string) : string := name +:+ " " +:+ value +:+ String chr_nl "".

Definition expiry_line (days : gmap string float) (key : string) : string :=
  line ("certificate_expiry_days{sni=" +:+ String quote_char key +:+ String quote_char "}")
    (format_g (default float_zero (days !! key))).

(** The body [ServeHTTP] writes. *)
Definition ServeHTTP (r : Registry) : list string :=
  [line "deployments_total" (Itoa (deploymentsTotal r));
   line "deployments_failed_total" (Itoa (deploymentsFailedTotal r));
   line "active_deployments" (Itoa (activeDeployments r));
   line "deployment_duration_seconds_count" (Itoa (deploymentDurationCount r));
   line "deployment_duration_seconds_sum" (format_g (deploymentDurationSum r));
   line "provisioning_step_duration_seconds_count" (Itoa (provisioningDurationCount r));
   line "provisioning_step_duration_seconds_sum" (format_g (provisioningDurationSum r));
   line "remnawave_api_errors_total" (Itoa (remnawaveAPIErrors r));
   line "dns_api_errors_total" (Itoa (dnsAPIErrors r));
   line "certificate_renewal_failures_total" (Itoa (certificateRenewalFailures r))] ++
  (expiry_line (certificateExpiryDays r) <$> merge_sort str_le (map_to_list (certificateExpiryDays r)).*1).

(** [observe] of the two wrappers, after a call whose error is [failed]. *)
Definition observe_remnawave (failed : bool) (r : Registry) : Registry := if failed then RemnawaveAPIError r else r.
Definition observe_dns (failed : bool) (r : Registry) : Registry := if failed then DNSAPIError r else r.
End Registry.

(** ** Labels stay inside their quotes *)

(** Reads a label up to the quote that ends it: a backslash takes the next
    byte with it; a line end is no label. *)
Fixpoint label_end (s : string) : option string :=
  match s with
  | EmptyString => None
  | String a s' =>
    if Ascii.eqb a quote_char then Some s'
    else if Ascii.eqb a chr_nl || Ascii.eqb a chr_cr then None
    else if Ascii.eqb a backslash then match s' with String _ s'' => label_end s'' | EmptyString => None end
    else label_end s'
  end.

Definition escape_byte (a : ascii) : string :=
  if Ascii.eqb a backslash then String backslash (String backslash "")
  else if Ascii.eqb a quote_char then String backslash (String quote_char "")
  else if Ascii.eqb a chr_nl || Ascii.eqb a chr_cr then String backslash "n"
  else String a "".

Lemma escapeLabel_bytes a s : escapeLabel (String a s) = escape_byte a +:+ escapeLabel s.
Proof.
  unfold escapeLabel. cbn [replace_byte_str]. rewrite !replace_byte_str_app. f_equal.
  destruct a as [[] [] [] [] [] [] [] []]; vm_compute; reflexivity.
Qed.

Lemma label_end_escape a s : label_end (escape_byte a +:+ s) = label_end s.
Proof. destruct a as [[] [] [] [] [] [] [] []]; reflexivity. Qed.

(** Whatever a name holds, its label ends exactly at the quote written after
    it: no name can end its label, its line or add a sample. *)
Lemma labels_stay_in_their_quotes sni rest : label_end (escapeLabel sni +:+ String quote_char rest) = Some rest.
Proof.
  induction sni as [|a sni IH]; [done|]. by rewrite escapeLabel_bytes, string_app_assoc, label_end_escape.
Qed.

(** Two names that differ in the kind of a line end share a sample. *)
Lemma line_ends_share_a_label : escapeLabel (String chr_cr "") = escapeLabel (String chr_nl "").
Proof. done. Qed.
