(* ===== verification/Netplan.v ===== *)
(** * Netplan files

    What [internal/cherryip/service.go] and [internal/royalip/service.go]
    share, each with a copy of its own: the decoded YAML tree, the file names,
    the reading of the interface from [ip addr], and the effect both run on.
    YAML is the class [Yaml]; the order in which Go ranges over a map is the
    class [MapRange]. *)

From S2P Require Import Prelude GoStrings GoText NetIP NetIPFacts Effects Certificates Remote.

#[local] Open Scope Z_scope.

(** ** Decoded documents

    A value of type [any] as [yaml.Unmarshal] builds it: mappings with string
    keys are [map[string]any]; numbers, booleans, times and other mappings are
    [AOther].  [AStrings] is the [[]string] the program stores itself. *)
Inductive any : Type :=
  | ANil
  | AString (s : string)
  | AList (l : list any)
  | AStrings (l : list string)
  | AMap (m : gmap string any)
  | AOther (text : string).

Notation tree := (gmap string any) (only parsing).

Class Yaml : Type := {
  Unmarshal : bytes -> option tree;
  Marshal : tree -> option bytes
}.

(** [for key, value := range m]: some order of the entries. *)
Class MapRange : Type := {
  range_of : tree -> list (string * any);
  range_of_perm : forall m, range_of m ≡ₚ map_to_list m
}.

(** [m[key]]: the zero value of [any] where the key is missing. *)
Definition field (m : tree) (key : string) : any := default ANil (m !! key).

Definition stringMap (value : any) : option tree := match value with AMap m => Some m | _ => None end.

(** [value.(string)] with the zero value where it is no string. *)
Definition string_or_empty (value : any) : string := match value with AString s => s | _ => "" end.

(** ** Names *)
Notation slash := "/"%char.

(** [path.Clean]: empty and [.] elements are dropped and [..] removes the one
    before it; [out] is the result so far, the last element first. *)
Definition clean_step (rooted : bool) (out : list string) (e : string) : list string :=
  if String.eqb e "" || String.eqb e "." then out
  else if negb (String.eqb e "..") then e :: out
  else match out with
       | [] => if rooted then [] else [e]
       | e' :: out' => if String.eqb e' ".." then e :: out else out'
       end.

Definition path_Clean (value : string) : string :=
  if String.eqb value "" then "."
  else
    let rooted := HasPrefix value "/" in
    let elements := rev (fold_left (clean_step rooted) (Split value slash) []) in
    let s := (if rooted then "/" else "") +:+ Join elements "/" in
    if String.eqb s "" then "." else s.

(** [path.Base] of a cleaned path. *)
Definition path_Base (value : string) : string :=
  if String.eqb value "" then "."
  else
    match List.find (fun e => negb (String.eqb e "")) (rev (Split value slash)) with
    | None => "/"
    | Some e => e
    end.

Definition netplan_char (a : ascii) : bool :=
  byte_in 97 122 a || byte_in 65 90 a || byte_in 48 57 a || str_exists (Ascii.eqb a) "._-".

Definition safeNetplanPath (value : string) : bool :=
  if negb (HasPrefix value "/etc/netplan/") || negb (String.eqb (path_Clean value) value) then false
  else
    let base := path_Base value in
    if (str_len base =? 0) || (128 <? str_len base) || (negb (HasSuffix base ".yaml") && negb (HasSuffix base ".yml"))
    then false
    else str_forall netplan_char base.

Definition shellQuote (value : string) : string := "'" +:+ replace_byte_str "'" "'\''" value +:+ "'".

(** The pattern [^[A-Za-z0-9_.:-]{1,64}$]. *)
Definition interfaceName (value : string) : bool :=
  negb (String.eqb value "") && (str_len value <=? 64) &&
  str_forall (fun a => byte_in 97 122 a || byte_in 65 90 a || byte_in 48 57 a || str_exists (Ascii.eqb a) "_.:-") value.

(** The text before the first [@]. *)
Definition before_at (value : string) : string := default "" (head (Split value "@")).

(** One line of [ip -o addr show]: the interface of the address. *)
Definition line_interface (address line : string) : option string :=
  match Fields line with
  | _ :: f1 :: f2 :: f3 :: _ =>
    if String.eqb f2 "inet" && HasPrefix f3 (address +:+ "/") && interfaceName (before_at f1) then Some (before_at f1) else None
  | _ => None
  end.

(** [""]: no line has it. *)
Definition interfaceForIP (output address : string) : string :=
  default "" (head (omap (line_interface address) (Split output chr_nl))).

(** The entry is the one of the interface: by its key or by [set-name]. *)
Definition matchesInterface (key : string) (entry : tree) (iface : string) : bool :=
  String.eqb key iface || String.eqb (TrimSpace (string_or_empty (field entry "set-name"))) iface.

(** [document.network.ethernets]. *)
Definition ethernets_of (root : tree) : result string (tree * tree) :=
  match stringMap (field root "network") with
  | None => Err "network section is missing"
  | Some network =>
    match stringMap (field network "ethernets") with
    | None => Err "ethernets section is missing"
    | Some ethernets => Ok (network, ethernets)
    end
  end.

(** The document after [ethernets[key]], a mapping shared with it, became [entry]. *)
Definition with_entry (root network ethernets : tree) (key : string) (entry : tree) : tree :=
  <["network" := AMap (<["ethernets" := AMap (<[key := AMap entry]> ethernets)]> network)]> root.

(** ** Commands

    [HostRun] is a command on the connection; [HostConnect] and [HostClose]
    open and close it, [HostClear] overwrites the password kept for it, and
    [HostWait] is the timer between two attempts: [false] is the end of the
    operation's context. *)
Inductive hostE : Type -> Type :=
  | HostConnect (identity : string) (address : Addr) (password : string) : hostE bool
  | HostClose : hostE unit
  | HostClear (password : string) : hostE unit
  | HostWait : hostE bool
  | HostRun {X} (e : vpsE X) : hostE X.

Definition run (command : string) (stdin : bytes) (timeout : Z) : prog vpsE (option string) :=
  call (RunCommand false command stdin timeout).

Definition on_host {A} : prog vpsE A -> prog hostE A := interp (fun X e => call (HostRun e)).

Definition Second : Z := 1000000000.

Definition show_command : string := "ip -4 -o addr show".
Definition find_command : string := "find /etc/netplan -maxdepth 1 -type f \( -name '*.yaml' -o -name '*.yml' \) -print".
Definition cat_command (file : string) : string := "cat -- " +:+ shellQuote file.
Definition copy_command (source target : string) : string := "cp -- " +:+ shellQuote source +:+ " " +:+ shellQuote target.
Definition write_command (file : string) : string := "cat > " +:+ shellQuote file.
Definition cloud_init_command : string :=
  "test -f /etc/cloud/cloud.cfg.d/99-disable-network-config.cfg || printf '%s\n' 'network: {config: disabled}' > /etc/cloud/cloud.cfg.d/99-disable-network-config.cfg".

(** [strings.Fields] and [sort.Strings] of a listing. *)
Definition listed_files (stdout : string) : list string := insertion_sort str_ltb (Fields stdout).

Definition is_none {A} (x : option A) : bool := match x with None => true | Some _ => false end.

(** ** [netip.ParsePrefix] *)
Definition one_to_nine (s : string) : bool := match s with String a _ => byte_in 49 57 a | EmptyString => false end.

Definition ParsePrefix (s : string) : option (Addr * Z) :=
  match rev (Split s slash) with
  | bits :: (_ :: _) as front =>
    ip ← ParseAddr (Join (rev front) "/");
    if negb (String.eqb (Zone ip) "") || ((1 <? str_len bits) && negb (one_to_nine bits)) then None
    else
      n ← Atoi bits;
      if (n <? 0) || ((if Is4 ip then 32 else 128) <? n) then None else Some (ip, n)
  | _ => None
  end.
