(* ===== verification/CherryIP.v ===== *)
(** * Cherry Servers: a floating address

    Models [internal/cherryip/service.go]: the live address on the primary
    interface and its entry in a netplan file, with the backup and the
    rollback of that file. *)

From S2P Require Import Prelude GoStrings GoText NetIP NetIPFacts Effects Certificates Remote Netplan.

#[local] Open Scope Z_scope.

Inductive cherryErr : Type := ErrInvalidInput | ErrSSH | ErrInterface.
#[export] Instance cherryErr_eq_dec : EqDecision cherryErr.
Proof. solve_decision. Defined.

Definition maxCommandTimeout : Z := 30 * Second.
Definition maxRollbackTimeout : Z := 15 * Second.

Record Input : Type := mkInput { in_ServerIP : Addr; in_FloatingIP : Addr; in_Password : string }.
Record Result : Type := mkResult {
  res_Interface : string; res_LiveConfigured : bool; res_Persistent : bool; res_PersistentNote : string
}.

(** [New]: the timeout of every command. *)
Definition New (present : bool) (timeout : Z) : option Z :=
  if negb present || (timeout <=? 0) then None else Some (if maxCommandTimeout <? timeout then maxCommandTimeout else timeout).

(** ** The document *)
Fixpoint strings_of (l : list any) : option (list string) :=
  match l with
  | [] => Some []
  | AString s :: l' => cons s <$> strings_of l'
  | _ :: _ => None
  end.

Definition addressList (value : any) : result string (list string) :=
  match value with
  | ANil => Ok []
  | AList l => match strings_of l with Some l => Ok l | None => Err "netplan addresses must be strings" end
  | AStrings l => Ok l
  | _ => Err "netplan addresses must be a list"
  end.

(** What [addAddressToNetplan] returns: the document, the key of the entry,
    whether it changed, and the error. *)
Record update : Type := mkUpdate { up_document : bytes; up_key : string; up_changed : bool; up_err : option string }.

Section Document.
Context `{Yaml, MapRange} (document : bytes) (iface address : string).

(** The loop over [ethernets]. *)
Fixpoint add_to_entries (root network ethernets : gmap string any) (l : list (string * any)) : update :=
  match l with
  | [] => mkUpdate [] "" false None
  | (key, raw) :: l' =>
    match stringMap raw with
    | None => add_to_entries root network ethernets l'
    | Some entry =>
      if negb (matchesInterface key entry iface) then add_to_entries root network ethernets l'
      else
        match addressList (field entry "addresses") with
        | Err e => mkUpdate [] key false (Some e)
        | Ok addresses =>
          if existsb (String.eqb address) addresses then mkUpdate document key false None
          else
            match Marshal (with_entry root network ethernets key (<["addresses" := AStrings (addresses ++ [address])]> entry)) with
            | Some updated => mkUpdate updated key true None
            | None => mkUpdate [] key false (Some "yaml")
            end
        end
    end
  end.

Definition addAddressToNetplan : update :=
  match Unmarshal document with
  | None => mkUpdate [] "" false (Some "yaml")
  | Some root =>
    match ethernets_of root with
    | Err e => mkUpdate [] "" false (Some e)
    | Ok (network, ethernets) => add_to_entries root network ethernets (range_of ethernets)
    end
  end.
End Document.

(** ** The files *)
Section Persist.
Context `{Yaml, MapRange} (iface : string) (floatingIP : Addr) (timeout : Z).

Definition backup_of (filename : string) : string := filename +:+ ".bak-cherrybot".

Definition rollbackNetplan (filename backup : string) : prog vpsE unit :=
  let timeout := if maxRollbackTimeout <? timeout then maxRollbackTimeout else timeout in
  _ ← call (RunCommand true (copy_command backup filename) [] timeout);
  _ ← call (RunCommand true "netplan apply" [] timeout);
  mret tt.

(** From the backup on, for the file chosen. *)
Definition replace_file (filename : string) (updated : bytes) : prog vpsE (bool * string) :=
  let backup := backup_of filename in
  copied ← run (copy_command filename backup) [] timeout;
  match copied with
  | None => mret (false, "не удалось создать резервную копию " +:+ filename)
  | Some _ =>
    written ← run (write_command filename) updated timeout;
    match written with
    | None => _ ← rollbackNetplan filename backup; mret (false, "не удалось записать " +:+ filename +:+ "; исходный файл восстановлен")
    | Some _ =>
      generated ← run "netplan generate" [] timeout;
      match generated with
      | None => _ ← rollbackNetplan filename backup; mret (false, "netplan не принял конфигурацию; исходный файл восстановлен")
      | Some _ =>
        _ ← run cloud_init_command [] timeout;
        applied ← run "netplan apply" [] timeout;
        match applied with
        | None => _ ← rollbackNetplan filename backup; mret (false, "netplan apply завершился ошибкой; исходный файл восстановлен")
        | Some _ => mret (true, "добавлено в " +:+ filename +:+ "; резервная копия: " +:+ backup)
        end
      end
    end
  end.

Definition nothing_found (found_any seen_any : bool) : string :=
  if negb found_any then "netplan-конфиг в /etc/netplan не найден"
  else if seen_any then "интерфейс " +:+ iface +:+ " не найден в подходящей netplan-записи"
  else "подходящий netplan-конфиг не найден".

(** The loop over the files; [seen] is [len(seen) > 0]. *)
Fixpoint try_files (found_any : bool) (l : list string) (seen : bool) : prog vpsE (bool * string) :=
  match l with
  | [] => mret (false, nothing_found found_any seen)
  | filename :: l' =>
    if negb (safeNetplanPath filename) then try_files found_any l' seen
    else
      read ← run (cat_command filename) [] timeout;
      match read with
      | None => try_files found_any l' seen
      | Some stdout =>
        let u := addAddressToNetplan (bytes_of stdout) iface (addr_string floatingIP +:+ "/32") in
        let seen := seen || negb (String.eqb (up_key u) "") in
        if negb (is_none (up_err u)) || String.eqb (up_key u) "" then try_files found_any l' seen
        else if negb (up_changed u) then mret (true, "адрес уже присутствует в " +:+ filename)
        else replace_file filename (up_document u)
      end
  end.

Definition persistNetplan : prog vpsE (bool * string) :=
  listed ← run find_command [] timeout;
  match listed with
  | None => mret (false, "не удалось получить список netplan-конфигов")
  | Some stdout =>
    let files := listed_files stdout in
    try_files (negb (bool_decide (files = []))) files false
  end.
End Persist.

(** ** The operation *)
Section Configure.
Context `{Yaml, MapRange}.

Definition configure (serverIP floatingIP : Addr) (timeout : Z) : prog vpsE (result cherryErr Result) :=
  if negb (Is4 serverIP) || negb (Is4 floatingIP) || (timeout <=? 0) then mret (Err ErrInvalidInput)
  else
    addresses ← run show_command [] timeout;
    match addresses with
    | None => mret (Err ErrSSH)
    | Some stdout =>
      let iface := interfaceForIP stdout (addr_string serverIP) in
      if String.eqb iface "" then mret (Err ErrInterface)
      else
        _ ← run ("ip addr add " +:+ addr_string floatingIP +:+ "/32 dev " +:+ iface) [] timeout;
        check ← run ("ip -4 -o addr show dev " +:+ iface) [] timeout;
        match check with
        | None => mret (Err ErrSSH)
        | Some shown =>
          if negb (Contains shown (addr_string floatingIP +:+ "/32")) then mret (Err ErrSSH)
          else
            persisted ← persistNetplan iface floatingIP timeout;
            mret (Ok (mkResult iface true (fst persisted) (snd persisted)))
        end
    end.

Definition valid_input (input : Input) : bool :=
  let serverIP := Unmap (in_ServerIP input) in
  let floatingIP := Unmap (in_FloatingIP input) in
  negb (negb (IsValid serverIP) || negb (Is4 serverIP) || negb (IsValid floatingIP) || negb (Is4 floatingIP) ||
        bool_decide (serverIP = floatingIP) || String.eqb (in_Password input) "").

Definition Configure (timeout : Z) (input : Input) : prog hostE (result cherryErr Result) :=
  let serverIP := Unmap (in_ServerIP input) in
  let floatingIP := Unmap (in_FloatingIP input) in
  if negb (valid_input input) then mret (Err ErrInvalidInput)
  else
    finally
      (connected ← call (HostConnect ("cherry-server:" +:+ addr_string serverIP) serverIP (in_Password input));
       if negb (connected : bool) then mret (Err ErrSSH)
       else finally (on_host (configure serverIP floatingIP timeout)) (call HostClose))
      (call (HostClear (in_Password input))).
End Configure.
