(* ===== verification/RoyalIP.v ===== *)
(** * Royal Hosting: another primary address

    Models [internal/royalip/service.go]: the primary address and the default
    gateway in a netplan file, the script that applies it after the session
    and takes it back unless the new address is confirmed, and the
    confirmation over the new address. *)

From S2P Require Import Prelude GoStrings GoText NetIP NetIPFacts Effects Certificates Remote Netplan.

#[local] Open Scope Z_scope.

Inductive royalErr : Type := ErrInvalidInput | ErrSSH | ErrInterface | ErrNetplan | ErrVerification.
#[export] Instance royalErr_eq_dec : EqDecision royalErr.
Proof. solve_decision. Defined.

Definition maxCommandTimeout : Z := 30 * Second.
Definition maxOperationTimeout : Z := 90 * Second.
Definition reconnectInterval : Z := 2 * Second.
Definition autoRollbackDelay : Z := 45 * Second.

Record Input : Type := mkInput { in_ServerIP : Addr; in_NewIP : Addr; in_Password : string }.
Record Result : Type := mkResult {
  res_Interface : string; res_PrefixBits : Z; res_Gateway : Addr; res_NetplanFile : string; res_BackupFile : string
}.

Definition New (present : bool) (timeout : Z) : option Z :=
  if negb present || (timeout <=? 0) then None else Some (if maxCommandTimeout <? timeout then maxCommandTimeout else timeout).

(** ** The document *)
Definition gatewayFor (address : Addr) : Addr :=
  match Unmap address with Addr4 v => Addr4 (Z.land v 4294967040 + 1) | a => a end.

Fixpoint all_strings (l : list any) : option (list string) :=
  match l with
  | [] => Some []
  | AString s :: l' => cons s <$> all_strings l'
  | _ :: _ => None
  end.

Definition stringList (value : any) : result string (list string) :=
  match value with
  | AList l => match all_strings l with Some l => Ok l | None => Err "netplan list values must be strings" end
  | AStrings l => Ok l
  | _ => Err "netplan value must be a list"
  end.

Fixpoint all_maps (l : list any) : option (list (gmap string any)) :=
  match l with
  | [] => Some []
  | AMap m :: l' => cons m <$> all_maps l'
  | _ :: _ => None
  end.

Definition mapList (value : any) : result string (list (gmap string any)) :=
  match value with
  | AList l => match all_maps l with Some l => Ok l | None => Err "netplan routes must contain mappings" end
  | _ => Err "netplan routes must be a list"
  end.

Definition mapsToAny (values : list (gmap string any)) : list any := AMap <$> values.

(** The first address of the list that is [oldIP] becomes [newIP] with the
    same prefix; the bits are 0 where there is none. *)
Fixpoint replace_address (oldIP newIP : Addr) (l : list string) : list string * Z :=
  match l with
  | [] => ([], 0)
  | value :: l' =>
    match ParsePrefix (TrimSpace value) with
    | Some (ip, bits) =>
      if bool_decide (Unmap ip = oldIP) then ((addr_string newIP +:+ "/" +:+ Itoa bits) :: l', bits)
      else let '(l', bits) := replace_address oldIP newIP l' in (value :: l', bits)
    | None => let '(l', bits) := replace_address oldIP newIP l' in (value :: l', bits)
    end
  end.

(** A default IPv4 route. *)
Definition default_route (route : gmap string any) : bool :=
  let to := TrimSpace (string_or_empty (field route "to")) in
  (String.eqb to "default" || String.eqb to "0.0.0.0/0") &&
  match ParseAddr (TrimSpace (string_or_empty (field route "via"))) with Some via => Is4 (Unmap via) | None => false end.

Definition with_gateway (gateway : Addr) (route : gmap string any) : gmap string any :=
  if default_route route then <["via" := AString (addr_string gateway)]> route else route.

(** What [replaceIPv4AndGateway] returns. *)
Record update : Type := mkUpdate {
  up_document : bytes; up_key : string; up_bits : Z; up_gateway : Addr; up_err : option string
}.
Definition failed (key e : string) : update := mkUpdate [] key 0 AddrInvalid (Some e).

Section Document.
Context `{Yaml, MapRange} (document : bytes) (iface : string) (oldIP newIP : Addr).

Definition replace_in_entry (root network ethernets : gmap string any) (key : string) (entry : gmap string any) : update :=
  match stringList (field entry "addresses") with
  | Err e => failed key e
  | Ok addresses =>
    let '(addresses, bits) := replace_address oldIP newIP addresses in
    if bits =? 0 then failed key "current IPv4 address is missing from netplan"
    else
      let gateway := gatewayFor newIP in
      match mapList (field entry "routes") with
      | Err e => failed key e
      | Ok routes =>
        if negb (existsb default_route routes) then failed key "default IPv4 route is missing from netplan"
        else
          let entry := <["routes" := AList (mapsToAny (with_gateway gateway <$> routes))]> (<["addresses" := AStrings addresses]> entry) in
          match Marshal (with_entry root network ethernets key entry) with
          | Some updated => mkUpdate updated key bits gateway None
          | None => mkUpdate [] key bits gateway (Some "yaml")
          end
      end
  end.

Fixpoint replace_in_entries (root network ethernets : gmap string any) (l : list (string * any)) : update :=
  match l with
  | [] => mkUpdate [] "" 0 AddrInvalid None
  | (key, raw) :: l' =>
    match stringMap raw with
    | None => replace_in_entries root network ethernets l'
    | Some entry =>
      if negb (matchesInterface key entry iface) then replace_in_entries root network ethernets l'
      else replace_in_entry root network ethernets key entry
    end
  end.

Definition replaceIPv4AndGateway : update :=
  match Unmarshal document with
  | None => failed "" "yaml"
  | Some root =>
    match ethernets_of root with
    | Err e => failed "" e
    | Ok (network, ethernets) => replace_in_entries root network ethernets (range_of ethernets)
    end
  end.
End Document.

(** ** The files *)
Definition backup_of (filename : string) : string := filename +:+ ".bak-royalbot".

Section Prepare.
Context `{Yaml, MapRange} (oldIP newIP : Addr) (timeout : Z).

Definition rollbackPreparedNetplan (filename backup : string) : prog vpsE unit :=
  _ ← call (RunCommand true (copy_command backup filename) [] timeout);
  _ ← call (RunCommand true "netplan generate" [] timeout);
  mret tt.

Definition replace_file (iface filename : string) (u : update) : prog vpsE (result royalErr Result) :=
  let backup := backup_of filename in
  copied ← run (copy_command filename backup) [] timeout;
  match copied with
  | None => mret (Err ErrSSH)
  | Some _ =>
    written ← run (write_command filename) (up_document u) timeout;
    match written with
    | None => _ ← rollbackPreparedNetplan filename backup; mret (Err ErrSSH)
    | Some _ =>
      generated ← run "netplan generate" [] timeout;
      match generated with
      | None => _ ← rollbackPreparedNetplan filename backup; mret (Err ErrNetplan)
      | Some _ =>
        _ ← run cloud_init_command [] timeout;
        mret (Ok (mkResult iface (up_bits u) (up_gateway u) filename backup))
      end
    end
  end.

Fixpoint try_files (iface : string) (l : list string) : prog vpsE (result royalErr Result) :=
  match l with
  | [] => mret (Err ErrNetplan)
  | filename :: l' =>
    if negb (safeNetplanPath filename) then try_files iface l'
    else
      read ← run (cat_command filename) [] timeout;
      match read with
      | None => try_files iface l'
      | Some stdout =>
        let u := replaceIPv4AndGateway (bytes_of stdout) iface oldIP newIP in
        if String.eqb (up_key u) "" then try_files iface l'
        else if negb (is_none (up_err u)) then mret (Err ErrNetplan)
        else replace_file iface filename u
      end
  end.

Definition prepareNetplan : prog vpsE (result royalErr Result) :=
  addresses ← run show_command [] timeout;
  match addresses with
  | None => mret (Err ErrSSH)
  | Some stdout =>
    let iface := interfaceForIP stdout (addr_string oldIP) in
    if String.eqb iface "" then mret (Err ErrInterface)
    else
      listed ← run find_command [] timeout;
      match listed with
      | None => mret (Err ErrSSH)
      | Some stdout => try_files iface (listed_files stdout)
      end
  end.
End Prepare.

(** ** The script that applies the file after the session *)
Definition confirmationMarker (newIP : Addr) : string :=
  "/run/remnanode-royal-confirmed-" +:+ replace_byte "." "-" (addr_string newIP).

Definition nl : string := String chr_nl "".

Definition scheduled_script (filename backup marker : string) : string :=
  "sleep 2" +:+ nl +:+
  "if ! netplan apply; then " +:+ copy_command backup filename +:+ "; netplan apply; exit 1; fi" +:+ nl +:+
  "sleep " +:+ Itoa (autoRollbackDelay / Second) +:+ nl +:+
  "if [ ! -f " +:+ marker +:+ " ]; then " +:+ copy_command backup filename +:+ "; netplan apply; fi".

Definition scheduledApplyCommand (filename backup marker : string) : string :=
  "rm -f -- " +:+ marker +:+ " && nohup sh -c " +:+ shellQuote (scheduled_script filename backup marker) +:+
  " >/var/log/remnanode-royal-netplan.log 2>&1 </dev/null &".

(** ** The operation *)
Section Configure.
Context `{Yaml, MapRange} (timeout : Z).

(** [connect]: the credentials made for it are cleared when it returns. *)
Definition connect (identity : string) (address : Addr) (password : string) : prog hostE bool :=
  finally (call (HostConnect identity address password)) (call (HostClear password)).

(** The confirmation over the new address: the marker exists afterwards. *)
Definition confirm (result : Result) (newIP : Addr) (marker : string) : prog hostE bool :=
  check ← on_host (run ("ip -4 -o addr show dev " +:+ res_Interface result) [] timeout);
  match check with
  | Some shown =>
    if Contains shown (addr_string newIP +:+ "/")
    then
      touched ← on_host (run ("touch -- " +:+ marker) [] timeout);
      _ ← call HostClose;
      mret (negb (is_none touched))
    else _ ← call HostClose; mret false
  | None => _ ← call HostClose; mret false
  end.

(** The loop of attempts. Every round but a successful one waits
    [reconnectInterval] of the operation's time, so after
    [reconnect_rounds] rounds the operation's context has ended. *)
Fixpoint verify (rounds : nat) (identity : string) (input : Input) (found : Result) (newIP : Addr) (marker : string)
    : prog hostE (result royalErr Result) :=
  match rounds with
  | O => mret (Err ErrVerification)
  | S rounds =>
    ended ← call (HostRun (VpsCtxDone false));
    if (ended : bool) then mret (Err ErrVerification)
    else
      connected ← connect identity newIP (in_Password input);
      confirmed ← (if (connected : bool) then confirm found newIP marker else mret false);
      if (confirmed : bool) then mret (Ok found)
      else
        waited ← call HostWait;
        if negb (waited : bool) then mret (Err ErrVerification)
        else verify rounds identity input found newIP marker
  end.

Definition reconnect_rounds : nat := Z.to_nat (maxOperationTimeout / reconnectInterval + 1).

Definition valid_input (input : Input) : bool :=
  let oldIP := Unmap (in_ServerIP input) in
  let newIP := Unmap (in_NewIP input) in
  negb (negb (IsValid oldIP) || negb (Is4 oldIP) || negb (IsValid newIP) || negb (Is4 newIP) ||
        bool_decide (oldIP = newIP) || String.eqb (in_Password input) "").

(** Over the old address: the prepared file, and its application scheduled. *)
Definition schedule (oldIP newIP : Addr) : prog vpsE (result royalErr Result) :=
  prepared ← prepareNetplan oldIP newIP timeout;
  match prepared with
  | Err e => mret (Err e)
  | Ok result =>
    scheduled ← run (scheduledApplyCommand (res_NetplanFile result) (res_BackupFile result) (confirmationMarker newIP)) [] timeout;
    match scheduled with
    | None => _ ← rollbackPreparedNetplan timeout (res_NetplanFile result) (res_BackupFile result); mret (Err ErrSSH)
    | Some _ => mret (Ok result)
    end
  end.

Definition Configure (input : Input) : prog hostE (result royalErr Result) :=
  let oldIP := Unmap (in_ServerIP input) in
  let newIP := Unmap (in_NewIP input) in
  if negb (valid_input input) then mret (Err ErrInvalidInput)
  else
    let identity := "royal-server:" +:+ addr_string oldIP in
    connected ← connect identity oldIP (in_Password input);
    if negb (connected : bool) then mret (Err ErrSSH)
    else
      prepared ← on_host (schedule oldIP newIP);
      _ ← call HostClose;
      match prepared with
      | Err e => mret (Err e)
      | Ok result => verify reconnect_rounds identity input result newIP (confirmationMarker newIP)
      end.
End Configure.
