(* ===== verification/NetplanFacts.v ===== *)
(** * The files of a netplan server

    The commands of Netplan.v on a server: what each does to the files, that
    the server reads the words the program quotes, and that one rule keeps
    the original of a netplan file through every failure and every cut. *)

From S2P Require Import Prelude GoStrings GoText NetIP NetIPFacts Effects Certificates Remote Netplan RoyalIP.

#[local] Open Scope Z_scope.

(** ** Words of the shell

    The words the program quotes: pieces in quotes, joined by an escaped
    quote.  The text of the word, and what follows it. *)
Fixpoint quoted_rest (s : string) : option (string * string) :=
  match s with
  | EmptyString => None
  | String a s' =>
    if Ascii.eqb a "'" then
      match s' with
      | String b (String c (String d s2)) =>
        if Ascii.eqb b "\" && Ascii.eqb c "'" && Ascii.eqb d "'"
        then '(w, rest) ← quoted_rest s2; Some (String "'" w, rest)
        else Some ("", s')
      | _ => Some ("", s')
      end
    else '(w, rest) ← quoted_rest s'; Some (String a w, rest)
  end.

Definition quoted_word (s : string) : option (string * string) :=
  match s with String "'" s' => quoted_rest s' | _ => None end.

Lemma quoted_rest_quote w rest :
  HasPrefix rest "\''" = false -> quoted_rest (replace_byte_str "'" "'\''" w +:+ String "'" rest) = Some (w, rest).
Proof.
  intros Hrest. induction w as [|a w IH].
  - cbn [replace_byte_str]. rewrite string_app_nil. destruct rest as [|b [|c [|d rest]]]; try done. cbn in Hrest |- *.
    destruct (Ascii.eqb b "\"), (Ascii.eqb c "'"), (Ascii.eqb d "'"); try done. by destruct rest.
  - cbn [replace_byte_str]. destruct (Ascii.eqb a "'") eqn:Ha.
    + apply Ascii.eqb_eq in Ha as ->. rewrite string_app_assoc, !string_app_cons, string_app_nil. cbn. by rewrite IH.
    + rewrite string_app_assoc, string_app_cons, string_app_nil. cbn. by rewrite Ha, IH.
Qed.

Lemma quoted_word_quote w rest :
  HasPrefix rest "\''" = false -> quoted_word (shellQuote w +:+ rest) = Some (w, rest).
Proof. intros H. unfold shellQuote. rewrite !string_app_assoc, !string_app_cons, !string_app_nil. cbn. by apply quoted_rest_quote. Qed.

Lemma quoted_word_end w : quoted_word (shellQuote w) = Some (w, "").
Proof. rewrite <-(string_app_nil_r (shellQuote w)). by apply quoted_word_quote. Qed.

(** ** What a command does to files *)
Inductive fileCommand : Type :=
  | ReadFile (f : string)
  | CopyFile (source target : string)
  | WriteFile (f : string)
  | ScheduleRestore (f backup : string)
  | Elsewhere.

(** The two files of the script that [scheduledApplyCommand] leaves running. *)
Fixpoint from_quote (s : string) : string :=
  match s with EmptyString => "" | String a s' => if Ascii.eqb a "'" then s else from_quote s' end.

Definition script_start : string := "sleep 2" +:+ nl +:+ "if ! netplan apply; then cp -- ".

Definition read_schedule (command : string) : fileCommand :=
  match quoted_word (from_quote command) with
  | Some (script, _) =>
    match quoted_word (str_drop (String.length script_start) script) with
    | Some (backup, String " " rest) => match quoted_word rest with Some (f, _) => ScheduleRestore f backup | None => Elsewhere end
    | _ => Elsewhere
    end
  | None => Elsewhere
  end.

Definition read_command (command : string) : fileCommand :=
  if HasPrefix command "cat -- " then
    match quoted_word (str_drop 7 command) with Some (f, EmptyString) => ReadFile f | _ => Elsewhere end
  else if HasPrefix command "cp -- " then
    match quoted_word (str_drop 6 command) with
    | Some (a, String " " rest) => match quoted_word rest with Some (b, EmptyString) => CopyFile a b | _ => Elsewhere end
    | _ => Elsewhere
    end
  else if HasPrefix command "cat > " then
    match quoted_word (str_drop 6 command) with Some (f, EmptyString) => WriteFile f | _ => Elsewhere end
  else if HasPrefix command "rm -f -- " then read_schedule command
  else Elsewhere.

Lemma read_cat f : read_command (cat_command f) = ReadFile f.
Proof. unfold cat_command, read_command. rewrite !string_app_cons, !string_app_nil. cbn [HasPrefix Ascii.eqb]. cbn -[quoted_word shellQuote]. by rewrite quoted_word_end. Qed.

Lemma read_copy a b : read_command (copy_command a b) = CopyFile a b.
Proof.
  unfold copy_command, read_command. rewrite !string_app_cons, !string_app_nil. cbn -[quoted_word shellQuote].
  rewrite quoted_word_quote by done. by rewrite quoted_word_end.
Qed.

Lemma read_write f : read_command (write_command f) = WriteFile f.
Proof. unfold write_command, read_command. rewrite !string_app_cons, !string_app_nil. cbn -[quoted_word shellQuote]. by rewrite quoted_word_end. Qed.

Lemma from_quote_skip s t : str_exists (Ascii.eqb "'") s = false -> from_quote (s +:+ String "'" t) = String "'" t.
Proof.
  induction s as [|a s IH]; [done|]. rewrite string_app_cons. cbn [str_exists from_quote].
  intros [Ha Hs]%orb_false_iff. rewrite Ascii.eqb_sym, Ha. by apply IH.
Qed.

Lemma read_rm command : HasPrefix command "rm -f -- " = true -> read_command command = read_schedule command.
Proof.
  intros H. unfold read_command. rewrite H.
  destruct command as [|a command]; [done|]. cbn in H. apply andb_true_iff in H as [->%Ascii.eqb_eq _]. done.
Qed.

Lemma copy_then a b t : copy_command a b +:+ t = "cp -- " +:+ shellQuote a +:+ String " " (shellQuote b +:+ t).
Proof. unfold copy_command. by rewrite !string_app_assoc. Qed.

Lemma shellQuote_then w t : shellQuote w +:+ t = String "'" (replace_byte_str "'" "'\''" w +:+ String "'" t).
Proof. unfold shellQuote. by rewrite !string_app_assoc. Qed.

Lemma read_scheduled f b marker :
  str_exists (Ascii.eqb "'") marker = false -> read_command (scheduledApplyCommand f b marker) = ScheduleRestore f b.
Proof.
  intros Hm. rewrite read_rm by by destruct marker. unfold read_schedule, scheduledApplyCommand.
  set (script := scheduled_script f b marker). set (log := " >/var/log/remnanode-royal-netplan.log 2>&1 </dev/null &").
  assert (from_quote ("rm -f -- " +:+ marker +:+ " && nohup sh -c " +:+ shellQuote script +:+ log) = shellQuote script +:+ log) as ->.
  { rewrite shellQuote_then, <-!string_app_assoc. apply from_quote_skip. by rewrite !str_exists_app, Hm. }
  rewrite quoted_word_quote by done.
  set (t := "; netplan apply; exit 1; fi" +:+ nl +:+ "sleep " +:+ Itoa (autoRollbackDelay / Second) +:+ nl +:+
    "if [ ! -f " +:+ marker +:+ " ]; then " +:+ copy_command b f +:+ "; netplan apply; fi").
  assert (script = script_start +:+ shellQuote b +:+ String " " (shellQuote f +:+ t)) as ->.
  { unfold script, scheduled_script. by rewrite (copy_then b f). }
  replace (String.length script_start) with (String.length script_start + 0)%nat by lia.
  rewrite str_drop_app. cbn [str_drop]. rewrite quoted_word_quote by done. by rewrite quoted_word_quote.
Qed.

(** ** The server *)

(** The files, the two files of the script left running, and whether that
    script has begun to write its file. *)
Record server : Type := mkServer { sv_files : gmap string bytes; sv_scheduled : option (string * string); sv_restoring : bool }.

(** Nothing, or the script left running writes its file, at any moment. *)
Definition background (s s' : server) : Prop :=
  s' = s \/
  exists f b, sv_scheduled s = Some (f, b) /\ sv_scheduled s' = Some (f, b) /\ sv_restoring s' = true /\
    forall g, g <> f -> sv_files s' !! g = sv_files s !! g.

Lemma background_scheduled s s' : background s s' -> sv_scheduled s' = sv_scheduled s.
Proof. intros [->|(f & b & -> & -> & _)]; done. Qed.
Lemma background_others s s' g :
  background s s' -> (forall f b, sv_scheduled s = Some (f, b) -> g <> f) -> sv_files s' !! g = sv_files s !! g.
Proof. intros [->|(f & b & Hs & _ & _ & H)] Hg; [done|]. by eapply H, Hg. Qed.
Lemma background_idle s s' : background s s' -> sv_scheduled s = None -> s' = s.
Proof. by intros [->|(f & b & -> & _)]. Qed.

(** A command that succeeded did its work; one that failed, or was cut off,
    left anything in the file it was writing. *)
Definition command_step (k : fileCommand) (stdin : bytes) (r : option string) (s s' : server) : Prop :=
  match k with
  | ReadFile f => s' = s /\ forall out, r = Some out -> sv_files s !! f = Some (bytes_of out)
  | CopyFile a b =>
    sv_scheduled s' = sv_scheduled s /\ sv_restoring s' = sv_restoring s /\
    (forall g, g <> b -> sv_files s' !! g = sv_files s !! g) /\
    (is_Some r -> is_Some (sv_files s !! a) /\ sv_files s' !! b = sv_files s !! a)
  | WriteFile f =>
    sv_scheduled s' = sv_scheduled s /\ sv_restoring s' = sv_restoring s /\
    (forall g, g <> f -> sv_files s' !! g = sv_files s !! g) /\ (is_Some r -> sv_files s' !! f = Some stdin)
  | ScheduleRestore f b => s' = mkServer (sv_files s) (Some (f, b)) false
  | Elsewhere => s' = s
  end.

#[export] Instance vps_files : Env vpsE server := fun X e s x s' =>
  exists s1, background s s1 /\
  match e in vpsE X return X -> Prop with
  | RunCommand _ command stdin _ => fun r => command_step (read_command command) stdin r s1 s'
  | VpsCtxDone _ => fun _ => s' = s1
  | VpsNow => fun _ => s' = s1
  end x.

#[export] Instance host_files : Env hostE server := fun X e s x s' =>
  match e in hostE X return X -> Prop with
  | HostRun e => fun x => env_step e s x s'
  | _ => fun _ => background s s'
  end x.

(** One part of a program after another. *)
Lemma vps_seq I {A B} (f : A -> prog vpsE B) (p : prog vpsE A) (s : server) (P : A -> server -> Prop) Q :
  iwp I p s P -> (forall a s', P a s' -> iwp I (f a) s' Q) -> iwp I (p ≫= f) s Q.
Proof. intros Hp Hf. apply <- (iwp_mbind (E := vpsE) (S := server)). by eapply iwp_mono. Qed.

(** ** The original is kept

    [kept files0 bak f s]: nothing but [f] and its backup changed, and one of
    them is the [f] there was. *)
Section Kept.
Context (files0 : gmap string bytes) (bak : string -> string) (bak_ne : forall f, bak f <> f).

Definition unchanged (s : server) : Prop := sv_files s = files0 /\ sv_scheduled s = None.

Definition kept (f : string) (s : server) : Prop :=
  (forall g, g <> f -> g <> bak f -> sv_files s !! g = files0 !! g) /\
  (sv_files s !! f = files0 !! f \/ sv_files s !! bak f = files0 !! f) /\
  (forall f' b, sv_scheduled s = Some (f', b) -> f' = f /\ sv_files s !! bak f = files0 !! f).

(** The backup is made, and the script, if it runs, is the one of [f]. *)
Definition backed_up (f : string) (s : server) : Prop :=
  (forall g, g <> f -> g <> bak f -> sv_files s !! g = files0 !! g) /\ sv_files s !! bak f = files0 !! f /\
  (forall f' b, sv_scheduled s = Some (f', b) -> f' = f).

Definition saved (s : server) : Prop := unchanged s \/ exists f, safeNetplanPath f = true /\ kept f s.

Lemma backup_keeps f s : backed_up f s -> kept f s.
Proof. intros (H1 & H2 & H3). split_and!; [done|by right|]. intros f' b H. split; [by eapply H3|done]. Qed.

Lemma backed_up_background f s s' : backed_up f s -> background s s' -> backed_up f s'.
Proof.
  intros (H1 & H2 & H3) Hb. split_and!.
  - intros g Hf Hg. rewrite (background_others _ _ _ Hb); [by apply H1|]. intros f' b Hsc. by rewrite (H3 _ _ Hsc).
  - rewrite (background_others _ _ _ Hb); [done|]. intros f' b Hsc. rewrite (H3 _ _ Hsc). apply bak_ne.
  - intros f' b. rewrite (background_scheduled _ _ Hb). apply H3.
Qed.

Lemma unchanged_background s s' : unchanged s -> background s s' -> unchanged s'.
Proof.
  intros H Hb. by rewrite (background_idle _ _ Hb) by apply H.
Qed.

(** The backup is made and the file has its new content. *)
Definition written (f : string) (u : bytes) (s : server) : Prop :=
  backed_up f s /\ is_Some (files0 !! f) /\ sv_files s !! f = Some u /\ sv_scheduled s = None.

Lemma written_background f u s s' : written f u s -> background s s' -> written f u s'.
Proof.
  intros H Hb. by rewrite (background_idle _ _ Hb) by apply H.
Qed.

(** The backup is made, and the file has its new content until the script
    writes it. *)
Definition placed (f : string) (u : bytes) (s : server) : Prop :=
  backed_up f s /\ (sv_restoring s = false -> sv_files s !! f = Some u).

Lemma placed_background f u s s' : placed f u s -> background s s' -> placed f u s'.
Proof.
  intros [H1 H2] Hb. split; [by eapply backed_up_background|]. destruct Hb as [->|(f' & b & _ & _ & -> & _)]; done.
Qed.

Lemma backed_up_saved f s : safeNetplanPath f = true -> backed_up f s -> saved s.
Proof. intros Hf H. right. exists f. split; [done|by apply backup_keeps]. Qed.

(** What is saved stays so, whatever the script left running does. *)
Lemma saved_background s s' : saved s -> background s s' -> saved s'.
Proof.
  intros [H|(f & Hf & Hk)] Hb; [left; by eapply unchanged_background|]. right. exists f. split; [done|].
  destruct (sv_scheduled s) as [[f' b]|] eqn:Hsc.
  - destruct Hk as (H1 & H2 & H3). destruct (H3 _ _ Hsc) as [-> H4]. apply backup_keeps. eapply backed_up_background; [|done].
    split_and!; [done..|]. intros ? ? H. by destruct (H3 _ _ H).
  - by rewrite (background_idle _ _ Hb).
Qed.

(** ** The commands of the program *)
Section Steps.
Context {A : Type} (k : option string -> prog vpsE A) (Q : A -> server -> Prop) (detached : bool) (stdin : bytes) (timeout : Z).

(** A command that touches no netplan file. *)
Lemma step_elsewhere (P : server -> Prop) command s :
  read_command command = Elsewhere -> (forall s s', P s -> background s s' -> P s') -> (forall s, P s -> saved s) -> P s ->
  (forall r s', P s' -> iwp saved (k r) s' Q) -> iwp saved (call (RunCommand detached command stdin timeout) ≫= k) s Q.
Proof.
  intros Hc Hb HP Hs Hk. apply iwp_mbind, iwp_call. intros r s' (s1 & H1 & Hst). rewrite Hc in Hst. cbn in Hst. subst s'.
  assert (P s1) by by eapply Hb. split; [by apply HP|by apply Hk].
Qed.

Lemma step_read f s :
  unchanged s -> (forall r s', unchanged s' -> (forall out, r = Some out -> files0 !! f = Some (bytes_of out)) -> iwp saved (k r) s' Q) ->
  iwp saved (call (RunCommand detached (cat_command f) stdin timeout) ≫= k) s Q.
Proof.
  intros Hs Hk. apply iwp_mbind, iwp_call. intros r s' (s1 & H1 & Hst). rewrite read_cat in Hst. destruct Hst as [-> Hr].
  assert (unchanged s1) as Hu by by eapply unchanged_background. split; [by left|]. apply Hk; [done|].
  intros out Ho. destruct Hu as [<- _]. by apply Hr.
Qed.

Lemma step_backup f s :
  safeNetplanPath f = true -> unchanged s ->
  (forall s', saved s' -> iwp saved (k None) s' Q) ->
  (forall out doc s', files0 !! f = Some doc -> written f doc s' -> iwp saved (k (Some out)) s' Q) ->
  iwp saved (call (RunCommand detached (copy_command f (bak f)) stdin timeout) ≫= k) s Q.
Proof.
  intros Hf Hs Hn Hok. apply iwp_mbind, iwp_call. intros r s' (s1 & H1 & Hst). rewrite read_copy in Hst.
  assert (unchanged s1) as [Hu Hsc] by by eapply unchanged_background. cbn in Hst. destruct Hst as (H2 & _ & H3 & H4).
  rewrite Hu in H3, H4. assert (sv_files s' !! f = files0 !! f) as Hff by by apply H3, not_eq_sym.
  assert (saved s') as Hsv.
  { right. exists f. split; [done|]. split_and!; [by intros; apply H3|by left|]. by rewrite H2, Hsc. }
  split; [done|]. destruct r as [out|]; [|by apply Hn]. destruct H4 as [[doc Hdoc] Hb]; [done|].
  apply (Hok out doc); [done|]. split_and!; [|done|by rewrite Hff|by rewrite H2].
  split_and!; [by intros; apply H3|done|]. by rewrite H2, Hsc.
Qed.

Lemma step_write f u s :
  safeNetplanPath f = true -> written f u s ->
  (forall s', backed_up f s' -> iwp saved (k None) s' Q) ->
  (forall out s', written f stdin s' -> iwp saved (k (Some out)) s' Q) ->
  iwp saved (call (RunCommand detached (write_command f) stdin timeout) ≫= k) s Q.
Proof.
  intros Hf Hs Hn Hok. apply iwp_mbind, iwp_call. intros r s' (s1 & H1 & Hst). rewrite read_write in Hst.
  assert (written f u s1) as ((Hg & Hb & Hsc') & Hdoc & Hff & Hsc) by by eapply written_background.
  cbn in Hst. destruct Hst as (H2 & _ & H3 & H4).
  assert (backed_up f s') as Hbu.
  { split_and!; [intros; rewrite H3 by done; by apply Hg|by rewrite H3 by apply bak_ne|by rewrite H2]. }
  split; [by eapply backed_up_saved|]. destruct r as [out|]; [|by apply Hn].
  apply Hok. split_and!; [done..|by apply H4|by rewrite H2].
Qed.

(** The backup is copied back. *)
Lemma step_restore f s :
  safeNetplanPath f = true -> backed_up f s -> (forall r s', backed_up f s' -> iwp saved (k r) s' Q) ->
  iwp saved (call (RunCommand detached (copy_command (bak f) f) stdin timeout) ≫= k) s Q.
Proof.
  intros Hf Hs Hk. apply iwp_mbind, iwp_call. intros r s' (s1 & H1 & Hst). rewrite read_copy in Hst.
  assert (backed_up f s1) as (Hg & Hb & Hsc) by by eapply backed_up_background. cbn in Hst. destruct Hst as (H2 & _ & H3 & _).
  assert (backed_up f s') as Hbu.
  { split_and!; [intros; rewrite H3 by done; by apply Hg|by rewrite H3 by apply bak_ne|by rewrite H2]. }
  split; [by eapply backed_up_saved|by apply Hk].
Qed.

Lemma step_schedule f u marker s :
  safeNetplanPath f = true -> str_exists (Ascii.eqb "'") marker = false -> written f u s ->
  (forall r s', placed f u s' -> iwp saved (k r) s' Q) ->
  iwp saved (call (RunCommand detached (scheduledApplyCommand f (bak f) marker) stdin timeout) ≫= k) s Q.
Proof.
  intros Hf Hm Hs Hk. apply iwp_mbind, iwp_call. intros r s' (s1 & H1 & Hst). rewrite read_scheduled in Hst by done.
  assert (written f u s1) as ((Hg & Hb & _) & _ & Hf' & _) by by eapply written_background. cbn in Hst. subst s'.
  assert (placed f u (mkServer (sv_files s1) (Some (f, bak f)) false)) as Hbu.
  { split_and!; [|done]. split_and!; [done..|]. cbn. by intros f' b [= <- <-]. }
  split; [by eapply backed_up_saved; [|apply Hbu]|by apply Hk].
Qed.

(** Commands that touch no file, before and after the file was written. *)
Lemma step_unchanged command s :
  read_command command = Elsewhere -> unchanged s -> (forall r s', unchanged s' -> iwp saved (k r) s' Q) ->
  iwp saved (call (RunCommand detached command stdin timeout) ≫= k) s Q.
Proof.
  intros Hc Hs Hk. apply (step_elsewhere unchanged); [done| |by left|done..]. intros; by eapply unchanged_background.
Qed.

Lemma step_written f u command s :
  safeNetplanPath f = true -> read_command command = Elsewhere -> written f u s ->
  (forall r s', written f u s' -> iwp saved (k r) s' Q) -> iwp saved (call (RunCommand detached command stdin timeout) ≫= k) s Q.
Proof.
  intros Hf Hc Hs Hk. apply (step_elsewhere (written f u)); [done| | |done..].
  - intros; by eapply written_background.
  - intros s' [Hb _]. by eapply backed_up_saved.
Qed.
End Steps.
End Kept.
