(* ===== verification/HostingFacts.v ===== *)
(** * The hosting providers keep the original netplan file

    The documents the two services write, and what every execution of them,
    complete or cut off, leaves in the netplan directory. *)

From S2P Require Import Prelude GoStrings GoText NetIP NetIPFacts Effects Certificates Remote Netplan NetplanFacts.
From S2P Require CherryIP RoyalIP.

#[local] Open Scope Z_scope.

(** ** Documents *)

(** [root'] is [root] with one entry of [network.ethernets] changed. *)
Definition only_entry_changes (root root' : gmap string any) (key : string) (entry entry' : gmap string any) : Prop :=
  exists network ethernets network' ethernets',
    root !! "network" = Some (AMap network) /\ network !! "ethernets" = Some (AMap ethernets) /\ ethernets !! key = Some (AMap entry) /\
    root' !! "network" = Some (AMap network') /\ network' !! "ethernets" = Some (AMap ethernets') /\ ethernets' !! key = Some (AMap entry') /\
    (forall k, k <> "network" -> root' !! k = root !! k) /\
    (forall k, k <> "ethernets" -> network' !! k = network !! k) /\
    (forall k, k <> key -> ethernets' !! k = ethernets !! k).

Lemma field_map (m t : gmap string any) key : stringMap (field m key) = Some t -> m !! key = Some (AMap t).
Proof. unfold field. destruct (m !! key) as [v|]; [|done]. cbn. destruct v; try done. by intros [= ->]. Qed.

Lemma with_entry_changes `{MapRange} root network ethernets key entry entry' :
  ethernets_of root = Ok (network, ethernets) -> (key, AMap entry) ∈ range_of ethernets ->
  only_entry_changes root (with_entry root network ethernets key entry') key entry entry'.
Proof.
  unfold ethernets_of. destruct (stringMap (field root "network")) as [n|] eqn:Hn; [|done].
  destruct (stringMap (field n "ethernets")) as [e|] eqn:He; [|done]. intros [= -> ->] Hin.
  rewrite range_of_perm in Hin. apply elem_of_map_to_list in Hin. apply field_map in Hn, He.
  eexists network, ethernets, _, _. unfold with_entry. rewrite !lookup_insert_eq. split_and!; try done.
  all: by intros k Hk; rewrite lookup_insert_ne by done.
Qed.

Section Documents.
Context `{Yaml, MapRange} (document : bytes) (iface : string).

(** The entry found by the loop over [ethernets]. *)
Definition added (address : string) (root : gmap string any) (u : CherryIP.update) : Prop :=
  exists entry addresses,
    matchesInterface (CherryIP.up_key u) entry iface = true /\
    CherryIP.addressList (field entry "addresses") = Ok addresses /\
    if CherryIP.up_changed u then
      address ∉ addresses /\
      exists root', Marshal root' = Some (CherryIP.up_document u) /\
        only_entry_changes root root' (CherryIP.up_key u) entry (<["addresses" := AStrings (addresses ++ [address])]> entry)
    else address ∈ addresses /\ CherryIP.up_document u = document.

Lemma added_in address u :
  CherryIP.addAddressToNetplan document iface address = u -> CherryIP.up_err u = None -> CherryIP.up_key u <> "" ->
  exists root, Unmarshal document = Some root /\ added address root u.
Proof.
  intros <-. unfold CherryIP.addAddressToNetplan. destruct (Unmarshal document) as [root|]; [|done].
  destruct (ethernets_of root) as [[network ethernets]|e] eqn:He; [|done]. intros Herr Hkey. exists root. split; [done|].
  assert (forall x, x ∈ range_of ethernets -> x ∈ range_of ethernets) as Hsub by done. revert Hsub Herr Hkey.
  generalize (range_of ethernets) at 1 3 4 5. intros l. induction l as [|[key raw] l IH]; intros Hsub; cbn [CherryIP.add_to_entries]; [done|].
  destruct (stringMap raw) as [entry|] eqn:Hraw; [|apply IH; intros; apply Hsub; by right].
  destruct (matchesInterface key entry iface) eqn:Hm; cbn [negb]; [|apply IH; intros; apply Hsub; by right].
  destruct (CherryIP.addressList _) as [addresses|e] eqn:Ha; [|done].
  destruct (existsb (String.eqb address) addresses) eqn:Hex.
  - intros _ _. exists entry, addresses. split_and!; [done..|]. cbn. split; [|done].
    apply existsb_elem_of in Hex as (x & Hin & ->%String.eqb_eq). done.
  - destruct (Marshal _) as [updated|] eqn:Hu; [|done]. intros _ _. exists entry, addresses. split_and!; [done..|]. cbn. split.
    + intros Hin. apply not_true_iff_false in Hex. apply Hex, existsb_elem_of. exists address. split; [done|apply String.eqb_refl].
    + eexists. split; [exact Hu|]. apply with_entry_changes; [done|]. apply Hsub. destruct raw; try done. injection Hraw as ->. left.
Qed.

(** Royal: the address replaced in place, and the gateway of its routes. *)
Definition readdressed (oldIP newIP : Addr) (root : gmap string any) (u : RoyalIP.update) : Prop :=
  exists entry before value after ip routes root',
    matchesInterface (RoyalIP.up_key u) entry iface = true /\
    RoyalIP.stringList (field entry "addresses") = Ok (before ++ value :: after) /\
    ParsePrefix (TrimSpace value) = Some (ip, RoyalIP.up_bits u) /\ Unmap ip = oldIP /\ RoyalIP.up_bits u <> 0 /\
    RoyalIP.mapList (field entry "routes") = Ok routes /\ existsb RoyalIP.default_route routes = true /\
    RoyalIP.up_gateway u = RoyalIP.gatewayFor newIP /\
    Marshal root' = Some (RoyalIP.up_document u) /\
    only_entry_changes root root' (RoyalIP.up_key u) entry
      (<["routes" := AList (RoyalIP.mapsToAny (RoyalIP.with_gateway (RoyalIP.gatewayFor newIP) <$> routes))]>
         (<["addresses" := AStrings (before ++ (addr_string newIP +:+ "/" +:+ Itoa (RoyalIP.up_bits u)) :: after)]> entry)).

Lemma replace_address_split oldIP newIP l l' bits :
  RoyalIP.replace_address oldIP newIP l = (l', bits) -> bits <> 0 ->
  exists before value after ip, l = before ++ value :: after /\ l' = before ++ (addr_string newIP +:+ "/" +:+ Itoa bits) :: after /\
    ParsePrefix (TrimSpace value) = Some (ip, bits) /\ Unmap ip = oldIP.
Proof.
  revert l'. induction l as [|value l IH]; cbn [RoyalIP.replace_address]; intros l'; [by intros [= <- <-]|].
  assert ((let '(l', bits) := RoyalIP.replace_address oldIP newIP l in (value :: l', bits)) = (l', bits) -> bits <> 0 ->
    exists before v after ip, value :: l = before ++ v :: after /\ l' = before ++ (addr_string newIP +:+ "/" +:+ Itoa bits) :: after /\
      ParsePrefix (TrimSpace v) = Some (ip, bits) /\ Unmap ip = oldIP) as Hlater.
  { destruct (RoyalIP.replace_address oldIP newIP l) as [l2 b2]. intros [= <- <-] Hb.
    destruct (IH l2 eq_refl Hb) as (before & v & after & ip & -> & -> & H1 & H2). by exists (value :: before), v, after, ip. }
  destruct (ParsePrefix (TrimSpace value)) as [[ip n]|] eqn:Hp; [|exact Hlater].
  case_bool_decide as Hip; [|exact Hlater]. intros [= <- <-] _. by exists [], value, l, ip.
Qed.

Lemma readdressed_in oldIP newIP u :
  RoyalIP.replaceIPv4AndGateway document iface oldIP newIP = u -> RoyalIP.up_err u = None -> RoyalIP.up_key u <> "" ->
  exists root, Unmarshal document = Some root /\ readdressed oldIP newIP root u.
Proof.
  intros <-. unfold RoyalIP.replaceIPv4AndGateway. destruct (Unmarshal document) as [root|]; [|done].
  destruct (ethernets_of root) as [[network ethernets]|e] eqn:He; [|done]. intros Herr Hkey. exists root. split; [done|].
  assert (forall x, x ∈ range_of ethernets -> x ∈ range_of ethernets) as Hsub by done. revert Hsub Herr Hkey.
  generalize (range_of ethernets) at 1 3 4 5. intros l. induction l as [|[key raw] l IH]; intros Hsub; cbn [RoyalIP.replace_in_entries]; [done|].
  destruct (stringMap raw) as [entry|] eqn:Hraw; [|apply IH; intros; apply Hsub; by right].
  destruct (matchesInterface key entry iface) eqn:Hm; cbn [negb]; [|apply IH; intros; apply Hsub; by right].
  unfold RoyalIP.replace_in_entry. destruct (RoyalIP.stringList _) as [addresses|e] eqn:Ha; [|done].
  destruct (RoyalIP.replace_address _ _ _) as [addresses' bits] eqn:Hr. destruct (bits =? 0) eqn:Hbits; [done|]. apply Z.eqb_neq in Hbits.
  destruct (RoyalIP.mapList _) as [routes|e] eqn:Hroutes; [|done]. destruct (existsb _ routes) eqn:Hdef; [|done]. cbn [negb].
  destruct (Marshal _) as [updated|] eqn:Hu; [|done]. intros _ _.
  destruct (replace_address_split _ _ _ _ _ Hr Hbits) as (before & value & after & ip & -> & -> & H1 & H2).
  eexists entry, before, value, after, ip, routes, _. split_and!; [done..|exact Hu|]. apply with_entry_changes; [done|].
  apply Hsub. destruct raw; try done. injection Hraw as ->. left.
Qed.
End Documents.

(** ** Any operation over the host *)
Lemma iwp_on_host I {A} (p : prog vpsE A) (s : server) Q : I s -> iwp I p s Q -> iwp I (on_host p) s Q.
Proof. intros Hs Hp. apply iwp_interp; [|done..]. intros X e s' R _ H. exact H. Qed.

(** A call of the host that is no command, and one that is deferred. *)
Lemma host_step (I P : server -> Prop) {X} (e : hostE X) (Q : X -> server -> Prop) s :
  match e with HostRun _ => False | _ => True end -> (forall s s', P s -> background s s' -> P s') -> (forall s, P s -> I s) -> P s ->
  (forall x s', P s' -> Q x s') -> iwp I (call e) s Q.
Proof.
  intros He Hb HP Hs HQ. apply iwp_call. intros x s' Hst. assert (P s') by (eapply Hb; [done|by destruct e]). split; [by apply HP|by apply HQ].
Qed.

Lemma host_seq I {A B} (f : A -> prog hostE B) (p : prog hostE A) (s : server) (P : A -> server -> Prop) Q :
  iwp I p s P -> (forall a s', P a s' -> iwp I (f a) s' Q) -> iwp I (p ≫= f) s Q.
Proof. intros Hp Hf. apply <- (iwp_mbind (E := hostE) (S := server)). by eapply iwp_mono. Qed.

Lemma host_finally I {A} (body : prog hostE A) (e : hostE unit) s (Q : A -> server -> Prop) :
  match e with HostRun _ => False | _ => True end -> (forall a s s', Q a s -> background s s' -> Q a s') -> (forall a s, Q a s -> I s) ->
  iwp I body s Q -> iwp I (finally body (call e)) s Q.
Proof.
  intros He Hb HQ Hbody. unfold finally. apply <- (iwp_bind (E := hostE) (S := server)). eapply iwp_mono; [exact Hbody|].
  intros a s' Ha. apply <- (iwp_bind (E := hostE) (S := server)). by apply (host_step I (Q a)); [|apply Hb|apply HQ|..].
Qed.

Lemma append_ne s t : t <> "" -> s +:+ t <> s.
Proof. intros Ht H. apply (f_equal String.length) in H. rewrite string_length_app in H. destruct t; [done|cbn in H; lia]. Qed.

(** ** Cherry Servers *)
Module Cherry.
Import CherryIP.

Section Persist.
Context `{Yaml, MapRange} (files0 : gmap string bytes) (iface : string) (ip : Addr) (timeout : Z).

Lemma cherry_backup_ne f : backup_of f <> f.
Proof. by apply append_ne. Qed.

Notation saved := (saved files0 backup_of).
Notation written := (written files0 backup_of).
Notation backed_up := (backed_up files0 backup_of).
Notation unchanged := (unchanged files0).
Notation updated doc := (addAddressToNetplan doc iface (addr_string ip +:+ "/32")).

(** What the two results of the persistence mean. *)
Definition persisted (r : bool * string) (s : server) : Prop :=
  if fst r then
    exists f doc, safeNetplanPath f = true /\ files0 !! f = Some doc /\ up_err (updated doc) = None /\ up_key (updated doc) <> "" /\
      if up_changed (updated doc) then written f (up_document (updated doc)) s else unchanged s
  else saved s.

Lemma rollback_saved f s :
  safeNetplanPath f = true -> backed_up f s -> iwp saved (rollbackNetplan timeout f (backup_of f)) s (fun _ s' => saved s').
Proof.
  intros Hf Hs. unfold rollbackNetplan.
  apply (step_restore files0 backup_of cherry_backup_ne _ _ _ _ _ f); [done..|]. intros _ s1 H1.
  apply (step_elsewhere files0 backup_of _ _ _ _ _ (backed_up f)); [done| |by intros; eapply backed_up_saved|done|].
  - intros; by eapply (backed_up_background files0 backup_of cherry_backup_ne).
  - intros _ s2 H2. by eapply backed_up_saved.
Qed.

Lemma rolled_back f note s :
  safeNetplanPath f = true -> backed_up f s ->
  iwp saved (_ ← rollbackNetplan timeout f (backup_of f); mret (false, note)) s persisted.
Proof. intros Hf Hs. eapply vps_seq; [by apply rollback_saved|]. intros a s' H'. exact H'. Qed.

Lemma replace_persisted f doc s :
  safeNetplanPath f = true -> files0 !! f = Some doc -> up_err (updated doc) = None -> up_key (updated doc) <> "" ->
  up_changed (updated doc) = true -> unchanged s ->
  iwp saved (replace_file timeout f (up_document (updated doc))) s persisted.
Proof.
  intros Hf Hdoc Herr Hkey Hch Hs. unfold replace_file, run.
  apply (step_backup files0 backup_of cherry_backup_ne _ _ _ _ _ f); [done..|by intros s' H'|]. intros _ doc' s1 _ H1.
  apply (step_write files0 backup_of cherry_backup_ne _ _ _ _ _ f doc'); [done..| |].
  { intros s2 H2. by apply rolled_back. }
  intros _ s2 H2. apply (step_written files0 backup_of _ _ _ _ _ f (up_document (updated doc))); [done..|]. intros r s3 H3.
  destruct r as [?|]; [|apply rolled_back; [done|apply H3]].
  apply (step_written files0 backup_of _ _ _ _ _ f (up_document (updated doc))); [done..|]. intros _ s4 H4.
  apply (step_written files0 backup_of _ _ _ _ _ f (up_document (updated doc))); [done..|]. intros r s5 H5.
  destruct r as [?|]; [|apply rolled_back; [done|apply H5]].
  exists f, doc. split_and!; [done..|]. by rewrite Hch.
Qed.

Lemma try_persisted found l seen s :
  unchanged s -> iwp saved (try_files iface ip timeout found l seen) s persisted.
Proof.
  revert seen s. induction l as [|f l IH]; intros seen s Hs; cbn [try_files]; [by left|].
  destruct (safeNetplanPath f) eqn:Hf; cbn [negb]; [|by apply IH]. unfold run.
  apply (step_read files0 backup_of); [done|]. intros r s1 H1 Hread. destruct r as [out|]; [|by apply IH].
  specialize (Hread out eq_refl). set (u := updated (bytes_of out)). change (addAddressToNetplan _ _ _) with u.
  destruct (up_err u) as [|] eqn:Herr; cbn [is_none negb orb]; [by apply IH|].
  destruct (String.eqb (up_key u) "") eqn:Hkey; [by apply IH|]. apply String.eqb_neq in Hkey.
  destruct (up_changed u) eqn:Hch; cbn [negb].
  - by apply replace_persisted.
  - exists f, (bytes_of out). split_and!; [done..|]. fold u. by rewrite Hch.
Qed.

Lemma persist_persisted s : unchanged s -> iwp saved (persistNetplan iface ip timeout) s persisted.
Proof.
  intros Hs. unfold persistNetplan, run. apply (step_unchanged files0 backup_of); [done..|].
  intros r s1 H1. destruct r; [|by left]. by apply try_persisted.
Qed.
Lemma persisted_background r s s' : persisted r s -> background s s' -> persisted r s'.
Proof.
  unfold persisted. destruct (fst r); [|by intros; eapply saved_background; [apply cherry_backup_ne| |]].
  intros (f & doc & H1 & H2 & H3 & H4 & H5) Hb. exists f, doc. split_and!; [done..|].
  destruct (up_changed _); [by eapply written_background|by eapply unchanged_background].
Qed.

Lemma persisted_saved r s : persisted r s -> saved s.
Proof.
  unfold persisted. destruct (fst r); [|done]. intros (f & doc & H1 & H2 & H3 & H4 & H5).
  destruct (up_changed _); [|by left]. eapply backed_up_saved; [done|apply H5].
Qed.
End Persist.

Section Operation.
Context `{Yaml, MapRange} (files0 : gmap string bytes).

Notation saved := (saved files0 backup_of).

(** What the result of an operation means. *)
Definition configured (ip : Addr) (r : result cherryErr Result) (s : server) : Prop :=
  match r with
  | Ok r => persisted files0 (res_Interface r) ip (res_Persistent r, res_PersistentNote r) s
  | Err _ => saved s
  end.

Lemma configured_background ip r s s' : configured ip r s -> background s s' -> configured ip r s'.
Proof. destruct r; [apply persisted_background|by intros; eapply saved_background; [apply cherry_backup_ne| |]]. Qed.

Lemma configured_saved ip r s : configured ip r s -> saved s.
Proof. destruct r; [apply persisted_saved|done]. Qed.

Lemma configure_configured serverIP ip timeout s :
  unchanged files0 s -> iwp saved (configure serverIP ip timeout) s (configured ip).
Proof.
  intros Hs. unfold configure, run. destruct (_ || _); [by left|].
  apply (step_unchanged files0 backup_of); [done..|]. intros r s1 H1. destruct r as [stdout|]; [|by left]. destruct (String.eqb _ ""); [by left|].
  apply (step_unchanged files0 backup_of); [done..|]. intros _ s2 H2. apply (step_unchanged files0 backup_of); [done..|]. intros r s3 H3.
  destruct r as [shown|]; [|by left]. destruct (negb _); [by left|].
  eapply vps_seq; [by apply persist_persisted|]. intros [p note] s4 H4. exact H4.
Qed.

Lemma Configure_configured timeout input s :
  unchanged files0 s -> iwp saved (Configure timeout input) s (configured (Unmap (in_FloatingIP input))).
Proof.
  intros Hs. unfold Configure. destruct (negb (valid_input input)); [by left|].
  assert (forall r s s', configured (Unmap (in_FloatingIP input)) r s -> background s s' -> configured (Unmap (in_FloatingIP input)) r s') as Hb
    by (intros; by eapply configured_background).
  assert (forall r s, configured (Unmap (in_FloatingIP input)) r s -> saved s) as Hsv by (intros; by eapply configured_saved).
  apply host_finally; [done|done|done|].
  apply (host_seq _ _ _ _ (fun _ => unchanged files0)); [apply (host_step _ (unchanged files0)); [done| |by left|done..]; by intros; eapply unchanged_background|].
  intros connected s1 H1. destruct (negb connected); [by left|].
  apply host_finally; [done|done|done|]. apply iwp_on_host; [by left|]. by apply configure_configured.
Qed.
End Operation.
End Cherry.

(** ** Royal Hosting *)
Module Royal.
Import RoyalIP.

Section Prepare.
Context `{Yaml, MapRange} (files0 : gmap string bytes) (oldIP newIP : Addr) (timeout : Z).

Lemma royal_backup_ne f : backup_of f <> f.
Proof. by apply append_ne. Qed.

Notation saved := (saved files0 backup_of).
Notation written := (written files0 backup_of).
Notation backed_up := (backed_up files0 backup_of).
Notation unchanged := (unchanged files0).
Notation updated doc iface := (replaceIPv4AndGateway doc iface oldIP newIP).

(** The result names the file that was replaced and its backup. *)
Definition replaced (r : Result) (doc : bytes) : Prop :=
  let u := updated doc (res_Interface r) in
  safeNetplanPath (res_NetplanFile r) = true /\ res_BackupFile r = backup_of (res_NetplanFile r) /\
  files0 !! res_NetplanFile r = Some doc /\ up_err u = None /\ up_key u <> "" /\
  res_PrefixBits r = up_bits u /\ res_Gateway r = up_gateway u.

Definition prepared (r : result royalErr Result) (s : server) : Prop :=
  match r with
  | Ok r => exists doc, replaced r doc /\ written (res_NetplanFile r) (up_document (updated doc (res_Interface r))) s
  | Err _ => saved s
  end.

Definition scheduled (r : result royalErr Result) (s : server) : Prop :=
  match r with
  | Ok r => exists doc, replaced r doc /\ placed files0 backup_of (res_NetplanFile r) (up_document (updated doc (res_Interface r))) s
  | Err _ => saved s
  end.

Lemma scheduled_background r s s' : scheduled r s -> background s s' -> scheduled r s'.
Proof.
  destruct r as [r|e].
  - intros (doc & H1 & H2) Hb. exists doc. split; [done|]. by eapply placed_background; [apply royal_backup_ne| |].
  - by intros; eapply saved_background; [apply royal_backup_ne| |].
Qed.

Lemma scheduled_saved r s : scheduled r s -> saved s.
Proof. destruct r as [r|e]; [|done]. intros (doc & (Hf & _) & H2 & _). by eapply backed_up_saved. Qed.

Lemma royal_rolled_back f e s (Q : result royalErr Result -> server -> Prop) :
  safeNetplanPath f = true -> backed_up f s -> (forall s', saved s' -> Q (Err e) s') ->
  iwp saved (_ ← rollbackPreparedNetplan timeout f (backup_of f); mret (Err e)) s Q.
Proof.
  intros Hf Hs HQ. eapply (vps_seq _ _ _ _ (fun _ => saved)); [|by intros ? s' H'; apply HQ]. unfold rollbackPreparedNetplan.
  apply (step_restore files0 backup_of royal_backup_ne _ _ _ _ _ f); [done..|]. intros _ s1 H1.
  apply (step_elsewhere files0 backup_of _ _ _ _ _ (backed_up f)); [done| |by intros; eapply backed_up_saved|done|].
  - intros; by eapply (backed_up_background files0 backup_of royal_backup_ne).
  - intros _ s2 H2. by eapply backed_up_saved.
Qed.

Lemma replace_prepared iface f doc s :
  safeNetplanPath f = true -> files0 !! f = Some doc -> up_err (updated doc iface) = None -> up_key (updated doc iface) <> "" ->
  unchanged s -> iwp saved (replace_file timeout iface f (updated doc iface)) s prepared.
Proof.
  intros Hf Hdoc Herr Hkey Hs. unfold replace_file, run.
  apply (step_backup files0 backup_of royal_backup_ne _ _ _ _ _ f); [done..|by intros s' H'|]. intros _ doc' s1 _ H1.
  apply (step_write files0 backup_of royal_backup_ne _ _ _ _ _ f doc'); [done..| |].
  { intros s2 H2. by apply royal_rolled_back. }
  intros _ s2 H2. apply (step_written files0 backup_of _ _ _ _ _ f (up_document (updated doc iface))); [done..|]. intros r s3 H3.
  destruct r as [?|]; [|apply royal_rolled_back; [done|apply H3|done]].
  apply (step_written files0 backup_of _ _ _ _ _ f (up_document (updated doc iface))); [done..|]. intros _ s4 H4.
  exists doc. split; [|done]. by split_and!.
Qed.

Lemma try_prepared iface l s : unchanged s -> iwp saved (try_files oldIP newIP timeout iface l) s prepared.
Proof.
  revert s. induction l as [|f l IH]; intros s Hs; cbn [try_files]; [by left|].
  destruct (safeNetplanPath f) eqn:Hf; cbn [negb]; [|by apply IH]. unfold run.
  apply (step_read files0 backup_of); [done|]. intros r s1 H1 Hread. destruct r as [out|]; [|by apply IH].
  specialize (Hread out eq_refl). destruct (String.eqb (up_key _) "") eqn:Hkey; [by apply IH|]. apply String.eqb_neq in Hkey.
  destruct (up_err (updated (bytes_of out) iface)) as [|] eqn:Herr; cbn [is_none negb]; [by left|]. by apply replace_prepared.
Qed.

Lemma prepare_prepared s : unchanged s -> iwp saved (prepareNetplan oldIP newIP timeout) s prepared.
Proof.
  intros Hs. unfold prepareNetplan, run. apply (step_unchanged files0 backup_of); [done..|]. intros r s1 H1.
  destruct r as [stdout|]; [|by left]. destruct (String.eqb _ ""); [by left|].
  apply (step_unchanged files0 backup_of); [done..|]. intros r s2 H2. destruct r as [files|]; [|by left]. by apply try_prepared.
Qed.

Lemma schedule_scheduled s :
  str_exists (Ascii.eqb "'") (confirmationMarker newIP) = false -> unchanged s -> iwp saved (schedule timeout oldIP newIP) s scheduled.
Proof.
  intros Hm Hs. unfold schedule. eapply vps_seq; [by apply prepare_prepared|]. intros [r|e] s1 H1; [|exact H1].
  destruct H1 as (doc & Hr & Hw). pose proof Hr as (Hf & Hb & _). rewrite Hb. unfold run.
  apply (step_schedule files0 backup_of _ _ _ _ _ (res_NetplanFile r) (up_document (updated doc (res_Interface r)))); [done..|].
  intros [?|] s2 H2; [by exists doc|apply royal_rolled_back; [done|apply H2|done]].
Qed.
End Prepare.

Lemma replace_byte_app x y s t : replace_byte x y (s +:+ t) = replace_byte x y s +:+ replace_byte x y t.
Proof. induction s as [|a s IH]; [done|]. rewrite string_app_cons. unfold replace_byte in *. cbn [str_map]. by rewrite IH, string_app_cons. Qed.

Lemma octet_plain v i : str_exists (Ascii.eqb "'") (replace_byte "." "-" (Itoa (octet v i))) = false.
Proof.
  generalize (octet_range v i). generalize (octet v i).
  apply (octet_ind (fun o => str_exists (Ascii.eqb "'") (replace_byte "." "-" (Itoa o)) = false)).
  apply (bool_decide_unpack _). by vm_compute.
Qed.

Lemma marker_plain v : str_exists (Ascii.eqb "'") (confirmationMarker (Addr4 v)) = false.
Proof.
  unfold confirmationMarker. cbn [addr_string]. unfold string4.
  rewrite !replace_byte_app, !str_exists_app, !octet_plain. reflexivity.
Qed.

Section Operation.
Context `{Yaml, MapRange} (files0 : gmap string bytes).

Notation saved := (saved files0 backup_of).

(** While the script runs nothing the service does touches the files. *)
Lemma host_command (P : server -> Prop) command timeout {A} (k : option string -> prog hostE A) Q s :
  read_command command = Elsewhere -> (forall s s', P s -> background s s' -> P s') -> (forall s, P s -> saved s) -> P s ->
  (forall r s', P s' -> iwp saved (k r) s' Q) -> iwp saved (on_host (run command [] timeout) ≫= k) s Q.
Proof.
  intros Hc Hb HP Hs Hk. apply (host_seq _ _ _ _ (fun _ => P)); [|exact Hk]. apply iwp_on_host; [by apply HP|].
  unfold run. apply iwp_call. intros r s' (s1 & H1 & Hst). rewrite Hc in Hst. cbn in Hst. subst s'.
  assert (P s1) by by eapply Hb. split; [by apply HP|done].
Qed.

Lemma connect_keeps (P : server -> Prop) identity address password s :
  (forall s s', P s -> background s s' -> P s') -> (forall s, P s -> saved s) -> P s ->
  iwp saved (connect identity address password) s (fun _ => P).
Proof. intros Hb HP Hs. apply host_finally; [done|by intros; eapply Hb|by intros; apply HP|]. by apply (host_step _ P). Qed.

Lemma confirm_keeps (P : server -> Prop) timeout found newIP marker s :
  (forall s s', P s -> background s s' -> P s') -> (forall s, P s -> saved s) -> P s ->
  iwp saved (confirm timeout found newIP marker) s (fun _ => P).
Proof.
  intros Hb HP Hs. unfold confirm. apply (host_command P); [done..|]. intros r s1 H1.
  assert (forall (b : bool) s, P s -> iwp saved (_ ← call HostClose; mret b) s (fun _ => P)) as Hclose.
  { intros b s2 H2. apply (host_seq _ _ _ _ (fun _ => P)); [by apply (host_step _ P)|by intros]. }
  destruct r as [shown|]; [|by apply Hclose]. destruct (Contains _ _); [|by apply Hclose].
  apply (host_command P); [done..|]. intros r s2 H2. by apply Hclose.
Qed.

Lemma verify_keeps timeout (P : server -> Prop) rounds identity input found newIP marker s :
  (forall s s', P s -> background s s' -> P s') -> (forall s, P s -> saved s) -> P s ->
  iwp saved (verify timeout rounds identity input found newIP marker) s
    (fun r s' => P s' /\ match r with Ok r => r = found | Err e => e = ErrVerification end).
Proof.
  intros Hb HP. revert s. induction rounds as [|n IH]; intros s Hs; cbn [verify]; [by split|].
  apply (host_seq _ _ _ _ (fun _ => P)).
  { apply iwp_call. intros x s' (s1 & H1 & ->). assert (P s1) by by eapply Hb. split; [by apply HP|done]. }
  intros ended s1 H1. destruct (ended : bool); [by split|].
  apply (host_seq _ _ _ _ (fun _ => P)); [by apply connect_keeps|]. intros connected s2 H2.
  apply (host_seq _ _ _ _ (fun _ => P)); [destruct connected; [by apply confirm_keeps|done]|]. intros confirmed s3 H3.
  destruct (confirmed : bool); [by split|].
  apply (host_seq _ _ _ _ (fun _ => P)); [by apply (host_step _ P)|]. intros waited s4 H4.
  destruct (negb waited); [by split|]. by apply IH.
Qed.

Lemma Configure_scheduled timeout input s :
  unchanged files0 s ->
  iwp saved (Configure timeout input) s (scheduled files0 (Unmap (in_ServerIP input)) (Unmap (in_NewIP input))).
Proof.
  intros Hs. unfold Configure. destruct (negb (valid_input input)) eqn:Hv; [by left|].
  assert (str_exists (Ascii.eqb "'") (confirmationMarker (Unmap (in_NewIP input))) = false) as Hm.
  { unfold valid_input in Hv. rewrite negb_involutive, !orb_false_iff in Hv. destruct Hv as [[[_ Hv%negb_false_iff] _] _].
    destruct (Unmap (in_NewIP input)); try done. apply marker_plain. }
  apply (host_seq _ _ _ _ (fun _ => unchanged files0)); [apply connect_keeps; [|by left|done]; by intros; eapply unchanged_background|].
  intros connected s1 H1. destruct (negb connected); [by left|].
  eapply host_seq; [apply iwp_on_host; [by left|by apply schedule_scheduled]|]. intros r s2 H2.
  apply (host_seq _ _ _ _ (fun _ => scheduled files0 (Unmap (in_ServerIP input)) (Unmap (in_NewIP input)) r)).
  { apply (host_step _ (scheduled files0 (Unmap (in_ServerIP input)) (Unmap (in_NewIP input)) r)); [done|..|done|done].
    - intros; by eapply scheduled_background.
    - intros; by eapply scheduled_saved. }
  intros [] s3 H3. destruct r as [r|e]; [|exact H3].
  eapply iwp_mono; [apply (verify_keeps _ (scheduled files0 (Unmap (in_ServerIP input)) (Unmap (in_NewIP input)) (Ok r))); [..|done]|].
  - intros; by eapply scheduled_background.
  - intros s'. apply scheduled_saved.
  - intros [r'|e] s4 [H4 Hr]; [by subst|]. by eapply scheduled_saved.
Qed.
End Operation.
End Royal.

(** ** The claims *)

(** The files as the operation found them: no script of an earlier one runs. *)
Definition idle (files : gmap string bytes) : server := mkServer files None false.

(** What a crash, a cut connection or a failure leaves: the files as they
    were, or one netplan file whose original content is in it or its backup. *)
Definition recoverable (files0 : gmap string bytes) (bak : string -> string) (s : server) : Prop :=
  sv_files s = files0 \/
  exists f, safeNetplanPath f = true /\ (forall g, g <> f -> g <> bak f -> sv_files s !! g = files0 !! g) /\
    (sv_files s !! f = files0 !! f \/ sv_files s !! bak f = files0 !! f).

Lemma saved_recoverable files0 bak s : saved files0 bak s -> recoverable files0 bak s.
Proof. intros [[H _]|(f & Hf & H1 & H2 & _)]; [by left|right; by exists f]. Qed.

(** C20. Cherry: the netplan file is never lost.  Whatever fails and wherever
    the operation is cut off, no file changed, or one netplan file and its
    backup, one of which is the file as it was.  When the answer is that the
    address is persistent, a netplan file either listed it before and nothing
    was changed, or is the same document with that address added to the entry
    of the interface, the original being its backup. *)
Theorem cherry_keeps_the_original_file `{Yaml, MapRange} timeout input files0 :
  (forall s, crashes (CherryIP.Configure timeout input) (idle files0) s -> recoverable files0 CherryIP.backup_of s) /\
  always (CherryIP.Configure timeout input) (idle files0) (fun _ r s => forall result, r = Ok result -> CherryIP.res_Persistent result = true ->
    exists f doc root u, files0 !! f = Some doc /\ Unmarshal doc = Some root /\
      added doc (CherryIP.res_Interface result) (addr_string (Unmap (CherryIP.in_FloatingIP input)) +:+ "/32") root u /\
      if CherryIP.up_changed u
      then sv_files s !! f = Some (CherryIP.up_document u) /\ sv_files s !! CherryIP.backup_of f = Some doc /\
           forall g, g <> f -> g <> CherryIP.backup_of f -> sv_files s !! g = files0 !! g
      else sv_files s = files0).
Proof.
  assert (unchanged files0 (idle files0)) as Hs by done.
  pose proof (Cherry.Configure_configured files0 timeout input (idle files0) Hs) as Hw. split.
  - intros s Hc. apply saved_recoverable. exact (iwp_crashes _ _ _ _ (or_introl Hs) Hw s Hc).
  - intros tr r s Hr result -> Hp. apply (iwp_runs _ _ _ _ Hw) in Hr. unfold Cherry.configured, Cherry.persisted in Hr. cbn [fst] in Hr.
    rewrite Hp in Hr. destruct Hr as (f & doc & _ & Hdoc & Herr & Hkey & Hr).
    destruct (added_in _ _ _ _ eq_refl Herr Hkey) as (root & Hroot & Ha). eexists f, doc, root, _. split_and!; [done..|exact Ha|].
    destruct (CherryIP.up_changed _); [|apply Hr]. destruct Hr as ((H1 & H2 & _) & _ & H3 & _). by rewrite H2.
Qed.

(** C21. Royal: the netplan file is never lost.  Whatever fails, wherever the
    operation is cut off and whenever the script left running writes, no file
    changed, or one netplan file and its backup, one of which is the file as
    it was.  A success means that the backup named holds the file as it was,
    no other file changed, and the netplan file named holds, until that
    script begins to write it, the same document with the old address
    replaced by the new one, prefix kept, and the default IPv4 routes through
    the gateway of the new address. *)
Theorem royal_keeps_the_original_file `{Yaml, MapRange} timeout input files0 :
  (forall s, crashes (RoyalIP.Configure timeout input) (idle files0) s -> recoverable files0 RoyalIP.backup_of s) /\
  always (RoyalIP.Configure timeout input) (idle files0) (fun _ r s => forall result, r = Ok result ->
    let f := RoyalIP.res_NetplanFile result in
    exists doc root u, files0 !! f = Some doc /\ Unmarshal doc = Some root /\
      readdressed (RoyalIP.res_Interface result) (Unmap (RoyalIP.in_ServerIP input)) (Unmap (RoyalIP.in_NewIP input)) root u /\
      RoyalIP.res_PrefixBits result = RoyalIP.up_bits u /\ RoyalIP.res_Gateway result = RoyalIP.up_gateway u /\
      (sv_restoring s = false -> sv_files s !! f = Some (RoyalIP.up_document u)) /\
      RoyalIP.res_BackupFile result = RoyalIP.backup_of f /\ sv_files s !! RoyalIP.backup_of f = Some doc /\
      (forall g, g <> f -> g <> RoyalIP.backup_of f -> sv_files s !! g = files0 !! g)).
Proof.
  assert (unchanged files0 (idle files0)) as Hs by done.
  pose proof (Royal.Configure_scheduled files0 timeout input (idle files0) Hs) as Hw. split.
  - intros s Hc. apply saved_recoverable. exact (iwp_crashes _ _ _ _ (or_introl Hs) Hw s Hc).
  - intros tr r s Hr result ->. apply (iwp_runs _ _ _ _ Hw) in Hr as (doc & (Hf & Hb & Hdoc & Herr & Hkey & Hbits & Hgw) & (H1 & H2 & _) & H3).
    destruct (readdressed_in _ _ _ _ _ eq_refl Herr Hkey) as (root & Hroot & Ha). eexists doc, root, _.
    split_and!; [done|done|exact Ha|done..| |done]. by rewrite H2.
Qed.

(** ** A server, a library and two runs *)
Section Example.

(** A netplan file, and the YAML library on the one document. *)
Definition example_file : string := "/etc/netplan/50-cloud-init.yaml".
Definition example_text : string := "network: {ethernets: {eth0: {addresses: [51.15.1.9/24], routes: [{to: default, via: 51.15.1.1}]}}}".
Definition example_entry : gmap string any :=
  {[ "addresses" := AList [AString "51.15.1.9/24"];
     "routes" := AList [AMap {[ "to" := AString "default"; "via" := AString "51.15.1.1" ]}] ]}.
Definition example_tree : gmap string any := {[ "network" := AMap {[ "ethernets" := AMap {[ "eth0" := AMap example_entry ]} ]} ]}.

Definition example_yaml : Yaml := {|
  Unmarshal := fun d => if bool_decide (d = bytes_of example_text) then Some example_tree else None;
  Marshal := fun _ => Some (bytes_of "updated")
|}.
Definition example_range : MapRange := {| range_of := map_to_list; range_of_perm := fun _ => reflexivity _ |}.

(** A server on which every command succeeds. *)
Definition example_answer (command : string) : string :=
  if String.eqb command find_command then example_file
  else "2: eth0 inet 51.15.1.9/24 inet 51.15.2.7/32 inet 51.15.2.7/24".

Definition run_command (command : string) (stdin : bytes) (s : server) : option string * server :=
  let files := sv_files s in
  match read_command command with
  | ReadFile f => (if bool_decide (files !! f = Some (bytes_of example_text)) then Some example_text else None, s)
  | CopyFile a b => match files !! a with Some c => (Some "", mkServer (<[b := c]> files) (sv_scheduled s) (sv_restoring s)) | None => (None, s) end
  | WriteFile f => (Some "", mkServer (<[f := stdin]> files) (sv_scheduled s) (sv_restoring s))
  | ScheduleRestore f b => (Some "", mkServer files (Some (f, b)) false)
  | Elsewhere => (Some (example_answer command), s)
  end.

Definition example_host : handler hostE server := fun X e s =>
  match e in hostE X return X * server with
  | HostConnect _ _ _ => (true, s)
  | HostClose => (tt, s)
  | HostClear _ => (tt, s)
  | HostWait => (true, s)
  | HostRun e =>
    match e in vpsE X return X * server with
    | RunCommand _ command stdin _ => run_command command stdin s
    | VpsCtxDone _ => (false, s)
    | VpsNow => (0, s)
    end
  end.

Lemma background_refl s : background s s.
Proof. by left. Qed.

Lemma run_command_step command stdin s :
  command_step (read_command command) stdin (fst (run_command command stdin s)) s (snd (run_command command stdin s)).
Proof.
  unfold run_command. destruct (read_command command) as [f|a b|f|f b|]; cbn.
  - split; [done|]. case_bool_decide as H; [|done]. by intros out [= <-].
  - destruct (sv_files s !! a) as [c|] eqn:Ha; cbn; [|by split_and!; [| | |intros []]].
    split_and!; [done|done|by intros g Hg; rewrite lookup_insert_ne|]. intros _. by rewrite lookup_insert_eq.
  - split_and!; [done|done| |intros _; by rewrite lookup_insert_eq]. intros g Hg. by rewrite lookup_insert_ne.
  - done.
  - done.
Qed.

Lemma example_host_step X (e : hostE X) s : env_step e s (fst (example_host X e s)) (snd (example_host X e s)).
Proof.
  destruct e as [| | | |X e]; try apply background_refl.
  destruct e; cbn; exists s; (split; [apply background_refl|try done]). apply run_command_step.
Qed.
End Example.

Lemma run_is_run {A} (p : prog hostE A) s tr a s' : Effects.run example_host p s = (tr, a, s') -> runs p s tr a s'.
Proof. intros H. pose proof (run_runs example_host p s example_host_step) as Hr. by rewrite H in Hr. Qed.

(** 51.15.1.9 with the other address 51.15.2.7. *)
Definition example_files : gmap string bytes := {[ example_file := bytes_of example_text ]}.
Definition example_cherry : prog hostE (result CherryIP.cherryErr CherryIP.Result) :=
  CherryIP.Configure (H := example_yaml) (H0 := example_range) 1 (CherryIP.mkInput (Addr4 856621321) (Addr4 856621575) "pw").
Definition example_royal : prog hostE (result RoyalIP.royalErr RoyalIP.Result) :=
  RoyalIP.Configure (H := example_yaml) (H0 := example_range) 1 (RoyalIP.mkInput (Addr4 856621321) (Addr4 856621575) "pw").

Lemma cherry_keeps_the_original_file_witness :
  exists tr r s, runs example_cherry (idle example_files) tr (Ok r) s /\ CherryIP.res_Persistent r = true /\
    recoverable example_files CherryIP.backup_of s /\
    exists f doc, example_files !! f = Some doc /\ sv_files s !! CherryIP.backup_of f = Some doc /\ sv_files s !! f = Some (bytes_of "updated").
Proof.
  destruct (Effects.run example_host example_cherry (idle example_files)) as [[tr a] s] eqn:Heq. pose proof (run_is_run _ _ _ _ _ Heq) as Hr.
  vm_compute in Heq. injection Heq as _ <- <-. eexists tr, _, _. split; [exact Hr|]. split; [done|]. split.
  - exact (proj1 (cherry_keeps_the_original_file (H := example_yaml) (H0 := example_range) 1 _ example_files) _ (runs_crashes _ _ _ _ _ Hr)).
  - exists example_file, (bytes_of example_text). by vm_compute.
Defined.

Lemma royal_keeps_the_original_file_witness :
  exists tr r s, runs example_royal (idle example_files) tr (Ok r) s /\ recoverable example_files RoyalIP.backup_of s /\
    exists doc u, example_files !! RoyalIP.res_NetplanFile r = Some doc /\ sv_restoring s = false /\
      sv_files s !! RoyalIP.res_NetplanFile r = Some (RoyalIP.up_document u) /\ sv_files s !! RoyalIP.backup_of (RoyalIP.res_NetplanFile r) = Some doc.
Proof.
  destruct (Effects.run example_host example_royal (idle example_files)) as [[tr a] s] eqn:Heq. pose proof (run_is_run _ _ _ _ _ Heq) as Hr.
  vm_compute in Heq. injection Heq as _ <- <-. eexists tr, _, _. split; [exact Hr|]. split.
  - exact (proj1 (royal_keeps_the_original_file (H := example_yaml) (H0 := example_range) 1 _ example_files) _ (runs_crashes _ _ _ _ _ Hr)).
  - destruct (proj2 (royal_keeps_the_original_file (H := example_yaml) (H0 := example_range) 1 _ example_files) _ _ _ Hr _ eq_refl)
      as (doc & root & u & H1 & _ & _ & _ & _ & H2 & _ & H3 & _). exists doc, u. split_and!; [done|done|by apply H2|done].
Defined.

(** ** A note that is wrong

    The roll-back of the file ignores its own failure, and the note says the
    original was restored all the same. *)
Definition failing_command (command : string) (stdin : bytes) (s : server) : option string * server :=
  match read_command command with
  | CopyFile a b => if String.eqb b example_file then (None, s) else run_command command stdin s
  | WriteFile f => (None, mkServer (<[f := []]> (sv_files s)) (sv_scheduled s) (sv_restoring s))
  | _ => run_command command stdin s
  end.

Definition failing_server : handler vpsE server := fun X e s =>
  match e in vpsE X return X * server with
  | RunCommand _ command stdin _ => failing_command command stdin s
  | VpsCtxDone _ => (false, s)
  | VpsNow => (0, s)
  end.

Lemma failing_server_step X (e : vpsE X) s : env_step e s (fst (failing_server X e s)) (snd (failing_server X e s)).
Proof.
  destruct e as [d c i t|d|]; cbn; exists s; (split; [apply background_refl|try done]).
  pose proof (run_command_step c i s) as Hr. unfold failing_command. destruct (read_command c) as [f|a b|f|f b|] eqn:Hc; try exact Hr.
  - destruct (String.eqb b example_file); [by split_and!; [| | |intros []]|exact Hr].
  - split_and!; [done|done| |by intros []]. intros g Hg. cbn. by rewrite lookup_insert_ne.
Qed.

Theorem cherry_note_claims_a_failed_restore :
  exists tr s, runs (CherryIP.persistNetplan (H := example_yaml) (H0 := example_range) "eth0" (Addr4 856621575) 1) (idle example_files) tr
    (false, "не удалось записать /etc/netplan/50-cloud-init.yaml; исходный файл восстановлен") s /\
    sv_files s !! example_file = Some [].
Proof.
  pose proof (run_runs (E := vpsE) (S := server) failing_server
    (CherryIP.persistNetplan (H := example_yaml) (H0 := example_range) "eth0" (Addr4 856621575) 1) (idle example_files) failing_server_step) as Hr.
  destruct (Effects.run failing_server _ _) as [[tr a] s] eqn:Heq. vm_compute in Heq. injection Heq as _ <- <-.
  eexists tr, _. split; [exact Hr|]. by vm_compute.
Qed.
