(* ===== verification/NodeOps.v ===== *)
(** * Operations on existing Nodes ([internal/orchestrator])

    Models [ip_change.go], [dns_sync.go] and [node_host_move.go]: changing the
    address of a Node, making DNS follow the panel, and moving a Node to another
    Host.  They are methods of the deployment service, so they use its effect
    signature, its execution table and its slots; the last two sections of the
    file are the facts about their compensations. *)

From S2P Require Import Prelude GoStrings Unicode NetIP Effects Deployment Repository CertTypes.
From S2P Require Import Service.
From S2P Require Remnawave DnsBalancer.

#[local] Open Scope Z_scope.

Notation ZoneMatch := DnsBalancer.ZoneMatch.

(** ** Data *)
Record NodeIPTarget : Type := mkNodeIPTarget {
  nit_UUID : string;
  nit_Name : string;
  nit_Address : Addr;
  nit_Connected : bool;
  nit_DNSZones : list string;
  nit_Managed : bool
}.

Record NodeIPChangeInput : Type := mkNodeIPChangeInput {
  nic_NodeUUID : string;
  nic_ExpectedIP : Addr;
  nic_NewIP : Addr
}.

Record NodeDNSSyncTarget : Type := mkNodeDNSSyncTarget {
  ndt_UUID : string;
  ndt_Name : string;
  ndt_Address : Addr;
  ndt_Connected : bool;
  ndt_Managed : bool;
  ndt_DNSZone : string;
  ndt_PreviousIP : Addr;
  ndt_CurrentZones : list string;
  ndt_CurrentPresent : bool;
  ndt_PreviousPresent : bool;
  ndt_CanSync : bool;
  ndt_Note : string
}.

Record NodeDNSSyncInput : Type := mkNodeDNSSyncInput { nds_NodeUUID : string; nds_ExpectedIP : Addr }.

Inductive dnsSyncAction : Type := DNSSyncAdded | DNSSyncReplaced | DNSSyncAlreadyPresent.

Record NodeDNSSyncResult : Type := mkNodeDNSSyncResult {
  ndr_NodeName : string;
  ndr_Address : Addr;
  ndr_DNSZone : string;
  ndr_Action : dnsSyncAction;
  ndr_PreviousIP : Addr
}.

Record NodeHostMoveTarget : Type := mkNodeHostMoveTarget {
  nmt_UUID : string;
  nmt_Name : string;
  nmt_Address : string;
  nmt_Managed : bool;
  nmt_CurrentHostKnown : bool;
  nmt_CurrentHostRemark : string;
  nmt_CurrentHostAddress : string;
  nmt_ExpectedConfigProfileUUID : string;
  nmt_ExpectedInboundUUIDs : list string
}.

Record NodeHostMoveOption : Type := mkNodeHostMoveOption {
  nmo_UUID : string;
  nmo_Remark : string;
  nmo_Address : string
}.

Record NodeHostMoveInput : Type := mkNodeHostMoveInput {
  nmi_NodeUUID : string;
  nmi_TargetHostUUID : string;
  nmi_ExpectedConfigProfileUUID : string;
  nmi_ExpectedInboundUUIDs : list string;
  nmi_Password : string
}.

Record NodeHostMoveResult : Type := mkNodeHostMoveResult {
  nmr_NodeName : string;
  nmr_PreviousHostKnown : bool;
  nmr_PreviousHost : string;
  nmr_TargetHost : string;
  nmr_TargetAddress : string;
  nmr_Managed : bool;
  nmr_DNSUpdated : bool
}.

(** ** Pure parts *)

(** The test of the loops of [FindNodeForIPChange] and [findExactNode]. *)
Definition query_matches (query : string) (node : Node) : bool :=
  match ParseAddr query with
  | Some queryIP => bool_decide (Unmap <$> ParseAddr (TrimSpace (Remnawave.node_Address node)) = Some (Unmap queryIP))
  | None => EqualFold (TrimSpace (Remnawave.node_Name node)) query
  end.

(** The one Node a query names, and its address. *)
Definition exact_node (query : string) (nodes : list Node) : result svcErr (Node * Addr) :=
  match List.filter (query_matches query) nodes with
  | [] => Err (Sentinel ErrNodeNotFound)
  | [node] =>
    match ParseAddr (TrimSpace (Remnawave.node_Address node)) with
    | Some address => if publicIP address then Ok (node, Unmap address) else Err (Sentinel ErrNodeIPChangeFailed)
    | None => Err (Sentinel ErrNodeIPChangeFailed)
    end
  | _ => Err (Sentinel ErrAmbiguousNode)
  end.

Definition zone_names (zones : list ZoneMatch) : list string :=
  merge_sort str_le (DnsBalancer.zm_FQDN <$> zones).

(** [zoneContainsIP]. *)
Definition zoneContainsIP (zone : DnsBalancer.Zone) (address : Addr) : bool :=
  if negb (IsValid address) then false
  else DnsBalancer.zone_matches (Unmap address) zone.

Definition canonicalUUIDs (values : list string) : list string :=
  merge_sort str_le (List.filter (fun v => negb (String.eqb v "")) (TrimSpace <$> values)).

Definition nodeProfileFingerprint (node : Node) : string * list string :=
  (match Remnawave.node_ActiveConfigProfileUUID node with Some p => TrimSpace p | None => "" end,
   canonicalUUIDs (Remnawave.node_ActiveInboundUUIDs node)).

Definition sameNodeProfile (leftProfile : string) (leftInbounds : list string)
    (rightProfile : string) (rightInbounds : list string) : bool :=
  String.eqb (TrimSpace leftProfile) (TrimSpace rightProfile) &&
  bool_decide (canonicalUUIDs leftInbounds = canonicalUUIDs rightInbounds).

(** The Node's profile is the one of [profile]. *)
Definition has_profile (node : Node) (profile : DeploymentProfile) : bool :=
  let '(profileUUID, inboundUUIDs) := nodeProfileFingerprint node in
  sameNodeProfile profileUUID inboundUUIDs
    (Remnawave.prof_ActiveConfigProfileUUID profile) (Remnawave.prof_ActiveInbounds profile).

Definition matchingNodeHosts (node : Node) (hosts : list Host) : list Host :=
  List.filter (fun host =>
    negb (Remnawave.host_IsDisabled host) &&
    match Remnawave.DeploymentProfileFromHost host with
    | Ok profile => has_profile node profile
    | Err _ => false
    end) hosts.

(** The order of the options: by lower-case remark, equal remarks by UUID. *)
Definition option_less (a b : NodeHostMoveOption) : bool :=
  if EqualFold (nmo_Remark a) (nmo_Remark b) then str_ltb (nmo_UUID a) (nmo_UUID b)
  else str_ltb (ToLower (nmo_Remark a)) (ToLower (nmo_Remark b)).
Definition option_le (a b : NodeHostMoveOption) : Prop := option_less b a = false.
#[export] Instance option_le_dec : RelDecision option_le.
Proof. intros a b. apply bool_eq_dec. Defined.

Definition move_options (node : Node) (hosts : list Host) : list NodeHostMoveOption :=
  merge_sort option_le (omap (fun host =>
    if Remnawave.host_IsDisabled host then None
    else match Remnawave.DeploymentProfileFromHost host with
    | Ok profile =>
      if has_profile node profile then None
      else Some (mkNodeHostMoveOption (Remnawave.host_UUID host) (Remnawave.host_Remark host) (Remnawave.prof_SNIDomain profile))
    | Err _ => None
    end) hosts).

(** [nodeAddress] of [node_sni.go]. *)
Definition nodeAddress (value : string) : result svcErr Addr :=
  match ParseAddr (TrimSpace value) with
  | Some address => if publicIP address then Ok (Unmap address) else Err (Sentinel ErrInvalidInput)
  | None => Err (Sentinel ErrInvalidInput)
  end.

(** The SNI domains of the Hosts a legacy Node can belong to, by their
    normalised form; the last Host of a domain wins. *)
Definition legacy_candidates (profileUUID : string) (activeInbounds : list string) (hosts : list Host)
    : gmap string string :=
  foldl (fun candidates host =>
    if Remnawave.host_IsDisabled host then candidates
    else match Remnawave.DeploymentProfileFromHost host with
    | Err _ => candidates
    | Ok profile =>
      match Remnawave.prof_ActiveInbounds profile with
      | [inbound] =>
        if negb (String.eqb (Remnawave.prof_ActiveConfigProfileUUID profile) profileUUID) ||
           negb (existsb (String.eqb inbound) activeInbounds) then candidates
        else
          let key := normalizeDomain (Remnawave.prof_SNIDomain profile) in
          if String.eqb key "" then candidates else <[key := Remnawave.prof_SNIDomain profile]> candidates
      | _ => candidates
      end
    end) ∅ hosts.

(** The loop of [ReplaceNodeIP] over the Nodes. *)
Fixpoint select_node (uuid : string) (newIP : Addr) (selected : option Node) (nodes : list Node)
    : result svcErr (option Node) :=
  match nodes with
  | [] => Ok selected
  | node :: nodes' =>
    let own := String.eqb (Remnawave.node_UUID node) uuid in
    if negb own && bool_decide (Unmap <$> ParseAddr (TrimSpace (Remnawave.node_Address node)) = Some newIP)
    then Err (Sentinel ErrDuplicateNodeAddress)
    else select_node uuid newIP (if own then Some node else selected) nodes'
  end.

(** ** The operations *)
Section Operations.
Variable config : Config.

Notation M := (prog svcE).

(** [return x, Sentinel]. *)
Definition refuse {A} (k : errKind) : M (result svcErr A) := mret (Err (Sentinel k)).

(** The zones that hold an address, unless DNS is disabled. *)
Definition zones_of (address : Addr) (k : list ZoneMatch -> M (result svcErr string)) : M (result svcErr string) :=
  if cfg_DNSDisabled config then k []
  else
    zones ← call (DnsFindZonesByIP address);
    match zones with Err _ => refuse ErrDNSUpdateFailed | Ok zones => k zones end.

(** [FindDeploymentByPanelNodeUUID], where a missing row is an answer. *)
Definition managed_deployment {A} (uuid : string) (k : option Deployment -> M (result svcErr A)) : M (result svcErr A) :=
  managed ← call (RepoFindByNode (cfg_PanelID config) uuid);
  match managed with
  | Ok d => k (Some d)
  | Err e => if bool_decide (e = Repository.ErrNotFound) then k None else refuse ErrPersistenceFailed
  end.

(** [findExactNode]; [FindNodeForIPChange] has the same code inline. *)
Definition findExactNode (query : string) : M (result svcErr (Node * Addr)) :=
  let query := TrimSpace query in
  if String.eqb query "" then refuse ErrInvalidInput
  else
    nodes ← call RemGetNodes;
    match nodes with
    | Err _ => refuse ErrNodeIPChangeFailed
    | Ok nodes => mret (exact_node query nodes)
    end.

Definition FindNodeForIPChange (query : string) : M (result svcErr NodeIPTarget) :=
  found ← findExactNode query;
  match found with
  | Err e => mret (Err e)
  | Ok (node, address) =>
    zones ← (if cfg_DNSDisabled config then mret (Ok []) else call (DnsFindZonesByIP address));
    match zones with
    | Err _ => refuse ErrDNSUpdateFailed
    | Ok zones =>
      managed_deployment (Remnawave.node_UUID node) (fun managed =>
        mret (Ok (mkNodeIPTarget (Remnawave.node_UUID node) (Remnawave.node_Name node) address
          (Remnawave.node_IsConnected node) (zone_names zones) (bool_decide (managed <> None)))))
    end
  end.

(** [rollbackNodeIP]: the zones changed so far, the last one first. *)
Definition rollbackNodeIP (nodeUUID : string) (oldIP newIP : Addr) (zones : list ZoneMatch) : M unit :=
  _ ← for_each (fun zone => _ ← call (DnsReplaceIP (DnsBalancer.zm_FQDN zone) newIP oldIP); mret tt) (rev zones);
  _ ← call (RemUpdateAddress (Remnawave.mkUpdateNodeAddressInput nodeUUID oldIP)); mret tt.

(** The loop over the zones: the ones that changed, and whether a request failed. *)
Fixpoint replace_zones (oldIP newIP : Addr) (zones changed : list ZoneMatch) : M (list ZoneMatch * bool) :=
  match zones with
  | [] => mret (changed, false)
  | zone :: zones' =>
    result ← call (DnsReplaceIP (DnsBalancer.zm_FQDN zone) oldIP newIP);
    match result with
    | Err _ => mret (changed, true)
    | Ok r => replace_zones oldIP newIP zones' (if DnsBalancer.rep_Changed r then changed ++ [zone] else changed)
    end
  end.

(** The writes of [ReplaceNodeIP], once everything has been read. *)
Definition replace_address (node : Node) (oldIP newIP : Addr) (zones : list ZoneMatch) (managed : option Deployment)
    : M (result svcErr string) :=
  updated ← call (RemUpdateAddress (Remnawave.mkUpdateNodeAddressInput (Remnawave.node_UUID node) newIP));
  match updated with
  | Err _ => refuse ErrNodeIPChangeFailed
  | Ok _ =>
    '(changed, failed) ← replace_zones oldIP newIP zones [];
    if (failed : bool) then
      _ ← rollbackNodeIP (Remnawave.node_UUID node) oldIP newIP changed;
      refuse ErrDNSUpdateFailed
    else
      stored ← match managed with
               | None => mret true
               | Some d => (fun r => is_ok r) <$> call (RepoSetIP (ID d) newIP)
               end;
      if negb (stored : bool) then
        _ ← rollbackNodeIP (Remnawave.node_UUID node) oldIP newIP changed;
        refuse ErrPersistenceFailed
      else
        mret (Ok ("IP ноды «" +:+ Remnawave.node_Name node +:+ "» изменён: " +:+ addr_string oldIP +:+ " → " +:+
          addr_string newIP +:+ ". DNS-зон обновлено: " +:+ Itoa (Z.of_nat (length zones))))
  end.

Definition replace_body (input : NodeIPChangeInput) (oldIP newIP : Addr) : M (result svcErr string) :=
  nodes ← call RemGetNodes;
  match nodes with
  | Err _ => refuse ErrNodeIPChangeFailed
  | Ok nodes =>
    match select_node (nic_NodeUUID input) newIP None nodes with
    | Err e => mret (Err e)
    | Ok None => refuse ErrNodeNotFound
    | Ok (Some node) =>
      if negb (bool_decide (Unmap <$> ParseAddr (TrimSpace (Remnawave.node_Address node)) = Some oldIP))
      then refuse ErrNodeIPChangeFailed
      else
        zones_of oldIP (fun zones =>
          managed_deployment (Remnawave.node_UUID node) (replace_address node oldIP newIP zones))
    end
  end.

Definition ReplaceNodeIP (input : NodeIPChangeInput) : M (result svcErr string) :=
  if String.eqb (TrimSpace (nic_NodeUUID input)) "" || negb (IsValid (nic_ExpectedIP input)) ||
     negb (IsValid (nic_NewIP input)) || negb (publicIP (nic_NewIP input))
  then refuse ErrInvalidInput
  else
    let oldIP := Unmap (nic_ExpectedIP input) in
    let newIP := Unmap (nic_NewIP input) in
    if bool_decide (oldIP = newIP) then mret (Ok ("IP ноды уже равен " +:+ addr_string newIP))
    else with_execution config Err ("node-ip:" +:+ TrimSpace (nic_NodeUUID input)) (replace_body input oldIP newIP).

(** *** DNS follows the panel ([dns_sync.go]) *)

(** [inferLegacyDNSZone]: the zone, if it can be told, and a note. *)
Definition inferLegacyDNSZone (node : Node) : M (result svcErr (option ZoneMatch * string)) :=
  match Remnawave.node_ActiveConfigProfileUUID node with
  | None => mret (Ok (None, "Legacy-нода не содержит полного профиля и inbound для определения DNS-зоны"))
  | Some profile =>
    if String.eqb (TrimSpace profile) "" || (length (Remnawave.node_ActiveInboundUUIDs node) =? 0)%nat
    then mret (Ok (None, "Legacy-нода не содержит полного профиля и inbound для определения DNS-зоны"))
    else
      hosts ← call RemGetHosts;
      match hosts with
      | Err _ => refuse ErrNodeIPChangeFailed
      | Ok hosts =>
        let activeInbounds := List.filter (fun v => negb (String.eqb v "")) (TrimSpace <$> Remnawave.node_ActiveInboundUUIDs node) in
        match map_to_list (legacy_candidates (TrimSpace profile) activeInbounds hosts) with
        | [] => mret (Ok (None, "Для профиля и inbound legacy-ноды не найден подходящий активный Host"))
        | [(_, sni)] =>
          match_ ← call (DnsFindZone sni);
          match match_ with
          | Err _ => refuse ErrDNSUpdateFailed
          | Ok m => mret (Ok (Some m, "Целевая зона определена по совпадению профиля и inbound ноды с Host"))
          end
        | _ => mret (Ok (None, "Профиль и inbound legacy-ноды соответствуют нескольким Host с разными SNI; выбор зоны неоднозначен"))
        end
      end
  end.

(** [findNodeByUUID]. *)
Definition findNodeByUUID (uuid : string) : M (result svcErr (Node * Addr)) :=
  nodes ← call RemGetNodes;
  match nodes with
  | Err _ => refuse ErrNodeIPChangeFailed
  | Ok nodes =>
    match find_first (fun node => String.eqb (Remnawave.node_UUID node) (TrimSpace uuid)) nodes with
    | None => refuse ErrNodeNotFound
    | Some node =>
      match ParseAddr (TrimSpace (Remnawave.node_Address node)) with
      | Some address => if publicIP address then mret (Ok (node, Unmap address)) else refuse ErrNodeIPChangeFailed
      | None => refuse ErrNodeIPChangeFailed
      end
    end
  end.

Definition advanced (m : ZoneMatch) : bool :=
  negb (length (elems (DnsBalancer.zone_Nodes (DnsBalancer.zm_Zone m))) =? 0)%nat.

(** The preview of a legacy Node. *)
Definition legacy_target (node : Node) (address : Addr) (zones : list string) (inferred : option ZoneMatch) (note : string)
    : NodeDNSSyncTarget :=
  let target zone present can note :=
    mkNodeDNSSyncTarget (Remnawave.node_UUID node) (Remnawave.node_Name node) address (Remnawave.node_IsConnected node)
      false zone AddrInvalid zones present false can note in
  match inferred with
  | None => target "" false false note
  | Some m =>
    let present := zoneContainsIP (DnsBalancer.zm_Zone m) address in
    if advanced m && negb present
    then target (DnsBalancer.zm_FQDN m) present false
           (note +:+ "; в расширенной зоне нет старой записи, поэтому служебный address нельзя угадать безопасно")
    else if present then target (DnsBalancer.zm_FQDN m) present true (note +:+ "; DNS уже соответствует Remnawave")
    else target (DnsBalancer.zm_FQDN m) present true
           (note +:+ "; актуальный IP будет добавлен, неизвестные старые адреса legacy-ноды удаляться не будут")
  end.

(** The preview of a managed Node. *)
Definition managed_target (node : Node) (address : Addr) (zones : list string) (managed : Deployment) (m : ZoneMatch)
    : NodeDNSSyncTarget :=
  let previous := Unmap (TargetVPSIP managed) in
  let current := zoneContainsIP (DnsBalancer.zm_Zone m) address in
  let old := IsValid previous && zoneContainsIP (DnsBalancer.zm_Zone m) previous in
  let target can note :=
    mkNodeDNSSyncTarget (Remnawave.node_UUID node) (Remnawave.node_Name node) address (Remnawave.node_IsConnected node)
      true (DnsBalancer.zm_FQDN m) previous zones current old can note in
  let moved := negb (bool_decide (previous = address)) in
  if advanced m && negb current && negb old
  then target false "В расширенной DNS-зоне нет старой записи ноды; адрес назначения нельзя угадать безопасно"
  else if current && moved && old then target true "Актуальный IP уже есть; устаревший IP будет удалён из целевой зоны"
  else if current then target true "DNS уже соответствует Remnawave"
  else if moved && old then target true "Устаревший IP будет заменён актуальным IP из Remnawave"
  else target true "Актуальный IP из Remnawave будет добавлен в DNS".

Definition FindNodeForDNSSync (query : string) : M (result svcErr NodeDNSSyncTarget) :=
  if cfg_DNSDisabled config then refuse ErrDNSSyncUnavailable
  else
    found ← findExactNode query;
    match found with
    | Err e => mret (Err e)
    | Ok (node, address) =>
      zones ← call (DnsFindZonesByIP address);
      match zones with
      | Err _ => refuse ErrDNSUpdateFailed
      | Ok zones =>
        managed_deployment (Remnawave.node_UUID node) (fun managed =>
          match managed with
          | None =>
            inferred ← inferLegacyDNSZone node;
            match inferred with
            | Err e => mret (Err e)
            | Ok (m, note) => mret (Ok (legacy_target node address (zone_names zones) m note))
            end
          | Some d =>
            match_ ← call (DnsFindZone (SNIDomain d));
            match match_ with
            | Err _ => refuse ErrDNSUpdateFailed
            | Ok m => mret (Ok (managed_target node address (zone_names zones) d m))
            end
          end)
      end
    end.

(** The DNS write of [SyncNodeDNS], if any: what was done. *)
Definition sync_zone (m : ZoneMatch) (previous address : Addr) : M (result svcErr dnsSyncAction) :=
  let currentPresent := zoneContainsIP (DnsBalancer.zm_Zone m) address in
  let previousPresent := IsValid previous && negb (bool_decide (previous = address)) &&
                         zoneContainsIP (DnsBalancer.zm_Zone m) previous in
  if previousPresent then
    r ← call (DnsReplaceIP (DnsBalancer.zm_FQDN m) previous address);
    match r with
    | Err _ => refuse ErrDNSUpdateFailed
    | Ok r => mret (Ok (if DnsBalancer.rep_Changed r then DNSSyncReplaced else DNSSyncAlreadyPresent))
    end
  else if negb currentPresent then
    if advanced m then refuse ErrDNSTargetUnknown
    else
      r ← call (DnsAddIP (DnsBalancer.zm_FQDN m) address);
      match r with
      | Err _ => refuse ErrDNSUpdateFailed
      | Ok r => mret (Ok (if DnsBalancer.add_Added r then DNSSyncAdded else DNSSyncAlreadyPresent))
      end
  else mret (Ok DNSSyncAlreadyPresent).

(** The writes of [SyncNodeDNS] on the zone it found. *)
Definition sync_writes (node : Node) (address : Addr) (managed : option Deployment) (m : ZoneMatch)
    : M (result svcErr NodeDNSSyncResult) :=
  let previous := match managed with Some d => Unmap (TargetVPSIP d) | None => AddrInvalid end in
  action ← sync_zone m previous address;
  match action with
  | Err e => mret (Err e)
  | Ok action =>
    stored ← match managed with
             | Some d =>
               if bool_decide (previous = address) then mret true
               else (fun r => is_ok r) <$> call (RepoSetIP (ID d) address)
             | None => mret true
             end;
    if negb (stored : bool) then refuse ErrPersistenceFailed
    else mret (Ok (mkNodeDNSSyncResult (Remnawave.node_Name node) address (DnsBalancer.zm_FQDN m) action previous))
  end.

Definition sync_body (input : NodeDNSSyncInput) : M (result svcErr NodeDNSSyncResult) :=
  found ← findNodeByUUID (nds_NodeUUID input);
  match found with
  | Err e => mret (Err e)
  | Ok (node, address) =>
    if negb (bool_decide (address = Unmap (nds_ExpectedIP input))) then refuse ErrNodeIPChangeFailed
    else
      managed_deployment (Remnawave.node_UUID node) (fun managed =>
        match managed with
        | None =>
          inferred ← inferLegacyDNSZone node;
          match inferred with
          | Err e => mret (Err e)
          | Ok (None, _) => refuse ErrDNSTargetUnknown
          | Ok (Some m, _) => sync_writes node address None m
          end
        | Some d =>
          match_ ← call (DnsFindZone (SNIDomain d));
          match match_ with
          | Err _ => refuse ErrDNSUpdateFailed
          | Ok m => sync_writes node address (Some d) m
          end
        end)
  end.

Definition SyncNodeDNS (input : NodeDNSSyncInput) : M (result svcErr NodeDNSSyncResult) :=
  if cfg_DNSDisabled config then refuse ErrDNSSyncUnavailable
  else if String.eqb (TrimSpace (nds_NodeUUID input)) "" || negb (IsValid (nds_ExpectedIP input)) ||
          negb (publicIP (nds_ExpectedIP input))
  then refuse ErrInvalidInput
  else with_execution config Err ("node-dns:" +:+ TrimSpace (nds_NodeUUID input)) (sync_body input).

(** *** Moving a Node to another Host ([node_host_move.go]) *)
Definition nodeByUUID (uuid : string) : M (result svcErr Node) :=
  nodes ← call RemGetNodes;
  match nodes with
  | Err _ => refuse ErrNodeHostMoveFailed
  | Ok nodes =>
    match find_first (fun node => String.eqb (Remnawave.node_UUID node) uuid) nodes with
    | None => refuse ErrNodeNotFound
    | Some node => mret (Ok node)
    end
  end.

Definition PrepareNodeHostMove (nodeUUID : string) : M (result svcErr (NodeHostMoveTarget * list NodeHostMoveOption)) :=
  let nodeUUID := TrimSpace nodeUUID in
  if String.eqb nodeUUID "" then refuse ErrInvalidInput
  else
    found ← nodeByUUID nodeUUID;
    match found with
    | Err e => mret (Err e)
    | Ok node =>
      hosts ← call RemGetHosts;
      match hosts with
      | Err _ => refuse ErrNodeHostMoveFailed
      | Ok hosts =>
        managed_deployment (Remnawave.node_UUID node) (fun managed =>
          match matchingNodeHosts node hosts with
          | [current] =>
            let '(profileUUID, inboundUUIDs) := nodeProfileFingerprint node in
            mret (Ok (mkNodeHostMoveTarget (Remnawave.node_UUID node) (Remnawave.node_Name node) (Remnawave.node_Address node)
              (bool_decide (managed <> None)) true (Remnawave.host_Remark current) (Remnawave.host_Address current)
              profileUUID inboundUUIDs, move_options node hosts))
          | _ => refuse ErrNodeHostMoveFailed
          end)
      end
    end.

(** Everything a move has read and decided before its first write. *)
Record movePlan : Type := mkMovePlan {
  mp_Node : Node;
  mp_Address : Addr;
  mp_Previous : Host;
  mp_PreviousProfile : DeploymentProfile;
  mp_Target : Host;
  mp_TargetProfile : DeploymentProfile;
  mp_Managed : option Deployment;
  mp_Password : string;
  mp_PreviousCertificate : Material;
  mp_TargetCertificate : Material
}.

(** The switch of the VPS to the target's SNI, and back. *)
Definition switch_forward (p : movePlan) : NodeSNISwitchInput :=
  mkNodeSNISwitchInput (mp_Address p) (Remnawave.prof_SNIDomain (mp_PreviousProfile p))
    (Remnawave.prof_SNIDomain (mp_TargetProfile p)) (mp_Password p) (mp_PreviousCertificate p) (mp_TargetCertificate p).
Definition switch_back (p : movePlan) (previousProfile : DeploymentProfile) : NodeSNISwitchInput :=
  mkNodeSNISwitchInput (mp_Address p) (Remnawave.prof_SNIDomain (mp_TargetProfile p))
    (Remnawave.prof_SNIDomain previousProfile) (mp_Password p) (mp_TargetCertificate p) (mp_PreviousCertificate p).

(** [rollbackNodeHostMove], in a context of its own. *)
Definition rollbackNodeHostMove (p : movePlan) (dnsChanged : bool) : M unit :=
  _ ← call (RemUpdateProfile (Remnawave.mkUpdateNodeProfileInput (Remnawave.node_UUID (mp_Node p)) (mp_Previous p)));
  match Remnawave.DeploymentProfileFromHost (mp_Previous p) with
  | Err _ => mret tt
  | Ok previousProfile =>
    _ ← (if dnsChanged then
           _ ← call (DnsMoveIP (Remnawave.prof_SNIDomain (mp_TargetProfile p)) (Remnawave.prof_SNIDomain previousProfile) (mp_Address p));
           mret tt
         else mret tt);
    _ ← call (SwitchNodeSNI (switch_back p previousProfile)); mret tt
  end.

Definition undo_move {A} (p : movePlan) (dnsChanged : bool) (k : errKind) : M (result svcErr A) :=
  _ ← rollbackNodeHostMove p dnsChanged; refuse k.

(** The writes of the move. *)
Definition move_binding (p : movePlan) (dnsChanged : bool) : M (result svcErr NodeHostMoveResult) :=
  stored ← match mp_Managed p with
           | None => mret true
           | Some d => (fun r => is_ok r) <$> call (RepoSetBinding (ID d)
               (mkSetNodeHostBindingParams (Remnawave.host_UUID (mp_Target p)) (Remnawave.host_Remark (mp_Target p))
                  (Remnawave.prof_SNIDomain (mp_TargetProfile p))))
           end;
  if negb (stored : bool) then undo_move p dnsChanged ErrPersistenceFailed
  else mret (Ok (mkNodeHostMoveResult (Remnawave.node_Name (mp_Node p)) true (Remnawave.host_Remark (mp_Previous p))
         (Remnawave.host_Remark (mp_Target p)) (Remnawave.prof_SNIDomain (mp_TargetProfile p))
         (bool_decide (mp_Managed p <> None)) (negb (cfg_DNSDisabled config)))).

Definition move_dns (p : movePlan) : M (result svcErr NodeHostMoveResult) :=
  if cfg_DNSDisabled config then move_binding p false
  else
    moved ← call (DnsMoveIP (Remnawave.prof_SNIDomain (mp_PreviousProfile p)) (Remnawave.prof_SNIDomain (mp_TargetProfile p)) (mp_Address p));
    match moved with
    | Err _ => undo_move p false ErrDNSUpdateFailed
    | Ok r => move_binding p (DnsBalancer.mv_Changed r)
    end.

Definition move_writes (p : movePlan) : M (result svcErr NodeHostMoveResult) :=
  switched ← call (SwitchNodeSNI (switch_forward p));
  match switched with
  | Some _ => refuse ErrNodeSNISwitchFailed
  | None =>
    updated ← call (RemUpdateProfile (Remnawave.mkUpdateNodeProfileInput (Remnawave.node_UUID (mp_Node p)) (mp_Target p)));
    match updated with
    | Err _ => undo_move p false ErrNodeHostMoveFailed
    | Ok updated =>
      if negb (has_profile updated (mp_TargetProfile p)) then undo_move p false ErrNodeHostMoveFailed
      else move_dns p
    end
  end.

(** The certificates of both domains, destroyed when the move is over. *)
Definition move_certificates (plan : Material -> Material -> movePlan) (previousSNI targetSNI : string)
    : M (result svcErr NodeHostMoveResult) :=
  previousCertificate ← call (CertPrepare previousSNI);
  match previousCertificate with
  | Err _ => refuse ErrCertificateUnavailable
  | Ok previousCertificate =>
    finally
      (targetCertificate ← call (CertPrepare targetSNI);
       match targetCertificate with
       | Err _ => refuse ErrCertificateUnavailable
       | Ok targetCertificate =>
         finally (move_writes (plan previousCertificate targetCertificate)) (call (DestroyMaterial targetCertificate))
       end)
      (call (DestroyMaterial previousCertificate))
  end.

(** The Hosts a move is between, from what the panel lists. *)
Definition plan_hosts (node : Node) (hosts : list Host) (targetUUID : string)
    : result svcErr (Host * DeploymentProfile * Host * DeploymentProfile * Addr) :=
  match find_first (fun h => String.eqb (Remnawave.host_UUID h) targetUUID) hosts with
  | None => Err (Sentinel ErrHostUnavailable)
  | Some selected =>
    if Remnawave.host_IsDisabled selected then Err (Sentinel ErrHostUnavailable)
    else match Remnawave.DeploymentProfileFromHost selected with
    | Err _ => Err (Sentinel ErrHostUnavailable)
    | Ok targetProfile =>
      if has_profile node targetProfile then Err (Sentinel ErrNodeHostUnchanged)
      else match matchingNodeHosts node hosts with
      | [previous] =>
        match Remnawave.DeploymentProfileFromHost previous with
        | Err _ => Err (Sentinel ErrNodeHostMoveFailed)
        | Ok previousProfile =>
          if EqualFold (Remnawave.prof_SNIDomain previousProfile) (Remnawave.prof_SNIDomain targetProfile)
          then Err (Sentinel ErrNodeHostMoveFailed)
          else match nodeAddress (Remnawave.node_Address node) with
          | Err _ => Err (Sentinel ErrNodeHostMoveFailed)
          | Ok address => Ok (selected, targetProfile, previous, previousProfile, address)
          end
        end
      | _ => Err (Sentinel ErrNodeHostMoveFailed)
      end
    end
  end.

Definition move_body (input : NodeHostMoveInput) (nodeUUID targetUUID : string) : M (result svcErr NodeHostMoveResult) :=
  found ← nodeByUUID nodeUUID;
  match found with
  | Err e => mret (Err e)
  | Ok node =>
    let '(profileUUID, inboundUUIDs) := nodeProfileFingerprint node in
    if negb (sameNodeProfile profileUUID inboundUUIDs (TrimSpace (nmi_ExpectedConfigProfileUUID input))
               (canonicalUUIDs (nmi_ExpectedInboundUUIDs input)))
    then refuse ErrNodeStateChanged
    else
      hosts ← call RemGetHosts;
      match hosts with
      | Err _ => refuse ErrNodeHostMoveFailed
      | Ok hosts =>
        match plan_hosts node hosts targetUUID with
        | Err e => mret (Err e)
        | Ok (selected, targetProfile, previous, previousProfile, address) =>
          managed_deployment (Remnawave.node_UUID node) (fun managed =>
            move_certificates (mkMovePlan node address previous previousProfile selected targetProfile managed (nmi_Password input))
              (Remnawave.prof_SNIDomain previousProfile) (Remnawave.prof_SNIDomain targetProfile))
        end
      end
  end.

Definition MoveNodeToHost (input : NodeHostMoveInput) : M (result svcErr NodeHostMoveResult) :=
  let nodeUUID := TrimSpace (nmi_NodeUUID input) in
  let targetUUID := TrimSpace (nmi_TargetHostUUID input) in
  if String.eqb nodeUUID "" || String.eqb targetUUID "" || String.eqb (nmi_Password input) "" ||
     negb (cfg_NodeSNISwitcher config)
  then refuse ErrInvalidInput
  else with_execution config Err ("node-host:" +:+ nodeUUID) (move_body input nodeUUID targetUUID).
End Operations.
