(* ===== verification/NodeFacts.v ===== *)
(** * Facts about the operations on existing Nodes

    Every write of [ReplaceNodeIP], [SyncNodeDNS] and [MoveNodeToHost] is
    accounted for: either the writes form the complete operation, or they are
    the part of it that was done before something failed, followed by its
    compensation, the last effect first. *)

From S2P Require Import Prelude GoStrings Unicode NetIP NetIPFacts Effects Deployment Repository CertTypes.
From S2P Require Import Service ServiceFacts NodeOps.
From S2P Require Remnawave DnsBalancer.

#[local] Open Scope Z_scope.

(** ** Writes *)

(** The writes of an operation and what became of them.  Reads, looks at the
    context, the bookkeeping of executions and slots, and the handling of
    certificate materials are no writes; anything else is [WOther]. *)
Inductive nodeWrite : Type :=
  | WAddress (uuid : string) (ip : Addr) (ok : bool)
  | WReplace (fqdn : string) (oldIP newIP : Addr) (changed : option bool)
  | WAdd (fqdn : string) (ip : Addr) (added : option bool)
  | WStoreIP (id : string) (ip : Addr) (ok : bool)
  | WSwitch (i : NodeSNISwitchInput) (ok : bool)
  | WProfile (uuid : string) (host : Host) (answer : option Node)
  | WMove (source target : string) (ip : Addr) (changed : option bool)
  | WBinding (id : string) (p : SetNodeHostBindingParams) (ok : bool)
  | WOther.

Definition answered {E A B} (f : A -> B) (r : result E A) : option B :=
  match r with Ok a => Some (f a) | Err _ => None end.

Definition node_write : event svcE -> option nodeWrite := answer_test (fun X e =>
  match e in svcE X return X -> option nodeWrite with
  | CtxErr _ | RunningInsert _ | RunningRemove _ | RunningCancel _ | SlotAcquire | SlotRelease | Observe _ | Since
  | RepoGet _ | RepoListSteps _ | RepoFindByNode _ _ | RemGetHosts | RemGetNodes | RemGetNode _
  | DnsFindZone _ | DnsFindZonesByIP _ | CertReadiness _ | CertPrepare _ | DestroyMaterial _ => fun _ => None
  | RemUpdateAddress i => fun r => Some (WAddress (Remnawave.una_UUID i) (Remnawave.una_Address i) (is_ok r))
  | DnsReplaceIP fqdn oldIP newIP => fun r => Some (WReplace fqdn oldIP newIP (answered DnsBalancer.rep_Changed r))
  | DnsAddIP fqdn ip => fun r => Some (WAdd fqdn ip (answered DnsBalancer.add_Added r))
  | RepoSetIP id ip => fun r => Some (WStoreIP id ip (is_ok r))
  | SwitchNodeSNI i => fun r => Some (WSwitch i (bool_decide (r = None)))
  | RemUpdateProfile i => fun r => Some (WProfile (Remnawave.unp_UUID i) (Remnawave.unp_Host i) (answered id r))
  | DnsMoveIP source target ip => fun r => Some (WMove source target ip (answered DnsBalancer.mv_Changed r))
  | RepoSetBinding i p => fun r => Some (WBinding i p (is_ok r))
  | _ => fun _ => Some WOther
  end).

Definition node_writes (tr : list (event svcE)) : list nodeWrite := omap node_write tr.

Lemma node_writes_app tr t : node_writes (tr ++ t) = node_writes tr ++ node_writes t.
Proof. apply omap_app. Qed.

Lemma node_writes_snoc tr ev : node_writes (tr ++ [ev]) = node_writes tr ++ option_list (node_write ev).
Proof. rewrite node_writes_app. simpl. by destruct (node_write ev). Qed.

(** ** The bookkeeping around a body *)
Definition bookkeeping (ev : event svcE) : Prop := among [CRunning; CSlot; CObserve] (op_class (ev_op ev)) = true.

Lemma bookkeeping_writes tr : (forall ev, ev ∈ tr -> bookkeeping ev) -> node_writes tr = [].
Proof.
  induction tr as [|[X e x] tr IH]; [done|]. intros H. simpl.
  assert (node_write (Ev e x) = None) as -> by (specialize (H (Ev e x) ltac:(left)); by destruct e).
  apply IH. intros ev Hev. apply H. by right.
Qed.

(** A post-condition of a body that the bookkeeping does not disturb is one of
    the whole execution. *)
Lemma wp_bookkeeping {A} (p : prog svcE A) (Q : list (event svcE) -> Prop) tr :
  calls_only (kinds (among [CRunning; CSlot; CObserve])) p ->
  (forall tr ev, bookkeeping ev -> Q tr -> Q (tr ++ [ev])) -> Q tr ->
  wp p tt tr (fun _ _ tr' => Q tr').
Proof. intros Hp HQ H. eapply wp_calls_only; [exact Hp| |exact H]. intros tr' ev He. by apply HQ. Qed.

Lemma wp_execution_post config {A} (wrap : svcErr -> A) id (body : prog svcE A) (Q : list (event svcE) -> A -> Prop) :
  (forall tr ev a, bookkeeping ev -> Q tr a -> Q (tr ++ [ev]) a) ->
  (forall tr e, (forall ev, ev ∈ tr -> bookkeeping ev) -> Q tr (wrap e)) ->
  (forall tr, (forall ev, ev ∈ tr -> bookkeeping ev) -> wp body tt tr (fun a _ tr' => Q tr' a)) ->
  wp (with_execution config wrap id body) tt [] (fun a _ tr' => Q tr' a).
Proof.
  intros Hstep Hwrap Hbody. pose (I := fun tr : list (event svcE) => forall ev, ev ∈ tr -> bookkeeping ev).
  assert (forall tr ev, bookkeeping ev -> I tr -> I (tr ++ [ev])) as HI.
  { intros tr ev He H ev' [Hin|Hin]%elem_of_app; [by apply H|]. by apply list_elem_of_singleton in Hin as ->. }
  unfold with_execution. wp_steps.
  eapply wp_mono; [apply (wp_bookkeeping _ I); [unfold beginExecution; svc_calls|exact HI|by intros ev Hev%not_elem_of_nil]|].
  intros [e|] [] tr1 H1; cbv beta; [wp_steps; by apply Hwrap|]. wp_steps.
  eapply wp_mono; [apply (wp_bookkeeping _ I); [unfold acquire; svc_calls|exact HI|exact H1]|].
  intros [e|] [] tr2 H2; cbv beta; wp_steps.
  - apply wp_call. intros ? [] _. apply Hstep; [done|by apply Hwrap].
  - eapply wp_mono; [by apply Hbody|]. intros a [] tr3 H3. cbv beta.
    eapply wp_mono; [apply (wp_bookkeeping _ (fun tr => Q tr a)); [unfold releaseSlot; svc_calls|by intros; apply Hstep|exact H3]|].
    intros [] [] tr4 H4. cbv beta. apply wp_call. intros ? [] _. by apply Hstep.
Qed.

(** ** Changing the address of a Node *)

(** The zones among those replaced whose answer says that they changed. *)
Definition changed_zones (zones : list ZoneMatch) (answers : list bool) : list ZoneMatch :=
  omap (fun '(zone, changed) => if (changed : bool) then Some zone else None) (zip zones answers).

Definition zones_replaced (oldIP newIP : Addr) (zones : list ZoneMatch) (answers : list bool) : list nodeWrite :=
  zip_with (fun zone changed => WReplace (DnsBalancer.zm_FQDN zone) oldIP newIP (Some changed)) zones answers.

(** The compensation: the changed zones get the old address back, the last one
    first, then the Node does; none of these requests has to succeed. *)
Definition address_restored (uuid : string) (oldIP newIP : Addr) (zones : list ZoneMatch) (ws : list nodeWrite) : Prop :=
  exists answers ok, length answers = length zones /\
    ws = zip_with (fun zone a => WReplace (DnsBalancer.zm_FQDN zone) newIP oldIP a) (rev zones) answers ++ [WAddress uuid oldIP ok].

(** The writes of a change of address that got as far as writing, and whether it succeeded. *)
Inductive address_change (uuid : string) (oldIP newIP : Addr) (zones : list ZoneMatch) (managed : option Deployment)
    : list nodeWrite -> bool -> Prop :=
  | change_refused : address_change uuid oldIP newIP zones managed [WAddress uuid newIP false] false
  | change_done answers :
      length answers = length zones ->
      address_change uuid oldIP newIP zones managed
        (WAddress uuid newIP true :: zones_replaced oldIP newIP zones answers ++
         match managed with Some d => [WStoreIP (ID d) newIP true] | None => [] end) true
  | change_undone answers failure undo :
      (exists zone, zones !! length answers = Some zone /\ failure = WReplace (DnsBalancer.zm_FQDN zone) oldIP newIP None) \/
      (length answers = length zones /\ exists d, managed = Some d /\ failure = WStoreIP (ID d) newIP false) ->
      address_restored uuid oldIP newIP (changed_zones zones answers) undo ->
      address_change uuid oldIP newIP zones managed
        (WAddress uuid newIP true :: zones_replaced oldIP newIP zones answers ++ failure :: undo) false.

(** What the change had read before it wrote. *)
Record address_change_read (config : Config) (uuid : string) (oldIP newIP : Addr) (node : Node) (zones : list ZoneMatch)
    (managed : option Deployment) (tr : list (event svcE)) : Prop := {
  acr_nodes : exists nodes, Ev RemGetNodes (Ok nodes) ∈ tr /\ node ∈ nodes /\
    forall n, n ∈ nodes -> Remnawave.node_UUID n <> uuid -> read_addr (Remnawave.node_Address n) <> Some newIP;
  acr_node : Remnawave.node_UUID node = uuid /\ read_addr (Remnawave.node_Address node) = Some oldIP;
  acr_zones : if cfg_DNSDisabled config then zones = [] else Ev (DnsFindZonesByIP oldIP) (Ok zones) ∈ tr;
  acr_managed : Ev (RepoFindByNode (cfg_PanelID config) uuid)
    (match managed with Some d => Ok d | None => Err Repository.ErrNotFound end) ∈ tr
}.

Lemma address_change_read_grows config uuid oldIP newIP node zones managed tr tr' :
  grows tr tr' -> address_change_read config uuid oldIP newIP node zones managed tr ->
  address_change_read config uuid oldIP newIP node zones managed tr'.
Proof.
  intros Hg [(nodes & H1 & H2) H3 H4 H5]. split; [|done| |by eapply grows_elem].
  - exists nodes. split; [by eapply grows_elem|done].
  - destruct (cfg_DNSDisabled config); [done|by eapply grows_elem].
Qed.

Lemma wp_replace_zones oldIP newIP zones changed tr :
  wp (replace_zones oldIP newIP zones changed) tt tr (fun r _ tr' =>
    grows tr tr' /\ exists answers, fst r = changed ++ changed_zones zones answers /\
    if (snd r : bool)
    then exists zone, zones !! length answers = Some zone /\
      node_writes tr' = node_writes tr ++ zones_replaced oldIP newIP zones answers ++ [WReplace (DnsBalancer.zm_FQDN zone) oldIP newIP None]
    else length answers = length zones /\ node_writes tr' = node_writes tr ++ zones_replaced oldIP newIP zones answers).
Proof.
  revert changed tr. induction zones as [|zone zones IH]; intros changed tr; simpl.
  - wp_steps. split; [done|]. exists []. split; [by rewrite app_nil_r|]. split; [done|]. unfold zones_replaced. simpl. by rewrite app_nil_r.
  - wp_answer r s Hs. destruct s. destruct r as [r|e].
    + eapply wp_mono; [apply IH|]. intros [res failed] [] tr' [Hg (answers & Hres & H)]. simpl in *. split; [etrans; [apply grows_app|exact Hg]|].
      exists (DnsBalancer.rep_Changed r :: answers). split.
      { rewrite Hres. change (changed_zones (zone :: zones) (DnsBalancer.rep_Changed r :: answers)) with
          (match (if DnsBalancer.rep_Changed r then Some zone else None) with
           | Some z => z :: changed_zones zones answers | None => changed_zones zones answers end).
        destruct (DnsBalancer.rep_Changed r); [|done]. by rewrite <-(app_assoc changed [zone]). }
      rewrite node_writes_snoc in H. destruct failed.
      * destruct H as (z & Hz & H). exists z. split; [done|]. by rewrite H, <-app_assoc.
      * destruct H as [H1 H]. split; [simpl; lia|]. by rewrite H, <-app_assoc.
    + wp_steps. split; [apply grows_app|]. exists []. split; [by rewrite app_nil_r|]. exists zone. split; [done|].
      by rewrite node_writes_snoc.
Qed.

Lemma wp_restore_zones oldIP newIP zones tr :
  wp (for_each (fun zone => _ ← call (DnsReplaceIP (DnsBalancer.zm_FQDN zone) newIP oldIP); mret tt) zones) tt tr
    (fun _ _ tr' => grows tr tr' /\ exists answers, length answers = length zones /\
       node_writes tr' = node_writes tr ++ zip_with (fun zone a => WReplace (DnsBalancer.zm_FQDN zone) newIP oldIP a) zones answers).
Proof.
  revert tr. induction zones as [|zone zones IH]; intros tr; simpl.
  - split; [done|]. exists []. by rewrite app_nil_r.
  - wp_answer r s Hs. destruct s. wp_steps. eapply wp_mono; [apply IH|]. intros [] [] tr' [Hg (answers & Hl & H)].
    split; [etrans; [apply grows_app|exact Hg]|]. exists (answered DnsBalancer.rep_Changed r :: answers).
    split; [simpl; lia|]. by rewrite H, node_writes_snoc, <-app_assoc.
Qed.

Lemma wp_rollbackNodeIP uuid oldIP newIP zones tr :
  wp (rollbackNodeIP uuid oldIP newIP zones) tt tr (fun _ _ tr' => grows tr tr' /\
    exists ws, address_restored uuid oldIP newIP zones ws /\ node_writes tr' = node_writes tr ++ ws).
Proof.
  unfold rollbackNodeIP. wp_steps. eapply wp_mono; [apply wp_restore_zones|].
  intros [] [] tr' [Hg (answers & Hl & H)]. cbv beta. wp_answer r s Hs. wp_steps. split; [etrans; [exact Hg|apply grows_app]|].
  eexists. split; [exists answers, (is_ok r); split; [by rewrite Hl, length_rev|reflexivity]|].
  by rewrite node_writes_snoc, H, <-app_assoc.
Qed.

(** The writes of the change, from the reads on. *)
Lemma wp_replace_address node oldIP newIP zones managed tr :
  wp (replace_address node oldIP newIP zones managed) tt tr (fun r _ tr' => grows tr tr' /\
    exists ws, address_change (Remnawave.node_UUID node) oldIP newIP zones managed ws (is_ok r) /\
      node_writes tr' = node_writes tr ++ ws).
Proof.
  unfold replace_address. wp_answer u s Hs. destruct s. set (tr1 := tr ++ _).
  assert (grows tr tr1) as Hg1 by apply grows_app.
  assert (node_writes tr1 = node_writes tr ++ [WAddress (Remnawave.node_UUID node) newIP (is_ok u)]) as Hw1 by apply node_writes_snoc.
  clearbody tr1. destruct u as [u|e]; [|wp_steps; split; [done|]; eexists; split; [constructor|done]].
  wp_steps. eapply wp_mono; [apply wp_replace_zones|]. intros [changed failed] [] tr2 [Hg2 (answers & Hc & H)]. cbv beta.
  simpl in Hc, H. subst changed. assert (grows tr tr2) as Hg by by etrans. clear Hg1 Hg2.
  assert (forall failure tr3 k, grows tr tr3 ->
    (exists zone, zones !! length answers = Some zone /\ failure = WReplace (DnsBalancer.zm_FQDN zone) oldIP newIP None) \/
    (length answers = length zones /\ exists d, managed = Some d /\ failure = WStoreIP (ID d) newIP false) ->
    node_writes tr3 = node_writes tr1 ++ zones_replaced oldIP newIP zones answers ++ [failure] ->
    wp (_ ← rollbackNodeIP (Remnawave.node_UUID node) oldIP newIP (changed_zones zones answers); @refuse string k) tt tr3
      (fun r _ tr' => grows tr tr' /\ exists ws, address_change (Remnawave.node_UUID node) oldIP newIP zones managed ws (is_ok r) /\
         node_writes tr' = node_writes tr ++ ws)) as Hundo.
  { intros failure tr3 k Hg3 Hf Hw3. wp_steps. eapply wp_mono; [apply wp_rollbackNodeIP|].
    intros [] [] tr4 [Hg4 (undo & Hu & Hw4)]. unfold refuse. wp_steps. split; [by etrans|].
    eexists. split; [by apply (change_undone _ _ _ _ _ answers failure undo)|].
    rewrite Hw4, Hw3, Hw1. simpl. by rewrite <-!app_assoc. }
  destruct failed.
  { destruct H as (zone & Hz & Hw2). apply (Hundo (WReplace (DnsBalancer.zm_FQDN zone) oldIP newIP None)); [done| |done]. left. by exists zone. }
  destruct H as [Hl Hw2]. wp_steps. destruct managed as [d|]; simpl.
  - wp_answer st s Hs2. destruct s. wp_steps. assert (grows tr (tr2 ++ [Ev (RepoSetIP (ID d) newIP) st])) by (etrans; [exact Hg|apply grows_app]).
    destruct st as [st|e]; simpl.
    + wp_steps. split; [done|]. eexists. split; [by apply (change_done _ _ _ _ _ answers)|].
      rewrite node_writes_snoc, Hw2, Hw1. simpl. by rewrite <-!app_assoc.
    + apply (Hundo (WStoreIP (ID d) newIP false)); [done| |].
      * right. split; [done|]. by exists d.
      * by rewrite node_writes_snoc, Hw2, <-app_assoc.
  - wp_steps. simpl. wp_steps. split; [done|]. eexists. split; [by apply (change_done _ _ _ _ _ answers)|].
    rewrite Hw2, Hw1. simpl. by rewrite app_nil_r, <-!app_assoc.
Qed.

(** What a run of [ReplaceNodeIP] did. *)
Definition address_changed (config : Config) (input : NodeIPChangeInput) (tr : list (event svcE)) (r : result svcErr string) : Prop :=
  let oldIP := Unmap (nic_ExpectedIP input) in
  let newIP := Unmap (nic_NewIP input) in
  (node_writes tr = [] /\ (is_ok r = true -> oldIP = newIP)) \/
  (oldIP <> newIP /\ publicIP (nic_NewIP input) = true /\
   exists node zones managed,
     address_change_read config (nic_NodeUUID input) oldIP newIP node zones managed tr /\
     address_change (nic_NodeUUID input) oldIP newIP zones managed (node_writes tr) (is_ok r)).

Lemma bookkeeping_quiet tr ev : bookkeeping ev -> node_writes (tr ++ [ev]) = node_writes tr.
Proof. intros H. rewrite node_writes_app, (bookkeeping_writes [ev]), app_nil_r; [done|]. by intros ? ->%list_elem_of_singleton. Qed.

Lemma address_changed_bookkeeping config input tr ev r :
  bookkeeping ev -> address_changed config input tr r -> address_changed config input (tr ++ [ev]) r.
Proof.
  intros He. unfold address_changed. cbv zeta. rewrite (bookkeeping_quiet _ _ He).
  intros [H|(H1 & H2 & node & zones & managed & H3 & H4)]; [by left|right]. split_and!; [done|done|]. exists node, zones, managed.
  split; [|done]. eapply address_change_read_grows; [apply grows_app|done].
Qed.

Lemma address_changed_nothing config input tr e : node_writes tr = [] -> address_changed config input tr (Err e).
Proof. intros H. by left. Qed.

Lemma select_node_spec uuid newIP nodes selected r :
  select_node uuid newIP selected nodes = Ok r ->
  (forall n, n ∈ nodes -> Remnawave.node_UUID n <> uuid -> read_addr (Remnawave.node_Address n) <> Some newIP) /\
  (r = selected \/ exists n, r = Some n /\ n ∈ nodes /\ Remnawave.node_UUID n = uuid).
Proof.
  revert selected. induction nodes as [|x nodes IH]; intros selected; simpl.
  - intros [= <-]. split; [by intros n Hn%not_elem_of_nil|by left].
  - destruct (String.eqb_spec (Remnawave.node_UUID x) uuid) as [Hx|Hx]; simpl.
    + intros H. apply IH in H as [H1 H2]. split.
      * intros n [->|Hn]%elem_of_cons; [done|auto].
      * destruct H2 as [->|(n & -> & Hn & Hu)]; right; [exists x|exists n]; (split; [done|]); (split; [|done]); [by left|by right].
    + case_bool_decide as Hr; [done|]. intros H. apply IH in H as [H1 H2]. split.
      * intros n [->|Hn]%elem_of_cons; [by intros _|auto].
      * destruct H2 as [->|(n & -> & Hn & Hu)]; [by left|right]. exists n. split; [done|]. split; [by right|done].
Qed.

Lemma wp_replace_body config input tr :
  let oldIP := Unmap (nic_ExpectedIP input) in
  let newIP := Unmap (nic_NewIP input) in
  (forall ev, ev ∈ tr -> bookkeeping ev) -> oldIP <> newIP -> publicIP (nic_NewIP input) = true ->
  wp (replace_body config input oldIP newIP) tt tr (fun r _ tr' => address_changed config input tr' r).
Proof.
  intros oldIP newIP Htr Hne Hpub. apply bookkeeping_writes in Htr. unfold replace_body. wp_answer nodes s Hs. destruct s.
  set (tr1 := tr ++ _). assert (node_writes tr1 = []) as Hw1 by (unfold tr1; by rewrite node_writes_snoc, Htr).
  assert (forall k tr', node_writes tr' = [] -> wp (@refuse string k) tt tr' (fun r _ tr' => address_changed config input tr' r)) as Hno.
  { intros k tr' H. by apply address_changed_nothing. }
  destruct nodes as [nodes|e]; [|by apply Hno]. assert (Ev RemGetNodes (Ok nodes) ∈ tr1) as Hn1 by apply elem_snoc. clearbody tr1.
  destruct (select_node _ _ _ _) as [[node|]|e] eqn:Hsel; [|by apply Hno|by apply address_changed_nothing].
  apply select_node_spec in Hsel as [Hothers [|(n & [= <-] & Hin & Huuid)]]; [done|].
  destruct (negb (bool_decide _)) eqn:Hold; [by apply Hno|]. apply negb_false_iff, bool_decide_eq_true in Hold.
  assert (forall zones tr2, grows tr1 tr2 -> node_writes tr2 = [] ->
    (if cfg_DNSDisabled config then zones = [] else Ev (DnsFindZonesByIP oldIP) (Ok zones) ∈ tr2) ->
    wp (managed_deployment config (Remnawave.node_UUID node) (replace_address node oldIP newIP zones)) tt tr2
      (fun r _ tr' => address_changed config input tr' r)) as Hmanaged.
  { intros zones tr2 Hg2 Hw2 Hz. unfold managed_deployment. wp_answer m s Hm. destruct s. set (tr3 := tr2 ++ _).
    assert (grows tr2 tr3) as Hg3 by apply grows_app. assert (node_writes tr3 = []) as Hw3 by (unfold tr3; by rewrite node_writes_snoc, Hw2).
    assert (Ev (RepoFindByNode (cfg_PanelID config) (Remnawave.node_UUID node)) m ∈ tr3) as Hm3 by apply elem_snoc. clearbody tr3.
    assert (forall managed, m = match managed with Some d => Ok d | None => Err Repository.ErrNotFound end ->
      wp (replace_address node oldIP newIP zones managed) tt tr3 (fun r _ tr' => address_changed config input tr' r)) as Hrest.
    { intros managed ->. eapply wp_mono; [apply wp_replace_address|]. intros r [] tr4 [Hg4 (ws & Hc & Hw4)].
      rewrite Hw3 in Hw4. simpl in Hw4. right. split_and!; [done|done|]. exists node, zones, managed. rewrite Huuid in *.
      split; [|by rewrite Hw4]. eapply address_change_read_grows; [exact Hg4|]. split; [|done| |done].
      - exists nodes. split; [|done]. eapply grows_elem; [exact Hg3|]. by eapply grows_elem.
      - destruct (cfg_DNSDisabled config); [done|]. by eapply grows_elem. }
    destruct m as [d|e]; [by apply (Hrest (Some d))|]. case_bool_decide as He; [subst e; by apply (Hrest None)|by apply Hno]. }
  unfold zones_of. destruct (cfg_DNSDisabled config) eqn:Hdns; [by apply Hmanaged|].
  wp_answer zones s Hs2. destruct s. assert (node_writes (tr1 ++ [Ev (DnsFindZonesByIP oldIP) zones]) = []) as Hw2 by by rewrite node_writes_snoc, Hw1.
  destruct zones as [zones|e]; [|by apply Hno]. apply Hmanaged; [apply grows_app|done|apply elem_snoc].
Qed.

(** C19. A change of a Node's address is complete or compensated, in every run
    of [ReplaceNodeIP] and whatever the panel, DNS and the database answer.
    Nothing is written unless the panel listed the Node with the expected
    address and no other Node with the new one.  A success is the address set
    in the panel, then every zone that held the old address, in order, and
    then the deployment's row, when there is one.  A failure after the panel
    accepted the address is followed at once by its undoing: exactly the zones
    that answered that they changed get the old address back, the last one
    first, and then the Node does. *)
Theorem node_ip_change_completes_or_compensates (config : Config) input :
  always (ReplaceNodeIP config input) tt (fun tr r _ => address_changed config input tr r).
Proof.
  apply wp_always. unfold ReplaceNodeIP. destruct (_ || _) eqn:Hin; [by apply address_changed_nothing|].
  apply orb_false_iff in Hin as [_ Hpub]. apply negb_false_iff in Hpub. cbv zeta.
  case_bool_decide as Heq; [by left|]. apply wp_execution_post.
  - intros. by apply address_changed_bookkeeping.
  - intros tr e H. by apply address_changed_nothing, bookkeeping_writes.
  - intros tr H. by apply wp_replace_body.
Qed.

(** ** Moving a Node to another Host *)

(** The materials that were prepared and not destroyed yet, the last one
    first; [None] when one was destroyed out of turn. *)
Definition held_step (h : list Material) (ev : event svcE) : option (list Material) :=
  answer_test (fun X e =>
    match e in svcE X return X -> option (list Material) with
    | CertPrepare _ => fun r => Some (match r with Ok m => m :: h | Err _ => h end)
    | DestroyMaterial m => fun _ =>
        match h with m' :: h' => if bool_decide (m' = m) then Some h' else None | [] => None end
    | _ => fun _ => Some h
    end) ev.

Definition held (tr : list (event svcE)) : option (list Material) :=
  foldl (fun h ev => h ≫= fun h => held_step h ev) (Some []) tr.

Lemma held_snoc tr ev : held (tr ++ [ev]) = held tr ≫= fun h => held_step h ev.
Proof. unfold held. by rewrite foldl_app. Qed.

Lemma held_quiet tr ev h :
  held tr = Some h -> outside [CCertPrepare; CClear] (op_class (ev_op ev)) = true -> held (tr ++ [ev]) = Some h.
Proof. intros H He. rewrite held_snoc, H. destruct ev as [X e x]. by destruct e. Qed.

Lemma wp_held_quiet {A} (p : prog svcE A) tr h :
  calls_only (kinds (outside [CCertPrepare; CClear])) p -> held tr = Some h ->
  wp p tt tr (fun _ _ tr' => held tr' = Some h).
Proof. intros Hp. apply (wp_calls_only (kinds (outside [CCertPrepare; CClear])) p (fun tr => held tr = Some h)); [done|]. intros. by apply held_quiet. Qed.

Section Move.
Context (config : Config) (p : movePlan).

Notation node_id := (Remnawave.node_UUID (mp_Node p)).
Notation previousSNI := (Remnawave.prof_SNIDomain (mp_PreviousProfile p)).
Notation targetSNI := (Remnawave.prof_SNIDomain (mp_TargetProfile p)).

(** The compensation: the old Host's profile, then (if it had moved) the
    address back into the old zone, then the old SNI on the VPS. *)
Definition move_restored (dnsChanged : bool) (ws : list nodeWrite) : Prop :=
  exists answer moved ok,
    ws = WProfile node_id (mp_Previous p) answer ::
         (if dnsChanged then [WMove targetSNI previousSNI (mp_Address p) moved] else []) ++
         [WSwitch (switch_back p (mp_PreviousProfile p)) ok].

Definition target_binding : SetNodeHostBindingParams :=
  mkSetNodeHostBindingParams (Remnawave.host_UUID (mp_Target p)) (Remnawave.host_Remark (mp_Target p)) targetSNI.

(** The DNS part of a move: none when DNS is disabled. *)
Definition dns_moved (changed : bool) : list nodeWrite :=
  if cfg_DNSDisabled config then [] else [WMove previousSNI targetSNI (mp_Address p) (Some changed)].

Inductive host_move : list nodeWrite -> bool -> Prop :=
  | move_refused : host_move [WSwitch (switch_forward p) false] false
  | move_done node changed :
      has_profile node (mp_TargetProfile p) = true ->
      host_move (WSwitch (switch_forward p) true :: WProfile node_id (mp_Target p) (Some node) :: dns_moved changed ++
                 match mp_Managed p with Some d => [WBinding (ID d) target_binding true] | None => [] end) true
  | move_profile_undone answer undo :
      (forall node, answer = Some node -> has_profile node (mp_TargetProfile p) = false) ->
      move_restored false undo ->
      host_move (WSwitch (switch_forward p) true :: WProfile node_id (mp_Target p) answer :: undo) false
  | move_dns_undone node undo :
      cfg_DNSDisabled config = false -> has_profile node (mp_TargetProfile p) = true ->
      move_restored false undo ->
      host_move (WSwitch (switch_forward p) true :: WProfile node_id (mp_Target p) (Some node) ::
                 WMove previousSNI targetSNI (mp_Address p) None :: undo) false
  | move_binding_undone node changed d undo :
      has_profile node (mp_TargetProfile p) = true -> mp_Managed p = Some d ->
      move_restored (negb (cfg_DNSDisabled config) && changed) undo ->
      host_move (WSwitch (switch_forward p) true :: WProfile node_id (mp_Target p) (Some node) :: dns_moved changed ++
                 WBinding (ID d) target_binding false :: undo) false.

Context (Hprevious : Remnawave.DeploymentProfileFromHost (mp_Previous p) = Ok (mp_PreviousProfile p)).

(** The writes of a run, from those of its past on. *)
Definition moves_on (past : list nodeWrite) (tr0 : list (event svcE)) (r : result svcErr NodeHostMoveResult)
    (tr : list (event svcE)) : Prop :=
  grows tr0 tr /\ exists ws, host_move (past ++ ws) (is_ok r) /\ node_writes tr = node_writes tr0 ++ ws.

Lemma wp_undo_move dnsChanged k past tr :
  (forall undo, move_restored dnsChanged undo -> host_move (past ++ undo) false) ->
  wp (undo_move p dnsChanged k) tt tr (fun r _ tr' => moves_on past tr r tr').
Proof.
  intros Hpast. unfold undo_move, rollbackNodeHostMove. rewrite Hprevious.
  wp_answer a s Hs. destruct s. wp_steps.
  assert (forall tr1 moved, node_writes tr1 = node_writes tr ++ WProfile node_id (mp_Previous p) (answered id a) ::
            (if dnsChanged then [WMove targetSNI previousSNI (mp_Address p) moved] else []) -> grows tr tr1 ->
    wp (call (SwitchNodeSNI (switch_back p (mp_PreviousProfile p)))) tt tr1 (fun _ s' tr' =>
      wp (mret tt : prog svcE unit) s' tr' (fun _ s' tr' => wp (@refuse NodeHostMoveResult k) s' tr' (fun r _ tr' => moves_on past tr r tr')))) as Hend.
  { intros tr1 moved H1 Hg. wp_answer sw s Hs2. unfold refuse. wp_steps. split; [etrans; [exact Hg|apply grows_app]|].
    eexists. split; [apply Hpast; by exists (answered id a), moved, (bool_decide (sw = None))|].
    rewrite node_writes_snoc, H1, <-app_assoc. simpl. by destruct dnsChanged. }
  destruct dnsChanged.
  - wp_answer m s Hs2. destruct s. wp_steps. apply (Hend _ (answered DnsBalancer.mv_Changed m)).
    + by rewrite !node_writes_snoc, <-app_assoc.
    + etrans; apply grows_app.
  - wp_steps. apply (Hend _ None); [by rewrite node_writes_snoc|apply grows_app].
Qed.

Lemma moves_on_trans past ws tr tr1 tr2 r :
  grows tr tr1 -> node_writes tr1 = node_writes tr ++ ws -> moves_on (past ++ ws) tr1 r tr2 -> moves_on past tr r tr2.
Proof.
  intros Hg Hw [Hg2 (ws2 & H1 & H2)]. split; [by etrans|]. exists (ws ++ ws2). split; [by rewrite app_assoc|].
  by rewrite H2, Hw, app_assoc.
Qed.

Lemma wp_moves_event {X} (e : svcE X) (k : X -> prog svcE (result svcErr NodeHostMoveResult)) past tr :
  (forall x tr', wp (k x) tt tr' (fun r _ tr2 => moves_on (past ++ option_list (node_write (Ev e x))) tr' r tr2)) ->
  wp (x ← call e; k x) tt tr (fun r _ tr' => moves_on past tr r tr').
Proof.
  intros Hk. wp_answer x s Hs. destruct s. eapply wp_mono; [apply Hk|]. intros r [] tr2 H.
  eapply moves_on_trans; [apply grows_app|apply node_writes_snoc|exact H].
Qed.

Lemma moves_on_ret past tr r : host_move past (is_ok r) -> wp (mret r) tt tr (fun r _ tr' => moves_on past tr r tr').
Proof. intros H. split; [done|]. exists []. by rewrite !app_nil_r. Qed.

Lemma wp_move_binding node changed tr :
  has_profile node (mp_TargetProfile p) = true -> (cfg_DNSDisabled config = true -> changed = false) ->
  wp (move_binding config p changed) tt tr (fun r _ tr' =>
    moves_on (WSwitch (switch_forward p) true :: WProfile node_id (mp_Target p) (Some node) :: dns_moved changed) tr r tr').
Proof.
  intros Hnode Hchanged. unfold move_binding. destruct (mp_Managed p) as [d|] eqn:Hm; wp_steps.
  - apply wp_moves_event. intros stored tr1. destruct stored as [x|e]; cbn [is_ok negb].
    + apply moves_on_ret. pose proof (move_done node changed Hnode) as H. rewrite Hm in H. exact H.
    + apply wp_undo_move. intros undo Hu. pose proof (move_binding_undone node changed d undo Hnode Hm) as H. simpl.
      rewrite <-app_assoc. apply H. by destruct (cfg_DNSDisabled config), changed; try specialize (Hchanged eq_refl).
  - simpl. apply moves_on_ret. pose proof (move_done node changed Hnode) as H. rewrite Hm, app_nil_r in H. exact H.
Qed.

Lemma wp_move_writes tr : wp (move_writes config p) tt tr (fun r _ tr' => moves_on [] tr r tr').
Proof.
  unfold move_writes. apply wp_moves_event. intros [e|] tr1; [apply moves_on_ret; constructor|].
  apply wp_moves_event. intros [node|e] tr2.
  2: { apply wp_undo_move. intros undo Hu. by apply move_profile_undone. }
  destruct (has_profile node (mp_TargetProfile p)) eqn:Hnode; simpl.
  2: { apply wp_undo_move. intros undo Hu. apply move_profile_undone; [|done]. by intros ? [= <-]. }
  unfold move_dns. destruct (cfg_DNSDisabled config) eqn:Hdns.
  - eapply wp_mono; [by apply (wp_move_binding node false)|]. intros r [] tr'. unfold dns_moved. by rewrite Hdns.
  - apply wp_moves_event. intros [m|e] tr3; simpl.
    + eapply wp_mono; [by apply (wp_move_binding node (DnsBalancer.mv_Changed m)); [|congruence]|].
      intros r [] tr'. unfold dns_moved. by rewrite Hdns.
    + apply wp_undo_move. intros undo Hu. by apply move_dns_undone.
Qed.
End Move.

(** What a move knew before its first write. *)
Record move_read (config : Config) (input : NodeHostMoveInput) (p : movePlan) (tr : list (event svcE)) : Prop := {
  mr_node : exists nodes, Ev RemGetNodes (Ok nodes) ∈ tr /\ mp_Node p ∈ nodes /\
    Remnawave.node_UUID (mp_Node p) = TrimSpace (nmi_NodeUUID input);
  mr_fingerprint : sameNodeProfile (fst (nodeProfileFingerprint (mp_Node p))) (snd (nodeProfileFingerprint (mp_Node p)))
    (TrimSpace (nmi_ExpectedConfigProfileUUID input)) (canonicalUUIDs (nmi_ExpectedInboundUUIDs input)) = true;
  mr_hosts : exists hosts, Ev RemGetHosts (Ok hosts) ∈ tr /\ mp_Target p ∈ hosts /\
    Remnawave.host_UUID (mp_Target p) = TrimSpace (nmi_TargetHostUUID input) /\
    matchingNodeHosts (mp_Node p) hosts = [mp_Previous p];
  mr_target : Remnawave.host_IsDisabled (mp_Target p) = false /\
    Remnawave.DeploymentProfileFromHost (mp_Target p) = Ok (mp_TargetProfile p) /\
    has_profile (mp_Node p) (mp_TargetProfile p) = false;
  mr_previous : Remnawave.DeploymentProfileFromHost (mp_Previous p) = Ok (mp_PreviousProfile p) /\
    EqualFold (Remnawave.prof_SNIDomain (mp_PreviousProfile p)) (Remnawave.prof_SNIDomain (mp_TargetProfile p)) = false;
  mr_address : nodeAddress (Remnawave.node_Address (mp_Node p)) = Ok (mp_Address p);
  mr_managed : Ev (RepoFindByNode (cfg_PanelID config) (Remnawave.node_UUID (mp_Node p)))
    (match mp_Managed p with Some d => Ok d | None => Err Repository.ErrNotFound end) ∈ tr;
  mr_previous_certificate :
    Ev (CertPrepare (Remnawave.prof_SNIDomain (mp_PreviousProfile p))) (Ok (mp_PreviousCertificate p)) ∈ tr;
  mr_target_certificate :
    Ev (CertPrepare (Remnawave.prof_SNIDomain (mp_TargetProfile p))) (Ok (mp_TargetCertificate p)) ∈ tr
}.

Lemma move_read_grows config input p tr tr' :
  grows tr tr' -> move_read config input p tr -> move_read config input p tr'.
Proof.
  intros Hg [(nodes & H1 & H2) H3 (hosts & H4 & H5) H6 H7 H8 H9 H10 H11].
  split; try done; try (by eapply grows_elem); [exists nodes|exists hosts]; (split; [by eapply grows_elem|done]).
Qed.

(** What a run of [MoveNodeToHost] did. *)
Definition host_moved (config : Config) (input : NodeHostMoveInput) (tr : list (event svcE)) (ok : bool) : Prop :=
  held tr = Some [] /\
  ((node_writes tr = [] /\ ok = false) \/
   exists p, move_read config input p tr /\ host_move config p (node_writes tr) ok).

Lemma host_moved_quiet config input tr ev ok :
  node_write ev = None -> outside [CCertPrepare; CClear] (op_class (ev_op ev)) = true ->
  host_moved config input tr ok -> host_moved config input (tr ++ [ev]) ok.
Proof.
  intros He Hc [Hh H]. split; [by apply held_quiet|]. rewrite node_writes_snoc, He, app_nil_r.
  destruct H as [H|(p & Hr & H)]; [by left|right]. exists p. split; [|done]. eapply move_read_grows; [apply grows_app|exact Hr].
Qed.

Lemma bookkeeping_host_moved config input tr ev ok :
  bookkeeping ev -> host_moved config input tr ok -> host_moved config input (tr ++ [ev]) ok.
Proof. intros He. destruct ev as [X e x]. apply host_moved_quiet; unfold bookkeeping in He; by destruct e. Qed.

Lemma bookkeeping_held tr : (forall ev, ev ∈ tr -> bookkeeping ev) -> held tr = Some [].
Proof.
  induction tr as [|ev tr IH] using rev_ind; [done|]. intros H. apply held_quiet.
  - apply IH. intros ev' Hev. apply H, elem_of_app. by left.
  - specialize (H ev (elem_snoc tr ev)). destruct ev as [X e x]. unfold bookkeeping in H. by destruct e.
Qed.

Lemma host_moved_nothing config input tr : held tr = Some [] -> node_writes tr = [] -> host_moved config input tr false.
Proof. intros H1 H2. split; [done|by left]. Qed.

(** The Hosts of a plan satisfy what the move checks of them. *)
Lemma plan_hosts_spec node hosts targetUUID selected targetProfile previous previousProfile address :
  plan_hosts node hosts targetUUID = Ok (selected, targetProfile, previous, previousProfile, address) ->
  (selected ∈ hosts /\ Remnawave.host_UUID selected = targetUUID /\ matchingNodeHosts node hosts = [previous]) /\
  (Remnawave.host_IsDisabled selected = false /\ Remnawave.DeploymentProfileFromHost selected = Ok targetProfile /\
   has_profile node targetProfile = false) /\
  (Remnawave.DeploymentProfileFromHost previous = Ok previousProfile /\
   EqualFold (Remnawave.prof_SNIDomain previousProfile) (Remnawave.prof_SNIDomain targetProfile) = false) /\
  nodeAddress (Remnawave.node_Address node) = Ok address.
Proof.
  unfold plan_hosts. destruct (find_first _ _) as [sel|] eqn:Hf; [|done]. apply find_first_Some in Hf as [Hin Hu].
  apply String.eqb_eq in Hu. destruct (Remnawave.host_IsDisabled sel) eqn:Hd; [done|].
  destruct (Remnawave.DeploymentProfileFromHost sel) as [tp|] eqn:Htp; [|done].
  destruct (has_profile node tp) eqn:Hhp; [done|]. destruct (matchingNodeHosts node hosts) as [|prev [|? ?]] eqn:Hm; try done.
  destruct (Remnawave.DeploymentProfileFromHost prev) as [pp|] eqn:Hpp; [|done].
  destruct (EqualFold _ _) eqn:Hef; [done|]. destruct (nodeAddress _) as [a|] eqn:Ha; [|done].
  by intros [= <- <- <- <- <-].
Qed.

Lemma held_prepare tr sni r h : held tr = Some h ->
  held (tr ++ [Ev (CertPrepare sni) r]) = Some (match r with Ok m => m :: h | Err _ => h end).
Proof. intros H. by rewrite held_snoc, H. Qed.

Lemma held_destroy tr m h x : held tr = Some (m :: h) -> held (tr ++ [Ev (DestroyMaterial m) x]) = Some h.
Proof. intros H. rewrite held_snoc, H. cbn. case_bool_decide; done. Qed.

(** The materials of both domains are held exactly as long as the writes. *)
Lemma wp_move_certificates config input plan previousSNI targetSNI tr :
  held tr = Some [] -> node_writes tr = [] ->
  (forall pc tc tr', grows tr tr' -> Ev (CertPrepare previousSNI) (Ok pc) ∈ tr' -> Ev (CertPrepare targetSNI) (Ok tc) ∈ tr' ->
     move_read config input (plan pc tc) tr') ->
  (forall pc tc, mp_PreviousCertificate (plan pc tc) = pc /\ mp_TargetCertificate (plan pc tc) = tc) ->
  wp (move_certificates config plan previousSNI targetSNI) tt tr (fun r _ tr' => host_moved config input tr' (is_ok r)).
Proof.
  intros Hh Hw Hread Hplan. unfold move_certificates. wp_answer pc s Hs. destruct s.
  set (tr1 := tr ++ _). assert (held tr1 = Some (match pc with Ok m => [m] | Err _ => [] end)) as Hh1 by by apply held_prepare.
  assert (node_writes tr1 = []) as Hw1 by (unfold tr1; by rewrite node_writes_snoc, Hw).
  assert (grows tr tr1) as Hg1 by apply grows_app. destruct pc as [pc|e]; [|by apply host_moved_nothing].
  assert (Ev (CertPrepare previousSNI) (Ok pc) ∈ tr1) as Hp1 by apply elem_snoc. clearbody tr1.
  apply wp_finally. wp_answer tc s Hs2. destruct s.
  set (tr2 := tr1 ++ _). assert (held tr2 = Some (match tc with Ok m => [m; pc] | Err _ => [pc] end)) as Hh2 by by apply held_prepare.
  assert (node_writes tr2 = []) as Hw2 by (unfold tr2; by rewrite node_writes_snoc, Hw1).
  assert (grows tr1 tr2) as Hg2 by apply grows_app. destruct tc as [tc|e].
  2: { unfold refuse. wp_steps. apply wp_call. intros ? [] _. apply host_moved_nothing; [by apply held_destroy|by rewrite node_writes_snoc, Hw2]. }
  assert (Ev (CertPrepare targetSNI) (Ok tc) ∈ tr2) as Ht2 by apply elem_snoc. clearbody tr2.
  assert (move_read config input (plan pc tc) tr2) as Hread2 by (apply Hread; [by etrans|by eapply grows_elem|done]).
  apply wp_finally. eapply wp_mono.
  - apply wp_conj; [apply wp_move_writes, (mr_previous _ _ _ _ Hread2)|].
    eapply (wp_held_quiet (move_writes config (plan pc tc)) tr2); [|exact Hh2].
    unfold move_writes, move_dns, move_binding, undo_move, rollbackNodeHostMove, refuse. svc_calls.
  - intros r [] tr3 [[Hg3 (ws & Hm & Hw3)] Hh3]. cbv beta. apply wp_call. intros ? [] _. apply wp_call. intros ? [] _.
    rewrite Hw2 in Hw3. simpl in Hm, Hw3. split; [by do 2 apply held_destroy|]. right. exists (plan pc tc).
    split; [by do 2 (eapply move_read_grows; [apply grows_app|]); eapply move_read_grows|].
    by rewrite !node_writes_snoc, Hw3, !app_nil_r.
Qed.

Lemma wp_move_body config input tr :
  (forall ev, ev ∈ tr -> bookkeeping ev) ->
  wp (move_body config input (TrimSpace (nmi_NodeUUID input)) (TrimSpace (nmi_TargetHostUUID input))) tt tr
    (fun r _ tr' => host_moved config input tr' (is_ok r)).
Proof.
  intros Htr. pose proof (bookkeeping_held tr Htr) as Hh. apply bookkeeping_writes in Htr.
  unfold move_body, nodeByUUID. wp_answer nodes s Hs. destruct s.
  set (tr1 := tr ++ _). assert (held tr1 = Some []) as Hh1 by by apply held_quiet.
  assert (node_writes tr1 = []) as Hw1 by (unfold tr1; by rewrite node_writes_snoc, Htr).
  destruct nodes as [nodes|e]; [|by apply host_moved_nothing].
  assert (Ev RemGetNodes (Ok nodes) ∈ tr1) as Hn1 by apply elem_snoc. clearbody tr1.
  destruct (find_first _ nodes) as [node|] eqn:Hnode; [|by apply host_moved_nothing].
  apply find_first_Some in Hnode as [Hin Huuid]. apply String.eqb_eq in Huuid. wp_steps.
  destruct (nodeProfileFingerprint node) as [profileUUID inboundUUIDs] eqn:Hfp.
  destruct (negb (sameNodeProfile _ _ _ _)) eqn:Hsame; [by apply host_moved_nothing|]. apply negb_false_iff in Hsame.
  wp_answer hosts s Hs2. destruct s.
  set (tr2 := tr1 ++ _). assert (held tr2 = Some []) as Hh2 by by apply held_quiet.
  assert (node_writes tr2 = []) as Hw2 by (unfold tr2; by rewrite node_writes_snoc, Hw1).
  assert (grows tr1 tr2) as Hg2 by apply grows_app. destruct hosts as [hosts|e]; [|by apply host_moved_nothing].
  assert (Ev RemGetHosts (Ok hosts) ∈ tr2) as Hn2 by apply elem_snoc. clearbody tr2.
  destruct (plan_hosts node hosts _) as [[[[[selected targetProfile] previous] previousProfile] address]|e] eqn:Hplan;
    [|by apply host_moved_nothing]. apply plan_hosts_spec in Hplan as ((H1 & H2 & H3) & H4 & H5 & H6).
  unfold managed_deployment. wp_answer m s Hs3. destruct s. set (tr3 := tr2 ++ _).
  assert (held tr3 = Some []) as Hh3 by by apply held_quiet.
  assert (node_writes tr3 = []) as Hw3 by (unfold tr3; by rewrite node_writes_snoc, Hw2).
  assert (grows tr2 tr3) as Hg3 by apply grows_app.
  assert (Ev (RepoFindByNode (cfg_PanelID config) (Remnawave.node_UUID node)) m ∈ tr3) as Hm3 by apply elem_snoc. clearbody tr3.
  assert (forall managed, m = match managed with Some d => Ok d | None => Err Repository.ErrNotFound end ->
    wp (move_certificates config (mkMovePlan node address previous previousProfile selected targetProfile managed (nmi_Password input))
          (Remnawave.prof_SNIDomain previousProfile) (Remnawave.prof_SNIDomain targetProfile)) tt tr3
       (fun r _ tr' => host_moved config input tr' (is_ok r))) as Hrest.
  { intros managed ->. apply wp_move_certificates; [done|done| |done]. intros pc tc tr' Hg Hpc Htc. split; simpl; try done.
    - exists nodes. split; [|done]. eapply grows_elem; [exact Hg|]. eapply grows_elem; [exact Hg3|]. by eapply grows_elem.
    - injection Hfp as <- <-. exact Hsame.
    - exists hosts. split; [|done]. eapply grows_elem; [exact Hg|]. by eapply grows_elem.
    - by eapply grows_elem. }
  destruct m as [d|e]; [by apply (Hrest (Some d))|].
  case_bool_decide as He; [subst e; by apply (Hrest None)|by apply host_moved_nothing].
Qed.

(** C18. A move of a Node to another Host is complete or compensated, in every
    run of [MoveNodeToHost] and whatever the VPS, the panel, DNS and the
    database answer.  Nothing is written before the panel showed the Node with
    the profile the operator saw, exactly one Host it belongs to, an enabled
    target Host with another profile, and certificates for both domains were
    prepared.  A success is the switch of the VPS, the panel accepting and
    showing the new profile, the address moved between the DNS zones (unless
    DNS is disabled) and the deployment's new binding.  A switch that is
    refused is the only write.  After a later failure the previous profile is
    asked for, then the previous DNS zone if the address was reported as
    moved, then the previous domain on the VPS, in this order; whether these
    requests succeed is not promised.  Both certificate materials are
    destroyed on every path, the last one prepared first. *)
Theorem node_host_move_completes_or_compensates (config : Config) input :
  always (MoveNodeToHost config input) tt (fun tr r _ => host_moved config input tr (is_ok r)).
Proof.
  apply wp_always. unfold MoveNodeToHost. destruct (_ || _) eqn:Hin; [by apply host_moved_nothing|].
  apply wp_execution_post.
  - intros. by apply bookkeeping_host_moved.
  - intros tr e H. apply host_moved_nothing; [by apply bookkeeping_held|by apply bookkeeping_writes].
  - intros tr H. by apply wp_move_body.
Qed.

(** ** DNS follows the panel *)

(** The request that makes the zone hold the address: none when it already
    does and the recorded address is not there. *)
Definition sync_request (m : ZoneMatch) (previous address : Addr) (answer : option bool) : list nodeWrite :=
  if IsValid previous && negb (bool_decide (previous = address)) && zoneContainsIP (DnsBalancer.zm_Zone m) previous
  then [WReplace (DnsBalancer.zm_FQDN m) previous address answer]
  else if zoneContainsIP (DnsBalancer.zm_Zone m) address then []
  else [WAdd (DnsBalancer.zm_FQDN m) address answer].

(** An address is never added to a zone of advanced nodes, whose service address is unknown. *)
Definition sync_possible (m : ZoneMatch) (previous address : Addr) : Prop :=
  forall answer, sync_request m previous address answer = [WAdd (DnsBalancer.zm_FQDN m) address answer] -> advanced m = false.

Definition sync_row (managed : option Deployment) (previous address : Addr) : option string :=
  match managed with
  | Some d => if bool_decide (previous = address) then None else Some (ID d)
  | None => None
  end.

Inductive dns_sync (managed : option Deployment) (m : ZoneMatch) (previous address : Addr) : list nodeWrite -> bool -> Prop :=
  | sync_refused : dns_sync managed m previous address (sync_request m previous address None) false
  | sync_done changed :
      dns_sync managed m previous address
        (sync_request m previous address (Some changed) ++
         match sync_row managed previous address with Some id => [WStoreIP id address true] | None => [] end) true
  | sync_unrecorded changed id :
      sync_row managed previous address = Some id ->
      dns_sync managed m previous address (sync_request m previous address (Some changed) ++ [WStoreIP id address false]) false.

(** What [SyncNodeDNS] knew before it wrote: the panel's address is the one the
    operator confirmed, and the zone is the one of the deployment, or of the
    only domain the Hosts of the legacy Node have. *)
Record dns_sync_read (config : Config) (input : NodeDNSSyncInput) (node : Node) (managed : option Deployment) (m : ZoneMatch)
    (address : Addr) (tr : list (event svcE)) : Prop := {
  dsr_node : exists nodes, Ev RemGetNodes (Ok nodes) ∈ tr /\ node ∈ nodes /\
    Remnawave.node_UUID node = TrimSpace (nds_NodeUUID input);
  dsr_address : read_addr (Remnawave.node_Address node) = Some address /\ address = Unmap (nds_ExpectedIP input);
  dsr_managed : Ev (RepoFindByNode (cfg_PanelID config) (Remnawave.node_UUID node))
    (match managed with Some d => Ok d | None => Err Repository.ErrNotFound end) ∈ tr;
  dsr_zone : exists name, Ev (DnsFindZone name) (Ok m) ∈ tr /\
    match managed with
    | Some d => name = SNIDomain d
    | None => exists hosts profile key, Ev RemGetHosts (Ok hosts) ∈ tr /\
        Remnawave.node_ActiveConfigProfileUUID node = Some profile /\
        map_to_list (legacy_candidates (TrimSpace profile)
          (List.filter (fun v => negb (String.eqb v "")) (TrimSpace <$> Remnawave.node_ActiveInboundUUIDs node)) hosts) = [(key, name)]
    end
}.

Lemma dns_sync_read_grows config input node managed m address tr tr' :
  grows tr tr' -> dns_sync_read config input node managed m address tr -> dns_sync_read config input node managed m address tr'.
Proof.
  intros Hg [(nodes & H1 & H2) H3 H4 (name & H5 & H6)]. split; [|done|by eapply grows_elem|].
  - exists nodes. split; [by eapply grows_elem|done].
  - exists name. split; [by eapply grows_elem|]. destruct managed; [done|].
    destruct H6 as (hosts & profile & key & H6 & H7). exists hosts, profile, key. split; [by eapply grows_elem|done].
Qed.

Definition recorded_address (managed : option Deployment) : Addr :=
  match managed with Some d => Unmap (TargetVPSIP d) | None => AddrInvalid end.

(** What a run of [SyncNodeDNS] did. *)
Definition dns_synced (config : Config) (input : NodeDNSSyncInput) (tr : list (event svcE))
    (r : result svcErr NodeDNSSyncResult) : Prop :=
  (node_writes tr = [] /\ is_ok r = false) \/
  exists node managed m address, dns_sync_read config input node managed m address tr /\
    sync_possible m (recorded_address managed) address /\
    dns_sync managed m (recorded_address managed) address (node_writes tr) (is_ok r) /\
    forall res, r = Ok res -> ndr_Address res = address /\ ndr_DNSZone res = DnsBalancer.zm_FQDN m.

Lemma dns_synced_bookkeeping config input tr ev r :
  bookkeeping ev -> dns_synced config input tr r -> dns_synced config input (tr ++ [ev]) r.
Proof.
  intros He. unfold dns_synced. rewrite (bookkeeping_quiet _ _ He). intros [H|(node & managed & m & address & H1 & H2)]; [by left|right].
  exists node, managed, m, address. split; [|done]. eapply dns_sync_read_grows; [apply grows_app|done].
Qed.

Lemma dns_synced_nothing config input tr e : node_writes tr = [] -> dns_synced config input tr (Err e).
Proof. intros H. by left. Qed.

Lemma wp_sync_zone m previous address tr : node_writes tr = [] ->
  wp (sync_zone m previous address) tt tr (fun r _ tr' => grows tr tr' /\
    ((sync_possible m previous address /\
      node_writes tr' = sync_request m previous address (if is_ok r then Some (match r with Ok DNSSyncAlreadyPresent => false | _ => true end) else None)) \/
     (node_writes tr' = [] /\ is_ok r = false))).
Proof.
  intros Hw. unfold sync_zone, sync_possible, sync_request. cbv zeta.
  destruct (_ && _) eqn:Hp.
  - wp_answer r s Hs. destruct r as [r|e]; unfold refuse; wp_steps; (split; [apply grows_app|left]);
      (split; [intros ? HX; discriminate HX|]); rewrite node_writes_snoc, Hw; simpl; [|done]. by destruct (DnsBalancer.rep_Changed r).
  - destruct (zoneContainsIP _ address) eqn:Hc; simpl.
    + wp_steps. split; [done|]. by left.
    + destruct (advanced m) eqn:Ha; [split; [done|]; by right|].
      wp_answer r s Hs. destruct r as [r|e]; unfold refuse; wp_steps; (split; [apply grows_app|left]);
        (split; [done|]); rewrite node_writes_snoc, Hw; simpl; [|done]. by destruct (DnsBalancer.add_Added r).
Qed.

Lemma wp_sync_writes config input node address managed m tr :
  node_writes tr = [] -> dns_sync_read config input node managed m address tr ->
  wp (sync_writes node address managed m) tt tr (fun r _ tr' => dns_synced config input tr' r).
Proof.
  intros Hw Hread. unfold sync_writes. fold (recorded_address managed). cbv zeta. wp_steps.
  eapply wp_mono; [by apply wp_sync_zone|]. intros action [] tr1 [Hg H]. cbv beta.
  assert (dns_sync_read config input node managed m address tr1) as Hread1 by by eapply dns_sync_read_grows.
  destruct action as [action|e]; simpl in H.
  2: { destruct H as [[Hpos H]|[H _]]; [|by apply dns_synced_nothing]. right. exists node, managed, m, address.
       split_and!; [done|done| |done]. rewrite H. constructor. }
  destruct H as [[Hpos H]|[_ H]]; [|done]. wp_steps.
  set (changed := match action with DNSSyncAlreadyPresent => false | _ => true end) in *. clearbody changed.
  pose proof (sync_done managed m (recorded_address managed) address changed) as Hdone.
  pose proof (sync_unrecorded managed m (recorded_address managed) address changed) as Hundone. unfold sync_row in *.
  assert (sync_row managed (recorded_address managed) address = None ->
    dns_synced config input tr1 (Ok (mkNodeDNSSyncResult (Remnawave.node_Name node) address (DnsBalancer.zm_FQDN m) action (recorded_address managed)))) as Hnone.
  { unfold sync_row. intros Hrow. right. exists node, managed, m, address. rewrite Hrow in Hdone. rewrite app_nil_r in Hdone.
    split_and!; [done|done|by rewrite H|]. by intros res [= <-]. }
  destruct managed as [d|]; [|by apply Hnone]. unfold sync_row in Hnone.
  destruct (bool_decide (recorded_address (Some d) = address)) eqn:Hsame; [by apply Hnone|].
  wp_answer stored s Hs. destruct s. wp_steps.
  assert (dns_sync_read config input node (Some d) m address (tr1 ++ [Ev (RepoSetIP (ID d) address) stored])) as Hread2.
  { eapply dns_sync_read_grows; [apply grows_app|done]. }
  destruct stored as [x|e]; simpl; right; exists node, (Some d), m, address; (split_and!; [done|done| |by intros res [= <-]]);
    rewrite node_writes_snoc, H; [apply Hdone|by apply Hundone].
Qed.

(** From the Node on: the row, the zone, the writes. *)
Lemma wp_sync_found config input node nodes address tr :
  node_writes tr = [] -> Ev RemGetNodes (Ok nodes) ∈ tr -> node ∈ nodes ->
  Remnawave.node_UUID node = TrimSpace (nds_NodeUUID input) ->
  read_addr (Remnawave.node_Address node) = Some address -> address = Unmap (nds_ExpectedIP input) ->
  wp (managed_deployment config (Remnawave.node_UUID node) (fun managed =>
        match managed with
        | None =>
          inferred ← inferLegacyDNSZone node;
          match inferred with
          | Err e => mret (Err e)
          | Ok (None, _) => refuse ErrDNSTargetUnknown
          | Ok (Some m, _) => sync_writes node address None m
          end
        | Some d =>
          match_ ← call (DnsFindZone (SNIDomain d));
          match match_ with
          | Err _ => refuse ErrDNSUpdateFailed
          | Ok m => sync_writes node address (Some d) m
          end
        end)) tt tr (fun r _ tr' => dns_synced config input tr' r).
Proof.
  intros Hw Hn Hin Hu Ha He. unfold managed_deployment. wp_answer managed s Hs. destruct s. set (tr1 := tr ++ _).
  assert (grows tr tr1) as Hg1 by apply grows_app. assert (node_writes tr1 = []) as Hw1 by (unfold tr1; by rewrite node_writes_snoc, Hw).
  assert (Ev (RepoFindByNode (cfg_PanelID config) (Remnawave.node_UUID node)) managed ∈ tr1) as Hm1 by apply elem_snoc. clearbody tr1.
  destruct managed as [d|e]; [|case_bool_decide as Hnf; [subst e|by apply dns_synced_nothing]].
  - wp_answer m s Hs2. destruct s. destruct m as [m|e]; [|apply dns_synced_nothing; by rewrite node_writes_snoc, Hw1].
    apply wp_sync_writes; [by rewrite node_writes_snoc, Hw1|]. split; [|done|by eapply grows_elem, Hm1; apply grows_app|].
    + exists nodes. split; [|done]. eapply grows_elem; [apply grows_app|]. by eapply grows_elem.
    + exists (SNIDomain d). split; [apply elem_snoc|done].
  - unfold inferLegacyDNSZone. destruct (Remnawave.node_ActiveConfigProfileUUID node) as [profile|] eqn:Hp; [|by apply dns_synced_nothing].
    destruct (_ || _); [by apply dns_synced_nothing|]. wp_answer hosts s Hs2. destruct s. set (tr2 := tr1 ++ _).
    assert (grows tr1 tr2) as Hg2 by apply grows_app. assert (node_writes tr2 = []) as Hw2 by (unfold tr2; by rewrite node_writes_snoc, Hw1).
    assert (Ev RemGetHosts hosts ∈ tr2) as Hh2 by apply elem_snoc. clearbody tr2.
    destruct hosts as [hosts|e]; [|by apply dns_synced_nothing]. cbv zeta.
    destruct (map_to_list _) as [|[key sni] [|? ?]] eqn:Hc; [by apply dns_synced_nothing| |by apply dns_synced_nothing].
    wp_answer m s Hs3. destruct s. destruct m as [m|e]; [|apply dns_synced_nothing; by rewrite node_writes_snoc, Hw2].
    wp_steps. apply wp_sync_writes; [by rewrite node_writes_snoc, Hw2|].
    split; [|done|by eapply grows_elem, grows_elem, Hm1; [apply grows_app|]|].
    + exists nodes. split; [|done]. eapply grows_elem; [apply grows_app|]. eapply grows_elem; [exact Hg2|]. by eapply grows_elem.
    + exists sni. split; [apply elem_snoc|]. exists hosts, profile, key. split; [|done]. by eapply grows_elem, Hh2; apply grows_app.
Qed.

Lemma wp_sync_body config input tr :
  (forall ev, ev ∈ tr -> bookkeeping ev) ->
  wp (sync_body config input) tt tr (fun r _ tr' => dns_synced config input tr' r).
Proof.
  intros Hw%bookkeeping_writes. unfold sync_body, findNodeByUUID. wp_answer nodes s Hs. destruct s.
  assert (node_writes (tr ++ [Ev RemGetNodes nodes]) = []) as Hw1 by by rewrite node_writes_snoc, Hw.
  destruct nodes as [nodes|e]; [|by apply dns_synced_nothing].
  destruct (find_first _ nodes) as [node|] eqn:Hf; [|by apply dns_synced_nothing]. apply find_first_Some in Hf as [Hin Hu].
  apply String.eqb_eq in Hu. destruct (ParseAddr _) as [parsed|] eqn:Hp; [|by apply dns_synced_nothing].
  destruct (publicIP parsed); [|by apply dns_synced_nothing]. wp_steps.
  destruct (negb _) eqn:He; [by apply dns_synced_nothing|]. apply negb_false_iff, bool_decide_eq_true in He.
  eapply wp_sync_found; [done|apply elem_snoc|done|done| |done]. apply DnsBalancer.read_addr_Some. by exists parsed.
Qed.

(** Synchronising DNS makes DNS follow the panel and nothing else, in
    every run of [SyncNodeDNS].  Nothing is written unless the panel shows the
    Node at the address the operator confirmed and the zone was located: by
    the domain of the deployment, or by the only domain of the Hosts a legacy
    Node can belong to.  Then at most one request goes to DNS: the recorded
    address is replaced by the panel's when the zone still holds it, else the
    panel's is added when the zone lacks it (never to a zone of advanced
    nodes); the address of a deployment's row is rewritten only after that
    request succeeded and only when it differed; and success is reported
    exactly when all of it succeeded. *)
Theorem node_dns_sync_follows_the_panel (config : Config) input :
  always (SyncNodeDNS config input) tt (fun tr r _ => dns_synced config input tr r).
Proof.
  apply wp_always. unfold SyncNodeDNS. destruct (cfg_DNSDisabled config); [by apply dns_synced_nothing|].
  destruct (_ || _); [by apply dns_synced_nothing|]. apply wp_execution_post.
  - intros. by apply dns_synced_bookkeeping.
  - intros tr e H. by apply dns_synced_nothing, bookkeeping_writes.
  - intros tr H. by apply wp_sync_body.
Qed.
