(* ===== verification/Recovery.v ===== *)
(** * Recovery of unfinished deployments ([internal/recovery/service.go])

    After a restart every unfinished deployment of the panel is classified
    from what the panel and DNS show.  The service can read the panel and DNS
    and can write deployment rows; it has no operation that changes anything
    else, which its effect signature shows.  The classification is proved
    equal to a decision table over the answers of the two services. *)

From S2P Require Import Prelude GoStrings NetIP NetIPFacts Effects Deployment Repository Service ServiceDb NodeOps.
From S2P Require Remnawave DnsBalancer.

#[local] Open Scope Z_scope.

Inductive Classification : Type :=
  | SafeToRecheck | SafeToRetryDNS | RecoveredCompleted | NeedsManualReview.

Record Result : Type := mkResult {
  res_DeploymentID : string;
  res_Classification : Classification;
  res_SafeMessage : string
}.

(** [Service]: the panel, the DNS mode, and whether the repository has the
    scoped query (a dynamic test on its type). *)
Record RecoveryService : Type := mkRecoveryService {
  rs_panelID : string;
  rs_dnsDisabled : bool;
  rs_scoped : bool
}.

(** [NewForPanelWithDNSMode]; [New] and [NewForPanel] fix the panel and the mode. *)
Definition NewForPanelWithDNSMode (panelID : string) (dnsDisabled scoped : bool) : result string RecoveryService :=
  let panelID := TrimSpace panelID in
  if String.eqb panelID "" then Err "recovery panel is required"
  else Ok (mkRecoveryService panelID dnsDisabled scoped).

(** ** Effects *)
Inductive recE : Type -> Type :=
  | RecFindUnfinishedByPanel (panel : string) (limit : Z) : recE (result repoErr (list Deployment))
  | RecFindUnfinished (limit : Z) : recE (result repoErr (list Deployment))
  | RecGet (id : string) : recE (result repoErr Deployment)
  | RecSetNode (id uuid : string) : recE (result repoErr Deployment)
  | RecUpdateState (id : string) (p : UpdateDeploymentStateParams) : recE (result repoErr Deployment)
  | RecRecordStep (p : RecordStepParams) : recE (result repoErr Step)
  | RecGetNodes : recE (result remErr (list Node))
  | RecGetNode (uuid : string) : recE (result remErr Node)
  | RecFindZone (fqdn : string) : recE (result dnsErr ZoneMatch).

(** ** Pure parts *)

(** [safeNodeMessage]: the text is cut at 200 bytes. *)
Definition safeNodeMessage (value : option string) : string :=
  let fallback := "Deployment requires manual review" in
  match value with
  | None => fallback
  | Some value =>
    let message := TrimSpace (flatten_ws value) in
    if String.eqb message "" then fallback
    else if 200 <? str_len message then str_take 200 message else message
  end.

(** The test of the loop of [inspectExternalState]. *)
Definition exact_match (item : Deployment) (node : Node) : bool :=
  String.eqb (TrimSpace (Remnawave.node_Name node)) (NodeName item) &&
  match ParseAddr (TrimSpace (Remnawave.node_Address node)) with
  | Some address => IsValid address && bool_decide (Unmap address = Unmap (TargetVPSIP item))
  | None => false
  end.

(** The loops of [dnsContains]. *)
Definition zone_holds (zone : DnsBalancer.Zone) (target : Addr) : bool :=
  existsb (fun value => bool_decide (read_addr value = Some (Unmap target)))
    (elems (DnsBalancer.zone_IPs zone) ++ (DnsBalancer.zn_IP <$> elems (DnsBalancer.zone_Nodes zone))).

(** ** The service *)
Section Service.
Variable s : RecoveryService.

Notation M := (prog recE).

Definition manual (item : Deployment) (message : string) : M (result string Result) :=
  let message := safeNodeMessage (Some message) in
  updated ← call (RecUpdateState (ID item) (mkUpdateDeploymentStateParams StatusManualReview (CurrentStep item)
    (Some "MANUAL_REVIEW_REQUIRED") (Some message)));
  match updated with
  | Err _ => mret (Err "persist manual review state failed")
  | Ok _ => mret (Ok (mkResult (ID item) NeedsManualReview message))
  end.

(** [UpdateDeploymentState] followed by the result, or the error text. *)
Definition settle (item : Deployment) (p : UpdateDeploymentStateParams) (failure : string)
    (c : Classification) (message : string) : M (result string Result) :=
  updated ← call (RecUpdateState (ID item) p);
  match updated with
  | Err _ => mret (Err failure)
  | Ok _ => mret (Ok (mkResult (ID item) c message))
  end.

Definition completed_state : UpdateDeploymentStateParams := mkUpdateDeploymentStateParams StatusCompleted "completed" None None.
Definition waiting_state : UpdateDeploymentStateParams := mkUpdateDeploymentStateParams StatusWaitingRemnawave "wait_remnawave" None None.
Definition dns_retry_state : UpdateDeploymentStateParams :=
  mkUpdateDeploymentStateParams StatusDNSFailed "add_dns" (Some "DNS_RETRY_REQUIRED")
    (Some "Node is healthy and DNS requires an explicit retry").

(** The end of [inspectExternalState], for a connected Node. *)
Definition inspect_dns (item : Deployment) : M (result string Result) :=
  if rs_dnsDisabled s then
    _ ← call (RecRecordStep (mkRecordStepParams (ID item) "add_dns" StepStatusSkipped
                (Some "DNS balancing is disabled for this panel") None));
    settle item completed_state "persist recovered completion failed" RecoveredCompleted "Node is healthy; DNS balancing is disabled"
  else
    zone ← call (RecFindZone (SNIDomain item));
    match zone with
    | Err _ => manual item "DNS state could not be verified"
    | Ok m =>
      if zone_holds (DnsBalancer.zm_Zone m) (TargetVPSIP item)
      then settle item completed_state "persist recovered completion failed" RecoveredCompleted "Node and DNS were already healthy"
      else settle item dns_retry_state "persist DNS retry state failed" SafeToRetryDNS "Node is healthy and DNS can be retried"
    end.

(** The part of [inspectExternalState] for a deployment with a known Node. *)
Definition inspect_node (item : Deployment) (uuid : string) : M (result string Result) :=
  node ← call (RecGetNode uuid);
  match node with
  | Err _ => manual item "Remnawave Node health could not be verified"
  | Ok node =>
    if negb (Remnawave.node_IsConnected node) && Remnawave.node_IsConnecting node
    then settle item waiting_state "persist Remnawave recheck state failed" SafeToRecheck "Remnawave Node is still connecting"
    else if negb (Remnawave.node_IsConnected node)
    then manual item (safeNodeMessage (Remnawave.node_LastStatusMessage node))
    else inspect_dns item
  end.

Definition inspectExternalState (item : Deployment) : M (result string Result) :=
  match RemnawaveNodeUUID item with
  | Some uuid => inspect_node item uuid
  | None =>
    nodes ← call RecGetNodes;
    match nodes with
    | Err _ => manual item "Remnawave state could not be verified"
    | Ok nodes =>
      match List.filter (exact_match item) nodes with
      | [exact] =>
        updated ← call (RecSetNode (ID item) (Remnawave.node_UUID exact));
        match updated with
        | Err _ => mret (Err "persist recovered Remnawave Node failed")
        | Ok updated => inspect_node updated (default "" (RemnawaveNodeUUID updated))
        end
      | _ => manual item "Existing Remnawave Node could not be identified safely"
      end
    end
  end.

Definition classify (item : Deployment) : M (result string Result) :=
  match status item with
  | StatusCompleted => mret (Ok (mkResult (ID item) RecoveredCompleted "Deployment is already completed"))
  | StatusCreatingRemnawave | StatusWaitingRemnawave | StatusAddingToDNS => inspectExternalState item
  | StatusFailed | StatusManualReview =>
    if existsb (String.eqb (CurrentStep item)) ["create_remnawave_node"; "wait_remnawave"; "add_dns"]
    then inspectExternalState item
    else manual item "Failed deployment cannot be rechecked automatically at this step"
  | StatusDNSFailed => inspectExternalState item
  | _ => manual item "Restart occurred during a step that cannot be repeated automatically"
  end.

(** [item.PanelID != "" && item.PanelID != s.panelID]. *)
Definition foreign (item : Deployment) : bool :=
  negb (String.eqb (PanelID item) "") && negb (String.eqb (PanelID item) (rs_panelID s)).

(** The loop of [RecoverUnfinished]: the results so far are returned with an error. *)
Fixpoint recover_items (results : list Result) (items : list Deployment) : M (list Result * option string) :=
  match items with
  | [] => mret (results, None)
  | item :: items' =>
    if foreign item then recover_items results items'
    else
      r ← classify item;
      match r with
      | Err e => mret (results, Some e)
      | Ok r => recover_items (results ++ [r]) items'
      end
  end.

Definition RecoverUnfinished (limit : Z) : M (list Result * option string) :=
  items ← (if rs_scoped s then call (RecFindUnfinishedByPanel (rs_panelID s) limit) else call (RecFindUnfinished limit));
  match items with
  | Err _ => mret ([], Some "load unfinished deployments failed")
  | Ok items => recover_items [] items
  end.

Definition RecheckRemnawave (deploymentID : string) : M (result string Result) :=
  item ← call (RecGet deploymentID);
  match item with
  | Err _ => mret (Err "load deployment for recheck failed")
  | Ok item => if foreign item then mret (Err "deployment belongs to another panel") else classify item
  end.
End Service.

(** ** The decision table *)

(** What the panel and DNS answer while one deployment is classified. *)
Record World : Type := mkWorld {
  w_nodes : result remErr (list Node);
  w_node : string -> result remErr Node;
  w_zone : string -> result dnsErr ZoneMatch
}.

(** Deployments whose Node may exist: they are in, or failed in, a step that
    starts with its creation. *)
Definition inspectable (item : Deployment) : bool :=
  match status item with
  | StatusCreatingRemnawave | StatusWaitingRemnawave | StatusAddingToDNS | StatusDNSFailed => true
  | StatusFailed | StatusManualReview => bool_decide (CurrentStep item ∈ ["create_remnawave_node"; "wait_remnawave"; "add_dns"])
  | _ => false
  end.

Section Reference.
Context (uuid_text : string -> option string) (s : RecoveryService) (w : World).

(** The Node of a deployment: the recorded one, or the only one in the panel
    with its name and address. *)
Definition known_node (item : Deployment) : option string :=
  match RemnawaveNodeUUID item, w_nodes w with
  | Some uuid, _ => Some uuid
  | None, Ok nodes => match List.filter (exact_match item) nodes with [n] => uuid_text (Remnawave.node_UUID n) | _ => None end
  | None, Err _ => None
  end.

Definition node_verdict (item : Deployment) (node : Node) : Classification :=
  match Remnawave.node_IsConnected node, Remnawave.node_IsConnecting node with
  | false, true => SafeToRecheck
  | false, false => NeedsManualReview
  | true, _ =>
    if rs_dnsDisabled s then RecoveredCompleted
    else match w_zone w (SNIDomain item) with
    | Err _ => NeedsManualReview
    | Ok m => if zone_holds (DnsBalancer.zm_Zone m) (TargetVPSIP item) then RecoveredCompleted else SafeToRetryDNS
    end
  end.

Definition verdict (item : Deployment) : Classification :=
  if bool_decide (status item = StatusCompleted) then RecoveredCompleted
  else if negb (inspectable item) then NeedsManualReview
  else match known_node item with
  | None => NeedsManualReview
  | Some uuid => match w_node w uuid with Err _ => NeedsManualReview | Ok node => node_verdict item node end
  end.

(** The status a classification leaves in the row. *)
Definition status_of (c : Classification) : Status :=
  match c with
  | SafeToRecheck => StatusWaitingRemnawave
  | SafeToRetryDNS => StatusDNSFailed
  | RecoveredCompleted => StatusCompleted
  | NeedsManualReview => StatusManualReview
  end.

(** The environment: the panel and DNS answer as [w] says, the repository
    works on its tables and may fail before or after a commit. *)
Definition RecEnv : Env recE (Z * Db) := fun X e st x st' =>
  match e in recE X return X -> Prop with
  | RecFindUnfinishedByPanel panel limit => fun x => st' = st /\ (x = FindUnfinishedDeploymentsByPanel panel limit (snd st) \/ x = Err DriverError)
  | RecFindUnfinished limit => fun x => st' = st /\ (x = FindUnfinishedDeployments limit (snd st) \/ x = Err DriverError)
  | RecGet id => fun x => st' = st /\ (x = GetDeployment uuid_text id (snd st) \/ x = Err DriverError)
  | RecSetNode id uuid => fun x => written_to (fun now => SetRemnawaveNodeUUID uuid_text now id uuid) st x st'
  | RecUpdateState id p => fun x => written_to (fun now => UpdateDeploymentState uuid_text now id p) st x st'
  | RecRecordStep p => fun x => written_to (fun now => RecordDeploymentStep uuid_text now p) st x st'
  | RecGetNodes => fun x => st' = st /\ x = w_nodes w
  | RecGetNode uuid => fun x => st' = st /\ x = w_node w uuid
  | RecFindZone fqdn => fun x => st' = st /\ x = w_zone w fqdn
  end x.
#[local] Existing Instance RecEnv.

(** A repository write that did not answer with the row. *)
Definition write_failed (ev : event recE) : bool :=
  (fun X (e : recE X) => match e in recE X return X -> bool with
   | RecSetNode _ _ | RecUpdateState _ _ => fun r => negb (is_ok r)
   | _ => fun _ => false
   end) _ (ev_op ev) (ev_res ev).

(** The outcome of a classification of [item], which started from [db]. *)
Definition classified (item : Deployment) (db : Db) (tr : list (event recE)) (r : result string Result) (db' : Db) : Prop :=
  (forall other, other <> ID item -> deployments db' !! other = deployments db !! other) /\
  match r with
  | Err _ => exists ev, ev ∈ tr /\ write_failed ev = true
  | Ok res =>
    res_DeploymentID res = ID item /\ res_Classification res = verdict item /\
    exists d, deployments db' !! ID item = Some d /\ status d = status_of (verdict item)
  end.

Section Item.
Context (item : Deployment) (db : Db) (Hid : uuid_text (ID item) = Some (ID item)).

(** Only the row of the deployment differs from the start. *)
Definition framed (db' : Db) : Prop := forall other, other <> ID item -> deployments db' !! other = deployments db !! other.

Lemma framed_row d db' : framed db' -> framed (with_deployment (ID item) d db').
Proof. intros H other Hne. simpl. rewrite lookup_insert_ne by done. by apply H. Qed.

Lemma framed_update_row f db' : framed db' -> framed (snd (update_row uuid_text (ID item) f db')).
Proof.
  intros H. unfold update_row. rewrite Hid. destruct (deployments db' !! ID item); [|done].
  destruct (f _); [by apply framed_row|done].
Qed.

Lemma written_framed {A} (op : Z -> Db -> result repoErr A * Db) st x st' :
  (forall now db', framed db' -> framed (snd (op now db'))) -> framed (snd st) -> written_to op st x st' -> framed (snd st').
Proof. intros Hop H [_ [[_ ->]|[_ [->| ->]]]]; auto. Qed.

Lemma update_framed now p db' : framed db' -> framed (snd (UpdateDeploymentState uuid_text now (ID item) p db')).
Proof. intros H. unfold UpdateDeploymentState. destruct (_ || _); [done|by apply framed_update_row]. Qed.

Lemma set_node_framed now uuid db' : framed db' -> framed (snd (SetRemnawaveNodeUUID uuid_text now (ID item) uuid db')).
Proof. intros H. unfold SetRemnawaveNodeUUID. destruct (_ || _); [done|by apply framed_update_row]. Qed.

Lemma record_framed now p db' : rsp_DeploymentID p = ID item -> framed db' -> framed (snd (RecordDeploymentStep uuid_text now p db')).
Proof.
  intros Hp H. unfold RecordDeploymentStep. destruct (_ || _); [done|]. rewrite Hp, Hid.
  destruct (deployments db' !! ID item); [|done]. intros other Hne. simpl. rewrite lookup_insert_ne by done. by apply H.
Qed.

Lemma update_row_ok id f db0 d db1 :
  uuid_text id = Some id -> update_row uuid_text id f db0 = (Ok d, db1) ->
  deployments db1 !! id = Some d /\ exists d0, deployments db0 !! id = Some d0 /\ f d0 = Some d.
Proof.
  intros Hid'. unfold update_row. rewrite Hid'. destruct (deployments db0 !! id) as [d0|] eqn:Hd; [|done].
  destruct (f d0) as [d'|] eqn:Hf; [|done]. intros [= <- <-]. simpl. rewrite lookup_insert_eq. eauto.
Qed.

Lemma update_answer st p d st' :
  written_to (fun now => UpdateDeploymentState uuid_text now (ID item) p) st (Ok d) st' ->
  deployments (snd st') !! ID item = Some d /\ status d = usp_Status p.
Proof.
  intros [_ [[Hx Hs]|[? _]]]; [|done]. unfold UpdateDeploymentState in *. destruct (_ || _); [done|].
  destruct (update_row _ _ _ _) as [x db1] eqn:Hu. simpl in *. subst x. rewrite Hs.
  apply update_row_ok in Hu as (H1 & d0 & _ & [= <-]); [|done]. done.
Qed.

Lemma set_node_answer st uuid d st' :
  written_to (fun now => SetRemnawaveNodeUUID uuid_text now (ID item) uuid) st (Ok d) st' ->
  deployments (snd st) !! ID item = Some item ->
  exists now uuid', uuid_text uuid = Some uuid' /\ d = set_node_row now uuid' item.
Proof.
  intros [_ [[Hx Hs]|[? _]]] Hrow; [|done]. unfold SetRemnawaveNodeUUID in *. destruct (_ || _); [done|].
  destruct (update_row _ _ _ _) as [x db1] eqn:Hu. simpl in *. subst x.
  apply update_row_ok in Hu as (H1 & d0 & H2 & H3); [|done]. rewrite Hrow in H2. injection H2 as <-.
  apply bind_Some in H3 as (uuid' & H4 & [= <-]). eauto.
Qed.

Definition done_with (r : result string Result) (st' : Z * Db) (tr' : list (event recE)) : Prop :=
  classified item db tr' r (snd st').

Lemma failed_last st' tr X (e : recE X) x message :
  framed (snd st') -> write_failed (Ev e x) = true -> done_with (Err message) st' (tr ++ [Ev e x]).
Proof. intros H He. split; [exact H|]. exists (Ev e x). split; [apply elem_of_app; right; by left|done]. Qed.

Lemma wp_settle item' p failure c message st tr :
  ID item' = ID item -> usp_Status p = status_of c -> c = verdict item -> framed (snd st) ->
  wp (settle item' p failure c message) st tr done_with.
Proof.
  intros Hi Hp Hc Hf. unfold settle. rewrite Hi. wp_answer x st1 Hst. simpl in Hst.
  assert (framed (snd st1)) as Hf1 by (eapply written_framed; [|exact Hf|exact Hst]; intros; by apply update_framed).
  destruct x as [d|e]; wp_steps; [|by apply failed_last]. apply update_answer in Hst as [H1 H2].
  split; [exact Hf1|]. split; [done|]. split; [exact Hc|]. exists d. split; [exact H1|]. by rewrite H2, Hp, Hc.
Qed.

Lemma manual_settle item' message :
  manual item' message = settle item' (mkUpdateDeploymentStateParams StatusManualReview (CurrentStep item')
    (Some "MANUAL_REVIEW_REQUIRED") (Some (safeNodeMessage (Some message)))) "persist manual review state failed"
    NeedsManualReview (safeNodeMessage (Some message)).
Proof. done. Qed.

Lemma wp_manual item' message st tr :
  ID item' = ID item -> verdict item = NeedsManualReview -> framed (snd st) -> wp (manual item' message) st tr done_with.
Proof. intros Hi Hv Hf. rewrite manual_settle. by apply wp_settle. Qed.

(** [item'] differs from [item] at most in the Node that was found. *)
Definition same_target (item' : Deployment) : Prop :=
  ID item' = ID item /\ SNIDomain item' = SNIDomain item /\ TargetVPSIP item' = TargetVPSIP item.

Lemma wp_inspect_dns item' node st tr :
  same_target item' -> Remnawave.node_IsConnected node = true -> verdict item = node_verdict item node ->
  framed (snd st) -> wp (inspect_dns s item') st tr done_with.
Proof.
  intros (Hi & Hsni & Hip) Hc Hv Hf. unfold node_verdict in Hv. rewrite Hc in Hv. unfold inspect_dns.
  destruct (rs_dnsDisabled s).
  - wp_answer x st1 Hst. apply wp_settle; [done|done|done|]. simpl in Hst.
    eapply written_framed; [|exact Hf|exact Hst]. intros. by apply record_framed.
  - rewrite Hsni, Hip. wp_answer zone st1 Hst. destruct Hst as [-> ->].
    destruct (w_zone w (SNIDomain item)) as [m|e]; [|by apply wp_manual].
    destruct (zone_holds _ _); by apply wp_settle.
Qed.

Lemma wp_inspect_node item' uuid st tr :
  same_target item' -> verdict item = match w_node w uuid with Err _ => NeedsManualReview | Ok node => node_verdict item node end ->
  framed (snd st) -> wp (inspect_node s item' uuid) st tr done_with.
Proof.
  intros Hsame Hv Hf. pose proof Hsame as (Hi & _). unfold inspect_node. wp_answer node st1 Hst. destruct Hst as [-> ->].
  destruct (w_node w uuid) as [node|e]; [|by apply wp_manual]. unfold node_verdict in Hv.
  destruct (Remnawave.node_IsConnected node) eqn:Hc, (Remnawave.node_IsConnecting node) eqn:Hg; simpl;
    [| |by apply wp_settle|by apply wp_manual]; (eapply (wp_inspect_dns _ node); [done|done| |done]); unfold node_verdict; by rewrite Hc.
Qed.

Lemma wp_inspectExternalState st tr :
  deployments (snd st) !! ID item = Some item -> bool_decide (status item = StatusCompleted) = false -> inspectable item = true ->
  framed (snd st) -> wp (inspectExternalState s item) st tr done_with.
Proof.
  intros Hrow Hc Hi Hf. unfold inspectExternalState.
  assert (verdict item = match known_node item with
    | None => NeedsManualReview
    | Some uuid => match w_node w uuid with Err _ => NeedsManualReview | Ok node => node_verdict item node end end) as Hv.
  { unfold verdict. by rewrite Hc, Hi. }
  unfold known_node in Hv. destruct (RemnawaveNodeUUID item) as [uuid|] eqn:Hu; [by apply wp_inspect_node|].
  wp_answer nodes st1 Hst. destruct Hst as [-> ->]. destruct (w_nodes w) as [nodes|e]; [|by apply wp_manual].
  destruct (List.filter _ nodes) as [|exact [|? ?]]; [by apply wp_manual| |by apply wp_manual].
  wp_answer x st2 Hst. simpl in Hst.
  assert (framed (snd st2)) as Hf2 by (eapply written_framed; [|exact Hf|exact Hst]; intros; by apply set_node_framed).
  destruct x as [d|e]; [|wp_steps; by apply failed_last]. apply set_node_answer in Hst as (now & uuid' & Hu' & ->); [|done].
  rewrite Hu' in Hv. simpl. by apply wp_inspect_node.
Qed.

Lemma wp_classify st tr :
  deployments (snd st) !! ID item = Some item -> framed (snd st) -> wp (classify s item) st tr done_with.
Proof.
  intros Hrow Hf. unfold classify.
  assert (inspectable item = false -> status item <> StatusCompleted -> verdict item = NeedsManualReview) as Hman.
  { intros Hi Hc. unfold verdict. rewrite bool_decide_eq_false_2, Hi by done. done. }
  assert (existsb (String.eqb (CurrentStep item)) ["create_remnawave_node"; "wait_remnawave"; "add_dns"] =
    bool_decide (CurrentStep item ∈ ["create_remnawave_node"; "wait_remnawave"; "add_dns"])) as Hstep.
  { apply eq_bool_prop_intro. rewrite bool_decide_spec. rewrite Is_true_true, existsb_elem_of. split.
    - intros (x & Hx & ->%String.eqb_eq). done.
    - intros H. exists (CurrentStep item). split; [done|apply String.eqb_refl]. }
  unfold inspectable in Hman. rewrite <-Hstep in Hman.
  destruct (status item) eqn:Hst; try (by apply wp_manual; [done|apply Hman|done]);
    try (apply wp_inspectExternalState; [done|by rewrite Hst|unfold inspectable; by rewrite Hst|done]).
  - wp_steps. split; [done|]. assert (verdict item = RecoveredCompleted) as Hv by (unfold verdict; by rewrite Hst).
    rewrite Hv. split; [done|]. split; [done|]. by exists item.
  - destruct (existsb _ _) eqn:He; [|by apply wp_manual; [done|apply Hman|done]].
    apply wp_inspectExternalState; [done|by rewrite Hst| |done]. unfold inspectable. by rewrite Hst, <-Hstep.
  - destruct (existsb _ _) eqn:He; [|by apply wp_manual; [done|apply Hman|done]].
    apply wp_inspectExternalState; [done|by rewrite Hst| |done]. unfold inspectable. by rewrite Hst, <-Hstep.
Qed.
End Item.
End Reference.

(** ** The recovery of a list *)

(** The deployments the recovery of a panel asks the repository for. *)
Definition unfinished_of (s : RecoveryService) (limit : Z) (db : Db) : result repoErr (list Deployment) :=
  if rs_scoped s then FindUnfinishedDeploymentsByPanel (rs_panelID s) limit db else FindUnfinishedDeployments limit db.

Lemma map_values_NoDup (m : gmap string Deployment) :
  map_Forall (fun key d => ID d = key) m -> NoDup (ID <$> (snd <$> map_to_list m)).
Proof.
  intros Hm. assert (ID <$> (snd <$> map_to_list m) = fst <$> map_to_list m) as ->.
  { rewrite <-list_fmap_compose. apply list_fmap_ext. intros i [key d] Hi. simpl.
    apply Hm. by apply elem_of_map_to_list, list_elem_of_lookup_2 with i. }
  apply NoDup_fst_map_to_list.
Qed.

Lemma fmap_sublist {A B} (f : A -> B) l k : l `sublist_of` k -> f <$> l `sublist_of` f <$> k.
Proof. induction 1; by constructor. Qed.

Lemma filter_sublist {A} (f : A -> bool) l : List.filter f l `sublist_of` l.
Proof. induction l as [|x l IH]; simpl; [constructor|]. destruct (f x); by constructor. Qed.

Lemma limited_rows (query : Db -> list Deployment) (R : Deployment -> Deployment -> Prop) `{!RelDecision R} f limit db l :
  list_limited (fun db => merge_sort R (List.filter f (rows db))) limit db = Ok l ->
  map_Forall (fun key d => ID d = key) (deployments db) ->
  NoDup (ID <$> l) /\ forall d, d ∈ l -> deployments db !! ID d = Some d.
Proof.
  intros [_ ->]%list_limited_ok Hm. set (sorted := merge_sort _ _).
  assert (Permutation sorted (List.filter f (rows db))) as Hp by apply merge_sort_Permutation.
  assert (NoDup (ID <$> sorted)) as Hnd.
  { rewrite Hp. eapply (sublist_NoDup _ (ID <$> rows db)); [by apply map_values_NoDup|].
    apply fmap_sublist, filter_sublist. }
  split.
  - eapply sublist_NoDup; [exact Hnd|]. apply fmap_sublist, sublist_take.
  - intros d Hd. assert (d ∈ sorted) as Hd' by by eapply elem_of_submseteq, submseteq_take.
    rewrite Hp, list_elem_of_In, filter_In, <-list_elem_of_In in Hd'. destruct Hd' as [Hd' _].
    apply list_elem_of_fmap in Hd' as ([key d'] & -> & Hd'). apply elem_of_map_to_list in Hd'.
    simpl. by rewrite (Hm key d' Hd').
Qed.
Section Recovering.
Context (uuid_text : string -> option string) (s : RecoveryService) (w : World).
#[local] Existing Instance RecEnv.
#[local] Instance Rec : Env recE (Z * Db) := RecEnv uuid_text w.

Definition own (items : list Deployment) : list Deployment := List.filter (fun item => negb (foreign s item)) items.

(** A result and the row it left. *)
Definition agrees (db : Db) (item : Deployment) (res : Result) : Prop :=
  res_DeploymentID res = ID item /\ res_Classification res = verdict uuid_text s w item /\
  exists d, deployments db !! ID item = Some d /\ status d = status_of (verdict uuid_text s w item).

(** The outcome for the deployments [items] of the tables [db]. *)
Definition recovered (items : list Deployment) (db : Db) (tr : list (event recE)) (results : list Result)
    (failure : option string) (db' : Db) : Prop :=
  (forall other, other ∉ ID <$> own items -> deployments db' !! other = deployments db !! other) /\
  Forall2 (agrees db') (take (length results) (own items)) results /\
  match failure with
  | None => length results = length (own items)
  | Some _ => exists ev, ev ∈ tr /\ write_failed ev = true
  end.

Lemma own_cons item items : own (item :: items) = if foreign s item then own items else item :: own items.
Proof. unfold own. simpl. by destruct (foreign s item). Qed.

Lemma own_elem items item : item ∈ own items -> item ∈ items.
Proof. unfold own. rewrite !list_elem_of_In, filter_In. tauto. Qed.

Lemma wp_recover_items items : forall results st tr,
  NoDup (ID <$> items) ->
  (forall item, item ∈ items -> deployments (snd st) !! ID item = Some item /\ uuid_text (ID item) = Some (ID item)) ->
  wp (recover_items s results items) st tr (fun r st' tr' =>
    exists rs, r.1 = results ++ rs /\ recovered items (snd st) tr' rs r.2 (snd st')).
Proof.
  induction items as [|item items IH]; intros results st tr Hnd Hrows; simpl.
  - exists []. split; [by rewrite app_nil_r|]. split; [done|]. by split.
  - apply NoDup_cons in Hnd as [Hnot Hnd]. unfold recovered. rewrite own_cons.
    assert (forall i, i ∈ items -> ID i <> ID item) as Hne.
    { intros i Hi Heq. apply Hnot. rewrite <-Heq. by apply list_elem_of_fmap_2. }
    destruct (foreign s item); [apply IH; [done|]; intros i Hi; apply Hrows; by right|].
    destruct (Hrows item ltac:(by left)) as [Hrow Hid]. wp_steps.
    eapply wp_mono; [by apply (wp_classify uuid_text s w item (snd st))|]. intros r st1 tr1 [Hf Hr]. cbv beta.
    destruct r as [res|e]; wp_steps.
    2: { exists []. split; [by rewrite app_nil_r|]. split; [|split; [constructor|done]].
         intros other Hother. apply Hf. intros ->. apply Hother. simpl. by left. }
    eapply wp_mono.
    { apply IH; [done|]. intros i Hi. rewrite Hf by by apply Hne. apply Hrows. by right. }
    intros [rs2 e] st2 tr2 (rs & H1 & H2 & H3 & H4). simpl in *. destruct Hr as (E1 & E2 & d & E3 & E4).
    assert (ID item ∉ ID <$> own items) as Hout.
    { intros (i & Heq & Hi%own_elem)%list_elem_of_fmap. by eapply Hne. }
    exists (res :: rs). split; [by rewrite H1, <-app_assoc|]. split; [|split; simpl].
    + intros other Hother. simpl in Hother. apply not_elem_of_cons in Hother as [Ho1 Ho2]. rewrite H2 by done. by apply Hf.
    + constructor; [|done]. split; [done|]. split; [done|]. exists d. split; [|done]. by rewrite H2.
    + by destruct e; [|f_equal].
Qed.
Lemma wp_RecoverUnfinished limit now db :
  (forall key d, deployments db !! key = Some d -> ID d = key /\ uuid_text key = Some key) ->
  wp (RecoverUnfinished s limit) (now, db) [] (fun '(results, failure) '(_, db') tr =>
    match unfinished_of s limit db with
    | Ok items => recovered items db tr results failure db' \/ (results = [] /\ is_Some failure /\ db' = db)
    | Err _ => results = [] /\ is_Some failure /\ db' = db
    end).
Proof.
  intros Hdb. unfold RecoverUnfinished. wp_steps.
  apply (wp_mono _ _ _ (fun x st _ => st = (now, db) /\ (x = unfinished_of s limit db \/ x = Err DriverError))).
  { unfold unfinished_of. destruct (rs_scoped s); wp_steps; apply wp_call; by intros x st [-> H]. }
  intros x st tr [-> Hx]. cbv beta. destruct Hx as [-> | ->].
  2: { wp_steps. destruct (unfinished_of s limit db); [by right|done]. }
  destruct (unfinished_of s limit db) as [items|e] eqn:Hitems; [|by wp_steps].
  assert (map_Forall (fun key d => ID d = key) (deployments db)) as Hm by (intros key d Hk; by apply Hdb).
  assert (NoDup (ID <$> items) /\ forall d, d ∈ items -> deployments db !! ID d = Some d) as [Hnd Hin].
  { unfold unfinished_of, FindUnfinishedDeploymentsByPanel, FindUnfinishedDeployments in Hitems.
    destruct (rs_scoped s); [destruct (negb _); [done|]|]; by eapply limited_rows. }
  eapply wp_mono; [apply (wp_recover_items items [] (now, db)); [done|]|].
  - intros item Hi. split; [by apply Hin|]. by apply (Hdb _ item), Hin.
  - intros [results failure] [now' db'] tr' (rs & Hrs & H). simpl in Hrs. subst rs. by left.
Qed.
End Recovering.


(** ** Properties *)

(** C23. Recovery is the decision table.  For any answers of the panel and of
    DNS, and with a repository that may fail before or after any commit, a
    recovery of a panel classifies its unfinished deployments, in the order
    the repository lists them, each exactly as [verdict] says: nothing is
    assumed about a deployment that was interrupted before its Node was
    created (manual review), a Node is adopted only when it is the only one
    with the name and address, and a deployment is declared completed only
    with a connected Node whose address DNS holds (or with DNS disabled).
    The row of each gets the status of its classification, every other row
    of the tables stays as it was, and the list is cut short only by a
    repository write that failed. *)
Theorem recovery_equals_the_decision_table uuid_text s w limit now db :
  (forall key d, deployments db !! key = Some d -> ID d = key /\ uuid_text key = Some key) ->
  always (Env0 := RecEnv uuid_text w) (RecoverUnfinished s limit) (now, db) (fun tr '(results, failure) '(_, db') =>
    match unfinished_of s limit db with
    | Ok items => recovered uuid_text s w items db tr results failure db' \/ (results = [] /\ is_Some failure /\ db' = db)
    | Err _ => results = [] /\ is_Some failure /\ db' = db
    end).
Proof.
  intros Hdb. apply wp_always. eapply wp_mono; [by apply wp_RecoverUnfinished|]. by intros [results failure] [now' db'] tr H.
Qed.

(** ** A concrete recovery *)
Definition example_item (id step : string) (st : Status) : Deployment :=
  mkDeployment id "default" 7 host1 "edge" "vpn.example.com" "node-1" (Addr4 16909060) None None st step None None 10 10 (Some 10) None.

Definition example_unfinished : Db :=
  mkDb {[ id1 := example_item id1 "create_remnawave_node" StatusCreatingRemnawave;
          id2 := example_item id2 "provisioning" StatusProvisioning ]} ∅.

Definition example_node : Node :=
  Remnawave.mkNode host1 "node-1" "1.2.3.4" None true false false None None None [].

Definition example_zone : ZoneMatch :=
  DnsBalancer.mkZoneMatch "vpn.example.com" "example.com" "vpn" (DnsBalancer.mkZone "vpn" 60 false (Some ["1.2.3.4"]) None).

Definition example_world : World :=
  mkWorld (Ok [example_node]) (fun _ => Ok example_node) (fun _ => Ok example_zone).

Definition example_recovery : RecoveryService := mkRecoveryService "default" false true.

(** The repository answers from its tables, at time 20. *)
Definition example_rec_handler : handler recE (Z * Db) := fun X e st =>
  let write {A} (op : Z -> Db -> result repoErr A * Db) := let '(x, db') := op 20 (snd st) in (x, (20, db')) in
  match e in recE X return X * (Z * Db) with
  | RecFindUnfinishedByPanel panel limit => (FindUnfinishedDeploymentsByPanel panel limit (snd st), st)
  | RecFindUnfinished limit => (FindUnfinishedDeployments limit (snd st), st)
  | RecGet id => (GetDeployment example_uuid id (snd st), st)
  | RecSetNode id uuid => write (fun now => SetRemnawaveNodeUUID example_uuid now id uuid)
  | RecUpdateState id p => write (fun now => UpdateDeploymentState example_uuid now id p)
  | RecRecordStep p => write (fun now => RecordDeploymentStep example_uuid now p)
  | RecGetNodes => (w_nodes example_world, st)
  | RecGetNode uuid => (w_node example_world uuid, st)
  | RecFindZone fqdn => (w_zone example_world fqdn, st)
  end.

Lemma example_unfinished_keys key d :
  deployments example_unfinished !! key = Some d -> ID d = key /\ example_uuid key = Some key.
Proof.
  unfold example_unfinished. simpl. intros [[<- <-]|[_ [<- <-]%lookup_singleton_Some]]%lookup_insert_Some; split; reflexivity.
Qed.

Definition example_recovered : list (event recE) * (list Result * option string) * (Z * Db) :=
  run example_rec_handler (RecoverUnfinished example_recovery 10) (20, example_unfinished).

(** The interrupted creation is recognised as finished, the interrupted
    provisioning is left to the operator. *)
Lemma example_recovery_run :
  let '(tr, (results, failure), (_, db')) := example_recovered in
  (res_Classification <$> results) = [RecoveredCompleted; NeedsManualReview] /\ failure = None /\
  (RemnawaveNodeUUID <$> deployments db' !! id1) = Some (Some host1) /\
  (status <$> deployments db' !! id2) = Some StatusManualReview.
Proof. vm_compute. done. Qed.

Lemma recovery_equals_the_decision_table_witness :
  @always _ _ (RecEnv example_uuid example_world) _ (RecoverUnfinished example_recovery 10) (20, example_unfinished)
    (fun tr '(results, failure) '(_, db') =>
       match unfinished_of example_recovery 10 example_unfinished with
       | Ok items => recovered example_uuid example_recovery example_world items example_unfinished tr results failure db' \/
                     (results = [] /\ is_Some failure /\ db' = example_unfinished)
       | Err _ => results = [] /\ is_Some failure /\ db' = example_unfinished
       end) /\
  (verdict example_uuid example_recovery example_world <$> [example_item id1 "create_remnawave_node" StatusCreatingRemnawave;
                                                           example_item id2 "provisioning" StatusProvisioning])
    = [RecoveredCompleted; NeedsManualReview].
Proof.
  split; [|vm_compute; reflexivity].
  apply (recovery_equals_the_decision_table example_uuid example_recovery example_world 10 20 example_unfinished).
  exact example_unfinished_keys.
Defined.

(** ** What the model shows *)

(** [safeNodeMessage] cuts at a byte: a valid text of the panel can become one
    that is not valid UTF-8, which a text column of the database rejects. *)
Lemma node_message_cut_inside_a_rune :
  let message := "x" +:+ String.concat "" (repeat "я" 100) in
  ValidString message = true /\ ValidString (safeNodeMessage (Some message)) = false.
Proof. vm_compute. done. Qed.

(** A recheck moves a CANCELLED deployment, which is finished, to MANUAL_REVIEW. *)
Lemma recheck_reopens_cancelled uuid_text s w id step :
  verdict uuid_text s w (example_item id step StatusCancelled) = NeedsManualReview /\
  status_of NeedsManualReview = StatusManualReview.
Proof. done. Qed.
