(* ===== verification/CertManager.v ===== *)
(** * The certificate manager ([internal/certmanager/manager.go])

    Issuance, renewal, distribution, activation and rollback of the
    certificates of one panel.  What the manager calls (the metadata
    repository, the version store, the issuer, the per-domain lock, the
    target resolver, the distributor, the observer and the clock) is one
    effect signature; validation is the model of [Certificates].  The last
    part proves what guards an activation. *)

From S2P Require Import Prelude GoStrings GoText NetIP Effects CertTypes Certificates CertStore.

#[local] Open Scope Z_scope.

(** ** Configuration ([Config], [New]) *)
Record ManagerConfig : Type := mkManagerConfig {
  mc_RenewBefore : Z;
  mc_IssueTimeout : Z;
  mc_RenewInterval : Z;
  mc_RenewBatchSize : Z;
  (* which of the optional dependencies are there *)
  mc_Resolver : bool;
  mc_Distributor : bool;
  mc_Observer : bool
}.


(** [New]: defaults for the values that are not positive, and the limits. *)
Definition New (c : ManagerConfig) : result certErr ManagerConfig :=
  let c := mkManagerConfig
    (if mc_RenewBefore c <=? 0 then 30 * 24 * Hour else mc_RenewBefore c)
    (if mc_IssueTimeout c <=? 0 then 600 * Second else mc_IssueTimeout c)
    (if mc_RenewInterval c <=? 0 then 12 * Hour else mc_RenewInterval c)
    (if mc_RenewBatchSize c <=? 0 then 50 else mc_RenewBatchSize c)
    (mc_Resolver c) (mc_Distributor c) (mc_Observer c) in
  if (365 * 24 * Hour <=? mc_RenewBefore c) || (100 <? mc_RenewBatchSize c)
  then Err (CertSentinel ErrInvalidInput) else Ok c.

(** ** Effects *)
Inductive mgrE : Type -> Type :=
  | MCtxErr : mgrE bool
  | MLock (key : string) : mgrE bool
  | MUnlock : mgrE unit
  | MNow : mgrE Z
  | MTick : mgrE bool
  | MObserveExpiry (sni : string) (d : Z) : mgrE unit
  | MRenewalFailed (sni : string) : mgrE unit
  | MGetActive (sni : string) : mgrE (result certErr CertRecord)
  | MSaveVersion (v : CertVersion) : mgrE (option certErr)
  | MSetVersionStatus (sni version : string) (st : VersionStatus) : mgrE (option certErr)
  | MActivateVersion (sni version : string) (renewed : bool) : mgrE (option certErr)
  | MSetStatus (sni : string) (st : CertStatus) : mgrE (option certErr)
  | MRecordDistribution (r : DistributionRecord) : mgrE (option certErr)
  | MRecordTargetReview (r : TargetReview) : mgrE (option certErr)
  | MListVersions (sni : string) : mgrE (result certErr (list CertVersion))
  | MListExpiring (before limit : Z) : mgrE (result certErr (list CertRecord))
  | MStage (domain : string) (m : Material) : mgrE (result certErr string)
  | MLoad (domain version : string) : mgrE (result certErr Material)
  | MActiveVersion (domain : string) : mgrE (result certErr string)
  | MActivate (domain version : string) : mgrE (option certErr)
  | MIssue (domain : string) : mgrE (result certErr Material)
  | MResolve (domain : string) : mgrE (result certErr TargetResolution)
  | MDistribute (domain : string) (m : Material) (targets : list Target) : mgrE (list DistributionResult)
  | MDestroy (m : Material) : mgrE unit.

(** ** Texts and times *)

(** [safe]. *)
Definition safe (message : string) (kind : certErr) : certErr := CertSafe message kind.

(** [safeMessage]: the text is cut at 200 bytes. *)
Definition safeMessage (value : string) : string :=
  let value := TrimSpace (flatten_ws value) in
  if String.eqb value "" then "Certificate distribution failed"
  else if 200 <? str_len value then str_take 200 value else value.

(** [Time.Sub] saturates at the ends of [Duration]. *)
Definition Sub (a b : Z) : Z := Z.max (- 2 ^ 63) (Z.min (2 ^ 63 - 1) (a - b)).

Definition succeeded (r : DistributionResult) : bool := bool_decide (dres_Status r = DistributionSucceeded).

Definition legacy_review (domain : string) (operator : Z) (ip : Addr) : TargetReview :=
  mkTargetReview domain ip TargetLegacyAcknowledged
    "Legacy DNS target explicitly acknowledged during certificate bootstrap" (Some operator) 0 0 None.

Definition manual_review (domain : string) (ip : Addr) : TargetReview :=
  mkTargetReview domain ip TargetManualReview "DNS target has no verified deployment SSH identity" None 0 0 None.

(** [errors.Join]. *)
Fixpoint join_errors (l : list certErr) : option certErr :=
  match l with
  | [] => None
  | e :: l' => Some (match join_errors l' with None => e | Some e' => CertJoin e e' end)
  end.

(** The version a marker names, when it could be read. *)
Definition answered_version (r : result certErr string) : option string :=
  match r with Ok v => Some v | Err _ => None end.

(** ** The manager *)
Section Manager.
Context `{X509}.
Variable config : ManagerConfig.

Notation M := (prog mgrE).

Definition observeExpiry (sni : string) (expires : Z) : M unit :=
  if mc_Observer config && negb (IsZero expires) then
    now ← call MNow; call (MObserveExpiry sni (Sub expires now))
  else mret tt.

Definition renewalFailed (domain : string) : M unit :=
  if mc_Observer config then call (MRenewalFailed domain) else mret tt.

(** The end of [loadActive]: the material of the record, validated. *)
Definition load_record (domain : string) (record : CertRecord) : M (result certErr (CertRecord * Material)) :=
  material ← call (MLoad domain (rec_ActiveVersion record));
  match material with
  | Err e => mret (Err e)
  | Ok m =>
    now ← call MNow;
    if match Validate m domain now with
       | Ok info => String.eqb (inf_Fingerprint info) (rec_Fingerprint record)
       | Err _ => false
       end
    then mret (Ok (record, m))
    else _ ← call (MDestroy m); mret (Err ErrInvalidMaterial)
  end.

Definition loadActive (domain : string) (repairMarker : bool) : M (result certErr (CertRecord * Material)) :=
  found ← call (MGetActive domain);
  match found with
  | Err e => mret (Err e)
  | Ok record =>
    marker ← call (MActiveVersion domain);
    if bool_decide (answered_version marker = Some (rec_ActiveVersion record)) then load_record domain record
    else if negb repairMarker then
      mret (Err (safe "Active certificate storage is inconsistent" (CertSentinel ErrStorageFailed)))
    else
      activated ← call (MActivate domain (rec_ActiveVersion record));
      match activated with Some e => mret (Err e) | None => load_record domain record end
  end.

(** [errors.Is(err, ErrNotFound) || errors.Is(err, certificates.ErrInvalidMaterial)]. *)
Definition missing (e : certErr) : bool := cert_is e ErrNotFound || cert_invalid e.

Definition Readiness_ (sni : string) : M (result certErr Readiness) :=
  match canonicalSNI sni with
  | Err e => mret (Err e)
  | Ok domain =>
    loaded ← loadActive domain false;
    match loaded with
    | Err e => mret (if missing e then Ok ReadinessNotReady else Err e)
    | Ok (record, material) =>
      finally (_ ← observeExpiry (rec_SNI record) (rec_ExpiresAt record); mret (Ok ReadinessReady)) (call (MDestroy material))
    end
  end.

(** The loop over the results of a distribution: [Some failed], or [None] when
    a result could not be recorded. *)
Fixpoint record_results (domain version : string) (failed : bool) (results : list DistributionResult) : M (option bool) :=
  match results with
  | [] => mret (Some failed)
  | result :: results' =>
    let message := if succeeded result then "" else safeMessage (dres_SafeMessage result) in
    now ← call MNow;
    recorded ← call (MRecordDistribution (mkDistributionRecord domain version (tgt_DeploymentID (dres_Target result))
      (tgt_IP (dres_Target result)) (dres_Status result) message now));
    match recorded with
    | Some _ => mret None
    | None => record_results domain version (failed || negb (succeeded result)) results'
    end
  end.

Definition distributeTargets (domain version : string) (material : Material) (targets : list Target) : M (option certErr) :=
  if (length targets =? 0)%nat then mret None
  else if negb (mc_Distributor config) then
    mret (Some (safe "Certificate distributor is unavailable" (CertSentinel ErrDistributionFailed)))
  else
    results ← call (MDistribute domain material targets);
    recorded ← record_results domain version (negb (length results =? length targets)%nat) results;
    mret (match recorded with
          | None => Some (safe "Certificate distribution result could not be saved" (CertSentinel ErrPersistenceFailed))
          | Some true => Some (safe "Certificate distribution was incomplete" (CertSentinel ErrDistributionFailed))
          | Some false => None
          end).

(** The loops that record reviews: whether all of them were recorded. *)
Fixpoint record_reviews (review : Addr -> TargetReview) (ips : list Addr) : M bool :=
  match ips with
  | [] => mret true
  | ip :: ips' =>
    recorded ← call (MRecordTargetReview (review ip));
    match recorded with Some _ => mret false | None => record_reviews review ips' end
  end.

Definition resolve_failed (e : certErr) : certErr :=
  safe (SafeMessage e "Certificate distribution targets are unavailable") (CertSentinel ErrDistributionFailed).

Definition distribute (domain version : string) (material : Material) : M (option certErr) :=
  if negb (mc_Resolver config) then mret None
  else
    resolution ← call (MResolve domain);
    match resolution with
    | Err e => mret (Some (resolve_failed e))
    | Ok resolution =>
      if negb (length (Unmanaged resolution) =? 0)%nat then
        recorded ← record_reviews (manual_review domain) (Unmanaged resolution);
        mret (Some (if (recorded : bool)
          then safe "Certificate distribution requires review of unmanaged DNS targets" (CertSentinel ErrDistributionFailed)
          else safe "Certificate target review could not be saved" (CertSentinel ErrPersistenceFailed)))
      else distributeTargets domain version material (Managed resolution)
    end.

(** [restoreDistributedVersion], in a context of its own. *)
Definition restoreDistributedVersion (domain : string) (previous : option CertRecord) : M unit :=
  match previous with
  | None => mret tt
  | Some record =>
    if String.eqb (rec_ActiveVersion record) "" then mret tt
    else
      material ← call (MLoad domain (rec_ActiveVersion record));
      match material with
      | Err _ => mret tt
      | Ok m =>
        finally
          (now ← call MNow;
           if match Validate m domain now with
              | Ok info => String.eqb (inf_Fingerprint info) (rec_Fingerprint record)
              | Err _ => false
              end
           then _ ← distribute domain (rec_ActiveVersion record) m; mret tt
           else mret tt)
          (call (MDestroy m))
      end
  end.

(** What follows a candidate that could not be activated. *)
Definition candidate_failed (domain version : string) (previous : option CertRecord) (e : certErr) : M (option certErr) :=
  _ ← restoreDistributedVersion domain previous;
  _ ← call (MSetVersionStatus domain version VersionDistribution);
  _ ← call (MSetStatus domain StatusDistributionFailed);
  mret (Some e).

(** The activation of a version in the store and then in the metadata, with
    the marker put back when the metadata cannot follow. *)
Definition activate_candidate (domain version : string) (previous : option CertRecord) (expires : Z) : M (option certErr) :=
  activated ← call (MActivate domain version);
  match activated with
  | Some e => candidate_failed domain version previous e
  | None =>
    recorded ← call (MActivateVersion domain version (bool_decide (previous <> None)));
    match recorded with
    | Some _ =>
      let oldVersion := match previous with Some r => rec_ActiveVersion r | None => "" end in
      _ ← (if negb (String.eqb oldVersion "") then _ ← call (MActivate domain oldVersion); mret tt else mret tt);
      candidate_failed domain version previous (safe "Certificate metadata could not be activated" (CertSentinel ErrPersistenceFailed))
    | None => _ ← observeExpiry domain expires; mret None
    end
  end.

(** [issueAndActivate] after the issuance: [None] when the material is active. *)
Definition activate_issued (domain : string) (previous : option CertRecord) (material : Material) : M (option certErr) :=
  now ← call MNow;
  match Validate material domain now with
  | Err _ =>
    _ ← call (MSetStatus domain StatusInvalid);
    mret (Some (safe "Issued certificate is invalid" ErrInvalidMaterial))
  | Ok info =>
    staged ← call (MStage domain material);
    match staged with
    | Err e => mret (Some e)
    | Ok version =>
      created ← call MNow;
      saved ← call (MSaveVersion (mkCertVersion domain version (inf_Fingerprint info) (inf_Serial info) (inf_IssuedAt info)
                                   (inf_ExpiresAt info) VersionPending created));
      match saved with
      | Some _ => mret (Some (safe "Certificate metadata could not be saved" (CertSentinel ErrPersistenceFailed)))
      | None =>
        distributed ← distribute domain version material;
        match distributed with
        | Some e => candidate_failed domain version previous e
        | None => activate_candidate domain version previous (inf_ExpiresAt info)
        end
      end
    end
  end.

Definition issueAndActivate (domain : string) (previous : option CertRecord) : M (result certErr Material) :=
  issued ← call (MIssue domain);
  match issued with
  | Err e => mret (Err (safe (SafeMessage e "Certificate issuance failed") (CertSentinel ErrIssuanceFailed)))
  | Ok material =>
    failed ← activate_issued domain previous material;
    match failed with
    | None => mret (Ok material)
    | Some e => _ ← call (MDestroy material); mret (Err e)
    end
  end.

(** Taking the lock of a domain around a body; [cancelled] tells whether a
    failure with a finished context is returned as the context's error. *)
Definition locked {A} (domain : string) (cancelled : bool) (message : string) (fail : certErr -> A) (body : M A) : M A :=
  got ← call (MLock domain);
  if (got : bool) then finally body (call MUnlock)
  else
    over ← (if cancelled then call MCtxErr else mret false);
    mret (fail (if (over : bool) then ForeignError else safe message (CertSentinel ErrPersistenceFailed))).

(** The body of [Prepare], under the lock. *)
Definition prepare_locked (domain : string) : M (result certErr Material) :=
  loaded ← loadActive domain true;
  match loaded with
  | Err e => if missing e then issueAndActivate domain None else mret (Err e)
  | Ok (record, active) =>
    _ ← observeExpiry (rec_SNI record) (rec_ExpiresAt record);
    now ← call MNow;
    if mc_RenewBefore config <? Sub (rec_ExpiresAt record) now then mret (Ok active)
    else
      renewed ← issueAndActivate domain (Some record);
      match renewed with
      | Ok material => _ ← call (MDestroy active); mret (Ok material)
      | Err e =>
        _ ← renewalFailed domain;
        later ← call MNow;
        if later <? rec_ExpiresAt record then mret (Ok active)
        else _ ← call (MDestroy active); mret (Err e)
      end
  end.

Definition Prepare (sni : string) : M (result certErr Material) :=
  match canonicalSNI sni with
  | Err e => mret (Err e)
  | Ok domain => locked domain true "Certificate issuance lock is unavailable" Err (prepare_locked domain)
  end.

(** The end of [Renew]: the material that was issued is not kept. *)
Definition renew_from (domain : string) (previous : option CertRecord) : M (option certErr) :=
  renewed ← issueAndActivate domain previous;
  match renewed with
  | Ok material => _ ← call (MDestroy material); mret None
  | Err e => _ ← renewalFailed domain; mret (Some e)
  end.

Definition renew_locked (domain : string) : M (option certErr) :=
  loaded ← loadActive domain true;
  match loaded with
  | Ok (record, material) => _ ← call (MDestroy material); renew_from domain (Some record)
  | Err e => if missing e then renew_from domain None else mret (Some e)
  end.

Definition Renew (sni : string) : M (option certErr) :=
  match canonicalSNI sni with
  | Err e => mret (Some e)
  | Ok domain => locked domain true "Certificate renewal lock is unavailable" Some (renew_locked domain)
  end.

Definition acknowledgeLegacyTargets (domain : string) (resolution : TargetResolution) (operator : Z) : M (result certErr Z) :=
  recorded ← record_reviews (legacy_review domain operator) (Unmanaged resolution);
  mret (if (recorded : bool)
    then Ok (Z.of_nat (length (Unmanaged resolution)) + Z.of_nat (length (LegacyAcknowledged resolution)))
    else Err (safe "Legacy target acknowledgement could not be saved" (CertSentinel ErrPersistenceFailed))).

(** The loop of [Bootstrap]: the newest staged version that loads and validates. *)
Fixpoint find_candidate (domain : string) (versions : list CertVersion) : M (option (CertVersion * Material)) :=
  match versions with
  | [] => mret None
  | version :: versions' =>
    if negb (bool_decide (ver_Status version = VersionDistribution)) && negb (bool_decide (ver_Status version = VersionPending))
    then find_candidate domain versions'
    else
      loaded ← call (MLoad domain (ver_Version version));
      match loaded with
      | Err _ => find_candidate domain versions'
      | Ok m =>
        now ← call MNow;
        if match Validate m domain now with
           | Ok info => String.eqb (inf_Fingerprint info) (ver_Fingerprint version)
           | Err _ => false
           end
        then mret (Some (version, m))
        else _ ← call (MDestroy m); find_candidate domain versions'
      end
  end.

(** A version becomes active in the store and then in the metadata; the old
    marker is put back when the metadata cannot follow. *)
Definition switch_marker (domain version message : string) (undone : M unit) : M (option certErr) :=
  previous ← call (MActiveVersion domain);
  activated ← call (MActivate domain version);
  match activated with
  | Some e => _ ← undone; mret (Some e)
  | None =>
    recorded ← call (MActivateVersion domain version false);
    match recorded with
    | None => mret None
    | Some _ =>
      _ ← match answered_version previous with
          | Some old => if negb (String.eqb old "") then _ ← call (MActivate domain old); mret tt else mret tt
          | None => mret tt
          end;
      _ ← undone;
      mret (Some (safe message (CertSentinel ErrPersistenceFailed)))
    end
  end.

Definition bootstrap_candidate (domain : string) (operator : Z) (candidate : CertVersion) (material : Material)
    : M (result certErr BootstrapResult) :=
  resolution ← call (MResolve domain);
  match resolution with
  | Err e => mret (Err (resolve_failed e))
  | Ok resolution =>
    acknowledged ← acknowledgeLegacyTargets domain resolution operator;
    match acknowledged with
    | Err e => mret (Err e)
    | Ok acknowledged =>
      distributed ← distributeTargets domain (ver_Version candidate) material (Managed resolution);
      match distributed with
      | Some e => mret (Err e)
      | None =>
        switched ← switch_marker domain (ver_Version candidate) "Bootstrap certificate metadata could not be activated" (mret tt);
        match switched with
        | Some e => mret (Err e)
        | None =>
          _ ← observeExpiry domain (ver_ExpiresAt candidate);
          mret (Ok (mkBootstrapResult domain (ver_Version candidate) (Z.of_nat (length (Managed resolution))) acknowledged))
        end
      end
    end
  end.

Definition bootstrap_locked (domain : string) (operator : Z) : M (result certErr BootstrapResult) :=
  loaded ← loadActive domain true;
  match loaded with
  | Ok (active, material) =>
    _ ← call (MDestroy material);
    resolution ← call (MResolve domain);
    match resolution with
    | Err e => mret (Err (resolve_failed e))
    | Ok resolution =>
      acknowledged ← acknowledgeLegacyTargets domain resolution operator;
      mret (match acknowledged with
            | Err e => Err e
            | Ok n => Ok (mkBootstrapResult domain (rec_ActiveVersion active) (Z.of_nat (length (Managed resolution))) n)
            end)
    end
  | Err e =>
    if negb (missing e) then mret (Err (safe "Active certificate state could not be checked" (CertSentinel ErrPersistenceFailed)))
    else
      versions ← call (MListVersions domain);
      match versions with
      | Err _ => mret (Err (safe "Certificate versions could not be loaded" (CertSentinel ErrPersistenceFailed)))
      | Ok versions =>
        candidate ← find_candidate domain versions;
        match candidate with
        | None => mret (Err (safe "No valid staged certificate is available" (CertSentinel ErrNotFound)))
        | Some (candidate, material) =>
          if String.eqb (ver_Version candidate) ""
          then mret (Err (safe "No valid staged certificate is available" (CertSentinel ErrNotFound)))
          else finally (bootstrap_candidate domain operator candidate material) (call (MDestroy material))
        end
      end
  end.

Definition Bootstrap (sni : string) (operator : Z) : M (result certErr BootstrapResult) :=
  match canonicalSNI sni with
  | Err _ => mret (Err (CertSentinel ErrInvalidInput))
  | Ok domain =>
    if operator <=? 0 then mret (Err (CertSentinel ErrInvalidInput))
    else if negb (mc_Resolver config) then
      mret (Err (safe "Certificate target resolver is unavailable" (CertSentinel ErrDistributionFailed)))
    else locked domain false "Certificate bootstrap lock is unavailable" Err (bootstrap_locked domain operator)
  end.

(** [Rollback] with the material of the version. *)
Definition rollback_loaded (domain version : string) (previous : option CertRecord) (material : Material) : M (option certErr) :=
  now ← call MNow;
  match Validate material domain now with
  | Err _ => mret (Some (safe "Rollback certificate is invalid" ErrInvalidMaterial))
  | Ok _ =>
    distributed ← distribute domain version material;
    match distributed with
    | Some e => _ ← restoreDistributedVersion domain previous; mret (Some e)
    | None => switch_marker domain version "Rollback metadata could not be activated" (restoreDistributedVersion domain previous)
    end
  end.

Definition rollback_locked (domain version : string) : M (option certErr) :=
  versions ← call (MListVersions domain);
  match versions with
  | Err _ => mret (Some (safe "Certificate versions could not be loaded" (CertSentinel ErrPersistenceFailed)))
  | Ok versions =>
    if negb (existsb (fun v => String.eqb (ver_Version v) version) versions) then mret (Some (CertSentinel ErrNotFound))
    else
      active ← call (MGetActive domain);
      let previous := match active with Ok r => Some r | Err _ => None end in
      material ← call (MLoad domain version);
      match material with
      | Err e => mret (Some e)
      | Ok m => finally (rollback_loaded domain version previous m) (call (MDestroy m))
      end
  end.

Definition Rollback (sni version : string) : M (option certErr) :=
  match canonicalSNI sni with
  | Err _ => mret (Some (CertSentinel ErrInvalidInput))
  | Ok domain =>
    if String.eqb (TrimSpace version) "" then mret (Some (CertSentinel ErrInvalidInput))
    else locked domain true "Certificate rollback lock is unavailable" Some (rollback_locked domain version)
  end.

(** The loop of [RenewDue]. *)
Fixpoint renew_each (errors : list certErr) (records : list CertRecord) : M (list certErr) :=
  match records with
  | [] => mret errors
  | record :: records' =>
    failed ← Renew (rec_SNI record);
    renew_each (match failed with Some e => errors ++ [e] | None => errors end) records'
  end.

Definition RenewDue : M (option certErr) :=
  now ← call MNow;
  records ← call (MListExpiring (now + mc_RenewBefore config) (mc_RenewBatchSize config));
  match records with
  | Err _ => mret (Some (safe "Expiring certificates could not be listed" (CertSentinel ErrPersistenceFailed)))
  | Ok records => errors ← renew_each [] records; mret (join_errors errors)
  end.

(** [Run] for at most [ticks] turns of its loop; [MTick] is false when the
    context is done. *)
Fixpoint Run (ticks : nat) : M unit :=
  match ticks with
  | O => mret tt
  | S ticks' =>
    tick ← call MTick;
    if (tick : bool) then _ ← RenewDue; Run ticks' else mret tt
  end.
End Manager.
