(* ===== verification/CertManagerFacts.v ===== *)
(** * What guards an activation

    Facts about every run of the certificate manager, whatever its
    dependencies answer: which versions can become active, and what the
    material that [Prepare] hands out is. *)

From S2P Require Import Prelude GoStrings GoText NetIP Effects CertTypes Certificates CertStore CertManager.

#[local] Open Scope Z_scope.

Section Facts.
Context {x509 : X509} (config : ManagerConfig).

Notation trace := (list (event mgrE)).

(** ** Evidence in a trace *)

(** The targets of a domain accepted the material: the resolver was asked, its
    unmanaged targets are none or were all acknowledged by an operator, and the
    distribution to the managed ones succeeded for each of them. *)
Definition distributed (past : trace) (domain : string) (m : Material) : Prop :=
  mc_Resolver config = false \/
  exists resolution, Ev (MResolve domain) (Ok resolution) ∈ past /\
    (Unmanaged resolution = [] \/
     exists operator, forall ip, ip ∈ Unmanaged resolution -> Ev (MRecordTargetReview (legacy_review domain operator ip)) None ∈ past) /\
    (Managed resolution = [] \/
     exists results, Ev (MDistribute domain m (Managed resolution)) results ∈ past /\
       length results = length (Managed resolution) /\ forall r, r ∈ results -> dres_Status r = DistributionSucceeded).

(** The material was validated for the domain at a time of the run. *)
Definition validated (past : trace) (domain : string) (m : Material) (info : Info) : Prop :=
  exists now, Ev MNow now ∈ past /\ Validate m domain now = Ok info.

(** A version may become active: its material is in the store, valid, and distributed. *)
Definition vouched (past : trace) (domain version : string) : Prop :=
  exists m info, validated past domain m info /\ distributed past domain m /\
    (Ev (MStage domain m) (Ok version) ∈ past \/ Ev (MLoad domain version) (Ok m) ∈ past).

(** A version was already the active one, of the metadata or of the store. *)
Definition was_active (past : trace) (domain version : string) : Prop :=
  (exists record, Ev (MGetActive domain) (Ok record) ∈ past /\ rec_ActiveVersion record = version) \/
  Ev (MActiveVersion domain) (Ok version) ∈ past.

(** The rule: the store's marker is only moved to a version that was active
    before or is vouched for; the metadata follow a vouched version, right
    after the store. *)
Definition activation_rule (past : trace) (ev : event mgrE) : Prop :=
  (fun X (e : mgrE X) => match e with
   | MActivate domain version => was_active past domain version \/ vouched past domain version
   | MActivateVersion domain version _ => vouched past domain version /\ last past = Some (Ev (MActivate domain version) None)
   | _ => True
   end) _ (ev_op ev).

Definition no_activation {X} (e : mgrE X) : bool :=
  match e with MActivate _ _ | MActivateVersion _ _ _ => false | _ => true end.

Lemma quiet_rule past ev : no_activation (ev_op ev) = true -> activation_rule past ev.
Proof. destruct ev as [X e x]. by destruct e. Qed.

Notation kept := (keeps activation_rule).

Lemma distributed_grows tr tr' domain m : grows tr tr' -> distributed tr domain m -> distributed tr' domain m.
Proof.
  intros Hg [H|(res & H1 & H2 & H3)]; [by left|right]. exists res. split; [by eapply grows_elem|]. split.
  - destruct H2 as [H2|(op & H2)]; [by left|right]. exists op. intros ip Hip. eapply grows_elem; [exact Hg|by apply H2].
  - destruct H3 as [H3|(rs & H3 & H4)]; [by left|right]. exists rs. split; [by eapply grows_elem|done].
Qed.

Lemma validated_grows tr tr' domain m info : grows tr tr' -> validated tr domain m info -> validated tr' domain m info.
Proof. intros Hg (now & H1 & H2). exists now. split; [by eapply grows_elem|done]. Qed.

Lemma vouched_grows tr tr' domain version : grows tr tr' -> vouched tr domain version -> vouched tr' domain version.
Proof.
  intros Hg (m & info & H1 & H2 & H3). exists m, info. split; [by eapply validated_grows|]. split; [by eapply distributed_grows|].
  destruct H3; [left|right]; by eapply grows_elem.
Qed.

Lemma was_active_grows tr tr' domain version : grows tr tr' -> was_active tr domain version -> was_active tr' domain version.
Proof.
  intros Hg [(record & H1 & H2)|H1]; [left|right; by eapply grows_elem]. exists record. split; [by eapply grows_elem|done].
Qed.

(** ** Programs without activations *)
Lemma wp_quiet {A} (p : prog mgrE A) tr :
  calls_only (@no_activation) p -> every activation_rule tr -> wp p tt tr (fun _ _ tr' => kept tr tr').
Proof. intros Hp. apply wp_keeps with (P := @no_activation); [done|]. intros. by apply quiet_rule. Qed.

Lemma kept_call {X} (e : mgrE X) x tr : no_activation e = true -> every activation_rule tr -> kept tr (tr ++ [Ev e x]).
Proof. intros He Ht. apply keeps_snoc; [done|by apply quiet_rule]. Qed.

Lemma record_results_quiet domain version failed results : calls_only (@no_activation) (record_results domain version failed results).
Proof.
  revert failed. induction results as [|r results IH]; intros failed; cbn [record_results]; [done|]. repeat calls_step. apply IH.
Qed.

Lemma record_reviews_quiet review ips : calls_only (@no_activation) (record_reviews review ips).
Proof. induction ips as [|ip ips IH]; cbn [record_reviews]; [done|]. repeat calls_step. apply IH. Qed.

Ltac mgr_calls := repeat first [apply record_results_quiet | apply record_reviews_quiet | calls_step].

Lemma observeExpiry_quiet sni expires : calls_only (@no_activation) (observeExpiry config sni expires).
Proof. unfold observeExpiry. mgr_calls. Qed.

Lemma distributeTargets_quiet domain version m targets : calls_only (@no_activation) (distributeTargets config domain version m targets).
Proof. unfold distributeTargets. mgr_calls. Qed.

Lemma distribute_quiet domain version m : calls_only (@no_activation) (distribute config domain version m).
Proof. unfold distribute. repeat first [apply distributeTargets_quiet | apply record_reviews_quiet | calls_step]. Qed.

Lemma restore_quiet domain previous : calls_only (@no_activation) (restoreDistributedVersion config domain previous).
Proof. unfold restoreDistributedVersion. repeat first [apply distribute_quiet | calls_step]. Qed.

Lemma candidate_failed_quiet domain version previous e : calls_only (@no_activation) (candidate_failed config domain version previous e).
Proof. unfold candidate_failed. repeat first [apply restore_quiet | calls_step]. Qed.

(** ** What the parts establish *)
Lemma wp_record_results domain version results failed tr :
  every activation_rule tr ->
  wp (record_results domain version failed results) tt tr (fun r _ tr' => kept tr tr' /\
    (r = Some false -> failed = false /\ forall x, x ∈ results -> dres_Status x = DistributionSucceeded)).
Proof.
  revert failed tr. induction results as [|x results IH]; intros failed tr Ht; simpl.
  - wp_steps. split; [by split|]. intros [= ->]. split; [done|]. by intros x ?%not_elem_of_nil.
  - wp_answer now s Hs. destruct s. assert (kept tr (tr ++ [Ev MNow now])) as [Ht1 Hg1] by by apply kept_call.
    wp_answer recorded s Hs2. destruct s. set (tr2 := (tr ++ _) ++ _). assert (kept (tr ++ [Ev MNow now]) tr2) as [Ht2 Hg2] by by apply kept_call.
    assert (grows tr tr2) as Hg by by etrans. clearbody tr2. destruct recorded as [e|]; [wp_steps; by split|].
    eapply wp_mono; [by apply IH|]. intros r [] tr3 [Hk Hr]. split; [by eapply keeps_trans|].
    intros Hrf. apply Hr in Hrf as [Hf Hall]. apply orb_false_iff in Hf as [-> Hf]. split; [done|].
    intros y [->|Hy]%elem_of_cons; [|auto]. apply negb_false_iff in Hf. by apply bool_decide_eq_true in Hf.
Qed.

Lemma wp_record_reviews review ips tr :
  every activation_rule tr ->
  wp (record_reviews review ips) tt tr (fun r _ tr' => kept tr tr' /\
    (r = true -> forall ip, ip ∈ ips -> Ev (MRecordTargetReview (review ip)) None ∈ tr')).
Proof.
  revert tr. induction ips as [|ip ips IH]; intros tr Ht; simpl.
  - wp_steps. split; [by split|]. intros _ ip ?%not_elem_of_nil. done.
  - wp_answer recorded s Hs. destruct s. set (tr1 := tr ++ _). assert (kept tr tr1) as [Ht1 Hg1] by by apply kept_call.
    destruct recorded as [e|]; [wp_steps; by split|]. assert (Ev (MRecordTargetReview (review ip)) None ∈ tr1) as H1 by apply elem_snoc.
    clearbody tr1. eapply wp_mono; [by apply IH|]. intros r [] tr2 [[Ht2 Hg2] Hr]. split; [split; [done|by etrans]|].
    intros Hrt ip' [->|Hin]%elem_of_cons; [by eapply grows_elem|by apply Hr].
Qed.

Lemma wp_distributeTargets domain version m targets tr :
  every activation_rule tr ->
  wp (distributeTargets config domain version m targets) tt tr (fun r _ tr' => kept tr tr' /\
    (r = None -> targets = [] \/ exists results, Ev (MDistribute domain m targets) results ∈ tr' /\
       length results = length targets /\ forall x, x ∈ results -> dres_Status x = DistributionSucceeded)).
Proof.
  intros Ht. unfold distributeTargets. destruct (length targets =? 0)%nat eqn:Hl.
  { wp_steps. split; [by split|]. intros _. left. destruct targets; [done|]. simpl in Hl. lia. }
  destruct (negb _); [wp_steps; split; [by split|done]|].
  wp_answer results s Hs. destruct s. set (tr1 := tr ++ _). assert (kept tr tr1) as [Ht1 Hg1] by by apply kept_call.
  assert (Ev (MDistribute domain m targets) results ∈ tr1) as H1 by apply elem_snoc. clearbody tr1. wp_steps.
  eapply wp_mono; [by apply wp_record_results|]. intros r [] tr2 [[Ht2 Hg2] Hr]. cbv beta. wp_steps.
  split; [split; [done|by etrans]|]. destruct r as [[]|]; try done. intros _. right. exists results.
  destruct (Hr eq_refl) as [Hn Hall]. apply negb_false_iff, Nat.eqb_eq in Hn. split; [by eapply grows_elem|done].
Qed.

Lemma wp_distribute domain version m tr :
  every activation_rule tr ->
  wp (distribute config domain version m) tt tr (fun r _ tr' => kept tr tr' /\ (r = None -> distributed tr' domain m)).
Proof.
  intros Ht. unfold distribute. destruct (negb (mc_Resolver config)) eqn:Hr.
  { wp_steps. split; [by split|]. intros _. left. by apply negb_true_iff. }
  wp_answer res s Hs. destruct s. set (tr1 := tr ++ _). assert (kept tr tr1) as [Ht1 Hg1] by by apply kept_call.
  destruct res as [res|e]; [|wp_steps; split; [by split|done]].
  assert (Ev (MResolve domain) (Ok res) ∈ tr1) as H1 by apply elem_snoc. clearbody tr1.
  destruct (negb (length (Unmanaged res) =? 0)%nat) eqn:Hu.
  - wp_steps. eapply wp_mono; [by apply wp_record_reviews|]. intros r [] tr2 [[Ht2 Hg2] _]. cbv beta. wp_steps.
    split; [split; [done|by etrans]|done].
  - eapply wp_mono; [by apply wp_distributeTargets|]. intros r [] tr2 [[Ht2 Hg2] Hd].
    split; [split; [done|by etrans]|]. intros Hn. right. exists res. split; [by eapply grows_elem|].
    split; [left|by apply Hd]. apply negb_false_iff, Nat.eqb_eq in Hu. by destruct (Unmanaged res).
Qed.

(** A loaded record: the repository answered it and the store holds its material. *)
Definition loaded (tr : trace) (domain : string) (record : CertRecord) (m : Material) : Prop :=
  Ev (MGetActive domain) (Ok record) ∈ tr /\ Ev (MLoad domain (rec_ActiveVersion record)) (Ok m) ∈ tr /\
  exists info, validated tr domain m info /\ inf_Fingerprint info = rec_Fingerprint record.

Lemma loaded_grows tr tr' domain record m : grows tr tr' -> loaded tr domain record m -> loaded tr' domain record m.
Proof.
  intros Hg (H1 & H2 & info & H3 & H4). split; [in_past|]. split; [in_past|].
  exists info. split; [by eapply validated_grows|done].
Qed.

Lemma wp_load_record domain record tr :
  every activation_rule tr -> Ev (MGetActive domain) (Ok record) ∈ tr ->
  wp (load_record domain record) tt tr (fun r _ tr' => kept tr tr' /\ forall rec m, r = Ok (rec, m) -> loaded tr' domain rec m).
Proof.
  intros Ht Hrec. unfold load_record. wp_answer x s Hs. destruct s. set (tr1 := tr ++ _).
  assert (kept tr tr1) as [Ht1 Hg1] by by apply kept_call. destruct x as [m|e]; [|wp_steps; split; [by split|done]].
  assert (Ev (MLoad domain (rec_ActiveVersion record)) (Ok m) ∈ tr1) as H1 by apply elem_snoc. clearbody tr1.
  wp_answer now s Hs2. destruct s. set (tr2 := tr1 ++ _). assert (kept tr1 tr2) as [Ht2 Hg2] by by apply kept_call.
  assert (Ev MNow now ∈ tr2) as H2 by apply elem_snoc. assert (grows tr tr2) as Hg by by etrans. clearbody tr2.
  destruct (Validate m domain now) as [info|e] eqn:Hv; [destruct (String.eqb_spec (inf_Fingerprint info) (rec_Fingerprint record)) as [Hf|Hf]|].
  - wp_steps. split; [by split|]. intros rec m' [= <- <-]. split; [in_past|]. split; [in_past|].
    exists info. split; [by exists now|done].
  - wp_answer d s Hs3. wp_steps. split; [|done]. eapply keeps_trans; [exact Hg|by apply kept_call].
  - wp_answer d s Hs3. wp_steps. split; [|done]. eapply keeps_trans; [exact Hg|by apply kept_call].
Qed.

Lemma wp_loadActive domain repair tr :
  every activation_rule tr ->
  wp (loadActive domain repair) tt tr (fun r _ tr' => kept tr tr' /\ forall rec m, r = Ok (rec, m) -> loaded tr' domain rec m).
Proof.
  intros Ht. unfold loadActive. wp_answer found s Hs. destruct s. set (tr1 := tr ++ _).
  assert (kept tr tr1) as [Ht1 Hg1] by by apply kept_call. destruct found as [record|e]; [|wp_steps; split; [by split|done]].
  assert (Ev (MGetActive domain) (Ok record) ∈ tr1) as H1 by apply elem_snoc. clearbody tr1.
  wp_answer marker s Hs2. destruct s. set (tr2 := tr1 ++ _). assert (kept tr1 tr2) as [Ht2 Hg2] by by apply kept_call.
  assert (grows tr tr2) as Hg by by etrans. assert (Ev (MGetActive domain) (Ok record) ∈ tr2) as H2 by in_past. clearbody tr2.
  assert (forall tr3, grows tr2 tr3 -> every activation_rule tr3 ->
    wp (load_record domain record) tt tr3 (fun r _ tr' => kept tr tr' /\ forall rec m, r = Ok (rec, m) -> loaded tr' domain rec m)) as Hload.
  { intros tr3 Hg3 Ht3. eapply wp_mono; [apply wp_load_record; [done|in_past]|].
    intros r [] tr4 [Hk Hr]. split; [|done]. eapply keeps_trans; [|exact Hk]. by etrans. }
  case_bool_decide; [by apply Hload|]. destruct (negb repair); [wp_steps; split; [by split|done]|].
  wp_answer activated s Hs3. destruct s. assert (kept tr2 (tr2 ++ [Ev (MActivate domain (rec_ActiveVersion record)) activated])) as [Ht3 Hg3].
  { apply keeps_snoc; [done|]. left. left. by exists record. }
  destruct activated as [e|]; [wp_steps; split; [split; [done|by etrans]|done]|]. by apply Hload.
Qed.

(** A record that a run obtained, when it has one. *)
Definition obtained (tr : trace) (domain : string) (previous : option CertRecord) : Prop :=
  forall record, previous = Some record -> Ev (MGetActive domain) (Ok record) ∈ tr.

Lemma obtained_grows tr tr' domain previous : grows tr tr' -> obtained tr domain previous -> obtained tr' domain previous.
Proof. intros Hg H record Hr. eapply grows_elem; [exact Hg|by apply H]. Qed.

(** The version is active: in the store, then in the metadata. *)
Definition activated (tr : trace) (domain version : string) : Prop :=
  Ev (MActivate domain version) None ∈ tr /\ exists renewed, Ev (MActivateVersion domain version renewed) None ∈ tr.

Lemma activated_grows tr tr' domain version : grows tr tr' -> activated tr domain version -> activated tr' domain version.
Proof. intros Hg (H1 & renewed & H2). split; [in_past|]. exists renewed. in_past. Qed.

(** The two activations of a vouched version keep the rule. *)
Lemma kept_activate domain version x tr :
  every activation_rule tr -> vouched tr domain version -> kept tr (tr ++ [Ev (MActivate domain version) x]).
Proof. intros Ht Hv. apply keeps_snoc; [done|]. by right. Qed.

Lemma kept_activate_version domain version renewed x tr :
  every activation_rule (tr ++ [Ev (MActivate domain version) None]) -> vouched tr domain version ->
  kept tr ((tr ++ [Ev (MActivate domain version) None]) ++ [Ev (MActivateVersion domain version renewed) x]).
Proof.
  intros Ht Hv. eapply keeps_trans; [apply grows_app|]. apply keeps_snoc; [done|]. split.
  - eapply vouched_grows; [apply grows_app|done].
  - by rewrite last_snoc.
Qed.

Lemma kept_restore domain version x tr :
  every activation_rule tr -> was_active tr domain version -> kept tr (tr ++ [Ev (MActivate domain version) x]).
Proof. intros Ht Hv. apply keeps_snoc; [done|]. by left. Qed.

(** A failure that only runs quiet programs. *)
Lemma wp_quiet_post {A} (p : prog mgrE A) tr0 tr (Q : A -> trace -> Prop) :
  calls_only (@no_activation) p -> every activation_rule tr -> grows tr0 tr ->
  (forall a tr', grows tr tr' -> Q a tr') ->
  wp p tt tr (fun a _ tr' => kept tr0 tr' /\ Q a tr').
Proof.
  intros Hp Ht Hg HQ. eapply wp_mono; [by apply wp_quiet|]. intros a [] tr' [H1 H2]. split; [split; [done|by etrans]|by apply HQ].
Qed.

Lemma wp_candidate_failed domain version previous e tr0 tr (Q : trace -> Prop) :
  every activation_rule tr -> grows tr0 tr ->
  wp (candidate_failed config domain version previous e) tt tr (fun r _ tr' => kept tr0 tr' /\ (r = None -> Q tr')).
Proof.
  intros Ht Hg. unfold candidate_failed. wp_steps.
  eapply wp_mono; [apply wp_quiet; [apply restore_quiet|done]|]. intros [] [] tr1 [Ht1 Hg1]. cbv beta.
  wp_answer x s Hs. destruct s. wp_answer y s Hs2. destruct s. wp_steps. split; [|done].
  eapply keeps_trans; [|apply kept_call; [done|]; by apply kept_call]. etrans; [exact Hg|]. etrans; [exact Hg1|apply grows_app].
Qed.

Lemma wp_activate_candidate domain version previous expires tr :
  every activation_rule tr -> vouched tr domain version -> obtained tr domain previous ->
  wp (activate_candidate config domain version previous expires) tt tr (fun r _ tr' => kept tr tr' /\ (r = None -> activated tr' domain version)).
Proof.
  intros Ht Hv Ho. unfold activate_candidate. wp_answer x s Hs. destruct s. destruct x as [e|].
  { assert (kept tr (tr ++ [Ev (MActivate domain version) (Some e)])) as [Ht1 Hg1] by by apply kept_activate. by apply wp_candidate_failed. }
  assert (kept tr (tr ++ [Ev (MActivate domain version) None])) as [Ht1 Hg1] by by apply kept_activate.
  wp_answer recorded s Hs2. destruct s. set (tr2 := (tr ++ _) ++ _).
  assert (kept tr tr2) as [Ht2 Hg2] by by apply kept_activate_version. destruct recorded as [e|].
  - clearbody tr2. wp_steps. destruct (negb _) eqn:Hold.
    + wp_answer y s Hs3. destruct s. wp_steps. set (tr3 := tr2 ++ _). assert (kept tr2 tr3) as [Ht3 Hg3].
      { destruct previous as [record|]; [|by simpl in Hold]. apply kept_restore; [done|]. left. exists record.
        split; [|done]. eapply grows_elem; [exact Hg2|by apply Ho]. }
      apply wp_candidate_failed; [done|by etrans].
    + wp_steps. by apply wp_candidate_failed.
  - assert (activated tr2 domain version) as Hact.
    { split; [|exists (bool_decide (previous <> None))]; [eapply grows_elem; [apply grows_app|]|]; apply elem_snoc. }
    clearbody tr2. wp_steps. eapply wp_mono; [apply (wp_quiet_post _ tr tr2 (fun _ tr' => activated tr' domain version))|].
    + apply observeExpiry_quiet.
    + done.
    + done.
    + intros _ tr' Hg. by eapply activated_grows.
    + intros [] [] tr3 [Hk3 Ha]. cbv beta. wp_steps. by split.
Qed.

(** The material was issued in the run, staged as a version, and that version is active. *)
Definition freshly_active (tr : trace) (domain : string) (m : Material) : Prop :=
  Ev (MIssue domain) (Ok m) ∈ tr /\
  exists info version, validated tr domain m info /\ Ev (MStage domain m) (Ok version) ∈ tr /\ activated tr domain version.

Lemma freshly_active_grows tr tr' domain m : grows tr tr' -> freshly_active tr domain m -> freshly_active tr' domain m.
Proof.
  intros Hg (H1 & info & version & H2 & H3 & H4). split; [in_past|]. exists info, version.
  split; [by eapply validated_grows|]. split; [in_past|by eapply activated_grows].
Qed.

Lemma wp_activate_issued domain previous m tr :
  every activation_rule tr -> obtained tr domain previous -> Ev (MIssue domain) (Ok m) ∈ tr ->
  wp (activate_issued config domain previous m) tt tr (fun r _ tr' => kept tr tr' /\ (r = None -> freshly_active tr' domain m)).
Proof.
  intros Ht Ho Hi. unfold activate_issued. wp_answer now s Hs. destruct s. set (tr1 := tr ++ _).
  assert (kept tr tr1) as [Ht1 Hg1] by by apply kept_call. assert (Ev MNow now ∈ tr1) as Hnow by apply elem_snoc. clearbody tr1.
  destruct (Validate m domain now) as [info|e] eqn:Hv.
  2: { wp_answer x s Hs2. wp_steps. split; [|done]. eapply keeps_trans; [exact Hg1|by apply kept_call]. }
  wp_answer staged s Hs2. destruct s. set (tr2 := tr1 ++ _). assert (kept tr1 tr2) as [Ht2 Hg2] by by apply kept_call.
  assert (grows tr tr2) as Hg by in_growth. destruct staged as [version|e]; [|wp_steps; split; [by split|done]].
  assert (Ev (MStage domain m) (Ok version) ∈ tr2) as Hst by apply elem_snoc. clearbody tr2.
  wp_answer created s Hs3. destruct s. set (tr3 := tr2 ++ _). assert (kept tr2 tr3) as [Ht3 Hg3] by by apply kept_call. clearbody tr3.
  wp_answer saved s Hs4. destruct s. set (tr4 := tr3 ++ _). assert (kept tr3 tr4) as [Ht4 Hg4] by by apply kept_call. clearbody tr4.
  assert (grows tr tr4) as Hg' by in_growth. destruct saved as [e|]; [wp_steps; split; [by split|done]|].
  wp_steps. eapply wp_mono; [by apply wp_distribute|]. intros d [] tr5 [[Ht5 Hg5] Hd]. cbv beta.
  assert (grows tr tr5) as Hg6 by in_growth. destruct d as [e|]; [apply wp_candidate_failed; [done|exact Hg6]|].
  assert (validated tr5 domain m info) as Hval by (exists now; split; [in_past|done]).
  eapply wp_mono; [apply wp_activate_candidate; [done| |by eapply obtained_grows]|].
  - exists m, info. split; [done|]. split; [by apply Hd|]. left. in_past.
  - intros r [] tr6 [[Ht6 Hg7] Hr]. split; [split; [done|in_growth]|]. intros Hn. split; [in_past|].
    exists info, version. split; [by eapply validated_grows|]. split; [in_past|by apply Hr].
Qed.

Lemma wp_issueAndActivate domain previous tr :
  every activation_rule tr -> obtained tr domain previous ->
  wp (issueAndActivate config domain previous) tt tr (fun r _ tr' => kept tr tr' /\ forall m, r = Ok m -> freshly_active tr' domain m).
Proof.
  intros Ht Ho. unfold issueAndActivate. wp_answer issued s Hs. destruct s. set (tr1 := tr ++ _).
  assert (kept tr tr1) as [Ht1 Hg1] by by apply kept_call. destruct issued as [m|e]; [|wp_steps; split; [by split|done]].
  assert (Ev (MIssue domain) (Ok m) ∈ tr1) as Hi by apply elem_snoc. clearbody tr1. wp_steps.
  eapply wp_mono; [apply wp_activate_issued; [done|by eapply obtained_grows|done]|]. intros r [] tr2 [[Ht2 Hg2] Hr]. cbv beta.
  assert (grows tr tr2) as Hg by in_growth. destruct r as [e|].
  - wp_answer x s Hs2. wp_steps. split; [|done]. eapply keeps_trans; [exact Hg|by apply kept_call].
  - wp_steps. split; [by split|]. intros m' [= <-]. by apply Hr.
Qed.

(** Material that can be served for the domain: the active certificate, not due
    for renewal or still valid when its renewal failed, or one issued and
    activated in the run. *)
Definition usable (tr : trace) (domain : string) (m : Material) : Prop :=
  freshly_active tr domain m \/
  exists record now, loaded tr domain record m /\ Ev MNow now ∈ tr /\
    (mc_RenewBefore config < Sub (rec_ExpiresAt record) now \/ now < rec_ExpiresAt record).

Lemma usable_grows tr tr' domain m : grows tr tr' -> usable tr domain m -> usable tr' domain m.
Proof.
  intros Hg [H|(record & now & H1 & H2 & H3)]; [left; by eapply freshly_active_grows|right]. exists record, now.
  split; [by eapply loaded_grows|]. split; [in_past|done].
Qed.

Lemma renewalFailed_quiet domain : calls_only (@no_activation) (renewalFailed config domain).
Proof. unfold renewalFailed. mgr_calls. Qed.

Lemma wp_prepare_locked domain tr :
  every activation_rule tr ->
  wp (prepare_locked config domain) tt tr (fun r _ tr' => kept tr tr' /\ forall m, r = Ok m -> usable tr' domain m).
Proof.
  intros Ht. unfold prepare_locked. wp_steps. eapply wp_mono; [by apply wp_loadActive|]. intros l [] tr1 [[Ht1 Hg1] Hl]. cbv beta.
  destruct l as [[record active]|e].
  2: { destruct (missing e); [|wp_steps; split; [by split|done]]. eapply wp_mono; [by apply wp_issueAndActivate|].
       intros r [] tr2 [Hk Hr]. split; [by eapply keeps_trans|]. intros m Hm. left. by apply Hr. }
  specialize (Hl record active eq_refl). wp_steps. eapply wp_mono; [apply wp_quiet; [apply observeExpiry_quiet|done]|].
  intros [] [] tr2 [Ht2 Hg2]. cbv beta. assert (loaded tr2 domain record active) as Hl2 by by eapply loaded_grows.
  wp_answer now s Hs. destruct s. set (tr3 := tr2 ++ _). assert (kept tr2 tr3) as [Ht3 Hg3] by by apply kept_call.
  assert (Ev MNow now ∈ tr3) as Hnow by apply elem_snoc. clearbody tr3. assert (loaded tr3 domain record active) as Hl3 by by eapply loaded_grows.
  assert (grows tr tr3) as Hg by in_growth.
  destruct (mc_RenewBefore config <? _) eqn:Hdue.
  { wp_steps. split; [by split|]. intros m [= <-]. right. exists record, now. split; [done|]. split; [done|]. left. lia. }
  wp_steps. eapply wp_mono; [apply wp_issueAndActivate; [done|]|].
  { intros rec [= <-]. destruct Hl3 as (H1 & _). in_past. }
  intros r [] tr4 [[Ht4 Hg4] Hr]. cbv beta. assert (grows tr tr4) as Hg5 by in_growth. destruct r as [m|e].
  - wp_answer x s Hs2. wp_steps. split; [eapply keeps_trans; [exact Hg5|by apply kept_call]|]. intros m' [= <-]. left.
    eapply freshly_active_grows; [apply grows_app|by apply Hr].
  - wp_steps. eapply wp_mono; [apply wp_quiet; [apply renewalFailed_quiet|done]|]. intros [] [] tr5 [Ht5 Hg6]. cbv beta.
    wp_answer later s Hs2. destruct s. set (tr6 := tr5 ++ _). assert (kept tr5 tr6) as [Ht6 Hg7] by by apply kept_call.
    assert (Ev MNow later ∈ tr6) as Hlater by apply elem_snoc. clearbody tr6.
    assert (grows tr3 tr6) as Hg8 by in_growth. assert (grows tr tr6) as Hg9 by in_growth.
    destruct (later <? rec_ExpiresAt record) eqn:Hexp.
    + wp_steps. split; [by split|]. intros m [= <-]. right. exists record, later.
      split; [by apply (loaded_grows tr3)|]. split; [done|]. right. lia.
    + wp_answer x s Hs3. wp_steps. split; [|done]. eapply keeps_trans; [exact Hg9|by apply kept_call].
Qed.

(** The frame of the locked operations. *)
Lemma wp_cert_locked {A} domain cancelled message fail (body : prog mgrE A) (Q : trace -> A -> Prop) :
  (forall tr tr' a, grows tr tr' -> Q tr a -> Q tr' a) ->
  (forall tr e, Q tr (fail e)) ->
  (forall tr, every activation_rule tr -> wp body tt tr (fun a _ tr' => kept tr tr' /\ Q tr' a)) ->
  wp (locked domain cancelled message fail body) tt [] (fun a _ tr' => every activation_rule tr' /\ Q tr' a).
Proof.
  intros HQ Hfail Hbody. unfold locked. wp_answer got s Hs. destruct s. set (tr1 := [] ++ _).
  assert (kept [] tr1) as [Ht1 _] by (apply kept_call; [done|apply every_nil]). clearbody tr1. destruct got.
  - apply wp_finally. eapply wp_mono; [by apply Hbody|]. intros a [] tr2 [[Ht2 Hg2] Ha]. cbv beta.
    wp_answer u s Hs2. split; [by apply kept_call|]. eapply HQ; [apply grows_app|done].
  - wp_steps. destruct cancelled; [wp_answer over s Hs2|]; wp_steps; (split; [|apply Hfail]); [by apply kept_call|done].
Qed.

(** The rule alone. *)
Notation wp_rule p tr := (wp p tt tr (fun _ _ tr' => kept tr tr' /\ True)).

Lemma wp_renew_from domain previous tr :
  every activation_rule tr -> obtained tr domain previous -> wp_rule (renew_from config domain previous) tr.
Proof.
  intros Ht Ho. unfold renew_from. wp_steps. eapply wp_mono; [by apply wp_issueAndActivate|]. intros r [] tr1 [[Ht1 Hg1] _]. cbv beta.
  apply wp_quiet_post; [|done|done|done]. destruct r; repeat first [apply renewalFailed_quiet | calls_step].
Qed.

Lemma wp_renew_locked domain tr : every activation_rule tr -> wp_rule (renew_locked config domain) tr.
Proof.
  intros Ht. unfold renew_locked. wp_steps. eapply wp_mono; [by apply wp_loadActive|]. intros l [] tr1 [[Ht1 Hg1] Hl]. cbv beta.
  assert (forall previous tr2, every activation_rule tr2 -> grows tr1 tr2 -> obtained tr2 domain previous ->
    wp (renew_from config domain previous) tt tr2 (fun _ _ tr' => kept tr tr' /\ True)) as Hrenew.
  { intros previous tr2 Ht2 Hg2 Ho. eapply wp_mono; [by apply wp_renew_from|]. intros r [] tr3 [Hk _].
    split; [|done]. eapply keeps_trans; [|exact Hk]. in_growth. }
  destruct l as [[record m]|e].
  - destruct (Hl record m eq_refl) as (H1 & _). wp_answer x s Hs. destruct s.
    apply Hrenew; [by apply kept_call|apply grows_app|]. intros rec [= <-]. in_past.
  - destruct (missing e); [by apply Hrenew|]. wp_steps. by split.
Qed.

(** A vouched version is switched to; the failures run quiet programs. *)
Lemma wp_switch_marker domain version message undone tr :
  every activation_rule tr -> vouched tr domain version -> calls_only (@no_activation) undone ->
  wp (switch_marker domain version message undone) tt tr (fun r _ tr' => kept tr tr' /\ (r = None -> activated tr' domain version)).
Proof.
  intros Ht Hv Hu. unfold switch_marker. wp_answer previous s Hs. destruct s. set (tr1 := tr ++ _).
  assert (kept tr tr1) as [Ht1 Hg1] by by apply kept_call. assert (Ev (MActiveVersion domain) previous ∈ tr1) as Hprev by apply elem_snoc.
  clearbody tr1. assert (vouched tr1 domain version) as Hv1 by by eapply vouched_grows.
  assert (forall e tr', every activation_rule tr' -> grows tr tr' ->
    wp undone tt tr' (fun _ s' tr2 => wp (mret (Some (e : certErr)) : prog mgrE (option certErr)) s' tr2
      (fun r _ tr'' => kept tr tr'' /\ (r = None -> activated tr'' domain version)))) as Hfail.
  { intros e tr' Ht' Hg'. eapply wp_mono; [by apply wp_quiet|]. intros [] [] tr2 [Ht2 Hg2]. cbv beta. wp_steps.
    split; [split; [done|in_growth]|done]. }
  wp_answer x s Hs2. destruct s. destruct x as [e|].
  { wp_steps. apply Hfail; [by apply kept_activate|in_growth]. }
  assert (kept tr1 (tr1 ++ [Ev (MActivate domain version) None])) as [Ht2 Hg2] by by apply kept_activate.
  wp_answer recorded s Hs3. destruct s. set (tr2 := (tr1 ++ _) ++ _).
  assert (kept tr1 tr2) as [Ht3 Hg3] by by apply kept_activate_version.
  assert (recorded = None -> activated tr2 domain version) as Hact.
  { intros ->. split; [|exists false]; unfold tr2; in_past. }
  clearbody tr2. destruct recorded as [e|]; [|wp_steps; split; [split; [done|in_growth]|by intros _; apply Hact]].
  destruct previous as [old|e']; cbn [answered_version]; [|wp_steps; apply Hfail; [done|in_growth]].
  destruct (negb _); [|wp_steps; apply Hfail; [done|in_growth]].
  wp_answer y s Hs4. destruct s. set (tr3 := tr2 ++ _). assert (kept tr2 tr3) as [Ht4 Hg4].
  { apply kept_restore; [done|]. right. in_past. }
  clearbody tr3. wp_steps. apply Hfail; [done|in_growth].
Qed.

Lemma wp_find_candidate domain versions tr :
  every activation_rule tr ->
  wp (find_candidate domain versions) tt tr (fun r _ tr' => kept tr tr' /\ forall v m, r = Some (v, m) ->
    Ev (MLoad domain (ver_Version v)) (Ok m) ∈ tr' /\ exists info, validated tr' domain m info).
Proof.
  revert tr. induction versions as [|v versions IH]; intros tr Ht; cbn [find_candidate]; [wp_steps; split; [by split|done]|].
  assert (forall tr1, grows tr tr1 -> every activation_rule tr1 ->
    wp (find_candidate domain versions) tt tr1 (fun r _ tr' => kept tr tr' /\ forall v m, r = Some (v, m) ->
      Ev (MLoad domain (ver_Version v)) (Ok m) ∈ tr' /\ exists info, validated tr' domain m info)) as Hnext.
  { intros tr1 Hg1 Ht1. eapply wp_mono; [by apply IH|]. intros r [] tr2 [Hk Hr]. split; [by eapply keeps_trans|done]. }
  destruct (_ && _); [by apply Hnext|]. wp_answer l s Hs. destruct s. set (tr1 := tr ++ _).
  assert (kept tr tr1) as [Ht1 Hg1] by by apply kept_call. destruct l as [m|e]; [|by apply Hnext].
  assert (Ev (MLoad domain (ver_Version v)) (Ok m) ∈ tr1) as Hload by apply elem_snoc. clearbody tr1.
  wp_answer now s Hs2. destruct s. set (tr2 := tr1 ++ _). assert (kept tr1 tr2) as [Ht2 Hg2] by by apply kept_call.
  assert (Ev MNow now ∈ tr2) as Hnow by apply elem_snoc. clearbody tr2. assert (grows tr tr2) as Hg by in_growth.
  assert (wp (_ ← call (MDestroy m); find_candidate domain versions) tt tr2 (fun r _ tr' => kept tr tr' /\ forall v m, r = Some (v, m) ->
      Ev (MLoad domain (ver_Version v)) (Ok m) ∈ tr' /\ exists info, validated tr' domain m info)) as Hdrop.
  { wp_answer x s Hs3. destruct s. apply Hnext; [in_growth|by apply kept_call]. }
  destruct (Validate m domain now) as [info|e] eqn:Hv; [|exact Hdrop]. destruct (String.eqb _ _); [|exact Hdrop].
  wp_steps. split; [by split|]. intros v' m' [= <- <-]. split; [in_past|]. exists info, now. split; [in_past|done].
Qed.

Lemma wp_bootstrap_candidate domain operator candidate m tr :
  every activation_rule tr -> Ev (MLoad domain (ver_Version candidate)) (Ok m) ∈ tr -> (exists info, validated tr domain m info) ->
  wp_rule (bootstrap_candidate config domain operator candidate m) tr.
Proof.
  intros Ht Hload [info Hval]. unfold bootstrap_candidate. wp_answer res s Hs. destruct s. set (tr1 := tr ++ _).
  assert (kept tr tr1) as [Ht1 Hg1] by by apply kept_call. destruct res as [res|e]; [|wp_steps; by split].
  assert (Ev (MResolve domain) (Ok res) ∈ tr1) as Hres by apply elem_snoc. clearbody tr1.
  unfold acknowledgeLegacyTargets. wp_steps. eapply wp_mono; [by apply wp_record_reviews|]. intros ok [] tr2 [[Ht2 Hg2] Hok]. cbv beta. wp_steps.
  destruct ok; [|wp_steps; split; [split; [done|in_growth]|done]]. wp_steps.
  eapply wp_mono; [by apply wp_distributeTargets|]. intros d [] tr3 [[Ht3 Hg3] Hd]. cbv beta.
  destruct d as [e|]; [wp_steps; split; [split; [done|in_growth]|done]|]. wp_steps.
  assert (vouched tr3 domain (ver_Version candidate)) as Hv.
  { exists m, info. split; [eapply validated_grows; [|exact Hval]; in_growth|]. split; [|right; in_past].
    right. exists res. split; [in_past|]. split; [|by apply Hd]. right. exists operator. intros ip Hip.
    eapply grows_elem; [exact Hg3|]. by apply Hok. }
  eapply wp_mono; [by apply wp_switch_marker|]. intros r [] tr4 [[Ht4 Hg4] _]. cbv beta.
  apply wp_quiet_post; [|done|in_growth|done]. destruct r; repeat first [apply observeExpiry_quiet | calls_step].
Qed.

Lemma wp_bootstrap_locked domain operator tr :
  every activation_rule tr -> wp_rule (bootstrap_locked config domain operator) tr.
Proof.
  intros Ht. unfold bootstrap_locked. wp_steps. eapply wp_mono; [by apply wp_loadActive|]. intros l [] tr1 [[Ht1 Hg1] _]. cbv beta.
  destruct l as [[active m]|e].
  { apply wp_quiet_post; [|done|done|done]. unfold acknowledgeLegacyTargets. mgr_calls. }
  destruct (negb _); [wp_steps; by split|]. wp_answer versions s Hs. destruct s. set (tr2 := tr1 ++ _).
  assert (kept tr1 tr2) as [Ht2 Hg2] by by apply kept_call. clearbody tr2. assert (grows tr tr2) as Hg by in_growth.
  destruct versions as [versions|]; [|wp_steps; by split]. wp_steps.
  eapply wp_mono; [by apply wp_find_candidate|]. intros c [] tr3 [[Ht3 Hg3] Hc]. cbv beta. assert (grows tr tr3) as Hg4 by in_growth.
  destruct c as [[candidate m]|]; [|wp_steps; by split]. destruct (String.eqb _ _); [wp_steps; by split|].
  destruct (Hc candidate m eq_refl) as [Hload Hval]. apply wp_finally.
  eapply wp_mono; [by apply wp_bootstrap_candidate|]. intros r [] tr4 [[Ht4 Hg5] _]. cbv beta.
  wp_answer x s Hs2. split; [|done]. apply (keeps_trans _ _ tr4); [in_growth|by apply kept_call].
Qed.

Lemma wp_rollback_locked domain version tr :
  every activation_rule tr -> wp_rule (rollback_locked config domain version) tr.
Proof.
  intros Ht. unfold rollback_locked. wp_answer versions s Hs. destruct s. set (tr1 := tr ++ _).
  assert (kept tr tr1) as [Ht1 Hg1] by by apply kept_call. clearbody tr1. destruct versions as [versions|]; [|wp_steps; by split].
  destruct (negb _); [wp_steps; by split|]. wp_answer active s Hs2. destruct s. set (tr2 := tr1 ++ _).
  assert (kept tr1 tr2) as [Ht2 Hg2] by by apply kept_call. clearbody tr2. cbv zeta.
  set (previous := match active with Ok r => Some r | Err _ => None end). clearbody previous.
  wp_answer l s Hs3. destruct s. set (tr3 := tr2 ++ _). assert (kept tr2 tr3) as [Ht3 Hg3] by by apply kept_call.
  assert (grows tr tr3) as Hg by in_growth. destruct l as [m|e]; [|wp_steps; by split].
  assert (Ev (MLoad domain version) (Ok m) ∈ tr3) as Hload by apply elem_snoc. clearbody tr3. apply wp_finally.
  apply (wp_mono _ _ _ (fun _ _ tr' => kept tr tr' /\ True)).
  2: { intros r [] tr' [[Ht' Hg'] _]. wp_answer x s Hs4. split; [|done]. apply (keeps_trans _ _ tr'); [done|by apply kept_call]. }
  unfold rollback_loaded. wp_answer now s Hs4. destruct s. set (tr4 := tr3 ++ _). assert (kept tr3 tr4) as [Ht4 Hg4] by by apply kept_call.
  assert (Ev MNow now ∈ tr4) as Hnow by apply elem_snoc. clearbody tr4.
  destruct (Validate m domain now) as [info|e] eqn:Hv; [|wp_steps; split; [split; [done|in_growth]|done]]. wp_steps.
  eapply wp_mono; [by apply wp_distribute|]. intros d [] tr5 [[Ht5 Hg5] Hd]. cbv beta. destruct d as [e|].
  { apply wp_quiet_post; [|done|in_growth|done]. repeat first [apply restore_quiet | calls_step]. }
  eapply wp_mono; [apply wp_switch_marker; [done| |apply restore_quiet]|].
  - exists m, info. split; [exists now; split; [in_past|done]|]. split; [by apply Hd|right; in_past].
  - intros r [] tr6 [[Ht6 Hg6] _]. split; [split; [done|in_growth]|done].
Qed.
End Facts.

(** ** Properties *)

(** C25. Nothing becomes active that was not earned.  In every run of
    [Prepare], [Renew], [Bootstrap] and [Rollback], whatever the repository,
    the store, the issuer, the resolver and the distributor answer, the
    store's marker of a domain is only moved to a version that was active
    before (a repair or a compensation), or to one whose material is in the
    store, passed validation for the domain in this run, and was accepted by
    every target the resolver named; unmanaged targets block this unless an
    operator acknowledged each of them in a bootstrap.  The metadata follow
    only such a version, immediately after the store accepted it. *)
Theorem certificate_activation_is_guarded `{X509} (config : ManagerConfig) sni version operator :
  always (Prepare config sni) tt (fun tr _ _ => every (activation_rule config) tr) /\
  always (Renew config sni) tt (fun tr _ _ => every (activation_rule config) tr) /\
  always (Bootstrap config sni operator) tt (fun tr _ _ => every (activation_rule config) tr) /\
  always (Rollback config sni version) tt (fun tr _ _ => every (activation_rule config) tr).
Proof.
  assert (forall A domain cancelled message fail (body : prog mgrE A),
    (forall tr, every (activation_rule config) tr -> wp body tt tr (fun _ _ tr' => keeps (activation_rule config) tr tr' /\ True)) ->
    always (locked domain cancelled message fail body) tt (fun tr _ _ => every (activation_rule config) tr)) as Hlocked.
  { intros A domain cancelled message fail body Hbody. apply wp_always.
    eapply wp_mono; [by apply (wp_cert_locked config domain cancelled message fail body (fun _ _ => True))|]. by intros res [] tr [Ht _]. }
  assert (forall A (a : A), always (mret a : prog mgrE A) tt (fun tr _ _ => every (activation_rule config) tr)) as Hret.
  { intros A a. apply wp_always. apply every_nil. }
  split_and!.
  - unfold Prepare. destruct (canonicalSNI sni); [|apply Hret]. apply Hlocked. intros tr Ht.
    eapply wp_mono; [by apply wp_prepare_locked|]. by intros r [] tr' [Hk _].
  - unfold Renew. destruct (canonicalSNI sni); [|apply Hret]. apply Hlocked. intros tr Ht. by apply wp_renew_locked.
  - unfold Bootstrap. destruct (canonicalSNI sni); [|apply Hret]. destruct (operator <=? 0); [apply Hret|].
    destruct (negb _); [apply Hret|]. apply Hlocked. intros tr Ht. by apply wp_bootstrap_locked.
  - unfold Rollback. destruct (canonicalSNI sni); [|apply Hret]. destruct (String.eqb _ _); [apply Hret|].
    apply Hlocked. intros tr Ht. by apply wp_rollback_locked.
Qed.

(** What [Prepare] returns can be served for the domain: it was validated
    for it during the call, and it is either the active certificate, with the
    fingerprint of its record, that is not due for renewal or is still valid
    after a renewal that failed, or material issued in the call whose version
    was distributed and made active in the store and the metadata. *)
Theorem prepare_returns_usable_material `{X509} (config : ManagerConfig) sni :
  always (Prepare config sni) tt (fun tr r _ => forall m, r = Ok m ->
    exists domain, canonicalSNI sni = Ok domain /\ usable config tr domain m).
Proof.
  apply wp_always. unfold Prepare. destruct (canonicalSNI sni) as [domain|]; [|by intros m].
  eapply wp_mono.
  - apply (wp_cert_locked config domain true "Certificate issuance lock is unavailable" Err (prepare_locked config domain)
      (fun tr r => forall m, r = Ok m -> usable config tr domain m)).
    + intros tr tr' a Hg Ha m Hm. eapply usable_grows; [exact Hg|by apply Ha].
    + done.
    + intros tr Ht. by apply wp_prepare_locked.
  - intros r [] tr [_ Hr] m Hm. exists domain. split; [done|by apply Hr].
Qed.

(** ** A concrete run

    The library whose certificates are single bytes, a repository without an
    active certificate, and one managed target. *)
#[local] Existing Instance example_x509.

Definition example_material : Material := mkMaterial [65] [65].
Definition example_target : Target := mkTarget "d-1" (Addr4 16909060).

Definition example_mgr_handler : handler mgrE unit := fun X e s =>
  (match e in mgrE X return X with
   | MCtxErr => false
   | MLock _ => true
   | MUnlock => tt
   | MNow => 10
   | MTick => false
   | MObserveExpiry _ _ => tt
   | MRenewalFailed _ => tt
   | MGetActive _ => Err (CertSentinel ErrNotFound)
   | MSaveVersion _ => None
   | MSetVersionStatus _ _ _ => None
   | MActivateVersion _ _ _ => None
   | MSetStatus _ _ => None
   | MRecordDistribution _ => None
   | MRecordTargetReview _ => None
   | MListVersions _ => Ok []
   | MListExpiring _ _ => Ok []
   | MStage _ _ => Ok "v-20260101T000000Z-00000001"
   | MLoad _ _ => Err (CertSentinel ErrStorageFailed)
   | MActiveVersion _ => Err (CertSentinel ErrNotFound)
   | MActivate _ _ => None
   | MIssue _ => Ok example_material
   | MResolve _ => Ok (mkTargetResolution [example_target] [] [])
   | MDistribute _ _ targets => (fun t => mkDistributionResult t DistributionSucceeded "Certificate activated") <$> targets
   | MDestroy _ => tt
   end, s).

Definition example_mgr_config : ManagerConfig := mkManagerConfig (30 * 24 * Hour) (600 * Second) (12 * Hour) 50 true true true.

Definition example_prepare : list (event mgrE) * result certErr Material * unit :=
  run example_mgr_handler (Prepare example_mgr_config "VPN.example.com.") tt.

Lemma example_prepare_runs :
  runs (Prepare example_mgr_config "VPN.example.com.") tt (fst (fst example_prepare)) (snd (fst example_prepare)) (snd example_prepare).
Proof.
  assert (forall X (e : mgrE X) s, env_step e s (fst (example_mgr_handler X e s)) (snd (example_mgr_handler X e s))) as Hh by done.
  pose proof (run_runs example_mgr_handler (Prepare example_mgr_config "VPN.example.com.") tt Hh) as Hr. unfold example_prepare. by destruct (run example_mgr_handler (Prepare example_mgr_config "VPN.example.com.") tt) as [[tr r] []].
Qed.

Definition activations (tr : list (event mgrE)) : nat :=
  length (List.filter (fun ev => negb (no_activation (ev_op ev))) tr).

Lemma certificate_activation_is_guarded_witness :
  every (activation_rule example_mgr_config) (fst (fst example_prepare)) /\ activations (fst (fst example_prepare)) = 2%nat.
Proof.
  split; [|vm_compute; reflexivity].
  exact (proj1 (certificate_activation_is_guarded example_mgr_config "VPN.example.com." "v" 1) _ _ _ example_prepare_runs).
Defined.

Lemma prepare_returns_usable_material_witness :
  snd (fst example_prepare) = Ok example_material /\
  exists domain, canonicalSNI "VPN.example.com." = Ok domain /\ usable example_mgr_config (fst (fst example_prepare)) domain example_material.
Proof.
  assert (snd (fst example_prepare) = Ok example_material) as Hr by (vm_compute; reflexivity). split; [exact Hr|].
  exact (prepare_returns_usable_material example_mgr_config "VPN.example.com." _ _ _ example_prepare_runs _ Hr).
Defined.
