(* ===== verification/CertTargets.v ===== *)
(** * Certificate targets and panel-scoped adapters ([internal/certmanager])

    Models the resolvers of [distribution.go] and [inventory_resolver.go],
    which decide the Nodes a certificate goes to, the lock keys of
    [scoped_locker.go], and the two-layer version store of
    [fallback_store.go].  A resolver reads the DNS zone and the tables; the
    iteration order of a Go map is an answer of the environment, any
    permutation of the keys. *)

From S2P Require DnsBalancer.
From S2P Require Import Prelude GoStrings Unicode NetIP NetIPFacts GoTextFacts Effects Deployment CertTypes CertManager.
From stdpp Require Import gmap fin_sets pretty.

#[local] Open Scope Z_scope.

(** ** Effects of the resolvers *)
Inductive resE : Type -> Type :=
  | RFindZone (sni : string) : resE (result DnsBalancer.dnsErr DnsBalancer.ZoneMatch)
  | RFindDeployments (panel : option string) (sni : string) (limit : Z) : resE (option (list Deployment))
  | RListTargetReviews (panel : option string) (sni : string) : resE (option (list TargetReview))
  (* [for ip := range ipSet] *)
  | RRange (keys : gset Addr) : resE (list Addr).

(** The services may answer anything; a loop over a map visits every key once,
    in any order. *)
#[export] Instance resolver_env : Env resE unit | 10 := fun X e _ =>
  match e in resE X return X -> unit -> Prop with
  | RRange keys => fun l _ => l ≡ₚ elements keys
  | _ => fun _ _ => True
  end.

(** ** The resolver over the DNS zone *)

(** [panelLookup] is nil for the resolver without a panel. *)
Record DNSDeploymentResolver : Type := mkDNSDeploymentResolver { rs_panel : option string }.

(** The arguments [dns] and [deployments] are interfaces: present or nil. *)
Definition NewPanelDNSDeploymentResolver (panelID : string) (dns deployments : bool) : result certErr DNSDeploymentResolver :=
  let panelID := TrimSpace panelID in
  if String.eqb panelID "" || negb dns || negb deployments then Err (CertSentinel ErrInvalidInput)
  else Ok (mkDNSDeploymentResolver (Some panelID)).

Definition NewDNSDeploymentResolver (dns deployments : bool) : result certErr DNSDeploymentResolver :=
  if negb dns || negb deployments then Err (CertSentinel ErrInvalidInput) else Ok (mkDNSDeploymentResolver None).

Definition unresolved (message : string) : result certErr TargetResolution :=
  Err (safe message (CertSentinel ErrDistributionFailed)).

(** The loops that fill [ipSet]; [None] is the return on an invalid address. *)
Fixpoint collect (values : list string) (ipSet : gset Addr) : option (gset Addr) :=
  match values with
  | [] => Some ipSet
  | value :: values' =>
    match ParseAddr (TrimSpace value) with
    | Some ip => collect values' ({[ Unmap ip ]} ∪ ipSet)
    | None => None
    end
  end.

(** [reviewByIP]: the last review of an address counts. *)
Fixpoint review_by_ip (reviews : list TargetReview) (m : gmap Addr TargetReviewState) : gmap Addr TargetReviewState :=
  match reviews with
  | [] => m
  | review :: reviews' =>
    review_by_ip reviews'
      (if IsValid (tr_IP review) then <[Unmap (tr_IP review) := tr_State review]> m else m)
  end.

(** A deployment whose SSH identity of the Node is known. *)
Definition has_identity (item : Deployment) : bool :=
  bool_decide (RemnawaveNodeUUID item <> None) && bool_decide (SSHHostKeyFingerprint item <> None) &&
  negb (bool_decide (status item = StatusCancelled)).

Definition serves (sni : string) (item : Deployment) : bool :=
  EqualFold (TrimSuffix (TrimSpace (SNIDomain item)) ".") sni && has_identity item.

(** [byIP]: the first deployment of an address counts. *)
Fixpoint deployment_by_ip (sni : string) (items : list Deployment) (m : gmap Addr Deployment) : gmap Addr Deployment :=
  match items with
  | [] => m
  | item :: items' =>
    let ip := Unmap (TargetVPSIP item) in
    deployment_by_ip sni items'
      (if serves sni item then match m !! ip with Some _ => m | None => <[ip := item]> m end else m)
  end.

(** The body of the loop over [ipSet]. *)
Definition place (byIP : gmap Addr Deployment) (reviewByIP : gmap Addr TargetReviewState)
    (r : TargetResolution) (ip : Addr) : TargetResolution :=
  match byIP !! ip with
  | Some item => mkTargetResolution (Managed r ++ [mkTarget (ID item) ip]) (Unmanaged r) (LegacyAcknowledged r)
  | None =>
    if bool_decide (reviewByIP !! ip = Some TargetLegacyAcknowledged)
    then mkTargetResolution (Managed r) (Unmanaged r) (LegacyAcknowledged r ++ [ip])
    else mkTargetResolution (Managed r) (Unmanaged r ++ [ip]) (LegacyAcknowledged r)
  end.

(** The calls of [sort.Slice].  The addresses of a list are distinct, so every
    sorting procedure gives the same list. *)
Definition target_le (a b : Target) : Prop := addr_le (tgt_IP a) (tgt_IP b).
#[export] Instance target_le_dec : RelDecision target_le.
Proof. intros a b. unfold target_le. apply _. Defined.

Definition sorted_resolution (r : TargetResolution) : TargetResolution :=
  mkTargetResolution (merge_sort target_le (Managed r)) (merge_sort addr_le (Unmanaged r))
    (merge_sort addr_le (LegacyAcknowledged r)).

Definition empty_resolution : TargetResolution := mkTargetResolution [] [] [].

Definition Resolve (r : DNSDeploymentResolver) (sni : string) : prog resE (result certErr TargetResolution) :=
  found ← call (RFindZone sni);
  match found with
  | Err _ => mret (unresolved "DNS-balancer certificate zone is unavailable")
  | Ok zone_match =>
    let zone := DnsBalancer.zm_Zone zone_match in
    match collect (elems (DnsBalancer.zone_IPs zone)) ∅ with
    | None => mret (unresolved "DNS-balancer certificate zone contains an invalid IP")
    | Some ipSet =>
      match collect (DnsBalancer.zn_IP <$> elems (DnsBalancer.zone_Nodes zone)) ipSet with
      | None => mret (unresolved "DNS-balancer certificate zone contains an invalid Node IP")
      | Some ipSet =>
        if (size ipSet =? 0)%nat then mret (Ok empty_resolution)
        else
          items ← call (RFindDeployments (rs_panel r) sni 100);
          match items with
          | None => mret (unresolved "Certificate deployment inventory is unavailable")
          | Some items =>
            reviews ← call (RListTargetReviews (rs_panel r) sni);
            match reviews with
            | None => mret (unresolved "Certificate target reviews are unavailable")
            | Some reviews =>
              let reviewByIP := review_by_ip reviews ∅ in
              let byIP := deployment_by_ip sni items ∅ in
              order ← call (RRange ipSet);
              mret (Ok (sorted_resolution (foldl (place byIP reviewByIP) empty_resolution order)))
            end
          end
      end
    end
  end.

(** ** The resolver over the inventory ([inventory_resolver.go]) *)
Record InventoryResolver : Type := mkInventoryResolver { ir_panelID : string }.

Definition NewInventoryResolver (panelID : string) (lookup : bool) : result certErr InventoryResolver :=
  let panelID := TrimSpace panelID in
  if String.eqb panelID "" || negb lookup then Err (CertSentinel ErrInvalidInput)
  else Ok (mkInventoryResolver panelID).

Fixpoint inventory_targets (panelID : string) (items : list Deployment) (seen : gset string) : list Target :=
  match items with
  | [] => []
  | item :: items' =>
    let key := addr_string (Unmap (TargetVPSIP item)) in
    if negb (String.eqb (PanelID item) panelID && has_identity item) || bool_decide (key ∈ seen)
    then inventory_targets panelID items' seen
    else mkTarget (ID item) (Unmap (TargetVPSIP item)) :: inventory_targets panelID items' ({[ key ]} ∪ seen)
  end.

Definition Inventory_Resolve (r : InventoryResolver) (sni : string) : prog resE (result certErr TargetResolution) :=
  items ← call (RFindDeployments (Some (ir_panelID r)) sni 100);
  match items with
  | None => mret (unresolved "Certificate deployment inventory is unavailable")
  | Some items =>
    mret (Ok (mkTargetResolution (merge_sort target_le (inventory_targets (ir_panelID r) items ∅)) [] []))
  end.

(** ** Lock keys ([scoped_locker.go]) *)
Record ScopedLocker : Type := mkScopedLocker { sl_panelID : string }.

Definition NewScopedLocker (panelID : string) (next : bool) : result certErr ScopedLocker :=
  let panelID := TrimSpace panelID in
  if String.eqb panelID "" || negb next then Err (CertSentinel ErrInvalidInput) else Ok (mkScopedLocker panelID).

(** [Lock]: the key the next locker is asked for. *)
Definition scopedKey (l : ScopedLocker) (key : string) : string :=
  Itoa (str_len (sl_panelID l)) +:+ ":" +:+ sl_panelID l +:+ ":" +:+ key.

(** ** What a resolution promises *)

(** The first deployment of an address that can be reached by its identity. *)
Definition identity_of (sni : string) (items : list Deployment) (ip : Addr) : option Deployment :=
  find_first (fun item => serves sni item && bool_decide (Unmap (TargetVPSIP item) = ip)) items.

(** The last review of an address. *)
Fixpoint review_of (reviews : list TargetReview) (ip : Addr) : option TargetReviewState :=
  match reviews with
  | [] => None
  | review :: reviews' =>
    match review_of reviews' ip with
    | Some st => Some st
    | None => if IsValid (tr_IP review) && bool_decide (Unmap (tr_IP review) = ip) then Some (tr_State review) else None
    end
  end.

Definition zone_values (zone : DnsBalancer.Zone) : list string :=
  elems (DnsBalancer.zone_IPs zone) ++ (DnsBalancer.zn_IP <$> elems (DnsBalancer.zone_Nodes zone)).

(** The addresses of a zone, each as it is compared everywhere in the program. *)
Definition zone_address (zone : DnsBalancer.Zone) (ip : Addr) : Prop :=
  exists value, value ∈ zone_values zone /\ read_addr value = Some ip.

Definition resolved_ips (r : TargetResolution) : list Addr :=
  (tgt_IP <$> Managed r) ++ LegacyAcknowledged r ++ Unmanaged r.

(** Every address of the zone is in exactly one of the three lists, and in the
    right one; the lists are sorted. *)
Record resolution_of (sni : string) (zone : DnsBalancer.Zone) (items : list Deployment) (reviews : list TargetReview)
    (r : TargetResolution) : Prop := mk_resolution_of {
  ro_once : NoDup (resolved_ips r);
  ro_cover : forall ip, ip ∈ resolved_ips r <-> zone_address zone ip;
  ro_managed : forall t, t ∈ Managed r ->
    exists item, identity_of sni items (tgt_IP t) = Some item /\ tgt_DeploymentID t = ID item;
  ro_legacy : forall ip, ip ∈ LegacyAcknowledged r ->
    identity_of sni items ip = None /\ review_of reviews ip = Some TargetLegacyAcknowledged;
  ro_unmanaged : forall ip, ip ∈ Unmanaged r ->
    identity_of sni items ip = None /\ review_of reviews ip <> Some TargetLegacyAcknowledged;
  ro_sorted : StronglySorted addr_le (tgt_IP <$> Managed r) /\ StronglySorted addr_le (Unmanaged r) /\
    StronglySorted addr_le (LegacyAcknowledged r)
}.

(** *** The pieces of the run *)
Lemma collect_spec values s s' :
  collect values s = Some s' ->
  forall ip, ip ∈ s' <-> ip ∈ s \/ exists value, value ∈ values /\ read_addr value = Some ip.
Proof.
  revert s. induction values as [|value values IH]; simpl; intros s.
  - intros [= ->] ip. set_solver.
  - destruct (ParseAddr (TrimSpace value)) as [a|] eqn:Ha; [|done]. intros H ip. rewrite (IH _ H).
    assert (read_addr value = Some (Unmap a)) as Hr by (unfold read_addr; by rewrite Ha).
    set_solver.
Qed.

Lemma collect_readable values s s' : collect values s = Some s' -> forall value, value ∈ values -> read_addr value <> None.
Proof.
  revert s. induction values as [|v values IH]; simpl; intros s; [set_solver|].
  destruct (ParseAddr (TrimSpace v)) as [a|] eqn:Ha; [|done].
  intros H value [->|Hv]%elem_of_cons; [unfold read_addr; by rewrite Ha|by eapply IH].
Qed.

Lemma collect_None values s :
  collect values s = None -> exists value, value ∈ values /\ read_addr value = None.
Proof.
  revert s. induction values as [|value values IH]; simpl; intros s; [done|].
  destruct (ParseAddr (TrimSpace value)) as [a|] eqn:Ha.
  - intros (v & Hv & Hr)%IH. exists v. split; [by right|done].
  - intros _. exists value. split; [by left|]. unfold read_addr. by rewrite Ha.
Qed.

Lemma review_by_ip_spec reviews m ip :
  review_by_ip reviews m !! ip = match review_of reviews ip with Some st => Some st | None => m !! ip end.
Proof.
  revert m. induction reviews as [|review reviews IH]; simpl; intros m; [done|]. rewrite IH.
  destruct (review_of reviews ip); [done|]. destruct (IsValid (tr_IP review)); simpl; [|done].
  case_bool_decide as Hip; [by subst; rewrite lookup_insert_eq|by rewrite lookup_insert_ne].
Qed.

Lemma deployment_by_ip_spec sni items m ip :
  deployment_by_ip sni items m !! ip = match m !! ip with Some item => Some item | None => identity_of sni items ip end.
Proof.
  revert m. induction items as [|item items IH]; cbn [deployment_by_ip]; intros m; [by destruct (m !! ip)|].
  rewrite IH. unfold identity_of. cbn [find_first]. destruct (serves sni item); cbn [andb]; [|done].
  destruct (m !! Unmap (TargetVPSIP item)) as [d|] eqn:Hd.
  - case_bool_decide as Hip; [by rewrite <-Hip, Hd|done].
  - case_bool_decide as Hip; [by rewrite <-Hip, lookup_insert_eq, Hd|by rewrite lookup_insert_ne].
Qed.

Section Place.
Context (byIP : gmap Addr Deployment) (reviewByIP : gmap Addr TargetReviewState).

Definition is_managed (ip : Addr) : bool := bool_decide (is_Some (byIP !! ip)).
Definition is_legacy (ip : Addr) : bool :=
  negb (is_managed ip) && bool_decide (reviewByIP !! ip = Some TargetLegacyAcknowledged).
Definition is_unmanaged (ip : Addr) : bool := negb (is_managed ip) && negb (is_legacy ip).

Definition managed_target (ip : Addr) : option Target := (fun item => mkTarget (ID item) ip) <$> byIP !! ip.

Lemma foldl_place order r :
  foldl (place byIP reviewByIP) r order =
  mkTargetResolution (Managed r ++ omap managed_target order) (Unmanaged r ++ List.filter is_unmanaged order)
    (LegacyAcknowledged r ++ List.filter is_legacy order).
Proof.
  revert r. induction order as [|ip order IH]; intros r; simpl; [by destruct r; rewrite !app_nil_r|].
  rewrite IH. unfold place, managed_target, is_unmanaged, is_legacy, is_managed.
  destruct (byIP !! ip) as [item|]; simpl; [by rewrite <-app_assoc|].
  case_bool_decide; simpl; by rewrite <-app_assoc.
Qed.

Lemma managed_ips order : tgt_IP <$> omap managed_target order = List.filter is_managed order.
Proof.
  induction order as [|ip order IH]; [done|]. simpl in *. unfold managed_target at 1, is_managed at 1.
  destruct (byIP !! ip); simpl; [by rewrite <-IH|done].
Qed.

Lemma placed_once order :
  List.filter is_managed order ++ List.filter is_legacy order ++ List.filter is_unmanaged order ≡ₚ order.
Proof.
  induction order as [|ip order IH]; [done|]. simpl.
  assert (is_managed ip = true /\ is_legacy ip = false /\ is_unmanaged ip = false \/
          is_managed ip = false /\ is_legacy ip = true /\ is_unmanaged ip = false \/
          is_managed ip = false /\ is_legacy ip = false /\ is_unmanaged ip = true) as Hc.
  { unfold is_unmanaged, is_legacy. destruct (is_managed ip); simpl; [naive_solver|]. case_bool_decide; naive_solver. }
  destruct Hc as [(-> & -> & ->)|[(-> & -> & ->)|(-> & -> & ->)]]; simpl.
  - by constructor.
  - rewrite <-Permutation_middle. by constructor.
  - rewrite app_assoc, <-Permutation_middle, <-app_assoc. by constructor.
Qed.
End Place.

#[export] Instance target_le_Total : Total target_le.
Proof. intros a b. apply (total addr_le). Qed.
#[export] Instance target_le_Trans : Transitive target_le.
Proof. intros a b c. unfold target_le. apply (transitivity (R := addr_le)). Qed.

Lemma sorted_targets l : StronglySorted addr_le (tgt_IP <$> merge_sort target_le l).
Proof.
  pose proof (StronglySorted_merge_sort target_le l) as H. induction H as [|t l' _ IH Hall]; simpl; constructor; [done|].
  by apply Forall_fmap.
Qed.

Lemma place_resolves sni zone items reviews (ipSet : gset Addr) order :
  (forall ip, ip ∈ ipSet <-> zone_address zone ip) -> order ≡ₚ elements ipSet ->
  resolution_of sni zone items reviews
    (sorted_resolution (foldl (place (deployment_by_ip sni items ∅) (review_by_ip reviews ∅)) empty_resolution order)).
Proof.
  intros Hset Horder. rewrite foldl_place. cbn [Managed Unmanaged LegacyAcknowledged empty_resolution app].
  set (byIP := deployment_by_ip sni items ∅). set (reviewByIP := review_by_ip reviews ∅).
  assert (forall ip, byIP !! ip = identity_of sni items ip) as Hby by (intros; unfold byIP; by rewrite deployment_by_ip_spec).
  assert (forall ip, reviewByIP !! ip = review_of reviews ip) as Hrev.
  { intros. unfold reviewByIP. rewrite review_by_ip_spec. by destruct (review_of reviews ip). }
  assert (resolved_ips (sorted_resolution (mkTargetResolution (omap (managed_target byIP) order)
    (List.filter (is_unmanaged byIP reviewByIP) order) (List.filter (is_legacy byIP reviewByIP) order))) ≡ₚ order) as Hp.
  { unfold resolved_ips, sorted_resolution. cbn [Managed Unmanaged LegacyAcknowledged].
    rewrite !merge_sort_Permutation, managed_ips. apply placed_once. }
  split; cbn [sorted_resolution Managed Unmanaged LegacyAcknowledged] in *.
  - rewrite Hp, Horder. apply NoDup_elements.
  - intros ip. by rewrite Hp, Horder, elem_of_elements, Hset.
  - intros t. rewrite merge_sort_Permutation. intros (ip & _ & Ht)%list_elem_of_omap.
    unfold managed_target in Ht. rewrite Hby in Ht. apply fmap_Some in Ht as (item & Hi & ->). by exists item.
  - intros ip. rewrite merge_sort_Permutation, list_elem_of_In, filter_In. intros [_ Hl].
    unfold is_legacy, is_managed in Hl. apply andb_true_iff in Hl as [Hm Hl].
    apply negb_true_iff, bool_decide_eq_false in Hm. apply bool_decide_eq_true in Hl.
    rewrite Hby in Hm. rewrite Hrev in Hl. split; [by apply eq_None_not_Some|done].
  - intros ip. rewrite merge_sort_Permutation, list_elem_of_In, filter_In. intros [_ Hl].
    unfold is_unmanaged, is_legacy, is_managed in Hl. apply andb_true_iff in Hl as [Hm Hl].
    rewrite Hm in Hl. apply negb_true_iff, bool_decide_eq_false in Hm. simpl in Hl.
    apply negb_true_iff, bool_decide_eq_false in Hl.
    rewrite Hby in Hm. rewrite Hrev in Hl. split; [by apply eq_None_not_Some|done].
  - split; [apply sorted_targets|]. split; apply (StronglySorted_merge_sort addr_le).
Qed.

(** The promise leaves no freedom: not the order of the loop over the map, not
    the choice among deployments of one address. *)
Lemma resolution_unique sni zone items reviews r r' :
  resolution_of sni zone items reviews r -> resolution_of sni zone items reviews r' -> r = r'.
Proof.
  assert (forall r, resolution_of sni zone items reviews r -> forall ip,
    (ip ∈ tgt_IP <$> Managed r <-> zone_address zone ip /\ is_Some (identity_of sni items ip)) /\
    (ip ∈ LegacyAcknowledged r <-> zone_address zone ip /\ identity_of sni items ip = None /\
      review_of reviews ip = Some TargetLegacyAcknowledged) /\
    (ip ∈ Unmanaged r <-> zone_address zone ip /\ identity_of sni items ip = None /\
      review_of reviews ip <> Some TargetLegacyAcknowledged)) as Hmem.
  { clear r r'. intros r [_ Hcover Hm Hl Hu _] ip. specialize (Hcover ip). unfold resolved_ips in Hcover.
    rewrite !elem_of_app in Hcover. specialize (Hl ip). specialize (Hu ip).
    assert (ip ∈ tgt_IP <$> Managed r -> is_Some (identity_of sni items ip)) as Hi.
    { intros (t & -> & (item & Hi & _)%Hm)%list_elem_of_fmap. eauto. }
    destruct (identity_of sni items ip) as [item|] eqn:Hid.
    - assert (Some item <> None) by done. naive_solver.
    - assert (~ is_Some (@None Deployment)) by (by intros [? ?]).
      destruct (decide (review_of reviews ip = Some TargetLegacyAcknowledged)); naive_solver. }
  intros H H'. pose proof (Hmem r H) as Hr. pose proof (Hmem r' H') as Hr'.
  destruct H as [Honce _ Hm _ _ (Hs1 & Hs2 & Hs3)]. destruct H' as [Honce' _ Hm' _ _ (Hs1' & Hs2' & Hs3')].
  unfold resolved_ips in Honce, Honce'.
  apply NoDup_app in Honce as (Hn1 & _ & (Hn3 & _ & Hn2)%NoDup_app).
  apply NoDup_app in Honce' as (Hn1' & _ & (Hn3' & _ & Hn2')%NoDup_app).
  assert (tgt_IP <$> Managed r = tgt_IP <$> Managed r') as E1.
  { apply (StronglySorted_unique addr_le); [done..|]. apply NoDup_Permutation; [done..|]. intros ip.
    by rewrite (proj1 (Hr ip)), (proj1 (Hr' ip)). }
  assert (Unmanaged r = Unmanaged r') as E2.
  { apply (StronglySorted_unique addr_le); [done..|]. apply NoDup_Permutation; [done..|]. intros ip.
    by rewrite (proj2 (proj2 (Hr ip))), (proj2 (proj2 (Hr' ip))). }
  assert (LegacyAcknowledged r = LegacyAcknowledged r') as E3.
  { apply (StronglySorted_unique addr_le); [done..|]. apply NoDup_Permutation; [done..|]. intros ip.
    by rewrite (proj1 (proj2 (Hr ip))), (proj1 (proj2 (Hr' ip))). }
  assert (Managed r = Managed r') as E4.
  { assert (forall l : list Target, (forall t, t ∈ l -> exists item, identity_of sni items (tgt_IP t) = Some item /\ tgt_DeploymentID t = ID item) ->
      l = (fun ip => mkTarget (default "" (ID <$> identity_of sni items ip)) ip) <$> (tgt_IP <$> l)) as Hdet.
    { intros l Hl. induction l as [|t l IH]; [done|]. rewrite !fmap_cons, <-IH; [|intros; apply Hl; by right].
      destruct (Hl t (list_elem_of_here _ _)) as (item & -> & Hid). simpl. rewrite <-Hid. by destruct t. }
    by rewrite (Hdet _ Hm), (Hdet _ Hm'), E1. }
  destruct r, r'. simpl in *. by subst.
Qed.

(** Membership in a trace that is spelled out. *)
Ltac in_trace := cbn [app]; repeat first [apply list_elem_of_here | apply list_elem_of_further].

(** What a run of [Resolve] shows. *)
Definition resolve_outcome (r : DNSDeploymentResolver) (sni : string) (tr : list (event resE))
    (answer : result certErr TargetResolution) : Prop :=
  match answer with
  | Ok res =>
    exists zone_match, Ev (RFindZone sni) (Ok zone_match) ∈ tr /\
      let zone := DnsBalancer.zm_Zone zone_match in
      (forall value, value ∈ zone_values zone -> read_addr value <> None) /\
      ((forall ip, ~ zone_address zone ip) /\ res = empty_resolution /\ length tr = 1%nat \/
       exists items reviews,
         Ev (RFindDeployments (rs_panel r) sni 100) (Some items) ∈ tr /\
         Ev (RListTargetReviews (rs_panel r) sni) (Some reviews) ∈ tr /\
         resolution_of sni zone items reviews res /\
         forall res', resolution_of sni zone items reviews res' -> res' = res)
  | Err e =>
    (exists message, e = safe message (CertSentinel ErrDistributionFailed)) /\
    ((exists e', Ev (RFindZone sni) (Err e') ∈ tr) \/
     (exists zone_match value, Ev (RFindZone sni) (Ok zone_match) ∈ tr /\
        value ∈ zone_values (DnsBalancer.zm_Zone zone_match) /\ read_addr value = None) \/
     Ev (RFindDeployments (rs_panel r) sni 100) None ∈ tr \/
     Ev (RListTargetReviews (rs_panel r) sni) None ∈ tr)
  end.

(** C29. [DNSDeploymentResolver.Resolve] partitions the addresses of the DNS
    zone: every address the zone lists, in either format, is exactly once in
    the result, as the target of the first deployment with a known identity,
    else as acknowledged when its last review says so, else as unmanaged; the
    result does not depend on the order in which Go walks the map.  An empty
    zone needs no lookup.  It fails exactly when a source could not be read or
    a value of the zone is no address. *)
Theorem certificate_targets_partition_the_zone r sni :
  always (Resolve r sni) tt (fun tr answer _ => resolve_outcome r sni tr answer).
Proof.
  apply wp_always. unfold Resolve. apply wp_mbind, wp_call. intros found [] _.
  destruct found as [zm|e]; [|apply wp_ret; split; [by eexists|]; left; exists e; in_trace]. set (zone := DnsBalancer.zm_Zone zm).
  destruct (collect (elems (DnsBalancer.zone_IPs zone)) ∅) as [s1|] eqn:H1.
  2: { apply wp_ret. split; [by eexists|]. right; left. apply collect_None in H1 as (v & Hv & Hr).
       exists zm, v. split; [in_trace|]. unfold zone_values. set_solver. }
  destruct (collect (DnsBalancer.zn_IP <$> elems (DnsBalancer.zone_Nodes zone)) s1) as [s2|] eqn:H2.
  2: { apply wp_ret. split; [by eexists|]. right; left. apply collect_None in H2 as (v & Hv & Hr).
       exists zm, v. split; [in_trace|]. unfold zone_values. set_solver. }
  assert (forall ip, ip ∈ s2 <-> zone_address zone ip) as Hset.
  { intros ip. rewrite (collect_spec _ _ _ H2), (collect_spec _ _ _ H1). unfold zone_address, zone_values. set_solver. }
  assert (forall value, value ∈ zone_values zone -> read_addr value <> None) as Hread.
  { intros v [Hv|Hv]%elem_of_app; [exact (collect_readable _ _ _ H1 v Hv)|exact (collect_readable _ _ _ H2 v Hv)]. }
  destruct (Nat.eqb_spec (size s2) 0) as [Hz|Hz].
  { apply wp_ret. exists zm. split; [in_trace|]. split; [done|]. left. apply size_empty_inv in Hz. split; [|done].
    intros ip Hip%Hset. set_solver. }
  apply wp_mbind, wp_call. intros [items|] [] _; [|apply wp_ret; split; [by eexists|]; right; right; left; in_trace].
  apply wp_mbind, wp_call. intros [reviews|] [] _; [|apply wp_ret; split; [by eexists|]; right; right; right; in_trace].
  apply wp_mbind, wp_call. intros order [] Horder. apply wp_ret. exists zm. split; [in_trace|]. split; [done|]. right.
  exists items, reviews. split; [in_trace|]. split; [in_trace|].
  pose proof (place_resolves sni zone items reviews s2 order Hset Horder) as Hres.
  split; [done|]. intros res' H'. by eapply resolution_unique.
Qed.

(** *** The inventory *)
Lemma inventory_targets_spec panelID items seen t :
  t ∈ inventory_targets panelID items seen ->
  addr_string (tgt_IP t) ∉ seen /\
  exists item, item ∈ items /\ PanelID item = panelID /\ has_identity item = true /\
    t = mkTarget (ID item) (Unmap (TargetVPSIP item)).
Proof.
  revert seen. induction items as [|item items IH]; intros seen; cbn [inventory_targets]; [set_solver|].
  destruct (String.eqb_spec (PanelID item) panelID) as [Hp|]; cbn [andb negb orb]; [|intros (? & ?)%IH; set_solver].
  destruct (has_identity item) eqn:Hi; cbn [andb negb orb]; [|intros (? & ?)%IH; set_solver].
  case_bool_decide as Hs; [intros (? & ?)%IH; set_solver|].
  intros [->|(Hn & Ht)%IH]%elem_of_cons; [|set_solver]. split; [done|]. exists item. set_solver.
Qed.

Lemma inventory_targets_NoDup panelID items seen :
  NoDup ((fun t => addr_string (tgt_IP t)) <$> inventory_targets panelID items seen).
Proof.
  revert seen. induction items as [|item items IH]; intros seen; cbn [inventory_targets]; [apply NoDup_nil_2|].
  destruct (_ || _); [apply IH|]. rewrite fmap_cons. apply NoDup_cons. split; [|apply IH].
  intros (t & Ht & (Hn & _)%inventory_targets_spec)%list_elem_of_fmap. simpl in Ht. set_solver.
Qed.

(** Without a DNS zone a certificate goes to the Nodes of the panel whose
    identity is known, once per address, in the order of the addresses. *)
Lemma inventory_resolution r sni :
  always (Inventory_Resolve r sni) tt (fun tr answer _ =>
    match answer with
    | Ok res =>
      Unmanaged res = [] /\ LegacyAcknowledged res = [] /\
      StronglySorted addr_le (tgt_IP <$> Managed res) /\ NoDup (tgt_IP <$> Managed res) /\
      exists items, tr = [Ev (RFindDeployments (Some (ir_panelID r)) sni 100) (Some items)] /\
        forall t, t ∈ Managed res -> exists item, item ∈ items /\ PanelID item = ir_panelID r /\
          has_identity item = true /\ t = mkTarget (ID item) (Unmap (TargetVPSIP item))
    | Err _ => tr = [Ev (RFindDeployments (Some (ir_panelID r)) sni 100) None]
    end).
Proof.
  apply wp_always. unfold Inventory_Resolve. apply wp_mbind, wp_call. intros [items|] [] _; apply wp_ret; [|done].
  cbn [Managed Unmanaged LegacyAcknowledged]. repeat split; [apply sorted_targets| |].
  - rewrite merge_sort_Permutation. apply (NoDup_fmap_1 addr_string). rewrite <-list_fmap_compose. apply inventory_targets_NoDup.
  - exists items. split; [done|]. intros t. rewrite merge_sort_Permutation. by intros (_ & Hi)%inventory_targets_spec.
Qed.

(** *** Lock keys *)
Lemma cut_at_byte c s s' t t' :
  str_forall (fun a => negb (Ascii.eqb a c)) s = true -> str_forall (fun a => negb (Ascii.eqb a c)) s' = true ->
  s +:+ String c t = s' +:+ String c t' -> s = s' /\ t = t'.
Proof.
  revert s'. induction s as [|a s IH]; intros [|a' s'] Hs Hs' H; rewrite ?string_app_nil, ?string_app_cons in H.
  - by injection H.
  - injection H as -> _. simpl in Hs'. by rewrite Ascii.eqb_refl in Hs'.
  - injection H as -> _. simpl in Hs. by rewrite Ascii.eqb_refl in Hs.
  - injection H as -> H. simpl in Hs, Hs'. apply andb_true_iff in Hs as [_ Hs]. apply andb_true_iff in Hs' as [_ Hs'].
    destruct (IH s' Hs Hs' H) as [-> ->]. done.
Qed.

Lemma app_same_length s s' t t' :
  String.length s = String.length s' -> s +:+ t = s' +:+ t' -> s = s' /\ t = t'.
Proof.
  revert s'. induction s as [|a s IH]; intros [|a' s'] Hl H; [done..|]. rewrite !string_app_cons in H.
  injection H as -> H. injection Hl as Hl. by destruct (IH s' Hl H) as [-> ->].
Qed.

(** No two pairs of a panel and a domain share a lock, whatever bytes the
    identifiers consist of. *)
Lemma scoped_keys_distinct l l' key key' : scopedKey l key = scopedKey l' key' -> l = l' /\ key = key'.
Proof.
  unfold scopedKey. destruct l as [p], l' as [p']; simpl. intros H. apply cut_at_byte in H as [Hn H].
  2-3: eapply str_forall_impl; [|apply Itoa_digits; unfold str_len; lia].
  2-3: intros a Ha; destruct (Ascii.eqb_spec a ":"); [by subst|done].
  unfold Itoa in Hn. apply (inj pretty) in Hn. unfold str_len in Hn. apply Nat2Z.inj in Hn.
  apply app_same_length in H as [-> H]; [|done]. injection H as H. split; [done|exact H].
Qed.
