(* ===== verification/CertDistribution.v ===== *)
(** * Distribution of a certificate to Nodes ([internal/certmanager/distribution.go])

    Models [NewSSHDistributor] and [SSHDistributor.Distribute]: one goroutine
    per target behind a counting semaphore, each with its stack of deferred
    calls.  A step of the system is a step of one goroutine, or the
    cancellation of the context; every interleaving is a list of steps. *)

From S2P Require Import Prelude GoStrings GoText NetIP CertTypes CertManager.

#[local] Open Scope Z_scope.

(** ** Configuration *)
Record SSHDistributorConfig : Type := mkSSHDistributorConfig {
  sd_RepositoryURL : string;
  sd_Ref : string;
  sd_CommandTimeout : Z;
  sd_MaxConcurrent : Z
}.

(** [NewSSHDistributor]: [ssh] says that the client is not nil. *)
Definition NewSSHDistributor (ssh : bool) (c : SSHDistributorConfig) : result certErr SSHDistributorConfig :=
  if negb ssh || String.eqb (TrimSpace (sd_RepositoryURL c)) "" || String.eqb (TrimSpace (sd_Ref c)) ""
  then Err (CertSentinel ErrInvalidInput)
  else
    let c := mkSSHDistributorConfig (sd_RepositoryURL c) (sd_Ref c)
      (if sd_CommandTimeout c <=? 0 then 300 * Second else sd_CommandTimeout c)
      (if sd_MaxConcurrent c <=? 0 then 4 else sd_MaxConcurrent c) in
    if 32 <? sd_MaxConcurrent c then Err (CertSentinel ErrInvalidInput) else Ok c.

(** ** Goroutines *)
Inductive deferred : Type := DestroyInstaller | CloseConnection | DestroyCopy | ReleaseSlot.

#[export] Instance deferred_eq_dec : EqDecision deferred.
Proof. solve_decision. Defined.

(** What a goroutine that holds a slot does next. *)
Inductive job : Type := Connecting | Installing | Updating.

Inductive worker : Type :=
  | Selecting
  | Running (j : job)
  | Unwinding (ds : list deferred)
  | Finished.

#[export] Instance job_eq_dec : EqDecision job.
Proof. solve_decision. Defined.
#[export] Instance worker_eq_dec : EqDecision worker.
Proof. solve_decision. Defined.

(** The deferred calls of a running goroutine, the last one first. *)
Definition pending (j : job) : list deferred :=
  match j with
  | Connecting => [DestroyCopy; ReleaseSlot]
  | Installing => [CloseConnection; DestroyCopy; ReleaseSlot]
  | Updating => [DestroyInstaller; CloseConnection; DestroyCopy; ReleaseSlot]
  end.

Definition failedDistribution (target : Target) (message : string) : DistributionResult :=
  mkDistributionResult target DistributionFailed message.

(** [results] starts as zero values; the semaphore counts the tokens in its
    channel. *)
Record distribution : Type := mkDistribution {
  workers : list worker;
  semaphore : Z;
  results : list (option DistributionResult);
  ctx_done : bool
}.

Inductive dist_step : Type :=
  | AcquireSlot (i : nat)
  | SeeCancelled (i : nat)
  | Connected (i : nat) (ok : bool)
  | InstallerMade (i : nat) (ok : bool)
  | CertificateUpdated (i : nat) (ok : bool)
  | RunDeferred (i : nat)
  | WorkerDone (i : nat)
  | Cancel.

Definition started (targets : list Target) : distribution :=
  mkDistribution ((fun _ => Selecting) <$> targets) 0 ((fun _ => None) <$> targets) false.

Definition goes_on (st : distribution) (i : nat) (w : worker) : distribution :=
  mkDistribution (<[i := w]> (workers st)) (semaphore st) (results st) (ctx_done st).

(** [results[index] = r; return]. *)
Definition settles (st : distribution) (i : nat) (r : DistributionResult) (ds : list deferred) : distribution :=
  mkDistribution (<[i := Unwinding ds]> (workers st)) (semaphore st) (<[i := Some r]> (results st)) (ctx_done st).

(** One step of the body of [Distribute], when it is possible. *)
Definition dist_exec (max : Z) (targets : list Target) (st : distribution) (e : dist_step) : option distribution :=
  let at_worker i (f : Target -> worker -> option distribution) :=
    target ← targets !! i; w ← workers st !! i; f target w in
  match e with
  | Cancel => Some (mkDistribution (workers st) (semaphore st) (results st) true)
  | AcquireSlot i => at_worker i (fun _ w =>
      match w with
      | Selecting => if semaphore st <? max
          then Some (mkDistribution (<[i := Running Connecting]> (workers st)) (semaphore st + 1) (results st) (ctx_done st))
          else None
      | _ => None
      end)
  | SeeCancelled i => at_worker i (fun target w =>
      match w with
      | Selecting => if ctx_done st
          then Some (settles st i (failedDistribution target "Certificate distribution cancelled") []) else None
      | _ => None
      end)
  | Connected i ok => at_worker i (fun target w =>
      match w with
      | Running Connecting => Some (if (ok : bool) then goes_on st i (Running Installing)
          else settles st i (failedDistribution target "Could not connect to Node") (pending Connecting))
      | _ => None
      end)
  | InstallerMade i ok => at_worker i (fun target w =>
      match w with
      | Running Installing => Some (if (ok : bool) then goes_on st i (Running Updating)
          else settles st i (failedDistribution target "Certificate was rejected before distribution") (pending Installing))
      | _ => None
      end)
  | CertificateUpdated i ok => at_worker i (fun target w =>
      match w with
      | Running Updating => Some (settles st i
          (if (ok : bool) then mkDistributionResult target DistributionSucceeded "Certificate activated"
           else failedDistribution target "Node certificate activation failed and was rolled back") (pending Updating))
      | _ => None
      end)
  | RunDeferred i => at_worker i (fun _ w =>
      match w with
      | Unwinding (d :: ds) => Some (mkDistribution (<[i := Unwinding ds]> (workers st))
          (match d with ReleaseSlot => semaphore st - 1 | _ => semaphore st end) (results st) (ctx_done st))
      | _ => None
      end)
  | WorkerDone i => at_worker i (fun _ w =>
      match w with Unwinding [] => Some (goes_on st i Finished) | _ => None end)
  end.

Fixpoint dist_run (max : Z) (targets : list Target) (st : distribution) (steps : list dist_step) : option distribution :=
  match steps with
  | [] => Some st
  | e :: steps' => st' ← dist_exec max targets st e; dist_run max targets st' steps'
  end.

(** [workers.Wait()] is over. *)
Definition waited (st : distribution) : bool :=
  forallb (fun w => match w with Finished => true | _ => false end) (workers st).

(** ** The invariant *)
Definition holds_slot (w : worker) : bool :=
  match w with
  | Selecting | Finished => false
  | Running _ => true
  | Unwinding ds => bool_decide (ReleaseSlot ∈ ds)
  end.

Definition owes (d : deferred) (w : worker) : bool :=
  match w with
  | Running j => bool_decide (d ∈ pending j)
  | Unwinding ds => bool_decide (d ∈ ds)
  | Selecting | Finished => false
  end.

(** How many steps a goroutine can still make. *)
Definition rank (w : worker) : Z :=
  match w with
  | Selecting => 9
  | Running Connecting => 8
  | Running Installing => 7
  | Running Updating => 6
  | Unwinding ds => 1 + Z.of_nat (length ds)
  | Finished => 0
  end.

Definition rank_sum (ws : list worker) : Z := foldr (fun w s => rank w + s) 0 ws.

Definition progress (e : dist_step) : bool := match e with Cancel => false | _ => true end.

Section Distribute.
Context (max : Z) (targets : list Target).

Definition settled (steps : list dist_step) (i : nat) (t : Target) (r : option (option DistributionResult)) : Prop :=
  exists res, r = Some (Some res) /\ dres_Target res = t /\
    (dres_Status res = DistributionSucceeded <-> CertificateUpdated i true ∈ steps).

Definition worker_inv (steps : list dist_step) (i : nat) (t : Target) (w : worker) (r : option (option DistributionResult)) : Prop :=
  match w with
  | Selecting | Running _ => r = Some None /\ CertificateUpdated i true ∉ steps
  | Unwinding ds => ds `suffix_of` pending Updating /\ settled steps i t r
  | Finished => settled steps i t r
  end.

Record dist_inv (steps : list dist_step) (st : distribution) : Prop := mk_dist_inv {
  di_workers : length (workers st) = length targets;
  di_results : length (results st) = length targets;
  di_slots : semaphore st = countb holds_slot (workers st);
  di_bound : semaphore st <= max;
  di_worker : forall i w t, workers st !! i = Some w -> targets !! i = Some t -> worker_inv steps i t w (results st !! i);
  di_rank : Z.of_nat (length (List.filter progress steps)) + rank_sum (workers st) <= 9 * Z.of_nat (length targets)
}.

Lemma rank_sum_insert ws i w w' : ws !! i = Some w -> rank_sum (<[i := w']> ws) = rank_sum ws - rank w + rank w'.
Proof.
  revert i. induction ws as [|w0 ws IH]; intros [|i] H; simplify_eq/=; [lia|]. rewrite (IH i H). lia.
Qed.

Lemma rank_nonneg ws : 0 <= rank_sum ws.
Proof. induction ws as [|w ws IH]; simpl; [lia|]. destruct w as [|[]| |]; simpl; lia. Qed.

Lemma rank_sum_started : rank_sum ((fun _ => Selecting) <$> targets) = 9 * Z.of_nat (length targets).
Proof.
  induction targets as [|t ts IH]; [done|]. rewrite fmap_cons, length_cons.
  change (rank_sum (Selecting :: ?l)) with (9 + rank_sum l). rewrite IH. lia.
Qed.

Lemma inv_started : 0 <= max -> dist_inv [] (started targets).
Proof.
  intros Hmax. split; simpl; rewrite ?length_fmap; try done.
  - symmetry. apply countb_zero. by intros w (t & -> & _)%list_elem_of_fmap.
  - intros i w t Hw Ht. rewrite list_lookup_fmap, Ht in Hw. injection Hw as <-. rewrite list_lookup_fmap, Ht.
    split; [done|]. apply not_elem_of_nil.
  - rewrite rank_sum_started. lia.
Qed.

(** A step of the goroutine [i] that says nothing about the others. *)
Lemma inv_move steps st e i w w' t sem' results' :
  dist_inv steps st -> workers st !! i = Some w -> targets !! i = Some t ->
  (forall j, j <> i -> e <> CertificateUpdated j true) -> progress e = true ->
  length results' = length (results st) -> (forall j, j <> i -> results' !! j = results st !! j) ->
  sem' = semaphore st - b2z (holds_slot w) + b2z (holds_slot w') -> sem' <= max -> rank w' + 1 <= rank w ->
  worker_inv (steps ++ [e]) i t w' (results' !! i) ->
  dist_inv (steps ++ [e]) (mkDistribution (<[i := w']> (workers st)) sem' results' (ctx_done st)).
Proof.
  intros [H1 H2 H3 H4 H5 H6] Hw Ht He Hp Hl Hr Hs Hb Hrank Hi. split; simpl.
  - by rewrite length_insert.
  - congruence.
  - rewrite (countb_insert _ _ _ _ _ Hw). lia.
  - done.
  - intros j w0 t0 Hw0 Ht0. destruct (decide (j = i)) as [->|Hj].
    + rewrite list_lookup_insert_eq in Hw0 by (by eapply lookup_lt_Some). injection Hw0 as <-.
      assert (t0 = t) as -> by congruence. done.
    + rewrite list_lookup_insert_ne in Hw0 by done. rewrite Hr by done. specialize (H5 j w0 t0 Hw0 Ht0).
      assert (CertificateUpdated j true ∈ steps ++ [e] <-> CertificateUpdated j true ∈ steps) as Hin.
      { rewrite elem_of_app, list_elem_of_singleton. specialize (He j Hj). naive_solver. }
      unfold worker_inv, settled in *. destruct w0; setoid_rewrite Hin; done.
  - rewrite List.filter_app, length_app, (rank_sum_insert _ _ _ _ Hw). simpl. rewrite Hp. simpl. lia.
Qed.

Lemma inv_cancel steps st :
  dist_inv steps st -> dist_inv (steps ++ [Cancel]) (mkDistribution (workers st) (semaphore st) (results st) true).
Proof.
  intros [H1 H2 H3 H4 H5 H6]. split; simpl; [done..| |].
  - intros i w t Hw Ht. specialize (H5 i w t Hw Ht).
    assert (CertificateUpdated i true ∈ steps ++ [Cancel] <-> CertificateUpdated i true ∈ steps) as Hin.
    { rewrite elem_of_app, list_elem_of_singleton. naive_solver. }
    unfold worker_inv, settled in *. destruct w; setoid_rewrite Hin; done.
  - rewrite List.filter_app, length_app. simpl. lia.
Qed.

Lemma settled_now steps e i t res rs :
  CertificateUpdated i true ∉ steps -> (i < length rs)%nat -> dres_Target res = t ->
  (dres_Status res = DistributionSucceeded <-> e = CertificateUpdated i true) ->
  settled (steps ++ [e]) i t (<[i := Some res]> rs !! i).
Proof.
  intros Hn Hi Ht Hs. exists res. rewrite list_lookup_insert_eq by done. split_and!; [done..|].
  rewrite elem_of_app, list_elem_of_singleton. naive_solver.
Qed.

Lemma settled_later steps e i t r : e <> CertificateUpdated i true -> settled steps i t r -> settled (steps ++ [e]) i t r.
Proof.
  intros He (res & -> & Ht & Hs). exists res. split_and!; [done..|]. rewrite Hs, elem_of_app, list_elem_of_singleton. naive_solver.
Qed.

Lemma not_updated_snoc steps e i :
  CertificateUpdated i true ∉ steps -> e <> CertificateUpdated i true -> CertificateUpdated i true ∉ steps ++ [e].
Proof. rewrite elem_of_app, list_elem_of_singleton. naive_solver. Qed.

(** A step that assigns the result of the goroutine. *)
Lemma inv_settles steps st e i w t res ds :
  dist_inv steps st -> workers st !! i = Some w -> targets !! i = Some t ->
  (w = Selecting \/ exists j, w = Running j) -> holds_slot (Unwinding ds) = holds_slot w -> ds `suffix_of` pending Updating ->
  rank (Unwinding ds) + 1 <= rank w -> (forall j, j <> i -> e <> CertificateUpdated j true) -> progress e = true ->
  dres_Target res = t -> (dres_Status res = DistributionSucceeded <-> e = CertificateUpdated i true) ->
  dist_inv (steps ++ [e]) (settles st i res ds).
Proof.
  intros Hinv Hw Ht Hwait Hslot Hds Hrank He Hp Hres Hiff. pose proof (di_bound _ _ Hinv).
  eapply inv_move; try done.
  - by rewrite length_insert.
  - intros j Hj. by rewrite list_lookup_insert_ne.
  - rewrite Hslot. lia.
  - split; [done|]. apply settled_now; [|rewrite (di_results _ _ Hinv); by eapply lookup_lt_Some|done..].
    pose proof (di_worker _ _ Hinv i w t Hw Ht) as Hi. destruct Hwait as [->|[j ->]]; apply Hi.
Qed.

(** A step from one running state to the next. *)
Lemma inv_goes_on steps st e i j j' t :
  dist_inv steps st -> workers st !! i = Some (Running j) -> targets !! i = Some t ->
  rank (Running j') + 1 <= rank (Running j) -> (forall k, e <> CertificateUpdated k true) -> progress e = true ->
  dist_inv (steps ++ [e]) (goes_on st i (Running j')).
Proof.
  intros Hinv Hw Ht Hrank He Hp. pose proof (di_bound _ _ Hinv). eapply inv_move; try (done || (simpl; lia)).
  destruct (di_worker _ _ Hinv i _ t Hw Ht). split; [done|]. by apply not_updated_snoc.
Qed.

Lemma inv_step steps st e st' : dist_inv steps st -> dist_exec max targets st e = Some st' -> dist_inv (steps ++ [e]) st'.
Proof.
  intros Hinv He. pose proof (di_bound _ _ Hinv) as Hb.
  destruct e as [i|i|i ok|i ok|i ok|i|i|]; cbn [dist_exec] in He; [..|injection He as <-; by apply inv_cancel];
    (destruct (targets !! i) as [t|] eqn:Ht; [|done]); (destruct (workers st !! i) as [w|] eqn:Hw; [|done]); simpl in He;
    pose proof (di_worker _ _ Hinv i w t Hw Ht) as Hi.
  - destruct w; try done. destruct (Z.ltb_spec (semaphore st) max); [|done]. injection He as <-.
    eapply inv_move; try (done || (simpl; lia)). destruct Hi. split; [done|]. by apply not_updated_snoc.
  - destruct w; try done. destruct (ctx_done st); [|done]. injection He as <-.
    eapply inv_settles; try done; [by left|apply suffix_nil].
  - destruct w as [|[]| |]; try done. destruct ok; injection He as <-; [by eapply inv_goes_on|].
    eapply inv_settles; try done; [right; by eexists|by exists [DestroyInstaller; CloseConnection]].
  - destruct w as [|[]| |]; try done. destruct ok; injection He as <-; [by eapply inv_goes_on|].
    eapply inv_settles; try done; [right; by eexists|by exists [DestroyInstaller]].
  - destruct w as [|[]| |]; try done. injection He as <-.
    eapply inv_settles; try done; [right; by eexists| |by destruct ok|by destruct ok].
    intros j Hj [=]. done.
  - destruct w as [| |[|d ds]|]; try done. injection He as <-. destruct Hi as [[pre Hsuf] Hset].
    assert (b2z (holds_slot (Unwinding (d :: ds))) = b2z (holds_slot (Unwinding ds)) + match d with ReleaseSlot => 1 | _ => 0 end) as Hslot.
    { assert (d :: ds ∈ [[ReleaseSlot]; [DestroyCopy; ReleaseSlot]; [CloseConnection; DestroyCopy; ReleaseSlot]; pending Updating]) as Hin.
      { rewrite !elem_of_cons. destruct pre as [|? [|? [|? [|? [|? pre]]]]]; simplify_eq/=; auto. }
      rewrite !elem_of_cons, elem_of_nil in Hin. by destruct_or! Hin; simplify_eq/=. }
    eapply inv_move; try (done || (destruct d; lia) || (simpl; lia)).
    split; [exists (pre ++ [d]); by rewrite <-app_assoc|by apply settled_later].
  - destruct w as [| |[|d ds]|]; try done. injection He as <-. destruct Hi as [_ Hset].
    eapply inv_move; try (done || (simpl; lia)). by apply settled_later.
Qed.

Lemma inv_run steps st es st' : dist_inv steps st -> dist_run max targets st es = Some st' -> dist_inv (steps ++ es) st'.
Proof.
  revert steps st. induction es as [|e es IH]; simpl; intros steps st Hinv Hr.
  - injection Hr as <-. by rewrite app_nil_r.
  - destruct (dist_exec max targets st e) as [st1|] eqn:He; [|done].
    replace (steps ++ e :: es) with ((steps ++ [e]) ++ es) by by rewrite <-app_assoc.
    eapply IH; [by eapply inv_step|done].
Qed.

Definition busy (w : worker) : bool := match w with Running _ | Unwinding _ => true | _ => false end.

(** Some goroutine can go on, whatever the Nodes answer. *)
Lemma dist_progress steps st :
  0 < max -> dist_inv steps st -> waited st = false ->
  exists e st', progress e = true /\ dist_exec max targets st e = Some st'.
Proof.
  intros Hmax Hinv Hw.
  assert (forall i w, workers st !! i = Some w -> exists t, targets !! i = Some t) as Htarget.
  { intros i w Hi. apply lookup_lt_is_Some_2. rewrite <-(di_workers _ _ Hinv). by eapply lookup_lt_Some. }
  destruct (existsb busy (workers st)) eqn:Hbusy.
  - apply existsb_elem_of in Hbusy as (w & [i Hi]%list_elem_of_lookup & Hbusy). destruct (Htarget i w Hi) as [t Ht].
    destruct w as [|[]|[|d ds]|]; try done.
    + exists (Connected i true). cbn [dist_exec]. rewrite Ht, Hi. simpl. eauto.
    + exists (InstallerMade i true). cbn [dist_exec]. rewrite Ht, Hi. simpl. eauto.
    + exists (CertificateUpdated i true). cbn [dist_exec]. rewrite Ht, Hi. simpl. eauto.
    + exists (WorkerDone i). cbn [dist_exec]. rewrite Ht, Hi. simpl. eauto.
    + exists (RunDeferred i). cbn [dist_exec]. rewrite Ht, Hi. simpl. eauto.
  - rewrite existsb_false in Hbusy. rename Hbusy into Hidle.
    assert (semaphore st = 0) as Hz.
    { rewrite (di_slots _ _ Hinv). apply countb_zero. intros w Hin. by specialize (Hidle w Hin); destruct w. }
    assert (exists i, workers st !! i = Some Selecting) as [i Hi].
    { destruct (decide (Selecting ∈ workers st)) as [Hin|Hn]; [by apply list_elem_of_lookup in Hin|].
      exfalso. assert (waited st = true); [|congruence]. apply forallb_elem_of. intros w Hin. specialize (Hidle w Hin). by destruct w. }
    destruct (Htarget i _ Hi) as [t Ht]. exists (AcquireSlot i). cbn [dist_exec]. rewrite Ht, Hi. simpl.
    destruct (Z.ltb_spec (semaphore st) max); [eauto|lia].
Qed.

Lemma owes_slots steps st d : dist_inv steps st -> countb (owes d) (workers st) <= countb holds_slot (workers st).
Proof.
  intros Hinv. apply countb_le. intros w [i Hi]%list_elem_of_lookup Ho.
  destruct w as [|j|ds|]; try done. destruct (lookup_lt_is_Some_2 targets i) as [t Ht].
  { rewrite <-(di_workers _ _ Hinv). by eapply lookup_lt_Some. }
  destruct (di_worker _ _ Hinv i _ t Hi Ht) as [[pre Hsuf] _]. apply bool_decide_eq_true in Ho. apply bool_decide_eq_true.
  destruct ds as [|d0 ds] using rev_ind; [by apply not_elem_of_nil in Ho|]. rewrite app_assoc in Hsuf.
  change (pending Updating) with ([DestroyInstaller; CloseConnection; DestroyCopy] ++ [ReleaseSlot]) in Hsuf.
  apply app_inj_tail in Hsuf as [_ <-]. apply elem_of_app. right. by left.
Qed.

Lemma finished_results steps st :
  dist_inv steps st -> (forall w, w ∈ workers st -> w = Finished) ->
  exists rs, results st = Some <$> rs /\ dres_Target <$> rs = targets /\
    forall i r, rs !! i = Some r -> (dres_Status r = DistributionSucceeded <-> CertificateUpdated i true ∈ steps).
Proof.
  intros Hinv Hfin.
  assert (forall i t, targets !! i = Some t -> settled steps i t (results st !! i)) as Hset.
  { intros i t Ht. destruct (lookup_lt_is_Some_2 (workers st) i) as [w Hw].
    { rewrite (di_workers _ _ Hinv). by eapply lookup_lt_Some. }
    pose proof (di_worker _ _ Hinv i w t Hw Ht) as H. assert (w = Finished) as -> by (by eapply Hfin, list_elem_of_lookup_2). done. }
  assert (exists rs, results st = Some <$> rs) as [rs Hrs].
  { apply all_Some. intros r [i Hi]%list_elem_of_lookup. destruct (lookup_lt_is_Some_2 targets i) as [t Ht].
    { rewrite <-(di_results _ _ Hinv). by eapply lookup_lt_Some. }
    destruct (Hset i t Ht) as (res & Hr & _). rewrite Hi in Hr. injection Hr as ->. by eexists. }
  exists rs. split; [done|].
  assert (forall i, (results st !! i) = Some <$> (rs !! i)) as Hl by (intros i; by rewrite Hrs, list_lookup_fmap).
  assert (length rs = length targets) as Hlen by (rewrite <-(di_results _ _ Hinv), Hrs; by rewrite length_fmap).
  split.
  - apply list_eq. intros i. rewrite list_lookup_fmap. destruct (targets !! i) as [t|] eqn:Ht.
    + destruct (Hset i t Ht) as (res & Hr & Htgt & _). rewrite Hl in Hr. destruct (rs !! i); [|done]. simpl in *. congruence.
    + apply lookup_ge_None in Ht. rewrite (lookup_ge_None_2 rs) by lia. done.
  - intros i r Hi. destruct (lookup_lt_is_Some_2 targets i) as [t Ht].
    { rewrite <-Hlen. by eapply lookup_lt_Some. }
    destruct (Hset i t Ht) as (res & Hr & _ & Hiff). rewrite Hl, Hi in Hr. by injection Hr as <-.
Qed.
End Distribute.

Lemma NewSSHDistributor_bounds ssh c c' : NewSSHDistributor ssh c = Ok c' -> 1 <= sd_MaxConcurrent c' <= 32.
Proof.
  unfold NewSSHDistributor. destruct (_ || _); [done|]. cbn [sd_MaxConcurrent].
  destruct (Z.leb_spec (sd_MaxConcurrent c) 0) as [H1|H1].
  - intros [= <-]. simpl. lia.
  - destruct (Z.ltb_spec 32 (sd_MaxConcurrent c)) as [H2|H2]; [done|]. intros [= <-]. simpl. lia.
Qed.

(** C28. [SSHDistributor.Distribute], under every interleaving of its
    goroutines, every answer of the Nodes and a cancellation at any time: at
    most [MaxConcurrent] goroutines hold a slot, a connection or a copy of
    the private key; it cannot get stuck, and ends after at most nine steps
    per target; when it ends every slot was given back, nothing is left to
    release, and the results are one per target, in the order of the targets,
    successful exactly for the Nodes whose certificate was updated. *)
Theorem distribution_is_bounded_and_complete ssh config0 config targets steps st :
  NewSSHDistributor ssh config0 = Ok config ->
  dist_run (sd_MaxConcurrent config) targets (started targets) steps = Some st ->
  1 <= sd_MaxConcurrent config <= 32 /\
  (forall d, countb (owes d) (workers st) <= sd_MaxConcurrent config) /\
  Z.of_nat (length (List.filter progress steps)) <= 9 * Z.of_nat (length targets) /\
  (waited st = false -> exists e st', progress e = true /\
     dist_exec (sd_MaxConcurrent config) targets st e = Some st') /\
  (waited st = true ->
     semaphore st = 0 /\ (forall d, countb (owes d) (workers st) = 0) /\
     exists rs, results st = Some <$> rs /\ dres_Target <$> rs = targets /\
       forall i r, rs !! i = Some r -> (dres_Status r = DistributionSucceeded <-> CertificateUpdated i true ∈ steps)).
Proof.
  intros Hc Hr. assert (1 <= sd_MaxConcurrent config <= 32) as Hmax by (by eapply NewSSHDistributor_bounds).
  assert (dist_inv (sd_MaxConcurrent config) targets steps st) as Hinv.
  { eapply (inv_run _ _ []); [|exact Hr]. apply inv_started. lia. }
  split; [done|]. split; [|split; [|split]].
  - intros d. etrans; [|apply (di_bound _ _ _ _ Hinv)]. rewrite (di_slots _ _ _ _ Hinv). by eapply owes_slots.
  - pose proof (di_rank _ _ _ _ Hinv). pose proof (rank_nonneg (workers st)). lia.
  - eapply dist_progress; [lia|done].
  - intros Hw. unfold waited in Hw. rewrite forallb_elem_of in Hw.
    assert (forall w, w ∈ workers st -> w = Finished) as Hfin by (intros w Hin; specialize (Hw w Hin); by destruct w).
    split; [|split].
    + rewrite (di_slots _ _ _ _ Hinv). apply countb_zero. intros w ->%Hfin. done.
    + intros d. apply countb_zero. intros w ->%Hfin. done.
    + by eapply finished_results.
Qed.

(** *** A run with two Nodes and one slot, the second one refusing *)
Definition example_targets : list Target := [mkTarget "d1" (Addr4 1); mkTarget "d2" (Addr4 2)].
Definition example_dist_config : SSHDistributorConfig := mkSSHDistributorConfig "https://example.org/repo" "main" 0 1.
Definition example_steps : list dist_step :=
  [AcquireSlot 1; Connected 1 true; InstallerMade 1 true; CertificateUpdated 1 true;
   RunDeferred 1; RunDeferred 1; RunDeferred 1; RunDeferred 1; AcquireSlot 0; WorkerDone 1;
   Connected 0 false; RunDeferred 0; RunDeferred 0; WorkerDone 0].

Definition example_dist_ready : SSHDistributorConfig := mkSSHDistributorConfig "https://example.org/repo" "main" 300000000000 1.
Definition example_dist_end : distribution := mkDistribution [Finished; Finished] 0
  [Some (mkDistributionResult (mkTarget "d1" (Addr4 1)) DistributionFailed "Could not connect to Node");
   Some (mkDistributionResult (mkTarget "d2" (Addr4 2)) DistributionSucceeded "Certificate activated")] false.

Lemma example_dist_accepted : NewSSHDistributor true example_dist_config = Ok example_dist_ready.
Proof. by vm_compute. Qed.
Lemma example_dist_run : dist_run (sd_MaxConcurrent example_dist_ready) example_targets (started example_targets) example_steps = Some example_dist_end.
Proof. by vm_compute. Qed.

Lemma distribution_is_bounded_and_complete_witness :
  dist_run (sd_MaxConcurrent example_dist_ready) example_targets (started example_targets) example_steps = Some example_dist_end /\
  waited example_dist_end = true /\ semaphore example_dist_end = 0 /\
  (forall d, countb (owes d) (workers example_dist_end) = 0).
Proof.
  split; [exact example_dist_run|]. split; [reflexivity|].
  pose proof (distribution_is_bounded_and_complete true example_dist_config example_dist_ready example_targets example_steps
    example_dist_end example_dist_accepted example_dist_run) as (_ & _ & _ & _ & H).
  destruct (H eq_refl) as (Hs & Hd & _). split; [exact Hs|exact Hd].
Defined.
