(* ===== verification/CertFiles.v ===== *)
(** * The certificate files ([internal/certmanager/filestore.go], [fallback_store.go])

    The version store over a small model of the file system: the directory of
    a domain holds version directories, temporary entries and the marker
    [current].  Every operating system call may fail, a write may stop
    half-way, and the process may be killed between any two calls; the bytes
    of a completed call survive.  The theorems show what a reader finds
    whatever happened. *)

From S2P Require Import Prelude GoStrings GoText Effects Deployment CertTypes CertStore CertManager.

#[local] Open Scope Z_scope.

(** ** Bytes *)
Definition bytes_of (s : string) : list Z := byte_of <$> String.list_ascii_of_string s.
Definition text_of (l : list Z) : string := String.string_of_list_ascii (of_byte <$> l).

(** ** The file system below the root of the store *)
Record file : Type := mkFile { f_data : list Z; f_mode : Z }.
Inductive entry : Type :=
  | EFile (f : file)
  | EDir (mode : Z) (files : gmap string file).
Record domain_dir : Type := mkDomainDir { dd_mode : Z; dd_entries : gmap string entry }.
Notation fs := (gmap string domain_dir).

(** Paths as [filepath.Join] builds them from the root; a domain and a version
    are single components (see [canonicalSNI] and [versionPattern]). *)
Inductive path : Type :=
  | PRoot
  | PDomain (domain : string)
  | PEntry (domain name : string)
  | PFile (domain name inner : string).

Inductive rename_answer : Type := Renamed | RenameNotExist | RenameFailed.
Inductive read_answer : Type := ReadData (data : list Z) | ReadNotExist | ReadFailed.
Record stat_info : Type := mkStat { st_IsDir : bool; st_Perm : Z }.

Inductive fsE : Type -> Type :=
  | FCtxErr : fsE bool
  | FAbs (root : string) : fsE (option string)
  | FRandom : fsE (option (list Z))
  | FUtcNow : fsE civil
  | FMkdirAll (p : path) (mode : Z) : fsE bool
  | FChmod (p : path) (mode : Z) : fsE bool
  | FMkdirTemp (domain prefix : string) : fsE (option string)
  | FCreateTemp (domain prefix : string) : fsE (option string)
  | FOpenExclusive (p : path) (mode : Z) : fsE bool
  | FWrite (p : path) (data : list Z) : fsE bool
  | FSync (p : path) : fsE bool
  | FClose (p : path) : fsE bool
  | FRename (domain source target : string) : fsE rename_answer
  | FRemove (domain name : string) : fsE unit
  | FRemoveAll (domain name : string) : fsE unit
  | FStat (p : path) : fsE (option stat_info)
  | FReadFile (p : path) : fsE read_answer.

(** *** Its state *)
Definition look (s : fs) (d n : string) : option entry := dd ← s !! d; dd_entries dd !! n.

Definition put (s : fs) (d n : string) (e : option entry) : fs :=
  alter (fun dd => mkDomainDir (dd_mode dd) (partial_alter (fun _ => e) n (dd_entries dd))) d s.

Definition get_file (s : fs) (p : path) : option file :=
  match p with
  | PEntry d n => match look s d n with Some (EFile f) => Some f | _ => None end
  | PFile d n i => match look s d n with Some (EDir _ files) => files !! i | _ => None end
  | _ => None
  end.

Definition set_file (s : fs) (p : path) (f : file) : fs :=
  match p with
  | PEntry d n => put s d n (Some (EFile f))
  | PFile d n i =>
    match look s d n with Some (EDir mode files) => put s d n (Some (EDir mode (<[i := f]> files))) | _ => s end
  | _ => s
  end.

Definition chmod (s : fs) (p : path) (mode : Z) : fs :=
  match p with
  | PRoot => s
  | PDomain d => alter (fun dd => mkDomainDir mode (dd_entries dd)) d s
  | PEntry d n =>
    match look s d n with
    | Some (EFile f) => put s d n (Some (EFile (mkFile (f_data f) mode)))
    | Some (EDir _ files) => put s d n (Some (EDir mode files))
    | None => s
    end
  | PFile d n i => match get_file s p with Some f => set_file s p (mkFile (f_data f) mode) | None => s end
  end.

Definition mkdir (s : fs) (p : path) (mode : Z) : fs :=
  match p with
  | PDomain d => match s !! d with Some _ => s | None => <[d := mkDomainDir mode ∅]> s end
  | _ => s
  end.

Definition can_replace (source target : option entry) : Prop :=
  match source, target with
  | Some (EFile _), (None | Some (EFile _)) => True
  | Some (EDir _ _), None => True
  | Some (EDir _ _), Some (EDir _ files) => files = ∅
  | _, _ => False
  end.

Definition stat_of (s : fs) (p : path) : option stat_info :=
  match p with
  | PEntry d n =>
    match look s d n with
    | Some (EFile f) => Some (mkStat false (f_mode f))
    | Some (EDir mode _) => Some (mkStat true mode)
    | None => None
    end
  | PFile _ _ _ => (fun f => mkStat false (f_mode f)) <$> get_file s p
  | _ => None
  end.

(** What [os.RemoveAll] may leave when it stops early. *)
Definition less_than (e e' : option entry) : Prop :=
  match e, e' with
  | _, None => True
  | Some (EDir m files), Some (EDir m' files') => m' = m /\ files' ⊆ files
  | _, _ => e' = e
  end.

Definition valid_civil (t : civil) : Prop :=
  0 <= c_year t <= 9999 /\ 1 <= c_month t <= 12 /\ 1 <= c_day t <= 31 /\
  0 <= c_hour t <= 23 /\ 0 <= c_minute t <= 59 /\ 0 <= c_second t <= 59.

(** The calls of the operating system under the process's umask.  [reliable]
    says that a rename that can succeed does. *)
Section FileSystem.
Context (umask : Z) (reliable : bool).

Definition masked (mode : Z) : Z := Z.ldiff mode umask.

#[export] Instance file_system : Env fsE fs | 10 := fun X e s =>
  match e in fsE X return X -> fs -> Prop with
  | FCtxErr | FAbs _ => fun _ s' => s' = s
  | FRandom => fun r s' => s' = s /\
      match r with Some l => length l = 4%nat /\ Forall (fun b => 0 <= b < 256) l | None => True end
  | FUtcNow => fun t s' => s' = s /\ valid_civil t
  | FMkdirAll p mode => fun ok s' => s' = if (ok : bool) then mkdir s p (masked mode) else s
  | FChmod p mode => fun ok s' => s' = if (ok : bool) then chmod s p mode else s
  | FMkdirTemp d prefix => fun r s' =>
      match r with
      | None => s' = s
      | Some name => is_Some (s !! d) /\ look s d name = None /\ HasPrefix name prefix = true /\
          s' = put s d name (Some (EDir (masked 448) ∅))
      end
  | FCreateTemp d prefix => fun r s' =>
      match r with
      | None => s' = s
      | Some name => is_Some (s !! d) /\ look s d name = None /\ HasPrefix name prefix = true /\
          s' = put s d name (Some (EFile (mkFile [] (masked 384))))
      end
  | FOpenExclusive p mode => fun ok s' =>
      if (ok : bool) then get_file s p = None /\ s' = set_file s p (mkFile [] (masked mode)) else s' = s
  | FWrite p data => fun ok s' =>
      match get_file s p with
      | Some f => exists k, s' = set_file s p (mkFile (f_data f ++ take k data) (f_mode f)) /\
                            (ok = true -> (length data <= k)%nat)
      | None => s' = s
      end
  | FSync _ | FClose _ => fun _ s' => s' = s
  | FRename d source target => fun r s' =>
      match r with
      | Renamed => can_replace (look s d source) (look s d target) /\
          s' = put (put s d source None) d target (look s d source)
      | RenameNotExist => look s d source = None /\ s' = s
      | RenameFailed => s' = s /\ (reliable = true -> ~ can_replace (look s d source) (look s d target))
      end
  | FRemove d name => fun _ s' =>
      s' = s \/ (match look s d name with Some (EDir _ files) => files = ∅ | _ => True end) /\ s' = put s d name None
  | FRemoveAll d name => fun _ s' => exists e, less_than (look s d name) e /\ s' = put s d name e
  | FStat p => fun r s' => s' = s /\ (r = None \/ r = stat_of s p)
  | FReadFile p => fun r s' => s' = s /\
      match r with
      | ReadData data => exists f, get_file s p = Some f /\ f_data f = data
      | ReadNotExist => get_file s p = None
      | ReadFailed => True
      end
  end.
End FileSystem.

(** ** Names *)
Definition fullchainName : string := "fullchain.pem".
Definition privateKeyName : string := "privkey.pem".
Definition currentName : string := "current".

(** [versionPattern]: the classes of the bytes of a version, in order. *)
Definition is_hex (a : ascii) : bool := byte_in 48 57 a || byte_in 97 102 a.

Definition version_classes : list (ascii -> bool) :=
  [Ascii.eqb "v"; Ascii.eqb "-"] ++ replicate 8 is_digit ++ [Ascii.eqb "T"] ++ replicate 6 is_digit ++
  [Ascii.eqb "Z"; Ascii.eqb "-"] ++ replicate 8 is_hex.

Fixpoint match_classes (classes : list (ascii -> bool)) (s : string) : bool :=
  match classes, s with
  | [], EmptyString => true
  | f :: classes', String a s' => f a && match_classes classes' s'
  | _, _ => false
  end.

Definition versionPattern (s : string) : bool := match_classes version_classes s.

(** [Format("20060102T150405Z")]. *)
Definition Format (t : civil) : string :=
  two (c_year t / 100) +:+ two (c_year t mod 100) +:+ two (c_month t) +:+ two (c_day t) +:+ "T" +:+
  two (c_hour t) +:+ two (c_minute t) +:+ two (c_second t) +:+ "Z".

(** ** The store *)
Notation F := (prog fsE).

Definition stored (message : string) : certErr := safe message (CertSentinel ErrStorageFailed).

(** [NewFileStore]: the absolute root. *)
Definition NewFileStore (root : string) : F (result certErr string) :=
  let root := TrimSpace root in
  if String.eqb root "" then mret (Err (CertSentinel ErrInvalidInput))
  else
    absolute ← call (FAbs root);
    match absolute with
    | None => mret (Err (stored "Certificate store path is invalid"))
    | Some absolute =>
      made ← call (FMkdirAll PRoot 448);
      if negb made then mret (Err (stored "Certificate store is unavailable"))
      else
        protected ← call (FChmod PRoot 448);
        mret (if (protected : bool) then Ok absolute else Err (stored "Certificate store permissions could not be protected"))
    end.

Definition writeExclusive (p : path) (value : list Z) (mode : Z) : F (option certErr) :=
  opened ← call (FOpenExclusive p mode);
  if negb opened then mret (Some (stored "Certificate version file could not be created"))
  else
    written ← call (FWrite p value);
    if negb written then _ ← call (FClose p); mret (Some (stored "Certificate version file could not be written"))
    else
      synced ← call (FSync p);
      if negb synced then _ ← call (FClose p); mret (Some (stored "Certificate version file could not be synchronized"))
      else
        closed ← call (FClose p);
        mret (if (closed : bool) then None else Some (stored "Certificate version file could not be closed")).

(** From the temporary directory to the version; the deferred removal is in
    [Stage]. *)
Definition fill_stage (domain temporary version : string) (material : Material) : F (option certErr) :=
  protected ← call (FChmod (PEntry domain temporary) 448);
  if negb protected then mret (Some (stored "Certificate staging permissions failed"))
  else
    writeExclusive (PFile domain temporary fullchainName) (FullchainPEM material) 420 ;;?
    writeExclusive (PFile domain temporary privateKeyName) (PrivateKeyPEM material) 384 ;;?
    (cancelled ← call FCtxErr;
     if (cancelled : bool) then mret (Some ForeignError)
     else
       renamed ← call (FRename domain temporary version);
       match renamed with
       | Renamed => mret None
       | _ => mret (Some (stored "Certificate version could not be committed"))
       end).

Definition Stage (sni : string) (material : Material) : F (result certErr string) :=
  cancelled ← call FCtxErr;
  if (cancelled : bool) then mret (Err ForeignError)
  else
    match canonicalSNI sni with
    | Err e => mret (Err e)
    | Ok domain =>
      suffix ← call FRandom;
      match suffix with
      | None => mret (Err (stored "Certificate version could not be generated"))
      | Some suffix =>
        now ← call FUtcNow;
        let version := "v-" +:+ Format now +:+ "-" +:+ hex_encode suffix in
        made ← call (FMkdirAll (PDomain domain) 448);
        if negb made then mret (Err (stored "Certificate domain storage is unavailable"))
        else
          protected ← call (FChmod (PDomain domain) 448);
          if negb protected then mret (Err (stored "Certificate domain storage is not protected"))
          else
            temporary ← call (FMkdirTemp domain ".stage-");
            match temporary with
            | None => mret (Err (stored "Certificate version could not be staged"))
            | Some temporary =>
              filled ← fill_stage domain temporary version material;
              match filled with
              | Some e => _ ← call (FRemoveAll domain temporary); mret (Err e)
              | None => mret (Ok version)
              end
            end
      end
    end.

Section GOOS.
(** [runtime.GOOS == "windows"]. *)
Context (windows : bool).

(** The permission bits a private key must not have: group and others. *)
Definition load_files (domain version : string) : F (result certErr Material) :=
  fullchain ← call (FReadFile (PFile domain version fullchainName));
  match fullchain with
  | ReadData fullchain =>
    privateKey ← call (FReadFile (PFile domain version privateKeyName));
    match privateKey with
    | ReadData privateKey => mret (Ok (mkMaterial fullchain privateKey))
    | _ => mret (Err (stored "Certificate version is unavailable"))
    end
  | _ => mret (Err (stored "Certificate version is unavailable"))
  end.

Definition Load (sni version : string) : F (result certErr Material) :=
  cancelled ← call FCtxErr;
  if (cancelled : bool) then mret (Err ForeignError)
  else
    match canonicalSNI sni with
    | Err _ => mret (Err (CertSentinel ErrInvalidInput))
    | Ok domain =>
      if negb (versionPattern version) then mret (Err (CertSentinel ErrInvalidInput))
      else if windows then load_files domain version
      else
        info ← call (FStat (PFile domain version privateKeyName));
        match info with
        | Some info =>
          if negb (st_IsDir info) && (Z.land (st_Perm info) 63 =? 0) then load_files domain version
          else mret (Err (stored "Certificate private key permissions are unsafe"))
        | None => mret (Err (stored "Certificate private key permissions are unsafe"))
        end
    end.
End GOOS.

Definition ActiveVersion (sni : string) : F (result certErr string) :=
  cancelled ← call FCtxErr;
  if (cancelled : bool) then mret (Err ForeignError)
  else
    match canonicalSNI sni with
    | Err e => mret (Err e)
    | Ok domain =>
      value ← call (FReadFile (PEntry domain currentName));
      match value with
      | ReadNotExist => mret (Err (CertSentinel ErrNotFound))
      | ReadFailed => mret (Err (stored "Active certificate marker is unavailable"))
      | ReadData value =>
        let version := TrimSpace (text_of value) in
        mret (if versionPattern version then Ok version else Err (stored "Active certificate marker is invalid"))
      end
    end.

(** [replaceFile]: whether the target is the source now. *)
Definition backupName : string := currentName +:+ ".previous".

Definition replaceFile (domain source : string) : F bool :=
  renamed ← call (FRename domain source currentName);
  match renamed with
  | Renamed => mret true
  | _ =>
    _ ← call (FRemove domain backupName);
    moved ← call (FRename domain currentName backupName);
    match moved with
    | RenameFailed => mret false
    | _ =>
      renamed ← call (FRename domain source currentName);
      match renamed with
      | Renamed => _ ← call (FRemove domain backupName); mret true
      | _ => _ ← call (FRename domain backupName currentName); mret false
      end
    end
  end.

(** From the temporary marker to the marker; the deferred removal of the
    temporary name is in [Activate]. *)
Definition write_marker (domain temporary version : string) : F (option certErr) :=
  let p := PEntry domain temporary in
  protected ← call (FChmod p 384);
  if negb protected then _ ← call (FClose p); mret (Some (stored "Active certificate marker permissions failed"))
  else
    written ← call (FWrite p (bytes_of (version +:+ String chr_nl EmptyString)));
    if negb written then _ ← call (FClose p); mret (Some (stored "Active certificate marker could not be written"))
    else
      synced ← call (FSync p);
      if negb synced then _ ← call (FClose p); mret (Some (stored "Active certificate marker could not be synchronized"))
      else
        closed ← call (FClose p);
        if negb closed then mret (Some (stored "Active certificate marker could not be closed"))
        else
          cancelled ← call FCtxErr;
          if (cancelled : bool) then mret (Some ForeignError)
          else
            replaced ← replaceFile domain temporary;
            mret (if (replaced : bool) then None else Some (stored "Active certificate marker could not be replaced")).

Definition Activate (sni version : string) : F (option certErr) :=
  cancelled ← call FCtxErr;
  if (cancelled : bool) then mret (Some ForeignError)
  else
    match canonicalSNI sni with
    | Err _ => mret (Some (CertSentinel ErrInvalidInput))
    | Ok domain =>
      if negb (versionPattern version) then mret (Some (CertSentinel ErrInvalidInput))
      else
        info ← call (FStat (PEntry domain version));
        match info with
        | Some (mkStat true _) =>
          temporary ← call (FCreateTemp domain ".current-");
          match temporary with
          | None => mret (Some (stored "Active certificate marker could not be staged"))
          | Some temporary =>
            activated ← write_marker domain temporary version;
            _ ← call (FRemove domain temporary);
            mret activated
          end
        | _ => mret (Some (stored "Certificate version cannot be activated"))
        end
    end.

(** ** The interface of the manager ([Store]) and the two-layer store *)
Record Store (E : Type -> Type) : Type := mkStore {
  store_Stage : string -> Material -> prog E (result certErr string);
  store_Load : string -> string -> prog E (result certErr Material);
  store_ActiveVersion : string -> prog E (result certErr string);
  store_Activate : string -> string -> prog E (option certErr)
}.
Arguments mkStore {E}.
Arguments store_Stage {E} _ _ _.
Arguments store_Load {E} _ _ _.
Arguments store_ActiveVersion {E} _ _.
Arguments store_Activate {E} _ _ _.

Definition FallbackStore {E} (primary legacy : Store E) : Store E := mkStore
  (fun domain material => store_Stage primary domain material)
  (fun domain version =>
     value ← store_Load primary domain version;
     match value with
     | Ok m => mret (Ok m)
     | Err e =>
       if negb (cert_is e ErrStorageFailed) && negb (cert_is e ErrNoUsableCertificate) then mret (Err e)
       else store_Load legacy domain version
     end)
  (fun domain =>
     value ← store_ActiveVersion primary domain;
     match value with Ok v => mret (Ok v) | Err _ => store_ActiveVersion legacy domain end)
  (fun domain version => store_Activate primary domain version).

(** [NewFallbackStore]: both stores are interfaces, present or nil. *)
Definition NewFallbackStore {E} (primary legacy : option (Store E)) : result certErr (Store E) :=
  match primary, legacy with
  | Some primary, Some legacy => Ok (FallbackStore primary legacy)
  | _, _ => Err (CertSentinel ErrInvalidInput)
  end.

(** [FileStore] as the store of the manager. *)
Definition FileStore (windows : bool) : Store fsE := mkStore Stage (Load windows) ActiveVersion Activate.
