(* ===== verification/CertFilesFacts.v ===== *)
(** * What the certificate files survive

    Theorems about [CertFiles]: the invariant of the store in every state an
    interrupted call can leave, and what is read back after complete calls. *)

From stdpp Require Import list_numbers.
From S2P Require Import Prelude GoStrings GoText NetIPFacts Effects Deployment CertTypes CertStore CertManager CertFiles.

#[local] Open Scope Z_scope.

(** ** Entries of a directory *)
Lemma look_put s d n e d' n' :
  look (put s d n e) d' n' =
  if decide (d' = d /\ n' = n) then (if decide (is_Some (s !! d)) then e else None) else look s d' n'.
Proof.
  unfold look, put. destruct (decide (d' = d)) as [->|Hd].
  - rewrite lookup_alter_eq. destruct (s !! d) as [dd|] eqn:Hs; simpl.
    + destruct (decide (n' = n)) as [->|Hn].
      * rewrite lookup_partial_alter_eq, decide_True by done. done.
      * rewrite lookup_partial_alter_ne by done. rewrite decide_False by naive_solver. done.
    + by case_decide.
  - rewrite lookup_alter_ne by done. rewrite decide_False by naive_solver. done.
Qed.

Lemma look_put_eq s d n e x : look s d n = Some x -> look (put s d n e) d n = e.
Proof.
  intros H. rewrite look_put, decide_True by done. rewrite decide_True; [done|].
  unfold look in H. destruct (s !! d); [by eexists|done].
Qed.

Lemma look_put_new s d n e : is_Some (s !! d) -> look (put s d n e) d n = e.
Proof. intros H. rewrite look_put, !decide_True by done. done. Qed.

Lemma look_put_ne s d n e d' n' : d' <> d \/ n' <> n -> look (put s d n e) d' n' = look s d' n'.
Proof. intros H. rewrite look_put, decide_False by naive_solver. done. Qed.

Lemma look_mkdir s d mode d' n : look (mkdir s (PDomain d) mode) d' n = look s d' n.
Proof.
  unfold mkdir, look. destruct (s !! d) eqn:H; [done|]. destruct (decide (d' = d)) as [->|].
  - rewrite lookup_insert_eq, H. simpl. by rewrite lookup_empty.
  - by rewrite lookup_insert_ne.
Qed.

Lemma look_chmod_domain s d mode d' n : look (chmod s (PDomain d) mode) d' n = look s d' n.
Proof.
  unfold chmod, look. destruct (decide (d' = d)) as [->|].
  - rewrite lookup_alter_eq. by destruct (s !! d).
  - by rewrite lookup_alter_ne.
Qed.

(** ** The invariant *)
Definition marker_bytes (version : string) : list Z := bytes_of (version +:+ String chr_nl EmptyString).

Definition private_entry (e : option entry) : Prop :=
  match e with
  | Some (EDir _ files) => forall key, files !! privateKeyName = Some key -> Z.land (f_mode key) 63 = 0
  | _ => True
  end.

Definition complete (e : entry) : Prop :=
  exists mode files cert key, e = EDir mode files /\
    files !! fullchainName = Some cert /\ files !! privateKeyName = Some key.

Definition is_marker (n : string) : bool := String.eqb n currentName || String.eqb n backupName.

(** A version is a directory with both files, a marker is the whole text that
    names a version of the domain, and no private key is readable for others. *)
Record store_ok (s : fs) : Prop := mk_store_ok {
  so_complete : forall d v e, versionPattern v = true -> look s d v = Some e -> complete e;
  so_marker : forall d n e, is_marker n = true -> look s d n = Some e ->
    exists version mode, e = EFile (mkFile (marker_bytes version) mode) /\ versionPattern version = true /\
      is_Some (look s d version);
  so_private : forall d n, private_entry (look s d n)
}.

(** Names a reader looks at; everything else is temporary. *)
Definition visible (n : string) : bool := versionPattern n || is_marker n.

Lemma stage_prefix_invisible n : HasPrefix n ".stage-" = true -> visible n = false.
Proof. destruct n as [|a n]; [done|]. simpl. rewrite andb_true_iff, Ascii.eqb_eq. intros [Ha _]. by subst a. Qed.

Lemma current_prefix_invisible n : HasPrefix n ".current-" = true -> visible n = false.
Proof. destruct n as [|a n]; [done|]. simpl. rewrite andb_true_iff, Ascii.eqb_eq. intros [Ha _]. by subst a. Qed.

Lemma version_visible n : versionPattern n = true -> visible n = true /\ is_marker n = false.
Proof.
  intros H. split; [unfold visible; by rewrite H|]. unfold is_marker.
  destruct (String.eqb_spec n currentName) as [->|]; [done|]. by destruct (String.eqb_spec n backupName) as [->|].
Qed.

(** Only temporary entries differ, and they are private too. *)
Record aside (s0 s : fs) : Prop := mk_aside {
  as_visible : forall d n, visible n = true -> look s d n = look s0 d n;
  as_private : forall d n, private_entry (look s d n)
}.

Lemma aside_refl s : store_ok s -> aside s s.
Proof. intros [_ _ H]. by split. Qed.

Lemma aside_look s0 s s' : (forall d n, look s' d n = look s d n) -> aside s0 s -> aside s0 s'.
Proof. intros H [H1 H2]. split; intros; rewrite H; auto. Qed.

Lemma aside_put s0 s d n e : visible n = false -> private_entry e -> aside s0 s -> aside s0 (put s d n e).
Proof.
  intros Hn He [H1 H2]. split; intros d' n'.
  - intros Hv. rewrite look_put_ne; [auto|]. right. by intros ->; rewrite Hn in Hv.
  - rewrite look_put. case_decide; [by case_decide|done].
Qed.

Lemma aside_ok s0 s : store_ok s0 -> aside s0 s -> store_ok s.
Proof.
  intros [Hc Hm _] [Hv Hp]. split; [| |done].
  - intros d v e Hpat. rewrite Hv by (by apply version_visible). by apply Hc.
  - intros d n e Hn. rewrite Hv by (unfold visible; by rewrite Hn, orb_true_r). intros He.
    destruct (Hm d n e Hn He) as (v & mode & -> & Hpat & Hs). exists v, mode.
    by rewrite Hv by (by apply version_visible).
Qed.

(** ** The names [Stage] generates are versions *)
Lemma match_classes_app c1 c2 s1 s2 :
  match_classes c1 s1 = true -> match_classes c2 s2 = true -> match_classes (c1 ++ c2) (s1 +:+ s2) = true.
Proof.
  revert s1. induction c1 as [|f c1 IH]; intros [|a s1] H1 H2; try done. rewrite string_app_cons. simpl in *.
  apply andb_true_iff in H1 as [-> H1]. by rewrite IH.
Qed.

Lemma bounded_cases (f : Z -> bool) lo n z : lo <= z < lo + n -> forallb f (seqZ lo n) = true -> f z = true.
Proof. intros Hz H. rewrite forallb_elem_of in H. apply H, elem_of_seqZ. lia. Qed.

Lemma two_digits z : 0 <= z <= 99 -> match_classes [is_digit; is_digit] (two z) = true.
Proof. intros Hz. by apply (bounded_cases (fun z => match_classes [is_digit; is_digit] (two z)) 0 100); [lia|vm_compute]. Qed.

Lemma hex_encode_classes l :
  Forall (fun b => 0 <= b < 256) l -> match_classes (replicate (2 * length l) is_hex) (hex_encode l) = true.
Proof.
  induction 1 as [|b l Hb _ IH]; [done|]. replace (2 * length (b :: l))%nat with (2 + 2 * length l)%nat by (simpl; lia).
  rewrite replicate_add. apply (match_classes_app [is_hex; is_hex]); [|done].
  by apply (bounded_cases (fun b => match_classes [is_hex; is_hex] (hex_byte b)) 0 256); [lia|vm_compute].
Qed.

Lemma Format_classes t :
  valid_civil t ->
  match_classes (replicate 8 is_digit ++ [Ascii.eqb "T"] ++ replicate 6 is_digit ++ [Ascii.eqb "Z"]) (Format t) = true.
Proof.
  intros (Hy & Hmo & Hd & Hh & Hmi & Hs). unfold Format.
  change (replicate 8 is_digit ++ [Ascii.eqb "T"] ++ replicate 6 is_digit ++ [Ascii.eqb "Z"]) with
    ([is_digit; is_digit] ++ [is_digit; is_digit] ++ [is_digit; is_digit] ++ [is_digit; is_digit] ++ [Ascii.eqb "T"] ++
     [is_digit; is_digit] ++ [is_digit; is_digit] ++ [is_digit; is_digit] ++ [Ascii.eqb "Z"]).
  repeat apply match_classes_app; try done; apply two_digits; try lia.
  - split; [apply Z.div_pos; lia|]. apply Z.lt_succ_r, Z.div_lt_upper_bound; lia.
  - pose proof (Z.mod_pos_bound (c_year t) 100). lia.
Qed.

Lemma staged_version_matches t suffix :
  valid_civil t -> length suffix = 4%nat -> Forall (fun b => 0 <= b < 256) suffix ->
  versionPattern ("v-" +:+ Format t +:+ "-" +:+ hex_encode suffix) = true.
Proof.
  intros Ht Hl Hb. unfold versionPattern.
  change version_classes with ([Ascii.eqb "v"; Ascii.eqb "-"] ++
    (replicate 8 is_digit ++ [Ascii.eqb "T"] ++ replicate 6 is_digit ++ [Ascii.eqb "Z"]) ++ [Ascii.eqb "-"] ++ replicate 8 is_hex).
  apply match_classes_app; [done|]. apply match_classes_app; [by apply Format_classes|]. apply match_classes_app; [done|].
  pose proof (hex_encode_classes suffix Hb) as H. by rewrite Hl in H.
Qed.

(** ** Complete runs of the temporary work *)
Section Store.
Context (umask : Z) (reliable : bool).
#[local] Existing Instance file_system.
#[local] Instance store_env : Env fsE fs | 1 := file_system umask reliable.

Lemma masked_private mode : Z.land mode 63 = 0 -> Z.land (masked umask mode) 63 = 0.
Proof.
  intros H. apply Z.bits_inj'. intros i Hi. unfold masked. rewrite Z.land_spec, Z.ldiff_spec, Z.bits_0.
  apply (f_equal (fun z => Z.testbit z i)) in H. rewrite Z.land_spec, Z.bits_0 in H.
  destruct (Z.testbit mode i), (Z.testbit 63 i), (Z.testbit umask i); done.
Qed.

Section Temporary.
Context (I : fs -> Prop) (s0 : fs) (HI : forall s, aside s0 s -> I s).

Lemma iwp_aside {X} (e : fsE X) s Q :
  (forall x s', env_step e s x s' -> aside s0 s' /\ Q x s') -> iwp I (call e) s Q.
Proof. intros H. apply iwp_call. intros x s' He. destruct (H x s' He). auto. Qed.

Lemma private_insert dm files i data mode :
  private_entry (Some (EDir dm files)) -> (i = privateKeyName -> Z.land mode 63 = 0) ->
  private_entry (Some (EDir dm (<[i := mkFile data mode]> files))).
Proof.
  intros Hp Hi key. destruct (decide (i = privateKeyName)) as [->|].
  - rewrite lookup_insert_eq. intros [= <-]. by apply Hi.
  - rewrite lookup_insert_ne by done. apply Hp.
Qed.

(** A file of a temporary directory is written whole, or the directory is
    still temporary. *)
Lemma iwp_writeExclusive s d n i value mode dm files :
  aside s0 s -> visible n = false -> look s d n = Some (EDir dm files) -> (i = privateKeyName -> Z.land mode 63 = 0) ->
  iwp I (writeExclusive (PFile d n i) value mode) s (fun r s' => aside s0 s' /\
    match r with
    | None => look s' d n = Some (EDir dm (<[i := mkFile value (masked umask mode)]> files))
    | Some _ => exists files', look s' d n = Some (EDir dm files')
    end).
Proof.
  intros Ha Hn Hl Hi. unfold writeExclusive. apply iwp_mbind, iwp_aside.
  intros opened s1 He. cbn in He. destruct opened; [|subst s1; split; [done|]; apply iwp_ret; eauto].
  destruct He as [_ ->]. rewrite Hl.
  assert (private_entry (Some (EDir dm files))) as Hp by (rewrite <-Hl; apply Ha).
  assert (forall data, private_entry (Some (EDir dm (<[i := mkFile data (masked umask mode)]> files)))) as Hpf
    by (intros; apply private_insert; [done|]; intros; by apply masked_private, Hi).
  set (s1 := put s d n _). assert (aside s0 s1) as Ha1 by (by apply aside_put).
  assert (look s1 d n = Some (EDir dm (<[i := mkFile [] (masked umask mode)]> files))) as Hl1 by (by eapply look_put_eq).
  split; [done|]. cbn [negb]. apply iwp_mbind, iwp_aside. intros written s2 He. cbn in He. unfold get_file, set_file in He.
  rewrite Hl1, lookup_insert_eq in He. cbn in He. destruct He as (k & -> & Hk).
  rewrite insert_insert_eq. set (s2 := put s1 d n _).
  assert (aside s0 s2) as Ha2 by (by apply aside_put).
  assert (look s2 d n = Some (EDir dm (<[i := mkFile (take k value) (masked umask mode)]> files))) as Hl2
    by (by eapply look_put_eq).
  split; [done|]. destruct written; cbn [negb].
  2: { apply iwp_mbind, iwp_aside. intros ? s3 ->. split; [done|]. apply iwp_ret. eauto. }
  apply iwp_mbind, iwp_aside. intros synced s3 ->. split; [done|]. destruct synced; cbn [negb].
  2: { apply iwp_mbind, iwp_aside. intros ? s3 ->. split; [done|]. apply iwp_ret. eauto. }
  apply iwp_mbind, iwp_aside. intros closed s3 ->. split; [done|]. apply iwp_ret. split; [done|].
  destruct closed; [|eauto]. rewrite Hl2, take_ge; [done|]. by apply Hk.
Qed.


(** The temporary directory became the version [v]; nothing else changed. *)
Record staged (s : fs) (d v : string) (m : Material) : Prop := mk_staged {
  st_new : look s0 d v = None;
  st_version : exists dm cm km, Z.land km 63 = 0 /\
    look s d v = Some (EDir dm (<[privateKeyName := mkFile (PrivateKeyPEM m) km]>
                                  {[ fullchainName := mkFile (FullchainPEM m) cm ]}));
  st_others : forall d' n, visible n = true -> d' <> d \/ n <> v -> look s d' n = look s0 d' n;
  st_private : forall d' n, private_entry (look s d' n)
}.

Lemma private_less e e' : private_entry e -> less_than e e' -> private_entry e'.
Proof.
  destruct e as [[f|m files]|], e' as [[f'|m' files']|]; simpl; try done.
  - intros Hp [_ Hs] key Hk. by apply Hp, (lookup_weaken files' files).
Qed.

Lemma aside_temporary s d n e : visible n = false -> less_than (look s d n) e -> aside s0 s -> aside s0 (put s d n e).
Proof. intros Hn Hl Ha. apply aside_put; [done| |done]. eapply private_less; [|done]. apply Ha. Qed.

Context (Hok : store_ok s0).

(** A rename onto a version name succeeds only when the version is new: the
    versions of the store are not empty. *)
Lemma renamed_staged s d n v m dm files :
  aside s0 s -> visible n = false -> versionPattern v = true -> look s d n = Some (EDir dm files) ->
  can_replace (look s d n) (look s d v) ->
  (exists cm km, Z.land km 63 = 0 /\ files = <[privateKeyName := mkFile (PrivateKeyPEM m) km]>
                                  {[ fullchainName := mkFile (FullchainPEM m) cm ]}) ->
  staged (put (put s d n None) d v (look s d n)) d v m.
Proof.
  intros Ha Hn Hv Hl Hr (cm & km & Hkm & ->). destruct (version_visible v Hv) as [Hvis _]. rewrite Hl in Hr |- *.
  assert (is_Some (s !! d)) as Hs by (unfold look in Hl; destruct (s !! d); [by eexists|done]).
  assert (is_Some (put s d n None !! d)) as Hs' by (unfold put; rewrite lookup_alter_eq; by apply fmap_is_Some).
  split.
  - destruct (look s0 d v) as [e|] eqn:He; [|done]. exfalso.
    destruct (so_complete s0 Hok d v e Hv He) as (m' & files' & cert & key & -> & Hc & _).
    rewrite (as_visible _ _ Ha d v Hvis), He in Hr. simpl in Hr. by rewrite Hr in Hc.
  - exists dm, cm, km. split; [done|]. by rewrite look_put_new.
  - intros d' n' Hn' Hne. rewrite look_put_ne by done. rewrite look_put_ne; [by apply Ha|]. right. by intros ->; rewrite Hn in Hn'.
  - intros d' n'. rewrite look_put. case_decide.
    + case_decide; [|done]. rewrite <-Hl. apply Ha.
    + rewrite look_put. case_decide; [by case_decide|]. apply Ha.
Qed.

Context (m : Material).

Lemma iwp_fill_stage s d v n dm :
  (forall s, staged s d v m -> I s) -> versionPattern v = true -> aside s0 s -> visible n = false -> look s d n = Some (EDir dm ∅) ->
  iwp I (fill_stage d n v m) s (fun r s' => match r with None => staged s' d v m | Some _ => aside s0 s' end).
Proof.
  intros HIs Hv Ha Hn Hl. unfold fill_stage. apply iwp_mbind, iwp_aside. intros protected s1 He. cbn in He.
  assert (aside s0 s1 /\ exists dm', look s1 d n = Some (EDir dm' ∅)) as [Ha1 [dm' Hl1]].
  { destruct protected; [|subst; eauto]. rewrite Hl in He. subst. split; [by apply aside_put|].
    exists 448. by eapply look_put_eq. }
  split; [done|]. destruct protected; cbn [negb]; [|by apply iwp_ret].
  apply iwp_or_return. eapply iwp_mono; [apply iwp_writeExclusive; done|]. intros [e|] s2 [Ha2 Hl2]; [done|].
  apply iwp_or_return. eapply iwp_mono; [apply iwp_writeExclusive; done|]. intros [e|] s3 [Ha3 Hl3]; [done|].
  apply iwp_mbind, iwp_aside. intros cancelled s4 ->. split; [done|]. destruct cancelled; [by apply iwp_ret|].
  apply iwp_mbind, iwp_call. intros renamed s5 He5. cbn in He5. destruct renamed.
  - destruct He5 as [Hr ->].
    assert (staged (put (put s3 d n None) d v (look s3 d n)) d v m) as Hst.
    { eapply renamed_staged; [done..|]. eexists _, _. split; [by apply (masked_private 384)|]. reflexivity. }
    split; [by apply HIs|]. by apply iwp_ret.
  - destruct He5 as [_ ->]. split; [by apply HI|]. by apply iwp_ret.
  - destruct He5 as [-> _]. split; [by apply HI|]. by apply iwp_ret.
Qed.

Lemma iwp_Stage sni
  (HIs : forall s d v, canonicalSNI sni = Ok d -> versionPattern v = true -> staged s d v m -> I s) :
  iwp I (Stage sni m) s0 (fun r s' =>
    match r with
    | Ok v => exists d, canonicalSNI sni = Ok d /\ versionPattern v = true /\ staged s' d v m
    | Err _ => aside s0 s'
    end).
Proof.
  pose proof (aside_refl s0 Hok) as Ha0. unfold Stage. apply iwp_mbind, iwp_aside. intros cancelled ? ->. split; [done|].
  destruct cancelled; [by apply iwp_ret|]. destruct (canonicalSNI sni) as [d|e] eqn:Hd; [|by apply iwp_ret].
  apply iwp_mbind, iwp_aside. intros suffix ? [-> Hsuffix]. split; [done|]. destruct suffix as [suffix|]; [|by apply iwp_ret].
  destruct Hsuffix as [Hlen Hbytes].
  apply iwp_mbind, iwp_aside. intros now ? [-> Hnow]. split; [done|]. cbv zeta.
  pose proof (staged_version_matches now suffix Hnow Hlen Hbytes) as Hv. revert Hv.
  generalize ("v-" +:+ Format now +:+ "-" +:+ hex_encode suffix) as v. intros v Hv.
  apply iwp_mbind, iwp_aside. intros made s1 He1. cbn in He1.
  assert (aside s0 s1) as Ha1.
  { destruct made; subst; [|done]. eapply aside_look; [|done]. intros. apply look_mkdir. }
  split; [done|]. destruct made; cbn [negb]; [|by apply iwp_ret].
  apply iwp_mbind, iwp_aside. intros protected s2 He2. cbn in He2.
  assert (aside s0 s2) as Ha2.
  { destruct protected; rewrite He2; [|done]. eapply aside_look; [|done]. intros. apply look_chmod_domain. }
  split; [done|]. destruct protected; cbn [negb]; [|by apply iwp_ret].
  apply iwp_mbind, iwp_aside. intros [n|] s3 He3; cbn in He3; [|subst s3; split; [done|]; by apply iwp_ret].
  destruct He3 as (Hdir & Hl & Hn & ->). apply stage_prefix_invisible in Hn. split; [by apply aside_put|].
  apply iwp_mbind. eapply iwp_mono; [eapply (iwp_fill_stage _ d v n); [by intros; eapply HIs|done|by apply aside_put|done|by apply look_put_new]|].
  intros [e|] s4 H4; [|apply iwp_ret; eauto].
  apply iwp_mbind, iwp_aside. intros ? s5 (e5 & Hl5 & ->). assert (aside s0 (put s4 d n e5)) by (by apply aside_temporary).
  split; [done|]. by apply iwp_ret.
Qed.

(** *** The marker *)
Section Marker.
Context (d v : string).

(** Only temporary entries, the marker and its backup differ. *)
Record marker_frame (s : fs) : Prop := mk_marker_frame {
  mf_others : forall d' n, visible n = true -> d' <> d \/ is_marker n = false -> look s d' n = look s0 d' n;
  mf_private : forall d' n, private_entry (look s d' n)
}.

Definition names_version (e : option entry) : Prop := exists mode, e = Some (EFile (mkFile (marker_bytes v) mode)).

(** The marker is the old one or the new one.  Only where a rename that can
    succeed fails, it can be missing while the backup has the old one, and an
    old backup can come back in place of a missing marker. *)
Definition marker_state (s : fs) : Prop :=
  look s d currentName = look s0 d currentName \/
  names_version (look s d currentName) \/
  reliable = false /\
    (look s d currentName = None /\ look s d backupName = look s0 d currentName \/
     look s0 d currentName = None /\ look s d currentName = look s0 d backupName).

Record activating (s : fs) : Prop := mk_activating {
  ac_frame : marker_frame s;
  ac_backup : look s d backupName = None \/ look s d backupName = look s0 d backupName \/
              look s d backupName = look s0 d currentName;
  ac_marker : marker_state s
}.

Lemma frame_aside s : aside s0 s -> marker_frame s.
Proof. intros [H1 H2]. split; auto. Qed.

Lemma aside_activating s : aside s0 s -> activating s.
Proof. intros Ha. split; [by apply frame_aside|right; left|left]; by apply Ha. Qed.

Lemma frame_put s n e : visible n = false \/ is_marker n = true -> private_entry e -> marker_frame s -> marker_frame (put s d n e).
Proof.
  intros Hn He [H1 H2]. split; intros d' n'.
  - intros Hv Hd. rewrite look_put_ne; [by apply H1|]. destruct (decide (n' = n)) as [->|]; [|by right].
    left. intros ->. destruct Hn as [Hn|Hn]; [by rewrite Hn in Hv|]. rewrite Hn in Hd. by destruct Hd.
  - rewrite look_put. case_decide; [by case_decide|done].
Qed.

Lemma frame_rename s n n' :
  visible n = false \/ is_marker n = true -> visible n' = false \/ is_marker n' = true -> marker_frame s ->
  marker_frame (put (put s d n None) d n' (look s d n)).
Proof. intros Hn Hn' Hf. apply frame_put; [done|apply Hf|]. by apply frame_put. Qed.

Lemma look_renamed s n n' e : look s d n = Some e -> look (put (put s d n None) d n' (look s d n)) d n' = Some e.
Proof.
  intros Hl. rewrite Hl. apply look_put_new. unfold look in Hl. unfold put. rewrite lookup_alter_eq.
  destruct (s !! d); [by eexists|done].
Qed.

Lemma look_renamed_source s n n' e : n <> n' -> look s d n = Some e -> look (put (put s d n None) d n' (look s d n)) d n = None.
Proof. intros Hne Hl. rewrite look_put_ne by auto. by eapply look_put_eq. Qed.

Lemma look_renamed_other s n n' n2 : n2 <> n -> n2 <> n' -> look (put (put s d n None) d n' (look s d n)) d n2 = look s d n2.
Proof. intros H1 H2. by rewrite !look_put_ne by auto. Qed.

Lemma invisible_not_marker n : visible n = false -> n <> currentName /\ n <> backupName.
Proof. intros H. by split; intros ->. Qed.

Lemma can_replace_source e e' : can_replace e e' -> is_Some e.
Proof. destruct e; [by eexists|done]. Qed.

Context (HIa : forall s, activating s -> I s).

Lemma iwp_act {X} (e : fsE X) s Q :
  (forall x s', env_step e s x s' -> activating s' /\ Q x s') -> iwp I (call e) s Q.
Proof. intros H. apply iwp_call. intros x s' He. destruct (H x s' He). auto. Qed.

(** The second half of the fallback: the marker was moved away, or was not
    there to begin with. *)
Lemma iwp_restore s n data mode :
  reliable = false -> marker_frame s -> visible n = false -> data = marker_bytes v ->
  look s d n = Some (EFile (mkFile data mode)) -> look s d currentName = None ->
  (look s d backupName = look s0 d currentName \/
   look s0 d currentName = None /\ (look s d backupName = None \/ look s d backupName = look s0 d backupName)) ->
  iwp I (renamed ← call (FRename d n currentName);
         match renamed with
         | Renamed => _ ← call (FRemove d backupName); mret true
         | _ => _ ← call (FRename d backupName currentName); mret false
         end) s (fun r s' => activating s' /\ (r = true -> names_version (look s' d currentName))).
Proof.
  intros Hrel Hf Hn -> Hl Hc Hb. destruct (invisible_not_marker n Hn) as [Hnc Hnb].
  assert (currentName <> backupName) as Hcb by done.
  assert (activating s) as Has.
  { split; [done|naive_solver|]. unfold marker_state. destruct Hb as [Hb|[H0 _]]; [right; right; auto|left; congruence]. }
  apply iwp_mbind, iwp_act. intros renamed s1 He. cbn in He. destruct renamed.
  - destruct He as [_ ->]. set (s1 := put (put s d n None) d currentName (look s d n)).
    assert (look s1 d currentName = Some (EFile (mkFile (marker_bytes v) mode))) as Hc1 by (by apply look_renamed).
    assert (look s1 d backupName = look s d backupName) as Hb1 by (by apply look_renamed_other).
    assert (marker_frame s1) as Hf1 by (apply frame_rename; auto).
    assert (activating s1) as Ha1.
    { split; [done|rewrite Hb1; naive_solver|]. right; left. by exists mode. }
    clearbody s1. split; [done|]. apply iwp_mbind, iwp_act. intros [] s2 He2. cbn in He2.
    assert (activating s2 /\ names_version (look s2 d currentName)) as [Ha2 Hn2].
    { destruct He2 as [->|[_ ->]]; [split; [done|]; by exists mode|].
      assert (look (put s1 d backupName None) d currentName = Some (EFile (mkFile (marker_bytes v) mode))) as Hc2
        by (by rewrite look_put_ne by auto).
      split; [|by exists mode]. split; [by apply frame_put; [right|done|done]| |right; left; by exists mode].
      left. rewrite look_put. repeat case_decide; naive_solver. }
    split; [done|]. by apply iwp_ret.
  - destruct He as [Hnone ->]. by rewrite Hl in Hnone.
  - destruct He as [-> _]. split; [done|]. apply iwp_mbind, iwp_act. intros renamed s2 He2. cbn in He2.
    destruct renamed; [|destruct He2 as [_ ->]; split; [done|]; by apply iwp_ret..|destruct He2 as [-> _]; split; [done|]; by apply iwp_ret].
    destruct He2 as [Hr ->]. apply can_replace_source in Hr as [e He]. rewrite He in Hb.
    assert (activating (put (put s d backupName None) d currentName (look s d backupName))) as Ha2.
    { pose proof (look_renamed s backupName currentName e He) as H1.
      pose proof (look_renamed_source s backupName currentName e (not_eq_sym Hcb) He) as H2.
      split; [apply frame_rename; auto|by left|]. unfold marker_state. rewrite H1.
      destruct Hb as [Hb|[H0 [Hb|Hb]]]; [by left|done|]. right; right. auto. }
    split; [done|]. by apply iwp_ret.
Qed.

Lemma marker_current_file s : aside s0 s -> forall f, can_replace (Some (EFile f)) (look s d currentName).
Proof.
  intros Ha f. rewrite (as_visible _ _ Ha) by done. destruct (look s0 d currentName) as [e|] eqn:He; [|done].
  by destruct (so_marker s0 Hok d currentName e eq_refl He) as (? & ? & -> & _).
Qed.

(** The fallback of [replaceFile]. *)
Lemma iwp_fallback s n mode :
  reliable = false -> aside s0 s -> visible n = false -> look s d n = Some (EFile (mkFile (marker_bytes v) mode)) ->
  iwp I (_ ← call (FRemove d backupName);
         moved ← call (FRename d currentName backupName);
         match moved with
         | RenameFailed => mret false
         | _ =>
           renamed ← call (FRename d n currentName);
           match renamed with
           | Renamed => _ ← call (FRemove d backupName); mret true
           | _ => _ ← call (FRename d backupName currentName); mret false
           end
         end) s (fun r s' => activating s' /\ (r = true -> names_version (look s' d currentName))).
Proof.
  intros Hrel Ha Hn Hl. destruct (invisible_not_marker n Hn) as [Hnc Hnb]. pose proof (frame_aside s Ha) as Hf.
  assert (look s d currentName = look s0 d currentName) as Hc by (by apply Ha).
  assert (look s d backupName = look s0 d backupName) as Hb by (by apply Ha).
  apply iwp_mbind, iwp_act; intros [] s2 He2; cbn in He2.
  assert (marker_frame s2 /\ look s2 d n = Some (EFile (mkFile (marker_bytes v) mode)) /\
          look s2 d currentName = look s0 d currentName /\
          (look s2 d backupName = None \/ look s2 d backupName = look s0 d backupName)) as (Hf2 & Hl2 & Hc2 & Hb2).
  { destruct He2 as [->|[_ ->]]; [by auto|]. rewrite !look_put_ne by auto.
    split_and!; [by apply frame_put; [right|done|done]|done|done|]. left. rewrite look_put. repeat case_decide; naive_solver. }
  assert (activating s2) as Ha2 by (split; [done|naive_solver|by left]).
  split; [done|]. apply iwp_mbind, iwp_act. intros moved s3 He3. cbn in He3. destruct moved.
  - destruct He3 as [[e He]%can_replace_source ->].
    pose proof (look_renamed s2 currentName backupName e He) as H1.
    pose proof (look_renamed_source s2 currentName backupName e ltac:(done) He) as H2.
    assert (look s0 d currentName = Some e) as H0 by congruence.
    assert (marker_frame (put (put s2 d currentName None) d backupName (look s2 d currentName))) as Hf3
      by (apply frame_rename; auto).
    split.
    + split; [done|right; right; congruence|]. right; right. split; [done|]. left. split; congruence.
    + eapply iwp_restore; [done|done|done|reflexivity|by rewrite look_renamed_other by auto|done|left; congruence].
  - destruct He3 as [Hnone ->]. split; [done|]. eapply iwp_restore; [done|done|done|reflexivity|done|done|].
    right. split; [congruence|done].
  - destruct He3 as [-> _]. split; [done|]. by apply iwp_ret.
Qed.

Lemma iwp_replaceFile s n mode :
  aside s0 s -> visible n = false -> look s d n = Some (EFile (mkFile (marker_bytes v) mode)) ->
  iwp I (replaceFile d n) s (fun r s' => activating s' /\ (r = true -> names_version (look s' d currentName))).
Proof.
  intros Ha Hn Hl. destruct (invisible_not_marker n Hn) as [Hnc Hnb]. pose proof (frame_aside s Ha) as Hf.
  unfold replaceFile. apply iwp_mbind, iwp_act. intros renamed s1 He. cbn in He. destruct renamed.
  - destruct He as [_ ->]. pose proof (look_renamed s n currentName _ Hl) as H1.
    assert (activating (put (put s d n None) d currentName (look s d n))) as Ha1.
    { split; [apply frame_rename; auto| |right; left; by exists mode].
      right; left. rewrite look_renamed_other by auto. by apply Ha. }
    split; [done|]. apply iwp_ret. split; [done|]. by exists mode.
  - destruct He as [Hnone _]. by rewrite Hl in Hnone.
  - destruct He as [-> Hr]. split; [by apply aside_activating|]. eapply iwp_fallback; [|done..].
    destruct reliable; [|done]. destruct (Hr eq_refl). rewrite Hl. by apply marker_current_file.
Qed.

Lemma iwp_write_marker s n mode :
  aside s0 s -> visible n = false -> look s d n = Some (EFile (mkFile [] mode)) ->
  iwp I (write_marker d n v) s (fun r s' => activating s' /\ (r = None -> names_version (look s' d currentName))).
Proof.
  intros Ha Hn Hl.
  unfold write_marker. cbv zeta. apply iwp_mbind, iwp_call. intros protected s1 He. cbn in He.
  assert (aside s0 s1 /\ exists mode, look s1 d n = Some (EFile (mkFile [] mode))) as [Ha1 [mode1 Hl1]].
  { destruct protected; rewrite He; [|eauto]. rewrite Hl. split; [by apply aside_put|]. exists 384. by eapply look_put_eq. }
  split; [by apply HI|]. destruct protected; cbn [negb].
  2: { apply iwp_mbind, iwp_call. intros ? s2 ->. split; [by apply HI|]. apply iwp_ret. split; [by apply aside_activating|done]. }
  apply iwp_mbind, iwp_call. intros written s2 He2. cbn in He2. unfold get_file, set_file in He2. rewrite Hl1 in He2. cbn in He2.
  destruct He2 as (k & -> & Hk). set (s2 := put s1 d n _). assert (aside s0 s2) as Ha2 by (by apply aside_put).
  assert (look s2 d n = Some (EFile (mkFile (take k (marker_bytes v)) mode1))) as Hl2 by (by eapply look_put_eq).
  clearbody s2. split; [by apply HI|]. destruct written; cbn [negb].
  2: { apply iwp_mbind, iwp_call. intros ? s3 ->. split; [by apply HI|]. apply iwp_ret. split; [by apply aside_activating|done]. }
  rewrite take_ge in Hl2 by (by apply Hk).
  apply iwp_mbind, iwp_call. intros synced s3 ->. split; [by apply HI|]. destruct synced; cbn [negb].
  2: { apply iwp_mbind, iwp_call. intros ? s3 ->. split; [by apply HI|]. apply iwp_ret. split; [by apply aside_activating|done]. }
  apply iwp_mbind, iwp_call. intros closed s3 ->. split; [by apply HI|]. destruct closed; cbn [negb].
  2: { apply iwp_ret. split; [by apply aside_activating|done]. }
  apply iwp_mbind, iwp_call. intros cancelled s3 ->. split; [by apply HI|]. destruct cancelled.
  { apply iwp_ret. split; [by apply aside_activating|done]. }
  apply iwp_mbind. eapply iwp_mono; [by eapply iwp_replaceFile|]. intros [] s4 [Ha4 H4]; apply iwp_ret; [by auto|done].
Qed.

Lemma activating_put s n e : visible n = false -> private_entry e -> activating s -> activating (put s d n e).
Proof.
  intros Hn He [Hf Hb Hm]. destruct (invisible_not_marker n Hn) as [Hnc Hnb]. unfold marker_state in Hm.
  split; [by apply frame_put; [left|..]| |unfold marker_state]; by rewrite !look_put_ne by auto.
Qed.
End Marker.

Lemma iwp_Activate sni v
  (HIa : forall d, canonicalSNI sni = Ok d -> versionPattern v = true -> is_Some (look s0 d v) -> forall s, activating d v s -> I s) :
  iwp I (Activate sni v) s0 (fun r s' =>
    aside s0 s' /\ r <> None \/
    exists d, canonicalSNI sni = Ok d /\ versionPattern v = true /\ is_Some (look s0 d v) /\ activating d v s' /\
      (r = None -> names_version v (look s' d currentName))).
Proof.
  pose proof (aside_refl s0 Hok) as Ha0. unfold Activate.
  apply iwp_mbind, iwp_aside. intros cancelled ? ->. split; [done|]. destruct cancelled; [apply iwp_ret; by left|].
  destruct (canonicalSNI sni) as [d|e]; [|apply iwp_ret; by left].
  destruct (versionPattern v) eqn:Hv; cbn [negb]; [|apply iwp_ret; by left].
  apply iwp_mbind, iwp_aside. intros info s1 [-> Hinfo]. split; [done|].
  destruct info as [[[] perm]|]; [|apply iwp_ret; by left..].
  assert (is_Some (look s0 d v)) as Hlv.
  { destruct Hinfo as [|Hinfo]; [done|]. cbn in Hinfo. destruct (look s0 d v); [by eexists|done]. }
  specialize (HIa d eq_refl eq_refl Hlv).
  apply iwp_mbind, iwp_aside. intros [n|] s2 He2; cbn in He2; [|subst s2; split; [done|]; apply iwp_ret; by left].
  destruct He2 as (Hd & _ & Hn & ->). apply current_prefix_invisible in Hn. split; [by apply aside_put|].
  apply iwp_mbind. eapply iwp_mono; [eapply iwp_write_marker; [done|by apply aside_put|done|by apply look_put_new]|].
  intros r s3 [Ha3 H3]. apply iwp_mbind, iwp_call. intros [] s4 He4. cbn in He4.
  assert (activating d v s4 /\ (r = None -> names_version v (look s4 d currentName))) as [Ha4 H4].
  { destruct He4 as [->|[_ ->]]; [done|]. split; [by apply activating_put|].
    rewrite look_put_ne; [done|]. right. apply not_eq_sym. by apply invisible_not_marker. }
  split; [by apply HIa|]. apply iwp_ret. right. exists d. auto.
Qed.
End Temporary.
End Store.

(** ** Crashes *)
Inductive store_op : Type :=
  | DoStage (sni : string) (m : Material)
  | DoLoad (sni version : string)
  | DoActiveVersion (sni : string)
  | DoActivate (sni version : string).

Definition store_run (windows : bool) (op : store_op) : prog fsE unit :=
  match op with
  | DoStage sni m => _ ← Stage sni m; mret tt
  | DoLoad sni version => _ ← Load windows sni version; mret tt
  | DoActiveVersion sni => _ ← ActiveVersion sni; mret tt
  | DoActivate sni version => _ ← Activate sni version; mret tt
  end.

(** A directory with exactly the bytes of the material, the key private. *)
Definition holds_material (e : entry) (m : Material) : Prop :=
  exists mode files cert key, e = EDir mode files /\
    files !! fullchainName = Some cert /\ f_data cert = FullchainPEM m /\
    files !! privateKeyName = Some key /\ f_data key = PrivateKeyPEM m /\ Z.land (f_mode key) 63 = 0.

Section Claims.
Context (umask : Z) (reliable windows : bool).
#[local] Instance claim_env : Env fsE fs | 1 := file_system umask reliable.

(** The states of the store: it starts empty, and its operations may be cut
    off anywhere. *)
Inductive store_reachable : fs -> Prop :=
  | store_empty : store_reachable ∅
  | store_step s op s' : store_reachable s -> crashes (store_run windows op) s s' -> store_reachable s'.

Record survives (op : store_op) (s s' : fs) : Prop := mk_survives {
  sv_ok : store_ok s';
  sv_kept : forall d v e, versionPattern v = true -> look s d v = Some e -> look s' d v = Some e;
  sv_new : forall d v e, versionPattern v = true -> look s' d v = Some e ->
    look s d v = Some e \/
    exists sni m, op = DoStage sni m /\ canonicalSNI sni = Ok d /\ holds_material e m;
  sv_marker : forall d,
    look s' d currentName = look s d currentName \/
    exists sni v, op = DoActivate sni v /\ canonicalSNI sni = Ok d /\ is_Some (look s d v) /\
      marker_state reliable s d v s'
}.

Lemma survives_aside op s s' : store_ok s -> aside s s' -> survives op s s'.
Proof.
  intros Hok Ha. split; [by eapply aside_ok|..].
  - intros d v e Hv He. by rewrite (as_visible _ _ Ha) by (by apply version_visible).
  - intros d v e Hv He. left. by rewrite <-(as_visible _ _ Ha) by (by apply version_visible).
  - intros d. left. by apply Ha.
Qed.

Lemma staged_ok s s' d v m : store_ok s -> versionPattern v = true -> staged s s' d v m -> store_ok s'.
Proof.
  intros Hok Hv [Hnew (dm & cm & km & _ & Hl) Hoth Hp]. destruct (version_visible v Hv) as [Hvis Hvm].
  assert (forall d' n, visible n = true -> look s d' n <> None -> look s' d' n = look s d' n) as Hsame.
  { intros d' n Hn Hne. apply Hoth; [done|]. destruct (decide (d' = d)) as [->|]; [|by left]. right. by intros ->. }
  split; [| |done].
  - intros d' v' e Hv' He. destruct (decide (d' = d /\ v' = v)) as [[-> ->]|Hne].
    + rewrite Hl in He. injection He as <-. by repeat eexists.
    + rewrite Hoth in He; [by eapply so_complete|by apply version_visible|by apply not_and_l].
  - intros d' n e Hn He. rewrite Hoth in He.
    2: { unfold visible. by rewrite Hn, orb_true_r. }
    2: { right. intros ->. by rewrite Hvm in Hn. }
    destruct (so_marker s Hok d' n e Hn He) as (v' & mode & -> & Hv' & Hs). exists v', mode. split_and!; [done..|].
    rewrite Hsame; [done|by apply version_visible|]. destruct Hs as [x Hx]. by rewrite Hx.
Qed.

Lemma survives_staged sni m s s' d v :
  store_ok s -> canonicalSNI sni = Ok d -> versionPattern v = true -> staged s s' d v m -> survives (DoStage sni m) s s'.
Proof.
  intros Hok Hd Hv Hst. destruct (version_visible v Hv) as [Hvis Hvm]. split.
  - by eapply staged_ok.
  - intros d' v' e Hv' He. rewrite (st_others _ _ _ _ _ Hst); [done|by apply version_visible|].
    destruct (decide (d' = d)) as [->|]; [|by left]. right. intros ->. by rewrite (st_new _ _ _ _ _ Hst) in He.
  - intros d' v' e Hv' He. destruct (decide (d' = d /\ v' = v)) as [[-> ->]|Hne].
    + right. exists sni, m. split_and!; [done..|]. destruct (st_version _ _ _ _ _ Hst) as (dm & cm & km & Hkm & Hl).
      rewrite Hl in He. injection He as <-. by repeat eexists.
    + left. rewrite (st_others _ _ _ _ _ Hst) in He; [done|by apply version_visible|by apply not_and_l].
  - intros d'. left. apply (st_others _ _ _ _ _ Hst); [done|]. right. intros <-. by apply version_visible in Hv as [_ ?].
Qed.

Lemma activating_ok s s' d v :
  store_ok s -> versionPattern v = true -> is_Some (look s d v) -> activating reliable s d v s' -> store_ok s'.
Proof.
  intros Hok Hv Hs [[Hoth Hp] Hb Hm].
  assert (forall d' n, versionPattern n = true -> look s' d' n = look s d' n) as Hvers.
  { intros d' n Hn. apply version_visible in Hn as [? ?]. by apply Hoth; [|right]. }
  split; [| |done].
  - intros d' v' e Hv'. rewrite Hvers by done. by apply Hok.
  - intros d' n e Hn He.
    assert ((exists n', is_marker n' = true /\ look s d' n' = Some e) \/ d' = d /\ names_version v (Some e)) as [(n' & Hn' & He')|[-> [mode [= ->]]]].
    { destruct (decide (d' = d)) as [->|Hd'].
      2: { left. exists n. split; [done|]. rewrite <-He. symmetry. apply Hoth; [|by left]. unfold visible. by rewrite Hn, orb_true_r. }
      unfold is_marker in Hn. apply orb_true_iff in Hn. rewrite !String.eqb_eq in Hn. unfold marker_state in Hm.
      destruct Hn as [-> | ->].
      - rewrite He in Hm. destruct Hm as [H|[H|(_ & [[H _]|[_ H]])]]; [left; by exists currentName|by right|done|left; by exists backupName].
      - rewrite He in Hb. destruct Hb as [H|[H|H]]; [done|left; by exists backupName|left; by exists currentName]. }
    + destruct (so_marker s Hok d' n' e Hn' He') as (v' & mode & -> & Hv' & Hs'). exists v', mode.
      split_and!; [done..|]. by rewrite Hvers.
    + exists v, mode. split_and!; [done..|]. by rewrite Hvers.
Qed.

Lemma survives_activating sni s s' d v :
  store_ok s -> canonicalSNI sni = Ok d -> versionPattern v = true -> is_Some (look s d v) ->
  activating reliable s d v s' -> survives (DoActivate sni v) s s'.
Proof.
  intros Hok Hd Hv Hs Ha. assert (forall d' n, versionPattern n = true -> look s' d' n = look s d' n) as Hvers.
  { intros d' n Hn. apply version_visible in Hn as [? ?]. by apply Ha; [|right]. }
  split; [by eapply activating_ok|..].
  - intros d' v' e Hv' He. by rewrite Hvers.
  - intros d' v' e Hv' He. left. by rewrite <-Hvers.
  - intros d'. destruct (decide (d' = d)) as [->|Hd'].
    + right. exists sni, v. split_and!; [done..|]. apply Ha.
    + left. by apply Ha; [|left].
Qed.

(** Calls that do not write. *)
Definition reads X (e : fsE X) : bool :=
  match e with FCtxErr | FStat _ | FReadFile _ => true | _ => false end.

Lemma load_files_reads d v : calls_only reads (load_files d v).
Proof. unfold load_files. repeat calls_step. Qed.

Lemma Load_reads sni v : calls_only reads (Load windows sni v).
Proof. unfold Load. repeat first [calls_step|apply load_files_reads]. Qed.

Lemma ActiveVersion_reads sni : calls_only reads (ActiveVersion sni).
Proof. unfold ActiveVersion. repeat calls_step. Qed.

Lemma crashes_reads {A} (p : prog fsE A) s s' : calls_only reads p -> crashes p s s' -> s' = s.
Proof.
  intros Hp. apply (crashes_calls_inv reads p (fun s' => s' = s)); [done| |done].
  intros X e s1 x s2 He Hs ->. destruct e; try done; cbn in Hs; naive_solver.
Qed.

Lemma store_crash op s s' : store_ok s -> crashes (store_run windows op) s s' -> survives op s s'.
Proof.
  intros Hok. destruct op as [sni m|sni v|sni|sni v]; cbn [store_run].
  - apply (iwp_crashes (survives (DoStage sni m) s) _ _ (fun _ _ => True)); [by apply survives_aside, aside_refl|].
    apply iwp_mbind. eapply iwp_mono; [apply (iwp_Stage umask reliable); [|done|]|].
    + intros. by apply survives_aside.
    + intros s1 d v Hd Hv Hst. by eapply survives_staged.
    + intros. by apply iwp_ret.
  - intros Hc. assert (s' = s) as ->.
    { eapply crashes_reads, Hc. apply calls_only_mbind; [apply Load_reads|done]. }
    by apply survives_aside, aside_refl.
  - intros Hc. assert (s' = s) as ->.
    { eapply crashes_reads, Hc. apply calls_only_mbind; [apply ActiveVersion_reads|done]. }
    by apply survives_aside, aside_refl.
  - apply (iwp_crashes (survives (DoActivate sni v) s) _ _ (fun _ _ => True)); [by apply survives_aside, aside_refl|].
    apply iwp_mbind. eapply iwp_mono; [apply (iwp_Activate umask reliable); [|done|]|].
    + intros. by apply survives_aside.
    + intros d Hd Hv Hs s1 Ha. by eapply survives_activating.
    + intros. by apply iwp_ret.
Qed.

Lemma store_reachable_ok s : store_reachable s -> store_ok s.
Proof. induction 1 as [|s op s' _ IH Hc]; [by split; intros d n; unfold look; rewrite lookup_empty|]. eapply store_crash in Hc; [apply Hc|done]. Qed.

(** C26. The files survive a crash at any call of [Stage], [Load],
    [ActiveVersion] and [Activate], whatever calls of the operating system
    fail: every version a reader can see is a complete directory with a
    private key only its owner can read, no version ever changes or
    disappears, a new one has exactly the bytes of the material that was
    staged, and the marker is a whole text that names an existing version:
    the old one, or the one being activated.  Where a rename that can succeed
    fails, the fallback meant for Windows can leave the old marker under its
    backup name only. *)
Theorem certificate_store_survives_crashes s :
  store_reachable s ->
  store_ok s /\ forall op s', crashes (store_run windows op) s s' -> survives op s s'.
Proof. intros Hs%store_reachable_ok. split; [done|]. intros op s' Hc. by apply store_crash. Qed.

(** ** Reading back *)

(** Staging, activating, and reading what was published. *)
Definition publish (sni : string) (m : Material) :
    prog fsE (option (string * result certErr string * result certErr Material)) :=
  staged ← Stage sni m;
  match staged with
  | Err _ => mret None
  | Ok v =>
    activated ← Activate sni v;
    match activated with
    | Some _ => mret None
    | None =>
      current ← ActiveVersion sni;
      loaded ← Load windows sni v;
      mret (Some (v, current, loaded))
    end
  end.

(** The operating system refused a read, or the context was cancelled. *)
Definition os_fails (ev : event fsE) : bool :=
  match ev_op ev in fsE X return X -> bool with
  | FCtxErr => fun cancelled => cancelled
  | FStat _ => fun r => match r with None => true | Some _ => false end
  | FReadFile _ => fun r => match r with ReadFailed => true | _ => false end
  | _ => fun _ => false
  end (ev_res ev).



Lemma text_of_bytes s : text_of (bytes_of s) = s.
Proof.
  unfold text_of, bytes_of. rewrite <-list_fmap_compose.
  assert (of_byte ∘ byte_of <$> String.list_ascii_of_string s = String.list_ascii_of_string s) as ->.
  { induction s as [|a s IH]; [done|]. cbn [String.list_ascii_of_string fmap list_fmap]. rewrite <-IH at 2. f_equal. simpl.
    unfold of_byte, byte_of. by rewrite N2Z.id, ascii_N_embedding. }
  apply String.string_of_list_ascii_of_string.
Qed.

Lemma classes_printable classes s :
  (forall f a, f ∈ classes -> f a = true -> printable a = true) -> match_classes classes s = true -> str_forall printable s = true.
Proof.
  revert s. induction classes as [|f classes IH]; intros [|a s] Hf H; try done. simpl in *.
  apply andb_true_iff in H as [Ha H]. apply andb_true_iff. split; [by eapply (Hf f); [left|]|].
  apply IH; [|done]. intros g b Hg. apply Hf. by right.
Qed.

Lemma version_printable v : versionPattern v = true -> str_forall printable v = true.
Proof.
  apply classes_printable. intros f a Hf Ha.
  assert (f = is_digit \/ f = is_hex \/ f = Ascii.eqb "v" \/ f = Ascii.eqb "-" \/ f = Ascii.eqb "T" \/ f = Ascii.eqb "Z") as Hc.
  { unfold version_classes in Hf. cbn [replicate app] in Hf. rewrite !elem_of_cons, elem_of_nil in Hf. naive_solver. }
  unfold is_digit, is_hex, printable, byte_in in *.
  destruct Hc as [->|[->|[->|[->|[->| ->]]]]]; [lia|lia|..]; apply Ascii.eqb_eq in Ha; by subst a.
Qed.

Lemma marker_reads v : versionPattern v = true -> TrimSpace (text_of (marker_bytes v)) = v.
Proof.
  intros Hv. unfold marker_bytes. rewrite text_of_bytes. apply TrimSpace_line; [by intros ->|by apply version_printable].
Qed.

Definition read_back {A} (expected : A) (r : result certErr A) (tr : list (event fsE)) : Prop :=
  match r with Ok a => a = expected | Err _ => occurs os_fails tr = true end.

Lemma wp_ActiveVersion s tr sni d v :
  canonicalSNI sni = Ok d -> versionPattern v = true -> names_version v (look s d currentName) ->
  wp (ActiveVersion sni) s tr (fun r s' tr' => s' = s /\ read_back v r tr').
Proof.
  intros Hd Hv [mode Hl]. unfold ActiveVersion. apply wp_mbind, wp_call. intros [] s1 ->.
  { apply wp_ret. split; [done|]. simpl. by rewrite occurs_snoc, orb_true_r. }
  rewrite Hd. apply wp_mbind, wp_call. intros value s2 [-> Hr]. cbn in Hr. rewrite Hl in Hr. destruct value as [data| |].
  - destruct Hr as (f & [= <-] & <-). cbv zeta. cbn [f_data]. rewrite marker_reads, Hv by done. by apply wp_ret.
  - done.
  - apply wp_ret. split; [done|]. simpl. by rewrite occurs_snoc, orb_true_r.
Qed.

Lemma wp_Load s tr sni d v e m :
  canonicalSNI sni = Ok d -> versionPattern v = true -> look s d v = Some e -> holds_material e m ->
  wp (Load windows sni v) s tr (fun r s' tr' => s' = s /\ read_back m r tr').
Proof.
  intros Hd Hv Hl (mode & files & cert & key & -> & Hc & Hcd & Hk & Hkd & Hkm).
  assert (forall tr, wp (load_files d v) s tr (fun r s' tr' => s' = s /\ read_back m r tr')) as Hfiles.
  { intros tr0. unfold load_files. apply wp_mbind, wp_call. intros c s1 [-> Hr]. cbn in Hr. rewrite Hl, Hc in Hr.
    destruct c as [data| |]; [|done|apply wp_ret; split; [done|]; simpl; by rewrite occurs_snoc, orb_true_r].
    destruct Hr as (? & [= <-] & <-). apply wp_mbind, wp_call. intros k s2 [-> Hr]. cbn in Hr. rewrite Hl, Hk in Hr.
    destruct k as [data| |]; [|done|apply wp_ret; split; [done|]; simpl; by rewrite occurs_snoc, orb_true_r].
    destruct Hr as (? & [= <-] & <-). apply wp_ret. split; [done|]. simpl. rewrite Hcd, Hkd. by destruct m. }
  unfold Load. apply wp_mbind, wp_call. intros [] s1 ->.
  { apply wp_ret. split; [done|]. simpl. by rewrite occurs_snoc, orb_true_r. }
  rewrite Hd, Hv. cbn [negb]. destruct windows; [apply Hfiles|].
  apply wp_mbind, wp_call. intros info s2 [-> Hi]. cbn in Hi. rewrite Hl, Hk in Hi. cbn in Hi.
  destruct info as [info|]; [|apply wp_ret; split; [done|]; simpl; by rewrite occurs_snoc, orb_true_r].
  destruct Hi as [|[= ->]]; [done|]. simpl. rewrite Hkm. apply Hfiles.
Qed.

(** C27. What [Stage] and [Activate] reported as done reads back: the marker
    names the staged version and the version loads as the very material that
    was staged, whatever the state of the store was; a read fails only because
    the operating system failed it or the context was cancelled. *)
Theorem published_certificate_reads_back s sni m :
  store_reachable s ->
  always (publish sni m) s (fun tr a _ =>
    match a with
    | Some (v, current, loaded) =>
      versionPattern v = true /\ read_back v current tr /\ read_back m loaded tr
    | None => True
    end).
Proof.
  intros Hs%store_reachable_ok tr a s' Hr. unfold publish in Hr.
  apply runs_mbind in Hr as (tr1 & r1 & s1 & tr2 & -> & H1 & Hr).
  apply (iwp_runs (fun _ => True) _ _ _ (iwp_Stage umask reliable (fun _ => True) s (fun _ _ => Logic.I) Hs m sni (fun _ _ _ _ _ _ => Logic.I)) tr1) in H1.
  destruct r1 as [v|e]; [|by destruct Hr as (_ & -> & _)]. destruct H1 as (d & Hd & Hv & Hst).
  apply runs_mbind in Hr as (tr3 & r2 & s2 & tr4 & -> & H2 & Hr).
  pose proof (staged_ok _ _ _ _ _ Hs Hv Hst) as Hs1.
  apply (iwp_runs (fun _ => True) _ _ _ (iwp_Activate umask reliable (fun _ => True) s1 (fun _ _ => Logic.I) Hs1 sni v (fun _ _ _ _ _ _ => Logic.I)) tr3) in H2.
  destruct r2; [by destruct Hr as (_ & -> & _)|].
  destruct H2 as [[_ ?]|(d' & Hd' & _ & _ & Ha & Hname)]; [done|]. rewrite Hd in Hd'. injection Hd' as <-.
  assert (exists e, look s2 d v = Some e /\ holds_material e m) as (e & He & Hm).
  { destruct (st_version _ _ _ _ _ Hst) as (dm & cm & km & Hkm & Hl). eexists. split.
    - rewrite <-Hl. apply version_visible in Hv as [? ?]. by apply Ha; [|right].
    - by repeat eexists. }
  assert (wp (current ← ActiveVersion sni; loaded ← Load windows sni v; mret (Some (v, current, loaded))) s2 (tr1 ++ tr3)
    (fun a _ tr => match a with
      | Some (v, current, loaded) => versionPattern v = true /\ read_back v current tr /\ read_back m loaded tr
      | None => True end)) as Hwp.
  { apply wp_mbind. eapply wp_mono; [exact (wp_ActiveVersion _ _ sni d v Hd Hv (Hname eq_refl))|]. intros current ? tr5 [-> Hcur].
    apply wp_mbind. eapply wp_mono; [apply wp_conj; [exact (wp_Load s2 tr5 sni d v e m Hd Hv He Hm)|apply wp_grows]|]. intros loaded ? tr6 [[-> Hload] [t ->]].
    apply wp_ret. split_and!; [done| |done]. destruct current; [done|]. simpl in *. unfold occurs in *. by rewrite existsb_app, Hcur. }
  pose proof (wp_runs _ _ _ _ Hwp _ _ _ Hr) as H. by rewrite <-app_assoc in H.
Qed.
End Claims.

(** ** A concrete file system *)
#[export] Instance file_eq_dec : EqDecision file.
Proof. solve_decision. Defined.
#[export] Instance entry_eq_dec : EqDecision entry.
Proof. solve_decision. Defined.
#[export] Instance can_replace_dec e e' : Decision (can_replace e e').
Proof. destruct e as [[]|], e' as [[]|]; apply _. Defined.

Definition new_entry (s : fs) (d name : string) (e : entry) : option string * fs :=
  match s !! d, look s d name with
  | Some _, None => (Some name, put s d name (Some e))
  | _, _ => (None, s)
  end.

(** Every call that can succeed does; the clock and the random bytes stand still. *)
Definition working_disk (umask : Z) : handler fsE fs := fun X e s =>
  match e in fsE X return X * fs with
  | FCtxErr => (false, s)
  | FAbs root => (Some root, s)
  | FRandom => (Some [0; 0; 0; 255], s)
  | FUtcNow => (mkCivil 2026 1 31 23 59 58, s)
  | FMkdirAll p mode => (true, mkdir s p (masked umask mode))
  | FChmod p mode => (true, chmod s p mode)
  | FMkdirTemp d prefix => new_entry s d (prefix +:+ "1") (EDir (masked umask 448) ∅)
  | FCreateTemp d prefix => new_entry s d (prefix +:+ "1") (EFile (mkFile [] (masked umask 384)))
  | FOpenExclusive p mode =>
    match get_file s p with Some _ => (false, s) | None => (true, set_file s p (mkFile [] (masked umask mode))) end
  | FWrite p data =>
    match get_file s p with
    | Some f => (true, set_file s p (mkFile (f_data f ++ take (length data) data) (f_mode f)))
    | None => (false, s)
    end
  | FSync _ | FClose _ => (true, s)
  | FRename d source target =>
    if decide (can_replace (look s d source) (look s d target))
    then (Renamed, put (put s d source None) d target (look s d source))
    else (RenameFailed, s)
  | FRemove d name => match look s d name with Some (EDir _ _) => (tt, s) | _ => (tt, put s d name None) end
  | FRemoveAll d name => (tt, put s d name None)
  | FStat p => (stat_of s p, s)
  | FReadFile p => match get_file s p with Some f => (ReadData (f_data f), s) | None => (ReadNotExist, s) end
  end.

Lemma HasPrefix_app s t : HasPrefix (s +:+ t) s = true.
Proof. induction s as [|a s IH]; [by destruct t|]. rewrite string_app_cons. simpl. by rewrite Ascii.eqb_refl. Qed.

Lemma working_disk_works umask X (e : fsE X) s :
  file_system umask true _ e s (fst (working_disk umask X e s)) (snd (working_disk umask X e s)).
Proof.
  assert (forall d name en, let r := new_entry s d name en in
    match fst r with
    | None => snd r = s
    | Some n => n = name /\ is_Some (s !! d) /\ look s d name = None /\ snd r = put s d name (Some en)
    end) as Hnew.
  { intros d name en. unfold new_entry. destruct (s !! d) eqn:Hs; [|done]. destruct (look s d name) eqn:Hl; [done|].
    split_and!; [done|by eexists|done|done]. }
  destruct e as [|r| | |p mode|p mode|d pre|d pre|p mode|p data|p|p|d src tgt|d n|d n|p|p];
    cbn [working_disk file_system fst snd]; try done.
  - split; [done|]. split; [done|]. repeat (apply List.Forall_cons; [lia|]). apply List.Forall_nil.
  - specialize (Hnew d (pre +:+ "1") (EDir (masked umask 448) ∅)). destruct (new_entry _ _ _ _) as [[n|] s'] eqn:Hn; simpl in *; [|done].
    destruct Hnew as (-> & ? & ? & ->). split_and!; [done|done|apply HasPrefix_app|done].
  - specialize (Hnew d (pre +:+ "1") (EFile (mkFile [] (masked umask 384)))). destruct (new_entry _ _ _ _) as [[n|] s'] eqn:Hn; simpl in *; [|done].
    destruct Hnew as (-> & ? & ? & ->). split_and!; [done|done|apply HasPrefix_app|done].
  - destruct (get_file s p) eqn:Hf; [done|]. by split.
  - destruct (get_file s p); [|done]. by exists (length data).
  - destruct (decide _) as [Hr|Hr]; simpl; [done|]. split; [done|]. by intros _.
  - destruct (look s d n) as [[]|] eqn:Hl; simpl; auto.
  - exists None. split; [by destruct (look s d n) as [[]|]|done].
  - split; [done|]. by right.
  - destruct (get_file s p) eqn:Hf; simpl; [|done]. split; [done|]. by eexists.
Qed.

Lemma working_disk_runs umask {A} (p : prog fsE A) s :
  let '(tr, a, s') := run (working_disk umask) p s in @runs fsE fs (file_system umask true) _ p s tr a s'.
Proof. apply run_runs. intros. apply working_disk_works. Qed.

Definition example_material : Material := mkMaterial [67; 69; 82; 84] [75; 69; 89].
Definition example_version : string := "v-20260131T235958Z-000000ff".
Definition example_staged : fs := (run (working_disk 18) (store_run false (DoStage "Example.org." example_material)) ∅).2.

Lemma example_staged_reachable : store_reachable 18 true false example_staged.
Proof.
  eapply (store_step _ _ _ ∅ (DoStage "Example.org." example_material)); [constructor|].
  pose proof (working_disk_runs 18 (store_run false (DoStage "Example.org." example_material)) ∅) as H.
  unfold example_staged. destruct (run _ _ _) as [[tr a] s']. by eapply runs_crashes.
Qed.

Lemma example_staged_version : is_Some (look example_staged "example.org" example_version).
Proof. vm_compute. by eexists. Qed.

Lemma certificate_store_survives_crashes_witness :
  store_reachable 18 true false example_staged /\ store_ok example_staged /\
  exists s', crashes (E := fsE) (Env0 := file_system 18 true) (store_run false (DoActivate "example.org" example_version)) example_staged s' /\
    survives true (DoActivate "example.org" example_version) example_staged s' /\
    names_version example_version (look s' "example.org" currentName).
Proof.
  split; [apply example_staged_reachable|].
  destruct (certificate_store_survives_crashes 18 true false example_staged example_staged_reachable) as [Hok Hc].
  split; [exact Hok|]. exists (run (working_disk 18) (store_run false (DoActivate "example.org" example_version)) example_staged).2.
  pose proof (working_disk_runs 18 (store_run false (DoActivate "example.org" example_version)) example_staged) as H.
  assert (names_version example_version (look (run (working_disk 18) (store_run false (DoActivate "example.org" example_version)) example_staged).2
    "example.org" currentName)) as Hn by (by vm_compute; eexists).
  destruct (run _ _ _) as [[tr a] s']. apply runs_crashes in H. auto.
Defined.

Lemma published_certificate_reads_back_witness :
  store_reachable 18 true false ∅ /\
  exists tr s', @runs fsE fs (file_system 18 true) _ (publish false "Example.org." example_material) ∅ tr
    (Some (example_version, Ok example_version, Ok example_material)) s' /\
    read_back example_material (Ok (E := certErr) example_material) tr.
Proof.
  split; [constructor|].
  pose proof (working_disk_runs 18 (publish false "Example.org." example_material) ∅) as H.
  assert ((run (working_disk 18) (publish false "Example.org." example_material) ∅).1.2 =
    Some (example_version, Ok example_version, Ok example_material)) as Ha by (by vm_compute).
  destruct (run _ _ _) as [[tr a] s']. simpl in Ha. subst a. exists tr, s'. split; [exact H|].
  exact (proj2 (proj2 (published_certificate_reads_back 18 true false ∅ "Example.org." example_material (store_empty _ _ _) _ _ _ H))).
Defined.

(** *** The two-layer store cannot return to a version of the old layer *)

(** [FallbackStore.Activate] only asks the new layer, where a version of the
    old layer does not exist: a rollback to it, or the repair of the marker
    after a failed first renewal, always fails. *)
Lemma fallback_never_activates_a_legacy_version umask reliable windows (legacy : Store fsE) s sni d v :
  store_reachable umask reliable windows s -> canonicalSNI sni = Ok d -> look s d v = None ->
  forall tr r s', @runs fsE fs (file_system umask reliable) _
    (store_Activate (FallbackStore (FileStore windows) legacy) sni v) s tr r s' -> r <> None.
Proof.
  intros Hs%store_reachable_ok Hd Hl tr r s' Hr. cbn [FallbackStore FileStore store_Activate] in Hr.
  apply (iwp_runs (fun _ => True) _ _ _ (iwp_Activate umask reliable (fun _ => True) s (fun _ _ => Logic.I) Hs sni v (fun _ _ _ _ _ _ => Logic.I)) tr) in Hr.
  destruct Hr as [[_ Hr]|(d' & Hd' & _ & [e He] & _)]; [done|]. rewrite Hd in Hd'. injection Hd' as <-. by rewrite Hl in He.
Qed.
