(* ===== verification/Acme.v ===== *)
(** * Issuance over ACME ([internal/certmanager/acme.go],
    [internal/certmanager/cloudflare.go])

    The issuer and the provider of DNS challenges, both over one effect: the
    requests to Cloudflare, the DNS lookups, and the calls of the ACME
    library.  The issuer knows the provider through the interface
    [DNSChallengeProvider]; Cloudflare is its implementation. *)

From S2P Require Import Prelude GoStrings GoText Unicode GoURL Http Effects CertTypes Certificates CertStore CertManager.

#[local] Open Scope Z_scope.

(** ** Data of the two services *)
Record cloudflareResponse (R : Type) : Type := mkCloudflareResponse { cf_Success : bool; cf_Result : R; cf_Errors : list Z }.
Arguments mkCloudflareResponse {R} cf_Success cf_Result cf_Errors.
Arguments cf_Success {R} _.
Arguments cf_Result {R} _.
Arguments cf_Errors {R} _.

(** The body of the request that creates a record. *)
Record txtRecord : Type := mkTxtRecord { txt_type : string; txt_name : string; txt_content : string; txt_ttl : Z }.

(** A request; [rq_detached]: it does not end with the context of the caller. *)
Record cfRequest : Type := mkCfRequest {
  rq_base : URL; rq_method : string; rq_path : string; rq_query : option string; rq_authorization : string;
  rq_body : option txtRecord; rq_detached : bool
}.

Record Challenge : Type := mkChallenge { ch_Type : string; ch_URI : string; ch_Token : string }.
Inductive acmeStatus : Type := AcmeValid | AcmeOther.
Record Authorization : Type := mkAuthorization { auth_Status : acmeStatus; auth_Challenges : list Challenge }.
Record Order : Type := mkOrder { ord_URI : string; ord_AuthzURLs : list string; ord_FinalizeURL : string }.
Inductive registration : Type := Registered | AccountAlreadyExists | RegistrationFailed.

#[export] Instance cfRequest_inhabited : Inhabited cfRequest := populate (mkCfRequest no_url "" "" None "" None false).

(** ** Effects

    A private key is its secret number; an answer [None] or [false] is an
    error.  [AccountReady] and [SetAccountReady] are the field of the issuer
    behind [accountMu]; [PropagationWait] is the [select] between two
    lookups, [true] when the ticker won. *)
Inductive acmeE : Type -> Type :=
  | CfZones (q : cfRequest) : acmeE (httpOutcome (cloudflareResponse (list string)))
  | CfRecord (q : cfRequest) : acmeE (httpOutcome (cloudflareResponse string))
  | CfRaw (q : cfRequest) : acmeE (httpOutcome (cloudflareResponse unit))
  | LookupTXT (fqdn : string) : acmeE (option (list string))
  | PropagationWait : acmeE bool
  | AccountLock : acmeE unit
  | AccountUnlock : acmeE unit
  | AccountReady : acmeE bool
  | SetAccountReady : acmeE unit
  | Register (contact : string) : acmeE registration
  | AuthorizeOrder (domain : string) : acmeE (option Order)
  | GetAuthorization (url : string) : acmeE (option Authorization)
  | Accept (challenge : Challenge) : acmeE bool
  | WaitAuthorization (url : string) : acmeE bool
  | WaitOrder (uri : string) : acmeE (option Order)
  | GenerateKey : acmeE (option Z)
  | CreateCertificateRequest (domain : string) (key : Z) : acmeE (option bytes)
  | CreateOrderCert (url : string) (csr : bytes) : acmeE (option (list bytes)).

(** Library functions: the value of a challenge under the key of the account,
    and the encodings. *)
Class AcmeLibrary : Type := {
  DNS01ChallengeRecord : string -> option string;
  MarshalPKCS8PrivateKey : Z -> option bytes;
  EncodeToMemory : PemBlock -> bytes
}.

(** ** The interface of the provider

    [Present] answers the function that removes the record again; its argument
    says whether its context is detached from the caller's. *)
Class DNSChallengeProvider : Type := {
  Present : string -> string -> prog acmeE (result certErr (bool -> prog acmeE (option certErr)));
  WaitPropagation : string -> string -> prog acmeE (option certErr)
}.

(** ** Cloudflare *)

(** [url.QueryEscape]. *)
Definition unescaped_query_byte (a : ascii) : bool :=
  byte_in 97 122 a || byte_in 65 90 a || byte_in 48 57 a || str_exists (Ascii.eqb a) "-_.~".

Fixpoint QueryEscape (s : string) : string :=
  match s with
  | EmptyString => ""
  | String a s' =>
    (if unescaped_query_byte a then String a ""
     else if Ascii.eqb a " " then "+"
     else String "%" (String (upper_hex (byte_of a / 16)) (String (upper_hex (byte_of a mod 16)) "")))
    +:+ QueryEscape s'
  end.

Record CloudflareDNS : Type := mkCloudflareDNS {
  cfd_baseURL : URL; cfd_token : string; cfd_propagationTimeout : Z; cfd_propagationInterval : Z
}.

Definition newCloudflareDNS (base : URL) (token : string) (timeout propagationTimeout propagationInterval : Z) : result certErr CloudflareDNS :=
  if String.eqb (url_Scheme base) "" || String.eqb (url_Host base) "" || String.eqb (TrimSpace token) "" || (timeout <=? 0) ||
     (propagationTimeout <=? 0) || (propagationInterval <=? 0)
  then Err (CertSentinel ErrInvalidInput)
  else Ok (mkCloudflareDNS base (TrimSpace token) propagationTimeout propagationInterval).

Definition NewCloudflareDNS (token : string) (timeout propagationTimeout propagationInterval : Z) : result certErr CloudflareDNS :=
  match Parse "https://api.cloudflare.com/client/v4/" with
  | None => Err (CertSentinel ErrInvalidInput)
  | Some base => newCloudflareDNS base token timeout propagationTimeout propagationInterval
  end.

Definition CloudflareDNS_String (c : CloudflareDNS) : string := "CloudflareDNS{token:[REDACTED]}".

Definition cloudflareRejected (message : string) (problems : list Z) : certErr :=
  let message := match problems with
                 | code :: _ => if 0 <? code then message +:+ " (code " +:+ Itoa code +:+ ")" else message
                 | [] => message
                 end in
  safe message (CertSentinel ErrIssuanceFailed).

Definition canonicalChallengeName (value : string) : result certErr string :=
  let value := ToLower (TrimSuffix (TrimSpace value) ".") in
  if negb (HasPrefix value "_acme-challenge.") then Err (CertSentinel ErrInvalidInput)
  else match canonicalSNI (TrimPrefix value "_acme-challenge.") with
       | Err e => Err e
       | Ok _ => Ok value
       end.

Definition http_problem (status : Z) : certErr :=
  safe (if status =? 401 then "Cloudflare API authentication failed (HTTP 401)"
        else if status =? 403 then "Cloudflare API token lacks DNS permissions (HTTP 403)"
        else if status =? 429 then "Cloudflare API rate limit was reached (HTTP 429)"
        else "Cloudflare API request failed (HTTP " +:+ Itoa status +:+ ")") (CertSentinel ErrIssuanceFailed).

Section Cloudflare.
Context (c : CloudflareDNS).

(** The request of [call]: the text after the first [?] is the query. *)
Definition cf_request (detached : bool) (method path : string) (body : option txtRecord) : cfRequest :=
  let '(p, query) := match cut_first "?" path with Some (p, query) => (p, Some query) | None => (path, None) end in
  mkCfRequest (cfd_baseURL c) method p query ("Bearer " +:+ cfd_token c) body detached.

(** What [call] makes of the response. *)
Definition cf_decode {R} (outcome : httpOutcome R) : result certErr R :=
  match outcome with
  | TransportFailed => Err (safe "Cloudflare API request failed" (CertSentinel ErrIssuanceFailed))
  | Response status body =>
    if (status <? 200) || (300 <=? status) then Err (http_problem status)
    else match body with
         | BodyValue v => Ok v
         | BodyInvalid | BodyTrailing => Err (CertSentinel ErrIssuanceFailed)
         end
  end.

Definition cf_call {R} (target : cfRequest -> acmeE (httpOutcome R)) (detached : bool) (method path : string) (body : option txtRecord) :
  prog acmeE (result certErr R) :=
  cf_decode <$> call (target (cf_request detached method path body)).

(** The loop of [findZone]: one label less in every turn. *)
Fixpoint find_zone (labels : list string) : prog acmeE (result certErr string) :=
  match labels with
  | [] | [_] => mret (Err (safe "Cloudflare DNS zone was not found for the SNI" (CertSentinel ErrNotFound)))
  | _ :: rest =>
    let candidate := Join labels "." in
    answer ← cf_call CfZones false "GET" ("zones?name=" +:+ QueryEscape candidate +:+ "&status=active") None;
    match answer with
    | Err e => mret (Err e)
    | Ok response =>
      if negb (cf_Success response) then mret (Err (cloudflareRejected "Cloudflare rejected DNS zone lookup" (cf_Errors response)))
      else match cf_Result response with
           | [id] => if String.eqb id "" then find_zone rest else mret (Ok id)
           | _ => find_zone rest
           end
    end
  end.

Definition findZone (fqdn : string) : prog acmeE (result certErr string) := find_zone (Split fqdn ".").

Definition records_path (zoneID : string) : string := "zones/" +:+ PathEscape zoneID +:+ "/dns_records".

(** The function [Present] returns. *)
Definition cf_cleanup (zoneID recordID : string) (detached : bool) : prog acmeE (option certErr) :=
  answer ← cf_call CfRaw detached "DELETE" (records_path zoneID +:+ "/" +:+ PathEscape recordID) None;
  match answer with
  | Err e => mret (Some (safe (SafeMessage e "Cloudflare DNS challenge record could not be removed") (CertSentinel ErrIssuanceFailed)))
  | Ok deleted =>
    if negb (cf_Success deleted) then mret (Some (cloudflareRejected "Cloudflare rejected DNS challenge cleanup" (cf_Errors deleted)))
    else mret None
  end.

Definition cf_Present (fqdn value : string) : prog acmeE (result certErr (bool -> prog acmeE (option certErr))) :=
  match canonicalChallengeName fqdn with
  | Err _ => mret (Err (CertSentinel ErrInvalidInput))
  | Ok name =>
    if String.eqb (TrimSpace value) "" then mret (Err (CertSentinel ErrInvalidInput))
    else
      zone ← findZone name;
      match zone with
      | Err e => mret (Err (safe (SafeMessage e "Cloudflare DNS zone could not be resolved") (CertSentinel ErrIssuanceFailed)))
      | Ok zoneID =>
        answer ← cf_call CfRecord false "POST" (records_path zoneID) (Some (mkTxtRecord "TXT" name value 60));
        match answer with
        | Err e => mret (Err (safe (SafeMessage e "Cloudflare DNS challenge record could not be created") (CertSentinel ErrIssuanceFailed)))
        | Ok response =>
          if negb (cf_Success response) || String.eqb (cf_Result response) ""
          then mret (Err (cloudflareRejected "Cloudflare rejected the DNS challenge record" (cf_Errors response)))
          else mret (Ok (cf_cleanup zoneID (cf_Result response)))
        end
      end
  end.

(** The loop of [WaitPropagation]. The ticker fires at most once per interval,
    keeps one tick, and a lookup after the deadline ends at once, so at most
    [timeout / interval + 2] ticks are received before the deadline wins. *)
Fixpoint await_record (rounds : nat) (fqdn value : string) : prog acmeE (option certErr) :=
  match rounds with
  | O => mret (Some (safe "ACME DNS challenge record did not propagate before timeout" (CertSentinel ErrIssuanceFailed)))
  | S rounds =>
    values ← call (LookupTXT fqdn);
    if existsb (String.eqb value) (default [] values) then mret None
    else
      tick ← call PropagationWait;
      if tick : bool then await_record rounds fqdn value
      else mret (Some (safe "ACME DNS challenge record did not propagate before timeout" (CertSentinel ErrIssuanceFailed)))
  end.

Definition propagation_rounds : nat := Z.to_nat (cfd_propagationTimeout c / cfd_propagationInterval c + 3).

Definition cf_WaitPropagation (fqdn value : string) : prog acmeE (option certErr) := await_record propagation_rounds fqdn value.

#[export] Instance cloudflare_provider : DNSChallengeProvider := {| Present := cf_Present; WaitPropagation := cf_WaitPropagation |}.
End Cloudflare.

(** ** The issuer *)
Record ACMEIssuer : Type := mkACMEIssuer { iss_DirectoryURL : string; iss_email : string }.

Definition NewACMEIssuer (directoryURL email : string) : result certErr ACMEIssuer :=
  if String.eqb (TrimSpace directoryURL) "" || String.eqb (TrimSpace email) "" then Err (CertSentinel ErrInvalidInput)
  else Ok (mkACMEIssuer (TrimSpace directoryURL) (TrimSpace email)).

Section Issuer.
Context {library : AcmeLibrary} {provider : DNSChallengeProvider} (i : ACMEIssuer).

Definition issuance (message : string) : certErr := safe message (CertSentinel ErrIssuanceFailed).

(** [false]: the registration failed. *)
Definition ensureAccount : prog acmeE bool :=
  call AccountLock ≫= fun _ =>
  finally
    (ready ← call AccountReady;
     if (ready : bool) then mret true
     else
       answer ← call (Register ("mailto:" +:+ iss_email i));
       match answer with
       | RegistrationFailed => mret false
       | Registered | AccountAlreadyExists => call SetAccountReady ≫= fun _ => mret true
       end)
    (call AccountUnlock).

Definition dnsChallenge (authorization : Authorization) : option Challenge :=
  List.find (fun challenge => String.eqb (ch_Type challenge) "dns-01") (auth_Challenges authorization).

(** The function literal of [Issue]; its [defer] removes the record. *)
Definition authorize (cleanup : bool -> prog acmeE (option certErr)) (challengeName value : string) (challenge : Challenge)
    (authorizationURL : string) : prog acmeE (option certErr) :=
  finally
    (waited ← WaitPropagation challengeName value;
     match waited with
     | Some e => mret (Some e)
     | None =>
       accepted ← call (Accept challenge);
       if negb (accepted : bool) then mret (Some ForeignError)
       else
         valid ← call (WaitAuthorization authorizationURL);
         mret (if (valid : bool) then None else Some ForeignError)
     end)
    (cleanup true ≫= fun _ => mret tt).

(** One turn of the loop over the authorizations. *)
Definition authorization_turn (domain authorizationURL : string) : prog acmeE (option certErr) :=
  answer ← call (GetAuthorization authorizationURL);
  match answer with
  | None => mret (Some (issuance "ACME authorization lookup failed"))
  | Some authorization =>
    match auth_Status authorization with
    | AcmeValid => mret None
    | AcmeOther =>
      match dnsChallenge authorization with
      | None => mret (Some (issuance "ACME server did not offer a DNS-01 challenge"))
      | Some challenge =>
        match DNS01ChallengeRecord (ch_Token challenge) with
        | None => mret (Some (issuance "ACME DNS-01 challenge value could not be generated"))
        | Some value =>
          presented ← Present ("_acme-challenge." +:+ domain) value;
          match presented with
          | Err e => mret (Some (issuance (SafeMessage e "ACME DNS-01 challenge could not be presented")))
          | Ok cleanup =>
            done ← authorize cleanup ("_acme-challenge." +:+ domain) value challenge authorizationURL;
            mret (match done with None => None | Some e => Some (issuance (SafeMessage e "ACME DNS-01 authorization failed")) end)
          end
        end
      end
    end
  end.

Fixpoint authorize_all (domain : string) (urls : list string) : prog acmeE (option certErr) :=
  match urls with
  | [] => mret None
  | url :: urls' => authorization_turn domain url ;;? authorize_all domain urls'
  end.

Definition pem_chain (derChain : list bytes) : bytes := concat ((fun der => EncodeToMemory (mkPemBlock "CERTIFICATE" der)) <$> derChain).

(** The rest of [Issue], once every authorization is valid. *)
Definition finalize (domain : string) (uri : string) : prog acmeE (result certErr Material) :=
  order ← call (WaitOrder uri);
  match order with
  | None => mret (Err (issuance "ACME certificate order did not become ready"))
  | Some order =>
    key ← call GenerateKey;
    match key with
    | None => mret (Err (CertSentinel ErrIssuanceFailed))
    | Some certificateKey =>
      csr ← call (CreateCertificateRequest domain certificateKey);
      match csr with
      | None => mret (Err (CertSentinel ErrIssuanceFailed))
      | Some csr =>
        chain ← call (CreateOrderCert (ord_FinalizeURL order) csr);
        match chain with
        | None | Some [] => mret (Err (issuance "ACME certificate finalization failed"))
        | Some derChain =>
          match MarshalPKCS8PrivateKey certificateKey with
          | None => mret (Err (CertSentinel ErrIssuanceFailed))
          | Some privateDER => mret (Ok (mkMaterial (pem_chain derChain) (EncodeToMemory (mkPemBlock "PRIVATE KEY" privateDER))))
          end
        end
      end
    end
  end.

Definition Issue (sni : string) : prog acmeE (result certErr Material) :=
  match canonicalSNI sni with
  | Err e => mret (Err e)
  | Ok domain =>
    ready ← ensureAccount;
    if negb (ready : bool) then mret (Err (issuance "ACME account registration failed"))
    else
      order ← call (AuthorizeOrder domain);
      match order with
      | None => mret (Err (issuance "ACME certificate order failed"))
      | Some order =>
        failed ← authorize_all domain (ord_AuthzURLs order);
        match failed with
        | Some e => mret (Err e)
        | None => finalize domain (ord_URI order)
        end
      end
  end.
End Issuer.
