(* ===== verification/AcmeFacts.v ===== *)
(** * Issuance follows its authorizations

    What the runs of the issuer do, for every implementation of
    [DNSChallengeProvider] that satisfies the laws of [LawfulProvider];
    Cloudflare does. *)

From S2P Require Import Prelude GoStrings GoText Unicode GoURL Http Effects CertTypes Certificates CertStore CertManager Acme.

#[local] Open Scope Z_scope.

(** ** The challenge records in the zone *)

(** The path of the record an event is the confirmed creation of. *)
Definition creates (ev : event acmeE) : option string :=
  match ev with
  | @Ev _ _ op res =>
    match op in acmeE X return X -> option string with
    | CfRecord q => fun res =>
      match cf_decode res with
      | Ok r => if negb (cf_Success r) || String.eqb (cf_Result r) "" then None
                else Some (rq_path q +:+ "/" +:+ PathEscape (cf_Result r))
      | Err _ => None
      end
    | _ => fun _ => None
    end res
  end.

(** The path an event is a detached request to remove. *)
Definition deletes (ev : event acmeE) : option string :=
  match ev_op ev with
  | CfRaw q => if String.eqb (rq_method q) "DELETE" && rq_detached q then Some (rq_path q) else None
  | _ => None
  end.

Definition pending_step (l : list string) (ev : event acmeE) : list string :=
  match creates ev with
  | Some p => p :: l
  | None => match deletes ev with Some p => filter (fun p' => p' <> p) l | None => l end
  end.

(** Known to be created, and not asked to be removed since. *)
Definition pending (tr : list (event acmeE)) : list string := fold_left pending_step tr [].

Lemma pending_snoc tr ev : pending (tr ++ [ev]) = pending_step (pending tr) ev.
Proof. unfold pending. by rewrite fold_left_app. Qed.

(** Every record whose creation was confirmed is asked to be removed later. *)
Definition removed_later (tr : list (event acmeE)) : Prop :=
  forall past ev future p, tr = past ++ ev :: future -> creates ev = Some p -> exists ev', ev' ∈ future /\ deletes ev' = Some p.

Lemma pending_stays p future l :
  p ∈ l -> Forall (fun ev => deletes ev <> Some p) future -> p ∈ fold_left pending_step future l.
Proof.
  intros Hp Hf. revert l Hp. induction Hf as [|ev future Hev _ IH]; intros l Hp; [done|]. cbn [fold_left]. apply IH.
  unfold pending_step. destruct (creates ev); [by right|]. destruct (deletes ev) as [p'|]; [|done].
  apply list_elem_of_filter. split; [|done]. by intros ->.
Qed.

Lemma nothing_pending tr : pending tr = [] -> removed_later tr.
Proof.
  intros Hp past ev future p -> Hc.
  destruct (decide (Exists (fun ev' => deletes ev' = Some p) future)) as [He|Hn]; [by apply Exists_exists in He|].
  exfalso. apply Forall_Exists_neg, (pending_stays p future (pending_step (pending past) ev)) in Hn.
  - unfold pending in Hp. rewrite fold_left_app in Hp. cbn in Hp. unfold pending in Hn. rewrite Hp in Hn. by apply not_elem_of_nil in Hn.
  - unfold pending_step. rewrite Hc. left.
Qed.

(** ** What the issuer may rely on *)
Definition presents (fqdn value : string) (ev : event acmeE) : Prop :=
  match ev_op ev with
  | CfZones q => rq_method q = "GET"
  | CfRecord q => rq_method q = "POST" /\ exists name, canonicalChallengeName fqdn = Ok name /\ rq_body q = Some (mkTxtRecord "TXT" name value 60)
  | _ => False
  end.

Definition removes_record (p : string) (ev : event acmeE) : Prop :=
  match ev_op ev with CfRaw q => rq_method q = "DELETE" /\ rq_detached q = true /\ rq_path q = p | _ => False end.

Definition waits_for (fqdn : string) (ev : event acmeE) : Prop :=
  match ev_op ev with LookupTXT name => name = fqdn | PropagationWait => True | _ => False end.

(** The name server answered the value. *)
Definition seen (fqdn value : string) (tr : list (event acmeE)) : Prop :=
  exists values, Ev (LookupTXT fqdn) (Some values) ∈ tr /\ value ∈ values.

Notation rule := (list (event acmeE) -> event acmeE -> Prop) (only parsing).

(** A cleanup removes the record [p], and does nothing else. *)
Definition cleans (cleanup : bool -> prog acmeE (option certErr)) (p : string) : Prop :=
  forall (R : rule) tr, (forall past ev, p ∈ pending past -> removes_record p ev -> R past ev) -> every R tr -> p ∈ pending tr ->
  wp (cleanup true) tt tr (fun _ _ tr' => keeps R tr tr' /\ pending tr' = filter (fun p' => p' <> p) (pending tr)).

Class LawfulProvider `{DNSChallengeProvider} : Prop := {
  present_law fqdn value (R : rule) tr :
    (forall past ev, presents fqdn value ev -> R past ev) -> every R tr ->
    wp (Present fqdn value) tt tr (fun r _ tr' => keeps R tr tr' /\
      match r with Err _ => pending tr' = pending tr | Ok cleanup => exists p, pending tr' = p :: pending tr /\ cleans cleanup p end);
  wait_law fqdn value (R : rule) tr :
    (forall past ev, waits_for fqdn ev -> R past ev) -> every R tr ->
    wp (WaitPropagation fqdn value) tt tr (fun r _ tr' => keeps R tr tr' /\ pending tr' = pending tr /\ (r = None -> seen fqdn value tr'))
}.

Lemma keeps_refl (R : rule) tr : every R tr -> keeps R tr tr.
Proof. by split. Qed.

(** ** Cloudflare satisfies the laws *)
Section Cloudflare.
Context (c : CloudflareDNS).

Lemma cut_first_none a s : str_exists (Ascii.eqb a) s = false -> cut_first a s = None.
Proof.
  induction s as [|b s IH]; [done|]. cbn. intros [Hb Hs]%orb_false_iff. rewrite (IH Hs). rewrite Ascii.eqb_sym in Hb. by rewrite Hb.
Qed.

Lemma PathEscape_plain s : str_exists (Ascii.eqb "?") (PathEscape s) = false.
Proof.
  induction s as [|a s IH]; [done|]. cbn [PathEscape]. rewrite str_exists_app, IH, orb_false_r.
  destruct (unescaped_path_byte a) eqn:Ha.
  - cbn. rewrite orb_false_r. destruct (Ascii.eqb "?" a) eqn:E; [|done]. apply Ascii.eqb_eq in E as <-. done.
  - destruct a as [[] [] [] [] [] [] [] []]; vm_compute; reflexivity.
Qed.

Lemma plain_request detached method path body :
  str_exists (Ascii.eqb "?") path = false ->
  cf_request c detached method path body = mkCfRequest (cfd_baseURL c) method path None ("Bearer " +:+ cfd_token c) body detached.
Proof. intros Hp. unfold cf_request. by rewrite cut_first_none. Qed.

Lemma records_plain z : str_exists (Ascii.eqb "?") (records_path z) = false.
Proof. unfold records_path. by rewrite !str_exists_app, PathEscape_plain. Qed.

Lemma request_method detached method path body : rq_method (cf_request c detached method path body) = method.
Proof. unfold cf_request. by destruct (cut_first "?" path) as [[]|]. Qed.

Lemma find_zone_wp labels (R : rule) tr :
  (forall past (ev : event acmeE), match ev_op ev with CfZones q => rq_method q = "GET" | _ => False end -> R past ev) -> every R tr ->
  wp (find_zone c labels) tt tr (fun _ _ tr' => keeps R tr tr' /\ pending tr' = pending tr).
Proof.
  intros HR. revert tr. induction labels as [|l [|l' labels] IH]; intros tr Htr; [by split; [apply keeps_refl|]..|].
  cbn [find_zone]. unfold cf_call. wp_answer x s H. destruct s.
  assert (keeps R tr (tr ++ [Ev (CfZones (cf_request c false "GET" ("zones?name=" +:+ QueryEscape (Join (l :: l' :: labels) ".") +:+ "&status=active") None)) x])) as Hk
    by (apply keeps_snoc; [done|apply HR; apply request_method]).
  assert (forall q, pending (tr ++ [Ev (CfZones q) x]) = pending tr) as Hq by (intros q; by rewrite pending_snoc).
  destruct (cf_decode x) as [response|e]; [|by wp_steps].
  assert (wp (find_zone c (l' :: labels)) tt (tr ++ [Ev (CfZones (cf_request c false "GET" ("zones?name=" +:+ QueryEscape (Join (l :: l' :: labels) ".") +:+ "&status=active") None)) x])
    (fun _ _ tr' => keeps R tr tr' /\ pending tr' = pending tr)) as Hrest.
  { eapply wp_mono; [apply IH, Hk|]. intros r [] tr' [H1 H2]. split; [by eapply keeps_trans; [apply Hk|]|]. by rewrite H2. }
  destruct (negb _); [by wp_steps|]. destruct (cf_Result response) as [|id [|]]; try done. destruct (String.eqb id ""); [done|by wp_steps].
Qed.

Lemma cf_cleans z id : cleans (cf_cleanup c z id) (records_path z +:+ "/" +:+ PathEscape id).
Proof.
  intros R tr HR Htr Hp. unfold cf_cleanup, cf_call.
  rewrite plain_request by by rewrite !str_exists_app, records_plain, PathEscape_plain.
  wp_answer x s H. destruct s.
  match goal with |- wp _ _ (tr ++ [?ev]) _ => assert (keeps R tr (tr ++ [ev]) /\ pending (tr ++ [ev]) = filter (fun p' => p' <> records_path z +:+ "/" +:+ PathEscape id) (pending tr)) as Hk end.
  { split; [apply keeps_snoc; [done|by apply HR]|]. by rewrite pending_snoc. }
  destruct (cf_decode x) as [deleted|e]; [|by wp_steps]. destruct (negb _); by wp_steps.
Qed.

Lemma cf_present fqdn value (R : rule) tr :
  (forall past ev, presents fqdn value ev -> R past ev) -> every R tr ->
  wp (cf_Present c fqdn value) tt tr (fun r _ tr' => keeps R tr tr' /\
    match r with Err _ => pending tr' = pending tr | Ok cleanup => exists p, pending tr' = p :: pending tr /\ cleans cleanup p end).
Proof.
  intros HR Htr. unfold cf_Present. destruct (canonicalChallengeName fqdn) as [name|e] eqn:Hname; [|by wp_steps; split; [apply keeps_refl|]].
  destruct (String.eqb _ ""); [by wp_steps; split; [apply keeps_refl|]|].
  wp_step. eapply wp_mono; [apply (find_zone_wp _ R)|].
  { intros past ev Hev. apply HR. unfold presents. by destruct (ev_op ev). }
  { done. }
  intros [z|e] [] tr1 [Hk Hp]; [|by wp_steps].
  unfold cf_call. rewrite plain_request by apply records_plain. wp_answer x s H. destruct s.
  match goal with |- wp _ _ (tr1 ++ [?ev]) _ => assert (keeps R tr (tr1 ++ [ev])) as Hk' end.
  { eapply keeps_trans; [apply Hk|]. apply keeps_snoc; [apply Hk|]. apply HR. cbn. eauto. }
  destruct (cf_decode x) as [response|e] eqn:Hx; cycle 1.
  { wp_steps. split; [done|]. rewrite pending_snoc. unfold pending_step. cbn. by rewrite Hx. }
  destruct (negb _ || _) eqn:Hbad.
  { wp_steps. split; [done|]. rewrite pending_snoc. unfold pending_step. cbn. by rewrite Hx, Hbad. }
  wp_steps. split; [done|]. eexists. split; [|apply cf_cleans].
  rewrite pending_snoc. unfold pending_step. cbn. by rewrite Hx, Hbad, Hp.
Qed.

Lemma await_record_wp rounds fqdn value (R : rule) tr :
  (forall past ev, waits_for fqdn ev -> R past ev) -> every R tr ->
  wp (await_record rounds fqdn value) tt tr (fun r _ tr' => keeps R tr tr' /\ pending tr' = pending tr /\ (r = None -> seen fqdn value tr')).
Proof.
  intros HR. revert tr. induction rounds as [|rounds IH]; intros tr Htr; cbn [await_record]; [by wp_steps; split; [apply keeps_refl|]|].
  wp_answer values s H. destruct s.
  assert (keeps R tr (tr ++ [Ev (LookupTXT fqdn) values])) as Hk by (apply keeps_snoc; [done|by apply HR]).
  assert (pending (tr ++ [Ev (LookupTXT fqdn) values]) = pending tr) as Hp by by rewrite pending_snoc.
  destruct (existsb _ _) eqn:He.
  { wp_steps. split_and!; [done|done|]. intros _. destruct values as [values|]; [|done]. exists values. split; [apply elem_snoc|].
    apply existsb_elem_of in He as (v & Hv & ->%String.eqb_eq). done. }
  wp_answer tick s H'. destruct s.
  assert (keeps R tr ((tr ++ [Ev (LookupTXT fqdn) values]) ++ [Ev PropagationWait tick])) as Hk2.
  { eapply keeps_trans; [apply Hk|]. apply keeps_snoc; [apply Hk|by apply HR]. }
  assert (pending ((tr ++ [Ev (LookupTXT fqdn) values]) ++ [Ev PropagationWait tick]) = pending tr) as Hp2 by by rewrite pending_snoc.
  destruct tick; [|by wp_steps]. eapply wp_mono; [apply IH, Hk2|]. intros r [] tr' (H1 & H2 & H3).
  split_and!; [by eapply keeps_trans; [apply Hk2|]|by rewrite H2|done].
Qed.

#[export] Instance cloudflare_lawful : @LawfulProvider (cloudflare_provider c).
Proof.
  split; [apply cf_present|]. intros. by apply await_record_wp.
Qed.
End Cloudflare.

(** ** The issuer *)
Section Issuer.
Context {library : AcmeLibrary} {provider : DNSChallengeProvider} {lawful : LawfulProvider} (i : ACMEIssuer) (domain : string).

Definition authorized (tr : list (event acmeE)) (url : string) : Prop :=
  (exists authorization, Ev (GetAuthorization url) (Some authorization) ∈ tr /\ auth_Status authorization = AcmeValid) \/
  Ev (WaitAuthorization url) true ∈ tr.

(** What a request may follow. *)
Definition issue_rule (past : list (event acmeE)) (ev : event acmeE) : Prop :=
  match ev_op ev with
  | CfZones q => rq_method q = "GET"
  | CfRecord q => rq_method q = "POST" /\ exists token value name, DNS01ChallengeRecord token = Some value /\
      canonicalChallengeName ("_acme-challenge." +:+ domain) = Ok name /\ rq_body q = Some (mkTxtRecord "TXT" name value 60)
  | CfRaw q => rq_method q = "DELETE" /\ rq_detached q = true /\ rq_path q ∈ pending past
  | Accept challenge => exists value, DNS01ChallengeRecord (ch_Token challenge) = Some value /\ seen ("_acme-challenge." +:+ domain) value past
  | CreateOrderCert url csr =>
      exists order, Ev (AuthorizeOrder domain) (Some order) ∈ past /\ Forall (authorized past) (ord_AuthzURLs order)
  | _ => True
  end.

(** Nothing is left in the zone after [tr0] became [tr]. *)
Definition tidy (tr0 tr : list (event acmeE)) : Prop := keeps issue_rule tr0 tr /\ pending tr = [].

Lemma tidy_trans tr0 tr1 tr2 : tidy tr0 tr1 -> tidy tr1 tr2 -> tidy tr0 tr2.
Proof. intros [H1 _] [H2 H3]. split; [|done]. by eapply keeps_trans; [apply H1|]. Qed.

Lemma tidy_snoc tr0 tr ev : tidy tr0 tr -> issue_rule tr ev -> pending_step [] ev = [] -> tidy tr0 (tr ++ [ev]).
Proof.
  intros [H1 H2] Hev Hp. split; [|by rewrite pending_snoc, H2]. eapply keeps_trans; [apply H1|]. apply keeps_snoc; [apply H1|done].
Qed.

Lemma tidy_refl tr : every issue_rule tr -> pending tr = [] -> tidy tr tr.
Proof. intros H1 H2. by split; [apply keeps_refl|]. Qed.

Lemma authorized_grows tr tr' url : grows tr tr' -> authorized tr url -> authorized tr' url.
Proof. intros Hg [(a & Ha & Hs)|Hw]; [left; exists a; split; [by eapply grows_elem|done]|right; by eapply grows_elem]. Qed.

Lemma tidy_grows tr0 tr : tidy tr0 tr -> grows tr0 tr.
Proof. by intros [[_ Hg] _]. Qed.

Ltac neutral H := let st := fresh "st" in let Hst := fresh "Hstep" in wp_answer H st Hst; destruct st.
Ltac stay Ht := first [ exact Ht | apply tidy_snoc; [stay Ht|exact I|reflexivity] ].

Lemma ensureAccount_wp tr0 tr : tidy tr0 tr -> wp (ensureAccount i) tt tr (fun _ _ tr' => tidy tr0 tr').
Proof.
  intros Ht. unfold ensureAccount. neutral u. neutral ready. destruct ready; [neutral v; wp_steps; stay Ht|].
  neutral answer. destruct answer; [neutral w|neutral w|]; neutral v; wp_steps; stay Ht.
Qed.

Lemma authorize_wp cleanup p value challenge url tr :
  cleans cleanup p -> every issue_rule tr -> pending tr = [p] -> DNS01ChallengeRecord (ch_Token challenge) = Some value ->
  wp (authorize cleanup ("_acme-challenge." +:+ domain) value challenge url) tt tr (fun r _ tr' =>
    tidy tr tr' /\ (r = None -> authorized tr' url)).
Proof.
  intros Hc Htr Hp Hv. unfold authorize. wp_step. wp_step.
  assert (forall (r : option certErr) tr1, keeps issue_rule tr tr1 -> pending tr1 = [p] -> (r = None -> authorized tr1 url) ->
    wp (cleanup true ≫= fun _ => mret tt) tt tr1 (fun _ _ tr' => tidy tr tr' /\ (r = None -> authorized tr' url))) as Hend.
  { intros r tr1 Hk1 Hp1 Ha. wp_step. eapply wp_mono; [apply (Hc issue_rule)|].
    - intros past ev Hin Hev. unfold removes_record in Hev. unfold issue_rule. destruct (ev_op ev); try done. destruct Hev as (? & ? & <-). done.
    - apply Hk1.
    - rewrite Hp1. left.
    - intros u [] tr2 [Hk2 Hp2]. wp_steps. split; [split|].
      + by eapply keeps_trans; [apply Hk1|].
      + rewrite Hp2, Hp1. cbn. by case_decide.
      + intros Hr. eapply authorized_grows; [apply Hk2|auto]. }
  eapply wp_mono; [apply (wait_law _ _ issue_rule)|].
  { intros past ev Hev. unfold waits_for in Hev. unfold issue_rule. by destruct (ev_op ev). }
  { done. }
  intros [e|] [] tr1 (Hk1 & Hp1 & Hs); [wp_step; apply (Hend (Some e)); [done|by rewrite Hp1|done]|].
  rewrite Hp in Hp1. wp_answer accepted s H2. destruct s.
  assert (keeps issue_rule tr (tr1 ++ [Ev (Accept challenge) accepted])) as Hk2.
  { eapply keeps_trans; [apply Hk1|]. apply keeps_snoc; [apply Hk1|]. exists value. split; [done|by apply Hs]. }
  assert (pending (tr1 ++ [Ev (Accept challenge) accepted]) = [p]) as Hp2 by by rewrite pending_snoc, Hp1.
  destruct accepted; cbn [negb]; [|wp_step; cbv beta; by apply (Hend (Some ForeignError))].
  wp_answer valid s H3. destruct s. wp_step. cbv beta. apply Hend.
  - eapply keeps_trans; [apply Hk2|]. by apply keeps_snoc; [apply Hk2|].
  - by rewrite pending_snoc, Hp2.
  - destruct valid; [|done]. intros _. right. apply elem_snoc.
Qed.

Lemma authorization_turn_wp url tr :
  every issue_rule tr -> pending tr = [] ->
  wp (authorization_turn domain url) tt tr (fun r _ tr' => tidy tr tr' /\ (r = None -> authorized tr' url)).
Proof.
  intros Htr Hp. pose proof (tidy_refl _ Htr Hp) as Ht. unfold authorization_turn. neutral answer.
  destruct answer as [authorization|]; [|wp_steps; split; [stay Ht|done]].
  destruct (auth_Status authorization) eqn:Hst.
  { wp_steps. split; [stay Ht|]. intros _. left. exists authorization. split; [apply elem_snoc|done]. }
  destruct (dnsChallenge authorization) as [challenge|]; [|wp_steps; split; [stay Ht|done]].
  destruct (DNS01ChallengeRecord _) as [value|] eqn:Hv; [|wp_steps; split; [stay Ht|done]].
  assert (tidy tr (tr ++ [Ev (GetAuthorization url) (Some authorization)])) as Ht1 by stay Ht.
  wp_step. eapply wp_mono; [apply (present_law _ _ issue_rule)|].
  { intros past ev Hev. unfold presents in Hev. unfold issue_rule. destruct (ev_op ev); try done.
    destruct Hev as (Hm & name & Hn & Hb). split; [done|]. by exists (ch_Token challenge), value, name. }
  { apply Ht1. }
  destruct Ht1 as [Hk1 Hp1]. intros [cleanup|e] [] tr1 [Hk2 Hp2].
  - destruct Hp2 as (p & Hp2 & Hc). rewrite Hp1 in Hp2. wp_step. eapply wp_mono; [apply (authorize_wp cleanup p)|]; [done|apply Hk2|done|done|].
    intros [e|] [] tr2 [Ht2 Ha]; wp_steps; (split; [|done || auto]); (split; [|apply Ht2]);
      (eapply keeps_trans; [|apply Ht2]); (etrans; [apply Hk1|apply Hk2]).
  - wp_steps. split; [split; [by eapply keeps_trans; [apply Hk1|]|by rewrite Hp2]|done].
Qed.

Lemma authorize_all_wp urls tr :
  every issue_rule tr -> pending tr = [] ->
  wp (authorize_all domain urls) tt tr (fun r _ tr' => tidy tr tr' /\ (r = None -> Forall (authorized tr') urls)).
Proof.
  revert tr. induction urls as [|url urls IH]; intros tr Htr Hp; cbn [authorize_all]; [wp_steps; split; [by apply tidy_refl|by constructor]|].
  wp_step. eapply wp_mono; [by apply authorization_turn_wp|]. intros [e|] [] tr1 [Ht1 Ha]; [done|].
  eapply wp_mono; [apply IH; apply Ht1|]. intros r [] tr2 [Ht2 Hall]. split; [by eapply tidy_trans|]. intros Hr. constructor; [|auto].
  eapply authorized_grows; [by apply tidy_grows|auto].
Qed.

(** Where the material comes from. *)
Definition issued (tr : list (event acmeE)) (m : Material) : Prop :=
  exists order ready key csr chain der,
    Ev (AuthorizeOrder domain) (Some order) ∈ tr /\ Forall (authorized tr) (ord_AuthzURLs order) /\
    Ev (WaitOrder (ord_URI order)) (Some ready) ∈ tr /\ Ev GenerateKey (Some key) ∈ tr /\
    Ev (CreateCertificateRequest domain key) (Some csr) ∈ tr /\ Ev (CreateOrderCert (ord_FinalizeURL ready) csr) (Some chain) ∈ tr /\
    chain <> [] /\ MarshalPKCS8PrivateKey key = Some der /\
    m = mkMaterial (pem_chain chain) (EncodeToMemory (mkPemBlock "PRIVATE KEY" der)).

Lemma finalize_wp order tr :
  every issue_rule tr -> pending tr = [] -> Ev (AuthorizeOrder domain) (Some order) ∈ tr -> Forall (authorized tr) (ord_AuthzURLs order) ->
  wp (finalize domain (ord_URI order)) tt tr (fun r _ tr' => tidy tr tr' /\ match r with Ok m => issued tr' m | Err _ => True end).
Proof.
  intros Htr Hp Ho Ha. pose proof (tidy_refl _ Htr Hp) as Ht. unfold finalize.
  neutral ready. destruct ready as [ready|]; [|wp_steps; split; [stay Ht|done]].
  neutral key. destruct key as [key|]; [|wp_steps; split; [stay Ht|done]].
  neutral csr. destruct csr as [csr|]; [|wp_steps; split; [stay Ht|done]].
  wp_answer chain s H2. destruct s.
  match goal with |- wp _ _ (?t ++ [?ev]) _ => assert (tidy tr (t ++ [ev]) /\ grows tr (t ++ [ev])) as [Ht2 Hg] end.
  { assert (tidy tr (((tr ++ [Ev (WaitOrder (ord_URI order)) (Some ready)]) ++ [Ev GenerateKey (Some key)]) ++
      [Ev (CreateCertificateRequest domain key) (Some csr)])) as Ht1 by stay Ht.
    assert (forall t, grows tr t -> Forall (authorized t) (ord_AuthzURLs order)) as Hfa.
    { intros t Hg. eapply Forall_impl; [exact Ha|]. intros url. by apply authorized_grows. }
    assert (tidy tr ((((tr ++ [Ev (WaitOrder (ord_URI order)) (Some ready)]) ++ [Ev GenerateKey (Some key)]) ++
      [Ev (CreateCertificateRequest domain key) (Some csr)]) ++ [Ev (CreateOrderCert (ord_FinalizeURL ready) csr) chain])) as Ht2.
    { apply tidy_snoc; [exact Ht1| |done]. exists order. split; [|by apply Hfa, tidy_grows]. in_past. }
    split; [exact Ht2|by apply tidy_grows]. }
  destruct chain as [[|der0 ders]|]; [wp_steps; by split| |wp_steps; by split].
  destruct (MarshalPKCS8PrivateKey key) as [der|] eqn:Hm; [|wp_steps; by split].
  wp_steps. split; [done|]. exists order, ready, key, csr, (der0 :: ders), der. split_and!; try done; try in_past.
  eapply Forall_impl; [exact Ha|]. intros url. by apply authorized_grows.
Qed.
End Issuer.

(** C30. Wherever a certificate is issued, through Cloudflare: a challenge is
    accepted only after the name server answered its value; the only records
    created are the TXT records of the challenges of the domain, and each one
    whose creation was confirmed, by a response that says success and names
    the record, is asked to be removed afterwards, in a request that survives
    the end of the caller's context, also when the authorization failed
    (whether a lost or unreadable response left a record behind is not known
    to the program, which does not clean it up); nothing else is
    deleted; the certificate is requested only when every authorization of the
    order is valid; and the material returned is the chain of that order with
    the fresh key its request was made for. *)
Theorem issuance_follows_its_authorizations {library : AcmeLibrary} (c : CloudflareDNS) (i : ACMEIssuer) (sni : string) :
  always (Issue i (provider := cloudflare_provider c) sni) tt (fun tr r _ =>
    match canonicalSNI sni with
    | Err e => tr = [] /\ r = Err e
    | Ok domain => every (issue_rule domain) tr /\ removed_later tr /\ match r with Ok m => issued domain tr m | Err _ => True end
    end).
Proof.
  apply wp_always. unfold Issue. destruct (canonicalSNI sni) as [domain|e] eqn:Hd; [|by wp_steps].
  apply (wp_mono _ _ _ (fun r _ tr => tidy domain [] tr /\ match r with Ok m => issued domain tr m | Err _ => True end)); cycle 1.
  { intros r [] tr [[[H1 _] H2] H3]. split_and!; [done|by apply nothing_pending|done]. }
  wp_step. eapply wp_mono; [apply ensureAccount_wp, (tidy_refl domain []); [apply every_nil|done]|].
  intros ready [] tr1 Ht1. destruct ready; [|wp_steps; by split]. cbn [negb].
  wp_answer order s Hs. destruct s.
  assert (tidy domain [] (tr1 ++ [Ev (AuthorizeOrder domain) order])) as Ht2 by by apply tidy_snoc.
  destruct order as [order|]; [|wp_steps; by split].
  wp_step. eapply wp_mono; [apply authorize_all_wp; apply Ht2|].
  intros [e|] [] tr2 [Ht3 Ha]; [wp_steps; split; [by eapply tidy_trans|done]|].
  eapply wp_mono; [apply finalize_wp; [apply Ht3..| |by apply Ha]|].
  - apply (grows_elem _ _ _ (tidy_grows _ _ _ Ht3)), elem_snoc.
  - intros r [] tr3 [Ht4 Hm]. split; [|done]. eapply tidy_trans; [exact Ht2|]. by eapply tidy_trans.
Qed.

(** A concrete issuance. *)
Module IssueSample.
#[local] Instance library : AcmeLibrary := {|
  DNS01ChallengeRecord := fun _ => Some "v"; MarshalPKCS8PrivateKey := fun k => Some [k]; EncodeToMemory := pb_Bytes |}.
Definition cloudflare : CloudflareDNS := mkCloudflareDNS no_url "token" 10 5.
Definition issuer : ACMEIssuer := mkACMEIssuer "https://acme.test" "a@b.c".

Definition answer : @handler acmeE unit := fun X e _ =>
  (match e in acmeE X return X with
   | CfZones _ => Response 200 (BodyValue (mkCloudflareResponse true ["zone"] []))
   | CfRecord _ => Response 200 (BodyValue (mkCloudflareResponse true "record" []))
   | CfRaw _ => TransportFailed
   | LookupTXT _ => Some ["v"]
   | PropagationWait => true
   | AccountLock => tt | AccountUnlock => tt | AccountReady => false | SetAccountReady => tt
   | Register _ => AccountAlreadyExists
   | AuthorizeOrder _ => Some (mkOrder "order" ["authz"] "finalize")
   | GetAuthorization _ => Some (mkAuthorization AcmeOther [mkChallenge "http-01" "" ""; mkChallenge "dns-01" "u" "t"])
   | Accept _ => true | WaitAuthorization _ => true
   | WaitOrder _ => Some (mkOrder "order" ["authz"] "finalize")
   | GenerateKey => Some 7
   | CreateCertificateRequest _ _ => Some [1]
   | CreateOrderCert _ _ => Some [[2]; [3]]
   end, tt).

Example a_certificate_is_issued :
  (run answer (Issue issuer (provider := cloudflare_provider cloudflare) "example.org.") tt).1.2 = Ok (mkMaterial [2; 3] [7]).
Proof. by vm_compute. Qed.
End IssueSample.
