(* ===== verification/AcmeKey.v ===== *)
(** * The key of the ACME account ([LoadOrCreateAccountKey] of
    [internal/certmanager/acme.go])

    The key is read from its file or created once.  The world is the file;
    any other process may create it at any time, calls may fail, and the
    program may stop at any call. *)

From S2P Require Import Prelude GoStrings GoText GoURL Effects CertTypes Certificates CertStore CertManager Netplan Acme.

#[local] Open Scope Z_scope.

Inductive fsAnswer : Type := FsDone | FsNotExist | FsExist | FsFailed.
Inductive readAnswer : Type := ReadBytes (l : bytes) | ReadNotExist | ReadFailed.

Inductive keyE : Type -> Type :=
  | KeyChmod (path : string) (mode : Z) : keyE fsAnswer
  | KeyRead (path : string) : keyE readAnswer
  | KeyMkdirAll (path : string) (mode : Z) : keyE bool
  | KeyChmodDir (path : string) (mode : Z) : keyE bool
  | KeyGenerate : keyE (option Z)
  | KeyCreate (path : string) (mode : Z) : keyE fsAnswer
  | KeyWrite (content : bytes) : keyE bool
  | KeySync : keyE bool
  | KeyClose : keyE bool.

(** [filepath.Dir]. *)
Definition filepath_Dir (path : string) : string :=
  match cut_last "/" path with Some (dir, _) => path_Clean (dir +:+ "/") | None => "." end.

Definition storage (message : string) : certErr := safe message (CertSentinel ErrStorageFailed).

Section Key.
Context {x509 : X509} {library : AcmeLibrary} (signer_of : Z -> Signer).

Definition parseAccountKey (value : bytes) : result certErr Signer :=
  match pem_Decode value with
  | None => Err (storage "ACME account key is invalid")
  | Some (block, rest) =>
    if negb (blank rest) then Err (storage "ACME account key is invalid")
    else match ParsePKCS8PrivateKey (pb_Bytes block) with
         | Some (Some signer) => Ok signer
         | _ => Err (storage "ACME account key is invalid")
         end
  end.

(** The branch after another process created the file first. *)
Definition load_rival (path : string) : prog keyE (result certErr Signer) :=
  protected ← call (KeyChmod path 384);
  match protected with
  | FsDone =>
    value ← call (KeyRead path);
    match value with
    | ReadBytes value => mret (parseAccountKey value)
    | _ => mret (Err (storage "ACME account key is unavailable"))
    end
  | _ => mret (Err (storage "ACME account key permissions could not be protected"))
  end.

(** The calls on the open file. *)
Definition write_key (key : Z) (encoded : bytes) : prog keyE (result certErr Signer) :=
  written ← call (KeyWrite encoded);
  if negb (written : bool) then _ ← call KeyClose; mret (Err (storage "ACME account key could not be written"))
  else
    synced ← call KeySync;
    if negb (synced : bool) then _ ← call KeyClose; mret (Err (storage "ACME account key could not be synchronized"))
    else
      closed ← call KeyClose;
      if negb (closed : bool) then mret (Err (storage "ACME account key could not be closed"))
      else mret (Ok (signer_of key)).

Definition create_key (path : string) : prog keyE (result certErr Signer) :=
  made ← call (KeyMkdirAll (filepath_Dir path) 448);
  if negb (made : bool) then mret (Err (storage "ACME account key directory is unavailable"))
  else
    private ← call (KeyChmodDir (filepath_Dir path) 448);
    if negb (private : bool) then mret (Err (storage "ACME account key directory permissions could not be protected"))
    else
      key ← call KeyGenerate;
      match key with
      | None => mret (Err (storage "ACME account key could not be generated"))
      | Some key =>
        match MarshalPKCS8PrivateKey key with
        | None => mret (Err (storage "ACME account key could not be encoded"))
        | Some der =>
          opened ← call (KeyCreate path 384);
          match opened with
          | FsExist => load_rival path
          | FsDone => write_key key (EncodeToMemory (mkPemBlock "PRIVATE KEY" der))
          | _ => mret (Err (storage "ACME account key could not be created"))
          end
        end
      end.

Definition LoadOrCreateAccountKey (path : string) : prog keyE (result certErr Signer) :=
  let path := TrimSpace path in
  if String.eqb path "" then mret (Err (CertSentinel ErrInvalidInput))
  else
    protected ← call (KeyChmod path 384);
    match protected with
    | FsDone | FsNotExist =>
      value ← call (KeyRead path);
      match value with
      | ReadBytes value => mret (parseAccountKey value)
      | ReadFailed => mret (Err (storage "ACME account key is unavailable"))
      | ReadNotExist => create_key path
      end
    | _ => mret (Err (storage "ACME account key permissions could not be protected"))
    end.

(** ** The world: content and mode of the file *)
Definition keyFile : Type := option (bytes * Z).

(** Another process of this program may have created the file. *)
Definition rival (w w' : keyFile) : Prop := w' = w \/ (w = None /\ exists l, w' = Some (l, 384)).

#[export] Instance key_env : Env keyE keyFile := fun X e w =>
  match e in keyE X return X -> keyFile -> Prop with
  | KeyChmod _ mode => fun a w' => exists w1, rival w w1 /\
      match a with
      | FsDone => exists l m, w1 = Some (l, m) /\ w' = Some (l, mode)
      | FsNotExist => w1 = None /\ w' = None
      | _ => w' = w1
      end
  | KeyRead _ => fun a w' => rival w w' /\
      match a with ReadBytes l => exists m, w' = Some (l, m) | ReadNotExist => w' = None | ReadFailed => True end
  | KeyCreate _ mode => fun a w' => exists w1, rival w w1 /\
      match a with FsDone => w1 = None /\ w' = Some ([], mode) | FsExist => is_Some w1 /\ w' = w1 | _ => w' = w1 end
  | KeyWrite content => fun ok w' => exists l m n, w = Some (l, m) /\
      w' = Some (l ++ take n content, m) /\ (ok = true -> n = length content)
  | _ => fun _ w' => rival w w'
  end.

(** ** What holds of it *)

(** Whatever is in the file when the program starts stays in it. *)
Definition content (w : keyFile) : option bytes := fst <$> w.

Lemma rival_content l w w' : content w = Some l -> rival w w' -> w' = w.
Proof. intros Hc [->|[-> _]]; done. Qed.

Lemma existing_key_is_kept path l w :
  content w = Some l ->
  iwp (fun w => content w = Some l) (LoadOrCreateAccountKey path) w (fun r w' => forall k, r = Ok k -> parseAccountKey l = Ok k).
Proof.
  intros Hc. unfold LoadOrCreateAccountKey. destruct (String.eqb _ ""); [by iwp_steps|].
  iwp_steps. apply iwp_call. intros a w1 (w0 & Hr & Ha). apply (rival_content l) in Hr as ->; [|done].
  assert (content w1 = Some l) as Hc1.
  { destruct a; [|by destruct Ha as [-> ->]|by subst..]. destruct Ha as (l' & m & -> & ->). exact Hc. }
  split; [done|].
  assert (iwp (fun w => content w = Some l)
    (value ← call (KeyRead (TrimSpace path));
     match value with
     | ReadBytes value => mret (parseAccountKey value)
     | ReadFailed => mret (Err (storage "ACME account key is unavailable"))
     | ReadNotExist => create_key (TrimSpace path)
     end) w1 (fun r w' => forall k, r = Ok k -> parseAccountKey l = Ok k)) as Hread.
  { iwp_steps. apply iwp_call. intros v w2 [Hr Hv]. apply (rival_content l) in Hr as ->; [|done]. split; [done|].
    destruct v as [l'| |]; [|by rewrite Hv in Hc1|by iwp_steps]. iwp_steps. destruct Hv as [m ->]. by injection Hc1 as ->. }
  by destruct a; [exact Hread..|iwp_steps|iwp_steps].
Qed.

(** The documented inverses of the two encodings. *)
Section Durable.
Hypothesis pem_inverse : forall block, pem_Decode (EncodeToMemory block) = Some (block, []).
Hypothesis pkcs8_inverse : forall key der, MarshalPKCS8PrivateKey key = Some der -> ParsePKCS8PrivateKey der = Some (Some (signer_of key)).

Lemma generated_key_parses key der :
  MarshalPKCS8PrivateKey key = Some der -> parseAccountKey (EncodeToMemory (mkPemBlock "PRIVATE KEY" der)) = Ok (signer_of key).
Proof. intros Hm. unfold parseAccountKey. rewrite pem_inverse. cbn. by rewrite (pkcs8_inverse key der Hm). Qed.

(** The key returned is the one a later start reads, in a private file. *)
Definition stored_key (r : result certErr Signer) (w : keyFile) : Prop :=
  forall k, r = Ok k -> exists l, w = Some (l, 384) /\ parseAccountKey l = Ok k.

Lemma read_key path w (Q : result certErr Signer -> keyFile -> Prop) (k : prog keyE (result certErr Signer)) (e : certErr) :
  (forall l m, w = Some (l, m) -> m = 384) ->
  (forall r w', stored_key r w' -> Q r w') ->
  (forall w', (forall l m, w' = Some (l, m) -> m = 384) -> iwp (fun _ => True) k w' Q) ->
  iwp (fun _ => True)
    (value ← call (KeyRead path);
     match value with ReadBytes value => mret (parseAccountKey value) | ReadFailed => mret (Err e) | ReadNotExist => k end) w Q.
Proof.
  intros Hm HQ Hk. iwp_steps. apply iwp_call. intros v w1 [Hr Hv]. split; [done|].
  assert (forall l m, w1 = Some (l, m) -> m = 384) as Hm1.
  { intros l m ->. destruct Hr as [Hr|[_ [l' Hl]]]; [by apply (Hm l)|]. by injection Hl as _ ->. }
  destruct v as [l| |]; [|by apply Hk|by iwp_steps; apply HQ]. iwp_steps. apply HQ. intros k' Hk'. destruct Hv as [m ->].
  exists l. split; [|done]. by rewrite (Hm1 l m).
Qed.

Lemma load_rival_stored path w : iwp (fun _ => True) (load_rival path) w stored_key.
Proof.
  unfold load_rival. iwp_steps. apply iwp_call. intros a w1 (w0 & _ & Ha). split; [done|].
  destruct a; [|by iwp_steps..]. destruct Ha as (l & m & -> & ->). iwp_steps. apply iwp_call. intros v w2 [Hr Hv]. split; [done|].
  destruct Hr as [->|[? _]]; [|done]. destruct v as [l'| |]; [|by iwp_steps..]. iwp_steps. intros k Hk. destruct Hv as [m' [= -> <-]].
  by exists l'.
Qed.

Lemma write_key_stored key der :
  MarshalPKCS8PrivateKey key = Some der ->
  iwp (fun _ => True) (write_key key (EncodeToMemory (mkPemBlock "PRIVATE KEY" der))) (Some ([], 384)) stored_key.
Proof.
  intros Hm. unfold write_key. iwp_steps. apply iwp_call. intros ok w1 (l & m & n & [= <- <-] & -> & Hn). split; [done|].
  destruct ok; cbn [negb]; [|iwp_steps; apply iwp_call; intros c w2 Hr; split; [done|by iwp_steps]].
  rewrite (Hn eq_refl), take_ge by done.
  iwp_steps. apply iwp_call. intros synced w2 [->|[? _]]; [|done]. split; [done|].
  destruct synced; cbn [negb]; [|iwp_steps; apply iwp_call; intros c w3 Hr; split; [done|by iwp_steps]].
  iwp_steps. apply iwp_call. intros closed w3 [->|[? _]]; [|done]. split; [done|].
  destruct closed; cbn [negb]; iwp_steps; [|done]. intros k [= <-]. eexists. split; [reflexivity|]. by apply generated_key_parses.
Qed.

Lemma create_key_stored path w : iwp (fun _ => True) (create_key path) w stored_key.
Proof.
  unfold create_key. do 2 (iwp_steps; apply iwp_call; intros [] ? _; (split; [done|]); cbn [negb]; [|by iwp_steps]).
  iwp_steps. apply iwp_call. intros [key|] w3 _; (split; [done|]); [|by iwp_steps].
  destruct (MarshalPKCS8PrivateKey key) as [der|] eqn:Hm; [|by iwp_steps].
  iwp_steps. apply iwp_call. intros a w4 (w0 & _ & Ha). split; [done|].
  destruct a; [|by iwp_steps|by apply load_rival_stored|by iwp_steps]. destruct Ha as [-> ->]. by apply write_key_stored.
Qed.

(** Whatever the file system answers and whoever else creates the file, the
    account key a start uses is the key every later start will read. *)
Lemma account_key_is_durable path w : iwp (fun _ => True) (LoadOrCreateAccountKey path) w stored_key.
Proof.
  unfold LoadOrCreateAccountKey. destruct (String.eqb _ ""); [by iwp_steps|].
  iwp_steps. apply iwp_call. intros a w1 (w0 & Hr & Ha). split; [done|].
  destruct a; [| |by iwp_steps..]; apply read_key; try done; try (intros; by apply create_key_stored).
  - intros l m ->. by destruct Ha as (? & ? & _ & [= _ ->]).
  - intros l m ->. by destruct Ha.
Qed.
End Durable.

(** A write that failed leaves the beginning of the key, which no later start
    accepts, creates again or removes. *)
Lemma failed_write_blocks_the_key path key der :
  TrimSpace path <> "" -> MarshalPKCS8PrivateKey key = Some der ->
  exists tr r w, runs (LoadOrCreateAccountKey path) (None : keyFile) tr r w /\ w = Some ([], 384) /\
    forall tr' r' w', runs (LoadOrCreateAccountKey path) w tr' r' w' -> exists e, r' = Err e.
Proof.
  intros Hp%String.eqb_neq Hm.
  exists [Ev (KeyChmod (TrimSpace path) 384) FsNotExist; Ev (KeyRead (TrimSpace path)) ReadNotExist;
    Ev (KeyMkdirAll (filepath_Dir (TrimSpace path)) 448) true; Ev (KeyChmodDir (filepath_Dir (TrimSpace path)) 448) true;
    Ev KeyGenerate (Some key); Ev (KeyCreate (TrimSpace path) 384) FsDone;
    Ev (KeyWrite (EncodeToMemory (mkPemBlock "PRIVATE KEY" der))) false; Ev KeyClose true].
  exists (Err (storage "ACME account key could not be written")), (Some ([], 384)). split_and!; [|done|].
  - unfold LoadOrCreateAccountKey. rewrite Hp. cbn -[MarshalPKCS8PrivateKey EncodeToMemory].
    exists FsNotExist, None. eexists. split; [reflexivity|]. split; [exists None; by split; [left|]|]. cbn -[MarshalPKCS8PrivateKey EncodeToMemory].
    exists ReadNotExist, None. eexists. split; [reflexivity|]. split; [by split; [left|]|]. cbn -[MarshalPKCS8PrivateKey EncodeToMemory].
    exists true, None. eexists. split; [reflexivity|]. split; [by left|]. cbn -[MarshalPKCS8PrivateKey EncodeToMemory].
    exists true, None. eexists. split; [reflexivity|]. split; [by left|]. cbn -[MarshalPKCS8PrivateKey EncodeToMemory].
    exists (Some key), None. eexists. split; [reflexivity|]. split; [by left|]. cbn -[MarshalPKCS8PrivateKey EncodeToMemory].
    match goal with |- context [pbind ?f (Ret (Some key))] => change (pbind f (Ret (Some key))) with (f (Some key)) end. cbv beta iota. rewrite Hm. cbn -[EncodeToMemory].
    exists FsDone, (Some ([], 384)). eexists. split; [reflexivity|]. split; [exists None; by split; [left|]|]. cbn -[MarshalPKCS8PrivateKey EncodeToMemory].
    exists false, (Some ([], 384)). eexists. split; [reflexivity|]. split; [by exists [], 384, 0%nat|]. cbn -[MarshalPKCS8PrivateKey EncodeToMemory].
    exists true, (Some ([], 384)). eexists. split; [reflexivity|]. split; [by left|]. done.
  - intros tr' r' w' Hr. pose proof (iwp_runs _ _ _ _ (existing_key_is_kept path [] (Some ([], 384)) eq_refl) _ _ _ Hr) as H.
    destruct r' as [k|e]; [|by exists e]. specialize (H k eq_refl). unfold parseAccountKey in H.
    destruct (pem_Decode []) as [[block rest]|] eqn:Hd; [|done]. apply pem_Decode_shorter in Hd. cbn in Hd. lia.
Qed.
End Key.
