(* ===== verification/TgTypes.v ===== *)
(** * Data of the Telegram bot ([internal/telegram/types.go, session.go, validation.go])

    The updates and keyboards of the chat, the projections exchanged with the
    application, the transient state of a conversation (the wizard), the
    validation of what an operator types, and the data of the inline buttons
    with their parsers. *)

From S2P Require Import Prelude GoStrings Utf8 Unicode GoText NetIP.

#[local] Open Scope Z_scope.

(** ** Menu and updates *)
Definition MenuAddNode := "➕ Добавить ноду".
Definition MenuNodes := "📡 Ноды".
Definition MenuDeployments := "📜 Развёртывания".
Definition MenuChangeIP := "🔄 Сменить IP".
Definition legacyMenuAddNode := "➕ Add Node".
Definition legacyMenuNodes := "📡 Nodes".
Definition legacyMenuDeploys := "📜 Deployments".

Record Message : Type := mkMessage { m_ID : Z; m_ChatID : Z; m_FromUserID : Z; m_Text : string }.
Record CallbackQuery : Type := mkCallbackQuery { cb_ID : string; cb_FromUserID : Z; cb_Message : option Message; cb_Data : string }.
Record Update : Type := mkUpdate { u_ID : Z; u_Message : option Message; u_CallbackQuery : option CallbackQuery }.

Record Button : Type := mkButton { b_Text : string; b_CallbackData : string }.
Record Keyboard : Type := mkKeyboard { k_Inline : list (list Button); k_Reply : list (list string) }.
Definition no_keyboard : Keyboard := mkKeyboard [] [].
Definition inline_keyboard (rows : list (list Button)) : Keyboard := mkKeyboard rows [].

(** ** Projections of the application *)
Notation Readiness := string (only parsing).
Definition ReadinessUnknown : Readiness := "unknown".
Definition ReadinessReady : Readiness := "ready".
Definition ReadinessNotReady : Readiness := "not_ready".

Record Host : Type := mkHost { h_ID : string; h_Remark : string; h_Address : string; h_ConfigProfileReadiness : Readiness }.
Record Panel : Type := mkPanel { p_ID : string; p_Name : string; p_DNSEnabled : bool }.

Record NodeSummary : Type := mkNodeSummary {
  n_PanelID : string; n_PanelName : string; n_UUID : string; n_Name : string; n_Address : string;
  n_Connected : bool; n_Connecting : bool; n_Disabled : bool; n_Online : Z; n_OnlineKnown : bool;
  n_LastStatusMessage : string; n_LastStatusChange : option Z
}.

Record NodeIPChangeTarget : Type := mkNodeIPChangeTarget {
  it_PanelName : string; it_DNSEnabled : bool; it_UUID : string; it_Name : string; it_Address : Addr;
  it_Connected : bool; it_DNSZones : list string; it_IsManaged : bool
}.
Record NodeIPChangeInput : Type := mkNodeIPChangeInput {
  ii_PanelID : string; ii_NodeUUID : string; ii_ExpectedIP : Addr; ii_NewIP : Addr
}.

Record NodeHostMoveTarget : Type := mkNodeHostMoveTarget {
  mt_PanelName : string; mt_UUID : string; mt_Name : string; mt_Address : string; mt_Managed : bool;
  mt_CurrentHostKnown : bool; mt_CurrentHostRemark : string; mt_CurrentHostAddress : string;
  mt_ExpectedProfileUUID : string; mt_ExpectedInboundUUIDs : list string
}.
Record NodeHostMoveResult : Type := mkNodeHostMoveResult {
  mr_NodeName : string; mr_PreviousHostKnown : bool; mr_PreviousHost : string; mr_TargetHost : string;
  mr_TargetAddress : string; mr_Managed : bool; mr_DNSUpdated : bool
}.

Record NodeDNSSyncTarget : Type := mkNodeDNSSyncTarget {
  st_PanelName : string; st_UUID : string; st_Name : string; st_Address : Addr; st_Connected : bool;
  st_Managed : bool; st_DNSZone : string; st_PreviousIP : Addr; st_CurrentZones : list string;
  st_CurrentPresent : bool; st_PreviousPresent : bool; st_CanSync : bool; st_Note : string
}.
Record NodeDNSSyncInput : Type := mkNodeDNSSyncInput { si_PanelID : string; si_NodeUUID : string; si_ExpectedIP : Addr }.
Record NodeDNSSyncResult : Type := mkNodeDNSSyncResult {
  sr_NodeName : string; sr_Address : Addr; sr_DNSZone : string; sr_Action : string; sr_PreviousIP : Addr
}.

(** A password is a byte slice shared by reference: [buf] is its identity. *)
Notation buf := nat (only parsing).

Record NodeHostMoveInput : Type := mkNodeHostMoveInput {
  mi_PanelID : string; mi_NodeUUID : string; mi_TargetHostUUID : string;
  mi_ExpectedProfileUUID : string; mi_ExpectedInboundUUIDs : list string; mi_Password : option buf
}.

Record CherryIPInput : Type := mkCherryIPInput { ci_ServerIP : Addr; ci_FloatingIP : Addr; ci_Password : option buf }.
Record CherryIPResult : Type := mkCherryIPResult {
  cr_Interface : string; cr_LiveConfigured : bool; cr_Persistent : bool; cr_PersistentNote : string
}.
Record RoyalIPInput : Type := mkRoyalIPInput { ri_ServerIP : Addr; ri_NewIP : Addr; ri_Password : option buf }.
Record RoyalIPResult : Type := mkRoyalIPResult {
  rr_Interface : string; rr_PrefixBits : Z; rr_Gateway : Addr; rr_NetplanFile : string; rr_BackupFile : string
}.

Record DeploymentSummary : Type := mkDeploymentSummary {
  ds_PanelName : string; ds_ID : string; ds_NodeName : string; ds_Status : string; ds_CurrentStep : string;
  ds_TargetIP : Addr; ds_SafeErrorCode : string; ds_SafeError : string; ds_CreatedAt : Z; ds_UpdatedAt : Z;
  ds_StartedAt : option Z; ds_CompletedAt : option Z
}.
Record DeploymentDetails : Type := mkDeploymentDetails {
  dd_Summary : DeploymentSummary; dd_SNI : string; dd_CanRetryStep : bool; dd_CanRetryDNS : bool;
  dd_CanRecheck : bool; dd_CanRepairCert : bool; dd_CanCancel : bool
}.
Record DeploymentLogEntry : Type := mkDeploymentLogEntry {
  le_Step : string; le_Status : string; le_Summary : string; le_Code : string;
  le_StartedAt : option Z; le_CompletedAt : option Z
}.

Record OperatorNotice : Type := mkOperatorNotice { on_Code : string; on_Message : string }.
Record PreflightInput : Type := mkPreflightInput {
  pi_PanelID : string; pi_OperatorUserID : Z; pi_HostID : string; pi_NodeName : string; pi_VPSIP : Addr;
  pi_Password : option buf
}.
Record PreflightResult : Type := mkPreflightResult {
  pr_PreparedDeploymentID : string; pr_DNSZone : string; pr_CertificateReadiness : Readiness;
  pr_ConfigProfileReadiness : Readiness; pr_Warnings : list OperatorNotice
}.
Record DeploymentInput : Type := mkDeploymentInput {
  di_PanelID : string; di_PreparedDeploymentID : string; di_OperatorUserID : Z; di_HostID : string;
  di_NodeName : string; di_VPSIP : Addr; di_Password : option buf
}.

Notation ProgressStatus := string (only parsing).
Definition ProgressRunning : ProgressStatus := "RUNNING".
Definition ProgressCompleted : ProgressStatus := "COMPLETED".
Definition ProgressWarning : ProgressStatus := "WARNING".
Definition ProgressFailed : ProgressStatus := "FAILED".
Definition ProgressSkipped : ProgressStatus := "SKIPPED".

Record Progress : Type := mkProgress {
  pg_Step : string; pg_Completed : Z; pg_Total : Z; pg_SafeMessage : string; pg_Status : ProgressStatus; pg_Code : string
}.

(** Which optional interfaces the application implements; a Go type
    assertion asks for one of them. *)
Record Capabilities : Type := mkCapabilities {
  RecoveryApplication : bool; NodeIPApplication : bool; NodeHostMoveApplication : bool;
  NodeDNSSyncApplication : bool; CherryIPApplication : bool; RoyalIPApplication : bool
}.

(** ** The conversation *)
Inductive wizardState : Type :=
  | stateSelectingPanel
  | stateSelectingIPPanel
  | stateSelectingHost
  | stateAwaitingName
  | stateAwaitingIP
  | stateAwaitingPassword
  | statePreflighting
  | stateAwaitingConfirmation
  | stateDeploying
  | stateAwaitingIPChangeQuery
  | stateAwaitingIPChangeConfirmation
  | stateAwaitingNewIP
  | stateSelectingIPMode
  | stateSelectingServerIPScope
  | stateSelectingServerIPPanel
  | stateAwaitingServerIPNodeQuery
  | stateAwaitingServerCurrentIP
  | stateAwaitingServerNewIP
  | stateAwaitingServerIPPassword
  | stateSelectingDNSSyncPanel
  | stateAwaitingDNSSyncQuery
  | stateAwaitingDNSSyncConfirmation
  | stateDNSSyncRunning
  | stateDNSSyncCompleted
  | stateSelectingNodeMoveHost
  | stateAwaitingNodeMoveConfirmation
  | stateAwaitingNodeMovePassword
  | stateAwaitingNodeSearch.

#[export] Instance wizardState_eq_dec : EqDecision wizardState.
Proof. solve_decision. Defined.

(** [serverIPProvider]; [serverIPProviderNone] is its zero value. *)
Inductive serverIPProvider : Type := serverIPProviderNone | serverIPProviderCherry | serverIPProviderRoyal.

#[export] Instance serverIPProvider_eq_dec : EqDecision serverIPProvider.
Proof. solve_decision. Defined.

Record wizard : Type := mkWizard {
  w_userID : Z;
  w_chatID : Z;
  w_nonce : string;
  w_state : wizardState;
  w_expiresAt : Z;
  w_hosts : list Host;
  w_panels : list Panel;
  w_panel : Panel;
  w_selected : Host;
  w_nodeName : string;
  w_vpsIP : Addr;
  w_password : option buf;
  w_preflight : PreflightResult;
  w_statusMsgID : Z;
  w_ipTarget : NodeIPChangeTarget;
  w_dnsSyncTarget : NodeDNSSyncTarget;
  w_dnsSyncResult : string;
  w_nodeMoveTarget : NodeHostMoveTarget;
  w_serverIPProvider : serverIPProvider;
  w_serverCurrentIP : Addr;
  w_serverNewIP : Addr;
  w_serverUpdateNode : bool;
  w_expiryTimer : bool
}.

Definition set_state (v : wizardState) (w : wizard) : wizard :=
  mkWizard (w_userID w) (w_chatID w) (w_nonce w) v (w_expiresAt w) (w_hosts w) (w_panels w) (w_panel w)
    (w_selected w) (w_nodeName w) (w_vpsIP w) (w_password w) (w_preflight w) (w_statusMsgID w) (w_ipTarget w)
    (w_dnsSyncTarget w) (w_dnsSyncResult w) (w_nodeMoveTarget w) (w_serverIPProvider w) (w_serverCurrentIP w)
    (w_serverNewIP w) (w_serverUpdateNode w) (w_expiryTimer w).
Definition set_expiresAt (v : Z) (w : wizard) : wizard :=
  mkWizard (w_userID w) (w_chatID w) (w_nonce w) (w_state w) v (w_hosts w) (w_panels w) (w_panel w) (w_selected w)
    (w_nodeName w) (w_vpsIP w) (w_password w) (w_preflight w) (w_statusMsgID w) (w_ipTarget w)
    (w_dnsSyncTarget w) (w_dnsSyncResult w) (w_nodeMoveTarget w) (w_serverIPProvider w) (w_serverCurrentIP w)
    (w_serverNewIP w) (w_serverUpdateNode w) (w_expiryTimer w).
Definition set_panels (v : list Panel) (w : wizard) : wizard :=
  mkWizard (w_userID w) (w_chatID w) (w_nonce w) (w_state w) (w_expiresAt w) (w_hosts w) v (w_panel w)
    (w_selected w) (w_nodeName w) (w_vpsIP w) (w_password w) (w_preflight w) (w_statusMsgID w) (w_ipTarget w)
    (w_dnsSyncTarget w) (w_dnsSyncResult w) (w_nodeMoveTarget w) (w_serverIPProvider w) (w_serverCurrentIP w)
    (w_serverNewIP w) (w_serverUpdateNode w) (w_expiryTimer w).
Definition set_panel (v : Panel) (w : wizard) : wizard :=
  mkWizard (w_userID w) (w_chatID w) (w_nonce w) (w_state w) (w_expiresAt w) (w_hosts w) (w_panels w) v
    (w_selected w) (w_nodeName w) (w_vpsIP w) (w_password w) (w_preflight w) (w_statusMsgID w) (w_ipTarget w)
    (w_dnsSyncTarget w) (w_dnsSyncResult w) (w_nodeMoveTarget w) (w_serverIPProvider w) (w_serverCurrentIP w)
    (w_serverNewIP w) (w_serverUpdateNode w) (w_expiryTimer w).
Definition set_selected (v : Host) (w : wizard) : wizard :=
  mkWizard (w_userID w) (w_chatID w) (w_nonce w) (w_state w) (w_expiresAt w) (w_hosts w) (w_panels w) (w_panel w) v
    (w_nodeName w) (w_vpsIP w) (w_password w) (w_preflight w) (w_statusMsgID w) (w_ipTarget w)
    (w_dnsSyncTarget w) (w_dnsSyncResult w) (w_nodeMoveTarget w) (w_serverIPProvider w) (w_serverCurrentIP w)
    (w_serverNewIP w) (w_serverUpdateNode w) (w_expiryTimer w).
Definition set_nodeName (v : string) (w : wizard) : wizard :=
  mkWizard (w_userID w) (w_chatID w) (w_nonce w) (w_state w) (w_expiresAt w) (w_hosts w) (w_panels w) (w_panel w)
    (w_selected w) v (w_vpsIP w) (w_password w) (w_preflight w) (w_statusMsgID w) (w_ipTarget w)
    (w_dnsSyncTarget w) (w_dnsSyncResult w) (w_nodeMoveTarget w) (w_serverIPProvider w) (w_serverCurrentIP w)
    (w_serverNewIP w) (w_serverUpdateNode w) (w_expiryTimer w).
Definition set_vpsIP (v : Addr) (w : wizard) : wizard :=
  mkWizard (w_userID w) (w_chatID w) (w_nonce w) (w_state w) (w_expiresAt w) (w_hosts w) (w_panels w) (w_panel w)
    (w_selected w) (w_nodeName w) v (w_password w) (w_preflight w) (w_statusMsgID w) (w_ipTarget w)
    (w_dnsSyncTarget w) (w_dnsSyncResult w) (w_nodeMoveTarget w) (w_serverIPProvider w) (w_serverCurrentIP w)
    (w_serverNewIP w) (w_serverUpdateNode w) (w_expiryTimer w).
Definition set_password (v : option buf) (w : wizard) : wizard :=
  mkWizard (w_userID w) (w_chatID w) (w_nonce w) (w_state w) (w_expiresAt w) (w_hosts w) (w_panels w) (w_panel w)
    (w_selected w) (w_nodeName w) (w_vpsIP w) v (w_preflight w) (w_statusMsgID w) (w_ipTarget w)
    (w_dnsSyncTarget w) (w_dnsSyncResult w) (w_nodeMoveTarget w) (w_serverIPProvider w) (w_serverCurrentIP w)
    (w_serverNewIP w) (w_serverUpdateNode w) (w_expiryTimer w).
Definition set_preflight (v : PreflightResult) (w : wizard) : wizard :=
  mkWizard (w_userID w) (w_chatID w) (w_nonce w) (w_state w) (w_expiresAt w) (w_hosts w) (w_panels w) (w_panel w)
    (w_selected w) (w_nodeName w) (w_vpsIP w) (w_password w) v (w_statusMsgID w) (w_ipTarget w)
    (w_dnsSyncTarget w) (w_dnsSyncResult w) (w_nodeMoveTarget w) (w_serverIPProvider w) (w_serverCurrentIP w)
    (w_serverNewIP w) (w_serverUpdateNode w) (w_expiryTimer w).
Definition set_statusMsgID (v : Z) (w : wizard) : wizard :=
  mkWizard (w_userID w) (w_chatID w) (w_nonce w) (w_state w) (w_expiresAt w) (w_hosts w) (w_panels w) (w_panel w)
    (w_selected w) (w_nodeName w) (w_vpsIP w) (w_password w) (w_preflight w) v (w_ipTarget w)
    (w_dnsSyncTarget w) (w_dnsSyncResult w) (w_nodeMoveTarget w) (w_serverIPProvider w) (w_serverCurrentIP w)
    (w_serverNewIP w) (w_serverUpdateNode w) (w_expiryTimer w).
Definition set_ipTarget (v : NodeIPChangeTarget) (w : wizard) : wizard :=
  mkWizard (w_userID w) (w_chatID w) (w_nonce w) (w_state w) (w_expiresAt w) (w_hosts w) (w_panels w) (w_panel w)
    (w_selected w) (w_nodeName w) (w_vpsIP w) (w_password w) (w_preflight w) (w_statusMsgID w) v
    (w_dnsSyncTarget w) (w_dnsSyncResult w) (w_nodeMoveTarget w) (w_serverIPProvider w) (w_serverCurrentIP w)
    (w_serverNewIP w) (w_serverUpdateNode w) (w_expiryTimer w).
Definition set_dnsSyncTarget (v : NodeDNSSyncTarget) (w : wizard) : wizard :=
  mkWizard (w_userID w) (w_chatID w) (w_nonce w) (w_state w) (w_expiresAt w) (w_hosts w) (w_panels w) (w_panel w)
    (w_selected w) (w_nodeName w) (w_vpsIP w) (w_password w) (w_preflight w) (w_statusMsgID w) (w_ipTarget w)
    v (w_dnsSyncResult w) (w_nodeMoveTarget w) (w_serverIPProvider w) (w_serverCurrentIP w) (w_serverNewIP w)
    (w_serverUpdateNode w) (w_expiryTimer w).
Definition set_dnsSyncResult (v : string) (w : wizard) : wizard :=
  mkWizard (w_userID w) (w_chatID w) (w_nonce w) (w_state w) (w_expiresAt w) (w_hosts w) (w_panels w) (w_panel w)
    (w_selected w) (w_nodeName w) (w_vpsIP w) (w_password w) (w_preflight w) (w_statusMsgID w) (w_ipTarget w)
    (w_dnsSyncTarget w) v (w_nodeMoveTarget w) (w_serverIPProvider w) (w_serverCurrentIP w) (w_serverNewIP w)
    (w_serverUpdateNode w) (w_expiryTimer w).
Definition set_serverIPProvider (v : serverIPProvider) (w : wizard) : wizard :=
  mkWizard (w_userID w) (w_chatID w) (w_nonce w) (w_state w) (w_expiresAt w) (w_hosts w) (w_panels w) (w_panel w)
    (w_selected w) (w_nodeName w) (w_vpsIP w) (w_password w) (w_preflight w) (w_statusMsgID w) (w_ipTarget w)
    (w_dnsSyncTarget w) (w_dnsSyncResult w) (w_nodeMoveTarget w) v (w_serverCurrentIP w) (w_serverNewIP w)
    (w_serverUpdateNode w) (w_expiryTimer w).
Definition set_serverCurrentIP (v : Addr) (w : wizard) : wizard :=
  mkWizard (w_userID w) (w_chatID w) (w_nonce w) (w_state w) (w_expiresAt w) (w_hosts w) (w_panels w) (w_panel w)
    (w_selected w) (w_nodeName w) (w_vpsIP w) (w_password w) (w_preflight w) (w_statusMsgID w) (w_ipTarget w)
    (w_dnsSyncTarget w) (w_dnsSyncResult w) (w_nodeMoveTarget w) (w_serverIPProvider w) v (w_serverNewIP w)
    (w_serverUpdateNode w) (w_expiryTimer w).
Definition set_serverNewIP (v : Addr) (w : wizard) : wizard :=
  mkWizard (w_userID w) (w_chatID w) (w_nonce w) (w_state w) (w_expiresAt w) (w_hosts w) (w_panels w) (w_panel w)
    (w_selected w) (w_nodeName w) (w_vpsIP w) (w_password w) (w_preflight w) (w_statusMsgID w) (w_ipTarget w)
    (w_dnsSyncTarget w) (w_dnsSyncResult w) (w_nodeMoveTarget w) (w_serverIPProvider w) (w_serverCurrentIP w)
    v (w_serverUpdateNode w) (w_expiryTimer w).
Definition set_serverUpdateNode (v : bool) (w : wizard) : wizard :=
  mkWizard (w_userID w) (w_chatID w) (w_nonce w) (w_state w) (w_expiresAt w) (w_hosts w) (w_panels w) (w_panel w)
    (w_selected w) (w_nodeName w) (w_vpsIP w) (w_password w) (w_preflight w) (w_statusMsgID w) (w_ipTarget w)
    (w_dnsSyncTarget w) (w_dnsSyncResult w) (w_nodeMoveTarget w) (w_serverIPProvider w) (w_serverCurrentIP w)
    (w_serverNewIP w) v (w_expiryTimer w).
Definition set_expiryTimer (v : bool) (w : wizard) : wizard :=
  mkWizard (w_userID w) (w_chatID w) (w_nonce w) (w_state w) (w_expiresAt w) (w_hosts w) (w_panels w) (w_panel w)
    (w_selected w) (w_nodeName w) (w_vpsIP w) (w_password w) (w_preflight w) (w_statusMsgID w) (w_ipTarget w)
    (w_dnsSyncTarget w) (w_dnsSyncResult w) (w_nodeMoveTarget w) (w_serverIPProvider w) (w_serverCurrentIP w)
    (w_serverNewIP w) (w_serverUpdateNode w) v.

(** The zero values of the fields a new conversation leaves out. *)
Definition zero_panel : Panel := mkPanel "" "" false.
Definition zero_host : Host := mkHost "" "" "" "".
Definition zero_preflight : PreflightResult := mkPreflightResult "" "" "" "" [].
Definition zero_ip_target : NodeIPChangeTarget := mkNodeIPChangeTarget "" false "" "" AddrInvalid false [] false.
Definition zero_move_target : NodeHostMoveTarget := mkNodeHostMoveTarget "" "" "" "" false false "" "" "" [].
Definition zero_sync_target : NodeDNSSyncTarget :=
  mkNodeDNSSyncTarget "" "" "" AddrInvalid false false "" AddrInvalid [] false false false "".
Definition new_wizard (userID chatID : Z) (nonce : string) (state : wizardState) (expiresAt : Z) : wizard :=
  mkWizard userID chatID nonce state expiresAt [] [] zero_panel zero_host "" AddrInvalid None zero_preflight 0
    zero_ip_target zero_sync_target "" zero_move_target serverIPProviderNone AddrInvalid AddrInvalid false false.
Definition set_hosts_panel (hosts : list Host) (panel : Panel) (w : wizard) : wizard :=
  mkWizard (w_userID w) (w_chatID w) (w_nonce w) (w_state w) (w_expiresAt w) hosts (w_panels w) panel (w_selected w)
    (w_nodeName w) (w_vpsIP w) (w_password w) (w_preflight w) (w_statusMsgID w) (w_ipTarget w) (w_dnsSyncTarget w)
    (w_dnsSyncResult w) (w_nodeMoveTarget w) (w_serverIPProvider w) (w_serverCurrentIP w) (w_serverNewIP w)
    (w_serverUpdateNode w) (w_expiryTimer w).
Definition set_nodeMoveTarget (v : NodeHostMoveTarget) (w : wizard) : wizard :=
  mkWizard (w_userID w) (w_chatID w) (w_nonce w) (w_state w) (w_expiresAt w) (w_hosts w) (w_panels w) (w_panel w)
    (w_selected w) (w_nodeName w) (w_vpsIP w) (w_password w) (w_preflight w) (w_statusMsgID w) (w_ipTarget w)
    (w_dnsSyncTarget w) (w_dnsSyncResult w) v (w_serverIPProvider w) (w_serverCurrentIP w) (w_serverNewIP w)
    (w_serverUpdateNode w) (w_expiryTimer w).

(** [clone]: a snapshot shares nothing with the session and carries neither
    the password nor the timer. *)
Definition clone (w : wizard) : wizard := set_expiryTimer false (set_password None w).

(** [clear], the fields; the bytes of the password are zeroed by the caller's
    store. *)
Definition cleared (w : wizard) : wizard := set_dnsSyncResult "" (set_password None (set_expiryTimer false w)).

(** ** Validation *)

(** [unicode.IsControl]. *)
Definition IsControl (r : Z) : bool := ((0 <=? r) && (r <=? 31)) || ((127 <=? r) && (r <=? 159)).

Definition validNodeName (value : string) : bool :=
  let value := TrimSpace value in
  let length := RuneCountInString value in
  negb ((length <? 3) || (30 <? length)) && forallb (fun character => negb (IsControl character)) (runes value).

Definition nonPublicPrefixes : list Prefix :=
  [Prefix4 (ip4 0 0 0 0) 8; Prefix4 (ip4 10 0 0 0) 8; Prefix4 (ip4 100 64 0 0) 10; Prefix4 (ip4 127 0 0 0) 8;
   Prefix4 (ip4 169 254 0 0) 16; Prefix4 (ip4 172 16 0 0) 12; Prefix4 (ip4 192 0 0 0) 24; Prefix4 (ip4 192 0 2 0) 24;
   Prefix4 (ip4 192 168 0 0) 16; Prefix4 (ip4 198 18 0 0) 15; Prefix4 (ip4 198 51 100 0) 24;
   Prefix4 (ip4 203 0 113 0) 24; Prefix4 (ip4 224 0 0 0) 4; Prefix4 (ip4 240 0 0 0) 4;
   Prefix6 0 128; Prefix6 1 128; Prefix6 (join_fields 65536 [8193; 3512; 0; 0; 0; 0; 0; 0]) 32;
   Prefix6 (join_fields 65536 [64512; 0; 0; 0; 0; 0; 0; 0]) 7;
   Prefix6 (join_fields 65536 [65152; 0; 0; 0; 0; 0; 0; 0]) 10;
   Prefix6 (join_fields 65536 [65280; 0; 0; 0; 0; 0; 0; 0]) 8].

Definition parsePublicIP (value : string) : option Addr :=
  match ParseAddr (TrimSpace value) with
  | None => None
  | Some address =>
    if negb (String.eqb (Zone address) "") then None else
    let address := Unmap address in
    if negb (IsGlobalUnicast address) then None else
    if existsb (fun prefix => prefix_contains prefix address) nonPublicPrefixes then None else Some address
  end.

(** [parsePublicIPv4] returns the address and whether it is valid; the callers
    use the address only then. *)
Definition parsePublicIPv4 (value : string) : option Addr :=
  match parsePublicIP value with
  | Some address => if Is4 address then Some address else None
  | None => None
  end.

(** ** Texts *)
Definition truncateUTF8 (value : string) (limit : Z) : string :=
  if (limit <=? 0) || (str_len value <=? limit) then value else cut_runes limit (String.length value) value.
Definition safeLine (value : string) (limit : Z) : string := truncateUTF8 (TrimSpace (flatten_ws value)) limit.

Definition maxMessageBytes : Z := 3900.
Definition maxPasswordBytes : Z := 4096.

(** ** The data of the buttons *)

(** The loop of [validDeploymentID] visits runes: one outside ASCII is no
    hexadecimal digit, so it is the same test on bytes. *)
Definition hex_char (a : ascii) : bool := byte_in 48 57 a || byte_in 97 102 a || byte_in 65 70 a.
Definition byte_or_zero (s : string) (i : nat) : ascii := default zero (String.get i s).
Definition dash_position (i : nat) : bool := existsb (Nat.eqb i) [8; 13; 18; 23]%nat.
Definition validDeploymentID (value : string) : bool :=
  (str_len value =? 36) &&
  forallb (fun i => if dash_position i then Ascii.eqb (byte_or_zero value i) "-" else hex_char (byte_or_zero value i)) (seq 0 36).

Notation colon := ":"%char.

Definition index_part (s : string) (bound : Z) : option Z :=
  match Atoi s with
  | Some parsed => if (parsed <? 0) || (bound <? parsed) then None else Some parsed
  | None => None
  end.
Definition unbounded : Z := 2 ^ 63 - 1.

Definition parseCallbackData (data : string) : option (string * string * Z) :=
  let parts := Split data colon in
  let indexed action nonce n bound := (i ← index_part n bound; Some (action, nonce, i)) in
  match parts with
  | p0 :: p1 :: p2 :: rest =>
    if String.eqb p2 "" then None else
    match String.eqb p0 "ip", rest with
    | true, [p3] =>
      if String.eqb p1 "panel" then indexed "ip_panel" p2 p3 unbounded
      else if String.eqb p1 "spanel" then indexed "server_panel" p2 p3 unbounded
      else if String.eqb p1 "scope" then indexed "server_scope" p2 p3 1
      else if String.eqb p1 "mode" then indexed "ip_mode" p2 p3 3
      else None
    | true, [] =>
      if String.eqb p1 "change" then Some ("ip_change", p2, 0)
      else if String.eqb p1 "cancel" then Some ("ip_cancel", p2, 0)
      else None
    | true, _ => None
    | false, _ =>
      if String.eqb p0 "dns" then
        match rest with
        | [p3] => if String.eqb p1 "panel" then indexed "dns_panel" p2 p3 unbounded else None
        | [] =>
          if String.eqb p1 "sync" then Some ("dns_sync", p2, 0)
          else if String.eqb p1 "cancel" then Some ("dns_cancel", p2, 0)
          else None
        | _ => None
        end
      else if String.eqb p0 "move" then
        match rest with
        | [p3] => if String.eqb p1 "host" then indexed "move_host" p2 p3 unbounded else None
        | [] =>
          if String.eqb p1 "apply" then Some ("move_apply", p2, 0)
          else if String.eqb p1 "cancel" then Some ("move_cancel", p2, 0)
          else None
        | _ => None
        end
      else if negb (String.eqb p0 "add") then None
      else if String.eqb p1 "host" || String.eqb p1 "panel" then
        match rest with [p3] => indexed p1 p2 p3 unbounded | _ => None end
      else if String.eqb p1 "deploy" || String.eqb p1 "cancel" then
        match rest with [] => Some (p1, p2, 0) | _ => None end
      else None
    end
  | _ => None
  end.

Definition deployment_actions : list string := ["open"; "logs"; "retry"; "dns"; "recheck"; "repair_cert"; "cancel"].
Definition parseDeploymentCallback (data : string) : option (string * string) :=
  match Split data colon with
  | [p0; p1; p2] =>
    if negb (String.eqb p0 "dep") || negb (validDeploymentID p2) then None
    else if existsb (String.eqb p1) deployment_actions then Some (p1, p2) else None
  | _ => None
  end.
