(* ===== verification/BotApi.v ===== *)
(** * The transport of the Telegram bot ([internal/telegram/botapi.go])

    The long polling loop and the four operations of the messenger, over the
    HTTP requests to the Bot API, the context and the handler of updates.
    The JSON encoding of a request and the decoding of a response are the
    library; a request is its value, a response an [httpOutcome] of its
    envelope, whose [result] is [None] when it could not be decoded.

    [Run] has no bound of its own: [rounds] is the number of polls looked at,
    and [None] a loop still running after them. *)

From S2P Require Import Prelude GoStrings Unicode Utf8 GoText GoURL Http Effects TgTypes.

#[local] Open Scope Z_scope.

(** ** The wire *)
Record messageWire : Type := mkMessageWire { mw_MessageID : Z; mw_From : Z; mw_Chat : Z; mw_Text : string }.
Record callbackQueryWire : Type := mkCallbackQueryWire {
  cw_ID : string; cw_From : Z; cw_Message : option messageWire; cw_Data : string
}.
Record updateWire : Type := mkUpdateWire { uw_UpdateID : Z; uw_Message : option messageWire; uw_CallbackQuery : option callbackQueryWire }.

Inductive replyMarkup : Type :=
  | inlineKeyboardMarkup (rows : list (list (string * string)))
  | replyKeyboardMarkup (rows : list (list string)) (resize : bool).

Record getUpdatesRequest : Type := mkGetUpdatesRequest { gu_Offset : Z; gu_Timeout : Z; gu_AllowedUpdates : list string }.
Record messageRequest : Type := mkMessageRequest { mr_ChatID : Z; mr_Text : string; mr_ReplyMarkup : option replyMarkup }.
Record editMessageRequest : Type := mkEditMessageRequest {
  er_ChatID : Z; er_MessageID : Z; er_Text : string; er_ReplyMarkup : option replyMarkup
}.

Record apiEnvelope (R : Type) : Type := mkApiEnvelope { env_OK : bool; env_Result : option R }.
Arguments mkApiEnvelope {R} env_OK env_Result.
Arguments env_OK {R} _.
Arguments env_Result {R} _.

(** ** Effects: [DoX] is the request of the method [X] below the base URL. *)
Inductive botE : Type -> Type :=
  | DoGetUpdates (base : URL) (payload : getUpdatesRequest) : botE (httpOutcome (apiEnvelope (list updateWire)))
  | DoSendMessage (base : URL) (payload : messageRequest) : botE (httpOutcome (apiEnvelope messageWire))
  | DoEditMessageText (base : URL) (payload : editMessageRequest) : botE (httpOutcome (apiEnvelope unit))
  | DoDeleteMessage (base : URL) (chatID messageID : Z) : botE (httpOutcome (apiEnvelope bool))
  | DoAnswerCallbackQuery (base : URL) (callbackQueryID text : string) : botE (httpOutcome (apiEnvelope bool))
  | ContextDone : botE bool
  | HandleUpdate (update : Update) : botE bool.

(** ** Construction *)

(** [unicode.IsSpace]. *)
Definition IsSpace (r : Z) : bool :=
  ((9 <=? r) && (r <=? 13)) || existsb (Z.eqb r) [32; 133; 160; 5760; 8232; 8233; 8239; 8287; 12288] || ((8192 <=? r) && (r <=? 8202)).

Record BotAPI : Type := mkBotAPI { bot_baseURL : URL; bot_pollTimeout : Z }.

(** [url.Parse] of the address may fail; its [nil] would only be met later,
    so a base that does not parse is kept apart. *)
Definition NewBotAPI (token : string) (timeout : Z) : result string (option BotAPI) :=
  let token := TrimSpace token in
  if String.eqb token "" || (timeout <=? 0) || ContainsAny token "/?#" || existsb IsSpace (runes token)
  then Err "invalid Telegram Bot API configuration"
  else
    let pollTimeout := timeout / 1000000000 - 1 in
    let pollTimeout := if pollTimeout <? 0 then 0 else pollTimeout in
    let pollTimeout := if 25 <? pollTimeout then 25 else pollTimeout in
    Ok ((fun base => mkBotAPI base pollTimeout) <$> Parse ("https://api.telegram.org/bot" +:+ token +:+ "/")).

(** ** Conversions *)
Definition keyboardWire (keyboard : Keyboard) : option replyMarkup :=
  if (0 <? length (k_Inline keyboard))%nat
  then Some (inlineKeyboardMarkup (map (fun button => (b_Text button, b_CallbackData button)) <$> k_Inline keyboard))
  else if (0 <? length (k_Reply keyboard))%nat then Some (replyKeyboardMarkup (k_Reply keyboard) true)
  else None.

Definition mapMessage (message : messageWire) : Message :=
  mkMessage (mw_MessageID message) (mw_Chat message) (mw_From message) (mw_Text message).

Definition mapCallback (callback : callbackQueryWire) : CallbackQuery :=
  mkCallbackQuery (cw_ID callback) (cw_From callback) (mapMessage <$> cw_Message callback) (cw_Data callback).

Definition mapUpdate (update : updateWire) : Update :=
  mkUpdate (uw_UpdateID update) (mapMessage <$> uw_Message update) (mapCallback <$> uw_CallbackQuery update).

Section Bot.
Context (b : BotAPI).

(** What [call] makes of the response of a request. *)
Definition bot_decode {R} (outcome : httpOutcome (apiEnvelope R)) (cancelled : bool) : result string R :=
  match outcome with
  | TransportFailed => Err (if cancelled then "context canceled" else "perform Telegram API request failed")
  | Response status body =>
    if negb (status =? 200) then Err ("Telegram API returned HTTP " +:+ Itoa status)
    else match body with
         | BodyInvalid | BodyTrailing => Err "invalid Telegram API response"
         | BodyValue envelope =>
           if negb (env_OK envelope) then Err "invalid Telegram API response"
           else match env_Result envelope with Some r => Ok r | None => Err "invalid Telegram API result" end
         end
  end.

Definition bot_call {R} (request : botE (httpOutcome (apiEnvelope R))) : prog botE (result string R) :=
  outcome ← call request;
  match outcome with
  | TransportFailed => cancelled ← call ContextDone; mret (bot_decode outcome cancelled)
  | Response _ _ => mret (bot_decode outcome false)
  end.

Definition failure {R} (r : result string R) : option string := match r with Ok _ => None | Err e => Some e end.

Definition getUpdates (offset : Z) : prog botE (result string (list updateWire)) :=
  bot_call (DoGetUpdates (bot_baseURL b) (mkGetUpdatesRequest offset (bot_pollTimeout b) ["message"; "callback_query"])).

Definition SendMessage (chatID : Z) (text : string) (keyboard : Keyboard) : prog botE (result string Message) :=
  r ← bot_call (DoSendMessage (bot_baseURL b) (mkMessageRequest chatID (truncateUTF8 text maxMessageBytes) (keyboardWire keyboard)));
  mret (match r with Ok m => Ok (mapMessage m) | Err e => Err e end).

Definition EditMessage (chatID messageID : Z) (text : string) (keyboard : Keyboard) : prog botE (option string) :=
  let keyboard := mkKeyboard (k_Inline keyboard) [] in
  failure <$> bot_call (DoEditMessageText (bot_baseURL b)
    (mkEditMessageRequest chatID messageID (truncateUTF8 text maxMessageBytes) (keyboardWire keyboard))).

Definition DeleteMessage (chatID messageID : Z) : prog botE (option string) :=
  failure <$> bot_call (DoDeleteMessage (bot_baseURL b) chatID messageID).

Definition AnswerCallback (callbackID text : string) : prog botE (option string) :=
  failure <$> bot_call (DoAnswerCallbackQuery (bot_baseURL b) callbackID (safeLine text 180)).

(** ** Polling *)

(** The offset after an update; [offset = updateID + 1] is an [int64]. *)
Definition advance (offset updateID : Z) : Z := if offset <=? updateID then wrap64 (updateID + 1) else offset.

Fixpoint handle_updates (updates : list updateWire) (offset : Z) : prog botE Z :=
  match updates with
  | [] => mret offset
  | update :: updates' =>
    call (HandleUpdate (mapUpdate update)) ≫= fun _ => handle_updates updates' (advance offset (uw_UpdateID update))
  end.

(** [Some None]: the context ended; [Some (Some e)]: the poll failed. *)
Fixpoint poll (rounds : nat) (offset : Z) : prog botE (option (option string)) :=
  match rounds with
  | O => mret None
  | S rounds =>
    updates ← getUpdates offset;
    match updates with
    | Err e => cancelled ← call ContextDone; mret (Some (if cancelled : bool then None else Some e))
    | Ok updates => offset ← handle_updates updates offset; poll rounds offset
    end
  end.

Definition Run (rounds : nat) : prog botE (option (option string)) := poll rounds 0.
End Bot.

(** ** What the loop guarantees *)

(** The updates of the responses, and those handed to the handler. *)
Definition delivered_by (ev : event botE) : list Update :=
  match ev with
  | @Ev _ _ op res =>
    match op in botE X return X -> list Update with
    | DoGetUpdates _ _ => fun res => match bot_decode res false with Ok l => mapUpdate <$> l | Err _ => [] end
    | _ => fun _ => []
    end res
  end.
Definition handled_by (ev : event botE) : list Update := match ev_op ev with HandleUpdate u => [u] | _ => [] end.
Definition delivered (tr : list (event botE)) : list Update := flat_map delivered_by tr.
Definition handled (tr : list (event botE)) : list Update := flat_map handled_by tr.

(** A poll only acknowledges updates that were handled: everything delivered
    was, and its offset is beyond them and no further; an update is handled
    once, in the order of delivery. *)
Definition poll_rule (past : list (event botE)) (ev : event botE) : Prop :=
  match ev_op ev with
  | DoGetUpdates _ payload =>
      handled past = delivered past /\ gu_Offset payload = fold_left advance (u_ID <$> handled past) 0 /\
      (Forall (fun u => u_ID u < 2 ^ 63 - 1) (handled past) -> Forall (fun u => u_ID u < gu_Offset payload) (handled past))
  | HandleUpdate u => exists later, delivered past = handled past ++ u :: later
  | ContextDone => True
  | _ => False
  end.

Lemma advance_max ids offset :
  0 <= offset -> Forall (fun i => i < 2 ^ 63 - 1) ids ->
  offset <= fold_left advance ids offset /\ Forall (fun i => i < fold_left advance ids offset) ids.
Proof.
  intros Ho Hf. revert offset Ho. induction Hf as [|i ids Hi _ IH]; intros offset Ho; cbn [fold_left]; [by split; [lia|]|].
  assert (0 <= advance offset i /\ offset <= advance offset i /\ i < advance offset i) as (H1 & H2 & H3).
  { unfold advance. destruct (offset <=? i) eqn:E; [apply Z.leb_le in E|apply Z.leb_gt in E; lia]. rewrite wrap64_id; lia. }
  destruct (IH _ H1) as [H4 H5]. split; [lia|]. constructor; [lia|done].
Qed.

Lemma delivered_snoc tr ev : delivered (tr ++ [ev]) = delivered tr ++ delivered_by ev.
Proof. unfold delivered. rewrite flat_map_app. cbn. by rewrite app_nil_r. Qed.
Lemma handled_snoc tr ev : handled (tr ++ [ev]) = handled tr ++ handled_by ev.
Proof. unfold handled. rewrite flat_map_app. cbn. by rewrite app_nil_r. Qed.

Definition between_polls (offset : Z) (tr : list (event botE)) : Prop :=
  every poll_rule tr /\ handled tr = delivered tr /\ offset = fold_left advance (u_ID <$> handled tr) 0.

Lemma handle_updates_wp updates offset tr :
  every poll_rule tr -> delivered tr = handled tr ++ (mapUpdate <$> updates) -> offset = fold_left advance (u_ID <$> handled tr) 0 ->
  wp (handle_updates updates offset) tt tr (fun offset' _ tr' => between_polls offset' tr').
Proof.
  revert offset tr. induction updates as [|u updates IH]; intros offset tr Htr Hd Ho; cbn [handle_updates].
  { wp_steps. split_and!; [done| |done]. by rewrite Hd, fmap_nil, app_nil_r. }
  wp_answer x s H. destruct s. apply IH.
  - apply every_snoc; [done|]. by exists (mapUpdate <$> updates).
  - rewrite delivered_snoc, handled_snoc, Hd. cbn. by rewrite app_nil_r, <-app_assoc.
  - rewrite handled_snoc, fmap_app, fold_left_app, <-Ho. done.
Qed.

Lemma context_event offset tr x : between_polls offset tr -> between_polls offset (tr ++ [Ev ContextDone x]).
Proof.
  intros (H1 & H2 & H3). split_and!; [by apply every_snoc| |].
  - rewrite delivered_snoc, handled_snoc. cbn. by rewrite !app_nil_r.
  - rewrite handled_snoc. cbn. by rewrite app_nil_r.
Qed.

Lemma getUpdates_wp b offset tr :
  between_polls offset tr ->
  wp (getUpdates b offset) tt tr (fun r _ tr' => every poll_rule tr' /\ handled tr' = handled tr /\
    delivered tr' = delivered tr ++ match r with Ok l => mapUpdate <$> l | Err _ => [] end).
Proof.
  intros (Htr & Hd & Ho). unfold getUpdates, bot_call. wp_answer outcome s H. destruct s.
  match goal with |- wp _ _ (tr ++ [?ev]) _ => assert (every poll_rule (tr ++ [ev])) as Hk end.
  { apply every_snoc; [done|]. split_and!; [done|exact Ho|]. intros Hids. cbn. rewrite Ho.
    destruct (advance_max (u_ID <$> handled tr) 0) as [_ Hf]; [done|by apply Forall_fmap|]. by apply Forall_fmap in Hf. }
  destruct outcome as [|status body].
  - wp_answer cancelled s2 H2. destruct s2. wp_steps. split_and!; [by apply every_snoc| |].
    + rewrite !handled_snoc. cbn. by rewrite !app_nil_r.
    + rewrite !delivered_snoc. cbn. by rewrite !app_nil_r.
  - wp_steps. split_and!; [done| |].
    + rewrite handled_snoc. cbn. by rewrite app_nil_r.
    + rewrite delivered_snoc. done.
Qed.

Lemma poll_wp b rounds offset tr : between_polls offset tr -> wp (poll b rounds offset) tt tr (fun _ _ tr' => exists offset', between_polls offset' tr').
Proof.
  revert offset tr. induction rounds as [|rounds IH]; intros offset tr Ht; cbn [poll]; [wp_steps; by exists offset|].
  wp_step. eapply wp_mono; [by apply getUpdates_wp|]. intros r [] tr1 (H1 & H2 & H3). destruct Ht as (_ & Hd & Ho).
  destruct r as [updates|e].
  - wp_step. eapply wp_mono; [apply handle_updates_wp; [done|by rewrite H3, H2, Hd|by rewrite H2]|]. intros offset' [] tr2 Ht2. by apply IH.
  - wp_answer cancelled s H. destruct s. wp_steps. exists offset. apply context_event. split_and!; [done| |by rewrite H2].
    by rewrite H3, H2, app_nil_r.
Qed.

(** C11. However long the bot polls and whatever Telegram answers: every update
    delivered is handled exactly once and in order before the next poll, and
    a poll never acknowledges an update that was not handled; the offset is
    beyond every update handled (below the largest [int64]), so none of them
    is asked for again, also when its handler failed. *)
Theorem updates_are_handled_before_they_are_acknowledged (b : BotAPI) (rounds : nat) :
  always (Run b rounds) tt (fun tr r _ => every poll_rule tr /\ handled tr = delivered tr).
Proof.
  apply wp_always. eapply wp_mono; [apply (poll_wp b rounds 0 [])|].
  - split_and!; [apply every_nil|done|done].
  - intros r [] tr (offset & H1 & H2 & _). done.
Qed.

(** ** What the messenger sends *)

(** Texts are within the limit of the bot, and only a new message carries a
    reply keyboard. *)
Definition sendable (ev : event botE) : Prop :=
  match ev_op ev with
  | DoSendMessage _ p => str_len (mr_Text p) <= maxMessageBytes
  | DoEditMessageText _ p => str_len (er_Text p) <= maxMessageBytes /\
      match er_ReplyMarkup p with Some (replyKeyboardMarkup _ _) => False | _ => True end
  | DoAnswerCallbackQuery _ _ text => str_len text <= 180
  | _ => True
  end.

Lemma truncated text limit : 0 < limit -> str_len (truncateUTF8 text limit) <= limit.
Proof.
  intros Hl. unfold truncateUTF8. destruct (_ || _) eqn:E.
  - apply orb_true_iff in E as [E%Z.leb_le|E%Z.leb_le]; lia.
  - destruct (cut_runes_spec limit (String.length text) text) as (H & _); [lia|lia|done].
Qed.

(** The same for every call of the messenger. *)
Inductive messenger_call (b : BotAPI) : forall A, prog botE A -> Prop :=
  | CallSend chatID text keyboard : messenger_call b _ (SendMessage b chatID text keyboard)
  | CallEdit chatID messageID text keyboard : messenger_call b _ (EditMessage b chatID messageID text keyboard)
  | CallDelete chatID messageID : messenger_call b _ (DeleteMessage b chatID messageID)
  | CallAnswer callbackID text : messenger_call b _ (AnswerCallback b callbackID text).

Lemma bot_call_every {R} (request : botE (httpOutcome (apiEnvelope R))) :
  (forall r, sendable (Ev request r)) -> wp (bot_call request) tt [] (fun _ _ tr => Forall sendable tr).
Proof.
  intros Hr. unfold bot_call. wp_answer outcome s H. destruct s. destruct outcome.
  - wp_answer c s H2. destruct s. wp_steps. repeat constructor; apply Hr.
  - wp_steps. repeat constructor; apply Hr.
Qed.

Lemma messages_are_within_the_limits b A (p : prog botE A) : messenger_call b A p -> always p tt (fun tr _ _ => Forall sendable tr).
Proof.
  intros Hc. apply wp_always. destruct Hc; unfold SendMessage, EditMessage, DeleteMessage, AnswerCallback; wp_step;
    (eapply wp_mono; [apply bot_call_every|intros ? [] tr Htr; cbv beta; wp_steps; exact Htr]); intros r; unfold sendable; cbn [ev_op mr_Text er_Text er_ReplyMarkup].
  - by apply truncated.
  - split; [by apply truncated|]. unfold keyboardWire. cbn. by destruct (k_Inline keyboard).
  - done.
  - by apply truncated.
Qed.
