(* ===== verification/TgApp.v ===== *)
(** * The application behind the bot

    Models [internal/orchestrator/telegram.go]: the adapter between the
    Telegram controller and the deployment services of the panels.  A call of
    a panel's service is the program of Service.v, NodeOps.v or Recovery.v
    with every one of its calls sent to that panel. *)

From S2P Require Import Prelude GoStrings NetIP Effects Deployment Repository CertTypes CertStore.
From S2P Require Remnawave TgTypes.
From S2P Require Import Service NodeOps Recovery.

#[local] Open Scope Z_scope.

(** ** Effects *)
Inductive appE : Type -> Type :=
  | OnPanel (id : string) {X} (e : svcE X) : appE X
  | OnRecovery (id : string) {X} (e : recE X) : appE X
  | PanelMetrics (id : string) : appE (option (list Remnawave.NodeMetric))
  | AppGetDeployment (id : string) : appE (result repoErr Deployment)
  | AppListRecent (limit : Z) : appE (result repoErr (list Deployment))
  | AppProgress (p : TgTypes.Progress) : appE unit
  | CherryConfigure (i : TgTypes.CherryIPInput) : appE (option TgTypes.CherryIPResult)
  | RoyalConfigure (i : TgTypes.RoyalIPInput) : appE (option TgTypes.RoyalIPResult).

#[local] Notation M := (prog appE).

Inductive appErr : Type :=
  | AppText (text : string)
  | AppInvalidInput
  | AppHostUnavailable
  | AppDuplicateNodeName
  | AppDuplicateVPSIP
  | AppService (e : svcErr)
  | AppRecovery (e : string)
  | AppRepository (e : repoErr)
  | AppPanel (e : remErr)
  | AppProvider.

Definition on_service {A} (id : string) : prog svcE A -> M A := interp (fun X e => call (OnPanel id e)).
Definition on_recovery {A} (id : string) : prog recE A -> M A := interp (fun X e => call (OnRecovery id e)).

(** ** The panels *)
Record PanelApplicationConfig : Type := mkPanelApplicationConfig {
  pa_ID : string;
  pa_Name : string;
  pa_DNSEnabled : bool;
  pa_HasService : bool;   (* the service is not nil *)
  pa_Service : Service.Config;
  pa_Recovery : option RecoveryService;
  pa_Repository : Z;      (* the identity of the service's repository *)
  pa_HasMetrics : bool    (* the panel client has [GetNodesMetrics] *)
}.

Record TelegramApplication : Type := mkTelegramApplication {
  ta_panels : gmap string PanelApplicationConfig;
  ta_order : list string;
  ta_cherryIP : bool;
  ta_royalIP : bool
}.

Definition SetRoyalIPService (present : bool) (a : TelegramApplication) : result string TelegramApplication :=
  if negb present then Err "Royal IP service is required"
  else Ok (mkTelegramApplication (ta_panels a) (ta_order a) (ta_cherryIP a) true).

Definition SetCherryIPService (present : bool) (a : TelegramApplication) : result string TelegramApplication :=
  if negb present then Err "Cherry IP service is required"
  else Ok (mkTelegramApplication (ta_panels a) (ta_order a) true (ta_royalIP a)).

Definition trimmed (p : PanelApplicationConfig) : PanelApplicationConfig :=
  mkPanelApplicationConfig (TrimSpace (pa_ID p)) (TrimSpace (pa_Name p)) (pa_DNSEnabled p) (pa_HasService p) (pa_Service p) (pa_Recovery p)
    (pa_Repository p) (pa_HasMetrics p).

(** The loop over the panels; [repository] is the one of the panels so far. *)
Fixpoint add_panels (l : list PanelApplicationConfig) (repository : option Z) (app : TelegramApplication)
    : result string TelegramApplication :=
  match l with
  | [] => Ok app
  | p :: l' =>
    let p := trimmed p in
    if String.eqb (pa_ID p) "" || String.eqb (pa_Name p) "" || negb (pa_HasService p)
    then Err "invalid panel application configuration"
    else if bool_decide (is_Some (ta_panels app !! pa_ID p)) then Err "duplicate panel application configuration"
    else if match repository with Some r => negb (r =? pa_Repository p) | None => false end
    then Err "panels must share deployment repository"
    else add_panels l' (Some (pa_Repository p))
           (mkTelegramApplication (<[pa_ID p := p]> (ta_panels app)) (ta_order app ++ [pa_ID p]) (ta_cherryIP app) (ta_royalIP app))
  end.

Definition NewMultiPanelTelegramApplication (panels : list PanelApplicationConfig) : result string TelegramApplication :=
  match panels with
  | [] => Err "at least one panel is required"
  | _ => add_panels panels None (mkTelegramApplication ∅ [] false false)
  end.

Definition NewTelegramApplicationWithRecovery (present : bool) (service : Service.Config) (repository : Z) (metrics : bool)
    (recovery : option RecoveryService) : result string TelegramApplication :=
  NewMultiPanelTelegramApplication [mkPanelApplicationConfig "default" "Default" true present service recovery repository metrics].

Definition NewTelegramApplication (present : bool) (service : Service.Config) (repository : Z) (metrics : bool)
    : result string TelegramApplication :=
  if negb present then Err "deployment service is required"
  else NewMultiPanelTelegramApplication [mkPanelApplicationConfig "default" "Default" true present service None repository metrics].

(** ** Projections *)
Definition telegramNotices (values : list OperatorNotice) : list TgTypes.OperatorNotice :=
  (fun v => TgTypes.mkOperatorNotice (not_Code v) (not_Message v)) <$> values.

Definition telegramProgressStatus (value : option StepStatus) : string :=
  match value with
  | Some StepStatusCompleted => TgTypes.ProgressCompleted
  | Some StepStatusFailed => TgTypes.ProgressFailed
  | Some StepStatusSkipped => TgTypes.ProgressSkipped
  | _ => TgTypes.ProgressRunning
  end.

Definition telegramCertificateReadiness (value : Readiness) : string :=
  match value with
  | ReadinessReady => TgTypes.ReadinessReady
  | ReadinessNotReady => TgTypes.ReadinessNotReady
  | ReadinessUnknown => TgTypes.ReadinessUnknown
  end.

Definition readiness (ready : bool) : string := if ready then TgTypes.ReadinessReady else TgTypes.ReadinessNotReady.

Definition telegramDeploymentSummary (item : Deployment) (panelName : string) : TgTypes.DeploymentSummary :=
  TgTypes.mkDeploymentSummary panelName (ID item) (NodeName item) (status_text (status item)) (CurrentStep item) (TargetVPSIP item)
    (default "" (SafeErrorCode item)) (default "" (SafeErrorMessage item)) (CreatedAt item) (UpdatedAt item)
    (StartedAt item) (CompletedAt item).

Definition telegram_progress (p : Service.Progress) : TgTypes.Progress :=
  TgTypes.mkProgress (prog_Step p) (prog_Completed p) (prog_Total p) (prog_SafeMessage p) (telegramProgressStatus (prog_Status p)) (prog_Code p).

Definition sync_action_text (x : dnsSyncAction) : string :=
  match x with DNSSyncAdded => "ADDED" | DNSSyncReplaced => "REPLACED" | DNSSyncAlreadyPresent => "ALREADY_PRESENT" end.

(** ** The operations *)
Section Application.
Context (a : TelegramApplication) (content : option nat -> string).  (* the bytes of a password buffer *)

Definition panel (id : string) : option PanelApplicationConfig := ta_panels a !! TrimSpace id.

Definition with_panel {A} (id : string) (k : PanelApplicationConfig -> M (result appErr A)) : M (result appErr A) :=
  match panel id with None => mret (Err AppInvalidInput) | Some p => k p end.

Definition panelForDeployment (deploymentID : string) : M (result appErr PanelApplicationConfig) :=
  item ← call (AppGetDeployment deploymentID);
  mret match item with
  | Err e => Err (AppRepository e)
  | Ok item => match panel (PanelID item) with None => Err AppInvalidInput | Some p => Ok p end
  end.

(** What a service answered, with its error passed on. *)
Definition map_service {A B} (f : A -> B) (r : result svcErr A) : result appErr B :=
  match r with Ok x => Ok (f x) | Err e => Err (AppService e) end.

Definition failing (r : option svcErr) : option appErr := AppService <$> r.

Definition ListPanels : list TgTypes.Panel :=
  (fun id => match ta_panels a !! id with
             | Some p => TgTypes.mkPanel id (pa_Name p) (pa_DNSEnabled p)
             | None => TgTypes.mkPanel id "" false
             end) <$> ta_order a.

(** The enabled Hosts, and whether a Node can be deployed with them. *)
Definition host_view (h : Remnawave.Host) : option TgTypes.Host :=
  if Remnawave.host_IsDisabled h then None
  else Some (TgTypes.mkHost (Remnawave.host_UUID h) (Remnawave.host_Remark h) (Remnawave.host_Address h)
         (readiness (is_ok (Remnawave.DeploymentProfileFromHost h)))).

Definition ListHosts (panelID : string) : M (result appErr (list TgTypes.Host)) :=
  match panel panelID with
  | None => mret (Err AppInvalidInput)
  | Some p =>
    hosts ← call (OnPanel (pa_ID p) RemGetHosts);
    mret match hosts with
    | Err _ => Err (AppText "list Hosts failed")
    | Ok hosts => Ok (omap (M := list) host_view hosts)
    end
  end.

Definition CheckNodeName (panelID name : string) : M (option appErr) :=
  match Remnawave.ValidateNodeName name with
  | Some _ => mret (Some AppInvalidInput)
  | None =>
    match panel panelID with
    | None => mret (Some AppInvalidInput)
    | Some p =>
      nodes ← call (OnPanel (pa_ID p) RemGetNodes);
      mret match nodes with
      | Err _ => Some (AppText "check Node name failed")
      | Ok nodes =>
        if existsb (fun n => String.eqb (TrimSpace (Remnawave.node_Name n)) (TrimSpace name)) nodes
        then Some AppDuplicateNodeName else None
      end
    end
  end.

Definition CheckVPSAddress (panelID : string) (address : Addr) : M (option appErr) :=
  if negb (publicIP address) then mret (Some AppInvalidInput)
  else
    match panel panelID with
    | None => mret (Some AppInvalidInput)
    | Some p =>
      nodes ← call (OnPanel (pa_ID p) RemGetNodes);
      mret match nodes with
      | Err _ => Some (AppText "check Node address failed")
      | Ok nodes =>
        if existsb (fun n => match ParseAddr (TrimSpace (Remnawave.node_Address n)) with
                             | Some parsed => bool_decide (Unmap parsed = Unmap address)
                             | None => false end) nodes
        then Some AppDuplicateVPSIP else None
      end
    end.

Definition Preflight (input : TgTypes.PreflightInput) : M (result appErr TgTypes.PreflightResult) :=
  with_panel (TgTypes.pi_PanelID input) (fun p =>
    prepared ← on_service (pa_ID p) (Service.Prepare (pa_Service p) (mkPrepareInput (TgTypes.pi_PanelID input)
      (TgTypes.pi_OperatorUserID input) (TgTypes.pi_HostID input) (TgTypes.pi_NodeName input) (TgTypes.pi_VPSIP input)
      (content (TgTypes.pi_Password input))));
    mret (map_service (fun prepared => TgTypes.mkPreflightResult (ID (prep_Deployment prepared)) (prep_DNSZone prepared)
      (telegramCertificateReadiness (prep_CertificateReadiness prepared)) (readiness (prep_ConfigProfileReadiness prepared))
      (telegramNotices (prep_Warnings prepared))) prepared)).

(** The progress of the service is translated for the chat, if the caller
    asked for it. *)
Definition reporting (id : string) (progress : bool) : forall X, svcE X -> M X := fun X e =>
  match e in svcE X return M X with
  | Emit p => if progress then call (AppProgress (telegram_progress p)) else mret tt
  | e => call (OnPanel id e)
  end.

Definition StartDeployment (input : TgTypes.DeploymentInput) (progress : bool) : M (option appErr) :=
  target ← panelForDeployment (TgTypes.di_PreparedDeploymentID input);
  match target with
  | Err e => mret (Some e)
  | Ok p =>
    failing <$> interp (reporting (pa_ID p) progress) (Service.Deploy (pa_Service p) (mkStartInput (TgTypes.di_PreparedDeploymentID input)
      (TgTypes.di_OperatorUserID input) (TgTypes.di_HostID input) (TgTypes.di_NodeName input) (TgTypes.di_VPSIP input)) true)
  end.

(** The operations on a deployment go to its panel. *)
Definition for_deployment (deploymentID : string) (k : PanelApplicationConfig -> M (option appErr)) : M (option appErr) :=
  target ← panelForDeployment deploymentID;
  match target with Err e => mret (Some e) | Ok p => k p end.

Definition CancelDeployment (deploymentID : string) : M (option appErr) :=
  for_deployment deploymentID (fun p => failing <$> on_service (pa_ID p) (Service.Cancel (pa_Service p) deploymentID)).

Definition RetryFailedStep (deploymentID : string) : M (option appErr) :=
  for_deployment deploymentID (fun p => failing <$> on_service (pa_ID p) (Service.RetryFailedStep (pa_Service p) deploymentID false)).

Definition RetryDNS (deploymentID : string) : M (option appErr) :=
  for_deployment deploymentID (fun p => failing <$> on_service (pa_ID p) (Service.RetryDNS (pa_Service p) deploymentID false)).

Definition deployment_details (item : Deployment) (panelName : string) : TgTypes.DeploymentDetails :=
  let failed := bool_decide (status item = StatusFailed) in
  let at_step (steps : list string) := existsb (String.eqb (CurrentStep item)) steps in
  TgTypes.mkDeploymentDetails (telegramDeploymentSummary item panelName) (SNIDomain item)
    (failed && at_step [stepPrepareCertificate; stepProvisioning; stepCreateNode; stepWaitNode; stepAddDNS])
    (bool_decide (status item = StatusDNSFailed))
    ((failed && at_step [stepCreateNode; stepWaitNode; stepAddDNS]) || bool_decide (status item = StatusManualReview))
    (failed && (at_step [stepPrepareCertificate] && negb (String.eqb (TrimSpace (SNIDomain item)) "")))
    (negb (Status_Terminal (status item))).

Definition GetDeploymentDetails (deploymentID : string) : M (result appErr TgTypes.DeploymentDetails) :=
  item ← call (AppGetDeployment deploymentID);
  mret match item with
  | Err e => Err (AppRepository e)
  | Ok item =>
    match panel (PanelID item) with
    | None => Err AppInvalidInput
    | Some p => Ok (deployment_details item (pa_Name p))
    end
  end.

Definition RecheckRemnawave (deploymentID : string) : M (result appErr string) :=
  target ← panelForDeployment deploymentID;
  match target with
  | Ok p =>
    match pa_Recovery p with
    | None => mret (Err (AppText "recovery service is unavailable"))
    | Some r =>
      result ← on_recovery (pa_ID p) (Recovery.RecheckRemnawave r deploymentID);
      mret match result with Err e => Err (AppRecovery e) | Ok result => Ok (res_SafeMessage result) end
    end
  | Err _ => mret (Err (AppText "recovery service is unavailable"))
  end.

Definition ViewSafeLogs (deploymentID : string) : M (result appErr (list TgTypes.DeploymentLogEntry)) :=
  target ← panelForDeployment deploymentID;
  match target with
  | Err e => mret (Err e)
  | Ok p =>
    entries ← on_service (pa_ID p) (Service.SafeLogs (pa_Service p) deploymentID);
    mret (map_service (fmap (M := list) (fun e => TgTypes.mkDeploymentLogEntry (log_Step e) (log_Status e) (log_Summary e) (log_Code e)
      (log_StartedAt e) (log_CompletedAt e))) entries)
  end.

(** The panels in their order: [order] names registered panels only (see
    [application_wf] below). *)
Definition ordered : list PanelApplicationConfig := omap (fun id => ta_panels a !! id) (ta_order a).

(** A Host that is enabled, can be deployed, and owns the domain. *)
Definition owns (domain : string) (h : Remnawave.Host) : bool :=
  negb (Remnawave.host_IsDisabled h) &&
  match Remnawave.DeploymentProfileFromHost h with
  | Err _ => false
  | Ok profile => match canonicalSNI (Remnawave.prof_SNIDomain profile) with Ok d => String.eqb d domain | Err _ => false end
  end.

(** The loop over the panels: those with a Host that owns the domain. *)
Fixpoint owners (domain : string) (l : list PanelApplicationConfig) : M (result appErr (list PanelApplicationConfig)) :=
  match l with
  | [] => mret (Ok [])
  | p :: l' =>
    hosts ← call (OnPanel (pa_ID p) RemGetHosts);
    match hosts with
    | Err e => mret (Err (AppPanel e))
    | Ok hosts =>
      rest ← owners domain l';
      mret match rest with
      | Err e => Err e
      | Ok rest => Ok (if existsb (owns domain) hosts then p :: rest else rest)
      end
    end
  end.

Definition bootstrap_on (p : PanelApplicationConfig) (domain : string) (operator : Z) : M (string * option appErr) :=
  r ← on_service (pa_ID p) (Service.BootstrapCertificate (pa_Service p) domain operator);
  mret (fst r, failing (snd r)).

Definition BootstrapCertificate (sni : string) (operatorUserID : Z) : M (string * option appErr) :=
  match canonicalSNI sni with
  | Err _ => mret ("Invalid certificate SNI.", Some AppInvalidInput)
  | Ok domain =>
    match ordered with
    | [p] => bootstrap_on p domain operatorUserID
    | panels =>
      found ← owners domain panels;
      match found with
      | Err e => mret ("Could not safely resolve the certificate panel because Hosts are unavailable.", Some e)
      | Ok [] => mret ("No enabled Remnawave Host owns this SNI.", Some AppHostUnavailable)
      | Ok [p] => bootstrap_on p domain operatorUserID
      | Ok (_ :: _ :: _) =>
        mret ("More than one panel owns this SNI; automatic certificate panel selection is unsafe.", Some AppInvalidInput)
      end
    end
  end.

Definition FindNodeForIPChange (panelID query : string) : M (result appErr TgTypes.NodeIPChangeTarget) :=
  with_panel panelID (fun p =>
    target ← on_service (pa_ID p) (NodeOps.FindNodeForIPChange (pa_Service p) query);
    mret (map_service (fun t => TgTypes.mkNodeIPChangeTarget (pa_Name p) (pa_DNSEnabled p) (nit_UUID t) (nit_Name t) (nit_Address t)
      (nit_Connected t) (nit_DNSZones t) (nit_Managed t)) target)).

Definition ReplaceNodeIP (input : TgTypes.NodeIPChangeInput) : M (result appErr string) :=
  with_panel (TgTypes.ii_PanelID input) (fun p =>
    r ← on_service (pa_ID p) (NodeOps.ReplaceNodeIP (pa_Service p)
      (mkNodeIPChangeInput (TgTypes.ii_NodeUUID input) (TgTypes.ii_ExpectedIP input) (TgTypes.ii_NewIP input)));
    mret (map_service id r)).

Definition FindNodeForDNSSync (panelID query : string) : M (result appErr TgTypes.NodeDNSSyncTarget) :=
  with_panel panelID (fun p =>
    target ← on_service (pa_ID p) (NodeOps.FindNodeForDNSSync (pa_Service p) query);
    mret (map_service (fun t => TgTypes.mkNodeDNSSyncTarget (pa_Name p) (ndt_UUID t) (ndt_Name t) (ndt_Address t) (ndt_Connected t)
      (ndt_Managed t) (ndt_DNSZone t) (ndt_PreviousIP t) (ndt_CurrentZones t) (ndt_CurrentPresent t) (ndt_PreviousPresent t)
      (ndt_CanSync t) (ndt_Note t)) target)).

Definition SyncNodeDNS (input : TgTypes.NodeDNSSyncInput) : M (result appErr TgTypes.NodeDNSSyncResult) :=
  with_panel (TgTypes.si_PanelID input) (fun p =>
    r ← on_service (pa_ID p) (NodeOps.SyncNodeDNS (pa_Service p)
      (mkNodeDNSSyncInput (TgTypes.si_NodeUUID input) (TgTypes.si_ExpectedIP input)));
    mret (map_service (fun r => TgTypes.mkNodeDNSSyncResult (ndr_NodeName r) (ndr_Address r) (ndr_DNSZone r)
      (sync_action_text (ndr_Action r)) (ndr_PreviousIP r)) r)).

Definition ConfigureCherryIP (input : TgTypes.CherryIPInput) : M (result appErr TgTypes.CherryIPResult) :=
  if negb (ta_cherryIP a) then mret (Err (AppText "Cherry IP service is unavailable"))
  else
    r ← call (CherryConfigure input);
    mret match r with None => Err AppProvider | Some r => Ok r end.

Definition ConfigureRoyalIP (input : TgTypes.RoyalIPInput) : M (result appErr TgTypes.RoyalIPResult) :=
  if negb (ta_royalIP a) then mret (Err (AppText "Royal IP service is unavailable"))
  else
    r ← call (RoyalConfigure input);
    mret match r with None => Err AppProvider | Some r => Ok r end.

(** [online]: the last metric of a Node counts. *)
Definition online_map (metrics : list Remnawave.NodeMetric) : gmap string Z :=
  foldl (fun m x => <[Remnawave.metric_NodeUUID x := Remnawave.metric_UsersOnline x]> m) ∅ metrics.

Definition node_summary (p : PanelApplicationConfig) (online : gmap string Z) (n : Remnawave.Node) : TgTypes.NodeSummary :=
  TgTypes.mkNodeSummary (pa_ID p) (pa_Name p) (Remnawave.node_UUID n) (Remnawave.node_Name n) (Remnawave.node_Address n)
    (Remnawave.node_IsConnected n) (Remnawave.node_IsConnecting n) (Remnawave.node_IsDisabled n)
    (default 0 (online !! Remnawave.node_UUID n)) (bool_decide (is_Some (online !! Remnawave.node_UUID n)))
    (default "" (Remnawave.node_LastStatusMessage n)) (Remnawave.node_LastStatusChange n).

(** The metrics of a panel without the interface, or during an outage of it,
    are empty. *)
Definition panel_metrics (p : PanelApplicationConfig) : M (list Remnawave.NodeMetric) :=
  if pa_HasMetrics p then default [] <$> call (PanelMetrics (pa_ID p)) else mret [].

Fixpoint list_nodes (l : list PanelApplicationConfig) (acc : list TgTypes.NodeSummary) : M (result appErr (list TgTypes.NodeSummary)) :=
  match l with
  | [] => mret (Ok acc)
  | p :: l' =>
    nodes ← call (OnPanel (pa_ID p) RemGetNodes);
    match nodes with
    | Err _ => mret (Err (AppText "list Nodes failed"))
    | Ok nodes =>
      metrics ← panel_metrics p;
      list_nodes l' (acc ++ (node_summary p (online_map metrics) <$> nodes))
    end
  end.

Definition ListNodes : M (result appErr (list TgTypes.NodeSummary)) := list_nodes ordered [].

Definition PrepareNodeHostMove (panelID nodeUUID : string) : M (result appErr (TgTypes.NodeHostMoveTarget * list TgTypes.Host)) :=
  with_panel panelID (fun p =>
    r ← on_service (pa_ID p) (NodeOps.PrepareNodeHostMove (pa_Service p) nodeUUID);
    mret (map_service (fun '(t, options) =>
      (TgTypes.mkNodeHostMoveTarget (pa_Name p) (nmt_UUID t) (nmt_Name t) (nmt_Address t) (nmt_Managed t) (nmt_CurrentHostKnown t)
         (nmt_CurrentHostRemark t) (nmt_CurrentHostAddress t) (nmt_ExpectedConfigProfileUUID t) (nmt_ExpectedInboundUUIDs t),
       (fun o => TgTypes.mkHost (nmo_UUID o) (nmo_Remark o) (nmo_Address o) TgTypes.ReadinessReady) <$> (options : list NodeHostMoveOption))) r)).

Definition MoveNodeToHost (input : TgTypes.NodeHostMoveInput) : M (result appErr TgTypes.NodeHostMoveResult) :=
  with_panel (TgTypes.mi_PanelID input) (fun p =>
    r ← on_service (pa_ID p) (NodeOps.MoveNodeToHost (pa_Service p) (mkNodeHostMoveInput (TgTypes.mi_NodeUUID input)
      (TgTypes.mi_TargetHostUUID input) (TgTypes.mi_ExpectedProfileUUID input) (TgTypes.mi_ExpectedInboundUUIDs input)
      (content (TgTypes.mi_Password input))));
    mret (map_service (fun r => TgTypes.mkNodeHostMoveResult (nmr_NodeName r) (nmr_PreviousHostKnown r) (nmr_PreviousHost r)
      (nmr_TargetHost r) (nmr_TargetAddress r) (nmr_Managed r) (nmr_DNSUpdated r)) r)).

Definition ListDeployments (limit : Z) : M (result appErr (list TgTypes.DeploymentSummary)) :=
  deployments ← call (AppListRecent limit);
  mret match deployments with
  | Err _ => Err (AppText "list deployments failed")
  | Ok deployments =>
    Ok ((fun item => telegramDeploymentSummary item match ta_panels a !! PanelID item with Some p => pa_Name p | None => PanelID item end)
          <$> (deployments : list Deployment))
  end.

End Application.
