(* ===== verification/TgAppFacts.v ===== *)
(** * What the adapter guarantees

    An operation reaches only the panel it names, or the panel of the
    deployment it names; a certificate is bootstrapped on a panel only when
    every panel was asked and no other one owns the domain. *)

From S2P Require Import Prelude GoStrings NetIP Effects Deployment Repository CertTypes CertStore.
From S2P Require Remnawave TgTypes.
From S2P Require Import Service NodeOps Recovery TgApp.

#[local] Open Scope Z_scope.
#[local] Notation M := (prog appE).

(** ** The registered panels *)
Definition application_wf (a : TelegramApplication) : Prop :=
  (forall id p, ta_panels a !! id = Some p -> pa_ID p = id /\ id <> "" /\ pa_Name p <> "" /\ pa_HasService p = true) /\
  (forall id, id ∈ ta_order a <-> is_Some (ta_panels a !! id)) /\ NoDup (ta_order a).

(** One more panel. *)
Definition with_new_panel (p : PanelApplicationConfig) (a : TelegramApplication) : TelegramApplication :=
  mkTelegramApplication (<[pa_ID p := p]> (ta_panels a)) (ta_order a ++ [pa_ID p]) (ta_cherryIP a) (ta_royalIP a).

Lemma with_new_panel_wf p a :
  application_wf a -> pa_ID p <> "" -> pa_Name p <> "" -> pa_HasService p = true -> ta_panels a !! pa_ID p = None ->
  application_wf (with_new_panel p a).
Proof.
  intros (Hp & Ho & Hn) Hid Hname Hs Hnew. split_and!; cbn.
  - intros id q [[<- <-]|[_ Hq]]%lookup_insert_Some; [done|by apply Hp].
  - intros id. rewrite elem_of_app, list_elem_of_singleton, Ho, lookup_insert_is_Some. destruct (decide (pa_ID p = id)); naive_solver.
  - apply NoDup_app. split_and!; [done| |apply NoDup_singleton]. intros id Hin ->%list_elem_of_singleton. apply Ho in Hin. by rewrite Hnew in Hin; destruct Hin.
Qed.

Lemma with_new_panel_ordered p a :
  application_wf a -> ta_panels a !! pa_ID p = None -> ordered (with_new_panel p a) = ordered a ++ [p].
Proof.
  intros (_ & Ho & _) Hnew. unfold ordered. cbn. rewrite omap_app. f_equal; [|cbn; by rewrite lookup_insert_eq].
  assert (forall id, id ∈ ta_order a -> id <> pa_ID p) as Hne.
  { intros id Hin ->. apply Ho in Hin. rewrite Hnew in Hin. by destruct Hin. }
  clear Ho. induction (ta_order a) as [|i ids IH]; [done|]. cbn. rewrite IH by (intros; apply Hne; by right).
  rewrite lookup_insert_ne; [done|]. apply not_eq_sym, Hne. by left.
Qed.

Lemma add_panels_wf l r a a' :
  application_wf a -> add_panels l r a = Ok a' -> application_wf a' /\ ordered a' = ordered a ++ (trimmed <$> l).
Proof.
  revert r a. induction l as [|p l IH]; intros r a Hwf; cbn [add_panels].
  { intros [= <-]. by rewrite app_nil_r. }
  destruct (_ || _) eqn:Hok; [done|]. case_bool_decide as Hnew; [done|]. destruct (match r with Some _ => _ | None => _ end); [done|].
  apply orb_false_iff in Hok as [[Hid%String.eqb_neq Hname%String.eqb_neq]%orb_false_iff Hs%negb_false_iff].
  apply eq_None_not_Some in Hnew. intros [H1 H2]%(IH _ (with_new_panel (trimmed p) a)); [|by apply with_new_panel_wf].
  split; [done|]. by rewrite H2, with_new_panel_ordered, <-app_assoc.
Qed.

Lemma new_application_wf panels a :
  NewMultiPanelTelegramApplication panels = Ok a -> application_wf a /\ ordered a = trimmed <$> panels.
Proof.
  destruct panels as [|p l]; [done|]. intros [H1 H2]%add_panels_wf; [done|]. split_and!; cbn.
  - intros id q Hq. by rewrite lookup_empty in Hq.
  - intros id. rewrite lookup_empty. split; [by intros ?%not_elem_of_nil|by intros []].
  - constructor.
Qed.

(** ** Who a call is sent to *)
Definition sent_to {X} (e : appE X) : option string :=
  match e with OnPanel id _ | OnRecovery id _ | PanelMetrics id => Some id | _ => None end.

Definition only_panel (id : string) : forall X, appE X -> bool :=
  fun _ e => match sent_to e with Some i => String.eqb i id | None => true end.


Lemma on_service_only id {A} (p : prog svcE A) : calls_only (only_panel id) (on_service id p).
Proof. apply calls_only_interp_all. intros X e. apply calls_only_call, String.eqb_refl. Qed.

Lemma on_recovery_only id {A} (p : prog recE A) : calls_only (only_panel id) (on_recovery id p).
Proof. apply calls_only_interp_all. intros X e. apply calls_only_call, String.eqb_refl. Qed.

Lemma reporting_only id progress {A} (p : prog svcE A) : calls_only (only_panel id) (interp (reporting id progress) p).
Proof.
  apply calls_only_interp_all. intros X e. destruct e; try (apply calls_only_call, String.eqb_refl).
  cbn. by destruct progress; [apply calls_only_call|apply calls_only_ret].
Qed.

(** ** The operations on one panel or one deployment *)
Inductive operation : Type :=
  | OListHosts (panelID : string)
  | OCheckNodeName (panelID name : string)
  | OCheckVPSAddress (panelID : string) (address : Addr)
  | OPreflight (i : TgTypes.PreflightInput)
  | OStartDeployment (i : TgTypes.DeploymentInput) (progress : bool)
  | OCancelDeployment (id : string)
  | ORetryFailedStep (id : string)
  | ORetryDNS (id : string)
  | OGetDeploymentDetails (id : string)
  | ORecheckRemnawave (id : string)
  | OViewSafeLogs (id : string)
  | OFindNodeForIPChange (panelID query : string)
  | OReplaceNodeIP (i : TgTypes.NodeIPChangeInput)
  | OFindNodeForDNSSync (panelID query : string)
  | OSyncNodeDNS (i : TgTypes.NodeDNSSyncInput)
  | OPrepareNodeHostMove (panelID nodeUUID : string)
  | OMoveNodeToHost (i : TgTypes.NodeHostMoveInput).

Definition discard {A} (p : M A) : M unit := (fun _ => tt) <$> p.

Definition perform (a : TelegramApplication) (content : option nat -> string) (op : operation) : M unit :=
  match op with
  | OListHosts p => discard (ListHosts a p)
  | OCheckNodeName p n => discard (CheckNodeName a p n)
  | OCheckVPSAddress p ip => discard (CheckVPSAddress a p ip)
  | OPreflight i => discard (Preflight a content i)
  | OStartDeployment i b => discard (StartDeployment a i b)
  | OCancelDeployment d => discard (CancelDeployment a d)
  | ORetryFailedStep d => discard (RetryFailedStep a d)
  | ORetryDNS d => discard (RetryDNS a d)
  | OGetDeploymentDetails d => discard (GetDeploymentDetails a d)
  | ORecheckRemnawave d => discard (RecheckRemnawave a d)
  | OViewSafeLogs d => discard (ViewSafeLogs a d)
  | OFindNodeForIPChange p q => discard (FindNodeForIPChange a p q)
  | OReplaceNodeIP i => discard (ReplaceNodeIP a i)
  | OFindNodeForDNSSync p q => discard (FindNodeForDNSSync a p q)
  | OSyncNodeDNS i => discard (SyncNodeDNS a i)
  | OPrepareNodeHostMove p n => discard (PrepareNodeHostMove a p n)
  | OMoveNodeToHost i => discard (MoveNodeToHost a content i)
  end.

(** What the operator named: a panel, or a deployment. *)
Definition named (op : operation) : string + string :=
  match op with
  | OListHosts p | OCheckNodeName p _ | OCheckVPSAddress p _ | OFindNodeForIPChange p _ | OFindNodeForDNSSync p _
  | OPrepareNodeHostMove p _ => inl p
  | OPreflight i => inl (TgTypes.pi_PanelID i)
  | OReplaceNodeIP i => inl (TgTypes.ii_PanelID i)
  | OSyncNodeDNS i => inl (TgTypes.si_PanelID i)
  | OMoveNodeToHost i => inl (TgTypes.mi_PanelID i)
  | OCancelDeployment d | ORetryFailedStep d | ORetryDNS d | OGetDeploymentDetails d | ORecheckRemnawave d | OViewSafeLogs d => inr d
  | OStartDeployment i _ => inr (TgTypes.di_PreparedDeploymentID i)
  end.

Definition allowed (target : string + string) (past : list (event appE)) (id : string) : Prop :=
  match target with
  | inl p => id = TrimSpace p
  | inr d => exists item, Ev (AppGetDeployment d) (Ok item) ∈ past /\ id = TrimSpace (PanelID item)
  end.

Definition routed (a : TelegramApplication) (target : string + string) (past : list (event appE)) (ev : event appE) : Prop :=
  forall id, sent_to (ev_op ev) = Some id -> is_Some (ta_panels a !! id) /\ allowed target past id.

(** A program of one panel keeps the rule once the panel is the right one. *)
Lemma wp_routed a target id {A} (p : M A) tr :
  calls_only (only_panel id) p -> is_Some (ta_panels a !! id) -> allowed target tr id -> every (routed a target) tr ->
  wp p tt tr (fun _ _ tr' => every (routed a target) tr').
Proof.
  intros Hp Hid Ha Hev. apply (wp_every (only_panel id)); [done| |done]. intros t ev Hg H i Hi.
  unfold only_panel in H. rewrite Hi in H. apply String.eqb_eq in H as ->. split; [done|].
  destruct target as [q|d]; [done|]. destruct Ha as (item & Hin & ->). exists item. split; [by eapply grows_elem|done].
Qed.

Section Routing.
Context (a : TelegramApplication) (Hwf : application_wf a).

Lemma panel_registered id p : panel a id = Some p -> pa_ID p = TrimSpace id /\ is_Some (ta_panels a !! pa_ID p).
Proof. intros H. destruct Hwf as [Hp _]. destruct (Hp _ _ H) as [-> _]. split; [done|by eexists]. Qed.

Lemma on_panel_routed {A} id (k : PanelApplicationConfig -> M A) r :
  (forall p, calls_only (only_panel (pa_ID p)) (k p)) ->
  wp (match panel a id with None => mret r | Some p => k p end) tt [] (fun _ _ tr => every (routed a (inl id)) tr).
Proof.
  intros Hk. destruct (panel a id) as [p|] eqn:Hp; [|apply wp_ret, every_nil].
  apply panel_registered in Hp as [H1 H2]. by eapply wp_routed; [apply Hk|done..|apply every_nil].
Qed.

(** What is done with the panel of a deployment. *)
Lemma for_deployment_routed {A} d (k : result appErr PanelApplicationConfig -> M A) :
  (forall p, calls_only (only_panel (pa_ID p)) (k (Ok p))) -> (forall e, exists b, k (Err e) = mret b) ->
  wp (panelForDeployment a d ≫= k) tt [] (fun _ _ tr => every (routed a (inr d)) tr).
Proof.
  intros Hk He. unfold panelForDeployment. wp_answer r s Hr. destruct s.
  assert (every (routed a (inr d)) [Ev (AppGetDeployment d) r]) as H0.
  { apply (every_snoc _ []); [apply every_nil|by intros]. }
  wp_steps. destruct r as [item|e]; [|by destruct (He (AppRepository e)) as [b ->]; apply wp_ret].
  destruct (panel a (PanelID item)) as [p|] eqn:Hp; [|by destruct (He AppInvalidInput) as [b ->]; apply wp_ret].
  apply panel_registered in Hp as [H1 H2]. eapply wp_routed; [apply Hk|done| |done]. exists item. split; [by left|done].
Qed.

Lemma wp_discard {A} (p : M A) target :
  wp p tt [] (fun _ _ tr => every (routed a target) tr) -> wp (discard p) tt [] (fun _ _ tr => every (routed a target) tr).
Proof. intros H. apply wp_fmap. exact H. Qed.
End Routing.

(** Programs of one panel. *)
Ltac on_one_panel :=
  repeat first
    [ apply on_service_only | apply on_recovery_only | apply reporting_only
    | calls_step | apply calls_only_call, String.eqb_refl | apply calls_only_bind; [|intros] ].

Lemma perform_routed a content op :
  application_wf a -> wp (perform a content op) tt [] (fun _ _ tr => every (routed a (named op)) tr).
Proof.
  intros Hwf. destruct op; cbn [perform named]; apply wp_discard;
    try (apply on_panel_routed; [done|]; intros p; on_one_panel; fail);
    try (apply for_deployment_routed; [done| |by intros e; eexists]; intros p; on_one_panel; fail).
  - unfold CheckNodeName. destruct (Remnawave.ValidateNodeName name); [apply wp_ret, every_nil|].
    apply on_panel_routed; [done|]. intros p. on_one_panel.
  - unfold CheckVPSAddress. destruct (negb _); [apply wp_ret, every_nil|].
    apply on_panel_routed; [done|]. intros p. on_one_panel.
  - unfold GetDeploymentDetails. wp_answer r s Hr. destruct s. apply (every_snoc _ []); [apply every_nil|by intros].
Qed.

(** C13. Routing between the panels.  With the application built from any list
    of panels, every call a panel or deployment operation makes to a panel's
    service, recovery service or metrics goes to a registered panel: the one
    the operator named, or, for an operation on a deployment, the panel
    recorded in that deployment, which was read before the call. *)
Theorem operations_reach_only_their_panel panels a content op
  (Ha : NewMultiPanelTelegramApplication panels = Ok a) :
  always (perform a content op) tt (fun tr _ _ => every (routed a (named op)) tr).
Proof. apply wp_always, perform_routed. by eapply new_application_wf. Qed.

(** Two panels: an operation on a deployment of the second one. *)
Definition example_panel (id name : string) : PanelApplicationConfig :=
  mkPanelApplicationConfig id name true true (mkConfig id false 1 1 1 1 false true false) None 0 false.
Definition example_panels : list PanelApplicationConfig := [example_panel "main " "Main"; example_panel "horda" "Horda"].

Lemma operations_reach_only_their_panel_witness :
  exists a tr, NewMultiPanelTelegramApplication example_panels = Ok a /\
    runs (perform a (fun _ => "") (OCancelDeployment "d")) tt tr tt tt /\
    existsb (fun ev => bool_decide (sent_to (ev_op ev) = Some "horda")) tr = true /\
    every (routed a (inr "d")) tr.
Proof.
  destruct (NewMultiPanelTelegramApplication example_panels) as [a|] eqn:Ha; [|by vm_compute in Ha].
  set (item := mkDeployment "d" " horda" 42 "h" "Germany" "nl.example.com" "Node 1" AddrInvalid None None StatusDNSFailed
                 "add_dns" None None 0 0 None None).
  set (tr := [Ev (AppGetDeployment "d") (Ok item); Ev (OnPanel "horda" (CtxErr ParentCtx)) (Some Canceled)]).
  assert (runs (perform a (fun _ => "") (OCancelDeployment "d")) tt tr tt tt) as Hr.
  { vm_compute in Ha. injection Ha as <-. do 2 one_event. hnf. done. }
  exists a, tr. split; [done|]. split; [done|]. split; [done|].
  exact (operations_reach_only_their_panel example_panels a (fun _ => "") (OCancelDeployment "d") Ha _ _ _ Hr).
Defined.

(** ** The panel of a certificate *)
Section Bootstrap.
Context (a : TelegramApplication) (sni : string) (operator : Z).

Definition asked (past : list (event appE)) (p : PanelApplicationConfig) (hosts : list Remnawave.Host) : Prop :=
  Ev (OnPanel (pa_ID p) RemGetHosts) (Ok hosts) ∈ past.

Lemma asked_grows past past' p hosts : grows past past' -> asked past p hosts -> asked past' p hosts.
Proof. intros Hg H. by eapply grows_elem. Qed.

Definition bootstrap_of {X} (e : appE X) : option (string * string * Z) :=
  match e with
  | OnPanel id e => match e with CertBootstrap d o => Some (id, d, o) | _ => None end
  | _ => None
  end.

(** The panel bootstrapped is the only one there is, or the only one of all
    the panels, which were all asked, with a Host for the domain. *)
Definition only_owner (l : list PanelApplicationConfig) (past : list (event appE)) (d id : string) : Prop :=
  (exists p, l = [p] /\ pa_ID p = id) \/
  (exists p hosts, p ∈ l /\ pa_ID p = id /\ asked past p hosts /\ existsb (owns d) hosts = true) /\
  (forall q, q ∈ l -> pa_ID q <> id -> exists hosts, asked past q hosts /\ existsb (owns d) hosts = false).

Definition bootstrap_rule (past : list (event appE)) (ev : event appE) : Prop :=
  forall id d o, bootstrap_of (ev_op ev) = Some (id, d, o) -> canonicalSNI sni = Ok d /\ o = operator /\ only_owner (ordered a) past d id.

Definition search_result (domain : string) (l : list PanelApplicationConfig) (tr : list (event appE))
    (r : result appErr (list PanelApplicationConfig)) : Prop :=
  match r with
  | Err _ => True
  | Ok found =>
    (forall p, p ∈ found -> p ∈ l /\ exists hosts, asked tr p hosts /\ existsb (owns domain) hosts = true) /\
    (forall p, p ∈ l -> p ∈ found \/ exists hosts, asked tr p hosts /\ existsb (owns domain) hosts = false)
  end.

Lemma owners_found domain l tr :
  every bootstrap_rule tr ->
  wp (owners domain l) tt tr (fun r _ tr' => keeps bootstrap_rule tr tr' /\ search_result domain l tr' r).
Proof.
  revert tr. induction l as [|p l IH]; intros tr Hev; cbn [owners].
  { apply wp_ret. split; [by split|]. split; intros p []%not_elem_of_nil. }
  wp_answer r s Hr. destruct s. assert (keeps bootstrap_rule tr (tr ++ [Ev (OnPanel (pa_ID p) RemGetHosts) r])) as [Hev1 Hg1]
    by by apply keeps_snoc.
  destruct r as [hosts|e]; [|by wp_steps]. wp_step. eapply wp_mono; [by apply IH|]. intros rest [] tr2 [[Hev2 Hg2] Hrest].
  wp_steps. split; [split; [done|by etrans]|]. destruct rest as [rest|e]; [|done]. destruct Hrest as [H1 H2].
  assert (asked tr2 p hosts) as Hasked by (eapply grows_elem; [exact Hg2|apply elem_snoc]).
  destruct (existsb (owns domain) hosts) eqn:Ho; split.
  - intros q [->|Hq]%elem_of_cons; [split; [left|by eexists]|]. destruct (H1 _ Hq). split; [by right|done].
  - intros q [->|Hq]%elem_of_cons; [left; left|]. destruct (H2 _ Hq); [left; by right|by right].
  - intros q Hq. destruct (H1 _ Hq). split; [by right|done].
  - intros q [->|Hq]%elem_of_cons; [right; by eexists|]. by destruct (H2 _ Hq); [left|right].
Qed.

Lemma bootstrap_on_rule p domain tr :
  canonicalSNI sni = Ok domain -> only_owner (ordered a) tr domain (pa_ID p) -> every bootstrap_rule tr ->
  wp (bootstrap_on p domain operator) tt tr (fun _ _ tr' => every bootstrap_rule tr').
Proof.
  intros Hd Ho Hev. apply (wp_every (E := appE) (fun _ e => match bootstrap_of e with
    Some (i, d, o) => String.eqb i (pa_ID p) && String.eqb d domain && (o =? operator) | None => true end)); [| |done].
  - apply calls_only_mbind; [|intros; apply calls_only_ret].
    apply (calls_only_interp (fun _ e => match e with CertBootstrap d o => String.eqb d domain && (o =? operator) | _ => true end)).
    + intros X e He. apply calls_only_call. destruct e; cbn; try done. by rewrite String.eqb_refl.
    + unfold Service.BootstrapCertificate. destruct (negb _); [apply calls_only_ret|].
      apply calls_only_mbind; [|intros [r|e]; apply calls_only_ret]. apply calls_only_call. by rewrite String.eqb_refl, Z.eqb_refl.
  - intros t ev Hg H id d o Hb. rewrite Hb in H. apply andb_true_iff in H as [[->%String.eqb_eq ->%String.eqb_eq]%andb_true_iff ->%Z.eqb_eq].
    split_and!; [done..|]. destruct Ho as [H|[(q & hosts & H1 & H2 & H3 & H4) H5]]; [by left|right]. split.
    + exists q, hosts. split_and!; [done..|by eapply asked_grows|done].
    + intros q' Hq Hne. destruct (H5 q' Hq Hne) as (h & H6 & H7). exists h. split; [by eapply asked_grows|done].
Qed.

Lemma bootstrap_keeps_rule : wp (BootstrapCertificate a sni operator) tt [] (fun _ _ tr => every bootstrap_rule tr).
Proof.
  unfold BootstrapCertificate. destruct (canonicalSNI sni) as [d|e] eqn:Hd; [|apply wp_ret, every_nil].
  assert (wp (found ← owners d (ordered a);
      match found with
      | Err e => mret ("Could not safely resolve the certificate panel because Hosts are unavailable.", Some e)
      | Ok [] => mret ("No enabled Remnawave Host owns this SNI.", Some AppHostUnavailable)
      | Ok [p] => bootstrap_on p d operator
      | Ok (_ :: _ :: _) =>
        mret ("More than one panel owns this SNI; automatic certificate panel selection is unsafe.", Some AppInvalidInput)
      end) tt [] (fun _ _ tr => every bootstrap_rule tr)) as Hmany.
  { wp_step. eapply wp_mono; [apply owners_found, every_nil|]. intros r [] tr [[Hev _] Hr].
    destruct r as [[|p [|]]|]; try by apply wp_ret. destruct Hr as [H1 H2].
    apply bootstrap_on_rule; [done| |done]. right. destruct (H1 p) as (Hp & hosts & Hh & Ho); [left|].
    split; [by exists p, hosts|]. intros q Hq Hne. by destruct (H2 q Hq) as [->%list_elem_of_singleton|]. }
  destruct (ordered a) as [|p [|q l]] eqn:Hord; [done| |done].
  apply bootstrap_on_rule; [done|left; by exists p|apply every_nil].
Qed.
End Bootstrap.

(** C14. The panel of a certificate.  A certificate is bootstrapped only for
    the canonical form of the SNI given and in the name of that operator; with
    several panels only after the Hosts of every panel were read, on a panel
    with an enabled deployable Host for the SNI, when no other panel has one. *)
Theorem certificate_goes_to_its_only_panel panels a sni operator
  (Ha : NewMultiPanelTelegramApplication panels = Ok a) :
  always (BootstrapCertificate a sni operator) tt (fun tr _ _ =>
    every (fun past ev => forall id d o, bootstrap_of (ev_op ev) = Some (id, d, o) ->
      canonicalSNI sni = Ok d /\ o = operator /\ only_owner (trimmed <$> panels) past d id) tr).
Proof.
  apply new_application_wf in Ha as [_ Ho]. rewrite <-Ho. apply wp_always, bootstrap_keeps_rule.
Qed.

Lemma certificate_goes_to_its_only_panel_witness :
  exists a tr r, NewMultiPanelTelegramApplication example_panels = Ok a /\
    runs (BootstrapCertificate a "DIRECT.example.com." 42) tt tr r tt /\
    existsb (fun ev => bool_decide (bootstrap_of (ev_op ev) = Some ("horda", "direct.example.com", 42))) tr = true /\
    every (fun past ev => forall id d o, bootstrap_of (ev_op ev) = Some (id, d, o) ->
      canonicalSNI "DIRECT.example.com." = Ok d /\ o = 42 /\ only_owner (trimmed <$> example_panels) past d id) tr.
Proof.
  destruct (NewMultiPanelTelegramApplication example_panels) as [a|] eqn:Ha; [|by vm_compute in Ha].
  set (uuid := "11111111-2222-3333-4444-555555555555").
  set (host := Remnawave.mkHost "h" "Germany" "Direct.Example.com" None false (Remnawave.mkHostInbound (Some uuid) (Some uuid))).
  set (tr := [Ev (OnPanel "main" RemGetHosts) (Ok []); Ev (OnPanel "horda" RemGetHosts) (Ok [host]);
              Ev (OnPanel "horda" (CertBootstrap "direct.example.com" 42)) (Err "no")]).
  assert (exists r, runs (BootstrapCertificate a "DIRECT.example.com." 42) tt tr r tt) as [r Hr].
  { vm_compute in Ha. injection Ha as <-. eexists. do 3 one_event. hnf. done. }
  exists a, tr, r. split; [done|]. split; [done|]. split; [done|].
  exact (certificate_goes_to_its_only_panel example_panels a "DIRECT.example.com." 42 Ha _ _ _ Hr).
Defined.
