(* ===== verification/TgProgress.v ===== *)
(** * The progress and the history of a deployment
    ([internal/telegram/deployment_progress.go, deployment_history.go])

    The card a deployment updates while it runs, as a state with its
    transitions, and the list, card and journal of past deployments.  Maps
    from step names are finite maps; a missing key reads as the zero entry. *)

From S2P Require Import Prelude GoStrings Utf8 Unicode GoText NetIP TgTypes.

#[local] Open Scope Z_scope.

(** ** Names *)
Definition progressStepPreflight := "preflight".
Definition progressStepCertificate := "prepare_certificate".
Definition progressStepProvisioning := "provisioning".
Definition progressStepCreateNode := "create_remnawave_node".
Definition progressStepWaitNode := "wait_remnawave".
Definition progressStepDNS := "add_dns".

Definition deploymentStepOrder : list string :=
  [progressStepPreflight; progressStepCertificate; progressStepProvisioning; progressStepCreateNode;
   progressStepWaitNode; progressStepDNS].

Fixpoint label_of (l : list (string * string)) (key : string) : string :=
  match l with [] => "" | (k, v) :: l' => if String.eqb k key then v else label_of l' key end.

Definition deploymentStepLabels : string -> string := label_of
  [(progressStepPreflight, "Проверка VPS"); (progressStepCertificate, "Подготовка сертификата");
   (progressStepProvisioning, "Настройка VPS"); (progressStepCreateNode, "Создание ноды в Remnawave");
   (progressStepWaitNode, "Подключение ноды"); (progressStepDNS, "DNS-балансировка")].

Definition provisioningStepOrder : list string :=
  ["system"; "docker"; "sysctl"; "limits"; "firewall"; "fail2ban"; "remnanode"; "node_exporter";
   "speedtest_exporter"; "logrotate"; "xray_sni"; "healthcheck"].

Definition provisioningStepLabels : string -> string := label_of
  [("system", "Система и пакеты"); ("docker", "Docker"); ("sysctl", "Параметры ядра"); ("limits", "Системные лимиты");
   ("firewall", "Файрвол"); ("fail2ban", "Fail2Ban"); ("remnanode", "Remnanode"); ("node_exporter", "Node Exporter");
   ("speedtest_exporter", "Speedtest Exporter"); ("logrotate", "Ротация логов"); ("xray_sni", "Xray SNI");
   ("healthcheck", "Проверка сервисов")].

(** ** Codes *)
Definition chr_dash : ascii := "-".
Definition normalizeCode (code : string) : string :=
  let code := ToUpper (TrimSpace code) in
  let code := str_map (fun a => if Ascii.eqb a "_" || Ascii.eqb a " " then chr_dash else a) code in
  TrimByte chr_dash code.

Definition normalizeWarningCode (code : string) : string :=
  let code := normalizeCode code in
  if HasPrefix code "W-" then code else if String.eqb code "" then "W-GENERAL" else "W-" +:+ code.

Definition normalizeErrorCode (code : string) : string :=
  let code := normalizeCode code in
  if HasPrefix code "E-" then code else if String.eqb code "" then "E-DEPLOYMENT-FAILED" else "E-" +:+ code.

Definition normalizeOperatorCode (code : string) (status : ProgressStatus) : string :=
  if String.eqb status ProgressFailed then normalizeErrorCode code
  else if String.eqb status ProgressWarning || String.eqb status ProgressSkipped then
    if negb (String.eqb (TrimSpace code) "") then normalizeWarningCode code else ""
  else "".

Definition fallbackText (value fallback : string) : string :=
  if String.eqb (TrimSpace value) "" then fallback else value.

Definition deploymentStepForError (code fallback : string) : string :=
  if Contains code "PREFLIGHT" then progressStepPreflight
  else if Contains code "CERTIFICATE" || Contains code "ACME" then progressStepCertificate
  else if Contains code "PROVISION" || Contains code "KEYGEN" then progressStepProvisioning
  else if Contains code "NODE-CREATE" || Contains code "DUPLICATE" || Contains code "NODE-UUID" then progressStepCreateNode
  else if Contains code "NODE-CONNECTION" || Contains code "NODE-WAIT" || Contains code "NODE-NOT-CONNECTED" then progressStepWaitNode
  else if Contains code "DNS" || Contains code "NODE-NOT-HEALTHY" then progressStepDNS
  else if negb (String.eqb (deploymentStepLabels fallback) "") then fallback
  else progressStepProvisioning.

(** ** The view *)
Record deploymentProgressEntry : Type := mkEntry { e_status : ProgressStatus; e_code : string; e_message : string }.
Definition zero_entry : deploymentProgressEntry := mkEntry "" "" "".

Record deploymentProgressView : Type := mkView {
  v_steps : gmap string deploymentProgressEntry;
  v_provision : gmap string deploymentProgressEntry;
  v_warnings : list OperatorNotice;
  v_failed : bool;
  v_completed : bool;
  v_activeStep : string
}.

(** A read of a Go map. *)
Definition entry_at (m : gmap string deploymentProgressEntry) (step : string) : deploymentProgressEntry :=
  default zero_entry (m !! step).

Definition newDeploymentProgressView (warnings : list OperatorNotice) : deploymentProgressView :=
  mkView
    (<[progressStepCertificate := mkEntry ProgressRunning "" "Preparing certificate"]>
      {[progressStepPreflight := mkEntry ProgressCompleted "" "VPS preflight passed"]})
    ∅ warnings false false progressStepCertificate.

Definition unsettled (status : ProgressStatus) : bool := String.eqb status "" || String.eqb status ProgressRunning.

Fixpoint complete_until (order : list string) (step : string) (m : gmap string deploymentProgressEntry) :
    gmap string deploymentProgressEntry :=
  match order with
  | [] => m
  | candidate :: order' =>
    if String.eqb candidate step then m
    else
      let entry := entry_at m candidate in
      complete_until order' step
        (if unsettled (e_status entry) then <[candidate := mkEntry ProgressCompleted "" (e_message entry)]> m else m)
  end.

Definition with_steps (steps : gmap string deploymentProgressEntry) (v : deploymentProgressView) : deploymentProgressView :=
  mkView steps (v_provision v) (v_warnings v) (v_failed v) (v_completed v) (v_activeStep v).

Definition completeBefore (step : string) (v : deploymentProgressView) : deploymentProgressView :=
  with_steps (complete_until deploymentStepOrder step (v_steps v)) v.

Definition View_Update (progress : Progress) (v : deploymentProgressView) : deploymentProgressView :=
  let step := TrimSpace (pg_Step progress) in
  if String.eqb step "" || String.eqb step "starting" then v else
  let status :=
    if String.eqb (pg_Status progress) "" then
      if (0 <? pg_Total progress) && (pg_Total progress <=? pg_Completed progress) then ProgressCompleted else ProgressRunning
    else pg_Status progress in
  let entry := mkEntry status (normalizeOperatorCode (pg_Code progress) status) (safeLine (pg_SafeMessage progress) 180) in
  let top :=
    if String.eqb (deploymentStepLabels step) "" then v else
    let v := completeBefore step v in
    mkView (<[step := entry]> (v_steps v)) (v_provision v) (v_warnings v)
      (v_failed v || String.eqb status ProgressFailed) (v_completed v)
      (if String.eqb status ProgressRunning then step else v_activeStep v) in
  match Cut step "/" with
  | Some (parent, child) =>
    if String.eqb parent progressStepProvisioning then
      let v := completeBefore parent v in
      let running := mkEntry ProgressRunning "" "Provisioning VPS" in
      mkView
        (<[progressStepProvisioning := if String.eqb status ProgressFailed then entry else running]> (v_steps v))
        (<[child := entry]> (v_provision v)) (v_warnings v)
        (v_failed v || String.eqb status ProgressFailed) (v_completed v) progressStepProvisioning
    else top
  | None => top
  end.

(** The error of [StartDeployment]: one that carries an operator-safe text,
    the cancellation of the context, or any other. *)
Inductive deployErr : Type :=
  | DeploySafe (code message : string)
  | DeployCanceled
  | DeployOther.

Definition Fail_View (err : deployErr) (v : deploymentProgressView) : deploymentProgressView :=
  let '(code, message) :=
    match err with
    | DeploySafe code message => (normalizeErrorCode code, safeLine message 220)
    | DeployCanceled => ("E-DEPLOYMENT-CANCELLED", "Развёртывание отменено")
    | DeployOther => ("E-DEPLOYMENT-FAILED", "Развёртывание остановлено")
    end in
  let step := deploymentStepForError code (v_activeStep v) in
  let v := completeBefore step v in
  mkView (<[step := mkEntry ProgressFailed code message]> (v_steps v)) (v_provision v) (v_warnings v) true
    (v_completed v) step.

Definition complete_entry (m : gmap string deploymentProgressEntry) (step : string) : gmap string deploymentProgressEntry :=
  let entry := entry_at m step in
  if unsettled (e_status entry) then <[step := mkEntry ProgressCompleted (e_code entry) (e_message entry)]> m else m.

Definition View_Complete (v : deploymentProgressView) : deploymentProgressView :=
  mkView (foldl complete_entry (v_steps v) deploymentStepOrder) (v_provision v) (v_warnings v) (v_failed v) true
    (v_activeStep v).

(** ** Its text *)
Definition settled_well (entry : deploymentProgressEntry) : bool :=
  existsb (String.eqb (e_status entry)) [ProgressCompleted; ProgressWarning; ProgressSkipped].
Definition completedCount (v : deploymentProgressView) : Z :=
  Z.of_nat (length (List.filter (fun step => settled_well (entry_at (v_steps v) step)) deploymentStepOrder)).

Definition unattachedWarnings (v : deploymentProgressView) : list OperatorNotice :=
  let attached code := existsb (fun '(_, entry) => negb (String.eqb (e_code entry) "") && String.eqb (e_code entry) code)
    (map_to_list (v_steps v)) in
  omap (fun warning =>
    let code := normalizeWarningCode (on_Code warning) in
    if attached code then None else Some (mkOperatorNotice code (on_Message warning))) (v_warnings v).

Definition progressIcon (entry : deploymentProgressEntry) : string :=
  let status := e_status entry in
  if String.eqb status ProgressRunning then "🔄"
  else if String.eqb status ProgressCompleted then "✅"
  else if String.eqb status ProgressWarning then "⚠️"
  else if String.eqb status ProgressSkipped then (if HasPrefix (e_code entry) "W-" then "⚠️" else "✅")
  else if String.eqb status ProgressFailed then "❌"
  else "⬜".

Definition progressSuffix (entry : deploymentProgressEntry) : string :=
  let status := e_status entry in
  if String.eqb status ProgressRunning then " — выполняется"
  else if String.eqb status ProgressSkipped then
    if HasPrefix (e_code entry) "W-"
    then " — [" +:+ e_code entry +:+ "] (" +:+ fallbackText (e_message entry) "пропущено с предупреждением" +:+ ")"
    else " — уже было настроено"
  else if String.eqb status ProgressWarning then
    " — [" +:+ fallbackText (e_code entry) "W-GENERAL" +:+ "] (" +:+ fallbackText (e_message entry) "требует внимания" +:+ ")"
  else if String.eqb status ProgressFailed then
    " — [" +:+ fallbackText (e_code entry) "E-DEPLOYMENT-FAILED" +:+ "] " +:+
    fallbackText (e_message entry) "операция завершилась ошибкой"
  else "".

Definition nl : string := String chr_nl "".
Definition concat_text (l : list string) : string := foldr (fun s t => s +:+ t) "" l.

Definition step_line (indent : string) (entry : deploymentProgressEntry) (label : string) : string :=
  indent +:+ progressIcon entry +:+ " " +:+ label +:+ progressSuffix entry +:+ nl.

Definition View_Render (v : deploymentProgressView) : string :=
  let title :=
    if v_failed v then "❌ Развёртывание остановлено"
    else if v_completed v then "✅ Нода успешно развёрнута"
    else "🚀 Развёртывание ноды" in
  let steps := concat_text ((fun step =>
    step_line "" (entry_at (v_steps v) step) (deploymentStepLabels step) +:+
    if String.eqb step progressStepProvisioning && negb (Nat.eqb (size (v_provision v)) 0)
    then concat_text ((fun child => step_line "  " (entry_at (v_provision v) child) (provisioningStepLabels child)) <$> provisioningStepOrder)
    else "") <$> deploymentStepOrder) in
  let warnings := unattachedWarnings v in
  let notices :=
    match warnings with
    | [] => ""
    | _ => nl +:+ "Обратите внимание:" +:+ nl +:+ concat_text ((fun warning =>
        "⚠️ [" +:+ normalizeWarningCode (on_Code warning) +:+ "] (" +:+ safeLine (on_Message warning) 180 +:+ ")" +:+ nl) <$> warnings)
    end in
  let advice :=
    if v_failed v
    then nl +:+ "Что делать: откройте «📜 Развёртывания», выберите эту ноду и используйте «Безопасные логи» или «Повторить шаг»."
    else "" in
  truncateUTF8 (TrimSpace (title +:+ nl +:+ "Прогресс: " +:+ Itoa (completedCount v) +:+ "/" +:+
    Itoa (Z.of_nat (length deploymentStepOrder)) +:+ nl +:+ nl +:+ steps +:+ notices +:+ advice)) maxMessageBytes.

(** ** The history *)
Definition one_of (s : string) (l : list string) : bool := existsb (String.eqb s) l.

Definition deploymentStatusText (status : string) : string * string :=
  let status := ToUpper (TrimSpace status) in
  if String.eqb status "COMPLETED" then ("✅", "завершено")
  else if String.eqb status "FAILED" then ("❌", "ошибка")
  else if String.eqb status "DNS_FAILED" then ("❌", "ошибка DNS")
  else if String.eqb status "MANUAL_REVIEW" then ("⚠️", "требует проверки")
  else if String.eqb status "CANCELLED" then ("⛔", "отменено")
  else if String.eqb status "CREATED" then ("🕓", "подготовлено")
  else ("🔄", "выполняется").

Definition deploymentLogStatus (status code : string) : string * string :=
  let status := ToUpper (TrimSpace status) in
  if String.eqb status "COMPLETED" then ("✅", "выполнено без ошибок")
  else if one_of status ["FAILED"; "DNS_FAILED"] then ("❌", "критическая ошибка")
  else if String.eqb status "MANUAL_REVIEW" then ("⚠️", "требует ручной проверки")
  else if String.eqb status "SKIPPED" then
    if HasPrefix (normalizeWarningCode code) "W-" && negb (String.eqb (TrimSpace code) "")
    then ("⚠️", "пропущено с предупреждением") else ("✅", "уже было настроено")
  else if String.eqb status "CANCELLED" then ("⛔", "отменено")
  else if String.eqb status "PENDING" then ("⬜", "ожидает запуска")
  else ("🔄", "выполняется").

Definition deploymentStepText (step : string) : string :=
  let step := TrimSpace step in
  if negb (String.eqb (deploymentStepLabels step) "") then deploymentStepLabels step
  else if negb (String.eqb (provisioningStepLabels step) "") then "Настройка VPS → " +:+ provisioningStepLabels step
  else if String.eqb step "completed" then "Все этапы завершены"
  else if String.eqb step "cancelled" then "Развёртывание отменено"
  else if String.eqb step "created" then "Подготовка задания"
  else if one_of step ["workflow"; ""] then "Общий процесс"
  else safeLine step 80.

Definition deploymentLogStepText (step : string) : string :=
  let label := provisioningStepLabels (TrimSpace step) in
  if negb (String.eqb label "") then "Настройка VPS → " +:+ label else deploymentStepText step.

Definition deploymentProgress (status step : string) : Z * Z :=
  if EqualFold status "COMPLETED" then (6, 6)
  else if EqualFold status "CREATED" then (0, 6)
  else
    let step := TrimSpace step in
    if EqualFold status "FAILED" && String.eqb step progressStepPreflight then (0, 6)
    else if String.eqb step progressStepPreflight then (1, 6)
    else if String.eqb step "created" then (0, 6)
    else if String.eqb step progressStepCertificate then (1, 6)
    else if String.eqb step progressStepProvisioning then (2, 6)
    else if String.eqb step progressStepCreateNode then (3, 6)
    else if String.eqb step progressStepWaitNode then (4, 6)
    else if String.eqb step progressStepDNS then (5, 6)
    else if String.eqb step "completed" then (6, 6)
    else (0, 6).

Definition deploymentSummaryText (summary : string) : string :=
  let summary := safeLine summary 220 in
  let lower := ToLower summary in
  if String.eqb lower "started" then "этап запущен"
  else if one_of lower ["configured"; "configured and validated"] then "настроено и проверено"
  else if one_of lower ["already completed"; "already configured"] then "уже было настроено"
  else if String.eqb lower "vps preflight passed" then "проверка VPS пройдена"
  else if String.eqb lower "certificate prepared" then "сертификат подготовлен"
  else if String.eqb lower "vps provisioning completed" then "настройка VPS завершена"
  else if String.eqb lower "remnawave node created" then "нода создана в Remnawave"
  else if String.eqb lower "remnawave node connected" then "нода подключилась к Remnawave"
  else if String.eqb lower "dns updated" then "DNS-балансировка обновлена"
  else if String.eqb lower "dns balancing is disabled for this panel" then "DNS-балансировка отключена для панели"
  else if String.eqb lower "inspection failed" then "не удалось проверить текущее состояние"
  else if String.eqb lower "apply failed" then "не удалось применить настройку"
  else if String.eqb lower "validation failed" then "настройка применена, но проверка не пройдена"
  else summary.

Definition formatDeploymentTime (value : Z) : string :=
  let t := UTC value in
  two (c_day t) +:+ "." +:+ two (c_month t) +:+ "." +:+ year_text (c_year t) +:+ " " +:+ clock_text t +:+ " UTC".

Definition formatDeploymentDuration (value : Z) : string :=
  let value := if value <? 0 then 0 else value in
  let value := round_up value Second in
  if value <? Second then "<1 сек" else
  let hours := value / Hour in
  let minutes := value mod Hour / Minute in
  let seconds := value mod Minute / Second in
  if 0 <? hours then Itoa hours +:+ " ч " +:+ Itoa minutes +:+ " мин " +:+ Itoa seconds +:+ " сек"
  else if 0 <? minutes then Itoa minutes +:+ " мин " +:+ Itoa seconds +:+ " сек"
  else Itoa seconds +:+ " сек".

Definition is_zero_time (t : Z) : bool := t =? 0.

Definition renderDeploymentsList (deployments : list DeploymentSummary) : string :=
  match deployments with
  | [] => "📜 Развёртывания" +:+ nl +:+ nl +:+ "Развёртываний пока нет."
  | _ =>
    truncateUTF8 ("📜 Развёртывания" +:+ nl +:+ concat_text ((fun item =>
      let '(icon, status) := deploymentStatusText (ds_Status item) in
      let '(completed, total) := deploymentProgress (ds_Status item) (ds_CurrentStep item) in
      nl +:+ icon +:+ " [" +:+ safeLine (ds_PanelName item) 40 +:+ "] " +:+ safeLine (ds_NodeName item) 60 +:+ " — " +:+ status +:+
      nl +:+ "   Этап: " +:+ deploymentStepText (ds_CurrentStep item) +:+ " • " +:+ Itoa completed +:+ "/" +:+ Itoa total +:+
      (if is_zero_time (ds_UpdatedAt item) then "" else nl +:+ "   Обновлено: " +:+ formatDeploymentTime (ds_UpdatedAt item)) +:+
      (if String.eqb (ds_SafeErrorCode item) "" then "" else nl +:+ "   Код: " +:+ normalizeErrorCode (ds_SafeErrorCode item)))
      <$> deployments)) maxMessageBytes
  end.

Definition deploymentListButton (item : DeploymentSummary) : string :=
  let '(icon, status) := deploymentStatusText (ds_Status item) in
  safeLine (icon +:+ " " +:+ ds_NodeName item +:+ " • " +:+ status) 54.

Definition opt_text {A} (x : option A) (f : A -> string) : string := match x with Some a => f a | None => "" end.

Definition renderDeploymentCard (details : DeploymentDetails) (notice : string) : string :=
  let d := dd_Summary details in
  let '(icon, status) := deploymentStatusText (ds_Status d) in
  let '(completed, total) := deploymentProgress (ds_Status d) (ds_CurrentStep d) in
  truncateUTF8 (
    (if String.eqb notice "" then "" else truncateUTF8 notice 1200 +:+ nl +:+ nl) +:+
    "📜 Развёртывание" +:+ nl +:+
    icon +:+ " Статус: " +:+ status +:+ nl +:+
    "Панель: " +:+ safeLine (ds_PanelName d) 80 +:+ nl +:+
    "Нода: " +:+ safeLine (ds_NodeName d) 80 +:+ nl +:+
    (if IsValid (ds_TargetIP d) then "IP сервера: " +:+ addr_string (ds_TargetIP d) +:+ nl else "") +:+
    "Текущий этап: " +:+ deploymentStepText (ds_CurrentStep d) +:+ nl +:+
    "Прогресс: " +:+ Itoa completed +:+ "/" +:+ Itoa total +:+
    (if is_zero_time (ds_CreatedAt d) then "" else nl +:+ "Создано: " +:+ formatDeploymentTime (ds_CreatedAt d)) +:+
    opt_text (ds_StartedAt d) (fun t => nl +:+ "Запущено: " +:+ formatDeploymentTime t) +:+
    (if is_zero_time (ds_UpdatedAt d) then "" else nl +:+ "Обновлено: " +:+ formatDeploymentTime (ds_UpdatedAt d)) +:+
    opt_text (ds_CompletedAt d) (fun t => nl +:+ "Завершено: " +:+ formatDeploymentTime t +:+
      opt_text (ds_StartedAt d) (fun t0 => nl +:+ "Длительность: " +:+ formatDeploymentDuration (time_Sub t t0))) +:+
    (if String.eqb (ds_SafeErrorCode d) "" then "" else nl +:+ nl +:+ "❌ Код ошибки: " +:+ normalizeErrorCode (ds_SafeErrorCode d)) +:+
    (if String.eqb (ds_SafeError d) "" then "" else nl +:+ "Описание: " +:+ safeLine (ds_SafeError d) 500)) maxMessageBytes.

Definition log_entry_text (index : nat) (entry : DeploymentLogEntry) : string :=
  let '(entryIcon, entryStatus) := deploymentLogStatus (le_Status entry) (le_Code entry) in
  let summary := safeLine (deploymentSummaryText (le_Summary entry)) 150 in
  nl +:+ entryIcon +:+ " " +:+ pad 2 (Z.of_nat index + 1) +:+ ". " +:+ deploymentLogStepText (le_Step entry) +:+ nl +:+
  "   Состояние: " +:+ entryStatus +:+
  (if String.eqb (le_Code entry) "" then "" else " • " +:+
    (if String.eqb entryIcon "❌" then normalizeErrorCode (le_Code entry) else normalizeWarningCode (le_Code entry))) +:+
  (if String.eqb summary "" then "" else nl +:+ "   Результат: " +:+ summary) +:+
  match le_StartedAt entry, le_CompletedAt entry with
  | Some t0, c => nl +:+ "   Время: " +:+ formatDeploymentTime t0 +:+
      opt_text c (fun t => " → " +:+ formatDeploymentTime t +:+ " • " +:+ formatDeploymentDuration (time_Sub t t0))
  | None, Some t => nl +:+ "   Завершение: " +:+ formatDeploymentTime t
  | None, None => ""
  end.

Definition renderDeploymentLogs (details : DeploymentDetails) (entries : list DeploymentLogEntry) : string :=
  let d := dd_Summary details in
  let '(icon, status) := deploymentStatusText (ds_Status d) in
  let head :=
    "📋 Подробный журнал развёртывания" +:+ nl +:+
    "Нода: " +:+ safeLine (ds_NodeName d) 80 +:+ nl +:+ "Панель: " +:+ safeLine (ds_PanelName d) 80 +:+ nl +:+
    icon +:+ " Состояние: " +:+ status +:+
    (if is_zero_time (ds_UpdatedAt d) then "" else nl +:+ "Обновлено: " +:+ formatDeploymentTime (ds_UpdatedAt d)) in
  match entries with
  | [] => head +:+ nl +:+ nl +:+ "Записей пока нет: этап ещё не начал выполнение."
  | _ =>
    truncateUTF8 (head +:+ nl +:+ concat_text (imap log_entry_text entries) +:+
      (if String.eqb (ds_SafeErrorCode d) "" then "" else
        nl +:+ nl +:+ "❌ Итоговая ошибка: " +:+ normalizeErrorCode (ds_SafeErrorCode d) +:+
        (if String.eqb (ds_SafeError d) "" then "" else nl +:+ safeLine (ds_SafeError d) 400))) maxMessageBytes
  end.

Definition deploymentLogsKeyboard (id : string) : Keyboard :=
  inline_keyboard [[mkButton "🔄 Обновить журнал" ("dep:logs:" +:+ id)]; [mkButton "⬅️ К карточке" ("dep:open:" +:+ id)]].
