(* ===== verification/TgNodes.v ===== *)
(** * The inventory of Nodes ([internal/telegram/node_inventory.go], the pure part)

    The classification of the Nodes of every panel, the screens that show
    them with their buttons, the search, and the callback data of the Node
    screens.  [sort.Slice] is the class [GoSort].  A slice the code only
    extends by [append] is nil exactly when it is empty. *)

From S2P Require Import Prelude GoStrings Utf8 Unicode GoText NetIP TgTypes TgProgress.

#[local] Open Scope Z_scope.

Definition nodeGroupPageSize : Z := 12.
Definition nodeSearchResultLimit : nat := 20.

(** ** Classification *)
Notation NodePolicy := Z (only parsing).
Definition DefaultNodePolicy : NodePolicy := 50.
Definition normalizeNodePolicy (policy : NodePolicy) : NodePolicy := if policy <? 1 then DefaultNodePolicy else policy.

Notation nodeGroup := string (only parsing).
Definition nodeGroupCritical : nodeGroup := "c".
Definition nodeGroupDisabled : nodeGroup := "d".
Definition nodeGroupActive : nodeGroup := "a".
Definition nodeGroupIgnored : nodeGroup := "i".

Record nodePanelSnapshot : Type := mkSnapshot {
  ns_Panel : Panel; ns_All : list NodeSummary; ns_Critical : list NodeSummary; ns_Disabled : list NodeSummary;
  ns_Active : list NodeSummary; ns_Ignored : list NodeSummary; ns_Threshold : Z
}.

(** [byID]: a later panel with the same identifier replaces an earlier one. *)
Fixpoint panel_index (panels : list Panel) (id : string) (i : nat) (found : option nat) : option nat :=
  match panels with
  | [] => found
  | p :: panels' => panel_index panels' id (S i) (if String.eqb (p_ID p) id then Some i else found)
  end.

(** The case of the second loop a Node falls in. *)
Definition group_of (threshold : Z) (node : NodeSummary) : nodeGroup :=
  if n_Disabled node then nodeGroupDisabled
  else if negb (n_Connected node) || negb (n_OnlineKnown node) then nodeGroupIgnored
  else if n_Online node <=? threshold then nodeGroupCritical
  else nodeGroupActive.

Definition critical_less (a b : NodeSummary) : bool :=
  if n_Online a =? n_Online b then str_ltb (n_Name a) (n_Name b) else n_Online a <? n_Online b.
Definition active_less (a b : NodeSummary) : bool :=
  if n_Online a =? n_Online b then str_ltb (n_Name a) (n_Name b) else n_Online b <? n_Online a.
Definition name_less (a b : NodeSummary) : bool := str_ltb (n_Name a) (n_Name b).

Section Inventory.
Context `{!GoSort}.

Definition panel_snapshot (panels : list Panel) (nodes : list NodeSummary) (threshold : Z) (index : nat) (panel : Panel) : nodePanelSnapshot :=
  let all := List.filter (fun node => bool_decide (panel_index panels (n_PanelID node) 0 None = Some index)) nodes in
  let group g := List.filter (fun node => String.eqb (group_of threshold node) g) all in
  mkSnapshot panel all
    (sort_Slice critical_less (group nodeGroupCritical)) (sort_Slice name_less (group nodeGroupDisabled))
    (sort_Slice active_less (group nodeGroupActive)) (sort_Slice name_less (group nodeGroupIgnored)) threshold.

Definition classifyNodePanels (panels : list Panel) (nodes : list NodeSummary) (policy : NodePolicy) : list nodePanelSnapshot :=
  imap (panel_snapshot panels nodes (normalizeNodePolicy policy)) panels.

Definition snapshot_nodes (s : nodePanelSnapshot) (group : nodeGroup) : list NodeSummary :=
  if String.eqb group nodeGroupCritical then ns_Critical s
  else if String.eqb group nodeGroupDisabled then ns_Disabled s
  else if String.eqb group nodeGroupActive then ns_Active s
  else if String.eqb group nodeGroupIgnored then ns_Ignored s
  else [].

(** ** Search *)
Definition node_matches (normalized : string) (node : NodeSummary) : bool :=
  Contains (ToLower (TrimSpace (n_Name node))) normalized || Contains (ToLower (TrimSpace (n_Address node))) normalized.

Definition exact_match (query : string) (node : NodeSummary) : bool :=
  EqualFold (TrimSpace (n_Name node)) query || EqualFold (TrimSpace (n_Address node)) query.

Definition search_less (query : string) (x y : NodeSummary) : bool :=
  let leftExact := exact_match query x in
  let rightExact := exact_match query y in
  if negb (Bool.eqb leftExact rightExact) then leftExact
  else if negb (EqualFold (n_PanelName x) (n_PanelName y)) then str_ltb (ToLower (n_PanelName x)) (ToLower (n_PanelName y))
  else str_ltb (ToLower (n_Name x)) (ToLower (n_Name y)).

Definition searchNodes (nodes : list NodeSummary) (query : string) : list NodeSummary :=
  let normalized := ToLower (TrimSpace query) in
  sort_SliceStable (search_less query) (List.filter (node_matches normalized) nodes).
End Inventory.

(** ** Labels *)
Definition nodeGroupLabel (group : nodeGroup) : string :=
  if String.eqb group nodeGroupCritical then "🚨 Критический онлайн"
  else if String.eqb group nodeGroupDisabled then "⏸ Отключённые ноды"
  else if String.eqb group nodeGroupActive then "🟢 Активные / стабильные ноды"
  else "⚪ Не участвует в контроле онлайна".

Definition nodeGroupDescription (group : nodeGroup) : string :=
  if String.eqb group nodeGroupCritical then "высокий приоритет"
  else if String.eqb group nodeGroupDisabled then "средний приоритет"
  else if String.eqb group nodeGroupActive then "нормальная работа"
  else "без связи или без метрики; отдельные тревоги уже обрабатываются".

Definition nodeListButton (group : nodeGroup) (node : NodeSummary) : string :=
  if String.eqb group nodeGroupCritical then "🚨 " +:+ safeLine (n_Name node) 38 +:+ " — онлайн " +:+ Itoa (n_Online node)
  else if String.eqb group nodeGroupDisabled then "⏸ " +:+ safeLine (n_Name node) 48
  else if String.eqb group nodeGroupActive then "🟢 " +:+ safeLine (n_Name node) 38 +:+ " — онлайн " +:+ Itoa (n_Online node)
  else "⚪ " +:+ safeLine (n_Name node) 48.

(** ** The data of the Node buttons *)
Definition data_panel (index : Z) : string := "nodes:p:" +:+ Itoa index.
Definition data_group (index : Z) (group : nodeGroup) (page : Z) : string :=
  "nodes:g:" +:+ Itoa index +:+ ":" +:+ group +:+ ":" +:+ Itoa page.
Definition data_open (uuid : string) : string := "nodes:o:" +:+ uuid.
Definition data_ip (uuid : string) : string := "nodes:ip:" +:+ uuid.
Definition data_move (uuid : string) : string := "nodes:move:" +:+ uuid.
Definition data_ip_method (method uuid : string) : string := "nodes:ip:" +:+ method +:+ ":" +:+ uuid.

(** [nodesCallback] with its action. *)
Inductive nodesCallback : Type :=
  | NodesRoot
  | NodesSearch
  | NodesPanel (panelIndex : Z)
  | NodesGroup (panelIndex : Z) (group : nodeGroup) (page : Z)
  | NodesOpen (uuid : string)
  | NodesChangeIP (uuid : string)
  | NodesChangeIPPanel (uuid : string)
  | NodesChangeIPCherry (uuid : string)
  | NodesChangeIPRoyal (uuid : string)
  | NodesMoveHost (uuid : string).

Definition parseNodesCallback (data : string) : option nodesCallback :=
  match Split data colon with
  | p0 :: rest =>
    if negb (String.eqb p0 "nodes") then None else
    match rest with
    | [p1] => if String.eqb p1 "root" then Some NodesRoot else if String.eqb p1 "search" then Some NodesSearch else None
    | [p1; p2] =>
      if String.eqb p1 "p" then
        match Atoi p2 with Some panel => if 0 <=? panel then Some (NodesPanel panel) else None | None => None end
      else if String.eqb p1 "o" && validDeploymentID p2 then Some (NodesOpen p2)
      else if String.eqb p1 "ip" && validDeploymentID p2 then Some (NodesChangeIP p2)
      else if String.eqb p1 "move" && validDeploymentID p2 then Some (NodesMoveHost p2)
      else None
    | [p1; p2; p3] =>
      if String.eqb p1 "ip" && validDeploymentID p3 then
        if String.eqb p2 "panel" then Some (NodesChangeIPPanel p3)
        else if String.eqb p2 "cherry" then Some (NodesChangeIPCherry p3)
        else if String.eqb p2 "royal" then Some (NodesChangeIPRoyal p3)
        else None
      else None
    | [p1; p2; p3; p4] =>
      if String.eqb p1 "g" then
        match Atoi p2, Atoi p4 with
        | Some panel, Some page =>
          if (0 <=? panel) && (0 <=? page) && one_of p3 [nodeGroupCritical; nodeGroupDisabled; nodeGroupActive]
          then Some (NodesGroup panel p3 page) else None
        | _, _ => None
        end
      else None
    | _ => None
    end
  | [] => None
  end.

(** ** Screens *)
Definition button_row (text data : string) : list Button := [mkButton text data].

(** [showNodePanels]; the list of rows always holds the search button, so the
    text for no rows is never shown. *)
Definition nodePanels_screen (snapshots : list nodePanelSnapshot) : string * Keyboard :=
  let rows := button_row "🔎 Найти ноду" "nodes:search" ::
    imap (fun index snapshot =>
      button_row (safeLine (p_Name (ns_Panel snapshot)) 42 +:+ " — " +:+ Itoa (Z.of_nat (length (ns_All snapshot))))
        (data_panel (Z.of_nat index))) snapshots in
  let text := "📡 Ноды" +:+ nl +:+ "Выберите Remnawave-панель. Число на кнопке — общее количество нод." in
  ((match rows with [] => text +:+ nl +:+ "Панели не найдены." | _ => text end), inline_keyboard rows).

Definition nodePanel_screen (panelIndex : Z) (snapshot : nodePanelSnapshot) : string * Keyboard :=
  let count l := Itoa (Z.of_nat (length l)) in
  ("📡 Ноды — " +:+ safeLine (p_Name (ns_Panel snapshot)) 80 +:+ nl +:+ "Всего: " +:+ count (ns_All snapshot) +:+ nl +:+
    "🚨 Критический порог: " +:+ Itoa (ns_Threshold snapshot) +:+ " онлайн или меньше" +:+ nl +:+ nl +:+
    "Ноды без связи или без свежей метрики не участвуют в тревогах: " +:+ count (ns_Ignored snapshot) +:+ ".",
   inline_keyboard
     [button_row ("🚨 Критический онлайн — " +:+ count (ns_Critical snapshot)) (data_group panelIndex nodeGroupCritical 0);
      button_row ("⏸ Отключённые — " +:+ count (ns_Disabled snapshot)) (data_group panelIndex nodeGroupDisabled 0);
      button_row ("🟢 Активные / стабильные — " +:+ count (ns_Active snapshot)) (data_group panelIndex nodeGroupActive 0);
      button_row "⬅️ К панелям" "nodes:root"]).

(** [totalPages], [page], [start] and [end] of [showNodeGroup]. *)
Definition total_pages (n : Z) : Z :=
  let totalPages := (n + nodeGroupPageSize - 1) / nodeGroupPageSize in if totalPages =? 0 then 1 else totalPages.
Definition clamp_page (totalPages requestedPage : Z) : Z :=
  let page := if requestedPage <? 0 then 0 else requestedPage in
  if totalPages <=? page then totalPages - 1 else page.
Definition page_nodes (nodes : list NodeSummary) (page : Z) : list NodeSummary :=
  let start := page * nodeGroupPageSize in
  let stop := Z.min ((page + 1) * nodeGroupPageSize) (Z.of_nat (length nodes)) in
  take (Z.to_nat (stop - start)) (drop (Z.to_nat start) nodes).

Definition nodeGroup_screen (panelIndex : Z) (snapshot : nodePanelSnapshot) (group : nodeGroup) (requestedPage : Z) : option (string * Keyboard) :=
  match snapshot_nodes snapshot group with
  | [] => None
  | _ as nodes =>
    let totalPages := total_pages (Z.of_nat (length nodes)) in
    let page := clamp_page totalPages requestedPage in
    let text := nodeGroupLabel group +:+ " — " +:+ safeLine (p_Name (ns_Panel snapshot)) 80 +:+ nl +:+
      "Страница " +:+ Itoa (page + 1) +:+ " из " +:+ Itoa totalPages +:+ ". Нажмите на ноду, чтобы открыть карточку." in
    let rows := (fun node => button_row (nodeListButton group node) (data_open (n_UUID node))) <$> page_nodes nodes page in
    let navigation :=
      (if 0 <? page then [mkButton "⬅️" (data_group panelIndex group (page - 1))] else []) ++
      (if page + 1 <? totalPages then [mkButton "➡️" (data_group panelIndex group (page + 1))] else []) in
    let rows := rows ++ (match navigation with [] => [] | _ => [navigation] end) ++ [button_row "⬅️ К группам" (data_panel panelIndex)] in
    Some (text, inline_keyboard rows)
  end.

Definition has_uuid (uuid : string) (l : list NodeSummary) : bool := existsb (fun candidate => String.eqb (n_UUID candidate) uuid) l.

Definition card_group (snapshot : nodePanelSnapshot) (uuid : string) : nodeGroup :=
  if has_uuid uuid (ns_Active snapshot) then nodeGroupActive
  else if has_uuid uuid (ns_Disabled snapshot) then nodeGroupDisabled
  else if has_uuid uuid (ns_Critical snapshot) then nodeGroupCritical
  else nodeGroupIgnored.

Definition renderNodeCard (snapshot : nodePanelSnapshot) (node : NodeSummary) (group : nodeGroup) : string :=
  let status :=
    if n_Disabled node then "отключена" else if n_Connected node then "подключена"
    else if n_Connecting node then "подключается" else "без связи с панелью" in
  let online := if n_OnlineKnown node then Itoa (n_Online node) else "нет свежей метрики" in
  let message := safeLine (n_LastStatusMessage node) 250 in
  truncateUTF8 (
    nodeGroupLabel group +:+ nl +:+ "Панель: " +:+ safeLine (n_PanelName node) 80 +:+ nl +:+
    "Нода: " +:+ safeLine (n_Name node) 80 +:+ nl +:+ "IP: " +:+ safeLine (n_Address node) 80 +:+ nl +:+
    "Состояние: " +:+ status +:+ nl +:+ "Онлайн: " +:+ online +:+ nl +:+ "Группа: " +:+ nodeGroupDescription group +:+
    (if String.eqb group nodeGroupCritical || String.eqb group nodeGroupActive
     then nl +:+ "Критический порог: " +:+ Itoa (ns_Threshold snapshot) +:+ " онлайн или меньше" else "") +:+
    opt_text (n_LastStatusChange node) (fun t => let t := UTC t in
      nl +:+ "Последнее изменение статуса: " +:+ year_text (c_year t) +:+ "-" +:+ two (c_month t) +:+ "-" +:+
      two (c_day t) +:+ " " +:+ clock_text t +:+ " UTC") +:+
    (if String.eqb message "" then "" else nl +:+ "Сообщение панели: " +:+ message) +:+
    (if String.eqb group nodeGroupCritical
     then nl +:+ nl +:+ "🚨 Рекомендация: проверьте блокировку публичного IP и запустите его замену." else "")) maxMessageBytes.

(** The first Node with the identifier, over the panels in order, and its card. *)
Fixpoint find_node (uuid : string) (i : nat) (snapshots : list nodePanelSnapshot) : option (nat * nodePanelSnapshot * NodeSummary) :=
  match snapshots with
  | [] => None
  | s :: snapshots' =>
    match find_first (fun node => String.eqb (n_UUID node) uuid) (ns_All s) with
    | Some node => Some (i, s, node)
    | None => find_node uuid (S i) snapshots'
    end
  end.

Definition nodeCard_screen (app : Capabilities) (uuid : string) (snapshots : list nodePanelSnapshot) : string * Keyboard :=
  match find_node uuid 0 snapshots with
  | Some (panelIndex, snapshot, node) =>
    (renderNodeCard snapshot node (card_group snapshot uuid),
     inline_keyboard (
       (if NodeIPApplication app then [button_row "🔄 Изменить IP ноды" (data_ip (n_UUID node))] else []) ++
       (if NodeHostMoveApplication app then [button_row "🔀 Переместить между Host" (data_move (n_UUID node))] else []) ++
       [button_row "🔄 Обновить" (data_open (n_UUID node)); button_row "⬅️ К группам" (data_panel (Z.of_nat panelIndex))]))
  | None => ("Нода больше не найдена в настроенных панелях.", inline_keyboard [button_row "⬅️ К панелям" "nodes:root"])
  end.

Definition search_screen (query : string) (matches : list NodeSummary) : string * Keyboard :=
  let visible := take nodeSearchResultLimit matches in
  let rows := (fun node =>
      button_row (safeLine (n_PanelName node +:+ " · " +:+ n_Name node +:+ " · " +:+ n_Address node) 60) (data_open (n_UUID node))) <$> visible in
  let text := "🔎 Результаты поиска: " +:+ safeLine query 100 +:+ nl +:+ "Найдено: " +:+ Itoa (Z.of_nat (length matches)) +:+ "." in
  ((if (length visible <? length matches)%nat
    then text +:+ " Показаны первые " +:+ Itoa (Z.of_nat (length visible)) +:+ "; уточните запрос для более точного результата."
    else text),
   inline_keyboard (rows ++ [button_row "⬅️ К панелям" "nodes:root"])).

(** ** Moving a Node *)
Definition renderNodeMoveTarget (target : NodeHostMoveTarget) : string :=
  let kind := if mt_Managed target then "создана этим ботом" else "legacy" in
  let current :=
    if mt_CurrentHostKnown target
    then safeLine (mt_CurrentHostRemark target) 80 +:+ " (" +:+ safeLine (mt_CurrentHostAddress target) 180 +:+ ")"
    else "не определён однозначно по активному профилю + inbound" in
  "🔀 Перемещение ноды между Host" +:+ nl +:+ "Панель: " +:+ safeLine (mt_PanelName target) 80 +:+ nl +:+
  "Нода: " +:+ safeLine (mt_Name target) 80 +:+ nl +:+ "IP: " +:+ safeLine (mt_Address target) 80 +:+ nl +:+
  "Тип: " +:+ kind +:+ nl +:+ "Текущий Host: " +:+ current.

Definition renderNodeMoveConfirmation (target : NodeHostMoveTarget) (host : Host) : string :=
  renderNodeMoveTarget target +:+ nl +:+ "Новый Host: " +:+ safeLine (h_Remark host) 80 +:+ " (" +:+
  safeLine (h_Address host) 180 +:+ ")" +:+ nl +:+ nl +:+
  "Бот определит установленный xray-sni, заменит SNI_DOMAIN, пересоздаст контейнер с проверкой, изменит профиль/inbound в Remnawave и перенесёт IP между DNS-зонами предыдущего и нового SNI. Сам IP ноды не изменится.".

Definition renderNodeMoveResult (result : NodeHostMoveResult) : string :=
  let previous := if mr_PreviousHostKnown result then safeLine (mr_PreviousHost result) 80 else "не был определён однозначно" in
  let kind := if mr_Managed result then "создана этим ботом" else "legacy" in
  let dnsStatus :=
    if mr_DNSUpdated result then "IP перенесён из зоны предыдущего SNI в зону нового SNI" else "DNS-балансировка отключена для панели" in
  "✅ Нода перемещена между Host" +:+ nl +:+ "Нода: " +:+ safeLine (mr_NodeName result) 80 +:+ nl +:+ "Тип: " +:+ kind +:+ nl +:+
  "Предыдущий Host: " +:+ previous +:+ nl +:+ "Новый Host: " +:+ safeLine (mr_TargetHost result) 80 +:+ nl +:+
  "SNI Host: " +:+ safeLine (mr_TargetAddress result) 180 +:+ nl +:+ "DNS: " +:+ dnsStatus +:+ nl +:+ nl +:+
  "xray-sni: SNI_DOMAIN и сертификат обновлены, контейнер перезапущен и проверен. Профиль и inbound подтверждены ответом Remnawave. IP ноды не изменялся.".

(** ** Alerts *)
Definition formatNodeAlert (snapshot : nodePanelSnapshot) (node : NodeSummary) : string :=
  "🚨 Критически низкий онлайн ноды" +:+ nl +:+ "Панель: " +:+ safeLine (n_PanelName node) 80 +:+ nl +:+
  "Нода: " +:+ safeLine (n_Name node) 80 +:+ nl +:+ "IP: " +:+ safeLine (n_Address node) 80 +:+ nl +:+
  "Онлайн: " +:+ Itoa (n_Online node) +:+ nl +:+ "Критический порог: " +:+ Itoa (ns_Threshold snapshot) +:+ " или меньше" +:+ nl +:+ nl +:+
  "Проверьте блокировку IP и при необходимости замените его.".

Definition formatNodeRecovery (snapshot : nodePanelSnapshot) (node : NodeSummary) : string :=
  "✅ Онлайн ноды восстановился" +:+ nl +:+ "Панель: " +:+ safeLine (n_PanelName node) 80 +:+ nl +:+
  "Нода: " +:+ safeLine (n_Name node) 80 +:+ nl +:+ "Онлайн: " +:+ Itoa (n_Online node) +:+ nl +:+
  "Критический порог: " +:+ Itoa (ns_Threshold snapshot) +:+ " или меньше".
