(* ===== verification/TgInventory.v ===== *)
(** * The inventory shows every Node once

    The classification of [node_inventory.go] against its specification: the
    Nodes of the configured panels, each in the panel and the group it
    belongs to, in the order of that group, over pages that cover it. *)

From S2P Require Import Prelude GoStrings GoText TgTypes TgProgress TgNodes.

#[local] Open Scope Z_scope.

Definition known_panel (panels : list Panel) (node : NodeSummary) : bool :=
  existsb (fun p => String.eqb (p_ID p) (n_PanelID node)) panels.
Definition grouped (threshold : Z) (g : nodeGroup) (l : list NodeSummary) : list NodeSummary :=
  List.filter (fun node => String.eqb (group_of threshold node) g) l.

(** ** Partitions *)
Section Filters.
Context {A : Type}.
Implicit Types (l : list A).

Lemma filter_disjoint (p q : A -> bool) l :
  (forall x, p x && q x = false) -> List.filter (fun x => p x || q x) l ≡ₚ List.filter p l ++ List.filter q l.
Proof.
  intros H. induction l as [|x l IH]; [done|]. simpl. specialize (H x). destruct (p x), (q x); simpl in *; try done.
  - by rewrite IH.
  - rewrite IH. apply Permutation_middle.
Qed.

Lemma filter_ext_In (p q : A -> bool) l : (forall x, x ∈ l -> p x = q x) -> List.filter p l = List.filter q l.
Proof. intros H. apply List.filter_ext_in. intros x Hx. apply H. by apply list_elem_of_In. Qed.

(** The fibres of a function to the indices below [n]. *)
Lemma filter_fibres (f : A -> option nat) l n :
  mjoin ((fun i => List.filter (fun x => bool_decide (f x = Some i)) l) <$> seq 0 n) ≡ₚ
  List.filter (fun x => match f x with Some i => (i <? n)%nat | None => false end) l.
Proof.
  induction n as [|n IH].
  - simpl. induction l as [|x l IHl]; [done|]. simpl. destruct (f x) as [i|]; apply IHl.
  - rewrite seq_S, fmap_app, join_app, IH. simpl. rewrite app_nil_r, <- filter_disjoint.
    + erewrite filter_ext_In; [reflexivity|]. intros x _. simpl. destruct (f x) as [i|]; [|done]. case_bool_decide as Hi.
      * injection Hi as ->. rewrite orb_true_r. symmetry. apply Nat.ltb_lt. lia.
      * rewrite orb_false_r. destruct (i <? n)%nat eqn:E; symmetry; [apply Nat.ltb_lt|apply Nat.ltb_ge]; [apply Nat.ltb_lt in E; lia|].
        apply Nat.ltb_ge in E. assert (i <> n) by (by intros ->). lia.
    + intros x. destruct (f x) as [i|]; [|done]. case_bool_decide as Hi; [|by rewrite andb_false_r]. injection Hi as ->.
      by rewrite (proj2 (Nat.ltb_ge _ _)) by lia.
Qed.
End Filters.

Lemma panel_index_spec panels id i found :
  (match found with Some j => (j < i)%nat | None => True end) ->
  match panel_index panels id i found with
  | Some j => (j < i + length panels)%nat /\ (found <> None \/ existsb (fun p => String.eqb (p_ID p) id) panels = true)
  | None => found = None /\ existsb (fun p => String.eqb (p_ID p) id) panels = false
  end.
Proof.
  revert i found. induction panels as [|p panels IH]; intros i found Hf; simpl.
  - destruct found; [|done]. split; [lia|by left].
  - specialize (IH (S i) (if String.eqb (p_ID p) id then Some i else found)). destruct (String.eqb (p_ID p) id) eqn:E; simpl in *.
    + specialize (IH ltac:(lia)). destruct (panel_index _ _ _ _); [|by destruct IH]. split; [lia|by right].
    + assert (match found with Some j => (j < S i)%nat | None => True end) as Hf' by (destruct found; [lia|done]).
      specialize (IH Hf'). destruct (panel_index _ _ _ _); [|done]. split; [lia|tauto].
Qed.

Section Classification.
Context {sorting : GoSort}.
Implicit Types (panels : list Panel) (nodes : list NodeSummary).

Lemma group_cases threshold node :
  group_of threshold node ∈ [nodeGroupCritical; nodeGroupDisabled; nodeGroupActive; nodeGroupIgnored].
Proof. unfold group_of. repeat (destruct (_ : bool)); set_solver. Qed.

Lemma groups_partition threshold l :
  grouped threshold nodeGroupCritical l ++ grouped threshold nodeGroupDisabled l ++ grouped threshold nodeGroupActive l ++
  grouped threshold nodeGroupIgnored l ≡ₚ l.
Proof.
  unfold grouped. induction l as [|x l IH]; [done|]. etrans; [|by apply (Permutation_cons (eq_refl x)), IH]. simpl.
  pose proof (group_cases threshold x) as H. revert H. generalize (group_of threshold x). intros g H.
  rewrite !elem_of_cons, elem_of_nil in H. destruct_or! H; try done; rewrite H; simpl; solve_Permutation.
Qed.

Lemma all_nodes_once panels nodes policy :
  mjoin (ns_All <$> classifyNodePanels panels nodes policy) ≡ₚ List.filter (known_panel panels) nodes.
Proof.
  unfold classifyNodePanels. assert (forall (l : list Panel) k, ns_All <$> imap (fun i => panel_snapshot panels nodes (normalizeNodePolicy policy) (k + i)) l =
    (fun i => List.filter (fun node => bool_decide (panel_index panels (n_PanelID node) 0 None = Some i)) nodes) <$> seq k (length l)) as H.
  { intros l. induction l as [|p l IH]; intros k; [done|]. cbn [length seq]. rewrite imap_cons, !fmap_cons, <- (IH (S k)).
    f_equal; [by rewrite Nat.add_0_r|]. f_equal. apply imap_ext. intros i x _. unfold compose. by rewrite Nat.add_succ_r. }
  specialize (H panels 0%nat). change (imap (fun i => panel_snapshot panels nodes (normalizeNodePolicy policy) (0 + i)) panels)
    with (imap (panel_snapshot panels nodes (normalizeNodePolicy policy)) panels) in H. rewrite H, filter_fibres. erewrite filter_ext_In; [reflexivity|]. intros node _. simpl.
  unfold known_panel. pose proof (panel_index_spec panels (n_PanelID node) 0 None I) as Hs.
  destruct (panel_index panels (n_PanelID node) 0 None) as [j|].
  - destruct Hs as [Hj [Hn|Hp]]; [done|]. rewrite Hp. apply Nat.ltb_lt. lia.
  - by destruct Hs as [_ ->].
Qed.

(** ** The order of the groups *)
Lemma swo_ext {A} (f g : A -> A -> bool) : (forall x y, f x y = g x y) -> StrictWeakOrder g -> StrictWeakOrder f.
Proof. intros H [H1 H2 H3]. split; intros; rewrite !H in *; eauto. Qed.

Lemma name_swo : StrictWeakOrder name_less.
Proof. apply (str_less_swo n_Name). Qed.
Lemma critical_swo : StrictWeakOrder critical_less.
Proof. apply (lex_swo n_Online name_less name_swo). Qed.
Lemma active_swo : StrictWeakOrder active_less.
Proof.
  eapply swo_ext; [|apply (lex_swo (fun x => - n_Online x) name_less name_swo)]. intros x y. unfold active_less, name_less.
  destruct (Z.eqb_spec (n_Online x) (n_Online y)), (Z.eqb_spec (- n_Online x) (- n_Online y)); first [lia|done].
Qed.

Lemma snapshot_partition panels nodes threshold i panel :
  let s := panel_snapshot panels nodes threshold i panel in
  ns_Critical s ++ ns_Disabled s ++ ns_Active s ++ ns_Ignored s ≡ₚ ns_All s.
Proof.
  simpl. rewrite !sort_Slice_perm. apply groups_partition.
Qed.

(** ** Pages *)
Lemma page_of_list (nodes : list NodeSummary) (k : nat) :
  page_nodes nodes (Z.of_nat k) = take 12 (drop (k * 12) nodes).
Proof.
  unfold page_nodes, nodeGroupPageSize. replace (Z.to_nat (Z.of_nat k * 12)) with (k * 12)%nat by lia.
  destruct (decide (k * 12 + 12 <= length nodes)%nat) as [H|H].
  - f_equal. lia.
  - rewrite !take_ge; [done|..]; rewrite length_drop; lia.
Qed.

Lemma pages_prefix (nodes : list NodeSummary) k :
  mjoin ((fun p => page_nodes nodes (Z.of_nat p)) <$> seq 0 k) = take (k * 12) nodes.
Proof.
  induction k as [|k IH]; [done|]. rewrite seq_S, fmap_app, join_app, IH. simpl fmap. cbn [mjoin list_join]. rewrite app_nil_r, page_of_list.
  rewrite take_take_drop. f_equal. lia.
Qed.

Lemma total_pages_cover n : 0 <= n -> 1 <= total_pages n /\ n <= total_pages n * 12.
Proof.
  intros Hn. unfold total_pages, nodeGroupPageSize. cbv zeta. pose proof (Z.div_mod (n + 12 - 1) 12 ltac:(lia)).
  pose proof (Z.mod_pos_bound (n + 12 - 1) 12 ltac:(lia)). destruct (Z.eqb_spec ((n + 12 - 1) / 12) 0); lia.
Qed.

(** The inventory shows every Node once: the lists of the panels together
    hold exactly the Nodes of the configured panels, each once, however often
    a panel is configured; each panel's list is divided into the critical,
    disabled, active and ignored Nodes, the critical ones from the lowest
    number of users, the active ones from the highest, names deciding; and
    the pages of a group, at most twelve Nodes each, are the group in order. *)
Theorem inventory_shows_every_node_once panels nodes policy :
  mjoin (ns_All <$> classifyNodePanels panels nodes policy) ≡ₚ List.filter (known_panel panels) nodes /\
  Forall (fun s =>
      ns_Critical s ≡ₚ grouped (normalizeNodePolicy policy) nodeGroupCritical (ns_All s) /\ sorted_by critical_less (ns_Critical s) /\
      ns_Disabled s ≡ₚ grouped (normalizeNodePolicy policy) nodeGroupDisabled (ns_All s) /\ sorted_by name_less (ns_Disabled s) /\
      ns_Active s ≡ₚ grouped (normalizeNodePolicy policy) nodeGroupActive (ns_All s) /\ sorted_by active_less (ns_Active s) /\
      ns_Ignored s ≡ₚ grouped (normalizeNodePolicy policy) nodeGroupIgnored (ns_All s) /\ sorted_by name_less (ns_Ignored s) /\
      ns_Critical s ++ ns_Disabled s ++ ns_Active s ++ ns_Ignored s ≡ₚ ns_All s)
    (classifyNodePanels panels nodes policy) /\
  forall group : list NodeSummary,
    mjoin (page_nodes group <$> seqZ 0 (total_pages (Z.of_nat (length group)))) = group /\
    forall page, (length (page_nodes group page) <= 12)%nat.
Proof.
  split_and!; [apply all_nodes_once| |].
  - unfold classifyNodePanels. apply Forall_lookup. intros i s. rewrite list_lookup_imap. destruct (panels !! i) as [panel|]; [|done].
    intros [= <-]. split_and!; try apply sort_Slice_perm; try apply sort_Slice_sorted; auto using critical_swo, active_swo, name_swo.
    apply snapshot_partition.
  - intros group. pose proof (total_pages_cover (Z.of_nat (length group)) ltac:(lia)) as [H1 H2]. split.
    + unfold seqZ. rewrite <- list_fmap_compose. erewrite list_fmap_ext; [rewrite pages_prefix|intros i k _; simpl; by rewrite Z.add_0_r].
      apply take_ge. lia.
    + intros page. unfold page_nodes, nodeGroupPageSize. rewrite length_take. lia.
Qed.
End Classification.
