(* ===== verification/TgMonitor.v ===== *)
(** * The Node monitor ([internal/telegram/node_monitor.go])

    A periodic sample of every Node that reports a critically low number of
    users to every operator, repeats the report while it lasts, and reports
    the recovery.  The incidents are a map private to the goroutine of the
    monitor, passed from sample to sample.  A run of the monitor is its first
    sample and one more for every tick before the context is done. *)

From S2P Require Import Prelude GoStrings GoText NetIP Effects TgTypes TgProgress TgNodes.

#[local] Open Scope Z_scope.

Definition defaultNodeMonitorInterval : Z := 5 * Minute.
Definition defaultNodeAlertRepeatInterval : Z := 15 * Minute.
Definition defaultNodeMonitorConfirmations : Z := 2.

(** [nodeAlertState]; a missing user reads as the zero time. *)
Record nodeAlertState : Type := mkAlert { a_consecutive : Z; a_lastNotification : gmap Z Z }.
Notation incidents := (gmap string nodeAlertState).

Record NodeMonitor : Type := mkMonitor {
  nm_users : list Z; nm_interval : Z; nm_repeatInterval : Z; nm_confirmations : Z; nm_policy : NodePolicy
}.

Inductive monE : Type -> Type :=
  | MListPanels : monE (option (list Panel))
  | MListNodes : monE (option (list NodeSummary))
  | MNow : monE Z
  | MSend (userID : Z) (text : string) (keyboard : Keyboard) : monE bool
  | MTick : monE bool.

(** The loop over the allowed users: the first of every duplicate is kept. *)
Fixpoint distinct_users (allowedUsers users : list Z) : option (list Z) :=
  match allowedUsers with
  | [] => Some users
  | userID :: rest =>
    if userID <=? 0 then None
    else if existsb (Z.eqb userID) users then distinct_users rest users
    else distinct_users rest (users ++ [userID])
  end.

Definition NewNodeMonitor (allowedUsers : list Z) (app messenger : bool) (interval repeatInterval confirmations : Z)
    (policy : NodePolicy) : result string NodeMonitor :=
  if bool_decide (allowedUsers = []) || negb app || negb messenger then Err "invalid node monitor configuration" else
  match distinct_users allowedUsers [] with
  | None => Err "invalid node monitor user ID"
  | Some users =>
    Ok (mkMonitor users
      (if interval <=? 0 then defaultNodeMonitorInterval else interval)
      (if repeatInterval <=? 0 then defaultNodeAlertRepeatInterval else repeatInterval)
      (if confirmations <=? 0 then defaultNodeMonitorConfirmations else confirmations)
      (normalizeNodePolicy policy))
  end.

Definition nodeMonitorKey (node : NodeSummary) : string := n_PanelID node +:+ ":" +:+ n_UUID node.

Definition last_notification (state : nodeAlertState) (userID : Z) : Z := default 0 (a_lastNotification state !! userID).
Definition no_incident : nodeAlertState := mkAlert 0 ∅.

Section Monitor.
Context `{!GoSort} (app : Capabilities) (m : NodeMonitor).

Definition alert_keyboard (node : NodeSummary) : Keyboard :=
  inline_keyboard (
    (if NodeIPApplication app then [button_row "🔄 Изменить IP ноды" (data_ip (n_UUID node))] else []) ++
    (if NodeHostMoveApplication app then [button_row "🔀 Переместить между Host" (data_move (n_UUID node))] else []) ++
    [button_row "📡 Открыть карточку ноды" (data_open (n_UUID node))]).
Definition recovery_keyboard (node : NodeSummary) : Keyboard :=
  inline_keyboard [button_row "📡 Открыть карточку ноды" (data_open (n_UUID node))].

(** One user of a confirmed incident. *)
Definition notify (now : Z) (snapshot : nodePanelSnapshot) (node : NodeSummary) (state : nodeAlertState) (userID : Z) :
    prog monE nodeAlertState :=
  let lastNotification := last_notification state userID in
  if negb (is_zero_time lastNotification) && (now <? lastNotification + nm_repeatInterval m) then mret state
  else
    sent ← call (MSend userID (formatNodeAlert snapshot node) (alert_keyboard node));
    mret (if (sent : bool) then mkAlert (a_consecutive state) (<[userID := now]> (a_lastNotification state)) else state).

Definition sample_critical (now : Z) (snapshot : nodePanelSnapshot) (states : incidents) (node : NodeSummary) : prog monE incidents :=
  let key := nodeMonitorKey node in
  let state := default no_incident (states !! key) in
  let state := mkAlert (a_consecutive state + 1) (a_lastNotification state) in
  if a_consecutive state <? nm_confirmations m then mret (<[key := state]> states)
  else
    state ← fold_each (notify now snapshot node) (nm_users m) state;
    mret (<[key := state]> states).

Definition sample_active (snapshot : nodePanelSnapshot) (states : incidents) (node : NodeSummary) : prog monE incidents :=
  let key := nodeMonitorKey node in
  match states !! key with
  | None => mret states
  | Some state =>
    for_each (fun userID =>
      if is_zero_time (last_notification state userID) then mret tt
      else (_ ← call (MSend userID (formatNodeRecovery snapshot node) (recovery_keyboard node)); mret tt)) (nm_users m) ≫= fun _ =>
    mret (delete key states)
  end.

Definition sample_disabled (states : incidents) (node : NodeSummary) : incidents := delete (nodeMonitorKey node) states.

Definition sample_snapshot (now : Z) (states : incidents) (snapshot : nodePanelSnapshot) : prog monE incidents :=
  states ← fold_each (sample_critical now snapshot) (ns_Critical snapshot) states;
  states ← fold_each (sample_active snapshot) (ns_Active snapshot) states;
  mret (foldl sample_disabled states (ns_Disabled snapshot)).

(** The last loop: an incident of a Node no panel lists any more ends. *)
Definition forget_missing (snapshots : list nodePanelSnapshot) (states : incidents) : incidents :=
  let seenNodes := nodeMonitorKey <$> mjoin (ns_All <$> snapshots) in
  filter (fun '(key, _) => key ∈ seenNodes) states.

Definition sample (states : incidents) : prog monE incidents :=
  panels ← call MListPanels;
  match panels with
  | None => mret states
  | Some panels =>
    nodes ← call MListNodes;
    match nodes with
    | None => mret states
    | Some nodes =>
      let snapshots := classifyNodePanels panels nodes (nm_policy m) in
      now ← call MNow;
      states ← fold_each (sample_snapshot now) snapshots states;
      mret (forget_missing snapshots states)
    end
  end.

(** [Run] for a context that sees at most [ticks] ticks. *)
Fixpoint run_ticks (ticks : nat) (states : incidents) : prog monE incidents :=
  match ticks with
  | O => mret states
  | S ticks' =>
    tick ← call MTick;
    if (tick : bool) then states ← sample states; run_ticks ticks' states else mret states
  end.
Definition Monitor_Run (ticks : nat) : prog monE incidents :=
  states ← sample ∅;
  run_ticks ticks states.
End Monitor.
