(* ===== verification/TgMonitorFacts.v ===== *)
(** * What the Node monitor reports

    One sample of [node_monitor.go] against its specification: who is told
    what, and what is remembered for the next sample. *)

From S2P Require Import Prelude GoStrings GoText NetIP Effects Guards TgTypes TgProgress TgNodes TgInventory TgMonitor.

#[local] Open Scope Z_scope.

(** ** The configured users *)
Lemma distinct_users_nodup allowedUsers users result :
  distinct_users allowedUsers users = Some result -> NoDup users -> NoDup result.
Proof.
  revert users. induction allowedUsers as [|u rest IH]; simpl; intros users; [by intros [= <-]|].
  destruct (u <=? 0); [done|]. destruct (existsb (Z.eqb u) users) eqn:He; [apply IH|]. intros H Hn. eapply IH; [exact H|].
  apply NoDup_app. split_and!; [done| |apply NoDup_singleton]. intros x Hx ->%list_elem_of_singleton.
  assert (existsb (Z.eqb u) users = true); [|congruence]. apply existsb_exists. exists u. split; [by apply list_elem_of_In|apply Z.eqb_refl].
Qed.

Lemma NewNodeMonitor_users allowedUsers a b i r c p m :
  NewNodeMonitor allowedUsers a b i r c p = Ok m -> NoDup (nm_users m).
Proof.
  unfold NewNodeMonitor. destruct (_ || _); [done|]. destruct (distinct_users allowedUsers []) as [users|] eqn:H; [|done].
  intros [= <-]. simpl. eapply distinct_users_nodup; [exact H|constructor].
Qed.

(** ** The specification of a sample *)
Section Sample.
Context {sorting : GoSort} (app : Capabilities) (m : NodeMonitor) (now : Z) (before : incidents).

Notation key := nodeMonitorKey.
Implicit Types (snap : nodePanelSnapshot) (node : NodeSummary).

Definition incident node : nodeAlertState := default no_incident (before !! key node).
(** The number of critical samples, this one included. *)
Definition critical_samples node : Z := a_consecutive (incident node) + 1.
(** The user may be told: the incident is confirmed, and the last delivered
    report is old enough. *)
Definition due node (u : Z) : bool :=
  (nm_confirmations m <=? critical_samples node) &&
  (is_zero_time (last_notification (incident node) u) || (last_notification (incident node) u + nm_repeatInterval m <=? now)).

(** The three kinds of Nodes a sample looks at. *)
Inductive item : Type := Critical snap node | Active snap node | Disabled snap node.
Definition item_node (it : item) : NodeSummary := match it with Critical _ n | Active _ n | Disabled _ n => n end.
Notation item_key it := (key (item_node it)).
Definition items_of snap : list item :=
  (Critical snap <$> ns_Critical snap) ++ (Active snap <$> ns_Active snap) ++ (Disabled snap <$> ns_Disabled snap).

Definition alert snap node u : monE bool := MSend u (formatNodeAlert snap node) (alert_keyboard app node).
Definition recovery snap node u : monE bool := MSend u (formatNodeRecovery snap node) (recovery_keyboard node).

(** After a sample: what it did for the item and what it remembers. *)
Definition settled (after : option nodeAlertState) (tr : list (event monE)) (it : item) : Prop :=
  match it with
  | Critical snap node => exists state, after = Some state /\ a_consecutive state = critical_samples node /\
      forall u, if bool_decide (u ∈ nm_users m) && due node u
                then exists delivered : bool, Ev (alert snap node u) delivered ∈ tr /\
                  last_notification state u = if delivered then now else last_notification (incident node) u
                else last_notification state u = last_notification (incident node) u
  | Active snap node => after = None /\
      forall u, u ∈ nm_users m -> is_zero_time (last_notification (incident node) u) = false ->
        exists delivered : bool, Ev (recovery snap node u) delivered ∈ tr
  | Disabled _ _ => after = None
  end.

(** A report that may be sent. *)
Definition reportable (all : list item) X (e : monE X) : Prop :=
  match e with
  | MSend u text keyboard => u ∈ nm_users m /\ exists it, it ∈ all /\
    match it with
    | Critical snap node => due node u = true /\ text = formatNodeAlert snap node
    | Active snap node => is_zero_time (last_notification (incident node) u) = false /\ text = formatNodeRecovery snap node
    | Disabled _ _ => False
    end
  | _ => True
  end.

Context (all : list item) (Husers : NoDup (nm_users m)).
Notation guarded' := (guarded (fun (_ : list (event monE)) X e => reportable all X e)).

Lemma history_settled_later after tr tr' it : tr `prefix_of` tr' -> settled after tr it -> settled after tr' it.
Proof.
  intros [tr2 ->]. destruct it as [snap node|snap node|]; simpl; [| |done].
  - intros (state & -> & Hc & H). exists state. split_and!; [done|done|]. intros u. specialize (H u).
    destruct (_ && _); [|done]. destruct H as (d & Hin & Hd). exists d. split; [|done]. apply elem_of_app. by left.
  - intros [-> H]. split; [done|]. intros u Hu Hz. destruct (H u Hu Hz) as [d Hd]. exists d. apply elem_of_app. by left.
Qed.

(** *** A critical Node *)
Definition told (tr : list (event monE)) snap node (state : nodeAlertState) (u : Z) : Prop :=
  if due node u
  then exists delivered : bool, Ev (alert snap node u) delivered ∈ tr /\
    last_notification state u = if delivered then now else last_notification (incident node) u
  else last_notification state u = last_notification (incident node) u.
Definition untold node (state : nodeAlertState) (u : Z) : Prop := last_notification state u = last_notification (incident node) u.

Lemma told_later tr tr' snap node state u : tr `prefix_of` tr' -> told tr snap node state u -> told tr' snap node state u.
Proof.
  intros [tr2 ->]. unfold told. destruct (due node u); [|done]. intros (d & Hin & Hd). exists d. split; [|done]. apply elem_of_app. by left.
Qed.

Lemma guarded_notify tr snap node state u :
  Critical snap node ∈ all -> u ∈ nm_users m -> nm_confirmations m <= critical_samples node -> untold node state u ->
  guarded' tr (notify app m now snap node state u) (fun state' tr' =>
    tr `prefix_of` tr' /\ a_consecutive state' = a_consecutive state /\ told tr' snap node state' u /\
    forall v, v <> u -> last_notification state' v = last_notification state v).
Proof.
  intros Hin Hu Hc Hn. unfold notify. cbv zeta. unfold untold in Hn. rewrite Hn.
  assert (due node u = negb (negb (is_zero_time (last_notification (incident node) u)) &&
    (now <? last_notification (incident node) u + nm_repeatInterval m))) as Hd.
  { unfold due. rewrite (proj2 (Z.leb_le _ _)) by done. simpl. rewrite negb_andb, negb_involutive. f_equal. lia. }
  destruct (negb (is_zero_time _) && _) eqn:E; simpl in Hd.
  - split_and!; [done|done| |done]. unfold told. by rewrite Hd.
  - apply guarded_call_seq; [split; [done|by exists (Critical snap node)]|]. intros sent. split_and!; [by eexists|by destruct sent| |].
    + unfold told. rewrite Hd. exists sent. split; [apply elem_of_app; right; by apply list_elem_of_singleton|].
      destruct sent; [|done]. unfold last_notification. simpl. by rewrite lookup_insert_eq.
    + intros v Hv. destruct sent; [|done]. unfold last_notification. simpl. by rewrite lookup_insert_ne by done.
Qed.

Lemma guarded_critical tr snap node states :
  Critical snap node ∈ all -> states !! key node = before !! key node ->
  guarded' tr (sample_critical app m now snap states node) (fun states' tr' =>
    tr `prefix_of` tr' /\ (forall k, k <> key node -> states' !! k = states !! k) /\ settled (states' !! key node) tr' (Critical snap node)).
Proof.
  intros Hin Hst. unfold sample_critical. cbv zeta. rewrite Hst. fold (incident node). cbn [a_consecutive].
  fold (critical_samples node). destruct (Z.ltb_spec (critical_samples node) (nm_confirmations m)) as [Hlt|Hle].
  - split_and!; [done|by intros k Hk; apply lookup_insert_ne|]. rewrite lookup_insert_eq. eexists. split_and!; [done|done|].
    intros u. unfold due. rewrite (proj2 (Z.leb_gt _ _)) by done. by rewrite andb_false_r.
  - eapply guarded_seq.
    + apply (guarded_fold _ tr (notify app m now snap node) (fun done todo state tr' =>
        tr `prefix_of` tr' /\ NoDup (done ++ todo) /\ (forall u, u ∈ done ++ todo -> u ∈ nm_users m) /\
        a_consecutive state = critical_samples node /\ (forall u, u ∈ done -> told tr' snap node state u) /\
        (forall u, u ∉ done -> untold node state u))).
      * intros done u todo state tr1 (Hp & Hnd & Hsub & Hcs & Htold & Hun).
        eapply guarded_mono; [apply guarded_notify; [done|apply Hsub, elem_of_app; right; left|done|]|].
        { apply Hun. apply NoDup_app in Hnd as (_ & Hd & _). intros Hx. apply (Hd u Hx). left. }
        intros state' tr2 (Hp2 & Hc2 & Ht & Hother). rewrite <- (assoc_L (++)). split_and!; [by etrans|done|done|by rewrite Hc2| |].
        -- intros v [Hv| ->%list_elem_of_singleton]%elem_of_app; [|done]. assert (v <> u) as Hne.
           { intros ->. apply NoDup_app in Hnd as (_ & Hd & _). apply (Hd u Hv). left. }
           specialize (Htold v Hv). apply (told_later _ tr2) in Htold; [|done]. unfold told in *. by rewrite (Hother v Hne).
        -- intros v Hv. rewrite elem_of_app, list_elem_of_singleton in Hv. unfold untold. rewrite Hother by tauto. apply Hun. tauto.
      * split_and!; [done|done|done|done|by intros u Hu%elem_of_nil|done].
    + intros state tr' (Hp & _ & _ & Hcs & Htold & Hun). split_and!; [done|by intros k Hk; apply lookup_insert_ne|].
      rewrite lookup_insert_eq. exists state. split_and!; [done|done|]. intros u. case_bool_decide as Hu; simpl; [|by apply Hun].
      by apply Htold.
Qed.

(** *** A recovered Node *)
Lemma guarded_active tr snap node states :
  Active snap node ∈ all -> states !! key node = before !! key node ->
  guarded' tr (sample_active m snap states node) (fun states' tr' =>
    tr `prefix_of` tr' /\ (forall k, k <> key node -> states' !! k = states !! k) /\ settled (states' !! key node) tr' (Active snap node)).
Proof.
  intros Hin Hst. unfold sample_active. cbv zeta. rewrite Hst. destruct (before !! key node) as [state|] eqn:Hb.
  - assert (incident node = state) as Hi by (unfold incident; by rewrite Hb).
    eapply (guarded_seq _ _ _ _ (fun _ tr' => tr `prefix_of` tr' /\ forall u, u ∈ nm_users m ->
      is_zero_time (last_notification state u) = false -> exists d : bool, Ev (recovery snap node u) d ∈ tr')).
    + refine (guarded_for_each _ tr _ (fun told tr' => tr `prefix_of` tr' /\ forall u, u ∈ told ->
        is_zero_time (last_notification state u) = false -> exists d : bool, Ev (recovery snap node u) d ∈ tr') _ _ _).
      * intros told u tr1 Hu [Hp Ht]. destruct (is_zero_time (last_notification state u)) eqn:Hz.
        -- split; [done|]. intros v [Hv| ->%list_elem_of_singleton]%elem_of_app Hzv; [by apply Ht|congruence].
        -- apply guarded_call_seq; [split; [done|]; exists (Active snap node); by rewrite Hi|]. intros d.
           split; [by apply prefix_app_r|]. intros v [Hv| ->%list_elem_of_singleton]%elem_of_app Hzv.
           ++ destruct (Ht v Hv Hzv) as [d' Hd']. exists d'. apply elem_of_app. by left.
           ++ exists d. apply elem_of_app. right. by apply list_elem_of_singleton.
      * split; [done|]. by intros u Hu%elem_of_nil.
    + intros _ tr' [Hp Hr]. split_and!; [done|by intros k Hk; apply lookup_delete_ne|]. split; [apply lookup_delete_eq|]. by rewrite Hi.
  - split_and!; [done|done|]. split; [by rewrite Hst|]. intros u _. unfold incident. by rewrite Hb.
Qed.

(** *** All the Nodes of a sample *)
Context (Hkeys : NoDup ((fun it => item_key it) <$> all)).

Definition progress (done todo : list item) (states : incidents) (tr : list (event monE)) : Prop :=
  done ++ todo = all /\
  (forall it, it ∈ done -> settled (states !! item_key it) tr it) /\
  (forall it, it ∈ todo -> states !! item_key it = before !! item_key it) /\
  (forall k, k ∉ (fun it => item_key it) <$> all -> states !! k = before !! k).

Lemma keys_apart done it todo it' :
  done ++ it :: todo = all -> it' ∈ done ++ todo -> item_key it' <> item_key it.
Proof.
  intros Hall Hin He. pose proof Hkeys as Hnd. rewrite <- Hall, fmap_app, fmap_cons in Hnd. apply NoDup_app in Hnd as (_ & Hd & Hnd).
  apply NoDup_cons in Hnd as [Hnt _]. apply elem_of_app in Hin as [Hin|Hin].
  - apply (Hd (item_key it')); [by apply (list_elem_of_fmap_2 (fun it => item_key it))|rewrite He; left].
  - apply Hnt. rewrite <- He. by apply (list_elem_of_fmap_2 (fun it => item_key it)).
Qed.

Lemma progress_step done it todo states states' tr tr' :
  progress done (it :: todo) states tr -> tr `prefix_of` tr' ->
  (forall k, k <> item_key it -> states' !! k = states !! k) -> settled (states' !! item_key it) tr' it ->
  progress (done ++ [it]) todo states' tr'.
Proof.
  intros (Hall & Hd & Ht & Hr) Hp Hother Hs. split_and!.
  - by rewrite <- (assoc_L (++)).
  - intros it' [Hin| ->%list_elem_of_singleton]%elem_of_app; [|done]. rewrite Hother.
    + by eapply history_settled_later, Hd.
    + eapply keys_apart; [exact Hall|]. apply elem_of_app. by left.
  - intros it' Hin. rewrite Hother; [apply Ht; by right|]. eapply keys_apart; [exact Hall|]. apply elem_of_app. by right.
  - intros k Hk. rewrite Hother; [by apply Hr|]. intros ->. apply Hk. rewrite <- Hall, fmap_app, fmap_cons. apply elem_of_app. right. left.
Qed.

Lemma progress_in done it todo states tr : progress done (it :: todo) states tr -> it ∈ all /\ states !! item_key it = before !! item_key it.
Proof. intros (Hall & _ & Ht & _). split; [rewrite <- Hall; apply elem_of_app; right; left|apply Ht; left]. Qed.

(** A loop over the Nodes of one kind. *)
Lemma guarded_kind tr (kind : NodeSummary -> item) (f : incidents -> NodeSummary -> prog monE incidents) l done rest states :
  (forall node, item_node (kind node) = node) ->
  (forall tr node states, kind node ∈ all -> states !! key node = before !! key node ->
     guarded' tr (f states node) (fun states' tr' =>
       tr `prefix_of` tr' /\ (forall k, k <> key node -> states' !! k = states !! k) /\ settled (states' !! key node) tr' (kind node))) ->
  progress done ((kind <$> l) ++ rest) states tr ->
  guarded' tr (fold_each f l states) (fun states' tr' => progress (done ++ (kind <$> l)) rest states' tr').
Proof.
  intros Hk Hf H. eapply guarded_mono; [apply (guarded_fold _ tr f (fun d t acc tr' => progress (done ++ (kind <$> d)) ((kind <$> t) ++ rest) acc tr'))|].
  - intros d node t acc tr1 HJ. rewrite fmap_cons in HJ. destruct (progress_in _ _ _ _ _ HJ) as [Hin Hst]. rewrite Hk in Hst.
    eapply guarded_mono; [by apply Hf|]. intros states' tr2 (Hp & Ho & Hs). rewrite fmap_app, (assoc_L (++)).
    eapply progress_step; [exact HJ|done|by rewrite Hk|by rewrite Hk].
  - by rewrite app_nil_r.
  - done.
Qed.

Lemma progress_disabled snap l done rest states tr :
  progress done ((Disabled snap <$> l) ++ rest) states tr ->
  progress (done ++ (Disabled snap <$> l)) rest (foldl sample_disabled states l) tr.
Proof.
  revert done states. induction l as [|node l IH]; intros done states H; [by rewrite app_nil_r|]. rewrite fmap_cons in *.
  rewrite (cons_middle (Disabled snap node) done), (assoc_L (++)). apply IH. eapply progress_step; [exact H|done| |].
  - intros k Hk. by apply lookup_delete_ne.
  - apply lookup_delete_eq.
Qed.

Lemma guarded_snapshot tr snap done rest states :
  progress done (items_of snap ++ rest) states tr ->
  guarded' tr (sample_snapshot app m now states snap) (fun states' tr' => progress (done ++ items_of snap) rest states' tr').
Proof.
  intros H. unfold sample_snapshot, items_of in *. rewrite <- !(assoc_L (++)) in H. eapply guarded_seq.
  { apply (guarded_kind tr (Critical snap)); [done|intros; by apply guarded_critical|exact H]. }
  intros states1 tr1 H1. eapply guarded_seq.
  { apply (guarded_kind tr1 (Active snap)); [done|intros; by apply guarded_active|exact H1]. }
  intros states2 tr2 H2. apply progress_disabled in H2. rewrite <- !(assoc_L (++)) in H2. exact H2.
Qed.

Lemma guarded_snapshots tr snaps :
  mjoin (items_of <$> snaps) = all -> 
  guarded' tr (fold_each (sample_snapshot app m now) snaps before) (fun states' tr' => progress all [] states' tr').
Proof.
  intros Hall. eapply guarded_mono;
    [apply (guarded_fold _ tr _ (fun d t acc tr' => progress (mjoin (items_of <$> d)) (mjoin (items_of <$> t)) acc tr'))|].
  - intros d snap t acc tr1 H. rewrite fmap_app, join_app. rewrite fmap_cons in H.
    change (mjoin (items_of <$> [snap])) with (items_of snap ++ []). rewrite app_nil_r. by apply guarded_snapshot.
  - split_and!; [done|by intros it Hit%elem_of_nil|done|done].
  - intros states' tr'. by rewrite Hall.
Qed.
End Sample.

(** ** One sample *)
Section Samples.
Context {sorting : GoSort} (app : Capabilities) (m : NodeMonitor).

Definition items (panels : list Panel) (nodes : list NodeSummary) : list item := mjoin (items_of <$> classifyNodePanels panels nodes (nm_policy m)).
Definition known_keys (panels : list Panel) (nodes : list NodeSummary) : list string :=
  nodeMonitorKey <$> List.filter (known_panel panels) nodes.

Lemma items_of_nodes snaps :
  Forall (fun s => ns_Critical s ++ ns_Disabled s ++ ns_Active s ++ ns_Ignored s ≡ₚ ns_All s) snaps ->
  (item_node <$> mjoin (items_of <$> snaps)) ++ mjoin (ns_Ignored <$> snaps) ≡ₚ mjoin (ns_All <$> snaps).
Proof.
  induction 1 as [|s snaps Hs _ IH]; [done|]. rewrite !fmap_cons. cbn [mjoin list_join]. rewrite <- Hs, <- IH, fmap_app.
  unfold items_of. rewrite !fmap_app, <- !list_fmap_compose. unfold compose. simpl. rewrite !list_fmap_id. solve_Permutation.
Qed.

Lemma snapshots_partition panels nodes policy :
  Forall (fun s => ns_Critical s ++ ns_Disabled s ++ ns_Active s ++ ns_Ignored s ≡ₚ ns_All s) (classifyNodePanels panels nodes policy).
Proof.
  unfold classifyNodePanels. apply Forall_lookup. intros i s. rewrite list_lookup_imap. destruct (panels !! i); [|done].
  intros [= <-]. apply snapshot_partition.
Qed.

Lemma item_keys_known panels nodes :
  exists others, ((fun it => nodeMonitorKey (item_node it)) <$> items panels nodes) ++ others ≡ₚ known_keys panels nodes.
Proof.
  exists (nodeMonitorKey <$> mjoin (ns_Ignored <$> classifyNodePanels panels nodes (nm_policy m))). unfold known_keys.
  rewrite <- (all_nodes_once panels nodes (nm_policy m)), <- (items_of_nodes _ (snapshots_partition panels nodes (nm_policy m))).
  by rewrite fmap_app, <- list_fmap_compose.
Qed.

Lemma item_keys_nodup panels nodes :
  NoDup (known_keys panels nodes) -> NoDup ((fun it => nodeMonitorKey (item_node it)) <$> items panels nodes).
Proof. destruct (item_keys_known panels nodes) as [others <-]. by intros [H _]%NoDup_app. Qed.

Lemma seen_keys panels nodes k :
  k ∈ nodeMonitorKey <$> mjoin (ns_All <$> classifyNodePanels panels nodes (nm_policy m)) <-> k ∈ known_keys panels nodes.
Proof. unfold known_keys. by rewrite (all_nodes_once panels nodes (nm_policy m)). Qed.

(** The answers of the three reads. *)
Definition panels_answer (ev : event monE) : option (list Panel) :=
  let '@Ev _ X e x := ev in (match e in monE X return X -> option (list Panel) with MListPanels => fun x => x | _ => fun _ => None end) x.
Definition nodes_answer (ev : event monE) : option (list NodeSummary) :=
  let '@Ev _ X e x := ev in (match e in monE X return X -> option (list NodeSummary) with MListNodes => fun x => x | _ => fun _ => None end) x.
Definition now_answer (ev : event monE) : Z :=
  let '@Ev _ X e x := ev in (match e in monE X return X -> Z with MNow => fun x => x | _ => fun _ => 0 end) x.

Definition reads (panels : list Panel) (nodes : list NodeSummary) (now : Z) : list (event monE) :=
  [Ev MListPanels (Some panels); Ev MListNodes (Some nodes); Ev MNow now].

(** What follows the reads. *)
Definition after_reads (panels : list Panel) (nodes : list NodeSummary) (now : Z) (before : incidents) : prog monE incidents :=
  states ← fold_each (sample_snapshot app m now) (classifyNodePanels panels nodes (nm_policy m)) before;
  mret (forget_missing (classifyNodePanels panels nodes (nm_policy m)) states).

Lemma sample_reaches panels nodes now before tr q :
  reaches (sample app m before) (reads panels nodes now ++ tr) q -> reaches (after_reads panels nodes now before) tr q.
Proof.
  intros (x & H1 & H). apply (f_equal panels_answer) in H1. simpl in H1. subst x.
  destruct H as (y & H2 & H). apply (f_equal nodes_answer) in H2. simpl in H2. subst y.
  destruct H as (z & H3 & H). apply (f_equal now_answer) in H3. simpl in H3. by subst z.
Qed.

Lemma same_head {A} (f : event monE -> A) ev ev' tr tr' : ev :: tr = ev' :: tr' -> f ev = f ev' /\ tr = tr'.
Proof. by intros [= -> ->]. Qed.

Lemma sample_runs panels nodes now before tr after :
  runs (sample app m before) tt (reads panels nodes now ++ tr) after tt -> runs (after_reads panels nodes now before) tt tr after tt.
Proof.
  intros (x & [] & tr1 & H1 & _ & H). destruct (same_head panels_answer _ _ _ _ H1) as [E <-]. simpl in E. subst x.
  destruct H as (y & [] & tr2 & H2 & _ & H). destruct (same_head nodes_answer _ _ _ _ H2) as [E <-]. simpl in E. subst y.
  destruct H as (z & [] & tr3 & H3 & _ & H). destruct (same_head now_answer _ _ _ _ H3) as [E <-]. simpl in E. by subst z.
Qed.

Section Judged.
Context (panels : list Panel) (nodes : list NodeSummary) (now : Z) (before : incidents).
Hypothesis Husers : NoDup (nm_users m).
Hypothesis Hkeys : NoDup (known_keys panels nodes).

Lemma after_reads_guarded :
  guarded (fun _ X e => reportable m now before (items panels nodes) X e) [] (after_reads panels nodes now before) (fun after tr =>
    (forall it, it ∈ items panels nodes -> settled app m now before (after !! nodeMonitorKey (item_node it)) tr it) /\
    forall k, k ∉ (fun it => nodeMonitorKey (item_node it)) <$> items panels nodes ->
      after !! k = if bool_decide (k ∈ known_keys panels nodes) then before !! k else None).
Proof.
  unfold after_reads. eapply guarded_seq; [apply guarded_snapshots; [done|by apply item_keys_nodup|done]|].
  intros states tr (_ & Hs & _ & Hr).
  assert (forall k, forget_missing (classifyNodePanels panels nodes (nm_policy m)) states !! k =
    if bool_decide (k ∈ known_keys panels nodes) then states !! k else None) as Hf.
  { intros k. unfold forget_missing. rewrite map_lookup_filter. destruct (states !! k) as [st|]; simpl; [|by case_bool_decide].
    case_guard as Hk; simpl; [rewrite bool_decide_true|rewrite bool_decide_false]; [done|by apply seen_keys|done|].
    intros Hin. by apply Hk, seen_keys. }
  split.
  - intros it Hin. rewrite Hf, bool_decide_true; [by apply Hs|]. destruct (item_keys_known panels nodes) as [others <-].
    apply elem_of_app. left. by apply (list_elem_of_fmap_2 (fun it => nodeMonitorKey (item_node it))).
  - intros k Hk. rewrite Hf. case_bool_decide; [by apply Hr|done].
Qed.
End Judged.
End Samples.

(** C15. The Node monitor reports confirmed incidents, not too often.  For a
    sample that read the panels, the Nodes and the time, with no two Nodes
    under one key: a critical report goes only to a configured user, about a
    Node that is critical now and was in enough samples, when the last
    delivered report to that user is the repeat interval old; a recovery only
    to a user that was told, about an active Node.  All of these are sent;
    the sample counts and the times of delivered reports are what the next
    sample starts from; and an incident ends exactly when the Node is active,
    disabled or gone. *)
Theorem samples_report_confirmed_incidents {sorting : GoSort} app allowedUsers a b interval repeat confirmations policy m
    panels nodes now before :
  NewNodeMonitor allowedUsers a b interval repeat confirmations policy = Ok m -> NoDup (known_keys panels nodes) ->
  (forall tr u text keyboard k, reaches (sample app m before) (reads panels nodes now ++ tr) (Vis (MSend u text keyboard) k) ->
     reportable m now before (items m panels nodes) _ (MSend u text keyboard)) /\
  (forall tr after, runs (sample app m before) tt (reads panels nodes now ++ tr) after tt ->
     (forall it, it ∈ items m panels nodes -> settled app m now before (after !! nodeMonitorKey (item_node it)) tr it) /\
     forall k, k ∉ (fun it => nodeMonitorKey (item_node it)) <$> items m panels nodes ->
       after !! k = if bool_decide (k ∈ known_keys panels nodes) then before !! k else None).
Proof.
  intros Hm Hk. pose proof (after_reads_guarded app m panels nodes now before (NewNodeMonitor_users _ _ _ _ _ _ _ _ Hm) Hk) as Hg. split.
  - intros tr u text keyboard k H%sample_reaches. exact (guarded_reaches _ _ _ _ _ _ Hg H).
  - intros tr after H%sample_runs. exact (guarded_runs _ _ _ _ _ _ _ _ Hg H).
Qed.

(** ** Witness: a Node with three users at a threshold of fifty *)
Definition sample_panel : Panel := mkPanel "p" "Panel" true.
Definition sample_node : NodeSummary := mkNodeSummary "p" "Panel" "uuid" "node" "192.0.2.1" true false false 3 true "" None.
Definition sample_monitor : NodeMonitor := mkMonitor [42] defaultNodeMonitorInterval defaultNodeAlertRepeatInterval 1 50.
Definition sample_snapshot_of : nodePanelSnapshot := mkSnapshot sample_panel [sample_node] [sample_node] [] [] [] 50.

Lemma samples_report_confirmed_incidents_witness :
  reportable sample_monitor 1000 ∅ (@items insertion_GoSort sample_monitor [sample_panel] [sample_node]) _
    (MSend 42 (formatNodeAlert sample_snapshot_of sample_node) (alert_keyboard (mkCapabilities true true true true true true) sample_node)).
Proof.
  assert (NewNodeMonitor [42] true true 0 0 1 0 = Ok sample_monitor) as Hm by reflexivity.
  assert (NoDup (known_keys [sample_panel] [sample_node])) as Hk by apply NoDup_singleton.
  assert (exists k, reaches (@sample insertion_GoSort (mkCapabilities true true true true true true) sample_monitor ∅)
    (reads [sample_panel] [sample_node] 1000 ++ []) (Vis (MSend 42 (formatNodeAlert sample_snapshot_of sample_node)
      (alert_keyboard (mkCapabilities true true true true true true) sample_node)) k)) as [k Hr].
  { eexists. do 3 (eexists; split; [reflexivity|]). reflexivity. }
  exact (proj1 (@samples_report_confirmed_incidents insertion_GoSort (mkCapabilities true true true true true true) _ _ _ _ _ _ _ _
    [sample_panel] [sample_node] 1000 ∅ Hm Hk) [] _ _ _ k Hr).
Defined.
