(* ===== verification/TgSessions.v ===== *)
(** * Conversations ([internal/telegram/controller.go], the sections under [c.mu])

    What the controller calls, as one effect signature: the messenger, the
    application, the random source, the clock, goroutines, password buffers,
    and the critical sections of its session table.  The second part gives
    the table its meaning: every section is a function of the times the clock
    was read at and of the table, in the order of the code, and the answers of
    everything outside the controller are arbitrary. *)

From S2P Require Import Prelude GoStrings GoText NetIP Effects TgTypes TgProgress TgNodes.

#[local] Open Scope Z_scope.

(** ** The effects *)
Inductive check_answer : Type := CheckOk | CheckDuplicate | CheckFailed.

Inductive load_answer : Type := LoadNone | LoadExpired (preparedID : string) | LoadFound (session : wizard).
Inductive update_answer : Type := Updated | NotUpdated | UpdateExpired (preparedID : string).
Inductive take_answer : Type := NotTaken | TakeExpired (preparedID : string) | Taken (session : wizard).
Inductive copy_answer : Type := NotCopied | CopyExpired (preparedID : string) | Copied (password : buf).
Inductive fire_answer : Type := NotFired | Fired (preparedID : string).

(** The goroutines a handler starts, with what their closures capture. *)
Inductive worker : Type :=
  | ServerIPWorker (active : wizard) (statusID : Z)
  | NodeMoveWorker (active : wizard) (statusID : Z)
  | DeploymentWorker (active : wizard) (progressView : deploymentProgressView)
  | ActionWorker (chatID messageID fromUserID : Z) (action deploymentID : string) (details : DeploymentDetails).

(** The two ways the code can panic. *)
Inductive panic_kind : Type := FailedAssertion | NilDereference.

Inductive tgE : Type -> Type :=
  (* Messenger *)
  | SendMessage (chatID : Z) (text : string) (keyboard : Keyboard) : tgE (result string Z)
  | EditMessage (chatID messageID : Z) (text : string) (keyboard : Keyboard) : tgE (option string)
  | DeleteMessage (chatID messageID : Z) : tgE (option string)
  | AnswerCallback (callbackID text : string) : tgE (option string)
  (* Application; a boolean answer is whether the call failed *)
  | ListPanels : tgE (option (list Panel))
  | ListHosts (panelID : string) : tgE (option (list Host))
  | CheckNodeName (panelID name : string) : tgE check_answer
  | CheckVPSAddress (panelID : string) (address : Addr) : tgE check_answer
  | Preflight (input : PreflightInput) : tgE (PreflightResult * bool)
  (* the reports made while it runs, and its error *)
  | StartDeployment (input : DeploymentInput) : tgE (list Progress * option deployErr)
  | CancelDeployment (deploymentID : string) : tgE bool
  | ListNodes : tgE (option (list NodeSummary))
  | ListDeployments (limit : Z) : tgE (option (list DeploymentSummary))
  | GetDeploymentDetails (deploymentID : string) : tgE (option DeploymentDetails)
  | RetryFailedStep (deploymentID : string) : tgE bool
  | RetryDNS (deploymentID : string) : tgE bool
  | RecheckRemnawave (deploymentID : string) : tgE (option string)
  | ViewSafeLogs (deploymentID : string) : tgE (option (list DeploymentLogEntry))
  | BootstrapCertificate (sni : string) (userID : Z) : tgE (string * bool)
  | FindNodeForIPChange (panelID query : string) : tgE (option NodeIPChangeTarget)
  | ReplaceNodeIP (input : NodeIPChangeInput) : tgE (option string)
  | PrepareNodeHostMove (panelID nodeUUID : string) : tgE (option (NodeHostMoveTarget * list Host))
  | MoveNodeToHost (input : NodeHostMoveInput) : tgE (option NodeHostMoveResult)
  | FindNodeForDNSSync (panelID query : string) : tgE (option NodeDNSSyncTarget)
  | SyncNodeDNS (input : NodeDNSSyncInput) : tgE (option NodeDNSSyncResult)
  | ConfigureCherryIP (input : CherryIPInput) : tgE (option CherryIPResult)
  | ConfigureRoyalIP (input : RoyalIPInput) : tgE (option RoyalIPResult)
  (* the process *)
  | CurrentTime : tgE Z
  | RandomBytes : tgE (option (list Z))
  | WorkersAdd : tgE unit
  | WorkersDone : tgE unit
  | Go (w : worker) : tgE unit
  | Panic (why : panic_kind) : tgE Empty_set
  (* password buffers *)
  | NewBuffer (content : string) : tgE buf
  | AppendBuffer (dst : option buf) (src : buf) : tgE (option buf)
  | ClearBuffer (b : option buf) : tgE unit
  (* the sections under c.mu *)
  | PutSession (session : wizard) : tgE unit
  | LoadSession (userID : Z) : tgE load_answer
  | UpdateSession (userID : Z) (nonce : string) (state : wizardState) (update : wizard -> wizard) : tgE update_answer
  | StorePassword (userID : Z) (nonce : string) (state : wizardState) (password : buf) (next : wizardState) : tgE update_answer
  | TakeSession (userID : Z) (nonce : string) (state : wizardState) : tgE take_answer
  | CopyPassword (userID : Z) (nonce : string) (state : wizardState) : tgE copy_answer
  | DropSession (userID : Z) : tgE (option wizard)
  | DropSessions : tgE (list wizard)
  | FireExpiry (userID : Z) (nonce : string) : tgE fire_answer.

(** ** The table *)
Record ctl : Type := mkCtl {
  c_sessions : gmap Z wizard;
  c_heap : gmap nat string;  (* the contents of the password buffers *)
  c_clock : Z
}.

Definition zeroed (content : string) : string := str_map (fun _ => zero) content.
Definition zero_buffer (b : option buf) (h : gmap nat string) : gmap nat string :=
  match b with Some b => alter zeroed b h | None => h end.

Definition with_session (userID : Z) (w : wizard) (s : ctl) : ctl := mkCtl (<[userID := w]> (c_sessions s)) (c_heap s) (c_clock s).
(** [session.clear(); delete(c.sessions, userID)]. *)
Definition clear_and_delete (userID : Z) (w : wizard) (s : ctl) : ctl :=
  mkCtl (delete userID (c_sessions s)) (zero_buffer (w_password w) (c_heap s)) (c_clock s).
Definition delete_session (userID : Z) (s : ctl) : ctl := mkCtl (delete userID (c_sessions s)) (c_heap s) (c_clock s).

(** [!c.now().Before(session.expiresAt)]. *)
Definition expired (now : Z) (w : wizard) : bool := negb (now <? w_expiresAt w).
Definition prepared_id (w : wizard) : string := pr_PreparedDeploymentID (w_preflight w).
(** [scheduleExpiryLocked] arms the timer again. *)
Definition scheduleExpiryLocked (w : wizard) : wizard := set_expiryTimer true w.

Definition putSession (session : wizard) (s : ctl) : ctl :=
  let heap := match c_sessions s !! w_userID session with
              | Some previous => zero_buffer (w_password previous) (c_heap s)
              | None => c_heap s
              end in
  mkCtl (<[w_userID session := scheduleExpiryLocked session]> (c_sessions s)) heap (c_clock s).

Definition loadSession (now : Z) (userID : Z) (s : ctl) : load_answer * ctl :=
  match c_sessions s !! userID with
  | None => (LoadNone, s)
  | Some session =>
    if expired now session then (LoadExpired (prepared_id session), clear_and_delete userID session s)
    else (LoadFound (clone session), s)
  end.

(** The first condition of [updateSession], [takeSession] and [copyPassword];
    [now1] is only read when the rest of it holds. *)
Definition applicable (now1 : Z) (nonce : string) (state : wizardState) (session : wizard) : bool :=
  String.eqb (w_nonce session) nonce && bool_decide (w_state session = state) && negb (expired now1 session).

Definition updateSession (ttl now1 now2 now3 : Z) (userID : Z) (nonce : string) (state : wizardState)
    (update : wizard -> gmap nat string -> wizard * gmap nat string) (s : ctl) : update_answer * ctl :=
  match c_sessions s !! userID with
  | None => (NotUpdated, s)
  | Some session =>
    if applicable now1 nonce state session then
      let '(session, heap) := update session (c_heap s) in
      (Updated, mkCtl (<[userID := scheduleExpiryLocked (set_expiresAt (now3 + ttl) session)]> (c_sessions s)) heap (c_clock s))
    else if expired now2 session then (UpdateExpired (prepared_id session), clear_and_delete userID session s)
    else (NotUpdated, s)
  end.

Definition pure_update (f : wizard -> wizard) (w : wizard) (h : gmap nat string) : wizard * gmap nat string := (f w, h).
(** The closure of [acceptPassword]: [b] is the new buffer of the session. *)
Definition store_password (b src : buf) (next : wizardState) (w : wizard) (h : gmap nat string) : wizard * gmap nat string :=
  let h := zero_buffer (w_password w) h in
  (set_state next (set_password (Some b) w), <[b := default "" (h !! src)]> h).

Definition takeSession (now1 now2 : Z) (userID : Z) (nonce : string) (state : wizardState) (s : ctl) : take_answer * ctl :=
  match c_sessions s !! userID with
  | None => (NotTaken, s)
  | Some session =>
    if applicable now1 nonce state session then (Taken (set_expiryTimer false session), delete_session userID s)
    else if expired now2 session then (TakeExpired (prepared_id session), clear_and_delete userID session s)
    else (NotTaken, s)
  end.

(** [b] is the buffer of the copy. *)
Definition copyPassword (now1 now2 : Z) (b : buf) (userID : Z) (nonce : string) (state : wizardState) (s : ctl) : copy_answer * ctl :=
  match c_sessions s !! userID with
  | None => (NotCopied, s)
  | Some session =>
    let content := default "" (w_password session ≫= fun p => c_heap s !! p) in
    if applicable now1 nonce state session && negb (String.eqb content "")
    then (Copied b, mkCtl (c_sessions s) (<[b := content]> (c_heap s)) (c_clock s))
    else if expired now2 session then (CopyExpired (prepared_id session), clear_and_delete userID session s)
    else (NotCopied, s)
  end.

(** The callback of the timer. *)
Definition fireExpiry (now : Z) (userID : Z) (nonce : string) (s : ctl) : fire_answer * ctl :=
  match c_sessions s !! userID with
  | None => (NotFired, s)
  | Some current =>
    if negb (String.eqb (w_nonce current) nonce) || (now <? w_expiresAt current) then (NotFired, s)
    else (Fired (prepared_id current), clear_and_delete userID current s)
  end.

(** The section of [Close]. *)
Definition zero_all (ws : list wizard) (h : gmap nat string) : gmap nat string :=
  foldl (fun h w => zero_buffer (w_password w) h) h ws.

(** ** What a call may answer and do *)
Section Semantics.
Context (ttl : Z).

Definition at_time (t : Z) (s : ctl) : ctl := mkCtl (c_sessions s) (c_heap s) t.
Definition fresh_buffer (b : buf) (s : ctl) : Prop := c_heap s !! b = None.
Definition with_heap (h : gmap nat string) (s : ctl) : ctl := mkCtl (c_sessions s) h (c_clock s).

Definition tg_exec {X} (e : tgE X) (s : ctl) : X -> ctl -> Prop :=
  match e in tgE X return X -> ctl -> Prop with
  | CurrentTime => fun now s' => c_clock s <= now /\ s' = at_time now s
  | RandomBytes => fun r s' => s' = s /\ forall bytes, r = Some bytes -> length bytes = 9%nat /\ Forall (fun b => 0 <= b < 256) bytes
  | NewBuffer content => fun b s' => fresh_buffer b s /\ s' = with_heap (<[b := content]> (c_heap s)) s
  | AppendBuffer dst src => fun r s' =>
      exists b, r = Some b /\ (fresh_buffer b s \/ dst = Some b) /\ s' = with_heap (<[b := default "" (c_heap s !! src)]> (c_heap s)) s
  | ClearBuffer b => fun _ s' => s' = with_heap (zero_buffer b (c_heap s)) s
  | PutSession session => fun _ s' => s' = putSession session s
  | LoadSession userID => fun r s' => exists now, c_clock s <= now /\ (r, s') = loadSession now userID (at_time now s)
  | UpdateSession userID nonce state update => fun r s' =>
      exists now1 now2 now3, c_clock s <= now1 <= now2 /\ now2 <= now3 /\
        (r, s') = updateSession ttl now1 now2 now3 userID nonce state (pure_update update) (at_time now3 s)
  | StorePassword userID nonce state password next => fun r s' =>
      exists now1 now2 now3 b, c_clock s <= now1 <= now2 /\ now2 <= now3 /\ fresh_buffer b s /\
        (r, s') = updateSession ttl now1 now2 now3 userID nonce state (store_password b password next) (at_time now3 s)
  | TakeSession userID nonce state => fun r s' =>
      exists now1 now2, c_clock s <= now1 <= now2 /\ (r, s') = takeSession now1 now2 userID nonce state (at_time now2 s)
  | CopyPassword userID nonce state => fun r s' =>
      exists now1 now2 b, c_clock s <= now1 <= now2 /\ fresh_buffer b s /\
        (r, s') = copyPassword now1 now2 b userID nonce state (at_time now2 s)
  | DropSession userID => fun r s' => r = c_sessions s !! userID /\ s' = delete_session userID s
  | DropSessions => fun r s' =>
      r ≡ₚ (map_to_list (c_sessions s)).*2 /\ s' = mkCtl ∅ (zero_all r (c_heap s)) (c_clock s)
  | FireExpiry userID nonce => fun r s' => exists now, c_clock s <= now /\ (r, s') = fireExpiry now userID nonce (at_time now s)
  | _ => fun _ s' => s' = s
  end.
End Semantics.
