(* ===== verification/TgRender.v ===== *)
(** * Texts and keyboards of the controller ([internal/telegram/controller.go])

    Everything the controller shows that is not in the Node or deployment
    screens: menus, confirmations, previews and results. *)

From S2P Require Import Prelude GoStrings Utf8 Unicode GoText NetIP TgTypes TgProgress TgNodes.

#[local] Open Scope Z_scope.

Definition mainKeyboard : Keyboard := mkKeyboard [] [[MenuAddNode; MenuChangeIP]; [MenuNodes; MenuDeployments]].

(** ** The data of the buttons of a conversation *)
Definition data_plain (prefix nonce : string) : string := prefix +:+ ":" +:+ nonce.
Definition data_indexed (prefix nonce : string) (index : Z) : string := prefix +:+ ":" +:+ nonce +:+ ":" +:+ Itoa index.
Definition data_deployment (action id : string) : string := "dep:" +:+ action +:+ ":" +:+ id.

(** One row for every element, with its index in the data. *)
Definition indexed_rows {A} (prefix nonce : string) (label : A -> string) (l : list A) : list (list Button) :=
  imap (fun index x => button_row (label x) (data_indexed prefix nonce (Z.of_nat index))) l.
Definition panel_rows (prefix nonce : string) (panels : list Panel) : list (list Button) :=
  indexed_rows prefix nonce (fun p => safeLine (p_Name p) 48) panels.

Definition ipChangeKeyboard (nonce : string) : Keyboard :=
  inline_keyboard [[mkButton "🔄 Сменить" (data_plain "ip:change" nonce); mkButton "❌ Отменить" (data_plain "ip:cancel" nonce)]].

Definition dnsSyncKeyboard (nonce : string) (canSync : bool) : Keyboard :=
  if negb canSync then inline_keyboard [button_row "Закрыть" (data_plain "dns:cancel" nonce)]
  else inline_keyboard [[mkButton "✅ Синхронизировать" (data_plain "dns:sync" nonce); mkButton "❌ Отменить" (data_plain "dns:cancel" nonce)]].

Definition confirmationKeyboard (nonce : string) : Keyboard :=
  inline_keyboard [button_row "🚀 Развернуть" (data_plain "add:deploy" nonce); button_row "❌ Отмена" (data_plain "add:cancel" nonce)].

Definition deploymentActionsKeyboard (details : DeploymentDetails) : Keyboard :=
  let id := ds_ID (dd_Summary details) in
  let row (b : bool) text action := if b then [button_row text (data_deployment action id)] else [] in
  inline_keyboard (
    [button_row "📋 Подробный журнал" (data_deployment "logs" id)] ++
    row (dd_CanRepairCert details) "🛠 Исправить сертификат и продолжить" "repair_cert" ++
    row (dd_CanRetryDNS details) "🔁 Повторить DNS" "dns" ++
    row (dd_CanRetryStep details && negb (dd_CanRepairCert details)) "🔁 Повторить шаг" "retry" ++
    row (dd_CanRecheck details) "🔎 Перепроверить ноду" "recheck" ++
    row (dd_CanCancel details) "❌ Отменить развёртывание" "cancel").

(** The kinds of IP change the application supports. *)
Definition ip_mode_rows (app : Capabilities) (nonce : string) : list (list Button) :=
  (if NodeIPApplication app then [button_row "Панель + DNS-балансировка" (data_indexed "ip:mode" nonce 0)] else []) ++
  (if CherryIPApplication app then [button_row "Смена IP на Cherry (сервер)" (data_indexed "ip:mode" nonce 1)] else []) ++
  (if RoyalIPApplication app then [button_row "Смена IP на Royal (сервер)" (data_indexed "ip:mode" nonce 2)] else []) ++
  (if NodeDNSSyncApplication app then [button_row "🔄 Синхронизировать Remna → DNS" (data_indexed "ip:mode" nonce 3)] else []).

Definition server_scope_rows (nonce : string) : list (list Button) :=
  [button_row "Нода уже в Remnawave" (data_indexed "ip:scope" nonce 0);
   button_row "Нода ещё не добавлена" (data_indexed "ip:scope" nonce 1)].

(** ** Hosting providers *)
Definition serverProviderName (provider : serverIPProvider) : string :=
  if bool_decide (provider = serverIPProviderRoyal) then "Royal" else "Cherry".

Definition serverNewIPPrompt (provider : serverIPProvider) (updateNode : bool) : string :=
  (if bool_decide (provider = serverIPProviderRoyal)
   then "Введите новый основной публичный IPv4 сервера Royal. Бот сохранит текущую маску и установит IPv4-шлюз x.x.x.1."
   else "Введите новый floating IPv4, уже назначенный этому серверу в Cherry Servers.") +:+
  (if updateNode then " После проверки SSH по новому адресу бот также обновит ноду и DNS." else "").

Definition serverStatusText (provider : serverIPProvider) : string :=
  if bool_decide (provider = serverIPProviderRoyal)
  then "Подключаюсь к Royal-серверу, заменяю IPv4 и шлюз в netplan, затем проверяю SSH по новому адресу… Общий лимит — 90 секунд."
  else "Подключаюсь к Cherry-серверу и настраиваю floating IP… Обычно это занимает меньше минуты, общий лимит — 90 секунд.".

Definition serverFailureText (provider : serverIPProvider) : string :=
  if bool_decide (provider = serverIPProviderRoyal)
  then "❌ Не удалось подтвердить смену IP на Royal-сервере. Нода и DNS не изменялись. Проверьте SSH по старому и новому IP, назначение адреса у провайдера и /var/log/remnanode-royal-netplan.log."
  else "❌ Не удалось настроить IP на Cherry-сервере. Проверьте root-пароль, доступность SSH и назначение floating IP.".

Definition cherry_text (active : wizard) (result : CherryIPResult) : string :=
  let persistent := if cr_Persistent result then "сохранён в netplan" else "не сохранён в netplan" in
  let note := safeLine (cr_PersistentNote result) 500 in
  "✅ Floating IP " +:+ addr_string (w_serverNewIP active) +:+ " настроен на " +:+ addr_string (w_serverCurrentIP active) +:+ nl +:+
  "Интерфейс: " +:+ safeLine (cr_Interface result) 64 +:+ nl +:+ "Постоянная настройка: " +:+ persistent +:+
  (if String.eqb note "" then "" else nl +:+ note).

Definition royal_text (active : wizard) (result : RoyalIPResult) : string :=
  "✅ IP Royal-сервера изменён: " +:+ addr_string (w_serverCurrentIP active) +:+ " → " +:+ addr_string (w_serverNewIP active) +:+
  "/" +:+ Itoa (rr_PrefixBits result) +:+ nl +:+ "Интерфейс: " +:+ safeLine (rr_Interface result) 64 +:+ nl +:+
  "IPv4-шлюз: " +:+ addr_string (rr_Gateway result) +:+ nl +:+ "Netplan: " +:+ safeLine (rr_NetplanFile result) 160 +:+ nl +:+
  "Резервная копия: " +:+ safeLine (rr_BackupFile result) 180 +:+ nl +:+ "SSH по новому IP подтверждён".

(** ** Changing the address of a Node *)
Definition renderIPChangeTarget (target : NodeIPChangeTarget) : string :=
  let status := if it_Connected target then "подключена" else "не подключена" in
  let kind := if it_IsManaged target then "создана этим ботом" else "legacy" in
  let zones :=
    if negb (it_DNSEnabled target) then "отключена для этой панели"
    else match it_DNSZones target with [] => "не найдены" | zones => Join zones ", " end in
  "Панель: " +:+ safeLine (it_PanelName target) 80 +:+ nl +:+ "Нода: " +:+ safeLine (it_Name target) 80 +:+ nl +:+
  "Текущий IP: " +:+ addr_string (it_Address target) +:+ nl +:+ "Статус: " +:+ status +:+ nl +:+ "Тип: " +:+ kind +:+ nl +:+
  "DNS-зоны: " +:+ safeLine zones 800.

(** ** DNS synchronisation *)
Definition renderDNSSyncTarget (target : NodeDNSSyncTarget) : string :=
  let status := if st_Connected target then "подключена" else "не подключена" in
  let named := negb (String.eqb (st_DNSZone target) "") in
  let kind :=
    if st_Managed target then "создана этим ботом"
    else if named then "legacy, зона определена по профилю + inbound" else "legacy" in
  let zone := if named then st_DNSZone target else "не определена" in
  let zones := Join (st_CurrentZones target) ", " in
  let has_zones := negb (bool_decide (st_CurrentZones target = [])) in
  let presence :=
    if negb (st_Managed target) && has_zones then "✅ IP найден в DNS-зонах: " +:+ zones
    else if st_CurrentPresent target then "✅ актуальный IP есть в целевой DNS-зоне"
    else "⚠️ актуальный IP отсутствует в целевой DNS-зоне" in
  truncateUTF8 (
    "🔄 Синхронизация Remna → DNS" +:+ nl +:+
    "Панель: " +:+ safeLine (st_PanelName target) 80 +:+ nl +:+
    "Нода: " +:+ safeLine (st_Name target) 80 +:+ nl +:+
    "Титульный IP (Remna): " +:+ addr_string (st_Address target) +:+ nl +:+
    "Статус: " +:+ status +:+ nl +:+
    "Тип: " +:+ kind +:+ nl +:+
    "Целевая DNS-зона: " +:+ safeLine zone 255 +:+ nl +:+
    (if IsValid (st_PreviousIP target) && negb (bool_decide (st_PreviousIP target = st_Address target))
     then "IP в истории бота: " +:+ addr_string (st_PreviousIP target) +:+ nl else "") +:+
    "Проверка: " +:+ safeLine presence 800 +:+ nl +:+
    (if st_Managed target && negb (st_CurrentPresent target) && has_zones
     then "Актуальный IP также найден в: " +:+ safeLine zones 800 +:+ nl else "") +:+
    (if String.eqb (st_Note target) "" then "" else "Действие: " +:+ safeLine (st_Note target) 500) +:+
    (if st_CanSync target then ""
     else nl +:+ nl +:+ "Автоматическая запись отключена: целевую DNS-зону или формат записи нельзя определить безопасно.")) maxMessageBytes.

Definition renderDNSSyncResult (result : NodeDNSSyncResult) : string :=
  let action :=
    if String.eqb (sr_Action result) "ADDED" then "актуальный IP добавлен в DNS"
    else if String.eqb (sr_Action result) "REPLACED" then "устаревший IP заменён актуальным"
    else "DNS уже соответствовал Remnawave" in
  "✅ Синхронизация завершена" +:+ nl +:+ "Нода: " +:+ safeLine (sr_NodeName result) 80 +:+ nl +:+
  "Титульный IP (Remna): " +:+ addr_string (sr_Address result) +:+ nl +:+ "DNS-зона: " +:+ safeLine (sr_DNSZone result) 255 +:+ nl +:+
  "Результат: " +:+ action.

(** ** Confirmation of a deployment *)
Definition readinessText (value : Readiness) : string :=
  if String.eqb value ReadinessReady then "ready"
  else if String.eqb value ReadinessNotReady then "not ready"
  else "unknown".

Definition validReadiness (value : Readiness) : bool :=
  one_of value [""; ReadinessUnknown; ReadinessReady; ReadinessNotReady].

Definition renderConfirmation (session : wizard) : string :=
  let preflight := w_preflight session in
  let selected := w_selected session in
  let certificate := readinessText (pr_CertificateReadiness preflight) in
  let profile :=
    if String.eqb (pr_ConfigProfileReadiness preflight) ReadinessUnknown then h_ConfigProfileReadiness selected
    else pr_ConfigProfileReadiness preflight in
  let dnsZone :=
    if negb (p_DNSEnabled (w_panel session)) then "disabled for this panel"
    else if negb (String.eqb (TrimSpace (pr_DNSZone preflight)) "") then safeLine (pr_DNSZone preflight) 120
    else "not resolved" in
  truncateUTF8 (
    "Confirm deployment" +:+ nl +:+
    "Host: " +:+ safeLine (h_Remark selected) 120 +:+ nl +:+
    "Panel: " +:+ safeLine (p_Name (w_panel session)) 80 +:+ nl +:+
    "SNI: " +:+ safeLine (h_Address selected) 255 +:+ nl +:+
    "Node name: " +:+ safeLine (w_nodeName session) 60 +:+ nl +:+
    "VPS IP: " +:+ addr_string (w_vpsIP session) +:+ nl +:+
    "DNS zone: " +:+ dnsZone +:+ nl +:+
    "Certificate: " +:+ certificate +:+ nl +:+
    "Config profile: " +:+ readinessText profile +:+
    concat_text ((fun warning =>
      let message := safeLine (on_Message warning) 160 in
      if String.eqb message "" then ""
      else nl +:+ "⚠️ [" +:+ normalizeWarningCode (on_Code warning) +:+ "] (" +:+ message +:+ ")") <$> pr_Warnings preflight)) maxMessageBytes.

(** ** The random source: [base64.RawURLEncoding] of nine bytes *)
Definition base64_char (d : Z) : ascii :=
  if d <? 26 then of_byte (65 + d)
  else if d <? 52 then of_byte (97 + (d - 26))
  else if d <? 62 then of_byte (48 + (d - 52))
  else if d =? 62 then "-"%char else "_"%char.

Fixpoint base64_url (bytes : list Z) : string :=
  match bytes with
  | a :: b :: c :: rest =>
    let n := a * 65536 + b * 256 + c in
    String (base64_char (n / 262144)) (String (base64_char (n / 4096 mod 64))
      (String (base64_char (n / 64 mod 64)) (String (base64_char (n mod 64)) (base64_url rest))))
  | _ => ""
  end.
