(* ===== verification/TgController.v ===== *)
(** * The Telegram controller ([internal/telegram/controller.go, node_inventory.go])

    Every handler of the controller as a program over [tgE]: messages and
    commands, the buttons of the Node and deployment screens, the
    conversations, and the goroutines a confirmed conversation starts.  An
    [error] is [Some] of its text.  A type assertion that fails and a nil
    dereference are the call [Panic], which has no answer. *)

From S2P Require Import Prelude GoStrings Utf8 Unicode GoText NetIP Effects TgTypes TgProgress TgNodes TgSessions TgRender.

#[local] Open Scope Z_scope.

Notation T := (prog tgE).

(** [errors.Join] of an error and an error that may be nil. *)
Definition join_errors (e : string) (other : option string) : option string :=
  Some (match other with Some e' => e +:+ nl +:+ e' | None => e end).

Definition send (chatID : Z) (text : string) (keyboard : Keyboard) : T (option string) :=
  r ← call (SendMessage chatID text keyboard);
  mret (match r with Ok _ => None | Err e => Some e end).
Definition edit (chatID messageID : Z) (text : string) (keyboard : Keyboard) : T (option string) :=
  call (EditMessage chatID messageID text keyboard).
(** A call whose error is dropped. *)
Definition ignored {A} (m : T A) : T unit := _ ← m; mret tt.
Definition edit_ (chatID messageID : Z) (text : string) (keyboard : Keyboard) : T unit := ignored (edit chatID messageID text keyboard).
Definition answer_ (callbackID text : string) : T unit := ignored (call (AnswerCallback callbackID text)).
Definition cancel_ (deploymentID : string) : T unit := ignored (call (CancelDeployment deploymentID)).
(** A failed type assertion or a nil dereference. *)
Definition panic_with (why : panic_kind) {A} : T A := Vis (Panic why) (fun e : Empty_set => match e with end).
Notation panic := (panic_with FailedAssertion).

(** ** Sessions *)
Definition cancelPrepared (deploymentID : string) : T unit :=
  let deploymentID := TrimSpace deploymentID in
  if String.eqb deploymentID "" then mret tt else cancel_ deploymentID.

Definition put (session : wizard) : T unit := call (PutSession session).

(** The session, and whether it had expired. *)
Definition load (userID : Z) : T (option wizard * bool) :=
  r ← call (LoadSession userID);
  match r with
  | LoadNone => mret (None, false)
  | LoadExpired preparedID => cancelPrepared preparedID ≫= fun _ => mret (None, true)
  | LoadFound session => mret (Some session, false)
  end.

Definition updated (r : update_answer) : T bool :=
  match r with
  | Updated => mret true
  | NotUpdated => mret false
  | UpdateExpired preparedID => cancelPrepared preparedID ≫= fun _ => mret false
  end.
Definition update (userID : Z) (nonce : string) (state : wizardState) (f : wizard -> wizard) : T bool :=
  call (UpdateSession userID nonce state f) ≫= updated.

Definition take (userID : Z) (nonce : string) (state : wizardState) : T (option wizard) :=
  r ← call (TakeSession userID nonce state);
  match r with
  | NotTaken => mret None
  | TakeExpired preparedID => cancelPrepared preparedID ≫= fun _ => mret None
  | Taken session => mret (Some session)
  end.

Definition copy_password (userID : Z) (nonce : string) (state : wizardState) : T (option buf) :=
  r ← call (CopyPassword userID nonce state);
  match r with
  | NotCopied => mret None
  | CopyExpired preparedID => cancelPrepared preparedID ≫= fun _ => mret None
  | Copied password => mret (Some password)
  end.

(** [clear] of a session that is no longer in the table. *)
Definition clear (w : wizard) : T unit := call (ClearBuffer (w_password w)).

Definition cancelExisting (userID : Z) : T unit :=
  session ← call (DropSession userID);
  match session with
  | None => mret tt
  | Some session =>
    clear session ≫= fun _ =>
    if String.eqb (prepared_id session) "" then mret tt else cancel_ (prepared_id session)
  end.

(** The callback of an expiry timer, and [Close]. *)
Definition expiry_callback (userID : Z) (nonce : string) : T unit :=
  r ← call (FireExpiry userID nonce);
  match r with Fired preparedID => cancelPrepared preparedID | NotFired => mret tt end.

Definition Close : T unit :=
  sessions ← call DropSessions;
  for_each (fun session => cancelPrepared (prepared_id session)) sessions.

Definition randomNonce : T (result string string) :=
  r ← call RandomBytes;
  mret (match r with Some bytes => Ok (base64_url bytes) | None => Err "read random bytes" end).

(** ** Common replies *)
Definition reply_to (cb : CallbackQuery) (msg : Message) (text : string) (keyboard : Keyboard) : T (option string) :=
  edit (m_ChatID msg) (m_ID msg) text keyboard.

Definition expiredCallback (cb : CallbackQuery) (msg : Message) : T (option string) :=
  answer_ (cb_ID cb) "This action has expired." ≫= fun _ =>
  send (m_ChatID msg) "This conversation is incomplete or expired. Start again from the menu." mainKeyboard.

Definition sendExpired (chatID : Z) : T (option string) :=
  send chatID "This conversation has expired. Start again from the menu." mainKeyboard.

Definition sendActionResult (chatID : Z) (failed : bool) (success : string) : T (option string) :=
  send chatID (if failed then "Operation could not be completed safely. Check deployment logs." else success) mainKeyboard.

Definition sendOrEdit (chatID messageID : Z) (text : string) (keyboard : Keyboard) : T (option string) :=
  if negb (messageID =? 0) then edit chatID messageID (truncateUTF8 text maxMessageBytes) keyboard
  else send chatID (truncateUTF8 text maxMessageBytes) keyboard.

Definition deliverDNSSyncResult (chatID messageID : Z) (text : string) : T (option string) :=
  r ← edit chatID messageID text no_keyboard;
  match r with
  | None => mret None
  | Some _ => send chatID text mainKeyboard
  end.

Definition showMainMenu (chatID : Z) : T (option string) := send chatID "Выберите действие:" mainKeyboard.

Definition showDeploymentCard (chatID messageID : Z) (deploymentID notice : string) : T (option string) :=
  details ← call (GetDeploymentDetails deploymentID);
  match details with
  | None => edit chatID messageID "Развёртывание больше недоступно." no_keyboard
  | Some details => edit chatID messageID (renderDeploymentCard details notice) (deploymentActionsKeyboard details)
  end.

Definition showDeployments (chatID : Z) : T (option string) :=
  deployments ← call (ListDeployments 15);
  match deployments with
  | None => send chatID "Развёртывания временно недоступны." mainKeyboard
  | Some deployments =>
    send chatID (renderDeploymentsList deployments)
      (inline_keyboard ((fun item => button_row (deploymentListButton item) (data_deployment "open" (ds_ID item))) <$> deployments))
  end.

(** ** The goroutines *)
Definition configureServerIP (app : Capabilities) (active : wizard) : T (option string) :=
  match w_serverIPProvider active with
  | serverIPProviderCherry => if CherryIPApplication app then (
      result ← call (ConfigureCherryIP (mkCherryIPInput (w_serverCurrentIP active) (w_serverNewIP active) (w_password active)));
      mret (option_map (cherry_text active) result)) else panic
  | serverIPProviderRoyal => if RoyalIPApplication app then (
      result ← call (ConfigureRoyalIP (mkRoyalIPInput (w_serverCurrentIP active) (w_serverNewIP active) (w_password active)));
      mret (option_map (royal_text active) result)) else panic
  | serverIPProviderNone => mret None
  end.

Definition change_input (active : wizard) (newIP : Addr) : NodeIPChangeInput :=
  mkNodeIPChangeInput (p_ID (w_panel active)) (it_UUID (w_ipTarget active)) (it_Address (w_ipTarget active)) newIP.

Definition server_ip_body (app : Capabilities) (active : wizard) (statusID : Z) : T unit :=
  text ← configureServerIP app active;
  match text with
  | None => edit_ (w_chatID active) statusID (serverFailureText (w_serverIPProvider active)) no_keyboard
  | Some text =>
    if w_serverUpdateNode active then
      if NodeIPApplication app then (
        panelResult ← call (ReplaceNodeIP (change_input active (w_serverNewIP active)));
        match panelResult with
        | None => edit_ (w_chatID active) statusID (text +:+ nl +:+ nl +:+
            "⚠️ IP на сервере настроен, но ноду и DNS обновить не удалось. Запустите «Панель + DNS-балансировка» отдельно для этой ноды.") no_keyboard
        | Some panelResult => edit_ (w_chatID active) statusID (text +:+ nl +:+ nl +:+ "✅ " +:+ safeLine panelResult 400) no_keyboard
        end) else panic
    else edit_ (w_chatID active) statusID text no_keyboard
  end.

Definition node_move_body (app : Capabilities) (active : wizard) (statusID : Z) : T unit :=
  let target := w_nodeMoveTarget active in
  if NodeHostMoveApplication app then (
    result ← call (MoveNodeToHost (mkNodeHostMoveInput (p_ID (w_panel active)) (mt_UUID target) (h_ID (w_selected active))
      (mt_ExpectedProfileUUID target) (mt_ExpectedInboundUUIDs target) (w_password active)));
    edit_ (w_chatID active) statusID
      (match result with
       | Some result => renderNodeMoveResult result
       | None => "❌ Перенос не завершён. Бот попытался сохранить прежний SNI и профиль ноды. Проверьте доступность SSH, сертификат нового Host и затем обновите карточку перед повтором."
       end) no_keyboard) else panic.

Definition deployment_input (active : wizard) : DeploymentInput :=
  mkDeploymentInput (p_ID (w_panel active)) (prepared_id active) (w_userID active) (h_ID (w_selected active))
    (w_nodeName active) (w_vpsIP active) (w_password active).

Definition show_progress (active : wizard) (view : deploymentProgressView) : T unit :=
  edit_ (w_chatID active) (w_statusMsgID active) (View_Render view) no_keyboard.

Definition deployment_body (active : wizard) (progressView : deploymentProgressView) : T unit :=
  '(reports, err) ← call (StartDeployment (deployment_input active));
  progressView ← fold_each (fun view progress =>
    let view := View_Update progress view in
    show_progress active view ≫= fun _ => mret view) reports progressView;
  show_progress active (match err with Some err => Fail_View err progressView | None => View_Complete progressView end).

Definition runDeploymentAction (chatID messageID fromUserID : Z) (action deploymentID : string) (details : DeploymentDetails) : T unit :=
  '(result, failed) ←
    (if String.eqb action "retry" then failed ← call (RetryFailedStep deploymentID); mret ("", failed)
     else if String.eqb action "dns" then failed ← call (RetryDNS deploymentID); mret ("", failed)
     else if String.eqb action "recheck" then
       result ← call (RecheckRemnawave deploymentID);
       mret (match result with Some result => (result, false) | None => ("", true) end)
     else if String.eqb action "repair_cert" then
       '(result, failed) ← call (BootstrapCertificate (dd_SNI details) fromUserID);
       if (failed : bool) then mret (result, true)
       else
         failed ← call (RetryFailedStep deploymentID);
         mret (if (failed : bool) then (result, true) else (safeLine result 350 +:+ nl +:+ "Развёртывание продолжено.", false))
     else if String.eqb action "cancel" then failed ← call (CancelDeployment deploymentID); mret ("", failed)
     else mret ("", false));
  let message :=
    if (failed : bool) then "❌ Действие не выполнено безопасно. Откройте логи этой карточки."
    else if negb (String.eqb result "") then "✅ " +:+ safeLine result 500
    else "✅ Действие выполнено." in
  ignored (showDeploymentCard chatID messageID deploymentID message).

(** A goroutine with its deferred calls. *)
Definition run_worker (app : Capabilities) (w : worker) : T unit :=
  match w with
  | ServerIPWorker active statusID => finally (finally (server_ip_body app active statusID) (clear active)) (call WorkersDone)
  | NodeMoveWorker active statusID => finally (finally (node_move_body app active statusID) (clear active)) (call WorkersDone)
  | DeploymentWorker active view => finally (finally (deployment_body active view) (clear active)) (call WorkersDone)
  | ActionWorker chatID messageID fromUserID action deploymentID details =>
    finally (runDeploymentAction chatID messageID fromUserID action deploymentID details) (call WorkersDone)
  end.

(** [c.workers.Add(1)] and the [go] statement. *)
Definition start (w : worker) : T unit := call WorkersAdd ≫= fun _ => call (Go w).

(** ** The controller *)
Section Controller.
Context `{!GoSort} (app : Capabilities) (allowed : gset Z) (ttl : Z) (nodePolicy : NodePolicy).

Definition authorized (userID : Z) : bool := bool_decide (userID ∈ allowed).

(** A new conversation with the expiry of [c.now().Add(c.ttl)]. *)
Definition begin_session (userID chatID : Z) (nonce : string) (state : wizardState) (fill : wizard -> wizard) : T unit :=
  now ← call CurrentTime;
  put (fill (new_wizard userID chatID nonce state (now + ttl))).

(** ** The Node screens *)
Definition nodeSnapshots : T (option (list nodePanelSnapshot)) :=
  panels ← call ListPanels;
  match panels with
  | None => mret None
  | Some panels =>
    nodes ← call ListNodes;
    mret (match nodes with Some nodes => Some (classifyNodePanels panels nodes nodePolicy) | None => None end)
  end.

Definition retry_keyboard : Keyboard := inline_keyboard [button_row "🔄 Повторить" "nodes:root"].
Definition renderNodeInventoryFailure (chatID messageID : Z) : T (option string) :=
  sendOrEdit chatID messageID "Ноды или их онлайн-метрики временно недоступны." retry_keyboard.

Definition show_screen (chatID messageID : Z) (screen : option (string * Keyboard)) : T (option string) :=
  match screen with
  | Some (text, keyboard) => sendOrEdit chatID messageID text keyboard
  | None => renderNodeInventoryFailure chatID messageID
  end.

(** [snapshots[panelIndex]] after the range test. *)
Definition at_index {A} (l : list A) (index : Z) : option A := if index <? 0 then None else l !! Z.to_nat index.

Definition showNodePanels (chatID messageID : Z) : T (option string) :=
  snapshots ← nodeSnapshots;
  show_screen chatID messageID (option_map nodePanels_screen snapshots).

Definition showNodePanel (chatID messageID panelIndex : Z) : T (option string) :=
  snapshots ← nodeSnapshots;
  show_screen chatID messageID
    (match snapshots with
     | Some snapshots => option_map (nodePanel_screen panelIndex) (at_index snapshots panelIndex)
     | None => None
     end).

Definition showNodeGroup (chatID messageID panelIndex : Z) (group : nodeGroup) (requestedPage : Z) : T (option string) :=
  snapshots ← nodeSnapshots;
  show_screen chatID messageID
    (match snapshots with
     | Some snapshots =>
       match at_index snapshots panelIndex with
       | Some snapshot => nodeGroup_screen panelIndex snapshot group requestedPage
       | None => None
       end
     | None => None
     end).

Definition showNodeCard (chatID messageID : Z) (uuid : string) : T (option string) :=
  snapshots ← nodeSnapshots;
  show_screen chatID messageID (option_map (nodeCard_screen app uuid) snapshots).

Definition showNodes (chatID : Z) : T (option string) := showNodePanels chatID 0.

(** ** Search *)
Definition search_cancel : Keyboard := inline_keyboard [button_row "❌ Отмена" "nodes:root"].

Definition beginNodeSearch (cb : CallbackQuery) (msg : Message) : T (option string) :=
  nonce ← randomNonce;
  match nonce with
  | Err _ => renderNodeInventoryFailure (m_ChatID msg) (m_ID msg)
  | Ok nonce =>
    cancelExisting (cb_FromUserID cb) ≫= fun _ =>
    begin_session (cb_FromUserID cb) (m_ChatID msg) nonce stateAwaitingNodeSearch (set_statusMsgID (m_ID msg)) ≫= fun _ =>
    edit (m_ChatID msg) (m_ID msg) ("🔎 Поиск ноды" +:+ nl +:+ nl +:+ "Отправьте имя ноды или её IP-адрес.") search_cancel
  end.

Definition acceptNodeSearch (message : Message) (session : wizard) : T (option string) :=
  let query := TrimSpace (m_Text message) in
  if String.eqb query "" || (100 <? str_len query)
  then send (m_ChatID message) "Введите имя ноды или IP-адрес длиной до 100 символов." no_keyboard
  else
    nodes ← call ListNodes;
    match nodes with
    | None => renderNodeInventoryFailure (w_chatID session) (w_statusMsgID session)
    | Some nodes =>
      let matches := searchNodes nodes query in
      ignored (call (DeleteMessage (m_ChatID message) (m_ID message))) ≫= fun _ =>
      match matches with
      | [] =>
        edit (w_chatID session) (w_statusMsgID session)
          ("🔎 Поиск ноды" +:+ nl +:+ nl +:+ "По запросу «" +:+ safeLine query 100 +:+
           "» ничего не найдено. Отправьте другое имя или IP-адрес.") search_cancel
      | _ =>
        active ← take (m_FromUserID message) (w_nonce session) stateAwaitingNodeSearch;
        match active with
        | None => sendExpired (m_ChatID message)
        | Some active =>
          clear active ≫= fun _ =>
          let '(text, keyboard) := search_screen query matches in
          edit (w_chatID session) (w_statusMsgID session) text keyboard
        end
      end
    end.

(** ** Moving a Node to another Host *)
Definition renderNodeMoveFailure (msg : Message) (uuid : string) : T (option string) :=
  sendOrEdit (m_ChatID msg) (m_ID msg)
    "❌ Не удалось безопасно подготовить перенос. Нода, её профиль или список Host могли измениться; обновите карточку и повторите."
    (inline_keyboard [button_row "🔄 Обновить карточку" (data_open uuid)]).

Definition move_host_rows (nonce : string) (hosts : list Host) : list (list Button) :=
  indexed_rows "move:host" nonce (fun host => "➡️ " +:+ safeLine (h_Remark host) 42) hosts ++
  [button_row "❌ Отменить" (data_plain "move:cancel" nonce)].

Definition beginNodeHostMove (cb : CallbackQuery) (msg : Message) (uuid : string) : T (option string) :=
  if negb (NodeHostMoveApplication app) then renderNodeMoveFailure msg uuid else
  nodes ← call ListNodes;
  match nodes with
  | None => renderNodeMoveFailure msg uuid
  | Some nodes =>
    match find_first (fun node => String.eqb (n_UUID node) uuid) nodes with
    | None => renderNodeMoveFailure msg uuid
    | Some selected =>
      if String.eqb (n_UUID selected) "" || String.eqb (n_PanelID selected) "" then renderNodeMoveFailure msg uuid else
      prepared ← call (PrepareNodeHostMove (n_PanelID selected) uuid);
      match prepared with
      | None => renderNodeMoveFailure msg uuid
      | Some (target, hosts) =>
        if negb (String.eqb (mt_UUID target) uuid) then renderNodeMoveFailure msg uuid else
        match hosts with
        | [] =>
          sendOrEdit (m_ChatID msg) (m_ID msg)
            (renderNodeMoveTarget target +:+ nl +:+ nl +:+ "Нет другого активного Host с корректным профилем и inbound.")
            (inline_keyboard [button_row "⬅️ К карточке" (data_open uuid)])
        | _ =>
          nonce ← randomNonce;
          match nonce with
          | Err _ => renderNodeMoveFailure msg uuid
          | Ok nonce =>
            cancelExisting (cb_FromUserID cb) ≫= fun _ =>
            begin_session (cb_FromUserID cb) (m_ChatID msg) nonce stateSelectingNodeMoveHost
              (fun w => set_statusMsgID (m_ID msg) (set_nodeMoveTarget target
                (set_hosts_panel hosts (mkPanel (n_PanelID selected) (n_PanelName selected) false) w))) ≫= fun _ =>
            edit (m_ChatID msg) (m_ID msg)
              (renderNodeMoveTarget target +:+ nl +:+ nl +:+ "Выберите новый Host в этой же панели:")
              (inline_keyboard (move_host_rows nonce hosts))
          end
        end
      end
    end
  end.

(** ** Changing the address of a Node from its card *)
Definition serverProviderAvailable (provider : serverIPProvider) : bool :=
  match provider with
  | serverIPProviderCherry => CherryIPApplication app
  | serverIPProviderRoyal => RoyalIPApplication app
  | serverIPProviderNone => false
  end.

Definition resolveNodeCardIPTarget (uuid : string) : T (option (NodeSummary * NodeIPChangeTarget)) :=
  if negb (NodeIPApplication app) then mret None else
  nodes ← call ListNodes;
  match nodes with
  | None => mret None
  | Some nodes =>
    match find_first (fun node => String.eqb (n_UUID node) uuid) nodes with
    | None => mret None
    | Some node =>
      if String.eqb (n_PanelID node) "" || String.eqb (n_Name node) "" then mret None else
      target ← call (FindNodeForIPChange (n_PanelID node) (n_Name node));
      mret (match target with
            | Some target => if String.eqb (it_UUID target) uuid then Some (node, target) else None
            | None => None
            end)
    end
  end.

Definition renderNodeIPStartFailure (msg : Message) (uuid : string) : T (option string) :=
  sendOrEdit (m_ChatID msg) (m_ID msg)
    "Не удалось безопасно подготовить смену IP. Данные ноды могли измениться; обновите карточку и повторите."
    (inline_keyboard [button_row "🔄 Обновить карточку" (data_open uuid)]).

Definition with_panel_name (name : string) (t : NodeIPChangeTarget) : NodeIPChangeTarget :=
  mkNodeIPChangeTarget name (it_DNSEnabled t) (it_UUID t) (it_Name t) (it_Address t) (it_Connected t) (it_DNSZones t) (it_IsManaged t).

Definition ip_method_rows (uuid : string) : list (list Button) :=
  [button_row "Панель + DNS-балансировка" (data_ip_method "panel" uuid)] ++
  (if serverProviderAvailable serverIPProviderCherry then [button_row "Смена IP на Cherry (сервер)" (data_ip_method "cherry" uuid)] else []) ++
  (if serverProviderAvailable serverIPProviderRoyal then [button_row "Смена IP на Royal (сервер)" (data_ip_method "royal" uuid)] else []) ++
  [button_row "⬅️ К карточке" (data_open uuid)].

Definition showNodeIPOptions (msg : Message) (uuid : string) : T (option string) :=
  resolved ← resolveNodeCardIPTarget uuid;
  match resolved with
  | None => renderNodeIPStartFailure msg uuid
  | Some (selected, target) =>
    let target := if String.eqb (it_PanelName target) "" then with_panel_name (n_PanelName selected) target else target in
    sendOrEdit (m_ChatID msg) (m_ID msg)
      ("🔄 Смена IP выбранной ноды" +:+ nl +:+ renderIPChangeTarget target +:+ nl +:+ nl +:+
       "Выберите способ смены IP. Панель и нода уже определены автоматически.")
      (inline_keyboard (ip_method_rows uuid))
  end.

(** The end of both: the card is edited, and a conversation whose card could
    not be shown is taken back. *)
Definition show_or_take_back (cb : CallbackQuery) (msg : Message) (nonce : string) (state : wizardState) (text : string)
    (keyboard : Keyboard) : T (option string) :=
  err ← edit (m_ChatID msg) (m_ID msg) text keyboard;
  match err with
  | None => mret None
  | Some err =>
    active ← take (cb_FromUserID cb) nonce state;
    match active with
    | Some active => clear active ≫= fun _ => mret (Some err)
    | None => mret (Some err)
    end
  end.

Definition beginNodeCardPanelIPChange (cb : CallbackQuery) (msg : Message) (uuid : string) : T (option string) :=
  resolved ← resolveNodeCardIPTarget uuid;
  match resolved with
  | None => renderNodeIPStartFailure msg uuid
  | Some (selected, target) =>
    nonce ← randomNonce;
    match nonce with
    | Err _ => renderNodeIPStartFailure msg uuid
    | Ok nonce =>
      cancelExisting (cb_FromUserID cb) ≫= fun _ =>
      begin_session (cb_FromUserID cb) (m_ChatID msg) nonce stateAwaitingIPChangeConfirmation
        (fun w => set_statusMsgID (m_ID msg) (set_ipTarget target
          (set_panel (mkPanel (n_PanelID selected) (n_PanelName selected) false) w))) ≫= fun _ =>
      show_or_take_back cb msg nonce stateAwaitingIPChangeConfirmation (renderIPChangeTarget target) (ipChangeKeyboard nonce)
    end
  end.

Definition beginNodeCardServerIPChange (cb : CallbackQuery) (msg : Message) (uuid : string) (provider : serverIPProvider) : T (option string) :=
  if negb (serverProviderAvailable provider) then renderNodeIPStartFailure msg uuid else
  resolved ← resolveNodeCardIPTarget uuid;
  match resolved with
  | None => renderNodeIPStartFailure msg uuid
  | Some (selected, target) =>
    match parsePublicIPv4 (addr_string (it_Address target)) with
    | None =>
      sendOrEdit (m_ChatID msg) (m_ID msg) "Для смены IP на сервере нужен текущий публичный IPv4 ноды."
        (inline_keyboard [button_row "⬅️ К вариантам" (data_ip uuid)])
    | Some serverIP =>
      nonce ← randomNonce;
      match nonce with
      | Err _ => renderNodeIPStartFailure msg uuid
      | Ok nonce =>
        cancelExisting (cb_FromUserID cb) ≫= fun _ =>
        begin_session (cb_FromUserID cb) (m_ChatID msg) nonce stateAwaitingServerNewIP
          (fun w => set_serverUpdateNode true (set_serverCurrentIP serverIP (set_serverIPProvider provider
            (set_statusMsgID (m_ID msg) (set_ipTarget target
              (set_panel (mkPanel (n_PanelID selected) (n_PanelName selected) false) w)))))) ≫= fun _ =>
        show_or_take_back cb msg nonce stateAwaitingServerNewIP
          (renderIPChangeTarget target +:+ nl +:+ nl +:+ serverNewIPPrompt provider true) no_keyboard
      end
    end
  end.

Definition handle_nodes_callback (cb : CallbackQuery) (msg : Message) (action : nodesCallback) : T (option string) :=
  let chat := m_ChatID msg in
  match action with
  | NodesRoot => cancelExisting (cb_FromUserID cb) ≫= fun _ => showNodePanels chat (m_ID msg)
  | NodesSearch => beginNodeSearch cb msg
  | NodesPanel panelIndex => showNodePanel chat (m_ID msg) panelIndex
  | NodesGroup panelIndex group page => showNodeGroup chat (m_ID msg) panelIndex group page
  | NodesOpen uuid => showNodeCard chat (m_ID msg) uuid
  | NodesChangeIP uuid => showNodeIPOptions msg uuid
  | NodesChangeIPPanel uuid => beginNodeCardPanelIPChange cb msg uuid
  | NodesChangeIPCherry uuid => beginNodeCardServerIPChange cb msg uuid serverIPProviderCherry
  | NodesChangeIPRoyal uuid => beginNodeCardServerIPChange cb msg uuid serverIPProviderRoyal
  | NodesMoveHost uuid => beginNodeHostMove cb msg uuid
  end.

(** ** Adding a Node *)
Definition selectable (host : Host) : bool :=
  negb (String.eqb (TrimSpace (h_ID host)) "" || String.eqb (TrimSpace (h_Remark host)) "" || String.eqb (TrimSpace (h_Address host)) "").

Definition showHostPicker (userID chatID : Z) (nonce : string) (panel : Panel) : T (option string) :=
  hosts ← call (ListHosts (p_ID panel));
  match hosts with
  | None => send chatID "Hosts are temporarily unavailable. Try again later." mainKeyboard
  | Some hosts =>
    match List.filter selectable hosts with
    | [] => send chatID "No deployable Hosts are available." mainKeyboard
    | _ as selectable =>
      begin_session userID chatID nonce stateSelectingHost (set_hosts_panel selectable panel) ≫= fun _ =>
      send chatID ("Панель: " +:+ safeLine (p_Name panel) 80 +:+ nl +:+ "Выберите Remnawave Host:")
        (inline_keyboard (indexed_rows "add:host" nonce (fun host => safeLine (h_Remark host) 48) selectable))
    end
  end.

Definition beginAddNode (message : Message) : T (option string) :=
  cancelExisting (m_FromUserID message) ≫= fun _ =>
  panels ← call ListPanels;
  match panels with
  | None => send (m_ChatID message) "Панели временно недоступны." mainKeyboard
  | Some [] => send (m_ChatID message) "Нет доступных панелей." mainKeyboard
  | Some panels =>
    nonce ← randomNonce;
    match nonce, panels with
    | Err _, _ =>
      sendErr ← send (m_ChatID message) "Could not start the wizard. Try again." mainKeyboard;
      mret (join_errors "generate Telegram wizard nonce" sendErr)
    | Ok nonce, [panel] => showHostPicker (m_FromUserID message) (m_ChatID message) nonce panel
    | Ok nonce, _ =>
      begin_session (m_FromUserID message) (m_ChatID message) nonce stateSelectingPanel (set_panels panels) ≫= fun _ =>
      send (m_ChatID message) "Выберите Remnawave-панель:" (inline_keyboard (panel_rows "add:panel" nonce panels))
    end
  end.

Definition acceptNodeName (message : Message) (session : wizard) : T (option string) :=
  let name := TrimSpace (m_Text message) in
  if negb (validNodeName name)
  then send (m_ChatID message) "Invalid Node name. Use 3–30 printable characters." no_keyboard
  else
    checked ← call (CheckNodeName (p_ID (w_panel session)) name);
    match checked with
    | CheckDuplicate => send (m_ChatID message) "A Node with that name already exists. Enter another name." no_keyboard
    | CheckFailed => send (m_ChatID message) "Node name could not be checked. Try again." no_keyboard
    | CheckOk =>
      ok ← update (m_FromUserID message) (w_nonce session) stateAwaitingName
        (fun current => set_state stateAwaitingIP (set_nodeName name current));
      if negb (ok : bool) then sendExpired (m_ChatID message)
      else send (m_ChatID message) "Enter the public VPS IP address." no_keyboard
    end.

Definition acceptVPSIP (message : Message) (session : wizard) : T (option string) :=
  match parsePublicIP (m_Text message) with
  | None => send (m_ChatID message) "Invalid VPS address. Enter a publicly routable IPv4 or IPv6 address." no_keyboard
  | Some address =>
    checked ← call (CheckVPSAddress (p_ID (w_panel session)) address);
    match checked with
    | CheckDuplicate => send (m_ChatID message) "A Node with that VPS address already exists. Enter another address." no_keyboard
    | CheckFailed => send (m_ChatID message) "VPS address could not be checked. Try again." no_keyboard
    | CheckOk =>
      ok ← update (m_FromUserID message) (w_nonce session) stateAwaitingIP
        (fun current => set_state stateAwaitingPassword (set_vpsIP address current));
      if negb (ok : bool) then sendExpired (m_ChatID message)
      else send (m_ChatID message) "Send the temporary root password. The message will be deleted immediately when possible." no_keyboard
    end
  end.

(** [clearBytes] of a local buffer. *)
Definition clearBytes (b : buf) : T unit := call (ClearBuffer (Some b)).

(** The beginning of the three password handlers: the message is deleted, and
    a password that is empty or too long is refused. *)
Definition bad_password (text : string) : bool := (str_len text =? 0) || (maxPasswordBytes <? str_len text).

Definition normalized_preflight (result : PreflightResult) : PreflightResult :=
  let valid v := if validReadiness v then v else ReadinessUnknown in
  mkPreflightResult (TrimSpace (pr_PreparedDeploymentID result)) (pr_DNSZone result)
    (valid (pr_CertificateReadiness result)) (valid (pr_ConfigProfileReadiness result)) (pr_Warnings result).

(** The end of [acceptPassword]: the confirmation card. *)
Definition show_confirmation (message : Message) (preparedID : string) : T (option string) :=
  loaded ← load (m_FromUserID message);
  match fst loaded with
  | None => panic_with NilDereference
  | Some current =>
    sent ← call (SendMessage (m_ChatID message) (renderConfirmation current) (confirmationKeyboard (w_nonce current)));
    match sent with
    | Err sendErr =>
      removed ← take (m_FromUserID message) (w_nonce current) stateAwaitingConfirmation;
      match removed with Some removed => clear removed | None => mret tt end ≫= fun _ =>
      cancel_ preparedID ≫= fun _ =>
      mret (Some sendErr)
    | Ok sentID =>
      ok ← update (m_FromUserID message) (w_nonce current) stateAwaitingConfirmation (set_statusMsgID sentID);
      if negb (ok : bool) then
        cancel_ preparedID ≫= fun _ =>
        edit_ (m_ChatID message) sentID "This confirmation expired before it could be activated. Start again." no_keyboard ≫= fun _ =>
        mret None
      else mret None
    end
  end.

(** The middle of [acceptPassword]: the preflight with a copy of the password. *)
Definition run_preflight (message : Message) : T (option string) :=
  loaded ← load (m_FromUserID message);
  match loaded with
  | (Some current, false) =>
    if negb (bool_decide (w_state current = statePreflighting)) then sendExpired (m_ChatID message) else
    requestPassword ← copy_password (m_FromUserID message) (w_nonce current) statePreflighting;
    match requestPassword with
    | None => sendExpired (m_ChatID message)
    | Some requestPassword =>
      '(result, failed) ← call (Preflight (mkPreflightInput (p_ID (w_panel current)) (w_userID current) (h_ID (w_selected current))
        (w_nodeName current) (w_vpsIP current) (Some requestPassword)));
      clearBytes requestPassword ≫= fun _ =>
      let preparedID := TrimSpace (pr_PreparedDeploymentID result) in
      if (failed : bool) || String.eqb (TrimSpace preparedID) "" then
        (if negb (String.eqb (TrimSpace preparedID) "") then cancel_ preparedID else mret tt) ≫= fun _ =>
        removed ← take (m_FromUserID message) (w_nonce current) statePreflighting;
        match removed with Some removed => clear removed | None => mret tt end ≫= fun _ =>
        send (m_ChatID message) "VPS preflight failed. Review the VPS details and start again." mainKeyboard
      else
        ok ← update (m_FromUserID message) (w_nonce current) statePreflighting
          (fun active => set_state stateAwaitingConfirmation (set_preflight (normalized_preflight result) active));
        if negb (ok : bool) then cancel_ preparedID ≫= fun _ => sendExpired (m_ChatID message)
        else show_confirmation message preparedID
    end
  | _ => sendExpired (m_ChatID message)
  end.

Definition acceptPassword (message : Message) (session : wizard) : T (option string) :=
  password ← call (NewBuffer (m_Text message));
  ignored (call (DeleteMessage (m_ChatID message) (m_ID message))) ≫= fun _ =>
  if bad_password (m_Text message) then
    clearBytes password ≫= fun _ =>
    send (m_ChatID message) "The password is empty or too long. Send it again." no_keyboard
  else
    ok ← call (StorePassword (m_FromUserID message) (w_nonce session) stateAwaitingPassword password statePreflighting) ≫= updated;
    clearBytes password ≫= fun _ =>
    if negb (ok : bool) then sendExpired (m_ChatID message) else run_preflight message.

Definition startDeployment (cb : CallbackQuery) (msg : Message) (session : wizard) : T (option string) :=
  if negb (bool_decide (w_state session = stateAwaitingConfirmation)) || (w_statusMsgID session =? 0) || negb (m_ID msg =? w_statusMsgID session)
  then expiredCallback cb msg else
  active ← take (cb_FromUserID cb) (w_nonce session) stateAwaitingConfirmation;
  match active with
  | None => expiredCallback cb msg
  | Some active =>
    let active := set_state stateDeploying active in
    let progressView := newDeploymentProgressView (pr_Warnings (w_preflight active)) in
    err ← edit (w_chatID active) (w_statusMsgID active) (View_Render progressView) no_keyboard;
    match err with
    | Some err =>
      clear active ≫= fun _ =>
      cancel_ (prepared_id active) ≫= fun _ =>
      mret (Some err)
    | None => start (DeploymentWorker active progressView) ≫= fun _ => mret None
    end
  end.

Definition cancelFromMessage (message : Message) : T (option string) :=
  loaded ← load (m_FromUserID message);
  match fst loaded with
  | None => mret tt
  | Some session =>
    removed ← take (m_FromUserID message) (w_nonce session) (w_state session);
    match removed with
    | None => mret tt
    | Some removed =>
      clear removed ≫= fun _ =>
      if String.eqb (prepared_id removed) "" then mret tt else cancel_ (prepared_id removed)
    end
  end ≫= fun _ =>
  send (m_ChatID message) "Conversation cancelled." mainKeyboard.

Definition cancelFromCallback (cb : CallbackQuery) (msg : Message) (session : wizard) : T (option string) :=
  if negb (bool_decide (w_state session = stateAwaitingConfirmation)) || negb (w_statusMsgID session =? m_ID msg)
  then expiredCallback cb msg else
  removed ← take (cb_FromUserID cb) (w_nonce session) stateAwaitingConfirmation;
  match removed with
  | None => expiredCallback cb msg
  | Some removed =>
    clear removed ≫= fun _ =>
    (if String.eqb (prepared_id removed) "" then mret tt else cancel_ (prepared_id removed)) ≫= fun _ =>
    edit (m_ChatID msg) (m_ID msg) "❌ Deployment cancelled." no_keyboard
  end.

(** ** Changing an address *)
Definition beginIPChange (message : Message) : T (option string) :=
  cancelExisting (m_FromUserID message) ≫= fun _ =>
  if negb (NodeIPApplication app) && negb (CherryIPApplication app) && negb (RoyalIPApplication app) && negb (NodeDNSSyncApplication app)
  then send (m_ChatID message) "Смена IP сейчас недоступна." mainKeyboard
  else
    nonce ← randomNonce;
    match nonce with
    | Err err =>
      sendErr ← send (m_ChatID message) "Не удалось начать смену IP. Повторите позже." mainKeyboard;
      mret (join_errors err sendErr)
    | Ok nonce =>
      begin_session (m_FromUserID message) (m_ChatID message) nonce stateSelectingIPMode (fun w => w) ≫= fun _ =>
      send (m_ChatID message) "Что именно нужно изменить?" (inline_keyboard (ip_mode_rows app nonce))
    end.

Definition ask_node := "Введите точное имя ноды или её текущий IP-адрес.".

(** The choice of a panel: one panel is taken at once, several are offered. *)
Definition choose_panel (cb : CallbackQuery) (msg : Message) (session : wizard) (state : wizardState) (panels : list Panel)
    (one : Panel -> wizard -> wizard) (many : wizard -> wizard) (prefix ask offer : string) : T (option string) :=
  match panels with
  | [panel] =>
    ok ← update (cb_FromUserID cb) (w_nonce session) state (one panel);
    if negb (ok : bool) then expiredCallback cb msg else edit (w_chatID session) (m_ID msg) ask no_keyboard
  | _ =>
    ok ← update (cb_FromUserID cb) (w_nonce session) state many;
    if negb (ok : bool) then expiredCallback cb msg
    else edit (w_chatID session) (m_ID msg) offer (inline_keyboard (panel_rows prefix (w_nonce session) panels))
  end.

Definition beginDNSSync (cb : CallbackQuery) (msg : Message) (session : wizard) : T (option string) :=
  if negb (NodeDNSSyncApplication app) then expiredCallback cb msg else
  panels ← call ListPanels;
  match panels with
  | None => edit (w_chatID session) (m_ID msg) "Панели временно недоступны." no_keyboard
  | Some panels =>
    match List.filter p_DNSEnabled panels with
    | [] => edit (w_chatID session) (m_ID msg) "DNS-балансировка отключена для всех панелей." no_keyboard
    | _ as enabled =>
      choose_panel cb msg session stateSelectingIPMode enabled
        (fun panel current => set_state stateAwaitingDNSSyncQuery (set_panel panel current))
        (fun current => set_state stateSelectingDNSSyncPanel (set_panels enabled current))
        "dns:panel" "Введите точное имя ноды или её актуальный IP из Remnawave." "Выберите панель, из которой взять титульный IP:"
    end
  end.

Definition beginServerIPScope (cb : CallbackQuery) (msg : Message) (session : wizard) (provider : serverIPProvider) : T (option string) :=
  if negb (serverProviderAvailable provider) then expiredCallback cb msg else
  ok ← update (cb_FromUserID cb) (w_nonce session) stateSelectingIPMode
    (fun current => set_state stateSelectingServerIPScope (set_serverIPProvider provider current));
  if negb (ok : bool) then expiredCallback cb msg
  else edit (w_chatID session) (m_ID msg) "Добавлена ли эта нода в Remnawave?" (inline_keyboard (server_scope_rows (w_nonce session))).

Definition beginPanelIPChange (cb : CallbackQuery) (msg : Message) (session : wizard) : T (option string) :=
  if negb (NodeIPApplication app) then expiredCallback cb msg else
  panels ← call ListPanels;
  match panels with
  | None | Some [] => edit (w_chatID session) (m_ID msg) "Панели временно недоступны." no_keyboard
  | Some panels =>
    choose_panel cb msg session stateSelectingIPMode panels
      (fun panel current => set_state stateAwaitingIPChangeQuery (set_panel panel current))
      (fun current => set_state stateSelectingIPPanel (set_panels panels current))
      "ip:panel" ask_node "Выберите Remnawave-панель:"
  end.

Definition beginServerNodeIPChange (cb : CallbackQuery) (msg : Message) (session : wizard) : T (option string) :=
  if negb (NodeIPApplication app) then
    edit (w_chatID session) (m_ID msg) "Поиск нод Remnawave сейчас недоступен. Укажите IP сервера вручную."
      (inline_keyboard [button_row "Нода ещё не добавлена" (data_indexed "ip:scope" (w_nonce session) 1)])
  else
  panels ← call ListPanels;
  match panels with
  | None | Some [] => edit (w_chatID session) (m_ID msg) "Панели временно недоступны." no_keyboard
  | Some panels =>
    choose_panel cb msg session stateSelectingServerIPScope panels
      (fun panel current => set_state stateAwaitingServerIPNodeQuery (set_serverUpdateNode true (set_panel panel current)))
      (fun current => set_state stateSelectingServerIPPanel (set_serverUpdateNode true (set_panels panels current)))
      "ip:spanel" ask_node "Выберите Remnawave-панель:"
  end.

(** A preview of the target, and the identifier of its card. *)
Definition preview (message : Message) (session : wizard) (state : wizardState) (text : string) (keyboard : Keyboard) : T (option string) :=
  sent ← call (SendMessage (m_ChatID message) text keyboard);
  match sent with
  | Err err => mret (Some err)
  | Ok sentID =>
    ok ← update (m_FromUserID message) (w_nonce session) state (set_statusMsgID sentID);
    if negb (ok : bool) then sendExpired (m_ChatID message) else mret None
  end.

Definition node_not_found := "Нода не найдена или запрос неоднозначен. Проверьте имя/IP и повторите.".

Definition acceptIPChangeQuery (message : Message) (session : wizard) : T (option string) :=
  if NodeIPApplication app then (
    target ← call (FindNodeForIPChange (p_ID (w_panel session)) (TrimSpace (m_Text message)));
    match target with
    | None => send (m_ChatID message) node_not_found no_keyboard
    | Some target =>
      ok ← update (m_FromUserID message) (w_nonce session) stateAwaitingIPChangeQuery
        (fun current => set_state stateAwaitingIPChangeConfirmation (set_ipTarget target current));
      if negb (ok : bool) then sendExpired (m_ChatID message)
      else preview message session stateAwaitingIPChangeConfirmation (renderIPChangeTarget target) (ipChangeKeyboard (w_nonce session))
    end) else panic.

Definition acceptNewNodeIP (message : Message) (session : wizard) : T (option string) :=
  match parsePublicIP (m_Text message) with
  | None => send (m_ChatID message) "Неверный IP. Введите публичный IPv4 или IPv6." no_keyboard
  | Some newIP =>
    active ← take (m_FromUserID message) (w_nonce session) stateAwaitingNewIP;
    match active with
    | None => sendExpired (m_ChatID message)
    | Some active =>
      finally
        (if NodeIPApplication app then (
          result ← call (ReplaceNodeIP (change_input active newIP));
          match result with
          | None => send (m_ChatID message) "Не удалось безопасно сменить IP. Данные ноды могли измениться; запустите смену IP заново." mainKeyboard
          | Some result => send (m_ChatID message) ("✅ " +:+ safeLine result 400) mainKeyboard
          end) else panic)
        (clear active)
    end
  end.

Definition acceptDNSSyncQuery (message : Message) (session : wizard) : T (option string) :=
  if NodeDNSSyncApplication app then (
    target ← call (FindNodeForDNSSync (p_ID (w_panel session)) (TrimSpace (m_Text message)));
    match target with
    | None => send (m_ChatID message) "Не удалось проверить ноду и DNS. Проверьте точное имя/IP и доступность DNS-балансировки." no_keyboard
    | Some target =>
      ok ← update (m_FromUserID message) (w_nonce session) stateAwaitingDNSSyncQuery
        (fun current => set_state stateAwaitingDNSSyncConfirmation (set_dnsSyncTarget target current));
      if negb (ok : bool) then sendExpired (m_ChatID message)
      else preview message session stateAwaitingDNSSyncConfirmation (renderDNSSyncTarget target) (dnsSyncKeyboard (w_nonce session) (st_CanSync target))
    end) else panic.

Definition acceptServerCurrentIP (message : Message) (session : wizard) : T (option string) :=
  match parsePublicIPv4 (m_Text message) with
  | None =>
    send (m_ChatID message) ("Неверный адрес. Введите текущий публичный IPv4 сервера " +:+ serverProviderName (w_serverIPProvider session) +:+ ".") no_keyboard
  | Some address =>
    ok ← update (m_FromUserID message) (w_nonce session) stateAwaitingServerCurrentIP
      (fun current => set_state stateAwaitingServerNewIP (set_serverCurrentIP address current));
    if negb (ok : bool) then sendExpired (m_ChatID message)
    else send (m_ChatID message) (serverNewIPPrompt (w_serverIPProvider session) false) no_keyboard
  end.

Definition acceptServerIPNodeQuery (message : Message) (session : wizard) : T (option string) :=
  if NodeIPApplication app then (
    target ← call (FindNodeForIPChange (p_ID (w_panel session)) (TrimSpace (m_Text message)));
    match target with
    | None => send (m_ChatID message) node_not_found no_keyboard
    | Some target =>
      let serverIP := Unmap (it_Address target) in
      if negb (IsValid serverIP) || negb (Is4 serverIP) then
        send (m_ChatID message) ("Для " +:+ serverProviderName (w_serverIPProvider session) +:+ " нужен текущий публичный IPv4 ноды.") no_keyboard
      else
        ok ← update (m_FromUserID message) (w_nonce session) stateAwaitingServerIPNodeQuery
          (fun current => set_state stateAwaitingServerNewIP (set_serverUpdateNode true (set_serverCurrentIP serverIP (set_ipTarget target current))));
        if negb (ok : bool) then sendExpired (m_ChatID message)
        else send (m_ChatID message) (renderIPChangeTarget target +:+ nl +:+ nl +:+ serverNewIPPrompt (w_serverIPProvider session) true) no_keyboard
    end) else panic.

Definition acceptServerNewIP (message : Message) (session : wizard) : T (option string) :=
  let refuse := send (m_ChatID message)
    "Неверный новый IP. Он должен быть публичным IPv4 и отличаться от текущего адреса сервера." no_keyboard in
  match parsePublicIPv4 (m_Text message) with
  | None => refuse
  | Some address =>
    if bool_decide (address = w_serverCurrentIP session) then refuse else
    ok ← update (m_FromUserID message) (w_nonce session) stateAwaitingServerNewIP
      (fun current => set_state stateAwaitingServerIPPassword (set_serverNewIP address current));
    if negb (ok : bool) then sendExpired (m_ChatID message)
    else send (m_ChatID message) "Отправьте временный root-пароль. Сообщение будет сразу удалено; пароль не сохраняется." no_keyboard
  end.

(** [acceptServerIPPassword] and [acceptNodeMovePassword] up to the goroutine:
    the session is taken and carries a copy of the password, and its status
    message was sent. *)
Definition take_with_password (message : Message) (session : wizard) (state : wizardState) (status : wizard -> string)
    (work : wizard -> Z -> worker) : T (option string) :=
  password ← call (NewBuffer (m_Text message));
  ignored (call (DeleteMessage (m_ChatID message) (m_ID message))) ≫= fun _ =>
  if bad_password (m_Text message) then
    clearBytes password ≫= fun _ =>
    send (m_ChatID message) "Пароль пустой или слишком длинный. Отправьте его ещё раз." no_keyboard
  else
    active ← take (m_FromUserID message) (w_nonce session) state;
    match active with
    | None => clearBytes password ≫= fun _ => sendExpired (m_ChatID message)
    | Some active =>
      copy ← call (AppendBuffer (w_password active) password);
      let active := set_password copy active in
      clearBytes password ≫= fun _ =>
      sent ← call (SendMessage (m_ChatID message) (status active) no_keyboard);
      match sent with
      | Err err => clear active ≫= fun _ => mret (Some err)
      | Ok statusID => start (work active statusID) ≫= fun _ => mret None
      end
    end.

Definition acceptServerIPPassword (message : Message) (session : wizard) : T (option string) :=
  take_with_password message session stateAwaitingServerIPPassword
    (fun active => serverStatusText (w_serverIPProvider active) +:+
      (if w_serverUpdateNode active then " После этого обновлю ноду и DNS." else ""))
    ServerIPWorker.

Definition acceptNodeMovePassword (message : Message) (session : wizard) : T (option string) :=
  take_with_password message session stateAwaitingNodeMovePassword
    (fun _ => "⏳ Получаю сертификат нового SNI, обновляю xray-sni на сервере и затем профиль ноды в Remnawave…")
    NodeMoveWorker.

(** ** Messages *)
Definition recovery_unavailable (chatID : Z) : T (option string) := send chatID "Recovery actions are unavailable." mainKeyboard.

Definition bootstrap_command (message : Message) (text : string) : T (option string) :=
  match Fields text with
  | [_; sni; confirm] =>
    if negb (EqualFold confirm "CONFIRM")
    then send (m_ChatID message) "Usage: /bootstrap_certificate <sni-domain> CONFIRM" mainKeyboard
    else if negb (RecoveryApplication app) then recovery_unavailable (m_ChatID message)
    else
      '(result, failed) ← call (BootstrapCertificate sni (m_FromUserID message));
      if (failed : bool) then
        let detail := safeLine result 300 in
        send (m_ChatID message) ("Certificate bootstrap could not be completed safely." +:+
          (if String.eqb detail "" then "" else " " +:+ detail)) mainKeyboard
      else send (m_ChatID message) (safeLine result 500) mainKeyboard
  | _ => send (m_ChatID message) "Usage: /bootstrap_certificate <sni-domain> CONFIRM" mainKeyboard
  end.

Definition is_command (text candidate : string) : bool := String.eqb text candidate || HasPrefix text (candidate +:+ " ").
Definition recovery_commands : list string := ["/retry_step"; "/retry_dns"; "/recheck"; "/logs"; "/cancel_deployment"].

Definition recovery_command (message : Message) (command deploymentID : string) : T (option string) :=
  let chat := m_ChatID message in
  if negb (validDeploymentID deploymentID) then send chat "Provide a valid deployment UUID." mainKeyboard
  else if String.eqb command "/cancel_deployment" then
    failed ← call (CancelDeployment deploymentID);
    sendActionResult chat failed "Deployment cancelled."
  else if negb (RecoveryApplication app) then recovery_unavailable chat
  else if String.eqb command "/retry_step" then
    failed ← call (RetryFailedStep deploymentID);
    sendActionResult chat failed "Failed step retry completed."
  else if String.eqb command "/retry_dns" then
    failed ← call (RetryDNS deploymentID);
    sendActionResult chat failed "DNS retry completed."
  else if String.eqb command "/recheck" then
    result ← call (RecheckRemnawave deploymentID);
    match result with
    | None => sendActionResult chat true ""
    | Some result => send chat (safeLine result 300) mainKeyboard
    end
  else
    entries ← call (ViewSafeLogs deploymentID);
    match entries with
    | None => sendActionResult chat true ""
    | Some entries =>
      details ← call (GetDeploymentDetails deploymentID);
      match details with
      | None => sendActionResult chat true ""
      | Some details => send chat (renderDeploymentLogs details entries) mainKeyboard
      end
    end.

(** The command a text is, as a program; [None] when it is none. *)
Definition handleRecoveryCommand (message : Message) (text : string) : option (T (option string)) :=
  if is_command text "/bootstrap_certificate" then Some (bootstrap_command message text)
  else match find_first (is_command text) recovery_commands with
  | Some command => Some (recovery_command message command (TrimSpace (TrimPrefix text command)))
  | None => None
  end.

(** The switch on the state of the conversation. *)
Definition handle_conversation (message : Message) (session : wizard) : T (option string) :=
  let say text := send (m_ChatID message) text no_keyboard in
  match w_state session with
  | stateSelectingPanel | stateSelectingIPPanel | stateSelectingServerIPPanel | stateSelectingDNSSyncPanel => say "Выберите панель кнопкой."
  | stateSelectingIPMode | stateSelectingServerIPScope => say "Выберите вариант смены IP кнопкой."
  | stateSelectingHost => say "Select a Host using the inline buttons."
  | stateAwaitingName => acceptNodeName message session
  | stateAwaitingIP => acceptVPSIP message session
  | stateAwaitingPassword => acceptPassword message session
  | statePreflighting => say "Preflight is already running."
  | stateAwaitingConfirmation => say "Use Deploy or Cancel on the confirmation message."
  | stateAwaitingIPChangeQuery => acceptIPChangeQuery message session
  | stateAwaitingIPChangeConfirmation => say "Используйте кнопки «Сменить» или «Отменить» под карточкой ноды."
  | stateAwaitingNewIP => acceptNewNodeIP message session
  | stateAwaitingServerIPNodeQuery => acceptServerIPNodeQuery message session
  | stateAwaitingServerCurrentIP => acceptServerCurrentIP message session
  | stateAwaitingServerNewIP => acceptServerNewIP message session
  | stateAwaitingServerIPPassword => acceptServerIPPassword message session
  | stateAwaitingDNSSyncQuery => acceptDNSSyncQuery message session
  | stateAwaitingDNSSyncConfirmation => say "Подтвердите синхронизацию кнопкой под карточкой."
  | stateDNSSyncRunning => say "⏳ Синхронизация DNS уже выполняется."
  | stateDNSSyncCompleted => deliverDNSSyncResult (w_chatID session) (w_statusMsgID session) (w_dnsSyncResult session)
  | stateSelectingNodeMoveHost | stateAwaitingNodeMoveConfirmation => say "Выберите Host или подтвердите перенос кнопкой под карточкой."
  | stateAwaitingNodeMovePassword => acceptNodeMovePassword message session
  | stateAwaitingNodeSearch => acceptNodeSearch message session
  | stateDeploying => sendExpired (m_ChatID message)
  end.

Definition handleMessage (message : Message) : T (option string) :=
  let chat := m_ChatID message in
  if (m_FromUserID message <=? 0) || (chat =? 0) then mret None
  else if negb (authorized (m_FromUserID message)) then send chat "Access denied." no_keyboard
  else
    let text := TrimSpace (m_Text message) in
    match handleRecoveryCommand message text with
    | Some command => command
    | None =>
      if one_of text ["/start"; "/menu"] then cancelExisting (m_FromUserID message) ≫= fun _ => showMainMenu chat
      else if String.eqb text "/cancel" then cancelFromMessage message
      else if one_of text [MenuAddNode; legacyMenuAddNode] then beginAddNode message
      else if one_of text [MenuNodes; legacyMenuNodes] then cancelExisting (m_FromUserID message) ≫= fun _ => showNodes chat
      else if one_of text [MenuDeployments; legacyMenuDeploys] then cancelExisting (m_FromUserID message) ≫= fun _ => showDeployments chat
      else if String.eqb text MenuChangeIP then beginIPChange message
      else
        loaded ← load (m_FromUserID message);
        match loaded with
        | (_, true) => sendExpired chat
        | (Some session, false) =>
          if negb (w_chatID session =? chat)
          then send chat "No active conversation. Choose an action from the menu." mainKeyboard
          else handle_conversation message session
        | (None, false) => send chat "No active conversation. Choose an action from the menu." mainKeyboard
        end
    end.

(** ** Buttons *)
Definition handleDeploymentCallback (cb : CallbackQuery) (msg : Message) (action deploymentID : string) : T (option string) :=
  if negb (RecoveryApplication app) then call (AnswerCallback (cb_ID cb) "Действия восстановления недоступны.")
  else
    answer_ (cb_ID cb) "" ≫= fun _ =>
    let card notice := showDeploymentCard (m_ChatID msg) (m_ID msg) deploymentID notice in
    if String.eqb action "open" then card ""
    else
      details ← call (GetDeploymentDetails deploymentID);
      match details with
      | None => edit (m_ChatID msg) (m_ID msg) "Развёртывание больше недоступно." no_keyboard
      | Some details =>
        if String.eqb action "logs" then
          entries ← call (ViewSafeLogs deploymentID);
          match entries with
          | None => card "❌ Логи временно недоступны."
          | Some entries => edit (m_ChatID msg) (m_ID msg) (renderDeploymentLogs details entries) (deploymentLogsKeyboard deploymentID)
          end
        else if one_of action ["retry"; "dns"; "recheck"; "repair_cert"; "cancel"] then
          if String.eqb action "repair_cert" && (negb (dd_CanRepairCert details) || String.eqb (TrimSpace (dd_SNI details)) "")
          then card "❌ Исправление сертификата неприменимо к текущему состоянию."
          else
            err ← edit (m_ChatID msg) (m_ID msg) "⏳ Выполняю безопасное восстановление…" no_keyboard;
            match err with
            | Some err => mret (Some err)
            | None =>
              start (ActionWorker (m_ChatID msg) (m_ID msg) (cb_FromUserID cb) action deploymentID details) ≫= fun _ => mret None
            end
        else expiredCallback cb msg
      end.

(** [session.panels[index]] and [session.hosts[index]] behind their tests. *)
Definition choose_from {A} (cb : CallbackQuery) (msg : Message) (session : wizard) (state : wizardState) (l : list A) (index : Z)
    (k : A -> T (option string)) : T (option string) :=
  if negb (bool_decide (w_state session = state)) then expiredCallback cb msg
  else match at_index l index with Some x => k x | None => expiredCallback cb msg end.

(** [if !c.updateSession(...) { return c.expiredCallback(...) }]. *)
Definition update_or_expired (cb : CallbackQuery) (msg : Message) (session : wizard) (state : wizardState) (f : wizard -> wizard)
    (k : T (option string)) : T (option string) :=
  ok ← update (cb_FromUserID cb) (w_nonce session) state f;
  if negb (ok : bool) then expiredCallback cb msg else k.

(** A cancel button: the session is taken and cleared. *)
Definition take_or_expired (cb : CallbackQuery) (msg : Message) (session : wizard) (state : wizardState) (k : T (option string)) : T (option string) :=
  removed ← take (cb_FromUserID cb) (w_nonce session) state;
  match removed with
  | None => expiredCallback cb msg
  | Some removed => clear removed ≫= fun _ => k
  end.

Definition confirm_dns_sync (cb : CallbackQuery) (msg : Message) (session : wizard) : T (option string) :=
  let deliver text := deliverDNSSyncResult (w_chatID session) (w_statusMsgID session) text in
  if negb (w_statusMsgID session =? m_ID msg) || negb (st_CanSync (w_dnsSyncTarget session)) then expiredCallback cb msg
  else if bool_decide (w_state session = stateDNSSyncCompleted) then deliver (w_dnsSyncResult session)
  else if bool_decide (w_state session = stateDNSSyncRunning) then send (w_chatID session) "⏳ Синхронизация DNS уже выполняется." no_keyboard
  else if negb (bool_decide (w_state session = stateAwaitingDNSSyncConfirmation)) then expiredCallback cb msg
  else update_or_expired cb msg session stateAwaitingDNSSyncConfirmation (set_state stateDNSSyncRunning) (
    ignored (deliver "⏳ Синхронизирую DNS с актуальным IP из Remnawave…") ≫= fun _ =>
    if NodeDNSSyncApplication app then (
      result ← call (SyncNodeDNS (mkNodeDNSSyncInput (p_ID (w_panel session)) (st_UUID (w_dnsSyncTarget session)) (st_Address (w_dnsSyncTarget session))));
      let text :=
        match result with
        | Some result => renderDNSSyncResult result
        | None => "❌ Не удалось безопасно синхронизировать DNS. IP ноды в Remnawave не изменялся; запустите проверку заново."
        end in
      ok ← update (cb_FromUserID cb) (w_nonce session) stateDNSSyncRunning
        (fun current => set_dnsSyncResult text (set_state stateDNSSyncCompleted current));
      if negb (ok : bool) then deliver text else deliver text) else panic).

Definition move_confirm_keyboard (nonce : string) : Keyboard :=
  inline_keyboard [[mkButton "✅ Переместить" (data_plain "move:apply" nonce); mkButton "❌ Отменить" (data_plain "move:cancel" nonce)]].

(** The switch on the action of a conversation's button. *)
Definition handle_action (cb : CallbackQuery) (msg : Message) (session : wizard) (action : string) (index : Z) : T (option string) :=
  let here text keyboard := edit (w_chatID session) (m_ID msg) text keyboard in
  let card text keyboard := edit (w_chatID session) (w_statusMsgID session) text keyboard in
  let expired := expiredCallback cb msg in
  let in_state state := bool_decide (w_state session = state) in
  let on_card := w_statusMsgID session =? m_ID msg in
  let update_then := update_or_expired cb msg session in
  if String.eqb action "ip_mode" then
    if negb (in_state stateSelectingIPMode) then expired
    else if index =? 0 then beginPanelIPChange cb msg session
    else if index =? 1 then beginServerIPScope cb msg session serverIPProviderCherry
    else if index =? 2 then beginServerIPScope cb msg session serverIPProviderRoyal
    else if index =? 3 then beginDNSSync cb msg session
    else expired
  else if String.eqb action "server_scope" then
    if negb (in_state stateSelectingServerIPScope) then expired
    else if index =? 0 then beginServerNodeIPChange cb msg session
    else if index =? 1 then
      update_then stateSelectingServerIPScope (fun current => set_state stateAwaitingServerCurrentIP (set_serverUpdateNode false current))
        (here ("Введите текущий основной IPv4 сервера " +:+ serverProviderName (w_serverIPProvider session) +:+
          ", по которому бот подключится по SSH.") no_keyboard)
    else expired
  else if String.eqb action "server_panel" then
    choose_from cb msg session stateSelectingServerIPPanel (w_panels session) index (fun panel =>
      update_then stateSelectingServerIPPanel (fun current => set_state stateAwaitingServerIPNodeQuery (set_panel panel current))
        (here ask_node no_keyboard))
  else if String.eqb action "dns_panel" then
    choose_from cb msg session stateSelectingDNSSyncPanel (w_panels session) index (fun panel =>
      update_then stateSelectingDNSSyncPanel (fun current => set_state stateAwaitingDNSSyncQuery (set_panel panel current))
        (here "Введите точное имя ноды или её актуальный IP из Remnawave." no_keyboard))
  else if String.eqb action "panel" then
    choose_from cb msg session stateSelectingPanel (w_panels session) index (fun panel =>
      showHostPicker (cb_FromUserID cb) (w_chatID session) (w_nonce session) panel)
  else if String.eqb action "ip_panel" then
    choose_from cb msg session stateSelectingIPPanel (w_panels session) index (fun panel =>
      update_then stateSelectingIPPanel (fun current => set_state stateAwaitingIPChangeQuery (set_panel panel current))
        (send (w_chatID session) ask_node no_keyboard))
  else if String.eqb action "host" then
    choose_from cb msg session stateSelectingHost (w_hosts session) index (fun selected =>
      update_then stateSelectingHost (fun current => set_state stateAwaitingName (set_selected selected current))
        (send (w_chatID session) "Enter the Node name manually (3–30 characters)." no_keyboard))
  else if String.eqb action "move_host" then
    if negb on_card then expired else
    choose_from cb msg session stateSelectingNodeMoveHost (w_hosts session) index (fun selected =>
      update_then stateSelectingNodeMoveHost (fun current => set_state stateAwaitingNodeMoveConfirmation (set_selected selected current))
        (card (renderNodeMoveConfirmation (w_nodeMoveTarget session) selected) (move_confirm_keyboard (w_nonce session))))
  else if String.eqb action "move_apply" then
    if negb on_card || negb (in_state stateAwaitingNodeMoveConfirmation) then expired else
    update_then stateAwaitingNodeMoveConfirmation (set_state stateAwaitingNodeMovePassword)
      (card (renderNodeMoveConfirmation (w_nodeMoveTarget session) (w_selected session) +:+ nl +:+ nl +:+
        "Отправьте временный root-пароль. Сообщение будет сразу удалено; пароль не сохраняется.") no_keyboard)
  else if String.eqb action "move_cancel" then
    if negb on_card || (negb (in_state stateSelectingNodeMoveHost) && negb (in_state stateAwaitingNodeMoveConfirmation)) then expired else
    take_or_expired cb msg session (w_state session)
      (card "Перемещение ноды отменено." (inline_keyboard [button_row "⬅️ К карточке" (data_open (mt_UUID (w_nodeMoveTarget session)))]))
  else if String.eqb action "deploy" then startDeployment cb msg session
  else if String.eqb action "cancel" then cancelFromCallback cb msg session
  else if String.eqb action "ip_change" then
    if negb (in_state stateAwaitingIPChangeConfirmation) || negb on_card then expired else
    update_then stateAwaitingIPChangeConfirmation (set_state stateAwaitingNewIP)
      (card (renderIPChangeTarget (w_ipTarget session) +:+ nl +:+ nl +:+ "Введите новый публичный IP-адрес.") no_keyboard)
  else if String.eqb action "ip_cancel" then
    if negb (in_state stateAwaitingIPChangeConfirmation) || negb on_card then expired else
    take_or_expired cb msg session stateAwaitingIPChangeConfirmation (card "Смена IP отменена." no_keyboard)
  else if String.eqb action "dns_sync" then confirm_dns_sync cb msg session
  else if String.eqb action "dns_cancel" then
    if negb (in_state stateAwaitingDNSSyncConfirmation) || negb on_card then expired else
    take_or_expired cb msg session stateAwaitingDNSSyncConfirmation (card "Синхронизация DNS отменена." no_keyboard)
  else expired.

Definition handleCallback (cb : CallbackQuery) : T (option string) :=
  let refuse text := call (AnswerCallback (cb_ID cb) text) in
  if cb_FromUserID cb <=? 0 then mret None
  else if negb (authorized (cb_FromUserID cb)) then refuse "Access denied."
  else match cb_Message cb with
  | None => refuse "This action is no longer available."
  | Some msg =>
    if m_ChatID msg =? 0 then refuse "This action is no longer available."
    else match parseNodesCallback (cb_Data cb) with
    | Some action => answer_ (cb_ID cb) "" ≫= fun _ => handle_nodes_callback cb msg action
    | None =>
      match parseDeploymentCallback (cb_Data cb) with
      | Some (action, deploymentID) => handleDeploymentCallback cb msg action deploymentID
      | None =>
        match parseCallbackData (cb_Data cb) with
        | None => expiredCallback cb msg
        | Some (action, nonce, index) =>
          loaded ← load (cb_FromUserID cb);
          match loaded with
          | (Some session, false) =>
            if negb (String.eqb (w_nonce session) nonce) || negb (w_chatID session =? m_ChatID msg) then expiredCallback cb msg
            else answer_ (cb_ID cb) "" ≫= fun _ => handle_action cb msg session action index
          | _ => expiredCallback cb msg
          end
        end
      end
    end
  end.

Definition Handle (update : Update) : T (option string) :=
  match u_CallbackQuery update with
  | Some cb => handleCallback cb
  | None => match u_Message update with Some message => handleMessage message | None => mret None end
  end.
End Controller.

(** ** Configuration *)
Definition defaultSessionTTL : Z := 15 * Minute.

(** [newController]: the allowed operators and the lifetime of a session;
    the four interfaces are present or not. *)
Definition newController (allowedUsers : list Z) (app messenger now nonce : bool) (sessionTTL : Z) : result string (gset Z * Z) :=
  if negb app || negb messenger || negb now || negb nonce || bool_decide (allowedUsers = [])
  then Err "invalid Telegram controller configuration"
  else if existsb (fun userID => userID <=? 0) allowedUsers then Err "invalid allowed Telegram user ID"
  else Ok (list_to_set allowedUsers, if sessionTTL <=? 0 then defaultSessionTTL else sessionTTL).
