(* ===== verification/TgContract.v ===== *)
(** * What the controller may call, and what its conversations are

    The contract of a goroutine of the controller, acting for the operator
    whose update or timer started it: which calls it may make with which
    inputs, and what the session table promises in its answers.  Every
    handler is verified against the contract alone; the table is shown to
    implement it while it keeps every conversation well typed.  Both
    together give, in every interleaving of updates, timers and goroutines,
    the theorems at the end. *)

From S2P Require Import Prelude GoStrings Utf8 Unicode GoText NetIP Effects Threads TgTypes TgProgress TgNodes TgSessions TgRender TgController.

#[local] Open Scope Z_scope.

(** A goroutine acts for an operator, or for the process that shuts down. *)
Inductive principal : Type := Operator (userID : Z) | Process.

Definition public_ip (a : Addr) : Prop := exists text, parsePublicIP text = Some a.
Definition public_ipv4 (a : Addr) : Prop := exists text, parsePublicIPv4 text = Some a.
Definition nonblank (s : string) : Prop := TrimSpace s <> "".

(** ** Well-typed conversations *)
Definition uses_node_ip (st : wizardState) : bool :=
  match st with
  | stateSelectingIPPanel | stateAwaitingIPChangeQuery | stateAwaitingIPChangeConfirmation | stateAwaitingNewIP
  | stateSelectingServerIPPanel | stateAwaitingServerIPNodeQuery => true
  | _ => false
  end.
Definition uses_dns_sync (st : wizardState) : bool :=
  match st with
  | stateSelectingDNSSyncPanel | stateAwaitingDNSSyncQuery | stateAwaitingDNSSyncConfirmation | stateDNSSyncRunning
  | stateDNSSyncCompleted => true
  | _ => false
  end.
Definition uses_move (st : wizardState) : bool :=
  match st with
  | stateSelectingNodeMoveHost | stateAwaitingNodeMoveConfirmation | stateAwaitingNodeMovePassword => true
  | _ => false
  end.
Definition uses_provider (st : wizardState) : bool :=
  match st with
  | stateSelectingServerIPScope | stateSelectingServerIPPanel | stateAwaitingServerIPNodeQuery | stateAwaitingServerCurrentIP
  | stateAwaitingServerNewIP | stateAwaitingServerIPPassword => true
  | _ => false
  end.
(** ** The dialogues as a graph *)

(** The states a new conversation starts in. *)
Definition entry_state (st : wizardState) : bool :=
  match st with
  | stateSelectingPanel | stateSelectingHost | stateSelectingIPMode | stateAwaitingNodeSearch | stateSelectingNodeMoveHost
  | stateAwaitingIPChangeConfirmation | stateAwaitingServerNewIP => true
  | _ => false
  end.
(** The states an update leads to; a card's identifier is stored without
    leaving the state. *)
Definition next_states (st : wizardState) : list wizardState :=
  match st with
  | stateSelectingHost => [stateAwaitingName]
  | stateAwaitingName => [stateAwaitingIP]
  | stateAwaitingIP => [stateAwaitingPassword]
  | stateAwaitingPassword => [statePreflighting]
  | statePreflighting => [stateAwaitingConfirmation]
  | stateAwaitingConfirmation => [stateAwaitingConfirmation]
  | stateSelectingIPMode =>
    [stateSelectingIPPanel; stateAwaitingIPChangeQuery; stateSelectingServerIPScope; stateSelectingDNSSyncPanel; stateAwaitingDNSSyncQuery]
  | stateSelectingIPPanel => [stateAwaitingIPChangeQuery]
  | stateAwaitingIPChangeQuery => [stateAwaitingIPChangeConfirmation]
  | stateAwaitingIPChangeConfirmation => [stateAwaitingIPChangeConfirmation; stateAwaitingNewIP]
  | stateSelectingServerIPScope => [stateSelectingServerIPPanel; stateAwaitingServerIPNodeQuery; stateAwaitingServerCurrentIP]
  | stateSelectingServerIPPanel => [stateAwaitingServerIPNodeQuery]
  | stateAwaitingServerIPNodeQuery | stateAwaitingServerCurrentIP => [stateAwaitingServerNewIP]
  | stateAwaitingServerNewIP => [stateAwaitingServerIPPassword]
  | stateSelectingDNSSyncPanel => [stateAwaitingDNSSyncQuery]
  | stateAwaitingDNSSyncQuery => [stateAwaitingDNSSyncConfirmation]
  | stateAwaitingDNSSyncConfirmation => [stateAwaitingDNSSyncConfirmation; stateDNSSyncRunning]
  | stateDNSSyncRunning => [stateDNSSyncCompleted]
  | stateSelectingNodeMoveHost => [stateAwaitingNodeMoveConfirmation]
  | stateAwaitingNodeMoveConfirmation => [stateAwaitingNodeMovePassword]
  | _ => []
  end.
Definition leads_to (st st' : wizardState) : bool := existsb (fun x => bool_decide (x = st')) (next_states st).

(** How far the dialogue of a new Node has come. *)
Definition add_stage (st : wizardState) : nat :=
  match st with
  | stateSelectingHost => 1
  | stateAwaitingName => 2
  | stateAwaitingIP => 3
  | stateAwaitingPassword => 4
  | statePreflighting => 5
  | stateAwaitingConfirmation => 6
  | _ => 0
  end%nat.
(** The same for the new address of a server. *)
Definition server_stage (st : wizardState) : nat :=
  match st with stateAwaitingServerNewIP => 1 | stateAwaitingServerIPPassword => 2 | _ => 0 end%nat.

Section Contract.
Context {sorting : GoSort} (app : Capabilities) (allowed : gset Z) (contact : Z -> Z -> Prop).

(** All but the password. *)
Record snapshot_ok (u : Z) (w : wizard) : Prop := mkSnapshotOk {
  ok_user : w_userID w = u;
  ok_allowed : u ∈ allowed;
  ok_chat : contact u (w_chatID w);
  ok_node_ip : uses_node_ip (w_state w) = true -> NodeIPApplication app = true;
  ok_dns_sync : uses_dns_sync (w_state w) = true -> NodeDNSSyncApplication app = true;
  ok_move : uses_move (w_state w) = true -> NodeHostMoveApplication app = true;
  ok_provider : uses_provider (w_state w) = true -> serverProviderAvailable app (w_serverIPProvider w) = true;
  ok_update_node : w_serverUpdateNode w = true -> NodeIPApplication app = true;
  ok_hosts : add_stage (w_state w) = 1%nat -> Forall (fun h => selectable h = true) (w_hosts w);
  ok_selected : (2 <= add_stage (w_state w))%nat -> selectable (w_selected w) = true;
  ok_name : (3 <= add_stage (w_state w))%nat -> validNodeName (w_nodeName w) = true;
  ok_address : (4 <= add_stage (w_state w))%nat -> public_ip (w_vpsIP w);
  ok_prepared : (6 <= add_stage (w_state w))%nat -> nonblank (prepared_id w);
  ok_unprepared : (add_stage (w_state w) < 6)%nat -> prepared_id w = "";
  ok_current_ip : (1 <= server_stage (w_state w))%nat -> Is4 (w_serverCurrentIP w) = true;
  ok_new_ip : (2 <= server_stage (w_state w))%nat -> public_ipv4 (w_serverNewIP w)
}.

(** A conversation holds a password exactly from the preflight on. *)
Definition wizard_ok (u : Z) (w : wizard) : Prop :=
  snapshot_ok u w /\ (is_Some (w_password w) <-> (5 <= add_stage (w_state w))%nat).

(** An update of the conversation of [u] in the state [st]. *)
Definition step_ok (u : Z) (st : wizardState) (f : wizard -> wizard) : Prop :=
  forall w, wizard_ok u w -> w_state w = st ->
    wizard_ok u (f w) /\ w_nonce (f w) = w_nonce w /\ leads_to st (w_state (f w)) = true.

Definition worker_ok (u : Z) (w : worker) : Prop :=
  match w with
  | ServerIPWorker active _ => snapshot_ok u active /\ w_state active = stateAwaitingServerIPPassword /\ is_Some (w_password active)
  | NodeMoveWorker active _ => snapshot_ok u active /\ w_state active = stateAwaitingNodeMovePassword /\ is_Some (w_password active)
  | DeploymentWorker active _ =>
    exists taken, wizard_ok u taken /\ w_state taken = stateAwaitingConfirmation /\ active = set_state stateDeploying taken
  | ActionWorker chatID _ fromUserID action deploymentID details =>
    u ∈ allowed /\ fromUserID = u /\ contact u chatID /\ RecoveryApplication app = true /\
    action ∈ ["retry"; "dns"; "recheck"; "repair_cert"; "cancel"] /\ validDeploymentID deploymentID = true /\
    (action = "repair_cert" -> dd_CanRepairCert details = true /\ nonblank (dd_SNI details))
  end.

(** ** The contract *)
Definition preflight_ok (u : Z) (host node : string) (ip : Addr) (password : option buf) : Prop :=
  nonblank host /\ validNodeName node = true /\ public_ip ip /\ is_Some password.

Definition operator_may {X} (u : Z) (e : tgE X) : Prop :=
  match e with
  | SendMessage chatID text keyboard => contact u chatID /\ (u ∈ allowed \/ text = "Access denied." /\ keyboard = no_keyboard)
  | EditMessage chatID _ _ _ => contact u chatID /\ u ∈ allowed
  | DeleteMessage chatID _ => contact u chatID /\ u ∈ allowed
  | AnswerCallback _ text => u ∈ allowed \/ text = "Access denied."
  | ListPanels | ListHosts _ | ListNodes | ListDeployments _ => u ∈ allowed
  | CheckNodeName _ name => u ∈ allowed /\ validNodeName name = true
  | CheckVPSAddress _ address => u ∈ allowed /\ public_ip address
  | Preflight i => u ∈ allowed /\ pi_OperatorUserID i = u /\ preflight_ok u (pi_HostID i) (pi_NodeName i) (pi_VPSIP i) (pi_Password i)
  | StartDeployment i =>
    u ∈ allowed /\ di_OperatorUserID i = u /\ preflight_ok u (di_HostID i) (di_NodeName i) (di_VPSIP i) (di_Password i) /\
    nonblank (di_PreparedDeploymentID i)
  | CancelDeployment id => u ∈ allowed /\ id <> ""
  | GetDeploymentDetails id | RetryFailedStep id | RetryDNS id | RecheckRemnawave id | ViewSafeLogs id =>
    u ∈ allowed /\ RecoveryApplication app = true /\ validDeploymentID id = true
  | BootstrapCertificate _ userID => u ∈ allowed /\ RecoveryApplication app = true /\ userID = u
  | FindNodeForIPChange _ _ => u ∈ allowed /\ NodeIPApplication app = true
  | ReplaceNodeIP i => u ∈ allowed /\ NodeIPApplication app = true /\ public_ip (ii_NewIP i)
  | PrepareNodeHostMove _ _ => u ∈ allowed /\ NodeHostMoveApplication app = true
  | MoveNodeToHost i => u ∈ allowed /\ NodeHostMoveApplication app = true /\ is_Some (mi_Password i)
  | FindNodeForDNSSync _ _ | SyncNodeDNS _ => u ∈ allowed /\ NodeDNSSyncApplication app = true
  | ConfigureCherryIP i =>
    u ∈ allowed /\ CherryIPApplication app = true /\ Is4 (ci_ServerIP i) = true /\ public_ipv4 (ci_FloatingIP i) /\ is_Some (ci_Password i)
  | ConfigureRoyalIP i =>
    u ∈ allowed /\ RoyalIPApplication app = true /\ Is4 (ri_ServerIP i) = true /\ public_ipv4 (ri_NewIP i) /\ is_Some (ri_Password i)
  | CurrentTime | RandomBytes | WorkersAdd => u ∈ allowed
  | WorkersDone | ClearBuffer _ => u ∈ allowed
  | Go w => worker_ok u w
  | Panic why => u ∈ allowed /\ why = NilDereference
  | NewBuffer _ | AppendBuffer _ _ => u ∈ allowed
  | PutSession session => wizard_ok u session /\ entry_state (w_state session) = true
  | LoadSession userID | CopyPassword userID _ _ | DropSession userID | TakeSession userID _ _ => u ∈ allowed /\ userID = u
  | UpdateSession userID _ state update =>
    u ∈ allowed /\ userID = u /\ step_ok u state update
  | StorePassword userID _ state _ next =>
    u ∈ allowed /\ userID = u /\ forall b, step_ok u state (fun w => set_state next (set_password (Some b) w))
  | FireExpiry userID _ => userID = u
  | DropSessions => False
  end.

(** What [cancelPrepared] is given. *)
Definition prepared_ok (u : Z) (id : string) : Prop := u ∈ allowed /\ (id = "" \/ nonblank id).

Definition operator_promised {X} (u : Z) (e : tgE X) : X -> Prop :=
  match e in tgE X return X -> Prop with
  | AppendBuffer _ _ => fun r => is_Some r
  | LoadSession _ => fun r =>
    match r with LoadNone => True | LoadExpired id => prepared_ok u id | LoadFound w => snapshot_ok u w end
  | UpdateSession _ _ _ _ => fun r => match r with UpdateExpired id => prepared_ok u id | _ => True end
  | StorePassword _ _ _ _ _ => fun r => match r with UpdateExpired id => prepared_ok u id | _ => True end
  | TakeSession _ _ state => fun r =>
    match r with NotTaken => True | TakeExpired id => prepared_ok u id | Taken w => wizard_ok u w /\ w_state w = state end
  | CopyPassword _ _ _ => fun r => match r with CopyExpired id => prepared_ok u id | _ => True end
  | DropSession _ => fun r => match r with Some w => wizard_ok u w | None => True end
  | FireExpiry _ _ => fun r => match r with Fired id => prepared_ok u id | NotFired => True end
  | _ => fun _ => True
  end.

#[export] Instance tg_contract : Contract tgE principal := {
  may_call p X e :=
    match p with
    | Operator u => operator_may u e
    | Process => match e with DropSessions => True | CancelDeployment id => id <> "" | _ => False end
    end;
  promised p X e :=
    match p with
    | Operator u => operator_promised u e
    | Process => fun _ => True
    end
}.

(** ** The handlers keep the contract *)
Lemma nonblank_not_empty s : nonblank s -> s <> "".
Proof. intros H ->. by apply H. Qed.

Lemma snapshot_prepared u w : snapshot_ok u w -> prepared_ok u (prepared_id w).
Proof.
  intros H. split; [apply H|]. destruct (decide (6 <= add_stage (w_state w))%nat) as [Hs|Hs].
  - right. by apply (ok_prepared u w).
  - left. apply (ok_unprepared u w); [done|lia].
Qed.

Lemma wizard_snapshot u w : wizard_ok u w -> snapshot_ok u w.
Proof. by intros []. Qed.

(** The program is safe whatever it returns. *)
Notation safely u p := (safe (Operator u) p (fun _ => True)).

Create HintDb tgsafe.

Section Handlers.
Context (u : Z) (Hu : u ∈ allowed).

Lemma safe_send c text k : contact u c -> safely u (send c text k).
Proof. intros H. unfold send. apply safe_call_seq; [|done]. split; [done|by left]. Qed.

Lemma safe_edit c m text k : contact u c -> safely u (edit c m text k).
Proof. intros H. by apply safe_call. Qed.

Lemma safe_ignored {A} (p : T A) : safely u p -> safely u (ignored p).
Proof. intros H. unfold ignored. by eapply safe_seq; [exact H|]. Qed.

Lemma safe_edit_ c m text k : contact u c -> safely u (edit_ c m text k).
Proof. intros H. by apply safe_ignored, safe_edit. Qed.

Lemma safe_answer id text : safely u (answer_ id text).
Proof. apply safe_ignored, safe_call; [by left|done]. Qed.

Lemma safe_cancel id : id <> "" -> safely u (cancel_ id).
Proof. intros H. by apply safe_ignored, safe_call. Qed.

Lemma safe_cancelPrepared id : safely u (cancelPrepared id).
Proof.
  unfold cancelPrepared. destruct (String.eqb_spec (TrimSpace id) "") as [|Hn]; [done|]. by apply safe_cancel.
Qed.

Lemma safe_delete c m : contact u c -> safely u (ignored (call (DeleteMessage c m))).
Proof. intros H. by apply safe_ignored, safe_call. Qed.

Lemma safe_clear w : safely u (clear w).
Proof. by apply safe_call. Qed.

Lemma safe_clearBytes b : safely u (clearBytes b).
Proof. by apply safe_call. Qed.

Lemma safe_load :
  safe (Operator u) (load u) (fun r => match fst r with Some w => snapshot_ok u w | None => True end).
Proof.
  unfold load. apply safe_call_seq; [done|]. intros [|id|w] H; [done| |done].
  eapply safe_seq; [apply safe_cancelPrepared|]. done.
Qed.

Lemma safe_updated r : safely u (updated r).
Proof. destruct r as [| |id]; [done|done|]. by eapply safe_seq; [apply safe_cancelPrepared|]. Qed.

Lemma safe_update nonce st f :
  step_ok u st f -> safely u (update u nonce st f).
Proof. intros H. unfold update. apply safe_call_seq; [done|]. intros r _. apply safe_updated. Qed.

Lemma safe_take nonce st :
  safe (Operator u) (take u nonce st) (fun r => match r with Some w => wizard_ok u w /\ w_state w = st | None => True end).
Proof.
  unfold take. apply safe_call_seq; [done|]. intros [|id|w] H; [done| |done].
  by eapply safe_seq; [apply safe_cancelPrepared|].
Qed.

Lemma safe_copy_password nonce st : safely u (copy_password u nonce st).
Proof.
  unfold copy_password. apply safe_call_seq; [done|]. intros [|id|b] H; [done| |done].
  by eapply safe_seq; [apply safe_cancelPrepared|].
Qed.

Lemma safe_drop_prepared w :
  prepared_ok u (prepared_id w) -> safely u (if String.eqb (prepared_id w) "" then mret tt else cancel_ (prepared_id w)).
Proof. intros _. destruct (String.eqb_spec (prepared_id w) "") as [|Hn]; [done|]. by apply safe_cancel. Qed.

Lemma safe_cancelExisting : safely u (cancelExisting u).
Proof.
  unfold cancelExisting. apply safe_call_seq; [done|]. intros [w|] H; [|done].
  eapply safe_seq; [by apply safe_clear|]. intros _ _. apply safe_drop_prepared, snapshot_prepared, wizard_snapshot, H.
Qed.

Lemma safe_randomNonce : safely u randomNonce.
Proof. unfold randomNonce. by apply safe_call_seq. Qed.

Lemma safe_sendExpired c : contact u c -> safely u (sendExpired c).
Proof. apply safe_send. Qed.

Lemma safe_expiredCallback cb msg : contact u (m_ChatID msg) -> safely u (expiredCallback cb msg).
Proof. intros H. unfold expiredCallback. eapply safe_seq; [by apply safe_answer|]. intros _ _. by apply safe_send. Qed.

Lemma safe_sendOrEdit c m text k : contact u c -> safely u (sendOrEdit c m text k).
Proof. intros H. unfold sendOrEdit. destruct (negb _); [by apply safe_edit|by apply safe_send]. Qed.

Lemma safe_deliver c m text : contact u c -> safely u (deliverDNSSyncResult c m text).
Proof.
  intros H. unfold deliverDNSSyncResult. eapply safe_seq; [by apply safe_edit|]. intros [] _; [by apply safe_send|done].
Qed.

Lemma safe_begin_session ttl c nonce st fill :
  (forall now, wizard_ok u (fill (new_wizard u c nonce st (now + ttl))) /\
     entry_state (w_state (fill (new_wizard u c nonce st (now + ttl)))) = true) -> safely u (begin_session ttl u c nonce st fill).
Proof. intros H. unfold begin_session. apply safe_call_seq; [done|]. intros now _. apply safe_call; [|done]. apply H. Qed.
End Handlers.

#[local] Hint Resolve safe_send safe_edit safe_edit_ safe_ignored safe_delete safe_answer safe_cancel safe_cancelPrepared safe_clear
  safe_clearBytes safe_load safe_update safe_take safe_copy_password safe_drop_prepared safe_cancelExisting safe_randomNonce
  safe_sendExpired safe_expiredCallback safe_sendOrEdit safe_deliver : tgsafe.
#[local] Hint Resolve ok_chat ok_allowed wizard_snapshot snapshot_prepared nonblank_not_empty : tgsafe.

(** Takes a handler apart: calls by their side conditions, named programs by
    their lemmas, tests by cases. *)
Ltac tg_side := simpl; repeat split; eauto with tgsafe.
Ltac tg_step :=
  lazymatch goal with
  | |- safe _ (if ?b then _ else _) _ => destruct b eqn:?
  | |- safe _ (match ?x with _ => _ end) _ => destruct x eqn:?
  | |- safe _ (finally _ _) _ => apply safe_finally; [solve [eauto with tgsafe]|]
  | |- safe _ ((match ?x with _ => _ end) ≫= _) _ => destruct x eqn:?
  | |- safe _ (mret _ ≫= _) _ => apply safe_ret_seq; cbv beta
  | |- safe _ (call _ ≫= _) _ => apply safe_call_seq; [solve [tg_side]|intros ? ?; cbn [promised tg_contract operator_promised] in *]
  | |- safe _ (_ ≫= _) _ => eapply safe_seq; [solve [eauto with tgsafe]|intros ? ?; cbv beta in *]
  | |- safe _ (mret _) _ => exact I
  | |- safe _ (call _) _ => apply safe_call; [solve [tg_side]|done]
  | |- safe _ (panic_with _) _ => fail
  | |- safe _ _ _ => solve [eauto with tgsafe]
  end.
Ltac tg_auto := repeat tg_step.

(** A new conversation of a kind that needs what the context has. *)
Ltac fresh_wizard :=
  split; [split; [constructor; simpl; try done; try lia; eauto|simpl; split; [by intros []|lia]]|done].

Section Screens.
Context (u : Z) (Hu : u ∈ allowed) (ttl : Z) (policy : NodePolicy).

Lemma safe_showMainMenu c : contact u c -> safely u (showMainMenu c).
Proof. intros H. by apply safe_send. Qed.

Lemma safe_showDeploymentCard c m id notice :
  contact u c -> RecoveryApplication app = true -> validDeploymentID id = true -> safely u (showDeploymentCard c m id notice).
Proof. intros Hc Hr Hid. unfold showDeploymentCard. tg_auto. Qed.

Lemma safe_showDeployments c : contact u c -> safely u (showDeployments c).
Proof. intros Hc. unfold showDeployments. tg_auto. Qed.

Lemma safe_nodeSnapshots : safely u (nodeSnapshots policy).
Proof. unfold nodeSnapshots. tg_auto. Qed.

Lemma safe_inventory_failure c m : contact u c -> safely u (renderNodeInventoryFailure c m).
Proof. intros Hc. by apply safe_sendOrEdit. Qed.

Lemma safe_show_screen c m screen : contact u c -> safely u (show_screen c m screen).
Proof. intros Hc. unfold show_screen. destruct screen as [[text k]|]; by apply safe_sendOrEdit. Qed.
End Screens.

#[local] Hint Resolve safe_showMainMenu safe_showDeploymentCard safe_showDeployments safe_nodeSnapshots safe_inventory_failure
  safe_show_screen : tgsafe.

Section NodeScreens.
Context (u : Z) (Hu : u ∈ allowed) (ttl : Z) (policy : NodePolicy).

Lemma safe_showNodePanels c m : contact u c -> safely u (showNodePanels policy c m).
Proof. intros Hc. unfold showNodePanels. tg_auto. Qed.
Lemma safe_showNodePanel c m i : contact u c -> safely u (showNodePanel policy c m i).
Proof. intros Hc. unfold showNodePanel. tg_auto. Qed.
Lemma safe_showNodeGroup c m i g p : contact u c -> safely u (showNodeGroup policy c m i g p).
Proof. intros Hc. unfold showNodeGroup. tg_auto. Qed.
Lemma safe_showNodeCard c m id : contact u c -> safely u (showNodeCard app policy c m id).
Proof. intros Hc. unfold showNodeCard. tg_auto. Qed.

Lemma safe_beginNodeSearch cb msg :
  cb_FromUserID cb = u -> contact u (m_ChatID msg) -> safely u (beginNodeSearch ttl cb msg).
Proof.
  intros Hcb Hc. unfold beginNodeSearch. rewrite Hcb. tg_auto.
  eapply safe_seq; [apply safe_begin_session; [done|]|intros; tg_auto]. intros now. fresh_wizard.
Qed.

Lemma safe_acceptNodeSearch message w :
  m_FromUserID message = u -> contact u (m_ChatID message) -> snapshot_ok u w -> safely u (acceptNodeSearch message w).
Proof. intros Hm Hc Hw. unfold acceptNodeSearch. rewrite Hm. tg_auto. Qed.

Lemma safe_move_failure msg id : contact u (m_ChatID msg) -> safely u (renderNodeMoveFailure msg id).
Proof. intros Hc. by apply safe_sendOrEdit. Qed.
Lemma safe_ip_failure msg id : contact u (m_ChatID msg) -> safely u (renderNodeIPStartFailure msg id).
Proof. intros Hc. by apply safe_sendOrEdit. Qed.
#[local] Hint Resolve safe_move_failure safe_ip_failure : tgsafe.

Lemma safe_beginNodeHostMove cb msg id :
  cb_FromUserID cb = u -> contact u (m_ChatID msg) -> safely u (beginNodeHostMove app ttl cb msg id).
Proof.
  intros Hcb Hc. unfold beginNodeHostMove. rewrite Hcb. destruct (NodeHostMoveApplication app) eqn:Happ; cbn [negb]; tg_auto.
  eapply safe_seq; [apply safe_begin_session; [done|]|intros; tg_auto]. intros now. fresh_wizard.
Qed.

(** A resolved target means the application can change addresses. *)
Lemma safe_resolve id :
  safe (Operator u) (resolveNodeCardIPTarget app id) (fun r => r <> None -> NodeIPApplication app = true).
Proof.
  unfold resolveNodeCardIPTarget. destruct (NodeIPApplication app) eqn:Happ; cbn [negb]; [|by intros []].
  apply safe_call_seq; [done|]. intros [nodes|] _; [|done]. destruct (find_first _ _); [|done]. destruct (_ || _); [done|].
  by apply safe_call_seq.
Qed.

Lemma safe_showNodeIPOptions msg id : contact u (m_ChatID msg) -> safely u (showNodeIPOptions app msg id).
Proof.
  intros Hc. unfold showNodeIPOptions. eapply safe_seq; [apply safe_resolve|]. intros r _. tg_auto.
Qed.

Lemma safe_show_or_take_back cb msg nonce st text k :
  cb_FromUserID cb = u -> contact u (m_ChatID msg) -> safely u (show_or_take_back cb msg nonce st text k).
Proof. intros Hcb Hc. unfold show_or_take_back. rewrite Hcb. tg_auto. Qed.
#[local] Hint Resolve safe_show_or_take_back : tgsafe.

Lemma safe_beginNodeCardPanelIPChange cb msg id :
  cb_FromUserID cb = u -> contact u (m_ChatID msg) -> safely u (beginNodeCardPanelIPChange app ttl cb msg id).
Proof.
  intros Hcb Hc. unfold beginNodeCardPanelIPChange. rewrite Hcb. eapply safe_seq; [apply safe_resolve|].
  intros [[node target]|] Happ; [|tg_auto]. specialize (Happ ltac:(done)). tg_auto.
  eapply safe_seq; [apply safe_begin_session; [done|]|intros; tg_auto]. intros now. fresh_wizard.
Qed.

Lemma Is4_public text a : parsePublicIPv4 text = Some a -> Is4 a = true.
Proof. unfold parsePublicIPv4. destruct (parsePublicIP text) as [b|]; [|done]. destruct (Is4 b) eqn:E; [|done]. by intros [= <-]. Qed.

Lemma safe_beginNodeCardServerIPChange cb msg id provider :
  cb_FromUserID cb = u -> contact u (m_ChatID msg) -> safely u (beginNodeCardServerIPChange app ttl cb msg id provider).
Proof.
  intros Hcb Hc. unfold beginNodeCardServerIPChange. rewrite Hcb. destruct (serverProviderAvailable app provider) eqn:Hp; cbn [negb]; [|tg_auto].
  eapply safe_seq; [apply safe_resolve|]. intros [[node target]|] Happ; [|tg_auto]. specialize (Happ ltac:(done)). tg_auto.
  eapply safe_seq; [apply safe_begin_session; [done|]|intros; tg_auto]. intros now. fresh_wizard. intros _. by eapply Is4_public.
Qed.

Lemma safe_handle_nodes_callback cb msg action :
  cb_FromUserID cb = u -> contact u (m_ChatID msg) -> safely u (handle_nodes_callback app ttl policy cb msg action).
Proof.
  intros Hcb Hc. unfold handle_nodes_callback. destruct action; rewrite ?Hcb;
    eauto using safe_showNodePanel, safe_showNodeGroup, safe_showNodeCard, safe_beginNodeSearch, safe_showNodeIPOptions,
      safe_beginNodeCardPanelIPChange, safe_beginNodeCardServerIPChange, safe_beginNodeHostMove.
  eapply safe_seq; [by apply safe_cancelExisting|]. intros _ _. by apply safe_showNodePanels.
Qed.
End NodeScreens.

(** A step of a dialogue keeps it well typed. *)
Ltac stage_fact := intros _; first [assumption | match goal with H : _ -> ?G |- ?G => apply H; first [lia | done] end].
Ltac typed_update :=
  let w := fresh "w" in let Hp := fresh "Hp" in let Hst := fresh "Hst" in
  intros w [[] Hp] Hst; rewrite Hst in *; unfold prepared_id in *; simpl in *;
  split; [split; [constructor; unfold prepared_id; simpl; rewrite ?Hst; simpl; first [assumption | done | lia | stage_fact | idtac]
                 |simpl; rewrite ?Hst; simpl; split; [intros HH; apply Hp in HH; lia|intros HH; apply Hp; lia]]
         |split; [done|simpl; rewrite ?Hst; reflexivity]].

Section Conversations.
Context (u : Z) (Hu : u ∈ allowed) (ttl : Z) (policy : NodePolicy).

Lemma selectable_hosts hosts : Forall (fun h => selectable h = true) (List.filter selectable hosts).
Proof. apply Forall_forall. intros h Hin. apply list_elem_of_In, filter_In in Hin. by destruct Hin. Qed.

Lemma safe_showHostPicker c nonce panel : contact u c -> safely u (showHostPicker ttl u c nonce panel).
Proof.
  intros Hc. unfold showHostPicker. tg_step. tg_step; [|by apply safe_send].
  pose proof (selectable_hosts l) as Hs. destruct (List.filter selectable l) as [|h l1]; [by apply safe_send|].
  eapply safe_seq; [apply safe_begin_session; [done|]|intros; by apply safe_send]. intros now. fresh_wizard.
Qed.

Lemma safe_beginAddNode message :
  m_FromUserID message = u -> contact u (m_ChatID message) -> safely u (beginAddNode ttl message).
Proof.
  intros Hm Hc. unfold beginAddNode. rewrite Hm. tg_auto; [by apply safe_showHostPicker|].
  eapply safe_seq; [apply safe_begin_session; [done|]|intros; by apply safe_send]. intros now. fresh_wizard.
Qed.

Lemma safe_acceptNodeName message w :
  m_FromUserID message = u -> contact u (m_ChatID message) -> snapshot_ok u w -> safely u (acceptNodeName message w).
Proof.
  intros Hm Hc Hw. unfold acceptNodeName. rewrite Hm. destruct (validNodeName _) eqn:Hn; cbn [negb]; [|tg_auto]. tg_auto.
  eapply safe_seq; [apply safe_update; [done|]|intros; tg_auto]. typed_update.
Qed.

Lemma safe_acceptVPSIP message w :
  m_FromUserID message = u -> contact u (m_ChatID message) -> snapshot_ok u w -> safely u (acceptVPSIP message w).
Proof.
  intros Hm Hc Hw. unfold acceptVPSIP. rewrite Hm. destruct (parsePublicIP _) as [a|] eqn:Ha; [|tg_auto].
  assert (public_ip a) by (by exists (m_Text message)). tg_auto.
  eapply safe_seq; [apply safe_update; [done|]|intros; tg_auto]. typed_update.
Qed.
End Conversations.

Section Deployments.
Context (u : Z) (Hu : u ∈ allowed) (ttl : Z) (policy : NodePolicy).

Lemma selectable_id h : selectable h = true -> nonblank (h_ID h).
Proof.
  unfold selectable, nonblank. intros H He. by rewrite He in H.
Qed.

Lemma safe_clear_removed (removed : option wizard) : safely u (match removed with Some w => clear w | None => mret tt end).
Proof. destruct removed; [by apply safe_clear|done]. Qed.
#[local] Hint Resolve safe_clear_removed : tgsafe.

Lemma safe_show_confirmation message id :
  m_FromUserID message = u -> contact u (m_ChatID message) -> id <> "" -> safely u (show_confirmation message id).
Proof.
  intros Hm Hc Hid. unfold show_confirmation. rewrite Hm. eapply safe_seq; [by apply safe_load|].
  intros [[w|] found] Hw; cbn [fst] in *; [|by split]. tg_auto.
  eapply safe_seq; [apply safe_update; [done|]|intros; tg_auto]. typed_update.
Qed.

(** What the preflight is given by a conversation in its state. *)
Lemma preflighting_ok w b :
  snapshot_ok u w -> w_state w = statePreflighting ->
  preflight_ok u (h_ID (w_selected w)) (w_nodeName w) (w_vpsIP w) (Some b).
Proof.
  intros [] Hst. rewrite Hst in *. simpl in *. split_and!; [apply selectable_id|..]; try done; (try by apply ok_selected0; lia);
    [apply ok_name0|apply ok_address0]; lia.
Qed.

Lemma safe_run_preflight message :
  m_FromUserID message = u -> contact u (m_ChatID message) -> safely u (run_preflight message).
Proof.
  intros Hm Hc. unfold run_preflight. rewrite Hm. eapply safe_seq; [by apply safe_load|].
  intros [[w|] [|]] Hw; cbn [fst] in *; try by apply safe_send.
  destruct (bool_decide_reflect (w_state w = statePreflighting)) as [Hst|Hst]; cbn [negb]; [|by apply safe_send].
  eapply safe_seq; [by apply safe_copy_password|]. intros [b|] _; [|by apply safe_send].
  apply safe_call_seq; [split_and!; [done|apply Hw|by apply preflighting_ok]|]. intros [result failed] _.
  eapply safe_seq; [by apply safe_clearBytes|]. intros _ _. cbv zeta.
  destruct (String.eqb_spec (TrimSpace (TrimSpace (pr_PreparedDeploymentID result))) "") as [He|Hne]; cbn [negb].
  - rewrite orb_true_r. tg_auto.
  - rewrite orb_false_r. pose proof (nonblank_not_empty _ Hne). destruct failed; tg_auto.
    eapply safe_seq; [apply safe_update; [done|]|]; [typed_update|]. intros ok _. tg_auto. by apply safe_show_confirmation.
Qed.

Lemma safe_acceptPassword message w :
  m_FromUserID message = u -> contact u (m_ChatID message) -> snapshot_ok u w -> safely u (acceptPassword message w).
Proof.
  intros Hm Hc Hw. unfold acceptPassword. rewrite Hm. tg_step. tg_step. tg_step; [tg_auto|].
  eapply safe_seq; [apply safe_call_seq; [split_and!; [done|done|]|intros; apply safe_updated, Hu]|].
  { intros b w0 [[] Hp] Hst. rewrite Hst in *. simpl in *.
    split; [split; [constructor; simpl; first [assumption|done|lia|stage_fact]|simpl; split; [lia|by eauto]]|done]. }
  intros ok _. tg_auto. by apply safe_run_preflight.
Qed.

Lemma safe_start w : worker_ok u w -> safely u (start w).
Proof. intros H. unfold start. apply safe_call_seq; [done|]. intros _ _. by apply safe_call. Qed.
#[local] Hint Resolve safe_start : tgsafe.

Lemma safe_startDeployment cb msg w :
  cb_FromUserID cb = u -> contact u (m_ChatID msg) -> safely u (startDeployment cb msg w).
Proof.
  intros Hcb Hc. unfold startDeployment. rewrite Hcb. tg_step; [tg_auto|]. tg_step. destruct a as [active|]; [|tg_auto].
  destruct H as [Ha Hst]. pose proof (wizard_snapshot _ _ Ha) as Hs. cbv zeta.
  eapply safe_seq; [apply safe_edit; [done|by apply Hs]|]. intros [err|] _.
  - tg_auto. eapply safe_seq; [apply safe_cancel; [done|]|done].
    simpl. change (prepared_id (set_state stateDeploying active)) with (prepared_id active).
    apply nonblank_not_empty, (ok_prepared u active); [done|]. by rewrite Hst.
  - eapply safe_seq; [apply safe_start|done]. exists active. by split_and!.
Qed.

Lemma safe_cancelFromMessage message :
  m_FromUserID message = u -> contact u (m_ChatID message) -> safely u (cancelFromMessage message).
Proof.
  intros Hm Hc. unfold cancelFromMessage. rewrite Hm. eapply safe_seq; [by apply safe_load|]. intros [[w|] found] Hw; cbn [fst] in *; tg_auto.
  apply (safe_seq _ _ _ (fun _ => True)); [eapply safe_seq; [by apply safe_take|]|].
  - intros [removed|] Hr; [|done]. eapply safe_seq; [by apply safe_clear|]. intros _ _. apply safe_drop_prepared; [done|].
    by apply snapshot_prepared, wizard_snapshot, Hr.
  - intros _ _. by apply safe_send.
Qed.

Lemma safe_cancelFromCallback cb msg w :
  cb_FromUserID cb = u -> contact u (m_ChatID msg) -> safely u (cancelFromCallback cb msg w).
Proof.
  intros Hcb Hc. unfold cancelFromCallback. rewrite Hcb. tg_step; [tg_auto|]. tg_step. destruct a as [removed|]; [|tg_auto].
  destruct H as [Ha Hst]. eapply safe_seq; [by apply safe_clear|]. intros _ _.
  eapply safe_seq; [apply safe_drop_prepared; [done|]|intros; tg_auto]. by apply snapshot_prepared, wizard_snapshot.
Qed.
End Deployments.

#[local] Hint Resolve safe_showNodePanels safe_showNodePanel safe_showNodeGroup safe_showNodeCard safe_beginNodeSearch
  safe_acceptNodeSearch safe_handle_nodes_callback safe_showHostPicker safe_beginAddNode safe_acceptNodeName safe_acceptVPSIP
  safe_acceptPassword safe_start safe_startDeployment safe_cancelFromMessage safe_cancelFromCallback : tgsafe.

Section Changes.
Context (u : Z) (Hu : u ∈ allowed) (ttl : Z) (policy : NodePolicy).

(** An update the dialogue allows, then the rest. *)
Lemma safe_update_seq nonce st f (k : bool -> T (option string)) :
  step_ok u st f -> (forall b, safely u (k b)) ->
  safely u (update u nonce st f ≫= k).
Proof. intros Hf Hk. eapply safe_seq; [by apply safe_update|]. intros b _. apply Hk. Qed.

Lemma safe_beginIPChange message :
  m_FromUserID message = u -> contact u (m_ChatID message) -> safely u (beginIPChange app ttl message).
Proof.
  intros Hm Hc. unfold beginIPChange. rewrite Hm. tg_auto.
  eapply safe_seq; [apply safe_begin_session; [done|]|intros; by apply safe_send]. intros now. fresh_wizard.
Qed.

Lemma safe_choose_panel cb msg w st panels one many prefix ask offer :
  cb_FromUserID cb = u -> contact u (m_ChatID msg) -> snapshot_ok u w ->
  (forall panel, step_ok u st (one panel)) ->
  step_ok u st many ->
  safely u (choose_panel cb msg w st panels one many prefix ask offer).
Proof.
  intros Hcb Hc Hw H1 H2. unfold choose_panel. rewrite Hcb.
  destruct panels as [|p [|p' panels]]; apply safe_update_seq; (try done); try (intros b; solve [tg_auto]).
Qed.

Ltac choosing := apply safe_choose_panel; (try done); [intros ?; typed_update|typed_update].

Lemma safe_beginDNSSync cb msg w :
  cb_FromUserID cb = u -> contact u (m_ChatID msg) -> snapshot_ok u w -> safely u (beginDNSSync app cb msg w).
Proof.
  intros Hcb Hc Hw. unfold beginDNSSync. destruct (NodeDNSSyncApplication app) eqn:Happ; cbn [negb]; [|tg_auto].
  tg_step. destruct x as [panels|]; [|tg_auto]. destruct (List.filter _ _); [tg_auto|]. choosing.
Qed.

Lemma safe_beginPanelIPChange cb msg w :
  cb_FromUserID cb = u -> contact u (m_ChatID msg) -> snapshot_ok u w -> safely u (beginPanelIPChange app cb msg w).
Proof.
  intros Hcb Hc Hw. unfold beginPanelIPChange. destruct (NodeIPApplication app) eqn:Happ; cbn [negb]; [|tg_auto].
  tg_step. destruct x as [[|panel panels]|]; [tg_auto| |tg_auto]. choosing.
Qed.

Lemma safe_beginServerNodeIPChange cb msg w :
  cb_FromUserID cb = u -> contact u (m_ChatID msg) -> snapshot_ok u w -> safely u (beginServerNodeIPChange app cb msg w).
Proof.
  intros Hcb Hc Hw. unfold beginServerNodeIPChange. destruct (NodeIPApplication app) eqn:Happ; cbn [negb]; [|tg_auto].
  tg_step. destruct x as [[|panel panels]|]; [tg_auto| |tg_auto]. choosing.
Qed.

Lemma safe_beginServerIPScope cb msg w provider :
  cb_FromUserID cb = u -> contact u (m_ChatID msg) -> snapshot_ok u w -> safely u (beginServerIPScope app cb msg w provider).
Proof.
  intros Hcb Hc Hw. unfold beginServerIPScope. rewrite Hcb. destruct (serverProviderAvailable app provider) eqn:Happ; cbn [negb]; [|tg_auto].
  apply safe_update_seq; [typed_update|intros b; tg_auto].
Qed.

Lemma safe_preview message w st text k :
  m_FromUserID message = u -> contact u (m_ChatID message) ->
  (forall n, step_ok u st (set_statusMsgID n)) -> safely u (preview message w st text k).
Proof.
  intros Hm Hc Hst. unfold preview. rewrite Hm. tg_step. tg_step; [|done]. apply safe_update_seq; [apply Hst|intros b; tg_auto].
Qed.

Lemma safe_acceptIPChangeQuery message w :
  m_FromUserID message = u -> contact u (m_ChatID message) -> NodeIPApplication app = true -> safely u (acceptIPChangeQuery app message w).
Proof.
  intros Hm Hc Happ. unfold acceptIPChangeQuery. rewrite Happ, Hm. tg_step. tg_step; [|tg_auto].
  apply safe_update_seq; [typed_update|]. intros b. tg_step; [tg_auto|]. apply safe_preview; [done|done|]. intros ?. typed_update.
Qed.

Lemma safe_acceptDNSSyncQuery message w :
  m_FromUserID message = u -> contact u (m_ChatID message) -> NodeDNSSyncApplication app = true -> safely u (acceptDNSSyncQuery app message w).
Proof.
  intros Hm Hc Happ. unfold acceptDNSSyncQuery. rewrite Happ, Hm. tg_step. tg_step; [|tg_auto].
  apply safe_update_seq; [typed_update|]. intros b. tg_step; [tg_auto|]. apply safe_preview; [done|done|]. intros ?. typed_update.
Qed.

Lemma safe_acceptNewNodeIP message w :
  m_FromUserID message = u -> contact u (m_ChatID message) -> safely u (acceptNewNodeIP app message w).
Proof.
  intros Hm Hc. unfold acceptNewNodeIP. rewrite Hm. destruct (parsePublicIP _) as [a|] eqn:Ha; [|tg_auto]. tg_step.
  destruct a0 as [active|]; [|tg_auto]. destruct H as [[Hw _] Hst]. apply safe_finally; [by apply safe_clear|].
  rewrite (ok_node_ip u active Hw) by (by rewrite Hst).
  apply safe_call_seq; [split_and!; [done|by apply (ok_node_ip u active Hw); rewrite Hst|by exists (m_Text message)]|]. intros r _. tg_auto.
Qed.

Lemma safe_acceptServerCurrentIP message w :
  m_FromUserID message = u -> contact u (m_ChatID message) -> safely u (acceptServerCurrentIP message w).
Proof.
  intros Hm Hc. unfold acceptServerCurrentIP. rewrite Hm. destruct (parsePublicIPv4 _) as [a|] eqn:Ha; [|tg_auto].
  pose proof (Is4_public _ _ Ha). apply safe_update_seq; [typed_update|intros b; tg_auto].
Qed.

Lemma safe_acceptServerIPNodeQuery message w :
  m_FromUserID message = u -> contact u (m_ChatID message) -> NodeIPApplication app = true -> safely u (acceptServerIPNodeQuery app message w).
Proof.
  intros Hm Hc Happ. unfold acceptServerIPNodeQuery. rewrite Happ, Hm. tg_step. tg_step; [|tg_auto]. cbv zeta.
  destruct (IsValid _); cbn [negb orb]; [|tg_auto]. destruct (Is4 _) eqn:H4; cbn [negb]; [|tg_auto].
  apply safe_update_seq; [typed_update|intros b; tg_auto].
Qed.

Lemma safe_acceptServerNewIP message w :
  m_FromUserID message = u -> contact u (m_ChatID message) -> safely u (acceptServerNewIP message w).
Proof.
  intros Hm Hc. unfold acceptServerNewIP. rewrite Hm. destruct (parsePublicIPv4 _) as [a|] eqn:Ha; [|tg_auto].
  assert (public_ipv4 a) by (by exists (m_Text message)). tg_step; [tg_auto|]. apply safe_update_seq; [typed_update|intros b; tg_auto].
Qed.

Lemma safe_take_with_password message w st status work :
  m_FromUserID message = u -> contact u (m_ChatID message) ->
  (forall active b id, wizard_ok u active -> w_state active = st -> worker_ok u (work (set_password (Some b) active) id)) ->
  safely u (take_with_password message w st status work).
Proof.
  intros Hm Hc Hwork. unfold take_with_password. rewrite Hm. tg_step. tg_step. tg_step; [tg_auto|]. tg_step.
  destruct a0 as [active|]; [|tg_auto]. destruct H1 as [Hw Hst]. apply safe_call_seq; [done|]. intros copy [b ->]. cbv zeta.
  tg_step. apply safe_call_seq; [by split; [|left]|]. intros [id|err] _; [|tg_auto]. eapply safe_seq; [by apply safe_start, Hwork|done].
Qed.

Lemma set_password_ok w b : snapshot_ok u w -> snapshot_ok u (set_password b w).
Proof. by intros []. Qed.

Lemma safe_acceptServerIPPassword message w :
  m_FromUserID message = u -> contact u (m_ChatID message) -> safely u (acceptServerIPPassword message w).
Proof.
  intros Hm Hc. apply safe_take_with_password; [done|done|]. intros active b id [Hw _] Hst.
  split_and!; [by apply set_password_ok|done|done].
Qed.

Lemma safe_acceptNodeMovePassword message w :
  m_FromUserID message = u -> contact u (m_ChatID message) -> safely u (acceptNodeMovePassword message w).
Proof.
  intros Hm Hc. apply safe_take_with_password; [done|done|]. intros active b id [Hw _] Hst.
  split_and!; [by apply set_password_ok|done|done].
Qed.
End Changes.

#[local] Hint Resolve safe_beginIPChange safe_beginDNSSync safe_beginPanelIPChange safe_beginServerNodeIPChange safe_beginServerIPScope
  safe_acceptServerCurrentIP safe_acceptServerNewIP safe_acceptNewNodeIP safe_acceptServerIPPassword safe_acceptNodeMovePassword : tgsafe.

Section Updates.
Context (u : Z) (Hu : u ∈ allowed) (ttl : Z) (policy : NodePolicy).

Lemma safe_bootstrap_command message text :
  m_FromUserID message = u -> contact u (m_ChatID message) -> safely u (bootstrap_command app message text).
Proof.
  intros Hm Hc. unfold bootstrap_command. rewrite Hm. destruct (Fields text) as [|? [|? [|? [|? ?]]]]; try by apply safe_send.
  tg_step; [tg_auto|]. destruct (RecoveryApplication app) eqn:Happ; cbn [negb]; [|by apply safe_send].
  apply safe_call_seq; [done|]. intros [result failed] _. tg_auto.
Qed.

Lemma safe_recovery_command message command id :
  contact u (m_ChatID message) -> safely u (recovery_command app message command id).
Proof.
  intros Hc. unfold recovery_command, sendActionResult. destruct (validDeploymentID id) eqn:Hid; cbn [negb]; [|by apply safe_send].
  tg_step.
  - apply safe_call_seq; [split; [done|by intros ->]|]. intros failed _. by apply safe_send.
  - destruct (RecoveryApplication app) eqn:Happ; cbn [negb]; [|by apply safe_send]. tg_auto.
Qed.

Lemma safe_handleRecoveryCommand message text p :
  m_FromUserID message = u -> contact u (m_ChatID message) -> handleRecoveryCommand app message text = Some p -> safely u p.
Proof.
  unfold handleRecoveryCommand. intros Hm Hc H. destruct (is_command _ _); [injection H as <-; by apply safe_bootstrap_command|].
  destruct (find_first _ _); [|done]. injection H as <-. by apply safe_recovery_command.
Qed.

Lemma safe_handle_conversation message w :
  m_FromUserID message = u -> contact u (m_ChatID message) -> snapshot_ok u w -> safely u (handle_conversation app message w).
Proof.
  intros Hm Hc Hw. unfold handle_conversation. destruct (w_state w) eqn:Hst; eauto with tgsafe.
  - apply safe_acceptIPChangeQuery; [done|done|done|]. by apply (ok_node_ip u w Hw); rewrite Hst.
  - apply safe_acceptServerIPNodeQuery; [done|done|done|]. by apply (ok_node_ip u w Hw); rewrite Hst.
  - apply safe_acceptDNSSyncQuery; [done|done|done|]. by apply (ok_dns_sync u w Hw); rewrite Hst.
Qed.

Lemma safe_drop_then {A} (p : T A) : safely u p -> safely u (cancelExisting u ≫= fun _ => p).
Proof. intros H. by eapply safe_seq; [apply safe_cancelExisting|]. Qed.

Lemma safe_handleMessage_operator message :
  m_FromUserID message = u -> contact u (m_ChatID message) -> safely u (handleMessage app allowed ttl policy message).
Proof.
  intros Hm Hc. unfold handleMessage. tg_step; [done|]. tg_step; [by apply safe_send|]. cbv zeta.
  destruct (handleRecoveryCommand _ _ _) as [p|] eqn:Hp; [by eapply safe_handleRecoveryCommand|]. rewrite Hm.
  repeat (tg_step; [first [by eauto with tgsafe|apply safe_drop_then; by eauto with tgsafe]|]).
  eapply safe_seq; [by apply safe_load|]. intros [[w|] [|]] Hw; cbn [fst] in *; try by apply safe_send.
  tg_step; [by apply safe_send|]. by apply safe_handle_conversation.
Qed.

Lemma safe_handleDeploymentCallback cb msg action id :
  cb_FromUserID cb = u -> contact u (m_ChatID msg) -> validDeploymentID id = true ->
  safely u (handleDeploymentCallback app cb msg action id).
Proof.
  intros Hcb Hc Hid. unfold handleDeploymentCallback. destruct (RecoveryApplication app) eqn:Happ; cbn [negb]; [|by apply safe_call; [left|]].
  rewrite Hcb. eapply safe_seq; [by apply safe_answer|]. intros _ _. cbv zeta. tg_step; [tg_auto|]. tg_step. destruct x as [details|]; [|tg_auto]. tg_step; [tg_auto|].
  destruct (one_of _ _) eqn:Ho; [|tg_auto]. destruct (_ && _) eqn:Hr; [tg_auto|]. eapply safe_seq; [by apply safe_edit|].
  intros [err|] _; [done|]. eapply safe_seq; [apply safe_start; [done|cbn [worker_ok]]|done]. split_and!; try done.
  - apply existsb_elem_of in Ho as (x & Hin & Hx). by apply String.eqb_eq in Hx as ->.
  - intros ->. simpl in Hr. apply orb_false_iff in Hr as [H1 H2]. split; [by apply negb_false_iff in H1|].
    by apply String.eqb_neq in H2.
Qed.

Lemma safe_update_or_expired cb msg w st f k :
  cb_FromUserID cb = u -> contact u (m_ChatID msg) -> step_ok u st f ->
  safely u k -> safely u (update_or_expired cb msg w st f k).
Proof.
  intros Hcb Hc Hf Hk. unfold update_or_expired. rewrite Hcb. apply safe_update_seq; [done|done|]. intros b. tg_step; [tg_auto|done].
Qed.

Lemma safe_take_or_expired cb msg w st k :
  cb_FromUserID cb = u -> contact u (m_ChatID msg) -> safely u k -> safely u (take_or_expired cb msg w st k).
Proof. intros Hcb Hc Hk. unfold take_or_expired. rewrite Hcb. tg_step. destruct a; tg_auto. Qed.

Lemma safe_choose_from {A} cb msg w st (l : list A) i k :
  contact u (m_ChatID msg) -> (forall x, w_state w = st -> x ∈ l -> safely u (k x)) -> safely u (choose_from cb msg w st l i k).
Proof.
  intros Hc Hk. unfold choose_from. destruct (bool_decide_reflect (w_state w = st)) as [Hst|Hst]; cbn [negb]; [|tg_auto].
  unfold at_index. destruct (i <? 0); [tg_auto|]. destruct (l !! Z.to_nat i) as [x|] eqn:Hx; [|tg_auto].
  apply Hk; [done|]. by eapply list_elem_of_lookup_2.
Qed.

Lemma safe_confirm_dns_sync cb msg w :
  cb_FromUserID cb = u -> contact u (m_ChatID msg) -> snapshot_ok u w -> safely u (confirm_dns_sync app cb msg w).
Proof.
  intros Hcb Hc Hw. unfold confirm_dns_sync. pose proof (ok_chat u w Hw). tg_step; [tg_auto|]. tg_step; [tg_auto|]. tg_step; [tg_auto|].
  destruct (bool_decide_reflect (w_state w = stateAwaitingDNSSyncConfirmation)) as [Hst|Hst]; cbn [negb]; [|tg_auto].
  apply safe_update_or_expired; [done|done|typed_update|]. tg_step.
  rewrite (ok_dns_sync u w Hw) by (by rewrite Hst).
  apply safe_call_seq; [split; [done|by apply (ok_dns_sync u w Hw); rewrite Hst]|]. intros r _. cbv zeta. rewrite Hcb.
  apply safe_update_seq; [done|typed_update|]. intros b. tg_auto.
Qed.
End Updates.

#[local] Hint Resolve safe_update_or_expired safe_take_or_expired safe_confirm_dns_sync safe_handleDeploymentCallback : tgsafe.

Section Buttons.
Context (u : Z) (Hu : u ∈ allowed) (ttl : Z) (policy : NodePolicy).

Lemma offered_host w h : snapshot_ok u w -> w_state w = stateSelectingHost -> h ∈ w_hosts w -> selectable h = true.
Proof.
  intros Hw Hst Hin. pose proof (ok_hosts u w Hw) as H. rewrite Hst in H. specialize (H eq_refl).
  rewrite Forall_forall in H. by apply H.
Qed.

Lemma safe_handle_action cb msg w action index :
  cb_FromUserID cb = u -> contact u (m_ChatID msg) -> snapshot_ok u w -> safely u (handle_action app ttl cb msg w action index).
Proof.
  intros Hcb Hc Hw. pose proof (ok_chat u w Hw) as Hchat. unfold handle_action. cbv zeta.
  assert (safely u (expiredCallback cb msg)) as Hexp by tg_auto.
  repeat match goal with
  | |- safe _ (if ?b then _ else _) _ => destruct b eqn:?
  | |- safe _ (expiredCallback _ _) _ => exact Hexp
  | |- safe _ (choose_from _ _ _ _ _ _ _) _ => apply safe_choose_from; [exact Hu|exact Hc|intros ? ? ?]
  | |- safe _ (update_or_expired _ _ _ _ _ _) _ => apply safe_update_or_expired; [exact Hu|exact Hcb|exact Hc| |by eauto with tgsafe]
  | |- safe _ (take_or_expired _ _ _ _ _) _ => apply safe_take_or_expired; [exact Hu|exact Hcb|exact Hc|by eauto with tgsafe]
  | |- safe _ _ _ => by eauto with tgsafe
  end; try (by typed_update).
  - rewrite Hcb. by apply safe_showHostPicker.
  - pose proof (offered_host w x ltac:(done) ltac:(done) ltac:(done)). typed_update.
Qed.

Lemma safe_handleCallback_operator cb :
  cb_FromUserID cb = u -> (forall msg, cb_Message cb = Some msg -> contact u (m_ChatID msg)) ->
  safely u (handleCallback app allowed ttl policy cb).
Proof.
  intros Hcb Hc. unfold handleCallback. cbv zeta. tg_step; [done|]. tg_step; [tg_auto|].
  destruct (cb_Message cb) as [msg|] eqn:Hmsg; [|tg_auto]. specialize (Hc msg eq_refl). tg_step; [tg_auto|].
  destruct (parseNodesCallback _); [eapply safe_seq; [by apply safe_answer|]; intros _ _; tg_auto|].
  destruct (parseDeploymentCallback _) as [[action id]|] eqn:Hd.
  { apply safe_handleDeploymentCallback; [done|done|done|]. unfold parseDeploymentCallback in Hd.
    destruct (Split _ _) as [|p0 [|p1 [|p2 [|]]]]; try done. destruct (String.eqb p0 "dep"); [|done]. cbn [negb orb] in Hd.
    destruct (validDeploymentID p2) eqn:Hv; [|done]. cbn [negb orb] in Hd. destruct (existsb _ _); [|done].
    by injection Hd as _ <-. }
  destruct (parseCallbackData _) as [[[action nonce] index]|]; [|tg_auto]. rewrite Hcb.
  eapply safe_seq; [by apply safe_load|]. intros [[w|] [|]] Hw; cbn [fst] in *; try by tg_auto.
  tg_step; [tg_auto|]. eapply safe_seq; [by apply safe_answer|]. intros _ _. by apply safe_handle_action.
Qed.
End Buttons.

(** Who an update is from, and the chat it comes from. *)
Definition update_from (u : Z) (update : Update) : Prop :=
  match u_CallbackQuery update with
  | Some cb => cb_FromUserID cb = u /\ forall msg, cb_Message cb = Some msg -> contact u (m_ChatID msg)
  | None => match u_Message update with Some m => m_FromUserID m = u /\ contact u (m_ChatID m) | None => True end
  end.

(** Somebody who is no operator gets a refusal. *)
Lemma safe_Handle u ttl policy update :
  update_from u update -> safely u (Handle app allowed ttl policy update).
Proof.
  unfold update_from, Handle. destruct (u_CallbackQuery update) as [cb|]; [|destruct (u_Message update) as [m|]; [|done]].
  - intros [Hcb Hc]. destruct (decide (u ∈ allowed)) as [Hu|Hu]; [by apply safe_handleCallback_operator|].
    unfold handleCallback. cbv zeta. tg_step; [done|]. unfold authorized. rewrite Hcb, bool_decide_false by done. apply safe_call; [by right|done].
  - intros [Hm Hc]. destruct (decide (u ∈ allowed)) as [Hu|Hu]; [by apply safe_handleMessage_operator|].
    unfold handleMessage. cbv zeta. tg_step; [done|]. unfold authorized. rewrite Hm, bool_decide_false by done.
    unfold send. apply safe_call_seq; [|done]. split; [done|by right].
Qed.

(** ** The goroutines *)
Section Workers.
Context (u : Z).

Lemma safe_configureServerIP active :
  snapshot_ok u active -> w_state active = stateAwaitingServerIPPassword -> is_Some (w_password active) ->
  safely u (configureServerIP app active).
Proof.
  intros Hw Hst Hp. unfold configureServerIP. pose proof (ok_provider u active Hw) as Happ. rewrite Hst in Happ.
  specialize (Happ eq_refl). unfold serverProviderAvailable in Happ. pose proof (ok_allowed u active Hw).
  assert (Is4 (w_serverCurrentIP active) = true) by (apply (ok_current_ip u active Hw); rewrite Hst; simpl; lia).
  assert (public_ipv4 (w_serverNewIP active)) by (apply (ok_new_ip u active Hw); rewrite Hst; simpl; lia).
  destruct (w_serverIPProvider active); [done|..]; rewrite Happ; apply safe_call_seq; done.
Qed.

Lemma public_ipv4_ip a : public_ipv4 a -> public_ip a.
Proof.
  intros [text H]. exists text. unfold parsePublicIPv4 in H. destruct (parsePublicIP text) as [b|]; [|done].
  destruct (Is4 b); [|done]. by injection H as ->.
Qed.

Lemma safe_deployment_body taken view :
  wizard_ok u taken -> w_state taken = stateAwaitingConfirmation -> safely u (deployment_body (set_state stateDeploying taken) view).
Proof.
  intros [Hw Hp] Hst. rewrite Hst in Hp. simpl in Hp. pose proof (ok_chat u taken Hw). pose proof (ok_allowed u taken Hw).
  assert (forall v, safely u (show_progress (set_state stateDeploying taken) v)) as Hshow by (intros v; by apply safe_edit_).
  unfold deployment_body. apply safe_call_seq.
  - destruct Hw. rewrite Hst in *. simpl in *. split_and!; [done|done| |auto with lia].
    split_and!; [apply selectable_id|..]; auto with lia. by apply Hp; lia.
  - intros [reports err] _. apply (safe_seq _ _ _ (fun _ => True)); [|intros view' _; apply Hshow].
    apply (safe_fold_each _ _ _ _ (fun _ => True)); [done| |done]. intros v p _. by eapply safe_seq; [apply Hshow|].
Qed.

Lemma worker_allowed w : worker_ok u w -> u ∈ allowed.
Proof. destruct w; simpl; [intros [[] _]|intros [[] _]|intros (taken & [[] _] & _)|intros [H _]]; done. Qed.

Lemma safe_run_worker w : worker_ok u w -> safely u (run_worker app w).
Proof.
  intros H. assert (u ∈ allowed) as Hu by (by eapply worker_allowed).
  assert (safely u (call WorkersDone)) as Hdone by (by apply safe_call).
  destruct w as [active id|active id|active view|chat m from action id details]; simpl in *.
  - destruct H as (Hw & Hst & Hp). repeat (apply safe_finally; [done || by apply safe_clear|]). unfold server_ip_body.
    pose proof (ok_chat u active Hw). pose proof (ok_allowed u active Hw).
    eapply safe_seq; [by apply safe_configureServerIP|]. intros [text|] _; [|tg_auto].
    destruct (w_serverUpdateNode active) eqn:Hn; [|tg_auto]. pose proof (ok_update_node u active Hw Hn) as Happ. rewrite Happ.
    apply safe_call_seq; [split_and!; [done|done|apply public_ipv4_ip, (ok_new_ip u active Hw); rewrite Hst; simpl; lia]|].
    intros r _. tg_auto.
  - destruct H as (Hw & Hst & Hp). repeat (apply safe_finally; [done || by apply safe_clear|]). unfold node_move_body.
    pose proof (ok_chat u active Hw). pose proof (ok_allowed u active Hw).
    assert (NodeHostMoveApplication app = true) as Happ by (apply (ok_move u active Hw); by rewrite Hst). rewrite Happ.
    cbv zeta. apply safe_call_seq; [by split_and!|]. intros r _. by apply safe_edit_.
  - destruct H as (taken & Hw & Hst & ->). repeat (apply safe_finally; [done || by apply safe_clear|]). by apply safe_deployment_body.
  - destruct H as (_ & -> & Hc & Happ & _ & Hid & _). apply safe_finally; [done|]. unfold runDeploymentAction.
    assert (id <> "") as Hne by (by intros ->).
    apply (safe_seq _ _ _ (fun _ => True)); [|intros [result failed] _; by apply safe_ignored, safe_showDeploymentCard].
    repeat (tg_step; try done). Qed.
End Workers.

(** ** The table implements the contract *)
Definition spawned (p : principal) X (e : tgE X) : list (principal * T unit) :=
  match e with Go w => [(p, run_worker app w)] | _ => [] end.

(** What can arrive: updates, expired timers and the shutdown. *)
Inductive tg_arrives (ttl : Z) (policy : NodePolicy) : principal -> T unit -> Prop :=
  | arrive_update u update : update_from u update ->
      tg_arrives ttl policy (Operator u) (ignored (Handle app allowed ttl policy update))
  | arrive_timer u nonce : tg_arrives ttl policy (Operator u) (expiry_callback u nonce)
  | arrive_close : tg_arrives ttl policy Process Close.

Definition tg_inv (s : ctl) : Prop := forall u w, c_sessions s !! u = Some w -> wizard_ok u w.

Lemma safe_expiry_callback u nonce : safely u (expiry_callback u nonce).
Proof.
  unfold expiry_callback. apply safe_call_seq; [done|]. intros [|id] H; [done|]. by apply safe_cancelPrepared, H.
Qed.

Lemma safe_Close : safe Process Close (fun _ => True).
Proof.
  unfold Close. apply safe_call_seq; [done|]. intros sessions _. apply safe_for_each; [|done]. intros w _.
  unfold cancelPrepared. destruct (String.eqb_spec (TrimSpace (prepared_id w)) "") as [|Hn]; [done|]. by apply safe_call_seq.
Qed.

Lemma wizard_ok_renewed u w t : wizard_ok u w -> wizard_ok u (scheduleExpiryLocked (set_expiresAt t w)).
Proof. by intros [[] Hp]. Qed.

Lemma wizard_ok_timer u b w : wizard_ok u w -> wizard_ok u (set_expiryTimer b w).
Proof. by intros [[] Hp]. Qed.

Lemma clone_ok u w : wizard_ok u w -> snapshot_ok u (clone w).
Proof. by intros [[] Hp]. Qed.

Lemma wizard_prepared u w : wizard_ok u w -> prepared_ok u (prepared_id w).
Proof. intros H. by apply snapshot_prepared, wizard_snapshot. Qed.

Lemma inv_delete s u w : tg_inv s -> tg_inv (clear_and_delete u w s).
Proof. intros H u' w' Hw. apply (H u'). simpl in Hw. by apply lookup_delete_Some in Hw as [_ Hw]. Qed.

Lemma inv_delete_session s u : tg_inv s -> tg_inv (delete_session u s).
Proof. intros H u' w' Hw. apply (H u'). simpl in Hw. by apply lookup_delete_Some in Hw as [_ Hw]. Qed.

Lemma inv_insert s u w h t : tg_inv s -> wizard_ok u w -> tg_inv (mkCtl (<[u := w]> (c_sessions s)) h t).
Proof.
  intros H Hw u' w' Hl. simpl in Hl. apply lookup_insert_Some in Hl as [[-> ->]|[_ Hl]]; [done|by apply H].
Qed.

(** An update that keeps the type of the conversation. *)
Lemma update_keeps ttl now1 now2 now3 u nonce st f s r s' :
  tg_inv s -> (forall w h, wizard_ok u w -> w_state w = st -> wizard_ok u (fst (f w h))) ->
  (r, s') = updateSession ttl now1 now2 now3 u nonce st f s ->
  tg_inv s' /\ match r with UpdateExpired id => prepared_ok u id | _ => True end.
Proof.
  intros HI Hf. unfold updateSession. destruct (c_sessions s !! u) as [w|] eqn:Hw; [|by intros [= -> ->]].
  pose proof (HI u w Hw) as Hok. destruct (applicable now1 nonce st w) eqn:Happ.
  - apply andb_true_iff in Happ as [Happ _]. apply andb_true_iff in Happ as [_ Hst]. apply bool_decide_eq_true in Hst.
    specialize (Hf w (c_heap s) Hok Hst). destruct (f w (c_heap s)) as [w' h]. intros [= -> ->]. split; [|done].
    by apply inv_insert, wizard_ok_renewed.
  - destruct (expired now2 w); intros [= -> ->]; [|done]. split; [by apply inv_delete|by apply wizard_prepared].
Qed.

(** The calls of an operator keep the invariant and give what they promise. *)
Lemma operator_step ttl u X (e : tgE X) s x s' :
  operator_may u e -> tg_inv s -> tg_exec ttl e s x s' -> tg_inv s' /\ operator_promised u e x.
Proof.
  intros Hmay HI Hs. destruct e; simpl in Hmay, Hs |- *; try (subst s'; done).
  - by destruct Hs as [_ ->].
  - by destruct Hs as [-> _].
  - by destruct Hs as [_ ->].
  - by destruct Hs as (b & -> & _ & ->).
  - subst s'. split; [|done]. destruct Hmay as [[Hw Hp] _]. pose proof (ok_user u session Hw) as <-.
    apply inv_insert; [done|]. by apply wizard_ok_timer.
  - destruct Hmay as [Hu ->], Hs as (now & _ & Hs). unfold loadSession in Hs. simpl in Hs.
    destruct (c_sessions s !! u) as [w|] eqn:Hw; [|by injection Hs as -> ->].
    destruct (expired now w); injection Hs as -> ->.
    + split; [by apply inv_delete|by apply wizard_prepared, HI].
    + split; [done|by apply clone_ok, HI].
  - destruct Hmay as (Hu & -> & Hf), Hs as (n1 & n2 & n3 & _ & _ & Hs). refine (update_keeps _ _ _ _ _ _ _ _ _ _ _ _ _ Hs); [done|]. intros w h Hw Hst. by apply Hf.
  - destruct Hmay as (Hu & -> & Hf), Hs as (n1 & n2 & n3 & b & _ & _ & _ & Hs).
    refine (update_keeps _ _ _ _ _ _ _ _ _ _ _ _ _ Hs); [done|]. intros w h Hw Hst. by apply Hf.
  - destruct Hmay as [Hu ->], Hs as (n1 & n2 & _ & Hs). unfold takeSession in Hs. simpl in Hs.
    destruct (c_sessions s !! u) as [w|] eqn:Hw; [|by injection Hs as -> ->].
    destruct (applicable n1 nonce state w) eqn:Happ; [|destruct (expired n2 w)]; injection Hs as -> ->; [|..|done].
    + split; [by apply inv_delete_session|]. split; [by apply wizard_ok_timer, HI|].
      apply andb_true_iff in Happ as [Happ _]. apply andb_true_iff in Happ as [_ Hst]. by apply bool_decide_eq_true in Hst.
    + split; [by apply inv_delete|by apply wizard_prepared, HI].
  - destruct Hmay as [Hu ->], Hs as (n1 & n2 & b & _ & _ & Hs). unfold copyPassword in Hs. simpl in Hs.
    destruct (c_sessions s !! u) as [w|] eqn:Hw; [|by injection Hs as -> ->].
    destruct (_ && _); [by injection Hs as -> ->|]. destruct (expired n2 w); injection Hs as -> ->; [|done].
    split; [by apply inv_delete|by apply wizard_prepared, HI].
  - destruct Hmay as [Hu ->], Hs as [-> ->]. split; [by apply inv_delete_session|].
    destruct (c_sessions s !! u) as [w|] eqn:Hw; [|done]. by apply HI.
  - done.
  - rewrite Hmay in Hs. destruct Hs as (now & _ & Hs). unfold fireExpiry in Hs. simpl in Hs.
    destruct (c_sessions s !! u) as [w|] eqn:Hw; [|by injection Hs as -> ->].
    destruct (_ || _); injection Hs as -> ->; [done|]. split; [by apply inv_delete|by apply wizard_prepared, HI].
Qed.

(** *** One step of a conversation *)

(** The conversation was there before, or is put by the call. *)
Definition continues (st st' : wizardState) : Prop := st' = st \/ leads_to st st' = true.
Definition comes_from {X} (s : ctl) (e : tgE X) (u : Z) (w' : wizard) : Prop :=
  (exists w, c_sessions s !! u = Some w /\ w_nonce w' = w_nonce w /\ continues (w_state w) (w_state w')) \/
  match e with
  | PutSession session => w_userID session = u /\ w_nonce w' = w_nonce session /\ w_state w' = w_state session /\ entry_state (w_state session) = true
  | _ => False
  end.

Lemma comes_kept {X} s s1 (e : tgE X) u w' :
  c_sessions s1 = c_sessions s -> c_sessions s1 !! u = Some w' -> comes_from s e u w'.
Proof. intros -> H. left. exists w'. split_and!; [done|done|by left]. Qed.

Lemma comes_deleted {X} s s1 (e : tgE X) u u' w' :
  c_sessions s1 = delete u (c_sessions s) -> c_sessions s1 !! u' = Some w' -> comes_from s e u' w'.
Proof. intros -> [_ H]%lookup_delete_Some. by eapply comes_kept. Qed.

Lemma update_continues {X} ttl now1 now2 now3 u nonce st f s t r s' u' w' (e : tgE X) :
  tg_inv s ->
  (forall w h, wizard_ok u w -> w_state w = st -> w_nonce (fst (f w h)) = w_nonce w /\ leads_to st (w_state (fst (f w h))) = true) ->
  (r, s') = updateSession ttl now1 now2 now3 u nonce st f (at_time t s) -> c_sessions s' !! u' = Some w' -> comes_from s e u' w'.
Proof.
  intros HI Hf. unfold updateSession. simpl. destruct (c_sessions s !! u) as [w|] eqn:Hw; [|intros [= -> ->]; by eapply comes_kept].
  destruct (applicable now1 nonce st w) eqn:Happ.
  - apply andb_true_iff in Happ as [Happ _]. apply andb_true_iff in Happ as [_ Hst]. apply bool_decide_eq_true in Hst.
    specialize (Hf w (c_heap s) (HI u w Hw) Hst). destruct (f w (c_heap s)) as [w1 h]. intros [= -> ->]. simpl.
    intros [[-> <-]|[_ Hl]]%lookup_insert_Some; [|by eapply comes_kept]. left. exists w. subst st. simpl in *. destruct Hf.
    split_and!; [done|done|by right].
  - destruct (expired now2 w); intros [= -> ->]; [by eapply comes_deleted|by eapply comes_kept].
Qed.

Lemma step_continues ttl u X (e : tgE X) s x s' u' w' :
  operator_may u e -> tg_inv s -> tg_exec ttl e s x s' -> c_sessions s' !! u' = Some w' -> comes_from s e u' w'.
Proof.
  intros Hmay HI Hs. destruct e; simpl in Hmay, Hs; try (subst s'; by eapply comes_kept); try done.
  - destruct Hs as [_ ->]. by eapply comes_kept.
  - destruct Hs as [-> _]. by eapply comes_kept.
  - destruct Hs as [_ ->]. by eapply comes_kept.
  - destruct Hs as (b & -> & _ & ->). by eapply comes_kept.
  - subst s'. destruct Hmay as [_ He]. simpl. intros [[<- <-]|[_ Hl]]%lookup_insert_Some; [|by eapply comes_kept]. by right.
  - destruct Hs as (now & _ & Hs). unfold loadSession in Hs. simpl in Hs.
    destruct (c_sessions s !! userID); [destruct (expired _ _)|]; injection Hs as -> ->; [by eapply comes_deleted|(by eapply comes_kept)..].
  - destruct Hmay as (_ & -> & Hf), Hs as (n1 & n2 & n3 & _ & _ & Hs). refine (update_continues _ _ _ _ _ _ _ _ _ _ _ _ _ _ _ HI _ Hs).
    intros w h Hw Hst. by apply Hf.
  - destruct Hmay as (_ & -> & Hf), Hs as (n1 & n2 & n3 & b & _ & _ & _ & Hs). refine (update_continues _ _ _ _ _ _ _ _ _ _ _ _ _ _ _ HI _ Hs).
    intros w h Hw Hst. by apply (Hf b).
  - destruct Hs as (n1 & n2 & _ & Hs). unfold takeSession in Hs. simpl in Hs.
    destruct (c_sessions s !! userID); [destruct (applicable _ _ _ _); [|destruct (expired _ _)]|]; injection Hs as -> ->;
      [by eapply comes_deleted|by eapply comes_deleted|(by eapply comes_kept)..].
  - destruct Hs as (n1 & n2 & b & _ & _ & Hs). unfold copyPassword in Hs. simpl in Hs.
    destruct (c_sessions s !! userID); [destruct (_ && _); [|destruct (expired _ _)]|]; injection Hs as -> ->;
      [by eapply comes_kept|by eapply comes_deleted|(by eapply comes_kept)..].
  - destruct Hs as [-> ->]. by eapply comes_deleted.
  - destruct Hs as (now & _ & Hs). unfold fireExpiry in Hs. simpl in Hs.
    destruct (c_sessions s !! userID); [destruct (_ || _)|]; injection Hs as -> ->; [by eapply comes_kept|by eapply comes_deleted|by eapply comes_kept].
Qed.

#[export] Instance controller_implements ttl policy :
  Implements (fun X e s x s' => tg_exec ttl e s x s') spawned (tg_arrives ttl policy) tg_inv.
Proof.
  split.
  - intros [u|] X e s x s' Hmay HI Hs; [by destruct (operator_step ttl u X e s x s' Hmay HI Hs)|]. destruct e; try done; simpl in Hs.
    + by subst.
    + destruct Hs as [_ ->]. intros u w Hw. simpl in Hw. by apply lookup_empty_Some in Hw.
  - intros [u|] X e s x s' Hmay HI Hs; [by destruct (operator_step ttl u X e s x s' Hmay HI Hs)|done].
  - intros [u|] X e u' p Hmay Hin; (destruct e; simpl in Hin; try (by apply not_elem_of_nil in Hin)).
    + apply list_elem_of_singleton in Hin as [= -> ->]. by apply safe_run_worker.
    + done.
  - intros p prog [u update H|u nonce|].
    + by apply safe_ignored, safe_Handle.
    + apply safe_expiry_callback.
    + apply safe_Close.
Qed.

(** A fresh controller. *)
Definition initial (now : Z) : ctl := mkCtl ∅ ∅ now.

Lemma initial_ok now : pool_ok tg_inv ([], initial now).
Proof. split; [|done]. intros u w Hw. simpl in Hw. by apply lookup_empty_Some in Hw. Qed.
End Contract.
