(* ===== verification/TgFacts.v ===== *)
(** * What the controller does, in every interleaving

    The theorems about the conversations of the bot: from the contract of
    [TgContract], what every goroutine does next in every interleaving of
    updates, timers and goroutines; then, handler by handler, what precedes a
    call that changes a server, what becomes of the passwords, and how often
    a confirmation can be used. *)

From S2P Require Import Prelude GoStrings Utf8 Unicode GoText NetIP Effects Threads TgTypes TgProgress TgNodes TgSessions TgRender TgController TgContract.

#[local] Open Scope Z_scope.

(** ** A sample controller for the witnesses *)
Definition all_capabilities : Capabilities := mkCapabilities true true true true true true.
Definition sample_allowed : gset Z := {[42]}.
Definition sample_contact (u chat : Z) : Prop := u = chat.
Definition sample_id := "01234567-89ab-cdef-0123-456789abcdef".

Section Interleavings.
Context {sorting : GoSort} (app : Capabilities) (allowed : gset Z) (contact : Z -> Z -> Prop) (ttl : Z) (policy : NodePolicy).

(** A run of a fresh controller. *)
Definition controller_run (now : Z) (tr : list (event tgE)) (ts : list (principal * T unit)) (s : ctl) : Prop :=
  pool_run (fun X e s x s' => tg_exec ttl e s x s') (spawned app) (tg_arrives app allowed contact ttl policy)
    ([], initial now) tr (ts, s).

Lemma run_ok now tr ts s : controller_run now tr ts s -> pool_ok (contract := tg_contract app allowed contact) (tg_inv app allowed contact) (ts, s).
Proof. intros H. exact (pool_adequate _ _ _ _ _ _ _ (initial_ok app allowed contact now) H). Qed.

Lemma run_next now tr ts s u X (e : tgE X) k :
  controller_run now tr ts s -> (Operator u, Vis e k) ∈ ts -> operator_may app allowed contact u e.
Proof. intros H Hin. exact (pool_next_call _ _ _ _ _ _ _ _ (Operator u) _ _ _ (initial_ok app allowed contact now) H Hin). Qed.

(** C7. Whatever updates arrive, in whatever order their handlers, the
    goroutines they start, the expiry timers and the shutdown make their
    calls, every conversation of the table belongs to an allowed operator, is
    in a chat that operator used, holds what its state needs (a selected
    Host, a checked name, a public address, a prepared deployment, an
    available provider) and a password exactly from the preflight on.  And
    every call a goroutine makes next is one its operator may make: for an
    allowed operator, on that operator's own conversation, with inputs that
    passed the checks of the dialogue (a deployment or its preflight is the
    operator's own, with a Host, a valid Node name, a public address and a
    password; a Node gets a public address; a server gets a public IPv4;
    recovery names a deployment by a valid identifier), and never the panic
    of a failed type assertion. *)
Theorem conversations_stay_well_typed now tr ts s :
  controller_run now tr ts s ->
  (forall u w, c_sessions s !! u = Some w -> wizard_ok app allowed contact u w) /\
  (forall u X (e : tgE X) k, (Operator u, Vis e k) ∈ ts -> operator_may app allowed contact u e).
Proof. intros H. split; [apply (run_ok _ _ _ _ H)|]. intros u X e k. by apply (run_next now tr ts s). Qed.

(** The refusals, and the expiry timers that anybody may start. *)
Definition refusal {X} (u : Z) (e : tgE X) : Prop :=
  match e with
  | SendMessage chatID text keyboard => contact u chatID /\ text = "Access denied." /\ keyboard = no_keyboard
  | AnswerCallback _ text => text = "Access denied."
  | FireExpiry userID _ => userID = u
  | _ => False
  end.

Lemma outsider_may u X (e : tgE X) : u ∉ allowed -> operator_may app allowed contact u e -> refusal u e.
Proof.
  intros Hu. destruct e; simpl; try (by intros []); try done.
  - by intros [Hc [Hin|[-> ->]]].
  - by intros Hw%worker_allowed.
  - by intros [[[] _] _].
Qed.

(** C10. In every interleaving, the updates of somebody who is no allowed
    operator do nothing but get a refusal in the chat they came from: no call
    of the application, no conversation, no goroutine. *)
Theorem outsiders_are_refused now tr ts s u X (e : tgE X) k :
  u ∉ allowed -> controller_run now tr ts s -> (Operator u, Vis e k) ∈ ts -> refusal u e.
Proof. intros Hu H Hin. eapply outsider_may; [done|]. by eapply run_next. Qed.

(** *** The history of a conversation *)
Notation controller_step := (pool_step (fun X e s x s' => tg_exec ttl e s x s') (spawned app) (tg_arrives app allowed contact ttl policy)).

Lemma call_continues p X (e : tgE X) s x s' u w' :
  may_call (Contract := tg_contract app allowed contact) p X e -> tg_inv app allowed contact s -> tg_exec ttl e s x s' ->
  c_sessions s' !! u = Some w' -> comes_from s e u w'.
Proof.
  destruct p as [v|]; [by apply step_continues|]. destruct e; try done; simpl; intros _ _ Hs Hl.
  - subst s'. by eapply comes_kept.
  - destruct Hs as [_ ->]. simpl in Hl. by apply lookup_empty_Some in Hl.
Qed.

(** Conversations follow the graph of the dialogues: whatever happens
    next in any interleaving, the conversation of an operator afterwards is
    either a new one in a state a dialogue begins in, or the one before,
    under the same nonce and in the same state or one its state leads to.  So
    none is ever confirmed, or asked for its password, past the steps that
    come before. *)
Theorem dialogues_follow_their_graph now tr ts s ev ts' s' u w' :
  controller_run now tr ts s -> controller_step (ts, s) ev (ts', s') -> c_sessions s' !! u = Some w' ->
  entry_state (w_state w') = true \/
  exists w, c_sessions s !! u = Some w /\ w_nonce w' = w_nonce w /\ continues (w_state w) (w_state w').
Proof.
  intros Hr Hs Hl. destruct (run_ok _ _ _ _ Hr) as [HI HT]. rewrite Forall_forall in HT.
  inversion Hs as [t1 t2 v X e k s0 x s1 He|]; subst; [|right; exists w'; split_and!; [done|done|by left]].
  assert (comes_from s e u w') as [Hw|Hp]; [|by right|].
  - refine (call_continues v X e s x s' u w' _ HI He Hl).
    destruct (HT (v, Vis e k)) as [Hmay _]; [apply elem_of_app; right; left|done].
  - left. destruct e; try done. by destruct Hp as (_ & _ & -> & ?).
Qed.

(** *** How often a conversation is taken *)
Section Once.
Context (u : Z) (nonce : string).

Definition is_put (ev : event tgE) : nat :=
  match ev_op ev with PutSession w => if (w_userID w =? u) && String.eqb (w_nonce w) nonce then 1%nat else 0%nat | _ => 0%nat end.
Definition is_taken (ev : event tgE) : nat :=
  let '@Ev _ X e x := ev in
  (match e in tgE X return X -> nat with
   | TakeSession userID n _ => fun r =>
     match r with Taken _ => if (userID =? u) && String.eqb n nonce then 1%nat else 0%nat | _ => 0%nat end
   | _ => fun _ => 0%nat
   end) x.
Definition stored (s : ctl) : nat :=
  match c_sessions s !! u with Some w => if String.eqb (w_nonce w) nonce then 1 else 0 | None => 0 end%nat.
Definition total (f : event tgE -> nat) (tr : list (event tgE)) : nat := sum_list_with f tr.

Lemma stored_bound s : (stored s <= 1)%nat.
Proof. unfold stored. destruct (c_sessions s !! u); [destruct (String.eqb _ _)|]; lia. Qed.

Lemma take_step X (e : tgE X) s x s' : tg_exec ttl e s x s' -> is_taken (Ev e x) = 1%nat -> stored s = 1%nat /\ stored s' = 0%nat.
Proof.
  destruct e; try done. simpl. intros (n1 & n2 & _ & Hs) Ht. destruct x as [| |w]; try done.
  destruct (Z.eqb_spec userID u) as [->|]; [|done]. destruct (String.eqb_spec nonce0 nonce) as [->|]; [|done].
  unfold takeSession in Hs. simpl in Hs. unfold stored. destruct (c_sessions s !! u) as [w0|]; [|done].
  destruct (applicable _ _ _ _) eqn:Ha; [|by destruct (expired _ _)]. injection Hs as _ ->. simpl. rewrite lookup_delete_eq.
  apply andb_true_iff in Ha as [Ha _]. apply andb_true_iff in Ha as [Ha _]. by rewrite Ha.
Qed.

Lemma count_step p X (e : tgE X) s x s' :
  may_call (Contract := tg_contract app allowed contact) p X e -> tg_inv app allowed contact s -> tg_exec ttl e s x s' ->
  (is_taken (Ev e x) + stored s' <= is_put (Ev e x) + stored s)%nat.
Proof.
  intros Hmay HI Hs. assert (is_taken (Ev e x) = 0 \/ is_taken (Ev e x) = 1)%nat as [H0|H1].
  { destruct e; simpl; auto. destruct x; auto. destruct (_ && _); auto. }
  - rewrite H0. destruct (c_sessions s' !! u) as [w'|] eqn:Hl; [|unfold stored at 1; rewrite Hl; lia].
    destruct (String.eqb_spec (w_nonce w') nonce) as [Hn|Hn].
    + pose proof (stored_bound s'). destruct (call_continues p X e s x s' u w' Hmay HI Hs Hl) as [(w & Hw & Hww & _)|Hp].
      * unfold stored at 2. rewrite Hw, <- Hww, Hn, String.eqb_refl. lia.
      * destruct e; try done. destruct Hp as (Hu & Hww & _). cbn [is_put ev_op]. rewrite Hu, <- Hww, Hn, Z.eqb_refl, String.eqb_refl. simpl. lia.
    + unfold stored at 1. rewrite Hl. destruct (String.eqb_spec (w_nonce w') nonce); [done|lia].
  - destruct (take_step X e s x s' Hs H1). lia.
Qed.

(** C9. A confirmation is used at most once: in every interleaving, a
    conversation is taken out of the table (which every deployment, server
    change and move begins with) at most as often as one was put there under
    its nonce, however many times its button is pressed or its password is
    sent at the same time. *)
Theorem a_confirmation_is_used_once now tr ts s :
  controller_run now tr ts s -> (total is_taken tr <= total is_put tr)%nat.
Proof.
  enough (forall c tr c', pool_run (fun X e s x s' => tg_exec ttl e s x s') (spawned app) (tg_arrives app allowed contact ttl policy) c tr c' ->
    pool_ok (contract := tg_contract app allowed contact) (tg_inv app allowed contact) c ->
    (total is_taken tr + stored (snd c') <= total is_put tr + stored (snd c))%nat) as H.
  { intros Hr. pose proof (H _ _ _ Hr (initial_ok app allowed contact now)). simpl in H0.
    assert (stored (initial now) = 0%nat) by (unfold stored; simpl; by rewrite lookup_empty). lia. }
  intros c tr' c' Hr Hok. induction Hr as [c|c1 ev c2 tr0 c3 Hr IH Hs]; [done|]. specialize (IH Hok).
  destruct (pool_adequate _ _ _ _ _ _ _ Hok Hr) as [HI HT]. rewrite Forall_forall in HT.
  destruct Hs as [t1 t2 v X e k s0 x s1 He|]; cbn [fst snd] in *; [|by rewrite app_nil_r].
  unfold total in *. rewrite !sum_list_with_app. change (option_list (Some (Ev e x))) with [Ev e x]. cbn [sum_list_with].
  destruct (HT (v, Vis e k)) as [Hmay _]; [apply elem_of_app; right; left|]. pose proof (count_step v X e s0 x s1 Hmay HI He). lia.
Qed.
End Once.
End Interleavings.

(** ** Witnesses *)
Definition sample_recheck : Update := mkUpdate 1 (Some (mkMessage 10 42 42 ("/recheck " +:+ sample_id))) None.
Definition sample_stranger : Update := mkUpdate 2 (Some (mkMessage 11 7 7 "/menu")) None.
Notation sample_run := (controller_run (sorting := insertion_GoSort) all_capabilities sample_allowed sample_contact (15 * Minute) 50 0).
Definition sample_handle (update : Update) : T unit :=
  ignored (Handle (H := insertion_GoSort) all_capabilities sample_allowed (15 * Minute) 50 update).

Lemma sample_arrival u update :
  update_from sample_contact u update -> sample_run [] [(Operator u, sample_handle update)] (initial 0).
Proof.
  intros H. refine (pool_more _ _ _ _ None _ [] _ (pool_done _ _ _ _) _). apply (pool_arrive _ _ _ []). by constructor.
Qed.

(** What is left of the first after its call. *)
Definition recheck_rest (r : option string) : T unit :=
  ignored (match r with
           | None => sendActionResult 42 true ""
           | Some result => send 42 (safeLine result 300) mainKeyboard
           end).

Lemma conversations_stay_well_typed_witness :
  operator_may all_capabilities sample_allowed sample_contact 42 (RecheckRemnawave sample_id).
Proof.
  assert (update_from sample_contact 42 sample_recheck) as H by done.
  refine (proj2 (conversations_stay_well_typed _ _ _ _ _ _ _ _ _ (sample_arrival 42 sample_recheck H)) _ _ _ recheck_rest _).
  apply list_elem_of_singleton. reflexivity.
Defined.

Lemma outsiders_are_refused_witness : refusal sample_contact 7 (SendMessage 7 "Access denied." no_keyboard).
Proof.
  assert (update_from sample_contact 7 sample_stranger) as H by done.
  refine (outsiders_are_refused _ _ _ _ _ _ _ _ _ _ _ _ (fun _ => mret tt) _ (sample_arrival 7 sample_stranger H) _).
  - intros Hin. by apply elem_of_singleton in Hin.
  - apply list_elem_of_singleton. reflexivity.
Defined.

(** A dialogue that begins: the operator asks to change an address. *)
Lemma run_call tr p X (e : tgE X) k x s s' :
  sample_run tr [(Operator 42, p)] s -> p = Vis e k -> spawned all_capabilities (Operator 42) X e = [] ->
  tg_exec (15 * Minute) e s x s' -> sample_run (tr ++ [Ev e x]) [(Operator 42, k x)] s'.
Proof.
  intros Hr -> Hs He. refine (pool_more _ _ _ _ (Some (Ev e x)) _ tr _ Hr _).
  assert (H := pool_call (fun X e s x s' => tg_exec (15 * Minute) e s x s') (spawned all_capabilities)
    (tg_arrives (sorting := insertion_GoSort) all_capabilities sample_allowed sample_contact (15 * Minute) 50) [] [] (Operator 42) X e k s x s' He).
  rewrite Hs in H. exact H.
Qed.

Definition sample_change : Update := mkUpdate 1 (Some (mkMessage 10 42 42 MenuChangeIP)) None.
Definition sample_begun : wizard := new_wizard 42 42 "AAAAAAAAAAAA" stateSelectingIPMode (15 * Minute).
Definition sample_begin : list (event tgE) :=
  [Ev (DropSession 42) None; Ev RandomBytes (Some (replicate 9 0)); Ev CurrentTime 0].

Lemma sample_before_put : exists k, sample_run sample_begin [(Operator 42, Vis (PutSession sample_begun) k)] (initial 0).
Proof.
  assert (tg_exec (15 * Minute) RandomBytes (initial 0) (Some (replicate 9 0)) (initial 0)) as Hb.
  { split; [done|]. intros bytes [= <-]. split; [done|]. repeat constructor; lia. }
  assert (update_from sample_contact 42 sample_change) as H by done. pose proof (sample_arrival 42 sample_change H) as H0.
  pose proof (run_call _ _ _ (DropSession 42) _ None _ (initial 0) H0 eq_refl eq_refl (conj eq_refl eq_refl)) as H1.
  pose proof (run_call _ _ _ RandomBytes _ (Some (replicate 9 0)) _ (initial 0) H1 eq_refl eq_refl Hb) as H2.
  pose proof (run_call _ _ _ CurrentTime _ 0 _ (initial 0) H2 eq_refl eq_refl (conj (Z.le_refl 0) eq_refl)) as H3.
  eexists. exact H3.
Qed.

Lemma dialogues_follow_their_graph_witness : entry_state (w_state (scheduleExpiryLocked sample_begun)) = true.
Proof.
  destruct sample_before_put as [k Hr].
  assert (Hs := pool_call (fun X e s x s' => tg_exec (15 * Minute) e s x s') (spawned all_capabilities)
    (tg_arrives (sorting := insertion_GoSort) all_capabilities sample_allowed sample_contact (15 * Minute) 50) [] [] (Operator 42) _
    (PutSession sample_begun) k (initial 0) tt _ eq_refl).
  destruct (dialogues_follow_their_graph _ _ _ _ _ _ _ _ _ _ _ _ 42 (scheduleExpiryLocked sample_begun) Hr Hs) as [H|(w & Hw & _)];
    [reflexivity|exact H|].
  simpl in Hw. by apply lookup_empty_Some in Hw.
Defined.

Lemma a_confirmation_is_used_once_witness :
  (total (is_taken 42 "AAAAAAAAAAAA") (sample_begin ++ [Ev (PutSession sample_begun) tt]) <=
   total (is_put 42 "AAAAAAAAAAAA") (sample_begin ++ [Ev (PutSession sample_begun) tt]))%nat.
Proof.
  destruct sample_before_put as [k Hr].
  exact (a_confirmation_is_used_once _ _ _ _ _ 42 "AAAAAAAAAAAA" _ _ _ _
    (run_call _ _ _ (PutSession sample_begun) k tt _ _ Hr eq_refl eq_refl eq_refl)).
Defined.
