(* ===== verification/TgCalls.v ===== *)
(** * The programs every handler is made of

    Which calls the small programs of [internal/telegram/controller.go] can
    make: messages, reads of the application and of the table, updates of the
    conversation and zeroed buffers, but nothing that changes a server and
    nothing that gets a password.  [mild] programs may give up a buffer,
    [basic] ones not even that. *)

From S2P Require Import Prelude GoStrings Utf8 Unicode GoText NetIP Effects TgTypes TgProgress TgNodes TgSessions TgRender TgController.

#[local] Open Scope Z_scope.

(** The calls that change something outside the bot. *)
Definition changes {X} (e : tgE X) : bool :=
  match e with
  | Go _ | StartDeployment _ | ReplaceNodeIP _ | MoveNodeToHost _ | SyncNodeDNS _ | ConfigureCherryIP _ | ConfigureRoyalIP _
  | BootstrapCertificate _ _ | RetryFailedStep _ | RetryDNS _ | RecheckRemnawave _ => true
  | _ => false
  end.
(** The calls that get a password buffer. *)
Definition acquires {X} (e : tgE X) : bool :=
  match e with NewBuffer _ | AppendBuffer _ _ | CopyPassword _ _ _ | TakeSession _ _ _ | DropSession _ => true | _ => false end.

(** The calls that give one up, to nobody, to the table or to a goroutine. *)
Definition releases {X} (e : tgE X) : bool :=
  match e with ClearBuffer _ | PutSession _ | Go _ => true | _ => false end.

Definition mild X (e : tgE X) : bool := negb (changes e) && negb (acquires e).
Definition keeps X (e : tgE X) : bool := negb (acquires e) && negb (releases e).
Definition basic X (e : tgE X) : bool := negb (changes e) && negb (acquires e) && negb (releases e).
Definition changes_nothing X (e : tgE X) : bool := negb (changes e).
Definition takes_nothing X (e : tgE X) : bool := negb (acquires e).

Lemma basic_mild {A} (p : T A) : calls_only basic p -> calls_only mild p.
Proof. apply calls_only_impl. unfold basic, mild. by intros X e [H _]%andb_true_iff. Qed.
Lemma basic_keeps {A} (p : T A) : calls_only basic p -> calls_only keeps p.
Proof. apply calls_only_impl. intros X e. by destruct e. Qed.
Lemma mild_changes_nothing {A} (p : T A) : calls_only mild p -> calls_only changes_nothing p.
Proof. apply calls_only_impl. unfold mild. by intros X e [H _]%andb_true_iff. Qed.
Lemma mild_takes_nothing {A} (p : T A) : calls_only mild p -> calls_only takes_nothing p.
Proof. apply calls_only_impl. unfold mild. by intros X e [_ H]%andb_true_iff. Qed.

Create HintDb tgcalls.
#[export] Hint Extern 1 (calls_only _ (call _)) => apply calls_only_call; reflexivity : tgcalls.
#[export] Hint Extern 2 (calls_only changes_nothing _) => apply mild_changes_nothing : tgcalls.
#[export] Hint Extern 2 (calls_only takes_nothing _) => apply mild_takes_nothing : tgcalls.
#[export] Hint Extern 2 (calls_only mild _) => apply basic_mild : tgcalls.
#[export] Hint Extern 2 (calls_only keeps _) => apply basic_keeps : tgcalls.

(** Decides [calls_only] for the programs of the controller. *)
Ltac tgcalls_step :=
  first [ calls_step | solve [eauto with tgcalls]
        | lazymatch goal with |- calls_only _ (let _ := _ in _) => cbv zeta end
        | lazymatch goal with |- calls_only _ (panic_with _) => apply calls_only_vis; [reflexivity|intros []] end ].
Ltac tgcalls_auto := repeat tgcalls_step.

Lemma ignored_calls (P : forall X, tgE X -> bool) {A} (p : T A) : calls_only P p -> calls_only P (ignored p).
Proof. intros H. unfold ignored. by tgcalls_auto. Qed.
#[export] Hint Resolve ignored_calls : tgcalls.

Section Basic.
Context {sorting : GoSort} (app : Capabilities) (ttl : Z) (policy : NodePolicy).

Lemma send_basic c t k : calls_only basic (send c t k). Proof. unfold send. tgcalls_auto. Qed.
Lemma edit_basic c m t k : calls_only basic (edit c m t k). Proof. unfold edit. tgcalls_auto. Qed.
#[local] Hint Resolve send_basic edit_basic : tgcalls.
Lemma edit__basic c m t k : calls_only basic (edit_ c m t k). Proof. unfold edit_. tgcalls_auto. Qed.
Lemma answer_basic i t : calls_only basic (answer_ i t). Proof. unfold answer_. tgcalls_auto. Qed.
Lemma cancel_basic i : calls_only basic (cancel_ i). Proof. unfold cancel_. tgcalls_auto. Qed.
#[local] Hint Resolve edit__basic answer_basic cancel_basic : tgcalls.
Lemma cancelPrepared_basic i : calls_only basic (cancelPrepared i). Proof. unfold cancelPrepared. tgcalls_auto. Qed.
#[local] Hint Resolve cancelPrepared_basic : tgcalls.
Lemma load_basic u : calls_only basic (load u). Proof. unfold load. tgcalls_auto. Qed.
Lemma updated_basic r : calls_only basic (updated r). Proof. unfold updated. tgcalls_auto. Qed.
#[local] Hint Resolve load_basic updated_basic : tgcalls.
Lemma update_basic u n st f : calls_only basic (update u n st f). Proof. unfold update. tgcalls_auto. Qed.
Lemma clear_mild w : calls_only mild (clear w). Proof. unfold clear. tgcalls_auto. Qed.
Lemma clearBytes_mild b : calls_only mild (clearBytes b). Proof. unfold clearBytes. tgcalls_auto. Qed.
Lemma randomNonce_basic : calls_only basic randomNonce. Proof. unfold randomNonce. tgcalls_auto. Qed.
Lemma expired_basic cb msg : calls_only basic (expiredCallback cb msg). Proof. unfold expiredCallback. tgcalls_auto. Qed.
Lemma sendExpired_basic c : calls_only basic (sendExpired c). Proof. unfold sendExpired. tgcalls_auto. Qed.
Lemma sendOrEdit_basic c m t k : calls_only basic (sendOrEdit c m t k). Proof. unfold sendOrEdit. tgcalls_auto. Qed.
Lemma deliver_basic c m t : calls_only basic (deliverDNSSyncResult c m t). Proof. unfold deliverDNSSyncResult. tgcalls_auto. Qed.
Lemma begin_session_mild u c n st f : calls_only mild (begin_session ttl u c n st f). Proof. unfold begin_session, put. tgcalls_auto. Qed.
#[local] Hint Resolve update_basic clear_mild clearBytes_mild randomNonce_basic expired_basic sendExpired_basic sendOrEdit_basic
  deliver_basic begin_session_mild : tgcalls.
Lemma card_basic c m i n : calls_only basic (showDeploymentCard c m i n). Proof. unfold showDeploymentCard. tgcalls_auto. Qed.
Lemma deployments_basic c : calls_only basic (showDeployments c). Proof. unfold showDeployments. tgcalls_auto. Qed.
Lemma snapshots_basic : calls_only basic (nodeSnapshots policy). Proof. unfold nodeSnapshots. tgcalls_auto. Qed.
Lemma failure_basic c m : calls_only basic (renderNodeInventoryFailure c m). Proof. unfold renderNodeInventoryFailure. tgcalls_auto. Qed.
#[local] Hint Resolve card_basic deployments_basic snapshots_basic failure_basic : tgcalls.
Lemma screen_basic c m s : calls_only basic (show_screen c m s). Proof. unfold show_screen. tgcalls_auto. Qed.
Lemma move_failure_basic msg i : calls_only basic (renderNodeMoveFailure msg i). Proof. unfold renderNodeMoveFailure. tgcalls_auto. Qed.
Lemma ip_failure_basic msg i : calls_only basic (renderNodeIPStartFailure msg i). Proof. unfold renderNodeIPStartFailure. tgcalls_auto. Qed.
Lemma resolve_basic i : calls_only basic (resolveNodeCardIPTarget app i). Proof. unfold resolveNodeCardIPTarget. tgcalls_auto. Qed.
#[local] Hint Resolve screen_basic move_failure_basic ip_failure_basic resolve_basic : tgcalls.
Lemma panels_basic c m : calls_only basic (showNodePanels policy c m). Proof. unfold showNodePanels. tgcalls_auto. Qed.
Lemma panel_basic c m i : calls_only basic (showNodePanel policy c m i). Proof. unfold showNodePanel. tgcalls_auto. Qed.
Lemma group_basic c m i g n : calls_only basic (showNodeGroup policy c m i g n). Proof. unfold showNodeGroup. tgcalls_auto. Qed.
Lemma node_card_basic c m i : calls_only basic (showNodeCard app policy c m i). Proof. unfold showNodeCard. tgcalls_auto. Qed.
Lemma ip_options_basic msg i : calls_only basic (showNodeIPOptions app msg i). Proof. unfold showNodeIPOptions. tgcalls_auto. Qed.
Lemma showHostPicker_mild u c n p : calls_only mild (showHostPicker ttl u c n p). Proof. unfold showHostPicker. tgcalls_auto. Qed.
Lemma choose_panel_basic cb msg w st ps one many p a o : calls_only basic (choose_panel cb msg w st ps one many p a o).
Proof. unfold choose_panel. tgcalls_auto. Qed.
Lemma preview_basic m w st t k : calls_only basic (preview m w st t k). Proof. unfold preview. tgcalls_auto. Qed.
#[local] Hint Resolve choose_panel_basic preview_basic : tgcalls.

(** The steps of the dialogues that take nothing out of the table. *)
Definition step_only (st : wizardState) : bool :=
  negb (bool_decide (st ∈ [stateAwaitingNewIP; stateAwaitingServerIPPassword; stateAwaitingNodeMovePassword; stateAwaitingPassword;
    stateAwaitingNodeSearch])).
Lemma dialogue_basic m w : step_only (w_state w) = true -> calls_only basic (handle_conversation app m w).
Proof.
  unfold step_only, handle_conversation, acceptNodeName, acceptVPSIP, acceptIPChangeQuery, acceptServerIPNodeQuery, acceptServerCurrentIP,
    acceptServerNewIP, acceptDNSSyncQuery.
  destruct (w_state w); try done; intros _; tgcalls_auto.
Qed.
End Basic.

#[export] Hint Resolve send_basic edit_basic edit__basic answer_basic cancel_basic cancelPrepared_basic load_basic updated_basic
  update_basic clear_mild clearBytes_mild randomNonce_basic expired_basic sendExpired_basic sendOrEdit_basic deliver_basic
  begin_session_mild card_basic deployments_basic snapshots_basic failure_basic screen_basic move_failure_basic ip_failure_basic
  resolve_basic panels_basic panel_basic group_basic node_card_basic ip_options_basic showHostPicker_mild choose_panel_basic
  preview_basic dialogue_basic : tgcalls.
