(* ===== verification/TgConfirm.v ===== *)
(** * What precedes a change

    Handler by handler: which calls of [internal/telegram/controller.go]
    change a server, a panel or DNS, what the operator did before each, and
    that the goroutines get exactly what was confirmed. *)

From S2P Require Import Prelude GoStrings Utf8 Unicode GoText NetIP Effects Guards TgTypes TgProgress TgNodes TgSessions TgRender TgController TgCalls.

#[local] Open Scope Z_scope.

(** ** The reasons *)
Section Reasons.
Context (update : Update).

(** The update is a press of a conversation's button by [u]. *)
Definition pressed (u : Z) (action nonce : string) : Prop :=
  exists cb index, u_CallbackQuery update = Some cb /\ cb_FromUserID cb = u /\ parseCallbackData (cb_Data cb) = Some (action, nonce, index).
(** It is a message of [u] with this text. *)
Definition typed (u : Z) (text : string) : Prop :=
  exists m, u_CallbackQuery update = None /\ u_Message update = Some m /\ m_FromUserID m = u /\ m_Text m = text.
(** It is the command, with the text of its argument. *)
Definition commanded (command argument : string) : Prop :=
  exists u text, typed u text /\ is_command (TrimSpace text) command = true /\ argument = TrimSpace (TrimPrefix (TrimSpace text) command).

(** The conversation was taken, as nobody can take it again. *)
Definition took (tr : list (event tgE)) (u : Z) (nonce : string) (state : wizardState) (w : wizard) : Prop :=
  Ev (TakeSession u nonce state) (Taken w) ∈ tr.

(** The two goroutines that need a password. *)
Definition took_with_password (tr : list (event tgE)) (state : wizardState) (active : wizard) : Prop :=
  exists u text nonce w b, typed u text /\ bad_password text = false /\ took tr u nonce state w /\ active = set_password b w.

Definition reason (tr : list (event tgE)) X (e : tgE X) : Prop :=
  match e with
  | Go (DeploymentWorker active _) => exists u nonce w,
      pressed u "deploy" nonce /\ took tr u nonce stateAwaitingConfirmation w /\ active = set_state stateDeploying w
  | Go (ServerIPWorker active _) => took_with_password tr stateAwaitingServerIPPassword active
  | Go (NodeMoveWorker active _) => took_with_password tr stateAwaitingNodeMovePassword active
  | Go (ActionWorker _ _ u action id details) => exists cb,
      u_CallbackQuery update = Some cb /\ cb_FromUserID cb = u /\ parseDeploymentCallback (cb_Data cb) = Some (action, id) /\
      Ev (GetDeploymentDetails id) (Some details) ∈ tr
  | ReplaceNodeIP input => exists u text newIP nonce w,
      typed u text /\ parsePublicIP text = Some newIP /\ took tr u nonce stateAwaitingNewIP w /\ input = change_input w newIP
  | SyncNodeDNS input => exists u nonce w,
      pressed u "dns_sync" nonce /\ Ev (LoadSession u) (LoadFound w) ∈ tr /\ w_nonce w = nonce /\
      st_CanSync (w_dnsSyncTarget w) = true /\
      Ev (UpdateSession u nonce stateAwaitingDNSSyncConfirmation (set_state stateDNSSyncRunning)) Updated ∈ tr /\
      input = mkNodeDNSSyncInput (p_ID (w_panel w)) (st_UUID (w_dnsSyncTarget w)) (st_Address (w_dnsSyncTarget w))
  | BootstrapCertificate sni u => exists text command confirm,
      typed u text /\ Fields (TrimSpace text) = [command; sni; confirm] /\ EqualFold confirm "CONFIRM" = true
  | RetryFailedStep id => commanded "/retry_step" id
  | RetryDNS id => commanded "/retry_dns" id
  | RecheckRemnawave id => commanded "/recheck" id
  | StartDeployment _ | MoveNodeToHost _ | ConfigureCherryIP _ | ConfigureRoyalIP _ => False
  | _ => True
  end.

Lemma changes_nothing_reason tr X (e : tgE X) : changes_nothing X e = true -> reason tr X e.
Proof. by destruct e. Qed.
End Reasons.

(** ** Programs that change nothing *)
Notation quiet p := (calls_only changes_nothing p).

Section Quiet.
Context {sorting : GoSort} (app : Capabilities) (allowed : gset Z) (ttl : Z) (policy : NodePolicy).

Lemma quiet_take u n st : quiet (take u n st). Proof. unfold take. tgcalls_auto. Qed.
Lemma quiet_copy_password u n st : quiet (copy_password u n st). Proof. unfold copy_password. tgcalls_auto. Qed.
Lemma quiet_cancelExisting u : quiet (cancelExisting u). Proof. unfold cancelExisting. tgcalls_auto. Qed.
#[local] Hint Resolve quiet_take quiet_copy_password quiet_cancelExisting : tgcalls.
Lemma quiet_take_back cb msg n st t k : quiet (show_or_take_back cb msg n st t k). Proof. unfold show_or_take_back. tgcalls_auto. Qed.
#[local] Hint Resolve quiet_take_back : tgcalls.

Lemma quiet_handle_nodes_callback cb msg action : quiet (handle_nodes_callback app ttl policy cb msg action).
Proof.
  unfold handle_nodes_callback, beginNodeSearch, beginNodeHostMove, beginNodeCardPanelIPChange, beginNodeCardServerIPChange. tgcalls_auto.
Qed.

Lemma quiet_beginAddNode m : quiet (beginAddNode ttl m). Proof. unfold beginAddNode. tgcalls_auto. Qed.
Lemma quiet_beginIPChange m : quiet (beginIPChange app ttl m). Proof. unfold beginIPChange. tgcalls_auto. Qed.
Lemma quiet_cancelFromMessage m : quiet (cancelFromMessage m). Proof. unfold cancelFromMessage. tgcalls_auto. Qed.
Lemma quiet_cancelFromCallback cb msg w : quiet (cancelFromCallback cb msg w). Proof. unfold cancelFromCallback. tgcalls_auto. Qed.
Lemma quiet_show_confirmation m i : quiet (show_confirmation m i). Proof. unfold show_confirmation. tgcalls_auto. Qed.
#[local] Hint Resolve quiet_show_confirmation : tgcalls.
Lemma quiet_run_preflight m : quiet (run_preflight m). Proof. unfold run_preflight. tgcalls_auto. Qed.
#[local] Hint Resolve quiet_run_preflight : tgcalls.
Lemma quiet_acceptPassword m w : quiet (acceptPassword m w). Proof. unfold acceptPassword. tgcalls_auto. Qed.

(** What a text of a conversation starts, but for the three states that end
    it. *)
Lemma quiet_dialogue m w :
  w_state w <> stateAwaitingNewIP -> w_state w <> stateAwaitingServerIPPassword -> w_state w <> stateAwaitingNodeMovePassword ->
  quiet (handle_conversation app m w).
Proof.
  intros H1 H2 H3. destruct (step_only (w_state w)) eqn:Hs; [by apply mild_changes_nothing, basic_mild, dialogue_basic|].
  unfold handle_conversation, acceptNodeSearch. destruct (w_state w); try done; [apply quiet_acceptPassword|tgcalls_auto].
Qed.
End Quiet.

#[export] Hint Resolve quiet_take quiet_copy_password quiet_cancelExisting quiet_handle_nodes_callback quiet_beginAddNode
  quiet_beginIPChange quiet_cancelFromMessage quiet_cancelFromCallback : tgcalls.

(** ** The handlers *)
Section Confirmed.
Context {sorting : GoSort} (app : Capabilities) (allowed : gset Z) (ttl : Z) (policy : NodePolicy) (update : Update).

Notation reasoned tr p := (guarded (reason update) tr p (fun _ _ => True)).

Lemma reasoned_quiet tr {A} (p : T A) : quiet p -> reasoned tr p.
Proof. intros Hp. by apply (guarded_free _ _ (changes_nothing_reason update)). Qed.

Lemma reasoned_quiet_seq tr {A B} (f : A -> T B) (p : T A) :
  quiet p -> (forall a tr', tr `prefix_of` tr' -> reasoned tr' (f a)) -> reasoned tr (p ≫= f).
Proof. apply (guarded_free_seq _ _ (changes_nothing_reason update)). Qed.

Lemma in_prefix tr tr' (ev : event tgE) : tr `prefix_of` tr' -> ev ∈ tr -> ev ∈ tr'.
Proof. intros [tr2 ->] H. apply elem_of_app. by left. Qed.

Lemma in_snoc tr (ev : event tgE) : ev ∈ tr ++ [ev].
Proof. apply elem_of_app. right. by apply list_elem_of_singleton. Qed.

(** Taking a conversation. *)
Lemma reasoned_take tr u nonce st {B} (f : option wizard -> T B) :
  (forall tr', reasoned tr' (f None)) ->
  (forall w tr', tr `prefix_of` tr' -> took tr' u nonce st w -> reasoned tr' (f (Some w))) ->
  reasoned tr (take u nonce st ≫= f).
Proof.
  intros Hn Hf. unfold take. apply guarded_bind. apply guarded_call_seq; [done|]. intros [|id|w].
  - apply Hn.
  - apply (guarded_free_seq _ _ (changes_nothing_reason update)); [tgcalls_auto|]. intros _ tr' _. apply Hn.
  - apply Hf; [by eexists|apply in_snoc].
Qed.

Lemma reasoned_start tr w : (forall tr', tr `prefix_of` tr' -> reason update tr' _ (Go w)) -> reasoned tr (start w).
Proof. intros H. unfold start. apply guarded_call_seq; [done|]. intros []. split; [|done]. apply H. by eexists. Qed.

Ltac quietly := solve [apply reasoned_quiet; tgcalls_auto].

Lemma reasoned_startDeployment tr cb msg w :
  u_CallbackQuery update = Some cb -> (exists index, parseCallbackData (cb_Data cb) = Some ("deploy", w_nonce w, index)) ->
  reasoned tr (startDeployment cb msg w).
Proof.
  intros Hcb [index Hp]. unfold startDeployment. destruct (_ || _); [quietly|].
  apply reasoned_take; [intros; quietly|]. intros active tr1 _ Ht. cbv zeta.
  apply reasoned_quiet_seq; [tgcalls_auto|]. intros [err|] tr2 H2; [quietly|].
  apply (guarded_seq _ _ _ _ (fun _ _ => True)); [|done]. apply reasoned_start. intros tr3 H3.
  exists (cb_FromUserID cb), (w_nonce w), active. split_and!; [by exists cb, index| |done].
  unfold took. eapply in_prefix, Ht. by etrans.
Qed.

Lemma reasoned_take_with_password tr message w st status work :
  u_CallbackQuery update = None -> u_Message update = Some message ->
  (forall tr active id, took_with_password update tr st active -> reason update tr _ (Go (work active id))) ->
  reasoned tr (take_with_password message w st status work).
Proof.
  intros Hn Hm Hw. unfold take_with_password. apply reasoned_quiet_seq; [tgcalls_auto|]. intros b tr1 _.
  apply reasoned_quiet_seq; [tgcalls_auto|]. intros _ tr2 _. destruct (bad_password _) eqn:Hb; [quietly|].
  apply reasoned_take; [intros; quietly|]. intros active tr3 _ Ht.
  apply reasoned_quiet_seq; [tgcalls_auto|]. intros copy tr4 H4. cbv zeta.
  apply reasoned_quiet_seq; [tgcalls_auto|]. intros _ tr5 H5. apply reasoned_quiet_seq; [tgcalls_auto|]. intros [id|err] tr6 H6; [|quietly].
  apply (guarded_seq _ _ _ _ (fun _ _ => True)); [|done]. apply reasoned_start. intros tr7 H7. apply Hw.
  exists (m_FromUserID message), (m_Text message), (w_nonce w), active, copy. split_and!; [by exists message|done| |done].
  unfold took. eapply in_prefix, Ht. by repeat (etrans; [eassumption|]).
Qed.

Lemma reasoned_acceptNewNodeIP tr message w :
  u_CallbackQuery update = None -> u_Message update = Some message -> reasoned tr (acceptNewNodeIP app message w).
Proof.
  intros Hn Hm. unfold acceptNewNodeIP. destruct (parsePublicIP _) as [newIP|] eqn:Hp; [|quietly].
  apply reasoned_take; [intros; quietly|]. intros active tr1 _ Ht. apply guarded_finally.
  eapply (guarded_mono _ _ _ (fun _ _ => True)); [|intros; apply (reasoned_quiet _ (clear active)); tgcalls_auto].
  destruct (NodeIPApplication app); [|quietly]. apply guarded_call_seq.
  - exists (m_FromUserID message), (m_Text message), newIP, (w_nonce w), active. split_and!; [by exists message|done|done|done].
  - intros r. quietly.
Qed.

Lemma reasoned_handle_conversation tr message w :
  u_CallbackQuery update = None -> u_Message update = Some message -> reasoned tr (handle_conversation app message w).
Proof.
  intros Hn Hm. destruct (decide (w_state w = stateAwaitingNewIP)) as [H1|H1];
    [|destruct (decide (w_state w = stateAwaitingServerIPPassword)) as [H2|H2];
      [|destruct (decide (w_state w = stateAwaitingNodeMovePassword)) as [H3|H3]]].
  - unfold handle_conversation. rewrite H1. by apply reasoned_acceptNewNodeIP.
  - unfold handle_conversation. rewrite H2. by apply reasoned_take_with_password.
  - unfold handle_conversation. rewrite H3. by apply reasoned_take_with_password.
  - by apply reasoned_quiet, quiet_dialogue.
Qed.

(** The commands. *)
Lemma find_first_some {A} (P : A -> bool) l x : find_first P l = Some x -> x ∈ l /\ P x = true.
Proof.
  induction l as [|y l IH]; simpl; [done|]. destruct (P y) eqn:Hy.
  - intros [= ->]. split; [left|done].
  - intros H. destruct (IH H). split; [by right|done].
Qed.

Lemma reasoned_command tr message text p :
  u_CallbackQuery update = None -> u_Message update = Some message -> text = TrimSpace (m_Text message) ->
  handleRecoveryCommand app message text = Some p -> reasoned tr p.
Proof.
  intros Hn Hm Htext. unfold handleRecoveryCommand. assert (typed update (m_FromUserID message) (m_Text message)) as Hty by (by exists message).
  destruct (is_command text "/bootstrap_certificate").
  - intros [= <-]. unfold bootstrap_command. destruct (Fields text) as [|c [|sni [|confirm [|? ?]]]] eqn:Hf; try quietly.
    destruct (EqualFold confirm "CONFIRM") eqn:He; cbn [negb]; [|quietly]. destruct (RecoveryApplication app); cbn [negb]; [|quietly].
    apply guarded_call_seq; [|intros [result failed]; quietly].
    exists (m_Text message), c, confirm. subst text. by split_and!.
  - destruct (find_first _ _) as [command|] eqn:Hc; [|done]. intros [= <-]. apply find_first_some in Hc as [Hin Hc].
    assert (commanded update command (TrimSpace (TrimPrefix text command))) as Hcmd.
    { exists (m_FromUserID message), (m_Text message). by subst text. }
    unfold recovery_command, sendActionResult. destruct (validDeploymentID _); cbn [negb]; [|quietly].
    destruct (String.eqb_spec command "/cancel_deployment"); [quietly|]. destruct (RecoveryApplication app); cbn [negb]; [|quietly].
    destruct (String.eqb_spec command "/retry_step") as [->|]; [apply guarded_call_seq; [done|intros; quietly]|].
    destruct (String.eqb_spec command "/retry_dns") as [->|]; [apply guarded_call_seq; [done|intros; quietly]|].
    destruct (String.eqb_spec command "/recheck") as [->|]; [apply guarded_call_seq; [done|intros; quietly]|]. quietly.
Qed.

Lemma reasoned_handleMessage tr message :
  u_CallbackQuery update = None -> u_Message update = Some message -> reasoned tr (handleMessage app allowed ttl policy message).
Proof.
  intros Hn Hm. unfold handleMessage. cbv zeta. destruct (_ || _); [quietly|]. destruct (negb _); [quietly|].
  destruct (handleRecoveryCommand _ _ _) as [p|] eqn:Hp; [by eapply reasoned_command|].
  do 6 (lazymatch goal with |- guarded _ _ (if ?b then _ else _) _ => destruct b end;
    [unfold showNodes, showNodePanels, showMainMenu; quietly|]).
  apply reasoned_quiet_seq; [tgcalls_auto|]. intros [[w|] [|]] tr1 _; try quietly.
  destruct (negb _); [quietly|]. by apply reasoned_handle_conversation.
Qed.

(** The buttons. *)
Lemma reasoned_update_or_expired tr cb msg w st f k :
  (forall tr', tr `prefix_of` tr' -> Ev (UpdateSession (cb_FromUserID cb) (w_nonce w) st f) Updated ∈ tr' -> reasoned tr' k) ->
  reasoned tr (update_or_expired cb msg w st f k).
Proof.
  intros Hk. unfold update_or_expired, TgController.update. apply guarded_bind, guarded_call_seq; [done|].
  intros [| |id]; [|change (reasoned (tr ++ [Ev (UpdateSession (cb_FromUserID cb) (w_nonce w) st f) NotUpdated]) (expiredCallback cb msg)); quietly|].
  - apply Hk; [by eexists|apply in_snoc].
  - apply (guarded_free_seq _ _ (changes_nothing_reason update)); [tgcalls_auto|]. intros _ tr' _. change (reasoned tr' (expiredCallback cb msg)). quietly.
Qed.

Lemma reasoned_confirm_dns_sync tr cb msg w :
  pressed update (cb_FromUserID cb) "dns_sync" (w_nonce w) -> Ev (LoadSession (cb_FromUserID cb)) (LoadFound w) ∈ tr ->
  reasoned tr (confirm_dns_sync app cb msg w).
Proof.
  intros Hp Hl. unfold confirm_dns_sync. destruct (w_statusMsgID w =? m_ID msg); cbn [negb orb]; [|quietly].
  destruct (st_CanSync _) eqn:Hs; cbn [negb]; [|quietly]. destruct (bool_decide _); [quietly|].
  destruct (bool_decide _); [quietly|]. destruct (bool_decide _); cbn [negb]; [|quietly]. apply reasoned_update_or_expired. intros tr1 H1 Hu. apply reasoned_quiet_seq; [tgcalls_auto|]. intros _ tr2 H2.
  destruct (NodeDNSSyncApplication app); [|quietly]. apply guarded_call_seq; [|intros; quietly].
  exists (cb_FromUserID cb), (w_nonce w), w. split_and!; try done; (eapply in_prefix; [eassumption|]); [|done]. by eapply in_prefix.
Qed.

Lemma reasoned_handle_action tr cb msg w action index :
  u_CallbackQuery update = Some cb -> parseCallbackData (cb_Data cb) = Some (action, w_nonce w, index) ->
  Ev (LoadSession (cb_FromUserID cb)) (LoadFound w) ∈ tr -> reasoned tr (handle_action app ttl cb msg w action index).
Proof.
  intros Hcb Hp Hl. unfold handle_action, choose_from, take_or_expired, beginPanelIPChange, beginServerIPScope, beginDNSSync,
    beginServerNodeIPChange. cbv zeta.
  repeat lazymatch goal with
  | |- guarded _ _ (if (String.eqb ?a ?b) then _ else _) _ => destruct (String.eqb_spec a b) as [->|]
  | |- guarded _ _ (startDeployment _ _ _) _ => apply reasoned_startDeployment; [done|by eexists]
  | |- guarded _ _ (confirm_dns_sync _ _ _ _) _ => apply reasoned_confirm_dns_sync; [by exists cb, index|done]
  | |- guarded _ _ (update_or_expired _ _ _ _ _ _) _ => apply reasoned_update_or_expired; intros; quietly
  | |- guarded _ _ (if ?b then _ else _) _ => destruct b
  | |- guarded _ _ (match ?x with _ => _ end) _ => destruct x
  | |- guarded _ _ _ _ => quietly
  end.
Qed.

Lemma reasoned_handleDeploymentCallback tr cb msg action id :
  u_CallbackQuery update = Some cb -> parseDeploymentCallback (cb_Data cb) = Some (action, id) ->
  reasoned tr (handleDeploymentCallback app cb msg action id).
Proof.
  intros Hcb Hp. unfold handleDeploymentCallback. destruct (RecoveryApplication app); cbn [negb]; [|quietly].
  apply reasoned_quiet_seq; [tgcalls_auto|]. intros _ tr1 _. cbv zeta. destruct (String.eqb action "open"); [quietly|].
  apply guarded_call_seq; [done|]. intros [details|]; [|quietly]. destruct (String.eqb action "logs"); [quietly|].
  destruct (one_of _ _); [|quietly]. destruct (_ && _); [quietly|]. apply reasoned_quiet_seq; [tgcalls_auto|]. intros [err|] tr2 H2; [quietly|].
  apply (guarded_seq _ _ _ _ (fun _ _ => True)); [|done]. apply reasoned_start. intros tr3 H3. exists cb. split_and!; try done.
  do 2 (eapply in_prefix; [eassumption|]). apply in_snoc.
Qed.

Lemma reasoned_handleCallback tr cb :
  u_CallbackQuery update = Some cb -> reasoned tr (handleCallback app allowed ttl policy cb).
Proof.
  intros Hcb. unfold handleCallback. cbv zeta. destruct (_ <=? 0); [quietly|]. destruct (negb _); [quietly|].
  destruct (cb_Message cb) as [msg|]; [|quietly]. destruct (_ =? 0); [quietly|]. destruct (parseNodesCallback _); [quietly|].
  destruct (parseDeploymentCallback _) as [[action id]|] eqn:Hd; [by apply reasoned_handleDeploymentCallback|].
  destruct (parseCallbackData _) as [[[action nonce] index]|] eqn:Hp; [|quietly].
  unfold load. apply guarded_bind, guarded_call_seq; [done|]. intros [|id|w].
  - change (reasoned (tr ++ [Ev (LoadSession (cb_FromUserID cb)) LoadNone]) (expiredCallback cb msg)). quietly.
  - apply (guarded_free_seq _ _ (changes_nothing_reason update)); [tgcalls_auto|]. intros _ tr' _. change (reasoned tr' (expiredCallback cb msg)). quietly.
  - change (reasoned (tr ++ [Ev (LoadSession (cb_FromUserID cb)) (LoadFound w)])
      (if negb (String.eqb (w_nonce w) nonce) || negb (w_chatID w =? m_ChatID msg) then expiredCallback cb msg
       else answer_ (cb_ID cb) "" ≫= fun _ => handle_action app ttl cb msg w action index)).
    destruct (String.eqb_spec (w_nonce w) nonce) as [<-|]; cbn [negb orb]; [|quietly]. destruct (negb _); [quietly|].
    apply reasoned_quiet_seq; [tgcalls_auto|]. intros _ tr' H'. apply reasoned_handle_action; [done|done|].
    eapply in_prefix; [exact H'|apply in_snoc].
Qed.

Lemma reasoned_Handle : reasoned [] (Handle app allowed ttl policy update).
Proof.
  unfold Handle. destruct (u_CallbackQuery update) as [cb|] eqn:Hcb; [by apply reasoned_handleCallback|].
  destruct (u_Message update) as [message|] eqn:Hm; [by apply reasoned_handleMessage|done].
Qed.

(** C8. No update changes a server, a panel or DNS without the operator's
    confirmation.  On every path of [Handle], whatever was answered before:
    a deployment starts only on the Deploy button of a conversation that was
    taken while it awaited that confirmation, and with that conversation; the
    address of a server changes, and a Node moves to another Host, only after
    the password was typed in a conversation that was taken while it awaited
    it; the address of a Node changes only to the public address typed in a
    conversation taken while it awaited one; DNS is synchronised only on the
    button, after the conversation was marked as running; recovery runs only
    on its button or its typed command with a confirmed domain or the typed
    identifier; and the handler itself never runs a deployment, a move or an
    SSH change. *)
Theorem changes_are_confirmed tr X (e : tgE X) k :
  reaches (Handle app allowed ttl policy update) tr (Vis e k) -> reason update tr X e.
Proof. exact (guarded_reaches _ _ (Vis e k) [] tr _ reasoned_Handle). Qed.
End Confirmed.

(** ** Witness: the Deploy button *)
Definition sample_wizard : wizard := set_statusMsgID 5 (new_wizard 42 42 "nonce" stateAwaitingConfirmation 100).
Definition sample_press : Update :=
  mkUpdate 3 None (Some (mkCallbackQuery "cb" 42 (Some (mkMessage 5 42 42 "")) "add:deploy:nonce")).
Definition sample_view : deploymentProgressView := newDeploymentProgressView [].
Definition sample_events : list (event tgE) :=
  [Ev (LoadSession 42) (LoadFound sample_wizard); Ev (AnswerCallback "cb" "") None;
   Ev (TakeSession 42 "nonce" stateAwaitingConfirmation) (Taken sample_wizard);
   Ev (EditMessage 42 5 (View_Render sample_view) no_keyboard) None; Ev WorkersAdd tt].

Lemma changes_are_confirmed_witness :
  reason sample_press sample_events _ (Go (DeploymentWorker (set_state stateDeploying sample_wizard) sample_view)).
Proof.
  apply (@changes_are_confirmed insertion_GoSort (mkCapabilities true true true true true true) {[42]} (15 * Minute) 50
    sample_press sample_events _ _ (fun _ => mret None)).
  do 5 (eexists; split; [reflexivity|]). reflexivity.
Defined.

(** ** A conversation that ends while its confirmation is shown

    [acceptPassword] stores the preflight, loads the conversation again and
    uses it without looking whether it is still there. *)
Definition sample_preflight : PreflightResult := mkPreflightResult "01234567-89ab-cdef-0123-456789abcdef" "" "" "" [].
Definition sample_adding : wizard := new_wizard 42 42 "nonce" stateAwaitingPassword 100.

Lemma confirmation_can_panic :
  exists update tr k, reaches (Handle (H := insertion_GoSort) (mkCapabilities true true true true true true) {[42]} (15 * Minute) 50 update)
    tr (Vis (Panic NilDereference) k) /\ Ev (LoadSession 42) LoadNone ∈ tr.
Proof.
  exists (mkUpdate 4 (Some (mkMessage 12 42 42 "secret")) None).
  exists [Ev (LoadSession 42) (LoadFound sample_adding); Ev (NewBuffer "secret") 1%nat; Ev (DeleteMessage 42 12) None;
    Ev (StorePassword 42 "nonce" stateAwaitingPassword 1%nat statePreflighting) Updated; Ev (ClearBuffer (Some 1%nat)) tt;
    Ev (LoadSession 42) (LoadFound (set_state statePreflighting sample_adding)); Ev (CopyPassword 42 "nonce" statePreflighting) (Copied 2%nat);
    Ev (Preflight (mkPreflightInput "" 42 "" "" AddrInvalid (Some 2%nat))) (sample_preflight, false); Ev (ClearBuffer (Some 2%nat)) tt;
    Ev (UpdateSession 42 "nonce" statePreflighting
      (fun active => set_state stateAwaitingConfirmation (set_preflight (normalized_preflight sample_preflight) active))) Updated;
    Ev (LoadSession 42) LoadNone].
  eexists. split; [|set_solver]. do 11 (eexists; split; [reflexivity|]). reflexivity.
Qed.
