(* ===== verification/TgPasswords.v ===== *)
(** * What becomes of the passwords

    A password is in a byte buffer that somebody has to zero.  The buffers a
    goroutine holds are followed through its calls: it gets them by copying a
    message, by taking a conversation out of the table or by copying its
    password, and it gives them up by zeroing them or by starting the
    goroutine that will.  Every handler and every goroutine ends with none. *)

From S2P Require Import Prelude GoStrings Utf8 Unicode GoText NetIP Effects Threads TgTypes TgProgress TgNodes TgSessions TgRender TgController TgContract TgFacts TgCalls.

#[local] Open Scope Z_scope.

Definition one_buffer (b : option buf) : gset nat := match b with Some b => {[b]} | None => ∅ end.
Definition worker_buffers (w : worker) : gset nat :=
  match w with
  | ServerIPWorker active _ | NodeMoveWorker active _ | DeploymentWorker active _ => one_buffer (w_password active)
  | ActionWorker _ _ _ _ _ _ => ∅
  end.

(** The buffers held after a call; the sections of the table zero what they
    drop themselves, and a conversation keeps its own copy. *)
Definition held_after {X} (e : tgE X) (h : gset nat) : X -> gset nat :=
  match e in tgE X return X -> gset nat with
  | NewBuffer _ => fun b => {[b]} ∪ h
  | AppendBuffer _ _ => fun r => one_buffer r ∪ h
  | ClearBuffer b => fun _ => h ∖ one_buffer b
  | CopyPassword _ _ _ => fun r => match r with Copied b => {[b]} ∪ h | _ => h end
  | TakeSession _ _ _ => fun r => match r with Taken w => one_buffer (w_password w) ∪ h | _ => h end
  | DropSession _ => fun r => match r with Some w => one_buffer (w_password w) ∪ h | None => h end
  | PutSession w => fun _ => h ∖ one_buffer (w_password w)
  | Go w => fun _ => h ∖ worker_buffers w
  | _ => fun _ => h
  end.

Section Passwords.
Context {sorting : GoSort} (app : Capabilities) (allowed : gset Z) (contact : Z -> Z -> Prop) (u : Z).

(** Answers as the contract promises them, and the buffers. *)
#[local] Instance holding : Env tgE (gset nat) :=
  fun X e h x h' => operator_promised app allowed contact u e x /\ h' = held_after e h x.

(** The program, started with [h], ends with no buffer. *)
Definition clean_from (h : gset nat) {A} (p : T A) : Prop := forall tr, wp p h tr (fun _ h' _ => h' = ∅).
Notation clean p := (clean_from ∅ p).

Lemma clean_free {A} (p : T A) : calls_only takes_nothing p -> clean p.
Proof.
  intros Hp tr. eapply wp_mono; [apply (wp_calls_inv takes_nothing p (fun h _ => h = ∅)); [done| |done]|done].
  intros X e h x h' tr' He [_ ->] ->. destruct e; try done; simpl; set_solver.
Qed.

Lemma clean_seq h {A B} (f : A -> T B) (p : T A) :
  clean_from h p -> (forall a, clean (f a)) -> clean_from h (p ≫= f).
Proof. intros Hp Hf tr. apply wp_mbind. eapply wp_mono; [apply Hp|]. intros a h' tr' ->. apply Hf. Qed.

Lemma clean_call h {X B} (e : tgE X) (f : X -> T B) :
  (forall x, operator_promised app allowed contact u e x -> clean_from (held_after e h x) (f x)) -> clean_from h (call e ≫= f).
Proof. intros Hf tr. apply wp_mbind, wp_call. intros x h' [Hx ->]. by apply Hf. Qed.

(** Programs that neither get nor give up a buffer. *)
Lemma clean_keep h {A B} (p : T A) (f : A -> T B) :
  calls_only keeps p -> (forall a, clean_from h (f a)) -> clean_from h (p ≫= f).
Proof.
  intros Hp Hf tr. apply wp_mbind. eapply wp_mono; [apply (wp_calls_inv keeps p (fun h' _ => h' = h)); [done| |done]|].
  - intros X e h0 x h' tr' He [_ ->] ->. by destruct e.
  - intros a h' tr' ->. apply Hf.
Qed.

Lemma clean_clear_all h w {B} (f : unit -> T B) :
  h ∖ one_buffer (w_password w) = ∅ -> (forall x, clean (f x)) -> clean_from h (clear w ≫= f).
Proof. intros Hh Hf. apply clean_call. intros x _. simpl. rewrite Hh. apply Hf. Qed.

Lemma clean_clear w {B} (f : unit -> T B) : (forall x, clean (f x)) -> clean_from (one_buffer (w_password w)) (clear w ≫= f).
Proof.
  intros Hf. apply clean_call. intros x _. simpl. replace (_ ∖ _) with (∅ : gset nat) by set_solver. apply Hf.
Qed.

Lemma clean_clearBytes b {B} (f : unit -> T B) : (forall x, clean (f x)) -> clean_from {[b]} (clearBytes b ≫= f).
Proof.
  intros Hf. apply clean_call. intros x _. simpl. replace (_ ∖ _) with (∅ : gset nat) by set_solver. apply Hf.
Qed.

(** A deferred [clear]. *)
Lemma clean_finally h h' {A} (p : T A) fin :
  (forall tr, wp p h tr (fun _ h2 _ => h2 = h')) -> clean_from h' fin -> clean_from h (finally p fin).
Proof.
  intros Hp Hf tr. apply wp_finally. eapply wp_mono; [apply Hp|]. intros a h2 tr' ->. eapply wp_mono; [apply Hf|]. by intros x h3 tr2 ->.
Qed.

Lemma keeps_wp h {A} (p : T A) : calls_only keeps p -> forall tr, wp p h tr (fun _ h' _ => h' = h).
Proof.
  intros Hp tr. eapply wp_mono; [apply (wp_calls_inv keeps p (fun h' _ => h' = h)); [done| |done]|done].
  intros X e h0 x h' tr' He [_ ->] ->. by destruct e.
Qed.

(** Taking a conversation: it comes with its password. *)
Lemma clean_take nonce st {B} (f : option wizard -> T B) :
  clean (f None) ->
  (forall w, wizard_ok app allowed contact u w -> w_state w = st -> clean_from (one_buffer (w_password w)) (f (Some w))) ->
  clean (take u nonce st ≫= f).
Proof.
  intros Hn Hf tr. unfold take. apply wp_mbind, wp_mbind, wp_call. intros [|id|w] h [Hx ->].
  - apply wp_ret, Hn.
  - apply wp_mbind. eapply wp_mono; [apply (clean_free (cancelPrepared id)); tgcalls_auto|]. intros a h' tr' ->. apply Hn.
  - destruct Hx as [Hw Hst]. apply wp_ret. simpl. replace (one_buffer (w_password w) ∪ ∅) with (one_buffer (w_password w)) by set_solver.
    by apply Hf.
Qed.

Lemma clean_cancelExisting : clean (cancelExisting u).
Proof.
  unfold cancelExisting. apply clean_call. intros [w|] _; [|done]. simpl.
  replace (one_buffer (w_password w) ∪ ∅) with (one_buffer (w_password w)) by set_solver.
  apply clean_clear. intros _. apply clean_free. tgcalls_auto.
Qed.

(** Decides [clean]: the programs that get no buffer by their calls, the rest
    by their structure. *)
Ltac cleanly := solve [apply clean_free; tgcalls_auto].
Ltac clean_step :=
  first [ cleanly | apply clean_cancelExisting
        | lazymatch goal with
          | |- clean_from _ (if ?b then _ else _) => destruct b
          | |- clean_from _ (match ?x with _ => _ end) => destruct x
          | |- clean_from ∅ (take _ _ _ ≫= _) => apply clean_take; [|intros ? ? ?]; cbv beta iota
          | |- clean_from (one_buffer _) (clear _ ≫= _) => apply clean_clear; intros ?
          | |- clean_from {[_]} (clearBytes _ ≫= _) => apply clean_clearBytes; intros ?
          | |- clean_from {[_]} (_ ≫= _) => apply clean_keep; [tgcalls_auto; fail|intros ?]
          | |- clean_from ∅ (_ ≫= _) => apply clean_seq; [|intros ?]
          end ].
Ltac clean_auto := repeat clean_step.

Section Clean.
Context (ttl : Z) (policy : NodePolicy).

Lemma clean_take_back cb msg n st t k : cb_FromUserID cb = u -> clean (show_or_take_back cb msg n st t k).
Proof. intros Hu. unfold show_or_take_back. rewrite Hu. clean_auto. Qed.
#[local] Hint Resolve clean_take_back : core.

Lemma clean_handle_nodes_callback cb msg action : cb_FromUserID cb = u -> clean (handle_nodes_callback app ttl policy cb msg action).
Proof.
  intros Hu. unfold handle_nodes_callback, beginNodeSearch, beginNodeHostMove, beginNodeCardPanelIPChange, beginNodeCardServerIPChange.
  rewrite Hu. repeat (clean_step || by apply clean_take_back).
Qed.

Lemma clean_acceptNodeSearch m w : m_FromUserID m = u -> clean (acceptNodeSearch m w).
Proof. intros Hu. unfold acceptNodeSearch. rewrite Hu. clean_auto. Qed.

Lemma clean_show_confirmation m i : m_FromUserID m = u -> clean (show_confirmation m i).
Proof. intros Hu. unfold show_confirmation. rewrite Hu. clean_auto. Qed.

Lemma clean_run_preflight m : m_FromUserID m = u -> clean (run_preflight m).
Proof.
  intros Hu. unfold run_preflight. rewrite Hu. apply clean_seq; [cleanly|]. intros [[w|] [|]]; try cleanly.
  destruct (negb _); [cleanly|]. intros tr. apply wp_mbind. unfold copy_password. apply wp_mbind, wp_call.
  intros [|id|b] h [_ ->].
  - apply wp_ret. apply (clean_free (sendExpired (m_ChatID m))). tgcalls_auto.
  - apply wp_mbind. eapply wp_mono; [apply (clean_free (cancelPrepared id)); tgcalls_auto|]. intros a h' tr' ->. apply wp_ret.
    apply (clean_free (sendExpired (m_ChatID m))). tgcalls_auto.
  - apply wp_ret. simpl held_after. replace ({[b]} ∪ ∅) with ({[b]} : gset nat) by set_solver.
    match goal with |- wp ?p _ _ _ => assert (clean_from {[b]} p) as Hp end; [|apply Hp].
    apply clean_keep; [tgcalls_auto|]. intros [result failed]. apply clean_clearBytes. intros _. cbv zeta.
    clean_auto. by apply clean_show_confirmation.
Qed.

Lemma clean_new_buffer content {B} (f : nat -> T B) : (forall b, clean_from {[b]} (f b)) -> clean (call (NewBuffer content) ≫= f).
Proof. intros Hf. apply clean_call. intros b _. simpl. replace ({[b]} ∪ ∅) with ({[b]} : gset nat) by set_solver. apply Hf. Qed.

Lemma clean_acceptPassword m w : m_FromUserID m = u -> clean (acceptPassword m w).
Proof.
  intros Hu. unfold acceptPassword. rewrite Hu. apply clean_new_buffer. intros b. apply clean_keep; [tgcalls_auto|]. intros _.
  destruct (bad_password _); [clean_auto|]. apply clean_keep; [tgcalls_auto|]. intros ok.
  apply clean_clearBytes. intros _. clean_auto. by apply clean_run_preflight.
Qed.

(** Starting a goroutine that has the buffer. *)
Lemma clean_start h w {B} (f : unit -> T B) : h ∖ worker_buffers w = ∅ -> (forall x, clean (f x)) -> clean_from h (start w ≫= f).
Proof.
  intros Hh Hf. unfold start. apply clean_seq; [|done]. apply clean_keep; [tgcalls_auto|]. intros _ tr. apply wp_call.
  by intros x h' [_ ->].
Qed.

Lemma clean_startDeployment cb msg w : cb_FromUserID cb = u -> clean (startDeployment cb msg w).
Proof.
  intros Hu. unfold startDeployment. rewrite Hu. destruct (_ || _); [cleanly|]. apply clean_take; [cleanly|]. intros active _ _. cbv zeta.
  apply clean_keep; [tgcalls_auto|]. intros [err|].
  - change (one_buffer (w_password active)) with (one_buffer (w_password (set_state stateDeploying active))). clean_auto.
  - apply clean_start; [simpl; set_solver|done].
Qed.

Lemma clean_take_with_password m w st status work :
  m_FromUserID m = u -> add_stage st = 0%nat ->
  (forall active id, worker_buffers (work active id) = one_buffer (w_password active)) ->
  clean (take_with_password m w st status work).
Proof.
  intros Hu Hst Hw. unfold take_with_password. rewrite Hu. apply clean_new_buffer. intros b. apply clean_keep; [tgcalls_auto|]. intros _.
  destruct (bad_password _); [clean_auto|]. intros tr. unfold take. apply wp_mbind, wp_mbind, wp_call.
  intros [|id|active] h [Hx ->]; simpl held_after.
  - apply wp_ret. match goal with |- wp ?p _ _ _ => assert (clean_from {[b]} p) as Hp by clean_auto end. apply Hp.
  - apply wp_mbind. eapply wp_mono; [apply (keeps_wp {[b]} (cancelPrepared id)); tgcalls_auto|]. intros a h' tr' ->. apply wp_ret.
    match goal with |- wp ?p _ _ _ => assert (clean_from {[b]} p) as Hp by clean_auto end. apply Hp.
  - apply wp_ret. destruct Hx as [[_ Hp] Hs]. assert (w_password active = None) as ->.
    { destruct (w_password active); [|done]. rewrite Hs, Hst in Hp. pose proof (proj1 Hp ltac:(by eexists)). lia. }
    match goal with |- wp ?p _ _ _ => assert (clean_from {[b]} p) as Hc end; [|replace (_ ∪ _) with ({[b]} : gset nat) by set_solver; apply Hc].
    apply clean_call. intros copy _. cbv zeta. simpl held_after. apply clean_call. intros x _. simpl held_after.
    apply clean_keep; [tgcalls_auto|]. intros [id|err].
    + apply clean_start; [rewrite Hw; simpl; set_solver|done].
    + apply clean_clear_all; [simpl; set_solver|done].
Qed.

Lemma clean_cancelFromMessage m : m_FromUserID m = u -> clean (cancelFromMessage m).
Proof.
  intros Hu. unfold cancelFromMessage. rewrite Hu. apply clean_seq; [cleanly|]. intros [[w|] found]; cbn [fst]; [|cleanly].
  apply clean_seq; [|intros; cleanly]. clean_auto.
Qed.

Lemma clean_cancelFromCallback cb msg w : cb_FromUserID cb = u -> clean (cancelFromCallback cb msg w).
Proof. intros Hu. unfold cancelFromCallback. rewrite Hu. clean_auto. Qed.

Lemma clean_acceptNewNodeIP m w : m_FromUserID m = u -> clean (acceptNewNodeIP app m w).
Proof.
  intros Hu. unfold acceptNewNodeIP. rewrite Hu. destruct (parsePublicIP _); [|cleanly]. apply clean_take; [cleanly|]. intros active _ _.
  eapply clean_finally; [apply keeps_wp; tgcalls_auto|]. unfold clear. intros tr. apply wp_call. intros x h [_ ->]. simpl. set_solver.
Qed.

Lemma clean_handle_conversation m w : m_FromUserID m = u -> clean (handle_conversation app m w).
Proof.
  intros Hu. destruct (step_only (w_state w)) eqn:Hs; [cleanly|]. unfold handle_conversation.
  destruct (w_state w); try done; [by apply clean_acceptPassword|by apply clean_acceptNewNodeIP|
    by apply clean_take_with_password..|by apply clean_acceptNodeSearch].
Qed.

Lemma clean_take_or_expired cb msg w st k : cb_FromUserID cb = u -> clean k -> clean (take_or_expired cb msg w st k).
Proof. intros Hu Hk. unfold take_or_expired. rewrite Hu. by clean_auto. Qed.

Lemma clean_handle_action cb msg w action index : cb_FromUserID cb = u -> clean (handle_action app ttl cb msg w action index).
Proof.
  intros Hu. unfold handle_action, choose_from, beginPanelIPChange, beginServerIPScope, beginDNSSync, beginServerNodeIPChange,
    confirm_dns_sync, update_or_expired. cbv zeta.
  repeat lazymatch goal with
  | |- clean_from _ (if ?b then _ else _) => destruct b
  | |- clean_from _ (startDeployment _ _ _) => by apply clean_startDeployment
  | |- clean_from _ (cancelFromCallback _ _ _) => by apply clean_cancelFromCallback
  | |- clean_from _ (take_or_expired _ _ _ _ _) => apply clean_take_or_expired; [done|cleanly]
  | |- clean_from _ (match ?x with _ => _ end) => destruct x
  | |- clean_from _ _ => cleanly
  end.
Qed.

Lemma clean_handleDeploymentCallback cb msg action id : clean (handleDeploymentCallback app cb msg action id).
Proof.
  unfold handleDeploymentCallback. cbv zeta.
  repeat first [cleanly | lazymatch goal with
  | |- clean_from _ (if ?b then _ else _) => destruct b
  | |- clean_from _ (match ?x with _ => _ end) => destruct x
  | |- clean_from _ (start _ ≫= _) => apply clean_start; [simpl; set_solver|done]
  | |- clean_from _ (_ ≫= _) => apply clean_seq; [|intros ?]
  end].
Qed.

Lemma clean_handleCallback cb : cb_FromUserID cb = u -> clean (handleCallback app allowed ttl policy cb).
Proof.
  intros Hu. unfold handleCallback. cbv zeta. destruct (_ <=? 0); [cleanly|]. destruct (negb _); [cleanly|].
  destruct (cb_Message cb) as [msg|]; [|cleanly]. destruct (_ =? 0); [cleanly|].
  destruct (parseNodesCallback _); [apply clean_seq; [cleanly|]; intros; by apply clean_handle_nodes_callback|].
  destruct (parseDeploymentCallback _) as [[action id]|]; [by apply clean_handleDeploymentCallback|].
  destruct (parseCallbackData _) as [[[action nonce] index]|]; [|cleanly]. apply clean_seq; [cleanly|].
  intros [[w|] [|]]; try cleanly. destruct (_ || _); [cleanly|]. apply clean_seq; [cleanly|]. intros. by apply clean_handle_action.
Qed.

Lemma clean_command m text p : handleRecoveryCommand app m text = Some p -> clean p.
Proof.
  unfold handleRecoveryCommand, bootstrap_command, recovery_command, sendActionResult, recovery_unavailable.
  destruct (is_command _ _); [|destruct (find_first _ _); [|done]]; intros <-%(inj Some); cleanly.
Qed.

Lemma clean_handleMessage m : m_FromUserID m = u -> clean (handleMessage app allowed ttl policy m).
Proof.
  intros Hu. unfold handleMessage, beginAddNode, beginIPChange, showNodes, showMainMenu. cbv zeta. rewrite Hu.
  destruct (_ || _); [cleanly|]. destruct (negb _); [cleanly|].
  destruct (handleRecoveryCommand _ _ _) as [p|] eqn:Hp; [by eapply clean_command|].
  destruct (one_of _ _); [clean_auto|]. destruct (String.eqb _ _); [by apply clean_cancelFromMessage|].
  do 4 (lazymatch goal with |- clean_from _ (if ?b then _ else _) => destruct b end; [solve [clean_auto]|]).
  apply clean_seq; [cleanly|]. intros [[w|] [|]]; try cleanly. destruct (negb _); [cleanly|]. by apply clean_handle_conversation.
Qed.
End Clean.

(** The programs of the goroutines. *)
Lemma clean_worker_body (body : T unit) active :
  calls_only keeps body ->
  clean_from (one_buffer (w_password active)) (finally (finally body (clear active)) (call WorkersDone)).
Proof.
  intros Hb. apply (clean_finally _ ∅); [|cleanly]. apply (clean_finally _ (one_buffer (w_password active))); [by apply keeps_wp|].
  unfold clear. intros tr. apply wp_call. intros x h [_ ->]. simpl. set_solver.
Qed.


Lemma server_ip_body_keeps active id : calls_only keeps (server_ip_body app active id).
Proof. unfold server_ip_body, configureServerIP. tgcalls_auto. Qed.
Lemma node_move_body_keeps active id : calls_only keeps (node_move_body app active id).
Proof. unfold node_move_body. tgcalls_auto. Qed.
Lemma deployment_body_keeps active view : calls_only keeps (deployment_body active view).
Proof. unfold deployment_body, show_progress. tgcalls_auto. Qed.

Lemma clean_run_worker w : clean_from (worker_buffers w) (run_worker app w).
Proof.
  destruct w as [active id|active id|active view|chat m from action id details]; simpl.
  - apply clean_worker_body, server_ip_body_keeps.
  - apply clean_worker_body, node_move_body_keeps.
  - apply clean_worker_body, deployment_body_keeps.
  - apply clean_free. unfold runDeploymentAction. tgcalls_auto.
Qed.

(** C12. Passwords do not stay in memory: on every path of [Handle], for every
    answer the table and the application may give, each password buffer the
    handler got (from the message, with a conversation it took, or as the
    copy the preflight works with) has been zeroed or handed to a started
    goroutine when it returns; and every goroutine zeroes what it was handed
    before it ends, whether its work succeeded or not. *)
Theorem passwords_are_zeroed ttl policy update :
  update_from contact u update ->
  always (Handle app allowed ttl policy update) ∅ (fun _ _ held => held = ∅) /\
  (forall w, always (run_worker app w) (worker_buffers w) (fun _ _ held => held = ∅)).
Proof.
  intros Hu. split; [|intros w; apply wp_always, clean_run_worker]. apply wp_always.
  enough (clean (Handle app allowed ttl policy update)) as H by apply H. unfold update_from, Handle in *.
  destruct (u_CallbackQuery update); [apply clean_handleCallback, Hu|]. destruct (u_Message update); [apply clean_handleMessage, Hu|cleanly].
Qed.
End Passwords.

(** ** Witness: a password for the new address of a server *)
Definition sample_server : wizard :=
  set_serverUpdateNode false (set_serverNewIP (Addr4 (ip4 8 8 8 8)) (set_serverCurrentIP (Addr4 (ip4 1 1 1 1))
    (set_serverIPProvider serverIPProviderRoyal (new_wizard 42 42 "nonce" stateAwaitingServerIPPassword 100)))).
Definition sample_password : Update := mkUpdate 4 (Some (mkMessage 12 42 42 "secret")) None.

Lemma sample_server_ok : snapshot_ok all_capabilities sample_allowed sample_contact 42 sample_server.
Proof.
  constructor; simpl; try done; try lia. intros _. exists "8.8.8.8". by vm_compute.
Qed.

Definition sample_buffers : gset nat := ({[8%nat]} ∪ (∅ ∪ ({[7%nat]} ∪ ∅))) ∖ {[7%nat]} ∖ {[8%nat]}.
Definition sample_answers : list (event tgE) :=
  [Ev (LoadSession 42) (LoadFound sample_server); Ev (NewBuffer "secret") 7%nat; Ev (DeleteMessage 42 12) None;
   Ev (TakeSession 42 "nonce" stateAwaitingServerIPPassword) (Taken sample_server); Ev (AppendBuffer None 7%nat) (Some 8%nat);
   Ev (ClearBuffer (Some 7%nat)) tt; Ev (SendMessage 42 (serverStatusText serverIPProviderRoyal) no_keyboard) (Ok 13);
   Ev WorkersAdd tt; Ev (Go (ServerIPWorker (set_password (Some 8%nat) sample_server) 13)) tt].

Lemma passwords_are_zeroed_witness : sample_buffers = ∅.
Proof.
  assert (update_from sample_contact 42 sample_password) as Hu by done. pose proof sample_server_ok as Hs.
  refine (proj1 (@passwords_are_zeroed insertion_GoSort all_capabilities sample_allowed sample_contact 42 (15 * Minute) 50 sample_password Hu)
    sample_answers None sample_buffers _).
  assert (wizard_ok all_capabilities sample_allowed sample_contact 42 sample_server) as Hw.
  { split; [done|]. simpl. split; [by intros []|lia]. }
  do 9 (eexists _, _, _; split; [reflexivity|split; [split; [first [exact I|exact Hs|exact (conj Hw eq_refl)|by eexists]|reflexivity]|]]).
  by split.
Defined.
