(* ===== verification/TgButtons.v ===== *)
(** * The buttons and their data

    Every inline button the bot shows carries a text that has to come back as
    the press it stands for: the three parsers of [handleCallback] are tried
    in their order.  [offered] lists the data of the buttons, [means] the
    keyboard functions with the presses of their buttons, and [calls_all]
    over every handler shows that no other keyboard is sent.  A nonce is nine
    random bytes in base64, an identifier a UUID, and an index an [int]. *)

From S2P Require Import Prelude GoStrings Utf8 Unicode NetIPFacts GoText GoTextFacts NetIP Effects Guards.
From S2P Require Import TgTypes TgProgress TgNodes TgMonitor TgSessions TgRender TgController TgCalls.

#[local] Open Scope Z_scope.

Inductive button_press : Type :=
  | PressNodes (action : nodesCallback)
  | PressDeployment (action deploymentID : string)
  | PressDialogue (action nonce : string) (index : Z).

(** The dispatch of [handleCallback]. *)
Definition read_button (data : string) : option button_press :=
  match parseNodesCallback data with
  | Some action => Some (PressNodes action)
  | None =>
    match parseDeploymentCallback data with
    | Some (action, id) => Some (PressDeployment action id)
    | None => '(action, nonce, index) ← parseCallbackData data; Some (PressDialogue action nonce index)
    end
  end.

(** ** What the bot offers *)
Definition random_nonce (nonce : string) : Prop :=
  exists bytes, length bytes = 9%nat /\ Forall (fun b => 0 <= b < 256) bytes /\ nonce = base64_url bytes.
Definition int_index (i : Z) : Prop := 0 <= i < 2 ^ 63.

(** The dialogue buttons: the two parts of the prefix, the action and the
    largest index. *)
Definition plain_buttons : list (string * string * string) :=
  [("ip", "change", "ip_change"); ("ip", "cancel", "ip_cancel"); ("dns", "sync", "dns_sync"); ("dns", "cancel", "dns_cancel");
   ("move", "apply", "move_apply"); ("move", "cancel", "move_cancel"); ("add", "deploy", "deploy"); ("add", "cancel", "cancel")].
Definition indexed_buttons : list (string * string * string * Z) :=
  [("ip", "panel", "ip_panel", unbounded); ("ip", "spanel", "server_panel", unbounded); ("ip", "scope", "server_scope", 1);
   ("ip", "mode", "ip_mode", 3); ("dns", "panel", "dns_panel", unbounded); ("move", "host", "move_host", unbounded);
   ("add", "host", "host", unbounded); ("add", "panel", "panel", unbounded)].

(** The data of every button of the program, and the press it stands for. *)
Inductive offered : string -> button_press -> Prop :=
  | offer_root : offered "nodes:root" (PressNodes NodesRoot)
  | offer_search : offered "nodes:search" (PressNodes NodesSearch)
  | offer_panel i : offered (data_panel i) (PressNodes (NodesPanel i))
  | offer_group i group page : group ∈ [nodeGroupCritical; nodeGroupDisabled; nodeGroupActive] ->
      offered (data_group i group page) (PressNodes (NodesGroup i group page))
  | offer_open id : offered (data_open id) (PressNodes (NodesOpen id))
  | offer_ip id : offered (data_ip id) (PressNodes (NodesChangeIP id))
  | offer_move id : offered (data_move id) (PressNodes (NodesMoveHost id))
  | offer_ip_panel id : offered (data_ip_method "panel" id) (PressNodes (NodesChangeIPPanel id))
  | offer_ip_cherry id : offered (data_ip_method "cherry" id) (PressNodes (NodesChangeIPCherry id))
  | offer_ip_royal id : offered (data_ip_method "royal" id) (PressNodes (NodesChangeIPRoyal id))
  | offer_deployment action id : action ∈ deployment_actions -> offered (data_deployment action id) (PressDeployment action id)
  | offer_plain kind step action nonce :
      (kind, step, action) ∈ plain_buttons -> offered (data_plain (kind +:+ ":" +:+ step) nonce) (PressDialogue action nonce 0)
  | offer_indexed kind step action bound nonce i :
      (kind, step, action, bound) ∈ indexed_buttons -> (bound = unbounded \/ i <= bound) ->
      offered (data_indexed (kind +:+ ":" +:+ step) nonce i) (PressDialogue action nonce i).

(** The identifiers, nonces and indices of the program: a Node or deployment
    is named by a UUID, a nonce is nine random bytes, an index an [int]. *)
Definition press_ok (press : button_press) : Prop :=
  match press with
  | PressNodes NodesRoot | PressNodes NodesSearch => True
  | PressNodes (NodesPanel i) => int_index i
  | PressNodes (NodesGroup i group page) => int_index i /\ int_index page
  | PressNodes (NodesOpen id) | PressNodes (NodesChangeIP id) | PressNodes (NodesMoveHost id) | PressNodes (NodesChangeIPPanel id)
  | PressNodes (NodesChangeIPCherry id) | PressNodes (NodesChangeIPRoyal id) => validDeploymentID id = true
  | PressDeployment action id => validDeploymentID id = true
  | PressDialogue action nonce i => random_nonce nonce /\ int_index i
  end.

(** ** Nonces and identifiers have no colon *)
Lemma base64_char_colon d : 0 <= d < 64 -> Ascii.eqb (base64_char d) colon = false.
Proof.
  intros Hd. assert (d ∈ seqZ 0 64) as H by (apply elem_of_seqZ; lia). revert d H Hd.
  assert (forallb (fun d => negb (Ascii.eqb (base64_char d) colon)) (seqZ 0 64) = true) as Hall by reflexivity.
  intros d Hin _. apply forallb_forall with (x := d) in Hall; [by apply negb_true_iff|]. by apply list_elem_of_In.
Qed.

Lemma random_nonce_text nonce : random_nonce nonce -> String.length nonce = 12%nat /\ without colon nonce = true.
Proof.
  intros (bytes & Hl & Hb & ->). do 9 (destruct bytes as [|? bytes]; [done|]). destruct bytes; [|done].
  repeat (apply Forall_cons_1 in Hb as [? Hb]). split; [reflexivity|]. unfold without. cbn [base64_url str_forall].
  rewrite !base64_char_colon; [reflexivity|..]; try (apply Z.mod_pos_bound; lia);
    (split; [apply Z.div_pos; lia|apply Z.div_lt_upper_bound; lia]).
Qed.

Lemma str_forall_bytes f s : (forall i, (i < String.length s)%nat -> f (byte_or_zero s i) = true) -> str_forall f s = true.
Proof.
  induction s as [|a s IH]; [done|]. intros H. simpl. apply andb_true_iff. split; [apply (H 0%nat); simpl; lia|].
  apply IH. intros i Hi. apply (H (S i)). simpl. lia.
Qed.

Lemma deployment_id_text id : validDeploymentID id = true -> String.length id = 36%nat /\ without colon id = true.
Proof.
  unfold validDeploymentID, str_len. intros [Hl%Z.eqb_eq Hf]%andb_true_iff. assert (String.length id = 36%nat) as Hn by lia.
  split; [done|]. apply str_forall_bytes. intros i Hi. rewrite forallb_forall in Hf. specialize (Hf i).
  rewrite Hn in Hi. specialize (Hf ltac:(apply in_seq; lia)). apply negb_true_iff.
  destruct (Ascii.eqb_spec (byte_or_zero id i) colon) as [E|]; [|done]. rewrite E in Hf. by destruct (dash_position i).
Qed.

(** ** Reading them back *)
Lemma Split2 p q : without colon p = true -> without colon q = true -> Split (p +:+ ":" +:+ q) colon = [p; q].
Proof. intros Hp Hq. change (":" +:+ q) with (String colon q). by rewrite Split_cons, Split_last. Qed.

Lemma Split3 p q r :
  without colon p = true -> without colon q = true -> without colon r = true -> Split (p +:+ ":" +:+ q +:+ ":" +:+ r) colon = [p; q; r].
Proof. intros Hp Hq Hr. change (":" +:+ q +:+ ":" +:+ r) with (String colon (q +:+ ":" +:+ r)). by rewrite Split_cons, Split2. Qed.

Lemma Split4 p q r t :
  without colon p = true -> without colon q = true -> without colon r = true -> without colon t = true ->
  Split (p +:+ ":" +:+ q +:+ ":" +:+ r +:+ ":" +:+ t) colon = [p; q; r; t].
Proof.
  intros Hp Hq Hr Ht. change (":" +:+ q +:+ ":" +:+ r +:+ ":" +:+ t) with (String colon (q +:+ ":" +:+ r +:+ ":" +:+ t)).
  by rewrite Split_cons, Split3.
Qed.

Lemma int_index_text i : int_index i -> Atoi (Itoa i) = Some i /\ without colon (Itoa i) = true.
Proof. intros [H1 H2]. split; [by apply Atoi_Itoa|by apply digits_without]. Qed.

Lemma index_part_Itoa i bound : 0 <= i <= bound -> bound <= unbounded -> index_part (Itoa i) bound = Some i.
Proof.
  unfold unbounded. intros H1 H2. unfold index_part. rewrite Atoi_Itoa by lia.
  by rewrite (proj2 (Z.ltb_ge _ _)), (proj2 (Z.ltb_ge _ _)) by lia.
Qed.

Lemma fixed_length_nonempty s n : String.length s = S n -> String.eqb s "" = false.
Proof. by destruct s. Qed.

(** The cases of a membership in a list, and in a table. *)
Ltac each_case H :=
  first [ by apply not_elem_of_nil in H
        | apply elem_of_cons in H as [->|H]; [|each_case H] ].
Ltac each_row H :=
  first [ by apply not_elem_of_nil in H
        | apply elem_of_cons in H as [H|H]; [injection H as ?; subst|each_row H] ].

Lemma read_plain kind step action nonce :
  (kind, step, action) ∈ plain_buttons -> random_nonce nonce ->
  read_button (data_plain (kind +:+ ":" +:+ step) nonce) = Some (PressDialogue action nonce 0).
Proof.
  intros Hin [Hl Hw]%random_nonce_text. pose proof (fixed_length_nonempty _ _ Hl) as Hne.
  unfold read_button, parseNodesCallback, parseDeploymentCallback, parseCallbackData, data_plain. rewrite !string_app_assoc.
  unfold plain_buttons in Hin. each_row Hin; (rewrite Split3 by done; cbn -[index_part]; by rewrite Hne).
Qed.

Lemma read_indexed kind step action bound nonce i :
  (kind, step, action, bound) ∈ indexed_buttons -> random_nonce nonce -> 0 <= i <= bound ->
  read_button (data_indexed (kind +:+ ":" +:+ step) nonce i) = Some (PressDialogue action nonce i).
Proof.
  intros Hin [Hl Hw]%random_nonce_text Hi. pose proof (fixed_length_nonempty _ _ Hl) as Hne.
  unfold read_button, parseNodesCallback, parseDeploymentCallback, parseCallbackData, data_indexed. rewrite !string_app_assoc.
  unfold indexed_buttons in Hin.
  each_row Hin; (rewrite Split4 by first [done | apply digits_without; [done|lia]]; cbn -[index_part unbounded]; rewrite Hne;
    cbn -[index_part unbounded]; rewrite index_part_Itoa by (unfold unbounded in *; lia); done).
Qed.

Lemma read_nodes data action : parseNodesCallback data = Some action -> read_button data = Some (PressNodes action).
Proof. intros H. unfold read_button. by rewrite H. Qed.

Lemma read_deployment action id :
  validDeploymentID id = true -> action ∈ deployment_actions -> read_button (data_deployment action id) = Some (PressDeployment action id).
Proof.
  intros Hv Hin. destruct (deployment_id_text id Hv) as [_ Hw].
  unfold read_button, parseNodesCallback, parseDeploymentCallback, data_deployment. change ("dep:" +:+ action +:+ ":" +:+ id) with ("dep" +:+ ":" +:+ action +:+ ":" +:+ id).
  unfold deployment_actions in Hin.
  each_case Hin; (rewrite Split3 by done; cbn -[validDeploymentID]; by rewrite Hv).
Qed.

(** What is read has at most this many bytes. *)
Lemma length_limit s n : (String.length s <= n)%nat -> Z.of_nat n <= 64 -> str_len s <= 64.
Proof. unfold str_len. lia. Qed.

Lemma indexed_range i bound kind step action :
  (kind, step, action, bound) ∈ indexed_buttons -> (bound = unbounded \/ i <= bound) -> int_index i -> 0 <= i <= bound.
Proof. unfold indexed_buttons, int_index. intros Hin Hb Hi. each_row Hin; unfold unbounded in *; lia. Qed.

Lemma offered_fit data press : offered data press -> press_ok press -> str_len data <= 64.
Proof.
  assert (forall i, int_index i -> (String.length (Itoa i) <= 19)%nat) as Hi by (intros i H; by apply Itoa_length).
  assert (forall id, validDeploymentID id = true -> String.length id = 36%nat) as Hid by (intros id H; by apply deployment_id_text).
  assert (forall n, random_nonce n -> String.length n = 12%nat) as Hn by (intros n H; by apply random_nonce_text).
  intros [| |i|i g p Hg|id|id|id|id|id|id|action id Hin|kind step action nonce Hin|kind step action bound nonce i Hin Hb] H;
    cbn [press_ok] in H;
    try done; unfold data_panel, data_group, data_open, data_ip, data_move, data_ip_method, data_deployment, data_plain, data_indexed, str_len;
    rewrite ?string_length_app; try (specialize (Hid _ H); simpl; lia).
  - specialize (Hi _ H). simpl. lia.
  - destruct H as (H1 & H2). pose proof (Hi _ H1). pose proof (Hi _ H2). each_case Hg; simpl; lia.
  - specialize (Hid _ H). unfold deployment_actions in Hin. each_case Hin; simpl; lia.
  - destruct H as [H _]. specialize (Hn _ H). unfold plain_buttons in Hin. each_row Hin; simpl; lia.
  - destruct H as [H H']. specialize (Hn _ H). pose proof (Hi i H'). clear Hb. unfold indexed_buttons in Hin. each_row Hin; simpl; lia.
Qed.

(** A button of one Node. *)
Ltac read_id :=
  match goal with H : validDeploymentID ?id = true |- _ =>
    destruct (deployment_id_text id H) as [_ Hw]; first [rewrite Split4 by done|rewrite Split3 by done];
    cbn -[validDeploymentID]; rewrite H end.

Lemma offered_reads data press : offered data press -> press_ok press -> read_button data = Some press.
Proof.
  intros [| |i|i g p Hg|id|id|id|id|id|id|action id Hin|kind step action nonce Hin|kind step action bound nonce i Hin Hb] H;
    cbn [press_ok] in H; try reflexivity; [..|by apply read_deployment|by apply read_plain; [|apply H]|]; cycle -1.
  { destruct H as [H Hi]. eapply read_indexed; [exact Hin|done|]. by eapply indexed_range. }
  all: apply read_nodes; unfold parseNodesCallback.
  - destruct (int_index_text i H) as [Ha Hw]. change (data_panel i) with ("nodes" +:+ ":" +:+ "p" +:+ ":" +:+ Itoa i).
    rewrite Split3 by done. cbn -[Atoi]. rewrite Ha. by rewrite (proj2 (Z.leb_le _ _)) by apply H.
  - destruct H as (H & H0). destruct (int_index_text i H) as [Ha Hw], (int_index_text p H0) as [Hb Hv].
    change (data_group i g p) with ("nodes" +:+ String colon ("g" +:+ ":" +:+ Itoa i +:+ ":" +:+ g +:+ ":" +:+ Itoa p)).
    rewrite Split_cons by done. unfold int_index in *. each_case Hg; (rewrite Split4 by done; cbn -[Atoi]; rewrite Ha, Hb;
      rewrite (proj2 (Z.leb_le _ _)), (proj2 (Z.leb_le _ _)) by lia; reflexivity).
  - change (data_open id) with ("nodes" +:+ ":" +:+ "o" +:+ ":" +:+ id). by read_id.
  - change (data_ip id) with ("nodes" +:+ ":" +:+ "ip" +:+ ":" +:+ id). by read_id.
  - change (data_move id) with ("nodes" +:+ ":" +:+ "move" +:+ ":" +:+ id). by read_id.
  - change (data_ip_method "panel" id) with ("nodes" +:+ ":" +:+ "ip" +:+ ":" +:+ "panel" +:+ ":" +:+ id). by read_id.
  - change (data_ip_method "cherry" id) with ("nodes" +:+ ":" +:+ "ip" +:+ ":" +:+ "cherry" +:+ ":" +:+ id). by read_id.
  - change (data_ip_method "royal" id) with ("nodes" +:+ ":" +:+ "ip" +:+ ":" +:+ "royal" +:+ ":" +:+ id). by read_id.
Qed.

(** ** The keyboards and their presses

    Every inline keyboard of the program with the presses of its buttons,
    row by row. *)
Definition dialogue (nonce action : string) : button_press := PressDialogue action nonce 0.
Definition choices {A} (action nonce : string) (l : list A) : list button_press :=
  imap (fun index _ => PressDialogue action nonce (Z.of_nat index)) l.
Definition opens (nodes : list NodeSummary) : list button_press := (fun node => PressNodes (NodesOpen (n_UUID node))) <$> nodes.
Definition when {A} (b : bool) (x : A) : list A := if b then [x] else [].

(** The choices of a panel: the prefix of the data and the action. *)
Definition panel_choices : list (string * string) :=
  [("add:panel", "panel"); ("ip:panel", "ip_panel"); ("ip:spanel", "server_panel"); ("dns:panel", "dns_panel")].

Inductive means `{!GoSort} : Keyboard -> list button_press -> Prop :=
  (* the dialogues *)
  | means_none kb : k_Inline kb = [] -> means kb []
  | means_confirmation nonce : means (confirmationKeyboard nonce) (dialogue nonce <$> ["deploy"; "cancel"])
  | means_ip_change nonce : means (ipChangeKeyboard nonce) (dialogue nonce <$> ["ip_change"; "ip_cancel"])
  | means_dns_sync nonce canSync : means (dnsSyncKeyboard nonce canSync) (dialogue nonce <$> (when canSync "dns_sync" ++ ["dns_cancel"]))
  | means_move_confirm nonce : means (move_confirm_keyboard nonce) (dialogue nonce <$> ["move_apply"; "move_cancel"])
  | means_move_host nonce hosts :
      means (inline_keyboard (move_host_rows nonce hosts)) (choices "move_host" nonce hosts ++ [dialogue nonce "move_cancel"])
  | means_host nonce label (hosts : list Host) : means (inline_keyboard (indexed_rows "add:host" nonce label hosts)) (choices "host" nonce hosts)
  | means_panels prefix action nonce panels :
      (prefix, action) ∈ panel_choices -> means (inline_keyboard (panel_rows prefix nonce panels)) (choices action nonce panels)
  | means_ip_mode app nonce :
      means (inline_keyboard (ip_mode_rows app nonce))
        (PressDialogue "ip_mode" nonce <$> (when (NodeIPApplication app) 0 ++ when (CherryIPApplication app) 1 ++
          when (RoyalIPApplication app) 2 ++ when (NodeDNSSyncApplication app) 3))
  | means_scope nonce : means (inline_keyboard (server_scope_rows nonce)) (PressDialogue "server_scope" nonce <$> [0; 1])
  | means_manual_scope label nonce : means (inline_keyboard [button_row label (data_indexed "ip:scope" nonce 1)]) [PressDialogue "server_scope" nonce 1]
  (* the deployments *)
  | means_deployments label items :
      means (inline_keyboard ((fun item => button_row (label item) (data_deployment "open" (ds_ID item))) <$> items))
        ((fun item => PressDeployment "open" (ds_ID item)) <$> items)
  | means_deployment details :
      means (deploymentActionsKeyboard details)
        ((fun action => PressDeployment action (ds_ID (dd_Summary details))) <$>
          (["logs"] ++ when (dd_CanRepairCert details) "repair_cert" ++ when (dd_CanRetryDNS details) "dns" ++
           when (dd_CanRetryStep details && negb (dd_CanRepairCert details)) "retry" ++ when (dd_CanRecheck details) "recheck" ++
           when (dd_CanCancel details) "cancel"))
  | means_logs id : means (deploymentLogsKeyboard id) [PressDeployment "logs" id; PressDeployment "open" id]
  (* the Node screens *)
  | means_root label : means (inline_keyboard [button_row label "nodes:root"]) [PressNodes NodesRoot]
  | means_open label id : means (inline_keyboard [button_row label (data_open id)]) [PressNodes (NodesOpen id)]
  | means_ip label id : means (inline_keyboard [button_row label (data_ip id)]) [PressNodes (NodesChangeIP id)]
  | means_ip_method app id :
      means (inline_keyboard (ip_method_rows app id))
        (PressNodes <$> ([NodesChangeIPPanel id] ++ when (CherryIPApplication app) (NodesChangeIPCherry id) ++
          when (RoyalIPApplication app) (NodesChangeIPRoyal id) ++ [NodesOpen id]))
  | means_node_panels snapshots :
      means (snd (nodePanels_screen snapshots)) (PressNodes NodesSearch :: imap (fun i _ => PressNodes (NodesPanel (Z.of_nat i))) snapshots)
  | means_node_panel i snapshot :
      means (snd (nodePanel_screen i snapshot))
        (PressNodes <$> [NodesGroup i nodeGroupCritical 0; NodesGroup i nodeGroupDisabled 0; NodesGroup i nodeGroupActive 0; NodesRoot])
  | means_node_group i snapshot group requested text kb :
      nodeGroup_screen i snapshot group requested = Some (text, kb) -> group ∈ [nodeGroupCritical; nodeGroupDisabled; nodeGroupActive] ->
      let nodes := snapshot_nodes snapshot group in
      let pages := total_pages (Z.of_nat (length nodes)) in
      let page := clamp_page pages requested in
      means kb (opens (page_nodes nodes page) ++ (PressNodes <$>
        (when (0 <? page) (NodesGroup i group (page - 1)) ++ when (page + 1 <? pages) (NodesGroup i group (page + 1)) ++ [NodesPanel i])))
  | means_node_card app uuid snapshots :
      means (snd (nodeCard_screen app uuid snapshots))
        (PressNodes <$> match find_node uuid 0 snapshots with
         | Some (i, _, node) =>
           when (NodeIPApplication app) (NodesChangeIP (n_UUID node)) ++ when (NodeHostMoveApplication app) (NodesMoveHost (n_UUID node)) ++
           [NodesOpen (n_UUID node); NodesPanel (Z.of_nat i)]
         | None => [NodesRoot]
         end)
  | means_search query matches :
      means (snd (search_screen query matches)) (opens (firstn nodeSearchResultLimit matches) ++ [PressNodes NodesRoot])
  (* the alerts of the monitor *)
  | means_alert app node :
      means (alert_keyboard app node)
        (PressNodes <$> (when (NodeIPApplication app) (NodesChangeIP (n_UUID node)) ++
          when (NodeHostMoveApplication app) (NodesMoveHost (n_UUID node)) ++ [NodesOpen (n_UUID node)]))
  | means_recovery node : means (recovery_keyboard node) [PressNodes (NodesOpen (n_UUID node))].

(** A keyboard whose buttons are offered with these presses, row by row. *)
Definition rows_offer (rows : list (list Button)) (presses : list button_press) : Prop :=
  Forall2 (fun button press => offered (b_CallbackData button) press) (concat rows) presses.

Lemma rows_offer_nil : rows_offer [] []. Proof. constructor. Qed.
Lemma rows_offer_app rows rows' ps ps' : rows_offer rows ps -> rows_offer rows' ps' -> rows_offer (rows ++ rows') (ps ++ ps').
Proof. unfold rows_offer. rewrite concat_app. apply Forall2_app. Qed.
Lemma rows_offer_row text data press rows ps : offered data press -> rows_offer rows ps -> rows_offer (button_row text data :: rows) (press :: ps).
Proof. by constructor. Qed.
Lemma rows_offer_one row ps : Forall2 (fun button press => offered (b_CallbackData button) press) row ps -> rows_offer [row] ps.
Proof. unfold rows_offer. cbn [concat]. by rewrite app_nil_r. Qed.
Lemma rows_offer_when (b : bool) text data press : offered data press -> rows_offer (if b then [button_row text data] else []) (when b press).
Proof. intros H. destruct b; [by apply rows_offer_row, rows_offer_nil|apply rows_offer_nil]. Qed.
Lemma rows_offer_imap {A} (label : nat -> A -> string) data press (l : list A) :
  (forall i, offered (data i) (press i)) -> rows_offer (imap (fun i x => button_row (label i x) (data i)) l) (imap (fun i _ => press i) l).
Proof.
  revert label data press. induction l as [|x l IH]; intros label data press H; [constructor|]. cbn. apply rows_offer_row; [done|].
  apply (IH (label ∘ S) (data ∘ S) (press ∘ S)). intros i. apply H.
Qed.
Lemma rows_offer_fmap {A} (label : A -> string) data press (l : list A) :
  (forall x, offered (data x) (press x)) -> rows_offer ((fun x => button_row (label x) (data x)) <$> l) (press <$> l).
Proof. intros H. induction l as [|x l IH]; [constructor|]. cbn. by apply rows_offer_row. Qed.

(** Decides membership in a closed table. *)
Ltac in_table := repeat first [apply list_elem_of_here | apply list_elem_of_further].

(** One button: its constructor, or the row of its table. *)
Ltac offer :=
  first [ solve [constructor]
        | solve [apply offer_deployment; unfold deployment_actions; in_table]
        | solve [eapply (offer_plain "add"); unfold plain_buttons; in_table] | solve [eapply (offer_plain "ip"); unfold plain_buttons; in_table]
        | solve [eapply (offer_plain "dns"); unfold plain_buttons; in_table] | solve [eapply (offer_plain "move"); unfold plain_buttons; in_table] ].
Lemma indexed_rows_offer {A} kind step action nonce (label : A -> string) l :
  (kind, step, action, unbounded) ∈ indexed_buttons ->
  rows_offer (indexed_rows (kind +:+ ":" +:+ step) nonce label l) (choices action nonce l).
Proof.
  intros H. unfold indexed_rows, choices. apply (rows_offer_imap (fun _ => label)). intros i. eapply offer_indexed; [exact H|by left].
Qed.

Lemma fmap_when {A B} (f : A -> B) (b : bool) a : f <$> when b a = when b (f a).
Proof. by destruct b. Qed.

Lemma ip_mode_offer app nonce :
  rows_offer (ip_mode_rows app nonce) (PressDialogue "ip_mode" nonce <$> (when (NodeIPApplication app) 0 ++ when (CherryIPApplication app) 1 ++
    when (RoyalIPApplication app) 2 ++ when (NodeDNSSyncApplication app) 3)).
Proof.
  assert (forall i, i <= 3 -> offered (data_indexed "ip:mode" nonce i) (PressDialogue "ip_mode" nonce i)) as H.
  { intros i Hi. apply (offer_indexed "ip" "mode" "ip_mode" 3); [unfold indexed_buttons; in_table|by right]. }
  unfold ip_mode_rows. rewrite !fmap_app, !fmap_when. repeat apply rows_offer_app; apply rows_offer_when, H; lia.
Qed.
Lemma scope_offered nonce i : i <= 1 -> offered (data_indexed "ip:scope" nonce i) (PressDialogue "server_scope" nonce i).
Proof. intros Hi. apply (offer_indexed "ip" "scope" "server_scope" 1); [unfold indexed_buttons; in_table|by right]. Qed.

Lemma navigation_offer (back more : bool) text text' data data' press press' :
  offered data press -> offered data' press' ->
  let navigation := (if back then [mkButton text data] else []) ++ (if more then [mkButton text' data'] else []) in
  rows_offer (match navigation with [] => [] | _ => [navigation] end) (when back press ++ when more press').
Proof. intros H H'. destruct back, more; cbn; try apply rows_offer_nil; apply rows_offer_one; repeat constructor; done. Qed.

Lemma node_group_offer i snapshot group requested text kb :
  nodeGroup_screen i snapshot group requested = Some (text, kb) -> group ∈ [nodeGroupCritical; nodeGroupDisabled; nodeGroupActive] ->
  let nodes := snapshot_nodes snapshot group in
  let pages := total_pages (Z.of_nat (length nodes)) in
  let page := clamp_page pages requested in
  rows_offer (k_Inline kb) (opens (page_nodes nodes page) ++ (PressNodes <$>
    (when (0 <? page) (NodesGroup i group (page - 1)) ++ when (page + 1 <? pages) (NodesGroup i group (page + 1)) ++ [NodesPanel i]))).
Proof.
  intros Hs Hg nodes. unfold nodeGroup_screen in Hs. fold nodes in Hs. destruct nodes as [|node rest]; [done|].
  injection Hs as _ <-. intros pages page. cbn [k_Inline inline_keyboard]. apply rows_offer_app.
  { apply rows_offer_fmap. intros x. constructor. }
  rewrite app_assoc, fmap_app. apply rows_offer_app; [|apply rows_offer_row; [constructor|apply rows_offer_nil]].
  rewrite fmap_app, !fmap_when. by apply navigation_offer; constructor.
Qed.

Lemma means_offers {sorting : GoSort} kb ps : means kb ps -> rows_offer (k_Inline kb) ps.
Proof.
  intros [kb' E|nonce|nonce|nonce canSync|nonce|nonce hosts|nonce label hosts|prefix action nonce panels Hin|app nonce|nonce|label nonce
    |label items|details|id|label|label id|label id|app id|snapshots|i snapshot|i snapshot group requested text kb' E Hg|app uuid snapshots
    |query matches|app node|node].
  - rewrite E. apply rows_offer_nil.
  - repeat (apply rows_offer_row; [offer|]). apply rows_offer_nil.
  - apply rows_offer_one. repeat (constructor; [offer|]). constructor.
  - destruct canSync; [apply rows_offer_one|apply rows_offer_one]; repeat (constructor; [offer|]); constructor.
  - apply rows_offer_one. repeat (constructor; [offer|]). constructor.
  - apply rows_offer_app; [apply (indexed_rows_offer "move" "host"); unfold indexed_buttons; in_table|].
    apply rows_offer_row; [offer|apply rows_offer_nil].
  - apply (indexed_rows_offer "add" "host"). unfold indexed_buttons; in_table.
  - unfold panel_choices in Hin. cbn [k_Inline inline_keyboard]. unfold panel_rows.
    each_row Hin; [apply (indexed_rows_offer "add" "panel")|apply (indexed_rows_offer "ip" "panel")
      |apply (indexed_rows_offer "ip" "spanel")|apply (indexed_rows_offer "dns" "panel")]; unfold indexed_buttons; in_table.
  - apply ip_mode_offer.
  - repeat (apply rows_offer_row; [apply scope_offered; lia|]). apply rows_offer_nil.
  - apply rows_offer_row; [apply scope_offered; lia|apply rows_offer_nil].
  - apply rows_offer_fmap. intros x. offer.
  - unfold deploymentActionsKeyboard. cbn [k_Inline inline_keyboard]. rewrite !fmap_app, !fmap_when. repeat apply rows_offer_app; try (apply rows_offer_when; offer). apply rows_offer_row; [offer|apply rows_offer_nil].
  - apply (rows_offer_app [_] [_] [_] [_]); apply rows_offer_one; (constructor; [|constructor]).
    + apply (offer_deployment "logs"). unfold deployment_actions. in_table.
    + apply (offer_deployment "open"). unfold deployment_actions. in_table.
  - apply rows_offer_row; [offer|apply rows_offer_nil].
  - apply rows_offer_row; [offer|apply rows_offer_nil].
  - apply rows_offer_row; [offer|apply rows_offer_nil].
  - rewrite !fmap_app, !fmap_when. repeat apply rows_offer_app; try (apply rows_offer_when; offer); apply rows_offer_row; [offer|apply rows_offer_nil|offer|apply rows_offer_nil].
  - apply rows_offer_row; [offer|]. 
    apply (rows_offer_imap (fun _ snapshot => safeLine (p_Name (ns_Panel snapshot)) 42 +:+ " — " +:+ Itoa (Z.of_nat (length (ns_All snapshot))))).
    intros j. offer.
  - do 3 (apply rows_offer_row; [apply offer_group; in_table|]). apply rows_offer_row; [offer|apply rows_offer_nil].
  - by eapply node_group_offer.
  - unfold nodeCard_screen. destruct (find_node uuid 0 snapshots) as [[[i snapshot] node]|]; cbn [snd k_Inline inline_keyboard].
    + rewrite !fmap_app, !fmap_when. repeat apply rows_offer_app; try (apply rows_offer_when; offer).
      repeat (apply rows_offer_row; [offer|]). apply rows_offer_nil.
    + apply rows_offer_row; [offer|apply rows_offer_nil].
  - apply rows_offer_app; [|apply rows_offer_row; [offer|apply rows_offer_nil]].
    apply rows_offer_fmap. intros x. offer.
  - unfold alert_keyboard. cbn [k_Inline inline_keyboard]. rewrite !fmap_app, !fmap_when. repeat apply rows_offer_app; try (apply rows_offer_when; offer).
    apply rows_offer_row; [offer|apply rows_offer_nil].
  - apply rows_offer_row; [offer|apply rows_offer_nil].
Qed.

Lemma means_reads {sorting : GoSort} kb ps :
  means kb ps -> Forall press_ok ps ->
  Forall2 (fun button press => read_button (b_CallbackData button) = Some press /\ str_len (b_CallbackData button) <= 64) (concat (k_Inline kb)) ps.
Proof.
  intros Hm%means_offers Hok. unfold rows_offer in Hm. induction Hm as [|button press row ps Ho Hm IH]; [constructor|].
  apply Forall_cons_1 in Hok as [H Hok]. constructor; [split; [by apply offered_reads|by eapply offered_fit]|by apply IH].
Qed.

(** ** The keyboards the program shows *)
Definition keyboard_of {X} (e : tgE X) : option Keyboard :=
  match e with SendMessage _ _ keyboard | EditMessage _ _ _ keyboard => Some keyboard | _ => None end.

Section Shows.
Context {sorting : GoSort}.

(** A keyboard of the program whose presses satisfy [Q], and a call that
    shows no other. *)
Definition known (Q : button_press -> Prop) (kb : Keyboard) : Prop := exists ps, means kb ps /\ Forall Q ps.
Definition shows (Q : button_press -> Prop) (X : Type) (e : tgE X) : Prop :=
  match keyboard_of e with Some kb => known Q kb | None => True end.
Definition any_press (press : button_press) : Prop := True.
Definition press_in (actions : list string) (press : button_press) : Prop :=
  match press with PressDialogue action _ _ => action ∈ actions | _ => False end.

Lemma known_none Q kb : k_Inline kb = [] -> known Q kb.
Proof. exists []. split; [by constructor|constructor]. Qed.
Lemma known_any kb ps : means kb ps -> known any_press kb.
Proof. intros H. exists ps. split; [done|]. by apply Forall_true. Qed.
Lemma known_in actions kb ps : means kb ps -> Forall (press_in actions) ps -> known (press_in actions) kb.
Proof. intros H Hp. by exists ps. Qed.
Lemma choices_in {A} actions action nonce (l : list A) : action ∈ actions -> Forall (press_in actions) (choices action nonce l).
Proof.
  intros H. unfold choices. apply Forall_lookup. intros i press Hl. rewrite list_lookup_imap in Hl.
  destruct (l !! i); [by injection Hl as <-|done].
Qed.
Lemma plain_in actions nonce l : Forall (fun action => action ∈ actions) l -> Forall (press_in actions) (dialogue nonce <$> l).
Proof. intros H. by apply Forall_fmap. Qed.
Lemma indexed_in actions action nonce l : action ∈ actions -> Forall (press_in actions) (PressDialogue action nonce <$> l).
Proof. intros H. by apply Forall_fmap, Forall_true. Qed.
End Shows.

Create HintDb tgkb.
#[export] Hint Extern 0 (known _ no_keyboard) => apply known_none; reflexivity : tgkb.
#[export] Hint Extern 0 (known _ mainKeyboard) => apply known_none; reflexivity : tgkb.
#[export] Hint Extern 2 (known any_press _) => eapply known_any; solve [econstructor; unfold panel_choices; in_table] : tgkb.
(** The presses of a keyboard of a dialogue are among the listed ones. *)
Ltac in_actions :=
  first [ apply choices_in; in_table | apply plain_in; try (match goal with |- context [when ?b _] => destruct b end); repeat constructor; in_table | apply indexed_in; in_table
        | repeat constructor; in_table ].
#[export] Hint Extern 2 (known (press_in _) _) => eapply known_in; [solve [econstructor; unfold panel_choices; in_table]|solve [in_actions]] : tgkb.
#[export] Hint Extern 1 (calls_all (shows _) (call _)) => apply calls_all_call; first [exact I | unfold shows; cbn [keyboard_of]; eauto with tgkb] : tgkb.

Ltac kb_step :=
  first [ calls_all_step | solve [eauto with tgkb]
        | lazymatch goal with |- calls_all _ (panic_with _) => split; [exact I|intros []] end ].
Ltac kb_auto := repeat kb_step.

Section Common.
Context {sorting : GoSort} (Q : button_press -> Prop) (app : Capabilities) (ttl : Z) (policy : NodePolicy).

Lemma ignored_kb {A} (p : T A) : calls_all (shows Q) p -> calls_all (shows Q) (ignored p).
Proof. intros H. unfold ignored. by kb_auto. Qed.
#[local] Hint Resolve ignored_kb : tgkb.
Lemma send_kb c t k : known Q k -> calls_all (shows Q) (send c t k). Proof. intros H. unfold send. kb_auto. Qed.
Lemma edit_kb c m t k : known Q k -> calls_all (shows Q) (edit c m t k). Proof. intros H. unfold edit. kb_auto. Qed.
#[local] Hint Resolve send_kb edit_kb : tgkb.
Lemma edit__kb c m t k : known Q k -> calls_all (shows Q) (edit_ c m t k). Proof. intros H. unfold edit_. kb_auto. Qed.
Lemma sendOrEdit_kb c m t k : known Q k -> calls_all (shows Q) (sendOrEdit c m t k). Proof. intros H. unfold sendOrEdit. kb_auto. Qed.
Lemma answer__kb i t : calls_all (shows Q) (answer_ i t). Proof. unfold answer_. kb_auto. Qed.
Lemma cancel__kb i : calls_all (shows Q) (cancel_ i). Proof. unfold cancel_. kb_auto. Qed.
#[local] Hint Resolve edit__kb answer__kb cancel__kb : tgkb.
Lemma cancelPrepared_kb i : calls_all (shows Q) (cancelPrepared i). Proof. unfold cancelPrepared. kb_auto. Qed.
#[local] Hint Resolve cancelPrepared_kb : tgkb.
Lemma load_kb u : calls_all (shows Q) (load u). Proof. unfold load. kb_auto. Qed.
Lemma updated_kb r : calls_all (shows Q) (updated r). Proof. unfold updated. kb_auto. Qed.
Lemma take_kb u n st : calls_all (shows Q) (take u n st). Proof. unfold take. kb_auto. Qed.
Lemma copy_password_kb u n st : calls_all (shows Q) (copy_password u n st). Proof. unfold copy_password. kb_auto. Qed.
Lemma clear_kb w : calls_all (shows Q) (clear w). Proof. unfold clear. kb_auto. Qed.
Lemma clearBytes_kb b : calls_all (shows Q) (clearBytes b). Proof. unfold clearBytes. kb_auto. Qed.
Lemma randomNonce_kb : calls_all (shows Q) randomNonce. Proof. unfold randomNonce. kb_auto. Qed.
#[local] Hint Resolve load_kb updated_kb take_kb copy_password_kb clear_kb clearBytes_kb randomNonce_kb : tgkb.
Lemma update_kb u n st f : calls_all (shows Q) (update u n st f). Proof. unfold update. kb_auto. Qed.
Lemma cancelExisting_kb u : calls_all (shows Q) (cancelExisting u). Proof. unfold cancelExisting. kb_auto. Qed.
Lemma begin_session_kb u c n st f : calls_all (shows Q) (begin_session ttl u c n st f). Proof. unfold begin_session, put. kb_auto. Qed.
Lemma expiredCallback_kb cb msg : calls_all (shows Q) (expiredCallback cb msg). Proof. unfold expiredCallback. kb_auto. Qed.
Lemma sendExpired_kb c : calls_all (shows Q) (sendExpired c). Proof. unfold sendExpired. kb_auto. Qed.
Lemma nodeSnapshots_kb : calls_all (shows Q) (nodeSnapshots policy). Proof. unfold nodeSnapshots. kb_auto. Qed.
Lemma deliver_kb c m t : calls_all (shows Q) (deliverDNSSyncResult c m t). Proof. unfold deliverDNSSyncResult. kb_auto. Qed.
Lemma resolve_kb i : calls_all (shows Q) (resolveNodeCardIPTarget app i). Proof. unfold resolveNodeCardIPTarget. kb_auto. Qed.
Lemma start_kb w : calls_all (shows Q) (start w). Proof. unfold start. kb_auto. Qed.
#[local] Hint Resolve update_kb cancelExisting_kb begin_session_kb expiredCallback_kb sendExpired_kb nodeSnapshots_kb deliver_kb resolve_kb start_kb : tgkb.
Lemma choose_panel_kb cb msg w st panels one many prefix ask offer :
  (forall nonce, known Q (inline_keyboard (panel_rows prefix nonce panels))) ->
  calls_all (shows Q) (choose_panel cb msg w st panels one many prefix ask offer).
Proof. intros H. unfold choose_panel. kb_auto. Qed.
Lemma choose_from_kb {A} cb msg w st (l : list A) i k :
  (forall x, calls_all (shows Q) (k x)) -> calls_all (shows Q) (choose_from cb msg w st l i k).
Proof. intros H. unfold choose_from. kb_auto. Qed.
Lemma update_or_expired_kb cb msg w st f k : calls_all (shows Q) k -> calls_all (shows Q) (update_or_expired cb msg w st f k).
Proof. intros H. unfold update_or_expired. kb_auto. Qed.
Lemma take_or_expired_kb cb msg w st k : calls_all (shows Q) k -> calls_all (shows Q) (take_or_expired cb msg w st k).
Proof. intros H. unfold take_or_expired. kb_auto. Qed.
Lemma show_or_take_back_kb cb msg n st t kb : known Q kb -> calls_all (shows Q) (show_or_take_back cb msg n st t kb).
Proof. intros H. unfold show_or_take_back. kb_auto. Qed.
Lemma preview_kb m w st t kb : known Q kb -> calls_all (shows Q) (preview m w st t kb).
Proof. intros H. unfold preview. kb_auto. Qed.
Lemma take_with_password_kb m w st status work : calls_all (shows Q) (take_with_password m w st status work).
Proof. unfold take_with_password. kb_auto. Qed.
End Common.

#[export] Hint Resolve ignored_kb send_kb edit_kb edit__kb sendOrEdit_kb answer__kb cancel__kb cancelPrepared_kb load_kb updated_kb take_kb
  copy_password_kb clear_kb clearBytes_kb randomNonce_kb update_kb cancelExisting_kb begin_session_kb expiredCallback_kb sendExpired_kb
  nodeSnapshots_kb deliver_kb resolve_kb start_kb choose_panel_kb choose_from_kb update_or_expired_kb take_or_expired_kb
  show_or_take_back_kb preview_kb take_with_password_kb : tgkb.

(** With the continuations of the guarded steps. *)
Ltac kb_handler :=
  repeat first
    [ lazymatch goal with
      | |- calls_all _ (update_or_expired _ _ _ _ _ _) => apply update_or_expired_kb
      | |- calls_all _ (take_or_expired _ _ _ _ _) => apply take_or_expired_kb
      | |- calls_all _ (choose_from _ _ _ _ _ _ _) => apply choose_from_kb; intros
      end
    | kb_step ].

(** Every handler, in the order of the controller. *)
Section Handlers.
Context {sorting : GoSort} (app : Capabilities) (allowed : gset Z) (ttl : Z) (policy : NodePolicy).
Notation shown := (calls_all (shows any_press)).

Lemma card_kb c m i n : shown (showDeploymentCard c m i n). Proof. unfold showDeploymentCard. kb_auto. Qed.
Lemma deployments_kb c : shown (showDeployments c). Proof. unfold showDeployments. kb_auto. Qed.
Lemma failure_kb c m : shown (renderNodeInventoryFailure c m). Proof. unfold renderNodeInventoryFailure. kb_auto. Qed.
#[local] Hint Resolve card_kb deployments_kb failure_kb : tgkb.
Lemma screen_kb c m screen : (forall text kb, screen = Some (text, kb) -> known any_press kb) -> shown (show_screen c m screen).
Proof. intros H. unfold show_screen. kb_auto. Qed.
Lemma panels_kb c m : shown (showNodePanels policy c m).
Proof. unfold showNodePanels. kb_auto. apply screen_kb. intros text kb. destruct a; [|done]. intros [= <- <-]. eapply known_any, means_node_panels. Qed.
Lemma panel_kb c m i : shown (showNodePanel policy c m i).
Proof.
  unfold showNodePanel. kb_auto. apply screen_kb. intros text kb. destruct a as [snapshots|]; [|done]. destruct (at_index snapshots i); [|done]. intros [= <- <-].
  eapply known_any, means_node_panel.
Qed.
Lemma group_kb c m i group page :
  group ∈ [nodeGroupCritical; nodeGroupDisabled; nodeGroupActive] -> shown (showNodeGroup policy c m i group page).
Proof.
  intros Hg. unfold showNodeGroup. kb_auto. apply screen_kb. intros text kb. destruct a as [snapshots|]; [|done].
  destruct (at_index snapshots i); [|done]. intros H. by eapply known_any, means_node_group.
Qed.
Lemma node_card_kb c m i : shown (showNodeCard app policy c m i).
Proof.
  unfold showNodeCard. kb_auto. apply screen_kb. intros text kb. destruct a as [snapshots|]; [|done]. intros [= E].
  pose proof (means_node_card app i snapshots) as H. rewrite E in H. by eapply known_any.
Qed.
#[local] Hint Resolve panels_kb panel_kb group_kb node_card_kb : tgkb.
Lemma search_known query matches text kb : search_screen query matches = (text, kb) -> known any_press kb.
Proof. intros E. pose proof (means_search query matches) as H. rewrite E in H. by eapply known_any. Qed.
#[local] Hint Resolve search_known : tgkb.
Lemma search_kb cb msg : shown (beginNodeSearch ttl cb msg). Proof. unfold beginNodeSearch, search_cancel. kb_auto. Qed.
Lemma accept_search_kb m w : shown (acceptNodeSearch m w). Proof. unfold acceptNodeSearch, search_cancel. kb_auto. Qed.
Lemma move_failure_kb msg i : shown (renderNodeMoveFailure msg i). Proof. unfold renderNodeMoveFailure. kb_auto. Qed.
Lemma ip_failure_kb msg i : shown (renderNodeIPStartFailure msg i). Proof. unfold renderNodeIPStartFailure. kb_auto. Qed.
#[local] Hint Resolve search_kb accept_search_kb move_failure_kb ip_failure_kb : tgkb.
Lemma move_kb cb msg i : shown (beginNodeHostMove app ttl cb msg i). Proof. unfold beginNodeHostMove. kb_auto. Qed.
Lemma ip_options_kb msg i : shown (showNodeIPOptions app msg i). Proof. unfold showNodeIPOptions. kb_auto. Qed.
Lemma card_panel_ip_kb cb msg i : shown (beginNodeCardPanelIPChange app ttl cb msg i). Proof. unfold beginNodeCardPanelIPChange. kb_auto. Qed.
Lemma card_server_ip_kb cb msg i p : shown (beginNodeCardServerIPChange app ttl cb msg i p).
Proof. unfold beginNodeCardServerIPChange. kb_auto. Qed.
#[local] Hint Resolve move_kb ip_options_kb card_panel_ip_kb card_server_ip_kb : tgkb.

(** A group in the data of a button is one of the three. *)
Lemma parsed_group data i group page :
  parseNodesCallback data = Some (NodesGroup i group page) -> group ∈ [nodeGroupCritical; nodeGroupDisabled; nodeGroupActive].
Proof.
  unfold parseNodesCallback. destruct (Split data colon) as [|p0 rest]; [done|]. destruct (negb _); [done|].
  destruct rest as [|p1 [|p2 [|p3 [|p4 [|]]]]]; try done; repeat (case_match; try done).
  intros [= <- <- <-]. repeat match goal with H : _ && _ = true |- _ => apply andb_true_iff in H as [? H] end.
  match goal with H : one_of _ _ = true |- _ => apply existsb_exists in H as (x & Hin & ->%String.eqb_eq) end. by apply list_elem_of_In.
Qed.
Lemma nodes_callback_kb cb msg data action :
  parseNodesCallback data = Some action -> shown (handle_nodes_callback app ttl policy cb msg action).
Proof. intros H. unfold handle_nodes_callback. kb_auto. apply group_kb. subst. by eapply parsed_group. Qed.
#[local] Hint Resolve nodes_callback_kb : tgkb.

Lemma host_picker_kb u c n p : shown (showHostPicker ttl u c n p). Proof. unfold showHostPicker. kb_auto. Qed.
#[local] Hint Resolve host_picker_kb : tgkb.
Lemma add_node_kb m : shown (beginAddNode ttl m). Proof. unfold beginAddNode. kb_auto. Qed.
Lemma node_name_kb m w : shown (acceptNodeName m w). Proof. unfold acceptNodeName. kb_auto. Qed.
Lemma vps_ip_kb m w : shown (acceptVPSIP m w). Proof. unfold acceptVPSIP. kb_auto. Qed.
Lemma confirmation_kb m i : shown (show_confirmation m i). Proof. unfold show_confirmation. kb_auto. Qed.
#[local] Hint Resolve add_node_kb node_name_kb vps_ip_kb confirmation_kb : tgkb.
Lemma preflight_kb m : shown (run_preflight m). Proof. unfold run_preflight. kb_auto. Qed.
#[local] Hint Resolve preflight_kb : tgkb.
Lemma password_kb m w : shown (acceptPassword m w). Proof. unfold acceptPassword. kb_auto. Qed.
Lemma start_deployment_kb cb msg w : shown (startDeployment cb msg w). Proof. unfold startDeployment. kb_auto. Qed.
Lemma cancel_message_kb m : shown (cancelFromMessage m). Proof. unfold cancelFromMessage. kb_auto. Qed.
Lemma cancel_callback_kb cb msg w : shown (cancelFromCallback cb msg w). Proof. unfold cancelFromCallback. kb_auto. Qed.
Lemma begin_ip_kb m : shown (beginIPChange app ttl m). Proof. unfold beginIPChange. kb_auto. Qed.
#[local] Hint Resolve password_kb start_deployment_kb cancel_message_kb cancel_callback_kb begin_ip_kb : tgkb.

(** The steps of the dialogues that ask for a choice, with the actions of the
    buttons they show. *)
Inductive asks : list string -> T (option string) -> Prop :=
  | asks_host u c n p : asks ["host"] (showHostPicker ttl u c n p)
  | asks_panel m : asks ["panel"; "host"] (beginAddNode ttl m)
  | asks_confirmation m i : asks ["deploy"; "cancel"] (show_confirmation m i)
  | asks_ip_mode m : asks ["ip_mode"] (beginIPChange app ttl m)
  | asks_scope cb msg w provider : asks ["server_scope"] (beginServerIPScope app cb msg w provider)
  | asks_ip_panel cb msg w : asks ["ip_panel"] (beginPanelIPChange app cb msg w)
  | asks_server_panel cb msg w : asks ["server_panel"; "server_scope"] (beginServerNodeIPChange app cb msg w)
  | asks_dns_panel cb msg w : asks ["dns_panel"] (beginDNSSync app cb msg w)
  | asks_ip_change m w : asks ["ip_change"; "ip_cancel"] (acceptIPChangeQuery app m w)
  | asks_dns_sync m w : asks ["dns_sync"; "dns_cancel"] (acceptDNSSyncQuery app m w).

Lemma asks_shows actions p : asks actions p -> calls_all (shows (press_in actions)) p.
Proof.
  intros [];
    unfold beginAddNode, show_confirmation, beginIPChange, beginServerIPScope, beginPanelIPChange, beginServerNodeIPChange,
      beginDNSSync, acceptIPChangeQuery, acceptDNSSyncQuery, showHostPicker; kb_auto.
Qed.
Lemma asks_shown actions p : asks actions p -> shown p.
Proof.
  intros H%asks_shows. eapply calls_all_impl; [|exact H]. unfold shows. intros X e. destruct (keyboard_of e); [|done].
  intros (ps & Hm & _). by eapply known_any.
Qed.
Lemma ip_panel_kb cb msg w : shown (beginPanelIPChange app cb msg w). Proof. eapply asks_shown. constructor. Qed.
Lemma server_panel_kb cb msg w : shown (beginServerNodeIPChange app cb msg w). Proof. eapply asks_shown. constructor. Qed.
Lemma dns_panel_kb cb msg w : shown (beginDNSSync app cb msg w). Proof. eapply asks_shown. constructor. Qed.
Lemma server_scope_kb cb msg w p : shown (beginServerIPScope app cb msg w p). Proof. eapply asks_shown. constructor. Qed.
Lemma ip_query_kb m w : shown (acceptIPChangeQuery app m w). Proof. eapply asks_shown. constructor. Qed.
Lemma dns_query_kb m w : shown (acceptDNSSyncQuery app m w). Proof. eapply asks_shown. constructor. Qed.
#[local] Hint Resolve ip_panel_kb server_panel_kb dns_panel_kb server_scope_kb ip_query_kb dns_query_kb : tgkb.
Lemma new_ip_kb m w : shown (acceptNewNodeIP app m w). Proof. unfold acceptNewNodeIP. kb_auto. Qed.
Lemma current_ip_kb m w : shown (acceptServerCurrentIP m w). Proof. unfold acceptServerCurrentIP. kb_auto. Qed.
Lemma server_query_kb m w : shown (acceptServerIPNodeQuery app m w). Proof. unfold acceptServerIPNodeQuery. kb_auto. Qed.
Lemma server_new_ip_kb m w : shown (acceptServerNewIP m w). Proof. unfold acceptServerNewIP. kb_auto. Qed.
Lemma server_password_kb m w : shown (acceptServerIPPassword m w). Proof. unfold acceptServerIPPassword. kb_auto. Qed.
Lemma move_password_kb m w : shown (acceptNodeMovePassword m w). Proof. unfold acceptNodeMovePassword. kb_auto. Qed.
#[local] Hint Resolve new_ip_kb current_ip_kb server_query_kb server_new_ip_kb server_password_kb move_password_kb : tgkb.

Lemma bootstrap_kb m t : shown (bootstrap_command app m t). Proof. unfold bootstrap_command, recovery_unavailable. kb_auto. Qed.
Lemma recovery_kb m c i : shown (recovery_command app m c i).
Proof. unfold recovery_command, recovery_unavailable, sendActionResult. kb_auto. Qed.
#[local] Hint Resolve bootstrap_kb recovery_kb : tgkb.
Lemma recovery_some_kb m t p : handleRecoveryCommand app m t = Some p -> shown p.
Proof. unfold handleRecoveryCommand. intros H. repeat case_match; simplify_eq; kb_auto. Qed.
Lemma conversation_kb m w : shown (handle_conversation app m w). Proof. unfold handle_conversation. kb_auto. Qed.
#[local] Hint Resolve recovery_some_kb conversation_kb : tgkb.
Lemma message_kb m : shown (handleMessage app allowed ttl policy m).
Proof. unfold handleMessage, showMainMenu, showNodes. kb_auto. Qed.

Lemma deployment_callback_kb cb msg a i : shown (handleDeploymentCallback app cb msg a i).
Proof. unfold handleDeploymentCallback. kb_auto. Qed.
Lemma dns_confirm_kb cb msg w : shown (confirm_dns_sync app cb msg w).
Proof. unfold confirm_dns_sync. kb_handler. Qed.
#[local] Hint Resolve deployment_callback_kb dns_confirm_kb : tgkb.
Lemma action_kb cb msg w a i : shown (handle_action app ttl cb msg w a i).
Proof. unfold handle_action. kb_handler. Qed.
#[local] Hint Resolve action_kb : tgkb.
Lemma callback_kb cb : shown (handleCallback app allowed ttl policy cb).
Proof. unfold handleCallback. kb_auto. Qed.
Lemma handle_kb update : shown (Handle app allowed ttl policy update).
Proof. unfold Handle. destruct (u_CallbackQuery update); [apply callback_kb|]. destruct (u_Message update); [apply message_kb|done]. Qed.

Lemma worker_kb w : shown (run_worker app w).
Proof.
  unfold run_worker, server_ip_body, node_move_body, deployment_body, runDeploymentAction, configureServerIP, show_progress. kb_auto.
Qed.
End Handlers.

(** The keyboards of the monitor. *)
Definition mon_shows {sorting : GoSort} (X : Type) (e : monE X) : Prop := match e with MSend _ _ kb => known any_press kb | _ => True end.

Lemma monitor_kb {sorting : GoSort} app m ticks : calls_all mon_shows (Monitor_Run app m ticks).
Proof.
  assert (forall node, known any_press (alert_keyboard app node)) as Ha by (intros; eapply known_any, means_alert).
  assert (forall node, known any_press (recovery_keyboard node)) as Hr by (intros; eapply known_any, means_recovery).
  assert (forall states, calls_all mon_shows (sample app m states)) as Hs.
  { intros states. unfold sample, sample_snapshot, sample_critical, sample_active, notify.
    repeat first [calls_all_step | apply calls_all_call; first [exact I|apply Ha|apply Hr]]. }
  unfold Monitor_Run. calls_all_step; [apply Hs|].
  generalize a. induction ticks as [|ticks IH]; intros states; [done|]. cbn [run_ticks].
  repeat first [calls_all_step | apply Hs | apply IH | apply calls_all_call; exact I].
Qed.



(** ** An empty group of Nodes

    The screen of a group without Nodes is the failure screen, since an empty
    slice and a missing one are both nil. *)
Lemma empty_group_shows_failure panelIndex snapshot group page :
  snapshot_nodes snapshot group = [] -> nodeGroup_screen panelIndex snapshot group page = None.
Proof. intros H. unfold nodeGroup_screen. by rewrite H. Qed.
